(* ===== verification/_CoqProject ===== *)
-Q . S2P
Prelude.v
Mem.v
Riscv.v
Str.v
RingBuf.v
Ring.v
Locks.v
Spinlock.v
SpinlockSmp.v
Asm.v
AsmSpec.v
ListHead.v
Kalloc.v
Vm.v
VmWalk.v
VmMap.v
VmCopy.v
VmUvm.v
VmFree.v
Kstate.v
UserMem.v
SleepWakeup.v
Proc.v
ProcSpec.v
Sched.v
ProcAlloc.v
ProcMem.v
WaitSpec.v
GrowSpec.v
Sleeplock.v
SleeplockSpec.v
Uart.v
PrintfSpec.v
UartSpec.v
Console.v
ConsoleSpec.v
Pipe.v
PipeSpec.v
Blk.v
Bio.v
BioSpec.v
CacheOps.v
Virtio.v
Log.v
LogSpec.v
LogOps.v
FsOps.v
FsTxn.v
Fs.v
FileData.v
FsAlloc.v
FsFile.v
FsRw.v
FsWrite.v
FsFileSpec.v
FsDir.v
Mkfs.v
MkfsSpec.v
MkfsKernel.v
File.v
FileWrite.v
ProcFs.v
ForkSpec.v
Syscall.v
SyscallSpec.v
Trap.v
Boot.v
Usys.v
Grep.v
Sh.v
ShSpec.v
UserProgs.v
Grind.v
Umalloc.v
UmallocSpec.v
