(* ===== verification/Prelude.v ===== *)
(** * xv6-scheduler: a verification library

    A model of the xv6-riscv kernel of this repository, with its additions
    (list.c, the trace and pinfo system calls, ps, pstest, pingpong), of the
    program that makes its disk image, and of its user programs; and proofs of
    what these programs guarantee.

    ** The program and its model

    The kernel is C run by several harts over one memory.  A C function is a
    definition of the same name in the Module of its source file.  It runs in
    the monad [M] of this file: it returns a value and a state, panics with its
    message, gives up the CPU ([Switch], whose continuation takes the state in
    which the thread runs again), or is stopped by the fuel of a loop.  C
    integers are [Z] with the conversions [u8] ... [i32] written where the code
    can leave the range of its type.  A word loaded or stored through a pointer
    below the addresses the kernel maps is a page fault, which ends in the panic
    of [kerneltrap]; so is a table entry that is not there.  The code between two context switches of
    a thread is run as a sequence: interleavings are the step relations of
    SpinlockSmp.v and SleepWakeup.v, which justify it.

    - Prelude.v: integers, the monad, loops, and their lemmas and tactics.
    - Mem.v, Riscv.v, Str.v: physical memory by bytes; riscv.h, memlayout.h,
      param.h, fcntl.h; kernel/string.c.
    - RingBuf.v, Ring.v: the two data structures several components share,
      circular buffers and doubly linked rings.
    - Locks.v is the interface of spinlocks to the rest of the kernel, a type
      class; Spinlock.v models kernel/spinlock.c, SpinlockSmp.v proves mutual
      exclusion and that the code implements the interface.
    - Asm.v, AsmSpec.v: swtch.S, trampoline.S, kernelvec.S and entry.S as lists
      of instructions over a hart.
    - ListHead.v: kernel/list.c over memory.
    - Kalloc.v, Vm.v: kernel/kalloc.c and kernel/vm.c over [machine], physical
      memory with the free list; VmWalk.v, VmMap.v, VmCopy.v, VmUvm.v and
      VmFree.v prove what walks, mapping, copying to and from users, and copying
      and freeing an address space do.
    - Kstate.v: the record of the kernel's globals, over [machine].  UserMem.v:
      user memory inside it.
    - Proc.v (kernel/proc.c), with ProcSpec.v, ProcAlloc.v, ProcMem.v (the pages
      of a process, from allocproc to freeproc), WaitSpec.v, GrowSpec.v
      (growproc) and Sched.v; SleepWakeup.v for the interleavings of sleep and
      wakeup.
    - Sleeplock.v, SleeplockSpec.v: kernel/sleeplock.c.
    - Uart.v (kernel/uart.c, kernel/printf.c), Console.v, Pipe.v, each with the
      proofs in its Spec file, PrintfSpec.v for printf.
    - Bio.v, BioSpec.v (kernel/bio.c), CacheOps.v (the cache as its clients see
      it), Virtio.v (kernel/virtio_disk.c), Log.v, LogSpec.v and LogOps.v
      (kernel/log.c).
    - Fs.v (kernel/fs.c); FsOps.v, what runs inside a log operation; FsTxn.v,
      whole operations and what a crash leaves of them; FileData.v, the files
      that the blocks of a disk hold; FsAlloc.v, FsFile.v, FsRw.v,
      FsWrite.v, FsFileSpec.v and FsDir.v, from block allocation to directories.
    - Mkfs.v, MkfsSpec.v (mkfs/mkfs.c), MkfsKernel.v: the kernel on its image.
    - File.v (kernel/file.c), FileWrite.v (filewrite down to the disk), ProcFs.v
      (fork, exit, exec), ForkSpec.v (the whole of fork), Syscall.v (syscall.c,
      sysproc.c, sysfile.c), SyscallSpec.v, Trap.v (trap.c, plic.c), Boot.v
      (start.c, main.c).
    - Usys.v: the system calls as a type class, user/ulib.c and user/printf.c;
      Grep.v, Sh.v, ShSpec.v, UserProgs.v, Grind.v, Umalloc.v and UmallocSpec.v:
      the programs of user/.

    ** What the theorems show

    - Concurrency: at most one CPU is in a critical section, whatever the
      interleaving; no wakeup is lost; the spinlock code implements the lock
      interface; push_off and pop_off nest.
    - Memory: the page allocator is a stack of pages; mappages maps what it is
      asked to and nothing else; uvmcopy gives a child pages of its own with its
      parent's bytes and loses none when it fails; copyout, copyin and copyinstr
      reach exactly the user's mapped bytes; malloc and free keep blocks apart.
    - Processes: what sleep does; a round of the scheduler gives the CPU to
      processes that are RUNNABLE at that moment, in slot order, and to each that
      was RUNNABLE at its start unless another CPU takes it; allocproc returns a
      locked slot with memory of its own, or takes no memory; fork gives a complete child or leaves no trace but the process id it used,
      wait returns all of an exited child's memory, growproc adds or frees
      exactly the pages of the change: tables, trap frame and pages are accounted
      for in each case.
    - Assembly: a context switch and a trap bring back every register.
    - The disk: the cache gives the latest contents of a block; a crash at any
      disk write of a commit leaves the transaction whole or absent, and one
      during filewrite leaves the file with its first chunks written; the log's
      reservations suffice when the log is larger than LOGSIZE blocks, and the
      last reserved block is missing when it is not; balloc and bfree keep the bitmap; readi, writei and
      dirlink read and change exactly the bytes and names they should; mkfs
      leaves a file system in which the kernel finds each file and its bytes.
    - Devices and pipes: queues that keep bytes in order and lose none, but for
      the byte piperead takes out and cannot deliver.
    - Programs: grep finds the lines that match, the shell's parser always ends.

    The theorems named [sys_pinfo_panics] and [kill_zero_marks_next_process]
    state two errors of the code.

    ** Bounds and fuel

    [loop] runs at most 2^64 rounds.  A theorem about a function with a loop
    proves that the loop ends before that, with [loop_exit] or [runs_loop],
    except for the loops that are not meant to end (the scheduler, the shell,
    init, grind), whose rounds are what is proved.  [freewalk] and
    [countmapped] go 64 levels down, page tables have three, and
    [freewalk_spec] shows that freewalk ends.  The shell's
    parser recurses at most as often as the line has characters, plus two,
    which [parsecmd_correct] shows to be enough.  Number printing makes at most
    33 digits, enough for 32 bits in base 2.

    ** Not modelled

    - user/usertests.c, the test suite of the system calls, and
      kernel/ramdisk.c, which is not part of the build and names buffer flags
      that no longer exist.
    - The inline assembly that reads and writes control registers is the field
      of the register; the MMU's translation is a parameter of Asm.v, and TLB
      flushes have no effect.  Weak memory is not modelled: memory accesses of
      all harts are in one order.
    - The disk device: Virtio.v models the driver up to the descriptors and the
      used ring, and the cache is proved over [Bio.virtio_disk_rw], which
      returns when the request is done.
    - The serial device is its readings of the line status: the model has no
      timing, and a byte is lost unless the status has shown the transmit
      register empty since the byte before.
    - malloc in the shell: its constructors of commands do not check it, and the
      model has memory for every command.
    - Interrupts arrive only where the model of trap.c is called; code that runs
      with interrupts on is proved as the sequence of its own steps.
    - From iget and iput up to the system calls on files, exec and exit the
      code is modelled and runs, but apart from filewrite and fork it is not
      specified beyond the theorems on the functions it calls.  filewrite,
      fork, wait and growproc are proved for one operation at a time. *)

From Stdlib Require Export ZArith Lia.
From Stdlib Require Import FunctionalExtensionality.
From stdpp Require Export base gmap list strings.

#[global] Open Scope Z_scope.

(** ** Machine integers

    A C integer is a [Z] in the range of its type; every operation that can
    leave the range is followed by the conversion of the type. *)

Definition u8 (x : Z) : Z := x mod 2 ^ 8.
Definition u16 (x : Z) : Z := x mod 2 ^ 16.
Definition u32 (x : Z) : Z := x mod 2 ^ 32.
Definition u64 (x : Z) : Z := x mod 2 ^ 64.
Definition i32 (x : Z) : Z := (x + 2 ^ 31) mod 2 ^ 32 - 2 ^ 31.

(** C truth values. *)
Definition b2z (b : bool) : Z := if b then 1 else 0.

(** ** Outcomes and the kernel monad

    A kernel function run in a state returns a value and a state, panics,
    gives up the CPU in [swtch] (the rest of its run is a function of the
    state in which it is scheduled again), or is cut off by the fuel of one
    of its loops.  [Panic] carries the message of the call. *)

Inductive res (S A : Type) : Type :=
| Ret (a : A) (s : S)
| Panic (msg : string)
| Switch (s : S) (k : S -> res S A)
| NoFuel.
Arguments Ret {S A} a s.
Arguments Panic {S A} msg.
Arguments Switch {S A} s k.
Arguments NoFuel {S A}.

Definition M (S A : Type) : Type := S -> res S A.

Fixpoint bindr {S A B} (r : res S A) (f : A -> S -> res S B) : res S B :=
  match r with
  | Ret a s => f a s
  | Panic msg => Panic msg
  | Switch s k => Switch s (fun s' => bindr (k s') f)
  | NoFuel => NoFuel
  end.

Definition ret {S A} (a : A) : M S A := fun s => Ret a s.
Definition bind {S A B} (m : M S A) (f : A -> M S B) : M S B :=
  fun s => bindr (m s) f.
Definition get {S} : M S S := fun s => Ret s s.
Definition gets {S A} (f : S -> A) : M S A := fun s => Ret (f s) s.
Definition modify {S} (f : S -> S) : M S unit := fun s => Ret tt (f s).
Definition panic {S A} (msg : string) : M S A := fun _ => Panic msg.
Definition nofuel {S A} : M S A := fun _ => NoFuel.

Arguments ret {S A} a s /.
Arguments bind {S A B} m f s /.
Arguments get {S} s /.
Arguments gets {S A} f s /.
Arguments modify {S} f s /.
Arguments panic {S A} msg _ /.
Arguments nofuel {S A} _ /.

Declare Scope kmonad_scope.
Delimit Scope kmonad_scope with K.
Notation "x <- m ; k" := (bind m (fun x => k%K))
  (at level 20, m at level 100, k at level 200, only parsing) : kmonad_scope.
Notation "' p <- m ; k" := (bind m (fun x => match x with p => k%K end))
  (at level 20, p pattern, m at level 100, k at level 200, only parsing) : kmonad_scope.
Notation "m ;; k" := (bind m (fun _ => k%K))
  (at level 100, k at level 200, right associativity) : kmonad_scope.
Notation "'when' b 'do' m" := (if b then m else ret tt)
  (at level 99, b at level 99, m at level 99) : kmonad_scope.

(** A run of a component's function inside a larger state. *)
Fixpoint liftr {S T A} (set : T -> S -> S) (get : S -> T) (s : S) (r : res T A) : res S A :=
  match r with
  | Ret a t => Ret a (set t s)
  | Panic msg => Panic msg
  | Switch t k => Switch (set t s) (fun s' => liftr set get s' (k (get s')))
  | NoFuel => NoFuel
  end.
Definition lift {S T A} (get : S -> T) (set : T -> S -> S) (m : M T A) : M S A :=
  fun s => liftr set get s (m (get s)).

(** The loop [for(i = lo; i < lo + n; i++) body(i)] with no early exit. *)
Fixpoint for_range {S} (n : nat) (i : Z) (body : Z -> M S unit) : M S unit :=
  match n with
  | O => ret tt
  | S n' => bind (body i) (fun _ => for_range n' (i + 1) body)
  end.

(** The same over a table, one element after the other; [for_first] leaves the
    loop with the first result its body gives. *)
Fixpoint for_each {S A} (l : list A) (body : A -> M S unit) : M S unit :=
  match l with
  | [] => ret tt
  | a :: l' => bind (body a) (fun _ => for_each l' body)
  end.
Fixpoint for_first {S A R} (l : list A) (body : A -> M S (option R)) : M S (option R) :=
  match l with
  | [] => ret None
  | a :: l' => bind (body a) (fun r => match r with Some x => ret (Some x) | None => for_first l' body end)
  end.

(** ** Loops

    [loop f a] is [for(;;)] over a loop state: the body returns the next
    state ([inl]) or leaves the loop with a result ([inr]).  Its fuel is
    [2 ^ 64] iterations, kept in binary so that it costs nothing to carry; a
    loop that is cut off ends in [NoFuel], and the theorems about loops show
    that theirs are not. *)

Definition LOOP_FUEL : positive := 18446744073709551616.

Fixpoint iter_p {S A B} (p : positive) (f : A -> M S (A + B)) (a : A) : M S (A + B) :=
  match p with
  | xH => f a
  | xO p' => bind (iter_p p' f a) (fun r =>
      match r with inl a' => iter_p p' f a' | inr b => ret (inr b) end)
  | xI p' => bind (f a) (fun r =>
      match r with
      | inl a' => bind (iter_p p' f a') (fun r' =>
          match r' with inl a'' => iter_p p' f a'' | inr b => ret (inr b) end)
      | inr b => ret (inr b)
      end)
  end.

Definition loop {S A B} (f : A -> M S (A + B)) (a : A) : M S B :=
  bind (iter_p LOOP_FUEL f a) (fun r => match r with inl _ => nofuel | inr b => ret b end).

(** The same for a loop that only computes. *)
Fixpoint piter_p {A B} (p : positive) (f : A -> A + B) (a : A) : A + B :=
  match p with
  | xH => f a
  | xO p' => match piter_p p' f a with inl a' => piter_p p' f a' | inr b => inr b end
  | xI p' => match f a with
             | inl a' => match piter_p p' f a' with
                         | inl a'' => piter_p p' f a'' | inr b => inr b end
             | inr b => inr b
             end
  end.

Definition ploop {A B} (f : A -> A + B) (a : A) : option B :=
  match piter_p LOOP_FUEL f a with inl _ => None | inr b => Some b end.

(** ** Total correctness

    [sat R Q r]: the run [r] neither panics nor runs out of fuel, and it ends
    in a value and state that satisfy [Q], whatever states it is resumed in
    after a switch as long as each is related by [R] to the one it left. *)

Fixpoint sat {S A} (R : S -> S -> Prop) (Q : A -> S -> Prop) (r : res S A) : Prop :=
  match r with
  | Ret a s => Q a s
  | Panic _ => False
  | Switch s k => forall s', R s s' -> sat R Q (k s')
  | NoFuel => False
  end.

Lemma sat_bind {S A B} R (Q : B -> S -> Prop) (P : A -> S -> Prop)
    (r : res S A) (f : A -> S -> res S B) :
  sat R P r -> (forall a s, P a s -> sat R Q (f a s)) -> sat R Q (bindr r f).
Proof. induction r; simpl; intros HP Hf; eauto. Qed.

Lemma sat_mono {S A} R (P Q : A -> S -> Prop) (r : res S A) :
  sat R P r -> (forall a s, P a s -> Q a s) -> sat R Q r.
Proof. induction r; simpl; eauto. Qed.

(** ** Reasoning about loops: a loop runs its body one iteration at a time. *)

Lemma bindr_assoc {S A B C} (r : res S A) (f : A -> S -> res S B) (g : B -> S -> res S C) :
  bindr (bindr r f) g = bindr r (fun a s => bindr (f a s) g).
Proof.
  induction r as [| |s k IH|]; simpl; [done..| |done].
  f_equal. apply functional_extensionality. intros s'. apply IH.
Qed.

Lemma bindr_ext {S A B} (r : res S A) (f g : A -> S -> res S B) :
  (forall a s, f a s = g a s) -> bindr r f = bindr r g.
Proof.
  intros H. induction r as [| |s k IH|]; simpl; [apply H|done| |done].
  f_equal. apply functional_extensionality. intros s'. apply IH.
Qed.

Lemma bindr_Ret {S A B} (r : res S A) (f : A -> S -> res S B) b s' :
  bindr r f = Ret b s' <-> exists a s, r = Ret a s /\ f a s = Ret b s'.
Proof.
  split; [|by intros (a & s & -> & ?)]. destruct r; simpl; try discriminate. eauto.
Qed.

(** One step of a run that returns. *)
Lemma bind_Ret {S A B} (m : M S A) (f : A -> M S B) s a s1 : m s = Ret a s1 -> bind m f s = f a s1.
Proof. intros E. unfold bind. by rewrite E. Qed.

Fixpoint iter_n {S A B} (n : nat) (f : A -> M S (A + B)) (a : A) : M S (A + B) :=
  match n with
  | O => ret (inl a)
  | S n' => bind (f a) (fun r =>
      match r with inl a' => iter_n n' f a' | inr b => ret (inr b) end)
  end.

Lemma for_each_app {S A} (l1 l2 : list A) (f : A -> M S unit) s :
  for_each (l1 ++ l2) f s = bindr (for_each l1 f s) (fun _ => for_each l2 f).
Proof.
  revert s; induction l1 as [|a l1 IH]; intros s; simpl; [done|].
  unfold bind. rewrite bindr_assoc. apply bindr_ext. intros _ s'. apply IH.
Qed.

Lemma iter_n_add {S A B} n n' (f : A -> M S (A + B)) a s :
  iter_n (n + n') f a s =
  bindr (iter_n n f a s) (fun r =>
    match r with inl a' => iter_n n' f a' | inr b => ret (inr b) end).
Proof.
  revert a s; induction n as [|n IH]; intros a s; [done|]. simpl.
  rewrite bindr_assoc. apply bindr_ext. intros [a'|b] s'; [apply IH|done].
Qed.

Lemma iter_n_1 {S A B} (f : A -> M S (A + B)) a s : iter_n 1 f a s = f a s.
Proof.
  simpl. generalize (f a s). intros r.
  induction r as [[]| |s' k IH|]; simpl; try done.
  f_equal. apply functional_extensionality. intros. apply IH.
Qed.

Lemma iter_n_inl {S A B} n (f : A -> M S (A + B)) a s a' s' :
  f a s = Ret (inl a') s' -> iter_n (Datatypes.S n) f a s = iter_n n f a' s'.
Proof. intros E. simpl. by rewrite E. Qed.

Lemma iter_n_inr {S A B} n (f : A -> M S (A + B)) a s b s' :
  f a s = Ret (inr b) s' -> iter_n (Datatypes.S n) f a s = Ret (inr b) s'.
Proof. intros E. simpl. by rewrite E. Qed.

Lemma iter_p_n {S A B} p (f : A -> M S (A + B)) a s :
  iter_p p f a s = iter_n (Pos.to_nat p) f a s.
Proof.
  revert a s; induction p as [p IH|p IH|]; intros a s.
  - rewrite Pos2Nat.inj_xI.
    change (Datatypes.S ?x) with (1 + x)%nat.
    replace (1 + 2 * Pos.to_nat p)%nat with (1 + (Pos.to_nat p + Pos.to_nat p))%nat by lia.
    rewrite iter_n_add, iter_n_1. simpl. apply bindr_ext. intros [a'|b] s'; [|done].
    rewrite iter_n_add. simpl. rewrite IH. apply bindr_ext.
    intros [a''|b] s''; [apply IH|done].
  - rewrite Pos2Nat.inj_xO. replace (2 * Pos.to_nat p)%nat with (Pos.to_nat p + Pos.to_nat p)%nat by lia.
    rewrite iter_n_add. simpl. rewrite IH. apply bindr_ext. intros [a''|b] s''; [apply IH|done].
  - by rewrite Pos2Nat.inj_1, iter_n_1.
Qed.

Lemma fuel_ge n : Z.of_nat n <= 2 ^ 64 -> (n <= Pos.to_nat LOOP_FUEL)%nat.
Proof. intros H. apply Nat2Z.inj_le. by rewrite positive_nat_Z. Qed.

#[global] Opaque LOOP_FUEL.

Lemma fuel_split n : Z.of_nat n <= 2 ^ 64 -> exists k, Pos.to_nat LOOP_FUEL = (n + k)%nat.
Proof. intros H%fuel_ge. exists (Pos.to_nat LOOP_FUEL - n)%nat. lia. Qed.

(** A loop that leaves after at most [n] iterations. *)
Lemma loop_exit {S A B} n (f : A -> M S (A + B)) a s b s' :
  Z.of_nat n <= 2 ^ 64 -> iter_n n f a s = Ret (inr b) s' -> loop f a s = Ret b s'.
Proof.
  intros Hn Hi. unfold loop. simpl. rewrite iter_p_n.
  destruct (fuel_split n Hn) as [k ->].
  by rewrite iter_n_add, Hi.
Qed.

(** A loop that gives up the CPU in its first iteration. *)
Lemma loop_switch {S A B} (f : A -> M S (A + B)) a s s1 k :
  f a s = Switch s1 k -> exists k', loop f a s = Switch s1 k'.
Proof.
  intros Hf. unfold loop. simpl. rewrite iter_p_n.
  destruct (fuel_split 1 ltac:(lia)) as [n ->].
  rewrite iter_n_add, iter_n_1, Hf. simpl. eauto.
Qed.

(** A loop that panics within [n] iterations. *)
Lemma loop_panic {S A B} n (f : A -> M S (A + B)) a s msg :
  Z.of_nat n <= 2 ^ 64 -> iter_n n f a s = Panic msg -> loop f a s = Panic msg.
Proof.
  intros Hn Hi. unfold loop. simpl. rewrite iter_p_n.
  destruct (fuel_split n Hn) as [k ->].
  by rewrite iter_n_add, Hi.
Qed.

(** Total correctness of a loop from an invariant with a decreasing measure. *)
Lemma sat_iter_n {S A B} R (Q : B -> S -> Prop) (I : nat -> A -> S -> Prop)
    (f : A -> M S (A + B)) :
  (forall n a s, I n a s ->
     sat R (fun r s' => match r with
                        | inl a' => exists n', (n' < n)%nat /\ I n' a' s'
                        | inr b => Q b s'
                        end) (f a s)) ->
  forall n k a s, (n < k)%nat -> I n a s ->
    sat R (fun r s' => match r with inl _ => False | inr b => Q b s' end) (iter_n k f a s).
Proof.
  intros Hf n k; revert n; induction k as [|k IH]; intros n a s Hk Hi; [lia|]. simpl.
  eapply sat_bind; [by eapply Hf|]. intros [a'|b] s' Hr; simpl; [|done].
  destruct Hr as (n' & ? & Hi'). apply (IH n'); [lia|done].
Qed.

Lemma sat_loop {S A B} R (Q : B -> S -> Prop) (I : nat -> A -> S -> Prop)
    (f : A -> M S (A + B)) n a s :
  (forall n a s, I n a s ->
     sat R (fun r s' => match r with
                        | inl a' => exists n', (n' < n)%nat /\ I n' a' s'
                        | inr b => Q b s'
                        end) (f a s)) ->
  I n a s -> Z.of_nat n < 2 ^ 64 -> sat R Q (loop f a s).
Proof.
  intros Hf Hi Hn. unfold loop. simpl. eapply sat_bind.
  - rewrite iter_p_n. eapply sat_iter_n; [exact Hf| |exact Hi].
    apply (fuel_ge (1 + n)). lia.
  - by intros [a'|b] s'.
Qed.

(** [runs Q r]: the run [r] returns, without giving up the CPU, in a value and
    state that satisfy [Q]. *)
Definition runs {S A} (Q : A -> S -> Prop) (r : res S A) : Prop :=
  match r with Ret a s => Q a s | _ => False end.

Lemma runs_ret {S A} (Q : A -> S -> Prop) r : runs Q r <-> exists a s, r = Ret a s /\ Q a s.
Proof.
  split; [|by intros (a & s & -> & HQ)].
  destruct r as [a s| | |]; simpl; [by exists a, s|done..].
Qed.

Lemma runs_bind {S A B} (Q : B -> S -> Prop) (P : A -> S -> Prop)
    (r : res S A) (f : A -> S -> res S B) :
  runs P r -> (forall a s, P a s -> runs Q (f a s)) -> runs Q (bindr r f).
Proof. destruct r; simpl; intros HP Hf; eauto; done. Qed.

Lemma runs_mono {S A} (P Q : A -> S -> Prop) (r : res S A) :
  runs P r -> (forall a s, P a s -> Q a s) -> runs Q r.
Proof. destruct r; simpl; eauto. Qed.

Lemma runs_iter_n {S A B} (Q : B -> S -> Prop) (I : nat -> A -> S -> Prop)
    (f : A -> M S (A + B)) :
  (forall n a s, I n a s ->
     runs (fun r s' => match r with
                       | inl a' => exists n', (n' < n)%nat /\ I n' a' s'
                       | inr b => Q b s'
                       end) (f a s)) ->
  forall n k a s, (n < k)%nat -> I n a s ->
    runs (fun r s' => match r with inl _ => False | inr b => Q b s' end) (iter_n k f a s).
Proof.
  intros Hf n k; revert n; induction k as [|k IH]; intros n a s Hk Hi; [lia|]. simpl.
  eapply runs_bind; [by eapply Hf|]. intros [a'|b] s' Hr; simpl; [|done].
  destruct Hr as (n' & ? & Hi'). apply (IH n'); [lia|done].
Qed.

Lemma runs_loop {S A B} (Q : B -> S -> Prop) (I : nat -> A -> S -> Prop)
    (f : A -> M S (A + B)) n a s :
  (forall n a s, I n a s ->
     runs (fun r s' => match r with
                       | inl a' => exists n', (n' < n)%nat /\ I n' a' s'
                       | inr b => Q b s'
                       end) (f a s)) ->
  I n a s -> Z.of_nat n < 2 ^ 64 -> runs Q (loop f a s).
Proof.
  intros Hf Hi Hn. unfold loop. simpl. eapply runs_bind.
  - rewrite iter_p_n. eapply runs_iter_n; [exact Hf| |exact Hi].
    apply (fuel_ge (1 + n)). lia.
  - by intros [a'|b] s'.
Qed.

Fixpoint piter_n {A B} (n : nat) (f : A -> A + B) (a : A) : A + B :=
  match n with
  | O => inl a
  | S n' => match f a with inl a' => piter_n n' f a' | inr b => inr b end
  end.

Lemma piter_n_add {A B} n n' (f : A -> A + B) a :
  piter_n (n + n') f a =
  match piter_n n f a with inl a' => piter_n n' f a' | inr b => inr b end.
Proof. revert a; induction n as [|n IH]; intros a; simpl; [done|]. by destruct (f a). Qed.

Lemma piter_p_n {A B} p (f : A -> A + B) a : piter_p p f a = piter_n (Pos.to_nat p) f a.
Proof.
  revert a; induction p as [p IH|p IH|]; intros a.
  - rewrite Pos2Nat.inj_xI.
    replace (2 * Pos.to_nat p)%nat with (Pos.to_nat p + Pos.to_nat p)%nat by lia. simpl.
    destruct (f a) as [a'|]; [|done]. rewrite piter_n_add, <- IH.
    by destruct (piter_p p f a').
  - rewrite Pos2Nat.inj_xO. replace (2 * Pos.to_nat p)%nat with (Pos.to_nat p + Pos.to_nat p)%nat by lia.
    rewrite piter_n_add. simpl. rewrite <- IH. by destruct (piter_p p f a).
  - rewrite Pos2Nat.inj_1. simpl. by destruct (f a).
Qed.

Lemma ploop_exit {A B} n (f : A -> A + B) a b :
  Z.of_nat n <= 2 ^ 64 -> piter_n n f a = inr b -> ploop f a = Some b.
Proof.
  intros Hn Hi. unfold ploop. rewrite piter_p_n.
  destruct (fuel_split n Hn) as [k ->].
  by rewrite piter_n_add, Hi.
Qed.

(** ** Runs with their switches

    The rest of the system as a function [env] from the state in which a thread
    gives up the CPU to the one in which it runs again: the states it gives the
    CPU up in, and how the run ends. *)

Fixpoint switches {S A} (env : S -> S) (r : res S A) : list S :=
  match r with Switch s k => s :: switches env (k (env s)) | _ => [] end.
Fixpoint finish {S A} (env : S -> S) (r : res S A) : res S A :=
  match r with Switch s k => finish env (k (env s)) | _ => r end.

Lemma finish_bindr {S A B} env (r : res S A) (f : A -> S -> res S B) :
  finish env (bindr r f) = finish env (bindr (finish env r) f).
Proof. induction r as [| |s k IH|]; simpl; [done..|apply IH|done]. Qed.

Lemma switches_bindr {S A B} env (r : res S A) (f : A -> S -> res S B) :
  switches env (bindr r f) = switches env r ++ switches env (bindr (finish env r) f).
Proof. induction r as [| |s k IH|]; simpl; [done..| |done]. f_equal. apply IH. Qed.

(** ** Integer facts *)

Lemma u8_range x : 0 <= u8 x < 256.
Proof. unfold u8. apply (Z.mod_pos_bound x (2^8)). lia. Qed.
Lemma u8_small x : 0 <= x < 256 -> u8 x = x.
Proof. unfold u8. intros. apply Z.mod_small. lia. Qed.
Lemma u8_idemp x : u8 (u8 x) = u8 x.
Proof. apply u8_small, u8_range. Qed.
Lemma u32_range x : 0 <= u32 x < 2 ^ 32.
Proof. unfold u32. apply Z.mod_pos_bound. lia. Qed.
Lemma u32_small x : 0 <= x < 2 ^ 32 -> u32 x = x.
Proof. unfold u32. intros. by apply Z.mod_small. Qed.
Lemma u64_range x : 0 <= u64 x < 2 ^ 64.
Proof. unfold u64. apply Z.mod_pos_bound. lia. Qed.
Lemma u64_small x : 0 <= x < 2 ^ 64 -> u64 x = x.
Proof. unfold u64. intros. by apply Z.mod_small. Qed.
Lemma i32_small x : - 2 ^ 31 <= x < 2 ^ 31 -> i32 x = x.
Proof. unfold i32. intros. rewrite Z.mod_small by lia. lia. Qed.

Create HintDb xv6.
Create Rewrite HintDb xv6.
#[export] Hint Resolve u8_range u32_range u64_range : xv6.
#[export] Hint Rewrite u8_idemp : xv6.

(** ** Tactics *)

(** Turn boolean comparisons of the code into propositions. *)
Ltac bdestr :=
  repeat match goal with
  | H : (_ && _)%bool = true |- _ => apply andb_prop in H as [??]
  | H : (_ && _)%bool = false |- _ => apply andb_false_iff in H; rewrite ?Z.leb_gt, ?Z.ltb_ge, ?Z.eqb_neq, ?negb_false_iff, ?Z.eqb_eq in H
  | H : (_ || _)%bool = false |- _ => apply orb_false_elim in H as [??]
  | H : (_ || _)%bool = true |- _ => apply orb_true_iff in H; rewrite ?Z.leb_le, ?Z.ltb_lt, ?Z.eqb_eq, ?negb_true_iff, ?Z.eqb_neq in H
  | H : negb _ = true |- _ => apply negb_true_iff in H
  | H : negb _ = false |- _ => apply negb_false_iff in H
  | H : Z.eqb _ _ = true |- _ => apply Z.eqb_eq in H
  | H : Z.eqb _ _ = false |- _ => apply Z.eqb_neq in H
  | H : Z.ltb _ _ = true |- _ => apply Z.ltb_lt in H
  | H : Z.ltb _ _ = false |- _ => apply Z.ltb_ge in H
  | H : Z.leb _ _ = true |- _ => apply Z.leb_le in H
  | H : Z.leb _ _ = false |- _ => apply Z.leb_gt in H
  | H : bool_decide _ = true |- _ => apply bool_decide_eq_true in H
  | H : bool_decide _ = false |- _ => apply bool_decide_eq_false in H
  end.

(** A run that returned: the values and states it passed through. *)
Ltac inv_ret H :=
  lazymatch type of H with
  | bind _ _ _ = Ret _ _ => unfold bind at 1 in H; inv_ret H
  | bindr _ _ = Ret _ _ =>
      let a := fresh "v" in let t := fresh "t" in let E := fresh "E" in
      apply bindr_Ret in H as (a & t & E & H)
  | Ret _ _ = Ret _ _ => injection H as H; simplify_eq
  | ret _ _ = Ret _ _ => injection H as H; simplify_eq
  | gets _ _ = Ret _ _ => injection H as H; simplify_eq
  | modify _ _ = Ret _ _ => injection H as H; simplify_eq
  end.

(** Split on the outermost [if] of the goal. *)
Ltac ifd :=
  match goal with
  | |- context [if ?b then _ else _] => let E := fresh "E" in destruct b eqn:E; bdestr
  end.

(** ** Generic list facts *)

Lemma seqZ_cons' (i n : Z) : 0 < n -> seqZ i n = i :: seqZ (i + 1) (n - 1).
Proof.
  intros. rewrite seqZ_cons by lia.
  replace (Z.succ i) with (i+1) by lia. by replace (Z.pred n) with (n-1) by lia.
Qed.

Lemma lookup_repeat_inv {A} n (x y : A) i : repeat x n !! i = Some y -> y = x.
Proof. revert i; induction n as [|n IH]; intros [|i]; simpl; intros H; simplify_eq; eauto. Qed.

(** ** Functions changed at one point *)

Definition upd {A B} `{EqDecision A} (f : A -> B) (a : A) (b : B) : A -> B :=
  fun x => if decide (x = a) then b else f x.

Lemma upd_eq {A B} `{EqDecision A} (f : A -> B) a b : upd f a b a = b.
Proof. unfold upd. by rewrite decide_True. Qed.
Lemma upd_ne {A B} `{EqDecision A} (f : A -> B) a b x : x <> a -> upd f a b x = f x.
Proof. intros. unfold upd. by rewrite decide_False. Qed.
Lemma upd_upd {A B} `{EqDecision A} (f : A -> B) a b b' : upd (upd f a b) a b' = upd f a b'.
Proof. apply functional_extensionality. intros x. unfold upd. by case_decide. Qed.
Lemma upd_same {A B} `{EqDecision A} (f : A -> B) a : upd f a (f a) = f.
Proof. apply functional_extensionality. intros x. unfold upd. by case_decide; subst. Qed.

(** Values of functions changed at some points. *)
Ltac upds := repeat first [rewrite upd_eq | rewrite upd_ne by (first [assumption | congruence | lia])].
Ltac upds_in H := repeat first [rewrite upd_eq in H | rewrite upd_ne in H by (first [assumption | congruence | lia])].
