(* ===== verification/Mem.v ===== *)
(** * Physical memory

    The bytes the kernel's pointers reach.  Memory is a finite map from byte
    addresses; words are little endian, as on RISC-V.  Page tables, free-list
    links, trap frames and user pages all live in this one memory, so a
    pointer of the code is an address here and aliasing is what it is in C. *)

From S2P Require Import Prelude.

Abbreviation mem := (gmap Z Z).

Definition ld8 (m : mem) (a : Z) : Z := u8 (default 0 (m !! a)).
Definition st8 (m : mem) (a v : Z) : mem := <[a := u8 v]> m.

Fixpoint ldn (n : nat) (m : mem) (a : Z) : Z :=
  match n with
  | O => 0
  | S n' => ld8 m a + 256 * ldn n' m (a + 1)
  end.

Fixpoint stn (n : nat) (m : mem) (a v : Z) : mem :=
  match n with
  | O => m
  | S n' => stn n' (st8 m a v) (a + 1) (v / 256)
  end.

Definition ld32 := ldn 4.
Definition st32 := stn 4.
Definition ld64 := ldn 8.
Definition st64 := stn 8.

(** A block of bytes written at [a]. *)
Fixpoint stbytes (m : mem) (a : Z) (bs : list Z) : mem :=
  match bs with
  | [] => m
  | b :: bs' => stbytes (st8 m a b) (a + 1) bs'
  end.

(** The [n] bytes from [a] on. *)
Definition bytes (m : mem) (a n : Z) : list Z := ld8 m <$> seqZ a n.

(** Two memories with the same bytes (a cell never written reads as zero). *)
Definition mem_eq (m m' : mem) : Prop := forall a, ld8 m a = ld8 m' a.

(** Two memories that agree on the addresses in [P]. *)
Definition agree_on (P : Z -> Prop) (m m' : mem) : Prop :=
  forall a, P a -> ld8 m a = ld8 m' a.

(** ** Byte accesses *)

Lemma ld8_range m a : 0 <= ld8 m a < 256.
Proof. apply u8_range. Qed.

Lemma ld8_st8_eq m a v : ld8 (st8 m a v) a = u8 v.
Proof. unfold ld8, st8. rewrite lookup_insert_eq. simpl. apply u8_idemp. Qed.

Lemma ld8_st8_ne m a b v : a <> b -> ld8 (st8 m a v) b = ld8 m b.
Proof. intros. unfold ld8, st8. by rewrite lookup_insert_ne. Qed.

Lemma ld8_st8 m a b v : ld8 (st8 m a v) b = if decide (a = b) then u8 v else ld8 m b.
Proof. case_decide; subst; [apply ld8_st8_eq | by apply ld8_st8_ne]. Qed.

#[export] Hint Resolve ld8_range : xv6.

(** ** Word accesses *)

Lemma ldn_range n m a : 0 <= ldn n m a < 2 ^ (8 * Z.of_nat n).
Proof.
  revert a; induction n as [|n IH]; intros a; cbn [ldn]; [lia|].
  specialize (IH (a+1)). pose proof (ld8_range m a).
  replace (8 * Z.of_nat (S n)) with (8 + 8 * Z.of_nat n) by lia.
  rewrite Z.pow_add_r by lia. change (2^8) with 256. lia.
Qed.

Lemma ldn_ext n m m' a :
  (forall i, a <= i < a + Z.of_nat n -> ld8 m i = ld8 m' i) -> ldn n m a = ldn n m' a.
Proof.
  revert a; induction n as [|n IH]; intros a Ha; cbn [ldn]; [done|].
  rewrite (Ha a) by lia. by rewrite IH by (intros; apply Ha; lia).
Qed.

Lemma ld8_stn_out n m a v b :
  b < a \/ a + Z.of_nat n <= b -> ld8 (stn n m a v) b = ld8 m b.
Proof.
  revert m a v; induction n as [|n IH]; intros m a v Hb; cbn [stn]; [done|].
  rewrite IH by lia. apply ld8_st8_ne. lia.
Qed.

Lemma ldn_stn_out n k m a v b :
  b + Z.of_nat k <= a \/ a + Z.of_nat n <= b -> ldn k (stn n m a v) b = ldn k m b.
Proof. intros. apply ldn_ext. intros. apply ld8_stn_out. lia. Qed.

Lemma ldn_stn_eq n m a v : ldn n (stn n m a v) a = v mod 2 ^ (8 * Z.of_nat n).
Proof.
  revert m a v; induction n as [|n IH]; intros m a v; cbn [stn ldn].
  { by rewrite Z.mod_1_r. }
  rewrite IH, ld8_stn_out, ld8_st8_eq by lia. unfold u8. change (2^8) with 256.
  replace (8 * Z.of_nat (S n)) with (8 + 8 * Z.of_nat n) by lia.
  rewrite Z.pow_add_r by lia. change (2^8) with 256.
  rewrite Z.rem_mul_r by lia. lia.
Qed.

Lemma ld64_range m a : 0 <= ld64 m a < 2 ^ 64.
Proof. apply (ldn_range 8). Qed.

Lemma ld64_st64_eq m a v : ld64 (st64 m a v) a = u64 v.
Proof. unfold ld64, st64. rewrite ldn_stn_eq. done. Qed.

Lemma ld64_st64_ne m a b v : b + 8 <= a \/ a + 8 <= b -> ld64 (st64 m a v) b = ld64 m b.
Proof. intros. apply ldn_stn_out. lia. Qed.

Lemma ld8_st64_ne m a b v : b < a \/ a + 8 <= b -> ld8 (st64 m a v) b = ld8 m b.
Proof. intros. apply ld8_stn_out. lia. Qed.

Lemma ld64_ext m m' a :
  (forall i, a <= i < a + 8 -> ld8 m i = ld8 m' i) -> ld64 m a = ld64 m' a.
Proof. intros. apply ldn_ext. intros. apply H. lia. Qed.

#[export] Hint Resolve ld64_range : xv6.

(** A word whose bytes are all [c]. *)
Lemma ldn_const n m a c :
  (forall i, a <= i < a + Z.of_nat n -> ld8 m i = c) ->
  255 * ldn n m a = c * (2 ^ (8 * Z.of_nat n) - 1).
Proof.
  revert a; induction n as [|n IH]; intros a Ha; cbn [ldn]; [lia|].
  rewrite (Ha a) by lia.
  assert (IH' := IH (a+1)). rewrite Z.mul_add_distr_l, (Z.mul_comm 256), Z.mul_assoc, IH' by
    (intros; apply Ha; lia).
  replace (8 * Z.of_nat (S n)) with (8 + 8 * Z.of_nat n) by lia.
  rewrite Z.pow_add_r by lia. change (2^8) with 256. lia.
Qed.

Lemma ld64_zero m a : (forall i, a <= i < a + 8 -> ld8 m i = 0) -> ld64 m a = 0.
Proof. intros H. pose proof (ldn_const 8 m a 0 H). unfold ld64. lia. Qed.

(** ** Byte ranges *)

Lemma length_bytes m a n : length (bytes m a n) = Z.to_nat n.
Proof. unfold bytes. by rewrite length_fmap, length_seqZ. Qed.

Lemma bytes_lookup m a n (i : nat) :
  Z.of_nat i < n -> bytes m a n !! i = Some (ld8 m (a + Z.of_nat i)).
Proof.
  intros. unfold bytes. rewrite list_lookup_fmap, (lookup_seqZ_lt a n i) by lia. done.
Qed.

Lemma bytes_ext m m' a a' n :
  (forall i, 0 <= i < n -> ld8 m (a + i) = ld8 m' (a' + i)) ->
  bytes m a n = bytes m' a' n.
Proof.
  intros H. apply list_eq. intros i.
  destruct (decide (Z.of_nat i < n)).
  - rewrite !bytes_lookup by done. f_equal. apply H. lia.
  - rewrite !lookup_ge_None_2; rewrite ?length_bytes; [done|lia..].
Qed.

Lemma bytes_app m a n1 n2 :
  0 <= n1 -> 0 <= n2 -> bytes m a (n1 + n2) = bytes m a n1 ++ bytes m (a + n1) n2.
Proof.
  intros. unfold bytes. rewrite <- fmap_app. f_equal. by apply seqZ_app.
Qed.

Lemma bytes_nil m a n : n <= 0 -> bytes m a n = [].
Proof. intros. unfold bytes. by rewrite seqZ_nil. Qed.

Lemma bytes_cons m a n : 0 < n -> bytes m a n = ld8 m a :: bytes m (a + 1) (n - 1).
Proof. intros. unfold bytes. by rewrite seqZ_cons'. Qed.

Lemma ld8_stbytes m a bs x :
  ld8 (stbytes m a bs) x =
  if decide (a <= x < a + Z.of_nat (length bs)) then u8 (nth (Z.to_nat (x - a)) bs 0) else ld8 m x.
Proof.
  revert m a; induction bs as [|b bs IH]; intros m a; cbn [stbytes length].
  - by rewrite decide_False by lia.
  - rewrite IH, ld8_st8. repeat case_decide; subst; try lia; try done.
    + replace (Z.to_nat (x - a)) with (S (Z.to_nat (x - (a + 1)))) by lia. done.
    + by rewrite Z.sub_diag.
Qed.

#[export] Instance mem_eq_equiv : Equivalence mem_eq.
Proof. unfold mem_eq. split; intros m; intros; congruence. Qed.

#[export] Instance ld8_proper : Proper (mem_eq ==> eq ==> eq) ld8.
Proof. intros m m' H a ? <-. apply H. Qed.

#[export] Instance ld64_proper : Proper (mem_eq ==> eq ==> eq) ld64.
Proof. intros m m' H a ? <-. apply ld64_ext. intros. apply H. Qed.

#[export] Instance bytes_proper : Proper (mem_eq ==> eq ==> eq ==> eq) bytes.
Proof. intros m m' H a ? <- n ? <-. apply bytes_ext. intros. apply H. Qed.

#[export] Instance st8_proper : Proper (mem_eq ==> eq ==> eq ==> mem_eq) st8.
Proof. intros m m' H a ? <- v ? <- b. rewrite !ld8_st8. by case_decide. Qed.
