(* ===== verification/Riscv.v ===== *)
(** * Page sizes, page-table entries and the memory layout

    The macros of kernel/riscv.h (lines 335-366), kernel/memlayout.h,
    kernel/param.h and kernel/fcntl.h that the rest of the kernel, and user
    programs, compute with. *)

From S2P Require Import Prelude.

Definition NPROC : Z := 64.
Abbreviation NCPU := (8)%Z.
Abbreviation NOFILE := (16)%Z.
Abbreviation NFILE := (100)%Z.
Abbreviation NINODE := (50)%Z.
Abbreviation NDEV := (10)%Z.
Definition ROOTDEV : Z := 1.
Abbreviation MAXARG := (32)%Z.
Definition MAXOPBLOCKS : Z := 10.
Definition LOGSIZE : Z := MAXOPBLOCKS * 3.
Definition NBUF : Z := MAXOPBLOCKS * 3.
Definition FSSIZE : Z := 1000.
Abbreviation MAXPATH := (128)%Z.

(** The modes of [open] (kernel/fcntl.h). *)
Abbreviation O_RDONLY := (0x000)%Z.
Abbreviation O_WRONLY := (0x001)%Z.
Abbreviation O_RDWR := (0x002)%Z.
Abbreviation O_CREATE := (0x200)%Z.
Abbreviation O_TRUNC := (0x400)%Z.

Definition PGSIZE : Z := 4096.
Abbreviation PGSHIFT := (12)%Z.
Definition PGROUNDUP (sz : Z) : Z := Z.land (u64 (sz + PGSIZE - 1)) (Z.lnot (PGSIZE - 1)).
Definition PGROUNDDOWN (a : Z) : Z := Z.land a (Z.lnot (PGSIZE - 1)).

Definition PTE_V : Z := Z.shiftl 1 0.
Definition PTE_R : Z := Z.shiftl 1 1.
Definition PTE_W : Z := Z.shiftl 1 2.
Definition PTE_X : Z := Z.shiftl 1 3.
Definition PTE_U : Z := Z.shiftl 1 4.

Definition PA2PTE (pa : Z) : Z := u64 (Z.shiftl (Z.shiftr pa 12) 10).
Definition PTE2PA (pte : Z) : Z := u64 (Z.shiftl (Z.shiftr pte 10) 12).
Definition PTE_FLAGS (pte : Z) : Z := Z.land pte 0x3FF.

Abbreviation PXMASK := (0x1FF)%Z.
Definition PXSHIFT (level : Z) : Z := PGSHIFT + 9 * level.
Definition PX (level va : Z) : Z := Z.land (Z.shiftr va (PXSHIFT level)) PXMASK.
Definition MAXVA : Z := Z.shiftl 1 (9 + 9 + 9 + 12 - 1).

Abbreviation SATP_SV39 := (Z.shiftl 8 60)%Z.
Definition MAKE_SATP (pagetable : Z) : Z := Z.lor SATP_SV39 (Z.shiftr pagetable 12).

Abbreviation UART0 := (0x10000000)%Z.
Abbreviation UART0_IRQ := (10)%Z.
Abbreviation VIRTIO0 := (0x10001000)%Z.
Abbreviation VIRTIO0_IRQ := (1)%Z.
Abbreviation CLINT := (0x2000000)%Z.
Definition CLINT_MTIMECMP (hartid : Z) : Z := CLINT + 0x4000 + 8 * hartid.
Abbreviation PLIC := (0x0c000000)%Z.
Definition PLIC_SENABLE (hart : Z) : Z := PLIC + 0x2080 + hart * 0x100.
Definition PLIC_SPRIORITY (hart : Z) : Z := PLIC + 0x201000 + hart * 0x2000.
Definition KERNBASE : Z := 0x80000000.
Definition PHYSTOP : Z := KERNBASE + 128 * 1024 * 1024.
Definition TRAMPOLINE : Z := MAXVA - PGSIZE.
Definition KSTACK (p : Z) : Z := TRAMPOLINE - (p + 1) * 2 * PGSIZE.
Definition TRAPFRAME : Z := TRAMPOLINE - PGSIZE.

(** ** Page rounding *)

Lemma land_lnot_ones a n : 0 <= n -> Z.land a (Z.lnot (2 ^ n - 1)) = a - a mod 2 ^ n.
Proof.
  intros Hn. replace (2 ^ n - 1) with (Z.ones n) by (rewrite Z.ones_equiv; lia).
  rewrite <- Z.ldiff_land, Z.ldiff_ones_r, Z.shiftl_mul_pow2, Z.shiftr_div_pow2 by lia.
  rewrite (Z.mod_eq a) by lia. lia.
Qed.

Lemma PGROUNDDOWN_eq a : PGROUNDDOWN a = a - a mod PGSIZE.
Proof. apply (land_lnot_ones a 12). lia. Qed.

Lemma PGROUNDUP_eq sz :
  0 <= sz -> sz + PGSIZE - 1 < 2 ^ 64 ->
  PGROUNDUP sz = (sz + PGSIZE - 1) / PGSIZE * PGSIZE.
Proof.
  intros. unfold PGROUNDUP. rewrite u64_small by (unfold PGSIZE in *; lia).
  change (Z.land ?x _) with (PGROUNDDOWN x). rewrite PGROUNDDOWN_eq.
  rewrite Z.mod_eq by done. lia.
Qed.

(** ** Page-table entries *)

Lemma lor_disjoint a f n : 0 <= f < 2 ^ n -> 0 <= n -> Z.lor (Z.shiftl a n) f = a * 2 ^ n + f.
Proof.
  intros. rewrite Z.shiftl_mul_pow2 by lia. symmetry.
  rewrite <- Z.shiftl_mul_pow2 by lia. rewrite <- Z.lxor_lor, Z.add_nocarry_lxor; [done|..].
  all: apply Z.bits_inj'; intros i Hi; rewrite Z.land_spec, Z.bits_0, Z.shiftl_spec by done.
  all: destruct (decide (i < n)).
  all: try (rewrite (Z.testbit_neg_r a) by lia; done).
  all: rewrite (proj1 (Z.bounded_iff_bits_nonneg n f ltac:(lia) ltac:(lia)) ltac:(lia) i);
    [apply andb_false_r | lia].
Qed.

Lemma PA2PTE_eq pa : 0 <= pa < 2 ^ 64 -> PA2PTE pa = pa / 4096 * 1024.
Proof.
  intros. unfold PA2PTE. rewrite Z.shiftr_div_pow2, Z.shiftl_mul_pow2 by lia.
  change (2^12) with 4096. change (2^10) with 1024.
  rewrite u64_small; [done|]. change (2^64) with 18446744073709551616 in *.
  pose proof (Z.div_pos pa 4096). pose proof (Z.mul_div_le pa 4096). lia.
Qed.

(** An entry made of a page address and flag bits. *)
Lemma pte_lor_eq pa f :
  0 <= pa < 2 ^ 64 -> 0 <= f < 1024 -> Z.lor (PA2PTE pa) f = pa / 4096 * 1024 + f.
Proof.
  intros. rewrite PA2PTE_eq by lia. change 1024 with (2 ^ 10).
  rewrite <- Z.shiftl_mul_pow2 by lia. rewrite lor_disjoint by lia.
  by rewrite Z.shiftl_mul_pow2 by lia.
Qed.

Lemma PTE2PA_lor pa f :
  0 <= pa < 2 ^ 56 -> pa mod PGSIZE = 0 -> 0 <= f < 1024 ->
  PTE2PA (Z.lor (PA2PTE pa) f) = pa.
Proof.
  intros Hpa Hal Hf. rewrite pte_lor_eq by lia. unfold PTE2PA.
  rewrite Z.shiftr_div_pow2, Z.shiftl_mul_pow2 by lia.
  change (2 ^ 10) with 1024. change (2 ^ 12) with 4096. unfold PGSIZE in *.
  rewrite (Z.div_add_l _ 1024), (Z.div_small f) by lia.
  rewrite Z.add_0_r.
  pose proof (Z.div_mod pa 4096 ltac:(lia)).
  replace (pa / 4096 * 4096) with pa by lia. apply u64_small. lia.
Qed.

Lemma PTE_FLAGS_eq pte : PTE_FLAGS pte = pte mod 1024.
Proof. unfold PTE_FLAGS. change 0x3FF with (Z.ones 10). apply Z.land_ones. lia. Qed.

Lemma PTE_FLAGS_lor pa f :
  0 <= pa < 2 ^ 64 -> 0 <= f < 1024 -> PTE_FLAGS (Z.lor (PA2PTE pa) f) = f.
Proof.
  intros. rewrite pte_lor_eq, PTE_FLAGS_eq by lia.
  rewrite Z.add_comm, Z.mod_add by lia. by apply Z.mod_small.
Qed.

(** A flag test looks only at the flag bits. *)
Lemma land_flags pte b : 0 <= b < 1024 -> Z.land pte b = Z.land (PTE_FLAGS pte) b.
Proof.
  intros. unfold PTE_FLAGS. rewrite <- Z.land_assoc. f_equal.
  change 0x3FF with (Z.ones 10). rewrite Z.land_comm, Z.land_ones by lia.
  symmetry. apply Z.mod_small. lia.
Qed.

(** ** Virtual addresses *)

Lemma PX_eq level va : 0 <= level -> PX level va = va / 2 ^ (12 + 9 * level) mod 512.
Proof.
  intros. unfold PX, PXSHIFT. change 0x1FF with (Z.ones 9).
  rewrite Z.land_ones, Z.shiftr_div_pow2 by lia. done.
Qed.

Lemma PX_range level va : 0 <= level -> 0 <= PX level va < 512.
Proof. intros. rewrite PX_eq by done. apply Z.mod_pos_bound. lia. Qed.

(** Two addresses below [MAXVA] with the same three indices are in the same page. *)
Lemma PX_inj va va' :
  0 <= va < MAXVA -> 0 <= va' < MAXVA ->
  PX 2 va = PX 2 va' -> PX 1 va = PX 1 va' -> PX 0 va = PX 0 va' ->
  PGROUNDDOWN va = PGROUNDDOWN va'.
Proof.
  change MAXVA with (2 ^ 38). rewrite !PX_eq, !PGROUNDDOWN_eq by lia.
  unfold PGSIZE. intros ? ? H2 H1 H0. simpl Z.add in *.
  change (2 ^ 38) with 274877906944 in *.
  change (2 ^ (12 + 9 * 2)) with 1073741824 in *.
  change (2 ^ (12 + 9 * 1)) with 2097152 in *. change (2 ^ (12 + 9 * 0)) with 4096 in *.
  change (2 ^ 30) with 1073741824 in *. change (2 ^ 21) with 2097152 in *.
  change (2 ^ 12) with 4096 in *.
  Z.to_euclidean_division_equations. lia.
Qed.

Lemma PX_page level va : 0 <= level -> PX level (PGROUNDDOWN va) = PX level va.
Proof.
  intros. rewrite !PX_eq, PGROUNDDOWN_eq by done. f_equal. unfold PGSIZE.
  rewrite Z.pow_add_r by lia. rewrite <- !Z.div_div by lia. change (2^12) with 4096.
  f_equal. pose proof (Z.div_mod va 4096). rewrite (Z.mod_eq va 4096) by lia.
  replace (va - (va - 4096 * (va / 4096))) with (va / 4096 * 4096) by lia.
  by rewrite Z.div_mul.
Qed.

(** ** Memory layout *)

(** Kernel stacks of different processes are page aligned, lie below the
    trampoline, and have an unmapped page between them. *)
Lemma KSTACK_disjoint i j :
  0 <= i < j -> j < NPROC ->
  KSTACK j + 2 * PGSIZE <= KSTACK i /\ KSTACK i + 2 * PGSIZE <= TRAMPOLINE /\
  0 < KSTACK j /\ KSTACK i mod PGSIZE = 0.
Proof.
  intros. unfold KSTACK, NPROC in *. change TRAMPOLINE with 274877902848.
  unfold PGSIZE. repeat split; try lia.
  replace (274877902848 - (i+1) * 2 * 4096) with ((67108863 - (i+1)*2) * 4096) by lia.
  by apply Z.mod_mul.
Qed.
