(* ===== verification/Str.v ===== *)
(** * kernel/string.c

    The byte-string routines of the kernel over physical memory: [memset],
    [memcmp], [memmove], [memcpy], [strncmp], [strncpy], [safestrcpy] and
    [strlen], with what they guarantee to their callers. *)

From S2P Require Import Prelude Mem.

Module Str.

Fixpoint memset_loop (k : nat) (m : mem) (cdst c : Z) : mem :=
  match k with
  | O => m
  | S k' => memset_loop k' (st8 m cdst c) (cdst + 1) c
  end.

Definition memset (m : mem) (dst c n : Z) : mem := memset_loop (Z.to_nat n) m dst c.

Fixpoint memcmp_loop (k : nat) (m : mem) (s1 s2 : Z) : Z :=
  match k with
  | O => 0
  | S k' =>
      if negb (ld8 m s1 =? ld8 m s2) then ld8 m s1 - ld8 m s2
      else memcmp_loop k' m (s1 + 1) (s2 + 1)
  end.

Definition memcmp (m : mem) (v1 v2 n : Z) : Z := memcmp_loop (Z.to_nat n) m v1 v2.

(** [while(n-- > 0) *--d = *--s;] *)
Fixpoint copy_down (k : nat) (m : mem) (d s : Z) : mem :=
  match k with
  | O => m
  | S k' => copy_down k' (st8 m (d - 1) (ld8 m (s - 1))) (d - 1) (s - 1)
  end.

(** [while(n-- > 0) *d++ = *s++;] *)
Fixpoint copy_up (k : nat) (m : mem) (d s : Z) : mem :=
  match k with
  | O => m
  | S k' => copy_up k' (st8 m d (ld8 m s)) (d + 1) (s + 1)
  end.

Definition memmove (m : mem) (dst src n : Z) : mem :=
  if n =? 0 then m
  else if (src <? dst) && (dst <? src + n)
       then copy_down (Z.to_nat n) m (dst + n) (src + n)
       else copy_up (Z.to_nat n) m dst src.

Definition memcpy (m : mem) (dst src n : Z) : mem := memmove m dst src n.

Fixpoint strncmp_loop (k : nat) (m : mem) (p q : Z) : Z :=
  match k with
  | O => 0
  | S k' =>
      if negb (ld8 m p =? 0) && (ld8 m p =? ld8 m q)
      then strncmp_loop k' m (p + 1) (q + 1)
      else ld8 m p - ld8 m q
  end.

Definition strncmp (m : mem) (p q n : Z) : Z := strncmp_loop (Z.to_nat n) m p q.

(** [while(n-- > 0 && ( *s++ = *t++) != 0); while(n-- > 0) *s++ = 0;] *)
Fixpoint strncpy_loop (k : nat) (m : mem) (s t : Z) : mem :=
  match k with
  | O => m
  | S k' =>
      let c := ld8 m t in
      let m := st8 m s c in
      if negb (c =? 0) then strncpy_loop k' m (s + 1) (t + 1)
      else memset_loop k' m (s + 1) 0
  end.

Definition strncpy (m : mem) (s t n : Z) : mem := strncpy_loop (Z.to_nat n) m s t.

(** [while(--n > 0 && ( *s++ = *t++) != 0); *s = 0;], [k] being [n - 1]. *)
Fixpoint safestrcpy_loop (k : nat) (m : mem) (s t : Z) : mem :=
  match k with
  | O => st8 m s 0
  | S k' =>
      let c := ld8 m t in
      let m := st8 m s c in
      if negb (c =? 0) then safestrcpy_loop k' m (s + 1) (t + 1)
      else st8 m (s + 1) 0
  end.

Definition safestrcpy (m : mem) (s t n : Z) : mem :=
  if n <=? 0 then m else safestrcpy_loop (Z.to_nat (n - 1)) m s t.

(** [for(n = 0; s[n]; n++);] *)
Definition strlen_body (m : mem) (s n : Z) : Z + Z :=
  if negb (ld8 m (s + n) =? 0) then inl (n + 1) else inr n.

Definition strlen (m : mem) (s : Z) : option Z := ploop (strlen_body m s) 0.

(** ** Abstract contents

    The bytes of the C string at [p], at most [n] of them. *)
Fixpoint cstrn (n : nat) (m : mem) (p : Z) : list Z :=
  match n with
  | O => []
  | S n' => if ld8 m p =? 0 then [] else ld8 m p :: cstrn n' m (p + 1)
  end.

(** ** memset and memmove *)

Lemma memset_loop_spec k m d c a :
  ld8 (memset_loop k m d c) a =
  if (d <=? a) && (a <? d + Z.of_nat k) then u8 c else ld8 m a.
Proof.
  revert m d; induction k as [|k IH]; intros m d; simpl memset_loop.
  - ifd; [lia|done].
  - rewrite IH, ld8_st8.
    repeat (ifd || case_decide); first [done | lia].
Qed.

Lemma memset_spec m d c n a :
  ld8 (memset m d c n) a = if (d <=? a) && (a <? d + n) then u8 c else ld8 m a.
Proof.
  unfold memset. rewrite memset_loop_spec.
  repeat ifd; first [done | lia].
Qed.

Lemma ld8_memset_out m d c n a : a < d \/ d + n <= a -> ld8 (memset m d c n) a = ld8 m a.
Proof. intros. rewrite memset_spec. ifd; [lia|done]. Qed.

Lemma ld8_memset_in m d c n a : d <= a < d + n -> ld8 (memset m d c n) a = u8 c.
Proof. intros. rewrite memset_spec. ifd; [done|lia]. Qed.

Lemma copy_up_spec k m d s a :
  ~ (s < d < s + Z.of_nat k) ->
  ld8 (copy_up k m d s) a =
  if (d <=? a) && (a <? d + Z.of_nat k) then ld8 m (s + (a - d)) else ld8 m a.
Proof.
  revert m d s; induction k as [|k IH]; intros m d s Hov; simpl copy_up.
  - ifd; [lia|done].
  - rewrite IH by lia. rewrite !ld8_st8.
    repeat (ifd || case_decide); subst; try lia; autorewrite with xv6;
      first [done | lia | f_equal; lia | rewrite u8_small by apply ld8_range; f_equal; lia].
Qed.

Lemma copy_down_spec k m d s a :
  ~ (s - Z.of_nat k <= d - Z.of_nat k < s - Z.of_nat k) -> s <= d ->
  ld8 (copy_down k m d s) a =
  if (d - Z.of_nat k <=? a) && (a <? d) then ld8 m (s + (a - d)) else ld8 m a.
Proof.
  revert m d s; induction k as [|k IH]; intros m d s Hov Hsd; simpl copy_down.
  - ifd; [lia|done].
  - rewrite IH by lia. rewrite !ld8_st8.
    repeat (ifd || case_decide); subst; try lia;
      first [done | lia | f_equal; lia | rewrite u8_small by apply ld8_range; f_equal; lia].
Qed.

Lemma ld8_memmove m dst src n a :
  0 <= n ->
  ld8 (memmove m dst src n) a =
  if (dst <=? a) && (a <? dst + n) then ld8 m (src + (a - dst)) else ld8 m a.
Proof.
  intros Hn. unfold memmove. ifd; [subst; ifd; [lia|done]|].
  destruct ((src <? dst) && (dst <? src + n)) eqn:E2; bdestr.
  - rewrite copy_down_spec by lia. repeat ifd; first [done | lia | f_equal; lia].
  - rewrite copy_up_spec by lia. repeat ifd; first [done | lia].
Qed.

(** The reference: all [n] source bytes are read before any is written. *)
Definition copied (m : mem) (dst src n : Z) (m' : mem) : Prop :=
  bytes m' dst n = bytes m src n /\
  (forall a, a < dst \/ dst + n <= a -> ld8 m' a = ld8 m a).

Lemma memmove_copied m dst src n : 0 <= n -> copied m dst src n (memmove m dst src n).
Proof.
  intros Hn. split.
  - apply bytes_ext. intros i Hi. rewrite ld8_memmove by done. ifd; [f_equal; lia|lia].
  - intros a Ha. rewrite ld8_memmove by done. ifd; [lia|done].
Qed.

(** ** Comparison *)

Lemma memcmp_loop_zero k m p q :
  memcmp_loop k m p q = 0 <-> bytes m p (Z.of_nat k) = bytes m q (Z.of_nat k).
Proof.
  revert p q; induction k as [|k IH]; intros p q; simpl memcmp_loop; [done|].
  rewrite !(bytes_cons _ _ (Z.of_nat (S k))) by lia.
  replace (Z.of_nat (S k) - 1) with (Z.of_nat k) by lia.
  ifd.
  - split; [lia|]. intros [= ? ?]. lia.
  - rewrite IH. split; [intros ->; congruence|]. by intros [= _ ?].
Qed.

Lemma strncmp_loop_zero k m p q :
  strncmp_loop k m p q = 0 <-> cstrn k m p = cstrn k m q.
Proof.
  revert p q; induction k as [|k IH]; intros p q; simpl; [done|].
  destruct (Z.eqb_spec (ld8 m p) 0) as [Hp|Hp], (Z.eqb_spec (ld8 m q) 0) as [Hq|Hq],
    (Z.eqb_spec (ld8 m p) (ld8 m q)) as [He|He]; simpl; try lia.
  - split; [done|lia].
  - split; [lia|done].
  - split; [lia|done].
  - rewrite IH, He. split; [by intros ->|]. by intros [= ?].
  - split; [lia|]. by intros [= ? ?].
Qed.

(** ** Copies of C strings *)

Lemma cstrn_ext k m m' p p' :
  (forall i, 0 <= i < Z.of_nat k -> ld8 m (p + i) = ld8 m' (p' + i)) ->
  cstrn k m p = cstrn k m' p'.
Proof.
  revert p p'; induction k as [|k IH]; intros p p' H; simpl; [done|].
  pose proof (H 0 ltac:(lia)) as H0. rewrite !Z.add_0_r in H0. rewrite H0.
  ifd; [done|]. f_equal. apply IH. intros i Hi.
  replace (p + 1 + i) with (p + (i + 1)) by lia.
  replace (p' + 1 + i) with (p' + (i + 1)) by lia. apply H. lia.
Qed.

Lemma cstrn_length k m p : (length (cstrn k m p) <= k)%nat.
Proof.
  revert p; induction k as [|k IH]; intros p; simpl; [lia|].
  ifd; simpl; [lia|]. specialize (IH (p+1)). lia.
Qed.

Lemma ld8_strncpy_loop_out k m s t a :
  a < s \/ s + Z.of_nat k <= a -> ld8 (strncpy_loop k m s t) a = ld8 m a.
Proof.
  revert m s t; induction k as [|k IH]; intros m s t Ha; simpl; [done|].
  ifd.
  - rewrite IH by lia. apply ld8_st8_ne. lia.
  - rewrite memset_loop_spec. ifd; [lia|]. apply ld8_st8_ne. lia.
Qed.

Lemma strncpy_loop_spec k m s t i :
  s + Z.of_nat k <= t \/ t + Z.of_nat k <= s ->
  0 <= i < Z.of_nat k ->
  ld8 (strncpy_loop k m s t) (s + i) =
  nth (Z.to_nat i) (cstrn k m t) 0.
Proof.
  revert m s t i; induction k as [|k IH]; intros m s t i Hd Hi; [lia|]. simpl.
  destruct (ld8 m t =? 0) eqn:E; simpl; bdestr.
  - transitivity 0; [|by destruct (Z.to_nat i)].
    rewrite memset_loop_spec, ld8_st8, E.
    repeat (ifd || case_decide); first [done | lia].
  - destruct (decide (i = 0)) as [->|].
    + rewrite ld8_strncpy_loop_out, Z.add_0_r, ld8_st8_eq by lia.
      rewrite u8_small by apply ld8_range. done.
    + replace (s + i) with (s + 1 + (i - 1)) by lia. rewrite IH by lia.
      replace (Z.to_nat i) with (S (Z.to_nat (i - 1))) by lia. simpl.
      f_equal. apply cstrn_ext. intros j Hj. apply ld8_st8_ne. lia.
Qed.

Lemma ld8_safestrcpy_loop_out k m s t a :
  a < s \/ s + Z.of_nat k < a -> ld8 (safestrcpy_loop k m s t) a = ld8 m a.
Proof.
  revert m s t; induction k as [|k IH]; intros m s t Ha; simpl.
  - apply ld8_st8_ne. lia.
  - ifd; [rewrite IH by lia | rewrite ld8_st8_ne by lia]; apply ld8_st8_ne; lia.
Qed.

(** A string copied into [k + 1] bytes is cut to [k] and NUL-terminated. *)
Lemma safestrcpy_loop_spec k m s t :
  s + Z.of_nat k < t \/ t + Z.of_nat k <= s ->
  cstrn (S k) (safestrcpy_loop k m s t) s = cstrn k m t.
Proof.
  revert m s t; induction k as [|k IH]; intros m s t Hd.
  - simpl. by rewrite ld8_st8_eq.
  - change (cstrn (S (S k)) ?mm s) with
      (if ld8 mm s =? 0 then [] else ld8 mm s :: cstrn (S k) mm (s + 1)).
    simpl safestrcpy_loop. simpl (cstrn (S k) m t).
    destruct (ld8 m t =? 0) eqn:E; simpl negb; cbv iota; bdestr.
    + rewrite ld8_st8_ne, ld8_st8_eq, E by lia. done.
    + rewrite ld8_safestrcpy_loop_out, ld8_st8_eq, u8_small by first [apply ld8_range | lia].
      destruct (ld8 m t =? 0) eqn:E2; bdestr; [done|].
      rewrite IH by lia. f_equal.
      apply cstrn_ext. intros j Hj. apply ld8_st8_ne. lia.
Qed.

Lemma strlen_iter k m s n :
  (forall i, n <= i < n + Z.of_nat k -> ld8 m (s + i) <> 0) ->
  ld8 m (s + (n + Z.of_nat k)) = 0 ->
  piter_n (S k) (strlen_body m s) n = inr (n + Z.of_nat k).
Proof.
  revert n; induction k as [|k IH]; intros n Hnz Hz.
  - rewrite Z.add_0_r in *. simpl. unfold strlen_body. by rewrite Hz.
  - change (piter_n (S (S k)) ?f n) with
      (match f n with inl a => piter_n (S k) f a | inr b => inr b end).
    unfold strlen_body at 1.
    rewrite (proj2 (Z.eqb_neq _ _) (Hnz n ltac:(lia))). cbn [negb].
    rewrite IH; [f_equal; lia | intros; apply Hnz; lia |].
    rewrite <- Hz. f_equal. lia.
Qed.

(** [strlen] finds the first NUL. *)
Lemma strlen_spec k m s :
  (forall i, 0 <= i < k -> ld8 m (s + i) <> 0) -> ld8 m (s + k) = 0 ->
  0 <= k < 2 ^ 64 -> strlen m s = Some k.
Proof.
  intros Hnz Hz Hk. apply (ploop_exit (S (Z.to_nat k))); [lia|].
  rewrite strlen_iter; rewrite ?Z.add_0_l, ?Z2Nat.id by lia; auto.
Qed.

End Str.

(** [memmove] copies the [n] bytes that were at [src] to [dst] and changes
    nothing else, also when the two ranges overlap in either direction. *)
Theorem memmove_correct m dst src n :
  0 <= n ->
  bytes (Str.memmove m dst src n) dst n = bytes m src n /\
  forall a, a < dst \/ dst + n <= a -> ld8 (Str.memmove m dst src n) a = ld8 m a.
Proof. apply Str.memmove_copied. Qed.

Lemma memmove_correct_witness :
  0 <= 3 /\
  bytes (Str.memmove {[10 := 1; 11 := 2; 12 := 3]} 11 10 3) 11 3 = [1; 2; 3].
Proof.
  split; [lia|].
  rewrite (proj1 (memmove_correct {[10 := 1; 11 := 2; 12 := 3]} 11 10 3 ltac:(lia))).
  reflexivity.
Defined.

(** [strncmp] returns 0 exactly when the two C strings agree on their first
    [n] characters. *)
Theorem strncmp_correct m p q n :
  Str.strncmp m p q n = 0 <->
  Str.cstrn (Z.to_nat n) m p = Str.cstrn (Z.to_nat n) m q.
Proof. apply Str.strncmp_loop_zero. Qed.

(** [strncpy] fills the [n] bytes at [s] with the C string at [t], padded
    with zeros, and [safestrcpy] leaves at [s] the C string at [t] cut to
    [n - 1] characters and always NUL-terminated; neither writes outside the
    [n] bytes. *)
Theorem strcpy_correct m s t n :
  0 < n -> s + n <= t \/ t + n <= s ->
  (forall i, 0 <= i < n ->
     ld8 (Str.strncpy m s t n) (s + i) = nth (Z.to_nat i) (Str.cstrn (Z.to_nat n) m t) 0) /\
  Str.cstrn (Z.to_nat n) (Str.safestrcpy m s t n) s = Str.cstrn (Z.to_nat (n - 1)) m t /\
  (forall a, a < s \/ s + n <= a ->
     ld8 (Str.strncpy m s t n) a = ld8 m a /\ ld8 (Str.safestrcpy m s t n) a = ld8 m a).
Proof.
  intros Hn Hd. unfold Str.strncpy, Str.safestrcpy.
  rewrite (proj2 (Z.leb_gt n 0)) by lia.
  replace (Z.to_nat n) with (S (Z.to_nat (n - 1))) by lia.
  split; [|split].
  - intros i Hi. apply Str.strncpy_loop_spec; lia.
  - apply Str.safestrcpy_loop_spec. lia.
  - intros a Ha. split.
    + apply Str.ld8_strncpy_loop_out. lia.
    + apply Str.ld8_safestrcpy_loop_out. lia.
Qed.

Lemma strcpy_correct_witness :
  Str.cstrn 4 (Str.safestrcpy {[100 := 97; 101 := 98; 102 := 99; 103 := 100]} 10 100 4) 10
  = [97; 98; 99].
Proof.
  exact (proj1 (proj2 (strcpy_correct {[100 := 97; 101 := 98; 102 := 99; 103 := 100]}
    10 100 4 ltac:(lia) ltac:(lia)))).
Defined.
