(* ===== verification/RingBuf.v ===== *)
(** * Ring buffers

    The circular buffers of pipe.c, console.c and uart.c: an array of [N] bytes
    and two counters that only grow, modulo [W], an element's place being its
    counter modulo [N].  What the buffer holds, and what the code's operations
    on it do, whatever the counters are. *)

From S2P Require Import Prelude.

Section ring.
Context (W N : Z).
Hypothesis HN : 0 < N.
Hypothesis HNW : N < W.
Hypothesis Hdiv : (N | W).
#[local] Set Default Proof Using "HN HNW Hdiv".

(** How many elements there are from [r] to [w], and which. *)
Definition rb_len (r w : Z) : Z := (w - r) mod W.
Definition rb_get (buf : list Z) (i : Z) : Z := nth (Z.to_nat (i mod N)) buf 0.
Definition rb_items (buf : list Z) (r w : Z) : list Z :=
  map (fun i => rb_get buf (r + i)) (seqZ 0 (rb_len r w)).

Record rb_ok (buf : list Z) (r w : Z) : Prop := {
  rb_buf : length buf = Z.to_nat N;
  rb_r : 0 <= r < W;
  rb_w : 0 <= w < W;
  rb_fits : rb_len r w <= N;
}.

Lemma rb_mod_mod x : (x mod W) mod N = x mod N.
Proof. by apply Z.mod_mod_divide. Qed.

Lemma rb_len_range r w : 0 <= rb_len r w < W.
Proof. apply Z.mod_pos_bound. lia. Qed.

Lemma rb_len_eq r w : 0 <= r < W -> 0 <= w < W -> rb_len r w = if r <=? w then w - r else w - r + W.
Proof.
  intros Hr Hw. unfold rb_len. destruct (Z.leb_spec r w).
  - apply Z.mod_small. lia.
  - rewrite <- (Z.mod_add _ 1) by lia. rewrite Z.mod_small; lia.
Qed.

Lemma rb_items_length buf r w : length (rb_items buf r w) = Z.to_nat (rb_len r w).
Proof. unfold rb_items. by rewrite length_map, length_seqZ. Qed.

(** The code's tests. *)
Lemma rb_empty r w : 0 <= r < W -> 0 <= w < W -> r = w <-> rb_len r w = 0.
Proof. intros. rewrite rb_len_eq by done. destruct (Z.leb_spec r w); lia. Qed.

Lemma rb_full r w : 0 <= r < W -> 0 <= w < W -> w = (r + N) mod W <-> rb_len r w = N.
Proof.
  intros Hr Hw. rewrite rb_len_eq by done. split.
  - intros ->. destruct (Z.lt_ge_cases (r + N) W) as [?|?].
    + rewrite Z.mod_small by lia. destruct (Z.leb_spec r (r + N)); lia.
    + rewrite <- (Z.mod_add _ (-1)) by lia. rewrite Z.mod_small by lia.
      destruct (Z.leb_spec r (r + N + -1 * W)); lia.
  - destruct (Z.leb_spec r w); intros E.
    + rewrite Z.mod_small; lia.
    + rewrite <- (Z.mod_add _ (-1)) by lia. rewrite Z.mod_small; lia.
Qed.

(** Counters move by one. *)
Lemma rb_len_push r w : rb_len r w < N -> rb_len r ((w + 1) mod W) = rb_len r w + 1.
Proof.
  intros H. pose proof (rb_len_range r w). unfold rb_len in *.
  rewrite Zminus_mod_idemp_l. replace (w + 1 - r) with ((w - r) + 1) by lia.
  rewrite <- Zplus_mod_idemp_l. apply Z.mod_small. lia.
Qed.

Lemma rb_len_pop r w : 0 < rb_len r w -> rb_len ((r + 1) mod W) w = rb_len r w - 1.
Proof.
  intros H. pose proof (rb_len_range r w). unfold rb_len in *.
  rewrite Zminus_mod_idemp_r. replace (w - (r + 1)) with ((w - r) - 1) by lia.
  rewrite <- Zminus_mod_idemp_l. apply Z.mod_small. lia.
Qed.

Lemma rb_len_unpush r w : 0 < rb_len r w -> rb_len r ((w - 1) mod W) = rb_len r w - 1.
Proof.
  intros H. pose proof (rb_len_range r w). unfold rb_len in *.
  rewrite Zminus_mod_idemp_l. replace (w - 1 - r) with ((w - r) - 1) by lia.
  rewrite <- Zminus_mod_idemp_l. apply Z.mod_small. lia.
Qed.

Lemma rb_get_mod buf i j : rb_get buf (i mod W + j) = rb_get buf (i + j).
Proof. unfold rb_get. f_equal. f_equal. rewrite <- rb_mod_mod, Zplus_mod_idemp_l. apply rb_mod_mod. Qed.

Lemma rb_w_eq r w : 0 <= w < W -> (r + rb_len r w) mod W = w.
Proof.
  intros Hw. unfold rb_len. rewrite Zplus_mod_idemp_r. replace (r + (w - r)) with w by lia.
  by apply Z.mod_small.
Qed.

Lemma rb_place r w : 0 <= w < W -> w mod N = (r + rb_len r w) mod N.
Proof. intros Hw. rewrite <- (rb_w_eq r w Hw) at 1. apply rb_mod_mod. Qed.

Lemma rb_apart r i j : 0 <= i < N -> 0 <= j < N -> i <> j -> (r + i) mod N <> (r + j) mod N.
Proof.
  intros Hi Hj Hne E. apply Hne.
  assert ((r + i - (r + j)) mod N = 0) as H0.
  { rewrite Zminus_mod, E, Z.sub_diag. apply Z.mod_0_l. lia. }
  replace (r + i - (r + j)) with (i - j) in H0 by lia.
  apply Z.mod_divide in H0 as [k Hk]; [|lia].
  destruct (Z.lt_trichotomy k 0) as [?|[->|?]]; nia.
Qed.

(** Append, remove from the front, remove from the back. *)
Lemma rb_push buf r w c : rb_ok buf r w -> rb_len r w < N ->
  rb_items (<[Z.to_nat (w mod N) := c]> buf) r ((w + 1) mod W) = rb_items buf r w ++ [c].
Proof.
  intros [Hb Hr Hw _] Hlt. unfold rb_items. rewrite rb_len_push by done.
  pose proof (rb_len_range r w) as Hlen. set (n := rb_len r w) in *.
  rewrite seqZ_app, map_app by lia. cbn. f_equal.
  - apply map_ext_in. intros i Hi%list_elem_of_In. apply elem_of_seqZ in Hi.
    unfold rb_get. pose proof (Z.mod_pos_bound (r + i) N HN). pose proof (Z.mod_pos_bound w N HN).
    rewrite !nth_lookup, list_lookup_insert_ne; [done|].
    intros E. apply Z2Nat.inj in E; [|lia..]. rewrite (rb_place r w Hw) in E.
    symmetry in E. revert E. apply rb_apart; fold n; lia.
  - rewrite seqZ_cons' by lia. cbn. f_equal. unfold rb_get. rewrite nth_lookup, (rb_place r w Hw). fold n.
    rewrite list_lookup_insert_eq; [done|].
    rewrite Hb. pose proof (Z.mod_pos_bound (r + n) N HN). lia.
Qed.

Lemma rb_pop buf r w : rb_ok buf r w -> 0 < rb_len r w ->
  rb_items buf r w = rb_get buf r :: rb_items buf ((r + 1) mod W) w.
Proof.
  intros [Hb Hr Hw _] Hpos. unfold rb_items. rewrite rb_len_pop by done.
  rewrite seqZ_cons' by done. cbn [map]. rewrite Z.add_0_r. f_equal.
  rewrite <- (fmap_add_seqZ 1 0 (rb_len r w - 1) : map (Z.add 1) (seqZ 0 _) = seqZ (0 + 1) _).
  rewrite map_map. apply map_ext. intros i. rewrite rb_get_mod. f_equal. lia.
Qed.

Lemma rb_unpush buf r w : rb_ok buf r w -> 0 < rb_len r w ->
  rb_items buf r w = rb_items buf r ((w - 1) mod W) ++ [rb_get buf ((w - 1) mod W)].
Proof.
  intros [Hb Hr Hw _] Hpos. unfold rb_items. rewrite rb_len_unpush by done.
  replace (rb_len r w) with (rb_len r w - 1 + 1) at 1 by lia.
  rewrite seqZ_app, map_app by lia. f_equal. rewrite seqZ_cons' by lia. cbn. f_equal.
  unfold rb_get. f_equal. f_equal. rewrite rb_mod_mod. rewrite <- (rb_mod_mod (w - 1)).
  rewrite <- (rb_w_eq r w Hw) at 2. rewrite Zminus_mod_idemp_l, rb_mod_mod. f_equal. lia.
Qed.

Lemma rb_ok_push buf r w c : rb_ok buf r w -> rb_len r w < N ->
  rb_ok (<[Z.to_nat (w mod N) := c]> buf) r ((w + 1) mod W).
Proof.
  intros [Hb Hr Hw _] Hlt. split; [by rewrite length_insert|done|apply Z.mod_pos_bound; lia|].
  rewrite rb_len_push by done. lia.
Qed.

Lemma rb_ok_pop buf r w : rb_ok buf r w -> 0 < rb_len r w -> rb_ok buf ((r + 1) mod W) w.
Proof.
  intros [Hb Hr Hw Hf] Hlt. split; [done|apply Z.mod_pos_bound; lia|done|].
  rewrite rb_len_pop by done. lia.
Qed.

Lemma rb_ok_unpush buf r w : rb_ok buf r w -> 0 < rb_len r w -> rb_ok buf r ((w - 1) mod W).
Proof.
  intros [Hb Hr Hw Hf] Hlt. split; [done|done|apply Z.mod_pos_bound; lia|].
  rewrite rb_len_unpush by done. lia.
Qed.
End ring.
