(* ===== verification/Ring.v ===== *)
(** * Rings of doubly linked nodes

    Nodes linked through a [next] and a [prev] field, whatever a node is: the
    list heads of list.c in memory, the buffers of bio.c in their table.  What
    an insertion or a removal of a node does to the sequence of nodes. *)

From S2P Require Import Prelude.

Section ring.
Context {A : Type} `{EqDecision A}.
Implicit Types (nx pv : A -> A) (l es : list A).

(** Consecutive nodes of [l] point at each other. *)
Fixpoint links nx pv l : Prop :=
  match l with
  | a :: (b :: _) as t => nx a = b /\ pv b = a /\ links nx pv t
  | _ => True
  end.

(** [h] starts a ring whose other nodes are [es], in order. *)
Definition ring nx pv (h : A) es : Prop := NoDup (h :: es) /\ links nx pv (h :: es ++ [h]).

Lemma elem_of_removelast (x : A) l : x ∈ removelast l -> x ∈ l.
Proof.
  induction l as [|a [|b t] IH]; simpl; [done|by intros ?%not_elem_of_nil|].
  intros [->|H]%elem_of_cons; [left|]. right. by apply IH.
Qed.

(** The links of a list depend on the [next] of all but its last node and the
    [prev] of all but its first. *)
Lemma links_ext nx pv nx' pv' l :
  (forall a, a ∈ removelast l -> nx' a = nx a) ->
  (forall a, a ∈ tail l -> pv' a = pv a) -> links nx pv l -> links nx' pv' l.
Proof.
  induction l as [|a [|b t] IH]; [done|done|]. intros Hn Hp (H1 & H2 & H3).
  split; [rewrite Hn; [done|left]|]. split; [rewrite Hp; [done|left]|].
  apply IH; [|intros; apply Hp; by right|done].
  intros x Hx. apply Hn. by right.
Qed.

Lemma links_app nx pv l1 a l2 :
  links nx pv (l1 ++ a :: l2) <-> links nx pv (l1 ++ [a]) /\ links nx pv (a :: l2).
Proof.
  induction l1 as [|x [|y l1] IH]; simpl in *; [tauto| |].
  - destruct l2; simpl; tauto.
  - rewrite IH. tauto.
Qed.

Lemma links_last nx pv l a b : links nx pv (l ++ [a; b]) -> nx a = b /\ pv b = a.
Proof. rewrite links_app. simpl. tauto. Qed.

Lemma snoc_cases (h : A) es : exists l a, h :: es = l ++ [a].
Proof. destruct (exists_last (l := h :: es)) as (l & a & E); [done|]. by exists l, a. Qed.

Lemma links_snoc nx pv h es b :
  links nx pv (h :: es ++ [b]) -> links nx pv (h :: es) /\ pv b = default h (last es).
Proof.
  revert h; induction es as [|e es IH]; intros h; [simpl; tauto|].
  change ((e :: es) ++ [b]) with (e :: es ++ [b]). intros (E1 & E2 & Hl).
  destruct (IH e Hl) as [? ->]. split; [done|]. rewrite last_cons. by destruct (last es).
Qed.

(** Walking a ring in either direction. *)
Fixpoint follow (f : A -> A) (k : nat) (a : A) : list A :=
  match k with O => [] | S k' => a :: follow f k' (f a) end.

Lemma follow_next nx pv a es b d :
  links nx pv (a :: es ++ [b]) -> follow nx (length es) (nx a) = es /\ nx (List.last (a :: es) d) = b.
Proof.
  revert a; induction es as [|e es IH]; intros a Hl; simpl in *; [tauto|].
  destruct Hl as (E & _ & Hl). destruct (IH e Hl) as [IH1 IH2]. rewrite E.
  split; [by rewrite IH1|]. by destruct es.
Qed.

Lemma follow_prev nx pv a es b :
  links nx pv (a :: es ++ [b]) -> follow pv (length es) (pv b) = rev es.
Proof.
  revert b; induction es as [|e es IH] using rev_ind; intros b Hl; [done|].
  rewrite length_app, rev_app_distr, Nat.add_comm. simpl.
  rewrite <- app_assoc, app_comm_cons in Hl. change ([e] ++ [b]) with [e; b] in Hl.
  pose proof (links_last _ _ _ _ _ Hl) as [_ Ep]. apply links_app in Hl as [Hl _].
  rewrite Ep. f_equal. by apply IH.
Qed.

(** The neighbours of a node of a ring are nodes of the ring. *)
Lemma ring_neighbours nx pv h es x :
  ring nx pv h es -> x ∈ h :: es -> nx x ∈ h :: es /\ pv x ∈ h :: es.
Proof.
  intros [_ Hl] Hx. assert (forall l a b, links nx pv (a :: l ++ [b]) -> forall y,
    (y ∈ a :: l -> nx y ∈ l ++ [b]) /\ (y ∈ l ++ [b] -> pv y ∈ a :: l)) as Hgen.
  { induction l as [|c l IH]; intros a b; simpl; [set_solver|].
    intros (E1 & E2 & Hl') y. destruct (IH c b Hl' y). set_solver. }
  destruct (Hgen _ _ _ Hl x) as [Hn Hp]. specialize (Hn Hx). set_solver.
Qed.

(** ** The fields of an insertion between [a] and [b], and of a removal from
    between them *)

Definition inserted nx pv (new a b : A) nx' pv' (x : A) : Prop :=
  nx' x = (if decide (a = x) then new else if decide (new = x) then b else nx x) /\
  pv' x = (if decide (new = x) then a else if decide (b = x) then new else pv x).

Definition removed nx pv (a b : A) nx' pv' (x : A) : Prop :=
  nx' x = (if decide (a = x) then b else nx x) /\ pv' x = (if decide (b = x) then a else pv x).

Lemma splice_add nx pv nx' pv' new l1 a b l2 :
  (forall x, x ∈ l1 ++ a :: new :: b :: l2 -> inserted nx pv new a b nx' pv' x) ->
  (forall x, x ∈ l1 ++ a :: b :: l2 -> x <> new) ->
  a ∉ l1 -> a ∉ removelast (b :: l2) -> b ∉ tail (l1 ++ [a]) -> b ∉ l2 ->
  links nx pv (l1 ++ a :: b :: l2) -> links nx' pv' (l1 ++ a :: new :: b :: l2).
Proof.
  intros F Hne Ha1 Ha2 Hb1 Hb2 [H1 (_ & _ & H2)]%links_app.
  assert (a <> new /\ b <> new) as [Han Hbn] by (split; apply Hne; set_solver).
  apply links_app. split; [|split; [|split; [|split; [|split]]]].
  - eapply links_ext; [| |exact H1].
    + intros x Hx. rewrite removelast_app, app_nil_r in Hx by done.
      pose proof (Hne x ltac:(set_solver)). rewrite (proj1 (F x ltac:(set_solver))).
      rewrite !decide_False; [done| |]; congruence || (intros ->; done).
    + intros x Hx. assert (x ∈ l1 ++ [a]) as Hx' by (destruct l1; simpl in *; set_solver).
      pose proof (Hne x ltac:(set_solver)). rewrite (proj2 (F x ltac:(set_solver))).
      rewrite !decide_False; [done| |]; congruence || (intros ->; done).
  - rewrite (proj1 (F a ltac:(set_solver))). by rewrite decide_True.
  - rewrite (proj2 (F new ltac:(set_solver))). by rewrite decide_True.
  - rewrite (proj1 (F new ltac:(set_solver))). rewrite decide_False by done. by rewrite decide_True.
  - rewrite (proj2 (F b ltac:(set_solver))). rewrite decide_False by done. by rewrite decide_True.
  - eapply links_ext; [| |exact H2].
    + intros x Hx. assert (x ∈ b :: l2) as Hx' by (eapply elem_of_removelast, Hx).
      pose proof (Hne x ltac:(set_solver)). rewrite (proj1 (F x ltac:(set_solver))).
      rewrite !decide_False; [done| |]; congruence || (intros ->; done).
    + intros x Hx. simpl in Hx. pose proof (Hne x ltac:(set_solver)). rewrite (proj2 (F x ltac:(set_solver))).
      rewrite !decide_False; [done| |]; congruence || (intros ->; done).
Qed.

Lemma splice_del nx pv nx' pv' l1 a e b l2 :
  (forall x, x ∈ l1 ++ a :: b :: l2 -> removed nx pv a b nx' pv' x) ->
  a ∉ l1 -> a ∉ removelast (b :: l2) -> b ∉ tail (l1 ++ [a]) -> b ∉ l2 ->
  links nx pv (l1 ++ a :: e :: b :: l2) -> links nx' pv' (l1 ++ a :: b :: l2).
Proof.
  intros F Ha1 Ha2 Hb1 Hb2 [H1 (_ & _ & _ & _ & H2)]%links_app.
  apply links_app. split; [|split; [|split]].
  - eapply links_ext; [| |exact H1].
    + intros x Hx. rewrite removelast_app, app_nil_r in Hx by done.
      rewrite (proj1 (F x ltac:(set_solver))). rewrite decide_False; [done|]. by intros ->.
    + intros x Hx. assert (x ∈ l1 ++ [a]) as Hx' by (destruct l1; simpl in *; set_solver).
      rewrite (proj2 (F x ltac:(set_solver))). rewrite decide_False; [done|]. by intros ->.
  - rewrite (proj1 (F a ltac:(set_solver))). by rewrite decide_True.
  - rewrite (proj2 (F b ltac:(set_solver))). by rewrite decide_True.
  - eapply links_ext; [| |exact H2].
    + intros x Hx. assert (x ∈ b :: l2) as Hx' by (eapply elem_of_removelast, Hx).
      rewrite (proj1 (F x ltac:(set_solver))). rewrite decide_False; [done|]. by intros ->.
    + intros x Hx. simpl in Hx. rewrite (proj2 (F x ltac:(set_solver))).
      rewrite decide_False; [done|]. by intros ->.
Qed.

(** ** Rings *)

Lemma ring_insert_front nx pv nx' pv' h es new :
  new ∉ h :: es -> ring nx pv h es ->
  (forall x, x ∈ new :: h :: es -> inserted nx pv new h (nx h) nx' pv' x) ->
  ring nx' pv' h (new :: es).
Proof.
  intros Hni [Hnd Hl] F. split.
  { pose proof (proj1 (NoDup_cons _ _) Hnd) as [? ?]. rewrite !NoDup_cons. set_solver. }
  destruct (es ++ [h]) as [|b l2] eqn:E; [by destruct es|].
  assert (nx h = b) as Eb by apply Hl. rewrite Eb in F. simpl. rewrite E.
  assert (forall x, x ∈ b :: l2 -> x ∈ h :: es) as Hsub by (rewrite <- E; set_solver).
  assert (NoDup (b :: l2)) as Hnd2.
  { rewrite <- E. apply NoDup_app. apply NoDup_cons in Hnd as [? ?].
    split; [done|]. split; [set_solver|]. apply NoDup_singleton. }
  apply (splice_add nx pv nx' pv' new [] h b l2); [| |set_solver| |set_solver| |exact Hl].
  - intros x Hx. apply F. set_solver.
  - intros x Hx ->. apply Hni. set_solver.
  - rewrite <- E, removelast_app, app_nil_r by done. by apply NoDup_cons in Hnd as [? _].
  - by apply NoDup_cons in Hnd2 as [? _].
Qed.

Lemma ring_insert_back nx pv nx' pv' h es new :
  new ∉ h :: es -> ring nx pv h es ->
  (forall x, x ∈ new :: h :: es -> inserted nx pv new (pv h) h nx' pv' x) ->
  ring nx' pv' h (es ++ [new]).
Proof.
  intros Hni [Hnd Hl] F. split.
  { rewrite app_comm_cons. apply NoDup_app. split; [done|].
    split; [set_solver|apply NoDup_singleton]. }
  destruct (snoc_cases h es) as (l & a & E).
  rewrite app_comm_cons, E, <- app_assoc in Hl. simpl in Hl.
  rewrite (proj2 (links_last _ _ _ _ _ Hl)) in F.
  rewrite <- app_assoc, app_comm_cons, E, <- app_assoc. simpl.
  assert (h ∉ es) by (by apply NoDup_cons in Hnd as [? _]).
  assert (forall x, x ∈ l ++ [a] -> x ∈ h :: es) as Hsub by (by rewrite <- E).
  rewrite E in Hnd. apply NoDup_app in Hnd as (? & Hd & _).
  apply (splice_add nx pv); [| |set_solver|set_solver| |set_solver|exact Hl].
  - intros x Hx. apply F. set_solver.
  - intros x Hx ->. apply Hni. set_solver.
  - by rewrite <- E.
Qed.

Lemma ring_remove nx pv nx' pv' h e1 e e2 :
  ring nx pv h (e1 ++ e :: e2) ->
  (forall x, x ∈ h :: e1 ++ e2 -> removed nx pv (pv e) (nx e) nx' pv' x) ->
  ring nx' pv' h (e1 ++ e2).
Proof.
  intros [Hnd Hl] F.
  destruct (snoc_cases h e1) as (l & a & E).
  destruct (e2 ++ [h]) as [|b l2] eqn:E2; [by destruct e2|].
  assert (h :: (e1 ++ e :: e2) ++ [h] = l ++ a :: e :: b :: l2) as Ew.
  { rewrite app_comm_cons, app_comm_cons, E, <- !app_assoc. simpl. by rewrite E2. }
  assert (h :: (e1 ++ e2) ++ [h] = l ++ a :: b :: l2) as Ew'.
  { rewrite app_comm_cons, app_comm_cons, E, <- !app_assoc. simpl. by rewrite E2. }
  rewrite Ew in Hl.
  assert (pv e = a /\ nx e = b) as [Ep En].
  { apply links_app in Hl as [_ Hl]. simpl in Hl. tauto. }
  rewrite Ep, En in F.
  assert (NoDup (h :: e1 ++ e2)) as Hnd'.
  { rewrite app_comm_cons in *. apply NoDup_app in Hnd as (N1 & N2 & [N3 N4]%NoDup_cons).
    apply NoDup_app. split; [done|]. split; [set_solver|done]. }
  split; [done|].
  assert (NoDup (l ++ [a]) /\ (forall x, x ∈ l ++ [a] -> x ∉ e2) /\ NoDup e2 /\ (h ∉ e1) /\ (h ∉ e2))
    as (Hn1 & Hn2 & Hn3 & Hn4 & Hn5).
  { rewrite <- E. rewrite app_comm_cons in Hnd'. apply NoDup_app in Hnd' as (N1 & N2 & N3).
    pose proof (proj1 (NoDup_cons _ _) N1) as [N4 N5]. split; [done|]. split; [done|]. set_solver. }
  rewrite Ew'. apply NoDup_app in Hn1 as (? & Hd & _).
  apply (splice_del nx pv nx' pv' l a e b l2); [|set_solver| | | |exact Hl].
  - intros x Hin. rewrite <- Ew' in Hin. apply F. set_solver.
  - rewrite <- E2, removelast_app, app_nil_r by done. apply Hn2. set_solver.
  - rewrite <- E. simpl. intros Hin.
    assert (b ∈ e2 ++ [h]) as Hb by (rewrite E2; left).
    apply elem_of_app in Hb as [Hb|Hb]; [|set_solver].
    apply (Hn2 b); [|done]. rewrite <- E. by right.
  - assert (NoDup (b :: l2)) as Hnb; [|by apply NoDup_cons in Hnb as [? _]].
    rewrite <- E2. apply NoDup_app. split; [done|]. split; [set_solver|apply NoDup_singleton].
Qed.
End ring.
