(* ===== verification/Locks.v ===== *)
(** * The lock interface

    What kernel/spinlock.c promises the code that calls [acquire] and
    [release] on one CPU: a state with the list of spinlocks the executing
    CPU holds, innermost first.  A lock is identified by the name it is
    given in [initlock] and by the object it lives in.  The length of the
    list is [mycpu()->noff].  Spinlock.v models spinlock.c itself and proves
    that it implements this interface. *)

From S2P Require Import Prelude.

Abbreviation lockid := (string * Z)%type.

Class HasLocks (S : Type) := {
  held : S -> list lockid;
  set_held : list lockid -> S -> S;
}.

Class LocksLaws (S : Type) `{HasLocks S} := {
  held_set_held h (s : S) : held (set_held h s) = h;
  set_held_held (s : S) : set_held (held s) s = s;
  set_held_twice h h' (s : S) : set_held h (set_held h' s) = set_held h s;
}.

Fixpoint remove_lock (l : lockid) (h : list lockid) : list lockid :=
  match h with
  | [] => []
  | l' :: h' => if decide (l = l') then h' else l' :: remove_lock l h'
  end.

Section ops.
Context {S : Type} `{HasLocks S}.

Definition holding (l : lockid) : M S bool := gets (fun s => bool_decide (l ∈ held s)).

Definition acquire (l : lockid) : M S unit :=
  fun s => if decide (l ∈ held s) then Panic "acquire"
           else Ret tt (set_held (l :: held s) s).

Definition release (l : lockid) : M S unit :=
  fun s => if decide (l ∈ held s) then Ret tt (set_held (remove_lock l (held s)) s)
           else Panic "release".

Definition initlock (l : lockid) : M S unit :=
  modify (fun s => set_held (remove_lock l (held s)) s).

Lemma acquire_eq l s : l ∉ held s -> acquire l s = Ret tt (set_held (l :: held s) s).
Proof. intros. unfold acquire. by rewrite decide_False. Qed.

Lemma remove_lock_notin l h : l ∉ h -> remove_lock l h = h.
Proof.
  induction h as [|l' h IH]; simpl; [done|]. intros Hn.
  apply not_elem_of_cons in Hn as [??]. rewrite decide_False by done. by rewrite IH.
Qed.

Lemma remove_lock_head l h : remove_lock l (l :: h) = h.
Proof. simpl. by rewrite decide_True. Qed.

Lemma remove_lock_length l h : l ∈ h -> length h = Datatypes.S (length (remove_lock l h)).
Proof.
  induction h as [|a h IH]; simpl; [by intros ?%not_elem_of_nil|].
  intros Hin. case_decide as E; [done|]. apply elem_of_cons in Hin as [?|Hin]; [done|].
  simpl. by rewrite <- IH.
Qed.

Lemma release_head l h s : held s = l :: h -> release l s = Ret tt (set_held h s).
Proof.
  intros E. unfold release. rewrite E, decide_True by set_solver.
  by rewrite remove_lock_head.
Qed.

End ops.

Arguments acquire : simpl never.
Arguments release : simpl never.

#[export] Hint Rewrite @held_set_held @set_held_held @set_held_twice : xv6.
