(* ===== verification/Spinlock.v ===== *)
(** * kernel/spinlock.c

    Spinlocks on a multiprocessor: lock words, the per-CPU nesting count of
    [push_off], and interrupt enables.  The functions are run by a CPU [c].
    The step relation interleaves the atomic actions of all CPUs; the lock
    interface of Locks.v is what one CPU sees of it.

    [noff] is a C [int] whose overflow is undefined; it is an integer here. *)

From S2P Require Import Prelude Locks.

Module Spinlock.

Record spinlock := Spin { locked : Z; lcpu : option nat }.
Record cpu := Cpu { noff : Z; intena : bool; sie : bool }.
Record smp := Smp { lks : lockid -> spinlock; cpus : nat -> cpu }.

Definition set_lk (l : lockid) (v : spinlock) (m : smp) : smp := Smp (upd (lks m) l v) (cpus m).
Definition set_cpu (c : nat) (v : cpu) (m : smp) : smp := Smp (lks m) (upd (cpus m) c v).

(** The interrupt enable of [sstatus] (kernel/riscv.h). *)
Definition intr_get (c : nat) : M smp bool := gets (fun m => sie (cpus m c)).
Definition intr_off (c : nat) : M smp unit :=
  modify (fun m => set_cpu c (Cpu (noff (cpus m c)) (intena (cpus m c)) false) m).
Definition intr_on (c : nat) : M smp unit :=
  modify (fun m => set_cpu c (Cpu (noff (cpus m c)) (intena (cpus m c)) true) m).

Definition initlock (lk : lockid) : M smp unit := modify (set_lk lk (Spin 0 None)).

Definition holding (c : nat) (lk : lockid) : M smp bool :=
  gets (fun m => negb (locked (lks m lk) =? 0) && bool_decide (lcpu (lks m lk) = Some c)).

Definition push_off (c : nat) : M smp unit :=
  (old <- intr_get c;
   intr_off c;;
   n <- gets (fun m => noff (cpus m c));
   (if n =? 0 then modify (fun m => set_cpu c (Cpu (noff (cpus m c)) old (sie (cpus m c))) m)
    else ret tt);;
   modify (fun m => set_cpu c (Cpu (noff (cpus m c) + 1) (intena (cpus m c)) (sie (cpus m c))) m))%K.

Definition pop_off (c : nat) : M smp unit :=
  (i <- intr_get c;
   if (i : bool) then panic "pop_off - interruptible"
   else
     n <- gets (fun m => noff (cpus m c));
     if n <? 1 then panic "pop_off"
     else
       modify (fun m => set_cpu c (Cpu (noff (cpus m c) - 1) (intena (cpus m c)) (sie (cpus m c))) m);;
       k <- gets (fun m => cpus m c);
       if (noff k =? 0) && intena k then intr_on c else ret tt)%K.

(** [acquire] in the pieces between its atomic actions. *)
Definition acquire_enter (c : nat) (lk : lockid) : M smp unit :=
  (push_off c;;
   h <- holding c lk;
   if (h : bool) then panic "acquire" else ret tt)%K.

(** [__sync_lock_test_and_set(&lk->locked, 1)] *)
Definition test_and_set (lk : lockid) : M smp Z :=
  fun m => Ret (locked (lks m lk)) (set_lk lk (Spin 1 (lcpu (lks m lk))) m).

Definition spin (lk : lockid) (_ : unit) : M smp (unit + unit) :=
  (old <- test_and_set lk; ret (if negb (old =? 0) then inl tt else inr tt))%K.

Definition set_owner (lk : lockid) (o : option nat) : M smp unit :=
  modify (fun m => set_lk lk (Spin (locked (lks m lk)) o) m).

Definition acquire (c : nat) (lk : lockid) : M smp unit :=
  (acquire_enter c lk;;
   loop (spin lk) tt;;
   set_owner lk (Some c))%K.

(** [release] in the same way. *)
Definition release_enter (c : nat) (lk : lockid) : M smp unit :=
  (h <- holding c lk;
   if (h : bool) then set_owner lk None else panic "release")%K.

Definition lock_release (lk : lockid) : M smp unit :=
  modify (fun m => set_lk lk (Spin 0 (lcpu (lks m lk))) m).

Definition release (c : nat) (lk : lockid) : M smp unit :=
  (release_enter c lk;; lock_release lk;; pop_off c)%K.

(** ** What the pieces do *)

(** The CPU record after [push_off] and [pop_off]. *)
Definition pushed (k : cpu) : cpu :=
  Cpu (noff k + 1) (if noff k =? 0 then sie k else intena k) false.
Definition popped (k : cpu) : cpu :=
  Cpu (noff k - 1) (intena k) ((noff k - 1 =? 0) && intena k).

Lemma push_off_eq c m : push_off c m = Ret tt (set_cpu c (pushed (cpus m c)) m).
Proof.
  unfold push_off, pushed, set_cpu. simpl. rewrite upd_eq. simpl.
  by destruct (noff (cpus m c) =? 0); simpl; repeat (rewrite ?upd_upd, ?upd_eq; simpl).
Qed.

Lemma pop_off_eq c m :
  sie (cpus m c) = false -> 1 <= noff (cpus m c) ->
  pop_off c m = Ret tt (set_cpu c (popped (cpus m c)) m).
Proof.
  intros Hs Hn. unfold pop_off, popped, set_cpu. unfold bind, intr_get, gets. cbn [bindr].
  rewrite Hs, (proj2 (Z.ltb_ge _ _)) by lia. simpl. rewrite upd_eq. simpl.
  destruct ((noff (cpus m c) - 1 =? 0) && intena (cpus m c)); simpl; [|by rewrite Hs].
  unfold intr_on, set_cpu. simpl. by rewrite upd_upd, upd_eq.
Qed.

(** A sequence of matched calls: [true] is [push_off], [false] is [pop_off]. *)
Definition nest_op (c : nat) (b : bool) : M smp unit := if b then push_off c else pop_off c.

Fixpoint run_nest (c : nat) (bs : list bool) : M smp unit :=
  match bs with [] => ret tt | b :: bs' => (nest_op c b;; run_nest c bs')%K end.

(** The depth after the calls, if no [pop_off] is unmatched. *)
Fixpoint depth (d : Z) (bs : list bool) : option Z :=
  match bs with
  | [] => Some d
  | true :: bs' => depth (d + 1) bs'
  | false :: bs' => if d <? 1 then None else depth (d - 1) bs'
  end.

(** [e] is the interrupt enable that held before the outermost [push_off]. *)
Definition nested (e : bool) (d : Z) (k : cpu) : Prop :=
  0 <= d /\ noff k = d /\ (if d =? 0 then sie k = e else sie k = false /\ intena k = e).

Lemma nested_push e d k : nested e d k -> nested e (d + 1) (pushed k).
Proof.
  intros (Hd & Hn & Hs). unfold nested, pushed; simpl. rewrite Hn.
  rewrite (proj2 (Z.eqb_neq (d + 1) 0)) by lia. split; [lia|]. split; [done|]. split; [done|].
  destruct (d =? 0); [done|]. apply Hs.
Qed.

Lemma nested_pop e d k : 1 <= d -> nested e d k -> nested e (d - 1) (popped k).
Proof.
  intros Hd1 (Hd & Hn & Hs). unfold nested, popped; simpl. rewrite Hn.
  rewrite (proj2 (Z.eqb_neq d 0)) in Hs by lia. destruct Hs as [Hs Hi].
  split; [lia|]. split; [done|]. rewrite Hi.
  destruct (d - 1 =? 0); simpl; [done|]. by split.
Qed.

Lemma nested_off e d k : 1 <= d -> nested e d k -> sie k = false.
Proof. intros Hd (_ & _ & Hs). rewrite (proj2 (Z.eqb_neq d 0)) in Hs by lia. apply Hs. Qed.

Lemma run_nest_spec c bs e m d0 d :
  nested e d0 (cpus m c) -> depth d0 bs = Some d ->
  exists m', run_nest c bs m = Ret tt m' /\ lks m' = lks m /\
    noff (cpus m' c) = d /\ sie (cpus m' c) = (if d =? 0 then e else false).
Proof.
  revert d0 m. induction bs as [|b bs IH]; intros d0 m Hn Hd; cbn [run_nest depth] in *.
  - simplify_eq. exists m. destruct Hn as (? & ? & Hs). split_and!; try done.
    revert Hs. case_match; [done|]. by intros [? _].
  - destruct b; unfold bind, nest_op.
    + rewrite push_off_eq. cbn [bindr]. refine (IH (d0 + 1) (set_cpu c (pushed (cpus m c)) m) _ Hd).
      simpl. rewrite upd_eq. by apply nested_push.
    + destruct (Z.ltb_spec d0 1); [done|].
      rewrite pop_off_eq; [|by eapply nested_off|by destruct Hn as (_ & -> & _)].
      cbn [bindr]. refine (IH (d0 - 1) (set_cpu c (popped (cpus m c)) m) _ Hd).
      simpl. rewrite upd_eq. by apply nested_pop.
Qed.
End Spinlock.

(** [push_off] and [pop_off] nest.  After any sequence of calls in which
    every [pop_off] matches an earlier [push_off] no call has panicked, the CPU's
    interrupts are off as long as a [push_off] is unmatched, and when all are
    matched they are as they were at the start. *)
Theorem push_pop_nest c bs e m d :
  Spinlock.nested e 0 (Spinlock.cpus m c) -> Spinlock.depth 0 bs = Some d ->
  exists m', Spinlock.run_nest c bs m = Ret tt m' /\ Spinlock.lks m' = Spinlock.lks m /\
    Spinlock.noff (Spinlock.cpus m' c) = d /\
    Spinlock.sie (Spinlock.cpus m' c) = (if d =? 0 then e else false).
Proof. apply Spinlock.run_nest_spec. Qed.

Lemma push_pop_nest_witness :
  exists m', Spinlock.run_nest 0 [true; true; false; true]
      (Spinlock.Smp (fun _ => Spinlock.Spin 0 None) (fun _ => Spinlock.Cpu 0 false true)) = Ret tt m' /\
    Spinlock.lks m' = (fun _ => Spinlock.Spin 0 None) /\
    Spinlock.noff (Spinlock.cpus m' 0) = 2 /\
    Spinlock.sie (Spinlock.cpus m' 0) = (if 2 =? 0 then true else false).
Proof.
  apply (push_pop_nest 0 [true; true; false; true] true
    (Spinlock.Smp (fun _ => Spinlock.Spin 0 None) (fun _ => Spinlock.Cpu 0 false true)) 2);
    [by vm_compute|done].
Defined.
