(* ===== verification/SpinlockSmp.v ===== *)
(** * Spinlocks under interleaving

    All CPUs run [acquire], [release], [push_off] and [pop_off] at once, one
    atomic action at a time.  The proof is an invariant of the step relation:
    a lock word is 1 exactly while one CPU owns the lock. *)

From S2P Require Import Prelude Locks Spinlock.
Import Spinlock.

Module SpinSmp.

(** Where a CPU is: outside, in the spin loop of [acquire], after a successful
    swap and before [lk->cpu] is set, or in [release] before and after the lock
    word is cleared. *)
Inductive pc := Idle | Spinning (l : lockid) | Got (l : lockid) | Clearing (l : lockid) | Popping.

(** The machine, each CPU's position, and two histories: the locks each CPU has
    acquired and not begun to release, and its own unmatched [push_off]s. *)
Record sys := Sys {
  mach : smp;
  pcs : nat -> pc;
  gheld : nat -> list lockid;
  pushes : nat -> nat;
}.

Inductive step : sys -> sys -> Prop :=
| step_enter c l m m' p g n :
    p c = Idle -> acquire_enter c l m = Ret tt m' ->
    step (Sys m p g n) (Sys m' (upd p c (Spinning l)) g n)
| step_spin c l m m' p g n :
    p c = Spinning l -> spin l tt m = Ret (inl tt) m' ->
    step (Sys m p g n) (Sys m' p g n)
| step_got c l m m' p g n :
    p c = Spinning l -> spin l tt m = Ret (inr tt) m' ->
    step (Sys m p g n) (Sys m' (upd p c (Got l)) g n)
| step_set c l m m' p g n :
    p c = Got l -> set_owner l (Some c) m = Ret tt m' ->
    step (Sys m p g n) (Sys m' (upd p c Idle) (upd g c (l :: g c)) n)
| step_release c l m m' p g n :
    p c = Idle -> release_enter c l m = Ret tt m' ->
    step (Sys m p g n) (Sys m' (upd p c (Clearing l)) (upd g c (remove_lock l (g c))) n)
| step_clear c l m m' p g n :
    p c = Clearing l -> lock_release l m = Ret tt m' ->
    step (Sys m p g n) (Sys m' (upd p c Popping) g n)
| step_pop_off c m m' p g n :
    p c = Popping -> pop_off c m = Ret tt m' ->
    step (Sys m p g n) (Sys m' (upd p c Idle) g n)
| step_push c m m' p g n :
    p c = Idle -> push_off c m = Ret tt m' ->
    step (Sys m p g n) (Sys m' p g (upd n c (S (n c))))
| step_pop c k m m' p g n :
    p c = Idle -> n c = S k -> pop_off c m = Ret tt m' ->
    step (Sys m p g n) (Sys m' p g (upd n c k))
| step_intr c b m p g n :
    p c = Idle -> noff (cpus m c) = 0 ->
    step (Sys m p g n) (Sys (set_cpu c (Cpu 0 (intena (cpus m c)) b) m) p g n).

Inductive reach : sys -> Prop :=
| reach_init e : reach (Sys (Smp (fun _ => Spin 0 None) (fun c => Cpu 0 false (e c)))
                          (fun _ => Idle) (fun _ => []) (fun _ => O))
| reach_step s s' : reach s -> step s s' -> reach s'.

(** ** The invariant *)

(** CPU [c] owns [l]: it has swapped 1 in and not yet stored 0. *)
Definition owns (s : sys) (c : nat) (l : lockid) : Prop :=
  l ∈ gheld s c \/ pcs s c = Got l \/ pcs s c = Clearing l.

Definition lock_ok (s : sys) (l : lockid) : Prop :=
  (locked (lks (mach s) l) = 0 /\ (forall c, ~ owns s c l) /\ lcpu (lks (mach s) l) = None) \/
  (locked (lks (mach s) l) = 1 /\ exists c, owns s c l /\ (forall c', owns s c' l -> c' = c) /\
     lcpu (lks (mach s) l) = if decide (l ∈ gheld s c) then Some c else None).

Definition busy (p : pc) : Z := match p with Idle => 0 | _ => 1 end.

Record inv (s : sys) : Prop := {
  inv_lock l : lock_ok s l;
  inv_excl c l : l ∈ gheld s c -> pcs s c <> Got l /\ pcs s c <> Clearing l;
  inv_nodup c : NoDup (gheld s c);
  inv_noff c : noff (cpus (mach s) c) =
    Z.of_nat (length (gheld s c)) + Z.of_nat (pushes s c) + busy (pcs s c);
  inv_sie c : 0 < noff (cpus (mach s) c) -> sie (cpus (mach s) c) = false;
}.

(** On a CPU outside [acquire] and [release], [holding] tells the truth. *)
Lemma holding_spec s c l :
  inv s -> pcs s c = Idle -> holding c l (mach s) = Ret (bool_decide (l ∈ gheld s c)) (mach s).
Proof.
  intros Hi Hp. unfold holding, gets. f_equal.
  destruct (inv_lock _ Hi l) as [(-> & Hno & ->)|(-> & c' & Ho & Hu & ->)]; simpl.
  - rewrite bool_decide_eq_false_2; [done|]. intros H. by apply (Hno c); left.
  - case_decide as Hg; apply bool_decide_ext; split.
    + by intros [= ->].
    + intros H. by rewrite (Hu c (or_introl H)).
    + done.
    + intros H. by rewrite (Hu c (or_introl H)) in H.
Qed.

Lemma owns_other s s' c c' l :
  c' <> c -> (forall c', c' <> c -> pcs s' c' = pcs s c' /\ gheld s' c' = gheld s c') ->
  owns s' c' l <-> owns s c' l.
Proof. intros Hne H. unfold owns. by destruct (H c' Hne) as [-> ->]. Qed.

(** A step of [c] that changes neither the lock nor who owns it. *)
Lemma lock_ok_ext s s' l :
  lks (mach s') l = lks (mach s) l -> (forall c, owns s' c l <-> owns s c l) ->
  (forall c, l ∈ gheld s' c <-> l ∈ gheld s c) -> lock_ok s l -> lock_ok s' l.
Proof.
  intros El Eo Eg [(H1 & H2 & H3)|(H1 & c & H2 & H3 & H4)]; [left|right]; rewrite El.
  - split; [done|]. split; [|done]. intros c Hc. by apply (H2 c), Eo.
  - split; [done|]. exists c. split; [by apply Eo|]. split; [intros c' Hc; by apply H3, Eo|].
    rewrite H4. by apply decide_ext.
Qed.

Lemma remove_lock_elem l l' h : NoDup h -> l' ∈ remove_lock l h <-> l' ∈ h /\ l' <> l.
Proof.
  induction h as [|a h IH]; simpl; intros Hnd; [set_solver|].
  apply NoDup_cons in Hnd as [Ha Hnd]. case_decide; subst; set_solver.
Qed.

Lemma remove_lock_nodup l h : NoDup h -> NoDup (remove_lock l h).
Proof.
  induction h as [|a h IH]; simpl; intros Hnd; [done|].
  pose proof (proj1 (NoDup_cons _ _) Hnd) as [Ha Hnd']. case_decide; [done|].
  apply NoDup_cons. split; [|by apply IH]. by intros [? _]%remove_lock_elem.
Qed.

Ltac upds := unfold upd, owns in *; simpl in *; repeat (case_decide; subst; simpl in *).

(** Steps that leave the locks and their owners alone: only [c]'s nesting
    count and position move. *)
Lemma inv_cpu s c k p' n' :
  inv s ->
  (forall l, p' <> Got l /\ p' <> Clearing l) ->
  (forall l, pcs s c <> Got l /\ pcs s c <> Clearing l) ->
  noff k = Z.of_nat (length (gheld s c)) + Z.of_nat n' + busy p' ->
  (0 < noff k -> sie k = false) ->
  inv (Sys (set_cpu c k (mach s)) (upd (pcs s) c p') (gheld s) (upd (pushes s) c n')).
Proof.
  intros Hi Hp' Hp Hn Hs. split; simpl.
  - intros l. apply (lock_ok_ext s); [done| |done|apply Hi].
    intros c'. unfold owns; simpl. destruct (decide (c' = c)) as [->|Hne].
    + rewrite upd_eq. destruct (Hp l), (Hp' l). tauto.
    + by rewrite upd_ne.
  - intros c' l Hl. destruct (decide (c' = c)) as [->|Hne]; [rewrite upd_eq; apply Hp'|].
    rewrite upd_ne by done. by apply Hi.
  - apply Hi.
  - intros c'. upds; [done|apply Hi].
  - intros c'. upds; [done|apply Hi].
Qed.

(** Steps that change one lock word and [c]'s claim on it. *)
Lemma inv_lk s c l v p' g' :
  inv s -> busy p' + Z.of_nat (length g') = busy (pcs s c) + Z.of_nat (length (gheld s c)) ->
  NoDup g' -> (forall l', l' ∈ g' -> p' <> Got l' /\ p' <> Clearing l') ->
  (forall l', l' <> l -> (l' ∈ g' <-> l' ∈ gheld s c) /\
     (p' = Got l' <-> pcs s c = Got l') /\ (p' = Clearing l' <-> pcs s c = Clearing l')) ->
  lock_ok (Sys (set_lk l v (mach s)) (upd (pcs s) c p') (upd (gheld s) c g') (pushes s)) l ->
  inv (Sys (set_lk l v (mach s)) (upd (pcs s) c p') (upd (gheld s) c g') (pushes s)).
Proof.
  intros Hi Hb Hnd Hex Hoth Hl. split; simpl.
  - intros l'. destruct (decide (l' = l)) as [->|Hne]; [done|].
    destruct (Hoth l' Hne) as (E1 & E2 & E3).
    apply (lock_ok_ext s); [by simpl; rewrite upd_ne| | |apply Hi].
    + intros c'. upds; [tauto|done].
    + intros c'. upds; [tauto|done].
  - intros c' l' Hl'. upds; [by apply Hex|by apply Hi].
  - intros c'. upds; [done|apply Hi].
  - intros c'. rewrite (inv_noff _ Hi c'). upds; lia.
  - apply Hi.
Qed.

Lemma enter_inv c l m m' p g n :
  inv (Sys m p g n) -> p c = Idle -> acquire_enter c l m = Ret tt m' ->
  inv (Sys m' (upd p c (Spinning l)) g n).
Proof.
  intros Hi Hp He. unfold acquire_enter, bind in He. rewrite push_off_eq in He. simpl in He.
  case_match; simplify_eq/=. rewrite <- (upd_same n c).
  apply (inv_cpu (Sys m p g n)); [done|done|by simpl; rewrite Hp| |done].
  pose proof (inv_noff _ Hi c) as E. simpl in *. rewrite Hp in E. simpl in E. lia.
Qed.

Lemma spin_inv c l m m' p g n :
  inv (Sys m p g n) -> p c = Spinning l -> spin l tt m = Ret (inl tt) m' -> inv (Sys m' p g n).
Proof.
  intros Hi Hp He. unfold spin, test_and_set, bind in He. simpl in He.
  destruct (Z.eqb_spec (locked (lks m l)) 0) as [E|E]; simplify_eq/=.
  assert (set_lk l (Spin 1 (lcpu (lks m l))) m = m) as ->; [|done].
  destruct m as [k cs]. unfold set_lk; simpl in *. f_equal.
  destruct (inv_lock _ Hi l) as [(E' & _)|(E' & _)]; simpl in *; [lia|].
  rewrite <- E'. assert (Spin (locked (k l)) (lcpu (k l)) = k l) as -> by (by destruct (k l)).
  apply upd_same.
Qed.

Lemma got_inv c l m m' p g n :
  inv (Sys m p g n) -> p c = Spinning l -> spin l tt m = Ret (inr tt) m' ->
  inv (Sys m' (upd p c (Got l)) g n).
Proof.
  intros Hi Hp He. unfold spin, test_and_set, bind in He. simpl in He.
  destruct (Z.eqb_spec (locked (lks m l)) 0) as [E|E]; simplify_eq/=.
  destruct (inv_lock _ Hi l) as [(_ & Hno & Hc)|(E' & _)]; simpl in *; [|lia].
  assert (forall c, l ∉ g c) as Hlc by (intros c' ?; by apply (Hno c'); left).
  pose proof (inv_lk (Sys m p g n) c l (Spin 1 (lcpu (lks m l))) (Got l) (g c)) as H.
  simpl in H. rewrite upd_same in H. apply H; clear H; try done.
  - by rewrite Hp.
  - apply (inv_nodup _ Hi).
  - intros l' Hl'. split; [|done]. intros [= ->]. by apply (Hlc c).
  - intros l' Hl'. rewrite Hp. split; [done|]. split; split; congruence.
  - right. simpl. rewrite upd_eq. simpl. split; [done|]. exists c.
    split; [right; left; simpl; apply upd_eq|]. split.
    + intros c' Ho. destruct (decide (c' = c)) as [|Hne]; [done|]. exfalso. apply (Hno c').
      unfold owns in *; simpl in *. by rewrite upd_ne in Ho.
    + rewrite decide_False by apply Hlc. done.
Qed.

Lemma set_inv c l m m' p g n :
  inv (Sys m p g n) -> p c = Got l -> set_owner l (Some c) m = Ret tt m' ->
  inv (Sys m' (upd p c Idle) (upd g c (l :: g c)) n).
Proof.
  intros Hi Hp He. injection He as <-.
  assert (owns (Sys m p g n) c l) as Ho by (right; by left).
  assert (l ∉ g c) as Hlc by (intros Hl; by destruct (inv_excl _ Hi c l Hl)).
  destruct (inv_lock _ Hi l) as [(_ & Hno & _)|(E & c' & _ & Hu & _)]; [by destruct (Hno c)|].
  simpl in *. pose proof (Hu c Ho) as ->.
  apply (inv_lk (Sys m p g n)); simpl; try done.
  - rewrite Hp. simpl. lia.
  - apply NoDup_cons. split; [done|apply (inv_nodup _ Hi)].
  - intros l' Hl'. rewrite Hp. split; [set_solver|]. split; split; congruence.
  - right. simpl. rewrite !upd_eq. simpl. split; [done|]. exists c'.
    split; [left; simpl; rewrite upd_eq; left|]. split.
    + intros c Ho'. destruct (decide (c = c')) as [|Hne]; [done|]. apply Hu.
      unfold owns in *; simpl in *. by rewrite !upd_ne in Ho'.
    + rewrite upd_eq, decide_True by left. done.
Qed.

Lemma release_inv c l m m' p g n :
  inv (Sys m p g n) -> p c = Idle -> release_enter c l m = Ret tt m' ->
  inv (Sys m' (upd p c (Clearing l)) (upd g c (remove_lock l (g c))) n).
Proof.
  intros Hi Hp He. unfold release_enter, bind in He.
  pose proof (holding_spec _ c l Hi Hp) as Hh. simpl in Hh. rewrite Hh in He. simpl in He. clear Hh.
  case_bool_decide as Hl; [|done]. injection He as <-. pose proof (inv_nodup _ Hi c) as Hnd. simpl in Hnd.
  destruct (inv_lock _ Hi l) as [(_ & Hno & _)|(E & c' & _ & Hu & _)];
    [by destruct (Hno c); left|]. simpl in *.
  pose proof (Hu c (or_introl Hl)) as ->.
  apply (inv_lk (Sys m p g n)); simpl; try done.
  - rewrite Hp. simpl. rewrite (remove_lock_length l (g c')) by done. lia.
  - by apply remove_lock_nodup.
  - intros l' [Hl' Hne]%remove_lock_elem; [|done]. split; congruence.
  - intros l' Hl'. rewrite Hp, remove_lock_elem by done. split; [tauto|]. split; split; congruence.
  - right. simpl. rewrite !upd_eq. simpl. split; [done|]. exists c'.
    split; [right; right; simpl; apply upd_eq|]. split.
    + intros c Ho'. destruct (decide (c = c')) as [|Hne]; [done|]. apply Hu.
      unfold owns in *; simpl in *. by rewrite !upd_ne in Ho'.
    + rewrite upd_eq, decide_False; [done|]. by intros [_ ?]%remove_lock_elem.
Qed.

Lemma clear_inv c l m m' p g n :
  inv (Sys m p g n) -> p c = Clearing l -> lock_release l m = Ret tt m' ->
  inv (Sys m' (upd p c Popping) g n).
Proof.
  intros Hi Hp He. injection He as <-.
  assert (owns (Sys m p g n) c l) as Ho by (right; by right).
  assert (l ∉ g c) as Hlc by (intros Hl; by destruct (inv_excl _ Hi c l Hl)).
  destruct (inv_lock _ Hi l) as [(_ & Hno & _)|(E & c' & _ & Hu & Hcpu)]; [by destruct (Hno c)|].
  simpl in *. pose proof (Hu c Ho) as ->. rewrite decide_False in Hcpu by done.
  pose proof (inv_lk (Sys m p g n) c' l (Spin 0 (lcpu (lks m l))) Popping (g c')) as H.
  simpl in H. rewrite upd_same in H. apply H; clear H; try done.
  - by rewrite Hp.
  - apply (inv_nodup _ Hi).
  - intros l' Hl'. rewrite Hp. split; [done|]. split; split; congruence.
  - left. simpl. rewrite !upd_eq. simpl. split; [done|]. split; [|done].
    intros c Ho'. destruct (decide (c = c')) as [->|Hne].
    + unfold owns in Ho'; simpl in *. rewrite upd_eq in Ho'. naive_solver.
    + apply Hne, Hu. unfold owns in *; simpl in *. by rewrite upd_ne in Ho'.
Qed.

Lemma pop_inv c m m' p g n p' n' :
  inv (Sys m p g n) -> (forall l, p c <> Got l /\ p c <> Clearing l) -> busy p' = 0 ->
  busy (p c) + Z.of_nat (n c) = Z.of_nat n' + 1 -> pop_off c m = Ret tt m' ->
  inv (Sys m' (upd p c p') g (upd n c n')).
Proof.
  intros Hi Hp Hp' Hn He. pose proof (inv_noff _ Hi c) as E. simpl in E.
  assert (sie (cpus m c) = false) as Hs by (apply (inv_sie _ Hi); simpl; lia).
  rewrite pop_off_eq in He by (done || lia). injection He as <-.
  apply (inv_cpu (Sys m p g n)); [done|by destruct p'|done|simpl; lia|].
  simpl. intros H. rewrite (proj2 (Z.eqb_neq _ 0)) by lia. done.
Qed.

Lemma step_inv s s' : inv s -> step s s' -> inv s'.
Proof.
  intros Hi Hs. destruct Hs as [c l m m' p g n Hp He|c l m m' p g n Hp He|c l m m' p g n Hp He
    |c l m m' p g n Hp He|c l m m' p g n Hp He|c l m m' p g n Hp He|c m m' p g n Hp He
    |c m m' p g n Hp He|c k m m' p g n Hp Hk He|c b m p g n Hp H0].
  - by eapply enter_inv.
  - by eapply spin_inv.
  - by eapply got_inv.
  - by eapply set_inv.
  - by eapply release_inv.
  - by eapply clear_inv.
  - rewrite <- (upd_same n c). eapply pop_inv; try done; rewrite ?Hp; [done|simpl; lia].
  - rewrite push_off_eq in He. injection He as <-. rewrite <- (upd_same p c).
    pose proof (inv_noff _ Hi c) as E. simpl in E.
    apply (inv_cpu (Sys m p g n)); [done|by rewrite Hp|by simpl; rewrite Hp|simpl; lia|done].
  - rewrite <- (upd_same p c). eapply pop_inv; try done; rewrite ?Hp, ?Hk; [done|done|simpl; lia].
  - rewrite <- (upd_same n c), <- (upd_same p c). pose proof (inv_noff _ Hi c) as E. simpl in E.
    apply (inv_cpu (Sys m p g n)); [done|by rewrite Hp|by simpl; rewrite Hp|simpl; lia|simpl; lia].
Qed.

Lemma init_inv e : inv (Sys (Smp (fun _ => Spin 0 None) (fun c => Cpu 0 false (e c)))
                          (fun _ => Idle) (fun _ => []) (fun _ => O)).
Proof.
  split; simpl; try done.
  - intros l. left. split; [done|]. split; [|done]. intros c [?%not_elem_of_nil|[?|?]]; done.
  - intros c. apply NoDup_nil_2.
Qed.

Lemma reach_inv s : reach s -> inv s.
Proof. induction 1; [apply init_inv|by eapply step_inv]. Qed.
End SpinSmp.

(** C6: mutual exclusion.  In every reachable interleaving of [acquire],
    [release], [push_off], [pop_off] and interrupt changes on any number of
    CPUs, two CPUs never hold the same lock, a CPU that holds a lock has its
    interrupts off, and a CPU's [holding] answers exactly whether it holds the
    lock, so that [acquire] panics only on a lock the CPU holds already and
    [release] only on one it does not hold. *)
Theorem spinlock_mutual_exclusion s c l :
  SpinSmp.reach s -> SpinSmp.pcs s c = SpinSmp.Idle ->
  (l ∈ SpinSmp.gheld s c -> (forall c', l ∈ SpinSmp.gheld s c' -> c' = c) /\
     sie (cpus (SpinSmp.mach s) c) = false /\
     acquire_enter c l (SpinSmp.mach s) = Panic "acquire" /\
     exists m', release_enter c l (SpinSmp.mach s) = Ret tt m') /\
  (l ∉ SpinSmp.gheld s c -> release_enter c l (SpinSmp.mach s) = Panic "release" /\
     exists m', acquire_enter c l (SpinSmp.mach s) = Ret tt m').
Proof.
  intros Hr Hp. pose proof (SpinSmp.reach_inv s Hr) as Hi.
  pose proof (SpinSmp.holding_spec s c l Hi Hp) as Hh.
  assert (forall k, holding c l (set_cpu c k (SpinSmp.mach s)) =
            Ret (bool_decide (l ∈ SpinSmp.gheld s c)) (set_cpu c k (SpinSmp.mach s))) as Hh'.
  { intros k. unfold holding, gets in *. simpl. injection Hh as Hh. by rewrite Hh. }
  unfold acquire_enter, release_enter, bind. rewrite push_off_eq. cbn [bindr]. rewrite Hh, Hh'.
  split; intros Hl.
  - rewrite bool_decide_eq_true_2 by done. split_and!; [| |done|by eexists].
    + intros c' Hl'. destruct (SpinSmp.inv_lock _ Hi l) as [(_ & Hno & _)|(_ & c0 & _ & Hu & _)].
      * by destruct (Hno c); left.
      * by rewrite (Hu c (or_introl Hl)), (Hu c' (or_introl Hl')).
    + apply (SpinSmp.inv_sie _ Hi). rewrite (SpinSmp.inv_noff _ Hi c), Hp.
      destruct (SpinSmp.gheld s c); [by apply not_elem_of_nil in Hl|]. simpl. lia.
  - rewrite bool_decide_eq_false_2 by done. split; [done|by eexists].
Qed.

(** CPU 0 has acquired a lock. *)
Definition demo_lock : lockid := ("proc", 3).
Definition demo_held : SpinSmp.sys :=
  let m0 := Smp (fun _ => Spin 0 None) (fun c => Cpu 0 false true) in
  let m1 := set_cpu 0 (pushed (cpus m0 0)) m0 in
  let m2 := set_lk demo_lock (Spin 1 None) m1 in
  let p1 := upd (fun _ => SpinSmp.Idle) 0%nat (SpinSmp.Spinning demo_lock) in
  SpinSmp.Sys (set_lk demo_lock (Spin 1 (Some 0%nat)) m2)
    (upd (upd p1 0%nat (SpinSmp.Got demo_lock)) 0%nat SpinSmp.Idle)
    (upd (fun _ => []) 0%nat [demo_lock]) (fun _ => O).

Lemma demo_held_reach : SpinSmp.reach demo_held.
Proof.
  eapply SpinSmp.reach_step;
    [eapply SpinSmp.reach_step; [eapply SpinSmp.reach_step; [apply (SpinSmp.reach_init (fun _ => true))|]|]|].
  - eapply (SpinSmp.step_enter 0%nat demo_lock); [reflexivity|].
    unfold acquire_enter, bind. rewrite push_off_eq. reflexivity.
  - eapply (SpinSmp.step_got 0%nat demo_lock); reflexivity.
  - eapply (SpinSmp.step_set 0%nat demo_lock); reflexivity.
Qed.

Lemma spinlock_mutual_exclusion_witness :
  (forall c', demo_lock ∈ SpinSmp.gheld demo_held c' -> c' = 0%nat) /\
  sie (cpus (SpinSmp.mach demo_held) 0%nat) = false /\
  acquire_enter 0%nat demo_lock (SpinSmp.mach demo_held) = Panic "acquire" /\
  exists m', release_enter 0%nat demo_lock (SpinSmp.mach demo_held) = Ret tt m'.
Proof.
  apply (proj1 (spinlock_mutual_exclusion demo_held 0%nat demo_lock demo_held_reach eq_refl)). left.
Defined.

(** ** The interface one CPU sees *)

Inductive lock_op := OAcquire (l : lockid) | ORelease (l : lockid).

Fixpoint run_smp (c : nat) (os : list lock_op) : M smp unit :=
  match os with
  | [] => ret tt
  | OAcquire l :: os' => (acquire c l;; run_smp c os')%K
  | ORelease l :: os' => (release c l;; run_smp c os')%K
  end.

(** The interface on its smallest state, the list of held locks. *)
#[export] Instance held_locks : HasLocks (list lockid) :=
  {| held := fun h => h; set_held := fun h _ => h |}.

Fixpoint run_locks (os : list lock_op) : M (list lockid) unit :=
  match os with
  | [] => ret tt
  | OAcquire l :: os' => (Locks.acquire l;; run_locks os')%K
  | ORelease l :: os' => (Locks.release l;; run_locks os')%K
  end.

(** The machine where CPU [c] holds exactly the locks [h], no other CPU holds
    any, and [e] is the interrupt enable outside the critical sections. *)
Record sees (e : bool) (c : nat) (h : list lockid) (m : smp) : Prop := {
  sees_nodup : NoDup h;
  sees_lock l : lks m l = if decide (l ∈ h) then Spin 1 (Some c) else Spin 0 None;
  sees_cpu : nested e (Z.of_nat (length h)) (cpus m c);
}.

Lemma holding_sees e c h m l : sees e c h m -> holding c l m = Ret (bool_decide (l ∈ h)) m.
Proof.
  intros Hs. unfold holding, gets. rewrite (sees_lock _ _ _ _ Hs l). f_equal.
  case_decide; simpl; [by rewrite !bool_decide_eq_true_2|by rewrite !bool_decide_eq_false_2].
Qed.

Lemma acquire_free e c h m l :
  sees e c h m -> l ∉ h -> exists m', acquire c l m = Ret tt m' /\ sees e c (l :: h) m'.
Proof.
  intros Hs Hl. destruct Hs as [Hnd Hlk Hc].
  assert (sees e c h m) as Hs by done.
  unfold acquire, acquire_enter, bind. rewrite push_off_eq. cbn [bindr].
  set (m1 := set_cpu c (pushed (cpus m c)) m).
  assert (holding c l m1 = Ret false m1) as ->.
  { unfold holding, gets. simpl. rewrite Hlk, decide_False by done. done. }
  cbn [bindr ret].
  set (m2 := set_lk l (Spin 1 None) m1).
  assert (loop (spin l) tt m1 = Ret tt m2) as ->.
  { apply (loop_exit 1); [lia|]. rewrite iter_n_1. unfold spin, test_and_set, bind. simpl.
    rewrite Hlk, decide_False by done. done. }
  cbn [bindr]. eexists. split; [done|]. split.
  - by apply NoDup_cons.
  - intros l'. simpl. destruct (decide (l' = l)) as [->|E].
    + rewrite !upd_eq. simpl. rewrite decide_True by left. done.
    + rewrite !upd_ne, Hlk by done. apply decide_ext. set_solver.
  - assert (Z.of_nat (length (l :: h)) = Z.of_nat (length h) + 1) as -> by (cbn [length]; lia).
    simpl. rewrite upd_eq.
    by apply nested_push.
Qed.

Lemma release_held e c h m l :
  sees e c h m -> l ∈ h -> exists m', release c l m = Ret tt m' /\ sees e c (remove_lock l h) m'.
Proof.
  intros Hs Hl. pose proof (remove_lock_length l h Hl) as Hlen.
  unfold release, release_enter, bind. rewrite (holding_sees _ _ _ _ _ Hs).
  rewrite bool_decide_eq_true_2 by done. unfold set_owner, lock_release, modify. cbn [bindr].
  destruct Hs as [Hnd Hlk Hc].
  rewrite pop_off_eq; [|eapply nested_off; [|exact Hc]; lia|].
  2:{ simpl. destruct Hc as (_ & -> & _). lia. }
  eexists. split; [done|]. split.
  - by apply SpinSmp.remove_lock_nodup.
  - intros l'. simpl. destruct (decide (l' = l)) as [->|E].
    + rewrite !upd_eq. simpl. rewrite decide_False; [done|].
      by intros [_ ?]%SpinSmp.remove_lock_elem.
    + rewrite !upd_ne, Hlk by done. apply decide_ext. rewrite SpinSmp.remove_lock_elem by done. tauto.
  - simpl. rewrite upd_eq. replace (Z.of_nat (length (remove_lock l h))) with (Z.of_nat (length h) - 1) by lia.
    apply nested_pop; [lia|done].
Qed.

(** C27: spinlock.c implements the lock interface.  While no other CPU holds
    the locks a CPU uses, any sequence of [acquire] and [release] calls
    returns or panics exactly as the interface says, with the interface's list
    of held locks describing the lock words, the nesting count and the
    interrupt state. *)
Theorem spinlock_refines_locks e c os h m :
  sees e c h m ->
  match run_locks os h with
  | Ret _ h' => exists m', run_smp c os m = Ret tt m' /\ sees e c h' m'
  | Panic msg => run_smp c os m = Panic msg
  | _ => False
  end.
Proof.
  revert h m. induction os as [|[l|l] os IH]; intros h m Hs; simpl.
  - by exists m.
  - unfold Locks.acquire. simpl. case_decide as Hl; simpl.
    + unfold acquire, acquire_enter, bind. rewrite push_off_eq. cbn [bindr].
      pose proof (holding_sees _ _ _ _ l Hs) as Hh. rewrite bool_decide_eq_true_2 in Hh by done.
      unfold holding, gets in *. simpl. injection Hh as ->. done.
    + destruct (acquire_free e c h m l Hs Hl) as (m' & -> & Hs'). simpl. by apply IH.
  - unfold Locks.release. simpl. case_decide as Hl; simpl.
    + destruct (release_held e c h m l Hs Hl) as (m' & -> & Hs'). simpl. by apply IH.
    + unfold release, release_enter, bind. rewrite (holding_sees _ _ _ _ _ Hs).
      by rewrite bool_decide_eq_false_2.
Qed.

Lemma spinlock_refines_locks_witness :
  exists m', run_smp 2 [OAcquire demo_lock; OAcquire ("kmem", 0); ORelease demo_lock]
      (Smp (fun _ => Spin 0 None) (fun _ => Cpu 0 false true)) = Ret tt m' /\
    sees true 2 [("kmem", 0)] m'.
Proof.
  apply (spinlock_refines_locks true 2 [OAcquire demo_lock; OAcquire ("kmem", 0); ORelease demo_lock] []
    (Smp (fun _ => Spin 0 None) (fun _ => Cpu 0 false true))).
  split; [apply NoDup_nil_2| |by vm_compute].
  intros l. rewrite decide_False; [done|]. apply not_elem_of_nil.
Defined.
