(* ===== verification/Asm.v ===== *)
(** * The assembly of the kernel

    swtch.S, trampoline.S, kernelvec.S and entry.S, instruction by instruction,
    and the RISC-V instructions they use.  The code is straight-line: a run ends
    with the jump, the call or the return it reaches. *)

From S2P Require Import Prelude Riscv Mem.

Module Asm.

(** ** Instructions *)

Inductive reg :=
| zero | ra | sp | gp | tp | t0 | t1 | t2 | s0 | s1 | a0 | a1 | a2 | a3 | a4 | a5 | a6 | a7
| s2 | s3 | s4 | s5 | s6 | s7 | s8 | s9 | s10 | s11 | t3 | t4 | t5 | t6.
#[export] Instance reg_eq_dec : EqDecision reg.
Proof. solve_decision. Defined.

Inductive csr := mhartid | mscratch | sscratch | satp | sip.
#[export] Instance csr_eq_dec : EqDecision csr.
Proof. solve_decision. Defined.

Inductive instr :=
| sd (rs : reg) (off : Z) (base : reg)
| ld (rd : reg) (off : Z) (base : reg)
| li (rd : reg) (v : Z)
| la (rd : reg) (sym : string)
| addi (rd rs : reg) (v : Z)
| add (rd rs1 rs2 : reg)
| mul (rd rs1 rs2 : reg)
| csrr (rd : reg) (c : csr)
| csrw (c : csr) (rs : reg)
| csrrw (rd : reg) (c : csr) (rs : reg)
| sfence_vma
| call (sym : string)
| j (label : string)
| jr (rs : reg)
| sret
| mret.
(** [ret] is [jr ra]. *)

(** A hart: its registers and the memory it reaches; [translate] is on outside
    machine mode. *)
Record hart := MkHart {
  regs : reg -> Z;
  csrs : csr -> Z;
  ram : mem;
  translate : bool;
}.
Definition get (h : hart) (r : reg) : Z := if decide (r = zero) then 0 else regs h r.
Definition set (r : reg) (v : Z) (h : hart) : hart := MkHart (upd (regs h) r (u64 v)) (csrs h) (ram h) (translate h).
Definition set_csr (c : csr) (v : Z) (h : hart) : hart := MkHart (regs h) (upd (csrs h) c (u64 v)) (ram h) (translate h).
Definition set_ram (m : mem) (h : hart) : hart := MkHart (regs h) (csrs h) m (translate h).

(** How a run ends: in a call, with what follows it, a jump, or a return from a
    trap. *)
Inductive stop :=
| Call (sym : string) (rest : list instr)
| Jump (pc : Z)
| Sret
| Mret.

Section exec.
(** The addresses of symbols and labels, and of what follows a call; the
    translation of a virtual address by the page table [satp] names. *)
Context (addr link : string -> Z) (mmu : Z -> Z -> option Z).

Definition phys (h : hart) (va : Z) : option Z := if translate h then mmu (csrs h satp) va else Some va.

(** [None] is a page fault, or the end of the code. *)
Fixpoint exec (code : list instr) (h : hart) : option (stop * hart) :=
  match code with
  | [] => None
  | i :: rest =>
      match i with
      | sd rs off base =>
          match phys h (u64 (get h base + off)) with
          | Some pa => exec rest (set_ram (st64 (ram h) pa (get h rs)) h)
          | None => None
          end
      | ld rd off base =>
          match phys h (u64 (get h base + off)) with
          | Some pa => exec rest (set rd (ld64 (ram h) pa) h)
          | None => None
          end
      | li rd v => exec rest (set rd v h)
      | la rd sym => exec rest (set rd (addr sym) h)
      | addi rd rs v => exec rest (set rd (get h rs + v) h)
      | add rd rs1 rs2 => exec rest (set rd (get h rs1 + get h rs2) h)
      | mul rd rs1 rs2 => exec rest (set rd (get h rs1 * get h rs2) h)
      | csrr rd c => exec rest (set rd (csrs h c) h)
      | csrw c rs => exec rest (set_csr c (get h rs) h)
      | csrrw rd c rs => exec rest (set rd (csrs h c) (set_csr c (get h rs) h))
      | sfence_vma => exec rest h
      | call sym => Some (Call sym rest, set ra (link sym) h)
      | j label => Some (Jump (addr label), h)
      | jr rs => Some (Jump (get h rs), h)
      | sret => Some (Sret, h)
      | mret => Some (Mret, h)
      end
  end.
End exec.

(** swtch.S: swtch(old, new) *)
Definition swtch : list instr := [
  sd ra 0 a0; sd sp 8 a0; sd s0 16 a0; sd s1 24 a0; sd s2 32 a0; sd s3 40 a0; sd s4 48 a0; sd s5 56 a0;
  sd s6 64 a0; sd s7 72 a0; sd s8 80 a0; sd s9 88 a0; sd s10 96 a0; sd s11 104 a0; ld ra 0 a1; ld sp 8 a1;
  ld s0 16 a1; ld s1 24 a1; ld s2 32 a1; ld s3 40 a1; ld s4 48 a1; ld s5 56 a1; ld s6 64 a1; ld s7 72 a1;
  ld s8 80 a1; ld s9 88 a1; ld s10 96 a1; ld s11 104 a1; jr ra
].

(** trampoline.S: a trap from user mode *)
Definition uservec : list instr := [
  csrrw a0 sscratch a0; sd ra 40 a0; sd sp 48 a0; sd gp 56 a0; sd tp 64 a0; sd t0 72 a0; sd t1 80 a0;
  sd t2 88 a0; sd s0 96 a0; sd s1 104 a0; sd a1 120 a0; sd a2 128 a0; sd a3 136 a0; sd a4 144 a0; sd a5 152 a0;
  sd a6 160 a0; sd a7 168 a0; sd s2 176 a0; sd s3 184 a0; sd s4 192 a0; sd s5 200 a0; sd s6 208 a0;
  sd s7 216 a0; sd s8 224 a0; sd s9 232 a0; sd s10 240 a0; sd s11 248 a0; sd t3 256 a0; sd t4 264 a0;
  sd t5 272 a0; sd t6 280 a0; csrr t0 sscratch; sd t0 112 a0; ld sp 8 a0; ld tp 32 a0; ld t0 16 a0; ld t1 0 a0;
  csrw satp t1; sfence_vma; jr t0
].

(** trampoline.S: the way back to user mode *)
Definition userret : list instr := [
  csrw satp a1; sfence_vma; ld t0 112 a0; csrw sscratch t0; ld ra 40 a0; ld sp 48 a0; ld gp 56 a0; ld tp 64 a0;
  ld t0 72 a0; ld t1 80 a0; ld t2 88 a0; ld s0 96 a0; ld s1 104 a0; ld a1 120 a0; ld a2 128 a0; ld a3 136 a0;
  ld a4 144 a0; ld a5 152 a0; ld a6 160 a0; ld a7 168 a0; ld s2 176 a0; ld s3 184 a0; ld s4 192 a0;
  ld s5 200 a0; ld s6 208 a0; ld s7 216 a0; ld s8 224 a0; ld s9 232 a0; ld s10 240 a0; ld s11 248 a0;
  ld t3 256 a0; ld t4 264 a0; ld t5 272 a0; ld t6 280 a0; csrrw a0 sscratch a0; sret
].

(** kernelvec.S: a trap in the kernel *)
Definition kernelvec : list instr := [
  addi sp sp (-256); sd ra 0 sp; sd sp 8 sp; sd gp 16 sp; sd tp 24 sp; sd t0 32 sp; sd t1 40 sp; sd t2 48 sp;
  sd s0 56 sp; sd s1 64 sp; sd a0 72 sp; sd a1 80 sp; sd a2 88 sp; sd a3 96 sp; sd a4 104 sp; sd a5 112 sp;
  sd a6 120 sp; sd a7 128 sp; sd s2 136 sp; sd s3 144 sp; sd s4 152 sp; sd s5 160 sp; sd s6 168 sp;
  sd s7 176 sp; sd s8 184 sp; sd s9 192 sp; sd s10 200 sp; sd s11 208 sp; sd t3 216 sp; sd t4 224 sp;
  sd t5 232 sp; sd t6 240 sp; call "kerneltrap"; ld ra 0 sp; ld sp 8 sp; ld gp 16 sp; ld t0 32 sp; ld t1 40 sp;
  ld t2 48 sp; ld s0 56 sp; ld s1 64 sp; ld a0 72 sp; ld a1 80 sp; ld a2 88 sp; ld a3 96 sp; ld a4 104 sp;
  ld a5 112 sp; ld a6 120 sp; ld a7 128 sp; ld s2 136 sp; ld s3 144 sp; ld s4 152 sp; ld s5 160 sp;
  ld s6 168 sp; ld s7 176 sp; ld s8 184 sp; ld s9 192 sp; ld s10 200 sp; ld s11 208 sp; ld t3 216 sp;
  ld t4 224 sp; ld t5 232 sp; ld t6 240 sp; addi sp sp 256; sret
].

(** kernelvec.S: the timer interrupt, in machine mode *)
Definition timervec : list instr := [
  csrrw a0 mscratch a0; sd a1 0 a0; sd a2 8 a0; sd a3 16 a0; ld a1 24 a0; ld a2 32 a0; ld a3 0 a1;
  add a3 a3 a2; sd a3 0 a1; li a1 2; csrw sip a1; ld a3 16 a0; ld a2 8 a0; ld a1 0 a0; csrrw a0 mscratch a0;
  mret
].

(** entry.S: the first code of each hart *)
Definition entry : list instr := [
  la sp "stack0"; li a0 (1024 * 4); csrr a1 mhartid; addi a1 a1 1; mul a0 a0 a1; add sp sp a0; call "start";
  j "spin"
].

End Asm.
