(* ===== verification/AsmSpec.v ===== *)
(** * What the assembly guarantees

    Saving and restoring registers: [swtch] switches between threads, the
    trampoline and [kernelvec] are transparent to the code they interrupt, and
    each hart starts on a stack of its own. *)

From Stdlib Require Import FunctionalExtensionality.
From S2P Require Import Prelude Riscv Mem Asm.
Import Asm.

(** ** Well-formed harts *)

Definition word (v : Z) : Prop := 0 <= v < 2 ^ 64.
Definition hart_ok (h : hart) : Prop := (forall r, word (regs h r)) /\ forall c, word (csrs h c).

Lemma set_ok r v h : hart_ok h -> hart_ok (set r v h).
Proof. intros [Hr Hc]. split; [|done]. intros r'. cbn. unfold upd. case_decide; [apply u64_range|apply Hr]. Qed.

Lemma set_csr_ok c v h : hart_ok h -> hart_ok (set_csr c v h).
Proof. intros [Hr Hc]. split; [done|]. intros c'. cbn. unfold upd. case_decide; [apply u64_range|apply Hc]. Qed.

Lemma get_ok h r : hart_ok h -> word (get h r).
Proof. intros [Hr _]. unfold get. case_decide; [done|apply Hr]. Qed.

Lemma get_word h r : hart_ok h -> u64 (get h r) = get h r.
Proof. intros H. by apply u64_small, get_ok. Qed.

Lemma get_set h r v r' : r <> zero -> get (set r v h) r' = if decide (r' = r) then u64 v else get h r'.
Proof. intros Hr. unfold get. cbn. unfold upd. repeat case_decide; congruence. Qed.

Lemma get_set_ram m h r : get (set_ram m h) r = get h r.
Proof. done. Qed.

Lemma get_set_csr c v h r : get (set_csr c v h) r = get h r.
Proof. done. Qed.

(** The value of a register after a few known writes. *)
Ltac reg_at := repeat first [rewrite get_set_csr|rewrite get_set_ram|rewrite get_set by done]; repeat first [rewrite decide_True by done|rewrite decide_False by done].

Section spec.
Context (addr link : string -> Z) (mmu : Z -> Z -> option Z).
Local Abbreviation run := (exec addr link mmu).
Local Abbreviation phys := (phys mmu).

(** The [n] bytes at [va] are in memory, at [pa]. *)
Definition maps (h : hart) (va pa n : Z) : Prop :=
  0 <= va /\ va + n <= 2 ^ 64 /\ forall k, 0 <= k < n -> phys h (va + k) = Some (pa + k).

(** ** Saving and restoring

    A list of registers with the offsets of their places. *)

Definition saves (base : reg) (l : list (reg * Z)) : list instr := (fun ro => sd ro.1 ro.2 base) <$> l.
Definition loads (base : reg) (l : list (reg * Z)) : list instr := (fun ro => ld ro.1 ro.2 base) <$> l.
Definition store_all (h : hart) (pa : Z) (l : list (reg * Z)) (m : mem) : mem :=
  fold_left (fun m ro => st64 m (pa + ro.2) (get h ro.1)) l m.

(** Registers other than [zero], each once, in places of their own below [n]. *)
Definition layout (n : Z) (l : list (reg * Z)) : bool :=
  forallb (fun ro => negb (bool_decide (ro.1 = zero)) && (0 <=? ro.2) && (ro.2 + 8 <=? n) && (ro.2 mod 8 =? 0)) l &&
  bool_decide (NoDup l.*1) && bool_decide (NoDup l.*2).

Lemma layout_spec n l : layout n l = true ->
  (forall r o, (r, o) ∈ l -> r <> zero /\ 0 <= o /\ o + 8 <= n /\ o mod 8 = 0) /\ NoDup l.*1 /\ NoDup l.*2.
Proof.
  intros [[H H1%bool_decide_eq_true]%andb_true_iff H2%bool_decide_eq_true]%andb_true_iff. split; [|done].
  intros r o Hin. rewrite forallb_forall in H. specialize (H (r, o) (proj1 (list_elem_of_In _ _) Hin)). cbn in H.
  apply andb_true_iff in H as [[[Hz%negb_true_iff%bool_decide_eq_false H0]%andb_true_iff Hn]%andb_true_iff Hm].
  split; [done|]. lia.
Qed.

Lemma run_saves base l rest h pa n : maps h (get h base) pa n -> (forall r o, (r, o) ∈ l -> 0 <= o /\ o + 8 <= n) ->
  run (saves base l ++ rest) h = run rest (set_ram (store_all h pa l (ram h)) h).
Proof.
  intros (Hva & Hn & Hm) Hl. remember (ram h) as m eqn:Em. assert (h = set_ram m h) as Eh by (subst; by destruct h). rewrite Eh at 1. clear Em Eh.
  revert m. induction l as [|[r o] l IH]; intros m; [done|]. cbn [saves fmap list_fmap app exec fst snd].
  destruct (Hl r o ltac:(left)) as [Ho Ho8]. rewrite get_set_ram, u64_small by lia.
  replace (Asm.phys mmu (set_ram m h) (get h base + o)) with (Some (pa + o)) by (symmetry; apply Hm; lia).
  cbn [store_all fold_left fst snd]. apply IH. intros r' o' Hin. apply (Hl r'). by right.
Qed.

Lemma store_all_other h pa l m a : (forall r o, (r, o) ∈ l -> a + 8 <= pa + o \/ pa + o + 8 <= a) ->
  ld64 (store_all h pa l m) a = ld64 m a.
Proof.
  revert m; induction l as [|[r o] l IH]; intros m H; [done|]. cbn [store_all fold_left fst snd]. unfold store_all in IH.
  rewrite IH by (intros r' o' Hin; apply (H r'); by right). apply ld64_st64_ne. specialize (H r o ltac:(left)). lia.
Qed.

Lemma store_all_byte h pa l m a : (forall r o, (r, o) ∈ l -> a < pa + o \/ pa + o + 8 <= a) ->
  ld8 (store_all h pa l m) a = ld8 m a.
Proof.
  revert m; induction l as [|[r o] l IH]; intros m H; [done|]. cbn [store_all fold_left fst snd]. unfold store_all in IH.
  rewrite IH by (intros r' o' Hin; apply (H r'); by right). apply ld8_st64_ne. specialize (H r o ltac:(left)). lia.
Qed.

Lemma store_all_at h pa l m n r o : hart_ok h -> layout n l = true -> (r, o) ∈ l -> ld64 (store_all h pa l m) (pa + o) = get h r.
Proof.
  intros Hok (Hl & _ & Hnd)%layout_spec. revert m. induction l as [|[r' o'] l IH]; intros m Hin; [by apply elem_of_nil in Hin|].
  cbn [fmap list_fmap snd] in Hnd. apply NoDup_cons in Hnd as [Hno Hnd]. cbn [store_all fold_left fst snd].
  apply elem_of_cons in Hin as [[= <- <-]|Hin].
  - change (fold_left _ l ?m0) with (store_all h pa l m0). rewrite store_all_other; [rewrite ld64_st64_eq; by apply get_word|].
    intros r' o' Hin. destruct (Hl r o ltac:(left)) as (_ & _ & _ & H1). destruct (Hl r' o' ltac:(by right)) as (_ & _ & _ & H2).
    assert (o <> o') as Hne by (intros ->; apply Hno; apply list_elem_of_fmap; by exists (r', o')).
    pose proof (Z_div_mod_eq_full o 8). pose proof (Z_div_mod_eq_full o' 8). lia.
  - apply IH; [|done|done]. intros r1 o1 H1. apply (Hl r1 o1). by right.
Qed.

Definition restore (m : mem) (pa : Z) (l : list (reg * Z)) (h : hart) : hart :=
  fold_left (fun h ro => set ro.1 (ld64 m (pa + ro.2)) h) l h.

Lemma restore_rest m pa l h : csrs (restore m pa l h) = csrs h /\ ram (restore m pa l h) = ram h /\ translate (restore m pa l h) = translate h.
Proof. revert h; induction l as [|[r o] l IH]; intros h; [done|]. exact (IH (set r (ld64 m (pa + o)) h)). Qed.

Lemma restore_ok m pa l h : hart_ok h -> hart_ok (restore m pa l h).
Proof. revert h; induction l as [|[r o] l IH]; intros h H; [done|]. apply IH. by apply set_ok. Qed.

Lemma restore_other m pa l h r : (forall r' o, (r', o) ∈ l -> r' <> zero) -> (r ∉ l.*1) -> get (restore m pa l h) r = get h r.
Proof.
  revert h; induction l as [|[r' o] l IH]; intros h Hz Hr; [done|]. cbn [restore fold_left fst snd fmap list_fmap] in *.
  apply not_elem_of_cons in Hr as [Hne Hr]. unfold restore in IH. rewrite IH by (done || intros r1 o1 H1; apply (Hz r1 o1); by right).
  rewrite get_set by (apply (Hz r' o); left). by rewrite decide_False.
Qed.

Lemma restore_at m pa l h n r o : layout n l = true -> (r, o) ∈ l -> get (restore m pa l h) r = ld64 m (pa + o).
Proof.
  intros (Hl & Hnd & _)%layout_spec. revert h. induction l as [|[r' o'] l IH]; intros h Hin; [by apply elem_of_nil in Hin|].
  cbn [fmap list_fmap fst] in Hnd. apply NoDup_cons in Hnd as [Hno Hnd]. cbn [restore fold_left fst snd].
  apply elem_of_cons in Hin as [[= <- <-]|Hin].
  - change (fold_left _ l ?h0) with (restore m pa l h0). rewrite restore_other; [|intros r1 o1 H1; apply (Hl r1 o1); by right|done].
    rewrite get_set, decide_True by (done || apply (Hl r o); left). apply u64_small, ld64_range.
  - apply IH; [|done|done]. intros r1 o1 H1. apply (Hl r1 o1). by right.
Qed.

(** The base register may be loaded with its own value. *)
Lemma run_loads base l rest h pa n : base <> zero -> hart_ok h -> maps h (get h base) pa n ->
  (forall r o, (r, o) ∈ l -> r <> zero /\ 0 <= o /\ o + 8 <= n) -> (forall o, (base, o) ∈ l -> ld64 (ram h) (pa + o) = get h base) ->
  run (loads base l ++ rest) h = run rest (restore (ram h) pa l h).
Proof.
  intros Hb. revert h. induction l as [|[r o] l IH]; intros h Hok Hm Hl Hbase; [done|]. cbn [loads fmap list_fmap app exec fst snd].
  destruct (Hl r o ltac:(left)) as (Hr & Ho & Ho8). pose proof Hm as (Hva & Hn & Hph). rewrite u64_small by lia.
  rewrite Hph by lia. cbn [restore fold_left fst snd]. set (h1 := set r (ld64 (ram h) (pa + o)) h).
  assert (get h1 base = get h base) as Eb.
  { unfold h1. rewrite get_set by done. case_decide as E; [|done]. subst r. rewrite u64_small by apply ld64_range. apply Hbase. left. }
  change (ram h) with (ram h1). apply IH; [by apply set_ok|by rewrite Eb|..].
  - intros r' o' Hin. apply Hl. by right.
  - intros o' Hin. rewrite Eb. apply Hbase. by right.
Qed.

(** ** swtch *)

(** struct context *)
Definition ctx : list (reg * Z) :=
  [(ra, 0); (sp, 8); (s0, 16); (s1, 24); (s2, 32); (s3, 40); (s4, 48); (s5, 56); (s6, 64); (s7, 72); (s8, 80); (s9, 88); (s10, 96); (s11, 104)].

Lemma ctx_layout : layout 112 ctx = true.
Proof. by vm_compute. Qed.

Record switched (h : hart) (pold pnew : Z) (h' : hart) : Prop := {
  sw_saved r o : (r, o) ∈ ctx -> ld64 (ram h') (pold + o) = get h r;
  sw_loaded r o : (r, o) ∈ ctx -> get h' r = ld64 (ram h) (pnew + o);
  sw_others r : (r ∉ ctx.*1) -> get h' r = get h r;
  sw_ram a : a < pold \/ pold + 112 <= a -> ld8 (ram h') a = ld8 (ram h) a;
  sw_csrs : csrs h' = csrs h;
  sw_ok : hart_ok h';
}.

Lemma swtch_spec h pold pnew : hart_ok h -> maps h (get h a0) pold 112 -> maps h (get h a1) pnew 112 ->
  pold + 112 <= pnew \/ pnew + 112 <= pold ->
  exists h', run swtch h = Some (Jump (ld64 (ram h) pnew), h') /\ switched h pold pnew h'.
Proof.
  intros Hok Ho Hn Hd. assert (swtch = (saves a0 ctx ++ loads a1 ctx ++ [jr ra])) as -> by reflexivity.
  destruct (layout_spec 112 ctx ctx_layout) as (Hl & _ & _). assert (forall r o, (r, o) ∈ ctx -> r <> zero /\ 0 <= o /\ o + 8 <= 112) as Hl'.
  { intros r o Hin. destruct (Hl r o Hin) as (? & ? & ? & _). done. }
  rewrite (run_saves a0 ctx _ h pold 112 Ho) by (intros r o Hin; by apply (Hl' r)).
  set (m := store_all h pold ctx (ram h)). set (h1 := set_ram m h).
  rewrite (run_loads a1 ctx _ h1 pnew 112) by (done || (intros o Hin; by vm_compute in Hin; set_solver)).
  change (ram h1) with m. set (h2 := restore m pnew ctx h1). destruct (restore_rest m pnew ctx h1) as (Ec & Er & Et). fold h2 in Ec, Er, Et.
  assert (forall r o, (r, o) ∈ ctx -> get h2 r = ld64 (ram h) (pnew + o)) as Hld.
  { intros r o Hin. unfold h2. rewrite (restore_at m pnew ctx h1 112 r o ctx_layout Hin). apply store_all_other.
    intros r' o' Hin'. pose proof (Hl' r o Hin). pose proof (Hl' r' o' Hin'). lia. }
  exists h2. split.
  - cbn [exec]. rewrite (Hld ra 0) by left. by rewrite Z.add_0_r.
  - split.
    + intros r o Hin. rewrite Er. by apply (store_all_at h pold ctx (ram h) 112).
    + exact Hld.
    + intros r Hr. unfold h2. rewrite restore_other; [done|intros r' o Hin; by apply (Hl' r' o)|done].
    + intros a Ha. rewrite Er. apply store_all_byte. intros r o Hin. pose proof (Hl' r o Hin). lia.
    + exact Ec.
    + by apply restore_ok.
Qed.

(** ** Single loads and stores *)

Lemma maps_ext h h' va pa n : csrs h' satp = csrs h satp -> translate h' = translate h -> maps h va pa n -> maps h' va pa n.
Proof. intros Ec Et (H1 & H2 & H3). split; [done|]. split; [done|]. intros k Hk. rewrite <- (H3 k Hk). unfold Asm.phys. by rewrite Ec, Et. Qed.

Lemma run_ld rd off base rest h pa n : maps h (get h base) pa n -> 0 <= off -> off + 8 <= n ->
  run (ld rd off base :: rest) h = run rest (set rd (ld64 (ram h) (pa + off)) h).
Proof. intros (H1 & H2 & H3) Ho Hn. cbn [exec]. by rewrite u64_small, H3 by lia. Qed.

Lemma run_sd rs off base rest h pa n : maps h (get h base) pa n -> 0 <= off -> off + 8 <= n ->
  run (sd rs off base :: rest) h = run rest (set_ram (st64 (ram h) (pa + off) (get h rs)) h).
Proof. intros (H1 & H2 & H3) Ho Hn. cbn [exec]. by rewrite u64_small, H3 by lia. Qed.

(** Instructions that only change registers. *)
Lemma run_li rd v rest h : run (li rd v :: rest) h = run rest (set rd v h).
Proof. done. Qed.
Lemma run_addi rd rs v rest h : run (addi rd rs v :: rest) h = run rest (set rd (get h rs + v) h).
Proof. done. Qed.
Lemma run_add rd rs rs' rest h : run (add rd rs rs' :: rest) h = run rest (set rd (get h rs + get h rs') h).
Proof. done. Qed.
Lemma run_csrr rd c rest h : run (csrr rd c :: rest) h = run rest (set rd (csrs h c) h).
Proof. done. Qed.
Lemma run_csrw c rs rest h : run (csrw c rs :: rest) h = run rest (set_csr c (get h rs) h).
Proof. done. Qed.
Lemma run_csrrw rd c rs rest h : run (csrrw rd c rs :: rest) h = run rest (set rd (csrs h c) (set_csr c (get h rs) h)).
Proof. done. Qed.

Lemma run_sfence rest h : run (sfence_vma :: rest) h = run rest h.
Proof. done. Qed.

(** ** The trampoline *)

(** The user's registers in struct trapframe, but for a0. *)
Definition uctx : list (reg * Z) :=
  [(ra, 40); (sp, 48); (gp, 56); (tp, 64); (t0, 72); (t1, 80); (t2, 88); (s0, 96); (s1, 104); (a1, 120); (a2, 128); (a3, 136);
   (a4, 144); (a5, 152); (a6, 160); (a7, 168); (s2, 176); (s3, 184); (s4, 192); (s5, 200); (s6, 208); (s7, 216); (s8, 224);
   (s9, 232); (s10, 240); (s11, 248); (t3, 256); (t4, 264); (t5, 272); (t6, 280)].
Definition uregs : list (reg * Z) := (a0, 112) :: uctx.

Lemma uregs_layout : layout 288 uregs = true.
Proof. by vm_compute. Qed.
Lemma uctx_layout : layout 288 uctx = true.
Proof. by vm_compute. Qed.

Lemma uregs_all r : r <> zero -> exists o, (r, o) ∈ uregs.
Proof. intros Hr. destruct r; try done; eexists; unfold uregs, uctx; repeat first [by left|right]. Qed.

Lemma uctx_range r o : (r, o) ∈ uctx -> r <> zero /\ r <> a0 /\ 40 <= o /\ o + 8 <= 288 /\ (o + 8 <= 112 \/ 120 <= o).
Proof.
  assert (forallb (fun ro => negb (bool_decide (ro.1 = zero)) && negb (bool_decide (ro.1 = a0)) && (40 <=? ro.2) && (ro.2 + 8 <=? 288) &&
    ((ro.2 + 8 <=? 112) || (120 <=? ro.2))) uctx = true) as H by by vm_compute.
  intros Hin. rewrite forallb_forall in H. specialize (H (r, o) (proj1 (list_elem_of_In _ _) Hin)). cbn in H.
  repeat (apply andb_true_iff in H as [H ?]). apply negb_true_iff, bool_decide_eq_false in H.
  match goal with H' : negb _ = true |- _ => apply negb_true_iff, bool_decide_eq_false in H' end. split; [done|]. split; [done|]. lia.
Qed.

(** What [uservec] leaves. *)
Record entered (h : hart) (tf : Z) (h' : hart) : Prop := {
  en_saved r o : (r, o) ∈ uregs -> ld64 (ram h') (tf + o) = get h r;
  en_sp : get h' sp = ld64 (ram h) (tf + 8);
  en_tp : get h' tp = ld64 (ram h) (tf + 32);
  en_satp : csrs h' satp = ld64 (ram h) tf;
  en_ram a : a < tf + 40 \/ tf + 288 <= a -> ld8 (ram h') a = ld8 (ram h) a;
  en_ok : hart_ok h';
}.

Lemma uservec_spec h tf : hart_ok h -> maps h (csrs h sscratch) tf 288 ->
  exists h', run uservec h = Some (Jump (ld64 (ram h) (tf + 16)), h') /\ entered h tf h'.
Proof.
  intros Hok Hm. set (h1 := set a0 (csrs h sscratch) (set_csr sscratch (get h a0) h)).
  assert (uservec = (csrrw a0 sscratch a0 :: saves a0 uctx ++ [csrr t0 sscratch; sd t0 112 a0; ld sp 8 a0; ld tp 32 a0; ld t0 16 a0;
    ld t1 0 a0; csrw satp t1; sfence_vma; jr t0])) as -> by reflexivity. rewrite run_csrrw. fold h1.
  assert (hart_ok h1) as Hok1 by by apply set_ok, set_csr_ok.
  assert (get h1 a0 = csrs h sscratch) as Ea by (unfold h1; rewrite get_set, decide_True by done; apply u64_small, Hok).
  assert (maps h1 (get h1 a0) tf 288) as Hm1 by (rewrite Ea; by apply (maps_ext h)).
  rewrite (run_saves a0 uctx _ h1 tf 288 Hm1) by (intros r o Hin; pose proof (uctx_range r o Hin); lia).
  set (m := store_all h1 tf uctx (ram h1)). set (h2 := set t0 (csrs h1 sscratch) (set_ram m h1)).
  assert (get h2 a0 = get h1 a0) as Ea2 by (unfold h2; by rewrite get_set, decide_False by done).
  assert (csrs h1 sscratch = get h a0) as Ec.
  { change (csrs h1 sscratch) with (upd (csrs h) sscratch (u64 (get h a0)) sscratch). rewrite upd_eq. by apply get_word. }
  assert (get h2 t0 = get h a0) as Et by (unfold h2; rewrite get_set, decide_True, Ec by done; by apply get_word).
  rewrite run_csrr. fold h2.
  rewrite (run_sd _ _ _ _ h2 tf 288) by (lia || (rewrite Ea2; by apply (maps_ext h1))). rewrite Et.
  set (m' := st64 (ram h2) (tf + 112) (get h a0)). set (h3 := set_ram m' h2).
  assert (forall o, 0 <= o -> o + 8 <= 40 -> ld64 m' (tf + o) = ld64 (ram h) (tf + o)) as Hk.
  { intros o Ho Ho8. unfold m'. rewrite ld64_st64_ne by lia. apply (store_all_other h1). intros r o' Hin. pose proof (uctx_range r o' Hin). lia. }
  do 4 (erewrite run_ld by ((rewrite ?get_set, ?decide_False by done; unfold h3; rewrite get_set_ram, Ea2; by apply (maps_ext h1)) || lia)).
  cbn [ram set set_csr set_ram h3]. rewrite !Hk by lia. rewrite Z.add_0_r in *.
  set (h4 := set t1 _ _). rewrite run_csrw. cbn [exec].
  assert (forall o, u64 (ld64 (ram h) o) = ld64 (ram h) o) as Hw by (intros o; apply u64_small, ld64_range).
  exists (set_csr satp (get h4 t1) h4). split; [|split].
  - rewrite get_set_csr. do 3 f_equal. unfold h4. reg_at. apply Hw.
  - intros r o Hin. change (ld64 m' (tf + o) = get h r). unfold m'. apply elem_of_cons in Hin as [[= -> ->]|Hin].
    + rewrite ld64_st64_eq. by apply get_word.
    + pose proof (uctx_range r o Hin) as (_ & Hr & _). rewrite ld64_st64_ne by (pose proof (uctx_range r o Hin); lia).
      etransitivity; [exact (store_all_at h1 tf uctx (ram h1) 288 r o Hok1 uctx_layout Hin)|]. unfold h1. by reg_at.
  - unfold h4. reg_at. apply Hw.
  - unfold h4. reg_at. apply Hw.
  - change (upd (csrs h4) satp (u64 (get h4 t1)) satp = ld64 (ram h) tf). rewrite upd_eq. unfold h4. reg_at. by rewrite !Hw.
  - intros a Ha. change (ld8 m' a = ld8 (ram h) a). unfold m'. rewrite ld8_st64_ne by lia. apply (store_all_byte h1).
    intros r o Hin. pose proof (uctx_range r o Hin). lia.
  - repeat first [apply set_csr_ok|apply set_ok]. exact Hok.
Qed.

Lemma userret_spec h tf : hart_ok h -> maps (set_csr satp (get h a1) h) (get h a0) tf 288 ->
  exists h', run userret h = Some (Sret, h') /\ (forall r o, (r, o) ∈ uregs -> get h' r = ld64 (ram h) (tf + o)) /\
    csrs h' sscratch = get h a0 /\ csrs h' satp = get h a1 /\ ram h' = ram h.
Proof.
  intros Hok Hm. assert (userret = (csrw satp a1 :: sfence_vma :: ld t0 112 a0 :: csrw sscratch t0 :: loads a0 uctx ++ [csrrw a0 sscratch a0; sret])) as -> by reflexivity.
  set (h1 := set_csr satp (get h a1) h) in *. rewrite run_csrw. fold h1.
  rewrite run_sfence, (run_ld t0 112 a0 _ h1 tf 288 Hm), run_csrw by lia. change (ram h1) with (ram h). set (h2 := set t0 (ld64 (ram h) (tf + 112)) h1). set (h3 := set_csr sscratch (get h2 t0) h2).
  assert (hart_ok h2) as Hok2 by by apply set_ok, set_csr_ok. assert (hart_ok h3) as Hok3 by by apply set_csr_ok.
  assert (get h3 a0 = get h a0) as Ea by (unfold h3, h2; by reg_at).
  assert (get h2 t0 = ld64 (ram h) (tf + 112)) as Et by (unfold h2; reg_at; apply u64_small, ld64_range).
  rewrite (run_loads a0 uctx _ h3 tf 288); [|done|done|rewrite Ea; by apply (maps_ext h1)| |].
  2:{ intros r o Hin. pose proof (uctx_range r o Hin) as (Hz & _ & H1 & H2 & _). split; [done|lia]. }
  2:{ intros o Hin. by pose proof (uctx_range a0 o Hin) as (_ & ? & _). }
  change (ram h3) with (ram h). set (h4 := restore (ram h) tf uctx h3). destruct (restore_rest (ram h) tf uctx h3) as (Ec & Er & _). fold h4 in Ec, Er.
  assert (get h4 a0 = get h a0) as Ea4.
  { unfold h4. rewrite restore_other; [done|intros r o Hin; by apply (uctx_range r o)|by apply (bool_decide_unpack _); vm_compute]. }
  assert (csrs h4 sscratch = ld64 (ram h) (tf + 112)) as Es.
  { rewrite Ec. change (csrs h3 sscratch) with (upd (csrs h2) sscratch (u64 (get h2 t0)) sscratch). rewrite upd_eq, Et. apply u64_small, ld64_range. }
  rewrite run_csrrw. cbn [exec]. eexists. split; [reflexivity|]. split; [|split; [|split]].
  - intros r o Hin. rewrite get_set by done. apply elem_of_cons in Hin as [[= -> ->]|Hin].
    + rewrite decide_True, Es by done. apply u64_small, ld64_range.
    + rewrite decide_False by (by apply (uctx_range r o)). rewrite get_set_csr. exact (restore_at (ram h) tf uctx h3 288 r o uctx_layout Hin).
  - change (upd (csrs h4) sscratch (u64 (get h4 a0)) sscratch = get h a0). rewrite upd_eq, Ea4. by apply get_word.
  - change (upd (csrs h4) sscratch (u64 (get h4 a0)) satp = get h a1). rewrite upd_ne by done. rewrite Ec.
    change (csrs h3 satp) with (upd (csrs h) satp (u64 (get h a1)) satp). rewrite upd_eq. by apply get_word.
  - exact Er.
Qed.

(** ** kernelvec *)

(** The frame on the kernel stack, and what is loaded from it. *)
Definition kctx : list (reg * Z) :=
  [(ra, 0); (sp, 8); (gp, 16); (tp, 24); (t0, 32); (t1, 40); (t2, 48); (s0, 56); (s1, 64); (a0, 72); (a1, 80); (a2, 88); (a3, 96);
   (a4, 104); (a5, 112); (a6, 120); (a7, 128); (s2, 136); (s3, 144); (s4, 152); (s5, 160); (s6, 168); (s7, 176); (s8, 184);
   (s9, 192); (s10, 200); (s11, 208); (t3, 216); (t4, 224); (t5, 232); (t6, 240)].
Definition kctx' : list (reg * Z) := filter (fun ro => ro.1 <> tp) kctx.

Lemma kctx_layout : layout 256 kctx = true /\ layout 256 kctx' = true.
Proof. by vm_compute. Qed.

Lemma kctx_all r : r <> zero -> exists o, (r, o) ∈ kctx.
Proof. intros Hr. destruct r; try done; eexists; unfold kctx; repeat first [by left|right]. Qed.

Definition kernelvec_rest : list instr := loads sp kctx' ++ [addi sp sp 256; sret].

Lemma kernelvec_saves h pa : hart_ok h -> maps h (u64 (get h sp - 256)) pa 256 ->
  exists h1, run kernelvec h = Some (Call "kerneltrap" kernelvec_rest, h1) /\ hart_ok h1 /\ get h1 sp = u64 (get h sp - 256) /\
    csrs h1 = csrs h /\ (forall r o, (r, o) ∈ kctx -> ld64 (ram h1) (pa + o) = if decide (r = sp) then u64 (get h sp - 256) else get h r) /\
    (forall a, a < pa \/ pa + 256 <= a -> ld8 (ram h1) a = ld8 (ram h) a).
Proof.
  intros Hok Hm. destruct (layout_spec 256 kctx (proj1 kctx_layout)) as (Hl & _ & _).
  assert (kernelvec = (addi sp sp (-256) :: saves sp kctx ++ call "kerneltrap" :: kernelvec_rest)) as -> by reflexivity. rewrite run_addi.
  set (h1 := set sp (get h sp + -256) h). assert (get h1 sp = u64 (get h sp - 256)) as Es by (unfold h1; by reg_at).
  assert (hart_ok h1) as Hok1 by by apply set_ok.
  rewrite (run_saves sp kctx _ h1 pa 256); [|rewrite Es; by apply (maps_ext h)|intros r o Hin; destruct (Hl r o Hin) as (_ & ? & ? & _); lia].
  cbn [exec]. eexists. split; [reflexivity|]. split; [by apply set_ok|]. split; [by reg_at|]. split; [done|]. split.
  - intros r o Hin. change (ram (set ra _ (set_ram ?m h1))) with m. rewrite (store_all_at h1 pa kctx (ram h1) 256 r o Hok1 (proj1 kctx_layout) Hin).
    unfold h1. rewrite get_set by done. by case_decide.
  - intros a Ha. change (ram (set ra _ (set_ram ?m h1))) with m. apply store_all_byte. intros r o Hin. destruct (Hl r o Hin) as (_ & ? & ? & _). lia.
Qed.

Lemma kernelvec_restores h pa v : hart_ok h -> maps h (get h sp) pa 256 -> word v -> get h sp = u64 (v - 256) -> ld64 (ram h) (pa + 8) = get h sp ->
  exists h', run kernelvec_rest h = Some (Sret, h') /\ (forall r o, (r, o) ∈ kctx -> r <> tp -> get h' r = if decide (r = sp) then v else ld64 (ram h) (pa + o)) /\
    get h' tp = get h tp /\ ram h' = ram h /\ csrs h' = csrs h.
Proof.
  intros Hok Hm Hv Hsp H8. destruct (layout_spec 256 kctx' (proj2 kctx_layout)) as (Hl & _ & _). unfold kernelvec_rest.
  rewrite (run_loads sp kctx' _ h pa 256); [|done|done|done|intros r o Hin; destruct (Hl r o Hin) as (? & ? & ? & _); split; [done|lia]|].
  2:{ intros o Hin. assert (o = 8) as ->; [|done]. apply list_elem_of_filter in Hin as [_ Hin]. unfold kctx in Hin.
      repeat (apply elem_of_cons in Hin as [[=]|Hin]; try done). by apply elem_of_nil in Hin. }
  set (h1 := restore (ram h) pa kctx' h). destruct (restore_rest (ram h) pa kctx' h) as (Ec & Er & _). fold h1 in Ec, Er.
  assert (forall r o, (r, o) ∈ kctx -> r <> tp -> get h1 r = ld64 (ram h) (pa + o)) as Hld.
  { intros r o Hin Hr. apply (restore_at (ram h) pa kctx' h 256 r o (proj2 kctx_layout)). by apply list_elem_of_filter. }
  rewrite run_addi. cbn [exec]. eexists. split; [reflexivity|]. split; [|split; [|done]].
  - intros r o Hin Hr. rewrite get_set by done. case_decide as E; [|by apply Hld].
    rewrite (Hld sp 8), H8, Hsp; [|right; left|done]. unfold u64. rewrite Zplus_mod_idemp_l, Z.sub_add. by apply Z.mod_small.
  - reg_at. apply restore_other; [intros r o Hin; by apply (Hl r o)|by apply (bool_decide_unpack _); vm_compute].
Qed.

(** ** timervec *)

Definition tctx : list (reg * Z) := [(a1, 0); (a2, 8); (a3, 16)].

Lemma tctx_range r o : (r, o) ∈ tctx -> r <> zero /\ r <> a0 /\ 0 <= o /\ o + 8 <= 24.
Proof. intros [[= -> ->]|[[= -> ->]|[[= -> ->]|[]%elem_of_nil]%elem_of_cons]%elem_of_cons]%elem_of_cons; done. Qed.

Lemma tctx_layout : layout 24 tctx = true /\ layout 24 (rev tctx) = true.
Proof. by vm_compute. Qed.

Lemma tctx_rev r : r ∈ tctx.*1 -> r ∈ (rev tctx).*1.
Proof. intros ([r' o] & -> & Hin)%list_elem_of_fmap. apply list_elem_of_fmap. exists (r', o). split; [done|]. by apply elem_of_reverse. Qed.

(** In machine mode addresses are physical. *)
Lemma maps_machine h va n : translate h = false -> 0 <= va -> va + n <= 2 ^ 64 -> maps h va va n.
Proof. intros Ht H0 Hn. split; [done|]. split; [done|]. intros k Hk. unfold Asm.phys. by rewrite Ht. Qed.

(** The next timer interrupt, and the software interrupt for the kernel. *)
Definition tick : list instr := [ld a1 24 a0; ld a2 32 a0; ld a3 0 a1; add a3 a3 a2; sd a3 0 a1; li a1 2; csrw sip a1].

Lemma run_tick h rest sc tc iv t : get h a0 = sc -> ld64 (ram h) (sc + 24) = tc -> ld64 (ram h) (sc + 32) = iv -> ld64 (ram h) tc = t ->
  hart_ok h -> translate h = false -> sc + 40 <= 2 ^ 64 -> tc + 8 <= 2 ^ 64 ->
  exists h', run (tick ++ rest) h = run rest h' /\ hart_ok h' /\ translate h' = false /\ (forall r, (r ∉ tctx.*1) -> get h' r = get h r) /\
    csrs h' = upd (csrs h) sip 2 /\ ram h' = st64 (ram h) tc (u64 (t + iv)).
Proof.
  intros Esc Etc Eiv E Hok Ht Hsc Htc. pose proof (get_ok h a0 Hok) as Hscw. pose proof (ld64_range (ram h) (sc + 24)) as Htcw.
  rewrite Esc in Hscw. rewrite Etc in Htcw. unfold word in Hscw.
  cbn [tick app]. rewrite (run_ld a1 24 a0 _ h sc 40) by (rewrite ?Esc; first [lia|by apply maps_machine; [exact Ht|lia..]]). rewrite Etc. set (h3 := set a1 tc h).
  rewrite (run_ld a2 32 a0 _ h3 sc 40) by (unfold h3; reg_at; rewrite ?Esc; first [lia|by apply maps_machine; [exact Ht|lia..]]).
  change (ram h3) with (ram h). rewrite Eiv. set (h4 := set a2 iv h3).
  assert (get h4 a1 = tc) as E4 by (unfold h4, h3; reg_at; apply u64_small; lia).
  rewrite (run_ld a3 0 a1 _ h4 tc 8) by (rewrite ?E4; first [lia|by apply maps_machine; [exact Ht|lia..]]).
  change (ram h4) with (ram h). rewrite Z.add_0_r, E. set (h5 := set a3 t h4). rewrite run_add.
  assert (get h5 a3 + get h5 a2 = t + iv) as E5 by (unfold h5, h4; reg_at; rewrite <- E, <- Eiv; by rewrite !u64_small by apply ld64_range).
  rewrite E5. set (h6 := set a3 _ h5). assert (get h6 a1 = tc) as E6 by (unfold h6, h5; reg_at; exact E4).
  assert (get h6 a3 = u64 (t + iv)) as E63 by (unfold h6; by reg_at).
  rewrite (run_sd a3 0 a1 _ h6 tc 8) by (rewrite ?E6; first [lia|by apply maps_machine; [exact Ht|lia..]]). rewrite Z.add_0_r, E63.
  change (ram h6) with (ram h). rewrite run_li, run_csrw. set (h8 := set a1 2 _). assert (get h8 a1 = 2) as E8 by (unfold h8; by reg_at). rewrite E8.
  eexists. split; [reflexivity|]. split; [repeat first [apply set_csr_ok|apply set_ok]; exact Hok|]. split; [exact Ht|]. split; [|done].
  intros r Hr. assert (r <> a1 /\ r <> a2 /\ r <> a3) as (N1 & N2 & N3) by (split_and!; intros ->; apply Hr; by apply (bool_decide_unpack _); vm_compute).
  unfold h8, h6, h5, h4, h3. reg_at. by rewrite ?decide_False by done.
Qed.

Lemma timervec_spec h : let sc := csrs h mscratch in let tc := ld64 (ram h) (sc + 24) in
  hart_ok h -> translate h = false -> sc + 40 <= 2 ^ 64 -> tc + 8 <= 2 ^ 64 -> tc + 8 <= sc \/ sc + 40 <= tc ->
  exists h', run timervec h = Some (Mret, h') /\ (forall r, get h' r = get h r) /\ csrs h' = upd (csrs h) sip 2 /\
    ld64 (ram h') tc = u64 (ld64 (ram h) tc + ld64 (ram h) (sc + 32)) /\
    forall a, (a < sc \/ sc + 24 <= a) -> (a < tc \/ tc + 8 <= a) -> ld8 (ram h') a = ld8 (ram h) a.
Proof.
  intros sc tc Hok Ht Hsc Htc Hd. pose proof (proj2 Hok mscratch : word sc) as Hscw. unfold word in Hscw.
  assert (timervec = (csrrw a0 mscratch a0 :: saves a0 tctx ++ tick ++ loads a0 (rev tctx) ++ [csrrw a0 mscratch a0; mret])) as -> by reflexivity. rewrite run_csrrw. fold sc.
  set (h1 := set a0 sc (set_csr mscratch (get h a0) h)). assert (hart_ok h1) as Hok1 by by apply set_ok, set_csr_ok.
  assert (get h1 a0 = sc) as Ea by (unfold h1; reg_at; by apply u64_small).
  assert (csrs h1 = upd (csrs h) mscratch (get h a0)) as Ec by (change (csrs h1) with (upd (csrs h) mscratch (u64 (get h a0))); by rewrite get_word).
  rewrite (run_saves a0 tctx _ h1 sc 40); [|rewrite Ea; apply maps_machine; [exact Ht|lia..]|intros r o Hin; pose proof (tctx_range r o Hin); lia].
  set (m := store_all h1 sc tctx (ram h1)).
  assert (forall a, a + 8 <= sc \/ sc + 24 <= a -> ld64 m a = ld64 (ram h) a) as Hm.
  { intros a Ha. apply (store_all_other h1). intros r o Hin. pose proof (tctx_range r o Hin). lia. }
  assert (forall r o, (r, o) ∈ tctx -> ld64 m (sc + o) = get h r) as Hs.
  { intros r o Hin. unfold m. rewrite (store_all_at h1 sc tctx (ram h1) 24 r o Hok1 (proj1 tctx_layout) Hin). unfold h1. reg_at.
    by rewrite decide_False by apply (tctx_range r o Hin). }
  destruct (run_tick (set_ram m h1) (loads a0 (rev tctx) ++ [csrrw a0 mscratch a0; mret]) sc tc _ _ Ea (Hm (sc + 24) ltac:(lia))
    (Hm (sc + 32) ltac:(lia)) (Hm tc ltac:(lia)) Hok1 Ht Hsc Htc) as (h2 & E2 & Hok2 & Ht2 & Hr2 & Ec2 & Em2).
  change (ram (set_ram m h1)) with m in Em2. change (csrs (set_ram m h1)) with (csrs h1) in Ec2. rewrite E2. rewrite Ec in Ec2. set (t := u64 _) in Em2 |- *.
  assert (get h2 a0 = sc) as Ea2 by (rewrite Hr2; [done|by apply (bool_decide_unpack _); vm_compute]).
  rewrite (run_loads a0 (rev tctx) _ h2 sc 40); [|done|done|rewrite Ea2; by apply maps_machine; [|lia..]| |].
  2:{ intros r o Hin%elem_of_reverse. pose proof (tctx_range r o Hin) as (? & _ & ? & ?). split; [done|lia]. }
  2:{ intros o Hin%elem_of_reverse. by pose proof (tctx_range a0 o Hin) as (_ & ? & _). }
  set (h3 := restore (ram h2) sc (rev tctx) h2). destruct (restore_rest (ram h2) sc (rev tctx) h2) as (Ec3 & Er3 & _). fold h3 in Ec3, Er3.
  assert (get h3 a0 = sc) as Ea3.
  { unfold h3. rewrite restore_other; [done|intros r o Hin%elem_of_reverse; by apply (tctx_range r o)|by apply (bool_decide_unpack _); vm_compute]. }
  rewrite run_csrrw, Ea3, Ec3, Ec2. cbn [exec]. eexists. split; [reflexivity|]. split; [|split; [|split]].
  - intros r. rewrite get_set by done. case_decide as E; [subst r; rewrite upd_ne, upd_eq by done; by apply get_word|]. rewrite get_set_csr.
    destruct (decide (r ∈ (rev tctx).*1)) as [Hin|Hno]; unfold h3.
    + apply list_elem_of_fmap in Hin as ([r' o] & -> & Hin). cbn [fst].
      rewrite (restore_at (ram h2) sc (rev tctx) h2 24 r' o (proj2 tctx_layout) Hin), Em2. apply elem_of_reverse in Hin.
      pose proof (tctx_range r' o Hin). rewrite ld64_st64_ne by lia. by apply Hs.
    + rewrite restore_other; [|intros r' o Hin%elem_of_reverse; by apply (tctx_range r' o)|done].
      rewrite Hr2; [unfold h1; by reg_at|]. intros Hin. by apply Hno, tctx_rev.
  - apply functional_extensionality. intros c. cbn [csrs set set_csr]. rewrite Ec3, Ec2, (u64_small sc) by lia. unfold upd. repeat case_decide; subst; done.
  - change (ld64 (ram h3) tc = t). rewrite Er3, Em2, ld64_st64_eq. apply u64_small, u64_range.
  - intros a Ha Ha'. change (ld8 (ram h3) a = ld8 (ram h) a). rewrite Er3, Em2, ld8_st64_ne by lia.
    apply (store_all_byte h1). intros r o Hin. pose proof (tctx_range r o Hin). lia.
Qed.
End spec.

Lemma kctx_range r o : (r, o) ∈ kctx -> 0 <= o /\ o + 8 <= 256.
Proof. intros Hin. destruct (proj1 (layout_spec 256 kctx (proj1 kctx_layout)) r o Hin) as (_ & ? & ? & _). done. Qed.

Lemma frame_ld64 m m' pa n o : (forall a, pa <= a < pa + n -> ld8 m a = ld8 m' a) -> 0 <= o -> o + 8 <= n -> ld64 m (pa + o) = ld64 m' (pa + o).
Proof. intros H Ho Hn. apply ld64_ext. intros i Hi. apply H. lia. Qed.

(** C16: [swtch] gives up the processor and gets it back.  It saves the registers
    of struct context in [old] and goes on where the thread of [new] stopped, with
    that thread's registers and no other register or byte changed.  Whoever later
    switches to the saved context, on any hart, goes on at the return address of
    the first call with the same stack pointer and saved registers. *)
Theorem swtch_resumes addr link mmu h pold pnew : hart_ok h -> maps mmu h (get h a0) pold 112 -> maps mmu h (get h a1) pnew 112 ->
  pold + 112 <= pnew \/ pnew + 112 <= pold ->
  exists h1, exec addr link mmu swtch h = Some (Jump (ld64 (ram h) pnew), h1) /\ switched h pold pnew h1 /\
    forall h2 p3, hart_ok h2 -> maps mmu h2 (get h2 a1) pold 112 -> maps mmu h2 (get h2 a0) p3 112 -> pold + 112 <= p3 \/ p3 + 112 <= pold ->
      (forall a, pold <= a < pold + 112 -> ld8 (ram h2) a = ld8 (ram h1) a) ->
      exists h3, exec addr link mmu swtch h2 = Some (Jump (get h ra), h3) /\ forall r o, (r, o) ∈ ctx -> get h3 r = get h r.
Proof.
  intros Hok Ho Hn Hd. destruct (swtch_spec addr link mmu h pold pnew Hok Ho Hn Hd) as (h1 & E1 & H1). exists h1. split; [done|]. split; [done|].
  intros h2 p3 Hok2 Ho2 Hn2 Hd2 Hf. destruct (swtch_spec addr link mmu h2 p3 pold Hok2 Hn2 Ho2 ltac:(lia)) as (h3 & E3 & H3).
  assert (forall r o, (r, o) ∈ ctx -> ld64 (ram h2) (pold + o) = get h r) as Hs.
  { intros r o Hin. rewrite <- (sw_saved _ _ _ _ H1 r o Hin). destruct (proj1 (layout_spec 112 ctx ctx_layout) r o Hin) as (_ & ? & ? & _).
    by apply (frame_ld64 _ _ _ 112). }
  exists h3. split; [rewrite E3; rewrite <- (Hs ra 0) by left; by rewrite Z.add_0_r|].
  intros r o Hin. by rewrite (sw_loaded _ _ _ _ H3 r o Hin), (Hs r o Hin).
Qed.

(** C15: a trap from user mode and the return are transparent.  [uservec] saves
    every user register in the trap frame, and nothing else, and enters
    [usertrap] with the kernel's page table, stack and hart number; when the
    saved registers have not been changed, [userret] goes back with each register
    as it was, the user page table in satp and sscratch ready for the next trap. *)
Theorem trampoline_roundtrip addr link mmu h tf : hart_ok h -> maps mmu h (csrs h sscratch) tf 288 ->
  exists h1, exec addr link mmu uservec h = Some (Jump (ld64 (ram h) (tf + 16)), h1) /\ entered h tf h1 /\
    forall k, hart_ok k -> get k a0 = csrs h sscratch -> maps mmu (set_csr satp (get k a1) k) (get k a0) tf 288 ->
      (forall a, tf + 40 <= a < tf + 288 -> ld8 (ram k) a = ld8 (ram h1) a) ->
      exists k', exec addr link mmu userret k = Some (Sret, k') /\ (forall r, get k' r = get h r) /\
        csrs k' sscratch = csrs h sscratch /\ csrs k' satp = get k a1 /\ ram k' = ram k.
Proof.
  intros Hok Hm. destruct (uservec_spec addr link mmu h tf Hok Hm) as (h1 & E1 & H1). exists h1. split; [done|]. split; [done|].
  intros k Hokk Ea Hmk Hf. destruct (userret_spec addr link mmu k tf Hokk Hmk) as (k' & E & Hr & Hsc & Hsa & Hram). exists k'. split; [done|].
  split; [|by rewrite Hsc]. intros r. destruct (decide (r = zero)) as [->|Hz]; [done|]. destruct (uregs_all r Hz) as [o Hin].
  rewrite (Hr r o Hin), <- (en_saved _ _ _ H1 r o Hin). apply ld64_ext. intros i Hi. apply Hf.
  apply elem_of_cons in Hin as [[= _ ->]|Hin]; [lia|]. pose proof (uctx_range r o Hin). lia.
Qed.

Lemma kernelvec_spec addr link mmu h pa : hart_ok h -> maps mmu h (u64 (get h sp - 256)) pa 256 ->
  exists h1, exec addr link mmu kernelvec h = Some (Call "kerneltrap" kernelvec_rest, h1) /\ get h1 sp = u64 (get h sp - 256) /\
    (forall a, a < pa \/ pa + 256 <= a -> ld8 (ram h1) a = ld8 (ram h) a) /\
    forall h2, hart_ok h2 -> get h2 sp = get h1 sp -> maps mmu h2 (get h2 sp) pa 256 -> (forall a, pa <= a < pa + 256 -> ld8 (ram h2) a = ld8 (ram h1) a) ->
      exists h3, exec addr link mmu kernelvec_rest h2 = Some (Sret, h3) /\ (forall r, r <> tp -> get h3 r = get h r) /\ get h3 tp = get h2 tp /\
        ram h3 = ram h2 /\ csrs h3 = csrs h2.
Proof.
  intros Hok Hm. destruct (kernelvec_saves addr link mmu h pa Hok Hm) as (h1 & E1 & Hok1 & Hsp & _ & Hs & Hout). exists h1. split; [done|].
  split; [done|]. split; [done|]. intros h2 Hok2 Hsp2 Hm2 Hf. rewrite Hsp in Hsp2.
  assert (forall r o, (r, o) ∈ kctx -> ld64 (ram h2) (pa + o) = if decide (r = sp) then u64 (get h sp - 256) else get h r) as Hs2.
  { intros r o Hin. rewrite <- (Hs r o Hin). pose proof (kctx_range r o Hin). apply (frame_ld64 _ _ _ 256); [done|lia|lia]. }
  destruct (kernelvec_restores addr link mmu h2 pa (get h sp) Hok2 Hm2 (get_ok h sp Hok) Hsp2) as (h3 & E3 & Hr & Htp & Hrest).
  { rewrite (Hs2 sp 8) by (right; left). by rewrite decide_True. }
  exists h3. split; [done|]. split; [|done]. intros r Ht. destruct (decide (r = zero)) as [->|Hz]; [done|]. destruct (kctx_all r Hz) as [o Hin].
  rewrite (Hr r o Hin Ht). case_decide as E; [by subst|]. by rewrite (Hs2 r o Hin), decide_False.
Qed.

(** C36: traps in the kernel are transparent.  [kernelvec] saves the registers in
    256 bytes below the stack pointer and calls [kerneltrap]; when the call
    returns with the stack pointer and the frame as they were, the interrupted
    code goes on with every register as it was but tp, which is the one of the
    hart it now runs on.  [timervec], in machine mode, moves the hart's compare
    register forward by the interval, raises a supervisor software interrupt and
    returns with every register, mscratch included, as it was; it changes no
    memory but its save area. *)
Theorem traps_transparent addr link mmu h : hart_ok h ->
  (forall pa, maps mmu h (u64 (get h sp - 256)) pa 256 ->
   exists h1, exec addr link mmu kernelvec h = Some (Call "kerneltrap" kernelvec_rest, h1) /\ get h1 sp = u64 (get h sp - 256) /\
    (forall a, a < pa \/ pa + 256 <= a -> ld8 (ram h1) a = ld8 (ram h) a) /\
    forall h2, hart_ok h2 -> get h2 sp = get h1 sp -> maps mmu h2 (get h2 sp) pa 256 -> (forall a, pa <= a < pa + 256 -> ld8 (ram h2) a = ld8 (ram h1) a) ->
      exists h3, exec addr link mmu kernelvec_rest h2 = Some (Sret, h3) /\ (forall r, r <> tp -> get h3 r = get h r) /\ get h3 tp = get h2 tp /\
        ram h3 = ram h2 /\ csrs h3 = csrs h2) /\
  let sc := csrs h mscratch in let tc := ld64 (ram h) (sc + 24) in
  (translate h = false -> sc + 40 <= 2 ^ 64 -> tc + 8 <= 2 ^ 64 -> tc + 8 <= sc \/ sc + 40 <= tc ->
   exists h', exec addr link mmu timervec h = Some (Mret, h') /\ (forall r, get h' r = get h r) /\ csrs h' = upd (csrs h) sip 2 /\
    ld64 (ram h') tc = u64 (ld64 (ram h) tc + ld64 (ram h) (sc + 32)) /\
    forall a, (a < sc \/ sc + 24 <= a) -> (a < tc \/ tc + 8 <= a) -> ld8 (ram h') a = ld8 (ram h) a).
Proof. intros Hok. split; [intros pa; by apply kernelvec_spec|]. intros sc tc. by apply timervec_spec. Qed.

(** [_entry] calls [start] on a stack of 4096 bytes for each hart. *)
Lemma entry_stack addr link mmu h : word (addr "stack0") -> 0 <= csrs h mhartid < 2 ^ 32 ->
  exists h', exec addr link mmu entry h = Some (Call "start" [j "spin"], h') /\ get h' sp = u64 (addr "stack0" + 4096 * (csrs h mhartid + 1)).
Proof.
  intros Ha Hid. eexists. split; [reflexivity|]. reg_at. rewrite (u64_small (addr "stack0")) by done. change (csrs (set a0 _ _) mhartid) with (csrs h mhartid).
  rewrite (u64_small (csrs h mhartid)) by lia. rewrite (u64_small (csrs h mhartid + 1)), (u64_small (1024 * 4)) by lia. rewrite (u64_small (1024 * 4 * (csrs h mhartid + 1))) by lia. done.
Qed.

(** Whatever the code, registers and control registers keep holding 64-bit
    words, and a jump goes to one. *)
Theorem exec_ok addr link mmu code h st h' : (forall sym, word (addr sym)) -> hart_ok h -> exec addr link mmu code h = Some (st, h') ->
  hart_ok h' /\ match st with Jump pc => word pc | _ => True end.
Proof.
  intros Ha. revert h. induction code as [|i code IH]; intros h Hok E; [done|]. destruct i; cbn [exec] in E;
    try (destruct (phys mmu h _); [|done]); try (by eapply IH; [|exact E]; repeat first [apply set_ok|apply set_csr_ok]);
    injection E as <- <-; (split; [by repeat apply set_ok|]); first [done|apply Ha|by apply get_ok].
Qed.

(** A hart whose registers are all [v], with the identity as translation. *)
Definition demo_hart (v : Z) (c : csr -> Z) (m : mem) (t : bool) : hart := MkHart (fun _ => v) c m t.
Definition demo_mmu (satp va : Z) : option Z := Some va.

Lemma demo_hart_ok v c m t : word v -> (forall i, word (c i)) -> hart_ok (demo_hart v c m t).
Proof. done. Qed.

Lemma demo_maps h va n : 0 <= va -> va + n <= 2 ^ 64 -> maps demo_mmu h va va n.
Proof. intros H0 Hn. split; [done|]. split; [done|]. intros k _. unfold phys. by destruct (translate h). Qed.

Lemma exec_ok_witness : hart_ok (set sp 4096 (demo_hart 7 (fun _ => 0) ∅ true)) /\ word 7.
Proof.
  set (h := demo_hart 7 (fun _ => 0) ∅ true). destruct (exec_ok (fun _ => 0) (fun _ => 0) demo_mmu [li sp 4096; jr ra] h (Jump 7) (set sp 4096 h)) as [H1 H2];
    [done|by apply demo_hart_ok|done|]. by split.
Defined.

Lemma swtch_resumes_witness : exists h1, exec (fun _ => 0) (fun _ => 0) demo_mmu swtch (set a1 8192 (demo_hart 4096 (fun _ => 0) ∅ true)) = Some (Jump 0, h1).
Proof.
  set (h := set a1 8192 (demo_hart 4096 (fun _ => 0) ∅ true)).
  destruct (swtch_resumes (fun _ => 0) (fun _ => 0) demo_mmu h 4096 8192) as (h1 & E & _); [by apply set_ok, demo_hart_ok|by apply demo_maps..|lia|].
  exists h1. exact E.
Defined.

Lemma trampoline_roundtrip_witness : exists h1, exec (fun _ => 0) (fun _ => 0) demo_mmu uservec (demo_hart 5 (fun _ => 4096) ∅ true) = Some (Jump 0, h1) /\
  ld64 (ram h1) (4096 + 112) = 5.
Proof.
  destruct (trampoline_roundtrip (fun _ => 0) (fun _ => 0) demo_mmu (demo_hart 5 (fun _ => 4096) ∅ true) 4096) as (h1 & E & H & _);
    [by apply demo_hart_ok|by apply demo_maps|]. exists h1. split; [exact E|]. apply (en_saved _ _ _ H a0 112). left.
Defined.

Lemma traps_transparent_witness :
  (exists h1, exec (fun _ => 0) (fun _ => 0) demo_mmu kernelvec (demo_hart 4352 (fun _ => 0) ∅ true) = Some (Call "kerneltrap" kernelvec_rest, h1) /\ get h1 sp = 4096) /\
  exists h', exec (fun _ => 0) (fun _ => 0) demo_mmu timervec (demo_hart 5 (fun _ => 4096) ∅ false) = Some (Mret, h') /\
    forall r, get h' r = get (demo_hart 5 (fun _ => 4096) ∅ false) r.
Proof.
  split.
  - destruct (proj1 (traps_transparent (fun _ => 0) (fun _ => 0) demo_mmu (demo_hart 4352 (fun _ => 0) ∅ true) ltac:(by apply demo_hart_ok)) 4096) as (h1 & E & H & _);
      [by apply demo_maps|]. exists h1. split; [exact E|exact H].
  - destruct (proj2 (traps_transparent (fun _ => 0) (fun _ => 0) demo_mmu (demo_hart 5 (fun _ => 4096) ∅ false) ltac:(by apply demo_hart_ok))) as (h' & E & Hr & _);
      [done|by vm_compute|by vm_compute|by left; vm_compute|]. exists h'. split; [exact E|exact Hr].
Defined.
