(* ===== verification/ListHead.v ===== *)
(** * kernel/list.c

    Circular doubly linked lists of [struct list_head] nodes in memory, and the
    proof that they behave as lists: an insertion or a deletion changes the
    sequence of nodes that [next] and [prev] go through, and no other memory. *)

From S2P Require Import Prelude Mem Ring.

Module ListHead.

(** [struct list_head]: [next] is the word at the node, [prev] the one after. *)
Definition next (m : mem) (a : Z) : Z := ld64 m a.
Definition prev (m : mem) (a : Z) : Z := ld64 m (a + 8).
Definition set_next (m : mem) (a v : Z) : mem := st64 m a v.
Definition set_prev (m : mem) (a v : Z) : mem := st64 m (a + 8) v.

Definition init_list_head (m : mem) (list : Z) : mem :=
  let m := set_next m list list in
  set_prev m list list.

Definition __list_add (m : mem) (new prev_ next_ : Z) : mem :=
  let m := set_prev m next_ new in
  let m := set_next m new next_ in
  let m := set_prev m new prev_ in
  set_next m prev_ new.

Definition __list_del (m : mem) (prev_ next_ : Z) : mem :=
  let m := set_prev m next_ prev_ in
  set_next m prev_ next_.

Definition list_add (m : mem) (head new : Z) : mem := __list_add m new head (next m head).

Definition list_add_tail (m : mem) (head new : Z) : mem := __list_add m new (prev m head) head.

Definition list_del (m : mem) (entry : Z) : mem :=
  let m := __list_del m (prev m entry) (next m entry) in
  let m := set_next m entry entry in
  set_prev m entry entry.

Definition list_del_init (m : mem) (entry : Z) : mem :=
  let m := __list_del m (prev m entry) (next m entry) in
  init_list_head m entry.

(** ** The list a ring of nodes stands for *)

(** Nodes are addresses, and the structures do not overlap. *)
Definition nodes_ok (ns : list Z) : Prop :=
  (forall a, a ∈ ns -> 0 <= a < 2 ^ 64) /\
  (forall a b, a ∈ ns -> b ∈ ns -> a = b \/ a + 16 <= b \/ b + 16 <= a).

(** [head] starts a ring whose other nodes are [es], in order. *)
Definition ring (m : mem) (head : Z) (es : list Z) : Prop := Ring.ring (next m) (prev m) head es.

(** Memory outside the nodes [ns]. *)
Definition outside (ns : list Z) (x : Z) : Prop := forall a, a ∈ ns -> x < a \/ a + 16 <= x.

(** ** Fields of distinct nodes are independent *)

Section nodes.
Context (ns : list Z).
Hypothesis Hok : nodes_ok ns.

Lemma node_range a : a ∈ ns -> u64 a = a.
Proof. intros H. by apply u64_small, Hok. Qed.

Lemma next_set_next m a b v :
  a ∈ ns -> b ∈ ns -> next (set_next m a v) b = if decide (a = b) then u64 v else next m b.
Proof.
  intros Ha Hb. unfold next, set_next. case_decide as E; [subst; apply ld64_st64_eq|].
  apply ld64_st64_ne. destruct (proj2 Hok a b Ha Hb); [done|lia].
Qed.

Lemma prev_set_prev m a b v :
  a ∈ ns -> b ∈ ns -> prev (set_prev m a v) b = if decide (a = b) then u64 v else prev m b.
Proof.
  intros Ha Hb. unfold prev, set_prev. case_decide as E; [subst; apply ld64_st64_eq|].
  apply ld64_st64_ne. destruct (proj2 Hok a b Ha Hb); [done|lia].
Qed.

Lemma next_set_prev m a b v : a ∈ ns -> b ∈ ns -> next (set_prev m a v) b = next m b.
Proof.
  intros Ha Hb. apply ld64_st64_ne. destruct (proj2 Hok a b Ha Hb); lia.
Qed.

Lemma prev_set_next m a b v : a ∈ ns -> b ∈ ns -> prev (set_next m a v) b = prev m b.
Proof.
  intros Ha Hb. apply ld64_st64_ne. destruct (proj2 Hok a b Ha Hb); lia.
Qed.

Lemma ld8_set_out m a v x : a ∈ ns -> outside ns x ->
  ld8 (set_next m a v) x = ld8 m x /\ ld8 (set_prev m a v) x = ld8 m x.
Proof. intros Ha Hx. specialize (Hx a Ha). split; apply ld8_st64_ne; lia. Qed.

(** What the two internal operations do to the fields. *)
Lemma add_fields m new p n b :
  new ∈ ns -> p ∈ ns -> n ∈ ns -> b ∈ ns ->
  inserted (next m) (prev m) new p n (next (__list_add m new p n)) (prev (__list_add m new p n)) b.
Proof.
  intros. unfold __list_add, inserted.
  rewrite next_set_next, next_set_prev, next_set_next, next_set_prev by done.
  rewrite prev_set_next, prev_set_prev, prev_set_next, prev_set_prev by done.
  by rewrite !node_range by done.
Qed.

Lemma del_fields m p n b :
  p ∈ ns -> n ∈ ns -> b ∈ ns ->
  removed (next m) (prev m) p n (next (__list_del m p n)) (prev (__list_del m p n)) b.
Proof.
  intros. unfold __list_del, removed.
  rewrite next_set_next, next_set_prev, prev_set_next, prev_set_prev by done.
  by rewrite !node_range by done.
Qed.

Lemma init_fields m a b :
  a ∈ ns -> b ∈ ns ->
  next (init_list_head m a) b = (if decide (a = b) then a else next m b) /\
  prev (init_list_head m a) b = (if decide (a = b) then a else prev m b).
Proof.
  intros. unfold init_list_head.
  rewrite next_set_prev, next_set_next, prev_set_prev, prev_set_next by done.
  by rewrite !node_range by done.
Qed.

(** ** The operations on rings *)

Lemma ring_add m h es new :
  (forall x, x ∈ h :: es -> x ∈ ns) -> new ∈ ns -> new ∉ h :: es ->
  ring m h es -> ring (list_add m h new) h (new :: es).
Proof.
  intros Hns Hnew Hni Hr. destruct (ring_neighbours _ _ h es h Hr) as [Hn _]; [left|].
  apply (ring_insert_front (next m) (prev m)); [done..|]. intros x Hx.
  apply add_fields; [done|apply Hns; left|by apply Hns|]. set_solver.
Qed.

Lemma ring_add_tail m h es new :
  (forall x, x ∈ h :: es -> x ∈ ns) -> new ∈ ns -> new ∉ h :: es ->
  ring m h es -> ring (list_add_tail m h new) h (es ++ [new]).
Proof.
  intros Hns Hnew Hni Hr. destruct (ring_neighbours _ _ h es h Hr) as [_ Hp]; [left|].
  apply (ring_insert_back (next m) (prev m)); [done..|]. intros x Hx.
  apply add_fields; [done|by apply Hns|apply Hns; left|]. set_solver.
Qed.

Lemma ring_del m h e1 e e2 :
  (forall x, x ∈ h :: e1 ++ e :: e2 -> x ∈ ns) -> ring m h (e1 ++ e :: e2) ->
  ring (list_del m e) h (e1 ++ e2).
Proof.
  intros Hns Hr. destruct (ring_neighbours _ _ h _ e Hr) as [Hn Hp]; [set_solver|].
  assert (e ∉ h :: e1 ++ e2) as He.
  { destruct Hr as [Hnd _]. rewrite app_comm_cons in *.
    apply NoDup_app in Hnd as (_ & N2 & [N3 _]%NoDup_cons). set_solver. }
  apply (ring_remove (next m) (prev m) _ _ h e1 e e2); [done|]. intros x Hx.
  destruct (del_fields m (prev m e) (next m e) x) as [F1 F2]; [by apply Hns|by apply Hns|apply Hns; set_solver|].
  destruct (init_fields (__list_del m (prev m e) (next m e)) e x) as [G1 G2]; [apply Hns; set_solver..|].
  rewrite decide_False in G1, G2 by (intros ->; done).
  split; [etrans; [exact G1|exact F1]|etrans; [exact G2|exact F2]].
Qed.

(** Every operation touches only the nodes. *)
Lemma add_outside m new p n x :
  new ∈ ns -> p ∈ ns -> n ∈ ns -> outside ns x -> ld8 (__list_add m new p n) x = ld8 m x.
Proof.
  intros Hnew Hp Hn Hx. unfold __list_add.
  rewrite (proj1 (ld8_set_out _ p _ x Hp Hx)), (proj2 (ld8_set_out _ new _ x Hnew Hx)).
  by rewrite (proj1 (ld8_set_out _ new _ x Hnew Hx)), (proj2 (ld8_set_out _ n _ x Hn Hx)).
Qed.

Lemma del_outside m e x :
  e ∈ ns -> prev m e ∈ ns -> next m e ∈ ns -> outside ns x -> ld8 (list_del m e) x = ld8 m x.
Proof.
  intros He Hp Hn Hx. unfold list_del, __list_del.
  rewrite (proj2 (ld8_set_out _ e _ x He Hx)), (proj1 (ld8_set_out _ e _ x He Hx)).
  by rewrite (proj1 (ld8_set_out _ (prev m e) _ x Hp Hx)), (proj2 (ld8_set_out _ (next m e) _ x Hn Hx)).
Qed.

End nodes.

(** ** Sequences of operations *)

Inductive op := OAdd (new : Z) | OAddTail (new : Z) | ODel (entry : Z) | ODelInit (entry : Z).

Definition run_op (head : Z) (o : op) (m : mem) : mem :=
  match o with
  | OAdd new => list_add m head new
  | OAddTail new => list_add_tail m head new
  | ODel e => list_del m e
  | ODelInit e => list_del_init m e
  end.

(** What the operations mean on the list of nodes: an insertion of a node that
    is not on the list, a deletion of one that is. *)
Definition spec_op (head : Z) (o : op) (es : list Z) : option (list Z) :=
  match o with
  | OAdd new => if decide (new ∈ head :: es) then None else Some (new :: es)
  | OAddTail new => if decide (new ∈ head :: es) then None else Some (es ++ [new])
  | ODel e | ODelInit e =>
      if decide (e ∈ es) then Some (filter (fun x => x <> e) es) else None
  end.

Definition op_node (o : op) : Z :=
  match o with OAdd a | OAddTail a | ODel a | ODelInit a => a end.

Lemma filter_del e1 e e2 :
  NoDup (e1 ++ e :: e2) -> filter (fun x : Z => x <> e) (e1 ++ e :: e2) = e1 ++ e2.
Proof.
  intros (N1 & N2 & [N3 N4]%NoDup_cons)%NoDup_app.
  assert (forall l : list Z, e ∉ l -> filter (fun x : Z => x <> e) l = l) as Hf.
  { induction l as [|a l IH]; intros Hl; [done|]. rewrite filter_cons_True by set_solver.
    f_equal. apply IH. set_solver. }
  rewrite filter_app, filter_cons_False by naive_solver. rewrite !Hf; [done|done|set_solver].
Qed.

Lemma list_op_refines ns head o m es es' :
  nodes_ok ns -> (forall x, x ∈ head :: es -> x ∈ ns) -> op_node o ∈ ns ->
  ring m head es -> spec_op head o es = Some es' ->
  ring (run_op head o m) head es' /\ (forall x, x ∈ head :: es' -> x ∈ ns) /\
  (forall x, outside ns x -> ld8 (run_op head o m) x = ld8 m x).
Proof.
  intros Hok Hns Ho Hr Hs.
  assert (forall x, x ∈ head :: es -> next m x ∈ ns /\ prev m x ∈ ns) as Hnb.
  { intros x Hx. destruct (ring_neighbours _ _ head es x Hr Hx). auto. }
  assert (forall e, e ∈ ns -> e ∈ es ->
    ring (list_del m e) head (filter (fun x => x <> e) es) /\
    (forall x, x ∈ head :: filter (fun x => x <> e) es -> x ∈ ns) /\
    (forall x, outside ns x -> ld8 (list_del m e) x = ld8 m x)) as Hdel.
  { intros e He Hin. destruct (Hnb e) as [? ?]; [by right|].
    pose proof Hin as Hin'. apply list_elem_of_split in Hin' as (e1 & e2 & ->).
    pose proof (proj1 (NoDup_cons _ _) (proj1 Hr)) as [_ Hnd]. rewrite filter_del by done.
    split; [by eapply ring_del|]. split; [set_solver|]. intros x Hx. by rewrite (del_outside ns). }
  destruct (Hnb head ltac:(left)) as [? ?].
  destruct o as [new|new|e|e]; simpl in *; case_decide; simplify_eq.
  - split; [by eapply ring_add|]. split; [set_solver|]. intros x Hx.
    unfold list_add. rewrite (add_outside ns) by (done || (apply Hns; left)). done.
  - split; [by eapply ring_add_tail|]. split; [set_solver|]. intros x Hx.
    unfold list_add_tail. rewrite (add_outside ns) by (done || (apply Hns; left)). done.
  - by apply Hdel.
  - by apply Hdel.
Qed.
End ListHead.

(** C37: any sequence of [list_add], [list_add_tail], [list_del] and
    [list_del_init] on a list head behaves as the same insertions and deletions
    on a list of nodes: afterwards [next] walks that list forwards and back to
    the head, [prev] walks it backwards, and no memory outside the nodes has
    changed. *)
Theorem list_ops_refine_list ns head os m es es' :
  ListHead.nodes_ok ns -> (forall x, x ∈ head :: es -> x ∈ ns) ->
  Forall (fun o => ListHead.op_node o ∈ ns) os -> ListHead.ring m head es ->
  foldl (fun r o => r ≫= ListHead.spec_op head o) (Some es) os = Some es' ->
  let m' := foldl (fun m o => ListHead.run_op head o m) m os in
  follow (ListHead.next m') (length es') (ListHead.next m' head) = es' /\
  ListHead.next m' (List.last (head :: es') 0) = head /\
  follow (ListHead.prev m') (length es') (ListHead.prev m' head) = rev es' /\
  (forall x, ListHead.outside ns x -> ld8 m' x = ld8 m x).
Proof.
  intros Hok Hns Ho Hr Hs m'.
  assert (ListHead.ring m' head es' /\ (forall x, ListHead.outside ns x -> ld8 m' x = ld8 m x))
    as [[_ Hl] Hout].
  { subst m'. revert m es Hns Hr Hs. induction os as [|o os IH]; intros m es Hns Hr Hs; simpl in *.
    - by simplify_eq.
    - apply Forall_cons in Ho as [Ho1 Ho2]. destruct (ListHead.spec_op head o es) as [es1|] eqn:E.
      + destruct (ListHead.list_op_refines ns head o m es es1) as (Hr1 & Hns1 & Hout1); try done.
        destruct (IH Ho2 _ es1 Hns1 Hr1 Hs) as [Hr2 Hout2]. split; [done|].
        intros x Hx. rewrite Hout2, Hout1 by done. done.
      + exfalso. clear -Hs. induction os; simpl in *; auto; done. }
  destruct (follow_next _ _ _ _ _ 0 Hl). split; [done|]. split; [done|].
  split; [by eapply follow_prev|done].
Qed.

Lemma list_ops_refine_list_witness :
  let m' := foldl (fun m o => ListHead.run_op 4096 o m) (ListHead.init_list_head ∅ 4096)
    [ListHead.OAdd 8192; ListHead.OAddTail 8208; ListHead.OAdd 8224; ListHead.ODel 8192] in
  follow (ListHead.next m') 2 (ListHead.next m' 4096) = [8224; 8208] /\
  ListHead.next m' (List.last [4096; 8224; 8208] 0) = 4096 /\
  follow (ListHead.prev m') 2 (ListHead.prev m' 4096) = [8208; 8224] /\
  (forall x, ListHead.outside [4096; 8192; 8208; 8224] x ->
     ld8 m' x = ld8 (ListHead.init_list_head ∅ 4096) x).
Proof.
  apply (list_ops_refine_list [4096; 8192; 8208; 8224] 4096
    [ListHead.OAdd 8192; ListHead.OAddTail 8208; ListHead.OAdd 8224; ListHead.ODel 8192]
    (ListHead.init_list_head ∅ 4096) [] [8224; 8208]).
  - split.
    + intros a Ha. rewrite !elem_of_cons in Ha. destruct Ha as [->|[->|[->|[->|?%not_elem_of_nil]]]]; lia.
    + intros a b Ha Hb. rewrite !elem_of_cons in Ha, Hb.
      destruct Ha as [->|[->|[->|[->|?%not_elem_of_nil]]]], Hb as [->|[->|[->|[->|?%not_elem_of_nil]]]]; lia.
  - intros x Hx. apply list_elem_of_singleton in Hx as ->. left.
  - repeat constructor; simpl; repeat (try left; right).
  - split; [apply NoDup_singleton|]. by vm_compute.
  - by vm_compute.
Defined.
