(* ===== verification/Kalloc.v ===== *)
(** * kernel/kalloc.c

    The physical page allocator.  Free pages are linked through their first
    word in physical memory, as in the code: [struct run *next] is the word
    at the page's address. *)

From S2P Require Import Prelude Mem Riscv Str Locks.

(** What the page allocator and the page-table code work on: physical
    memory, the allocator's list head, the page-counting global of vm.c, the
    spinlocks this CPU holds, and three symbols that kernel.ld fixes. *)
Record machine := Machine {
  ram : mem;
  freelist : Z;              (* kmem.freelist *)
  count : Z;                 (* int count, vm.c:283 *)
  mlocks : list lockid;
  kend : Z;                  (* end[], first address after the kernel *)
  etext : Z;                 (* etext[], end of the kernel's code *)
  trampoline : Z;            (* trampoline[], the trampoline page *)
}.

Definition set_ram (r : mem) (s : machine) : machine :=
  Machine r (freelist s) (count s) (mlocks s) (kend s) (etext s) (trampoline s).
Definition set_freelist (f : Z) (s : machine) : machine :=
  Machine (ram s) f (count s) (mlocks s) (kend s) (etext s) (trampoline s).
Definition set_count (c : Z) (s : machine) : machine :=
  Machine (ram s) (freelist s) c (mlocks s) (kend s) (etext s) (trampoline s).
Definition set_mlocks (l : list lockid) (s : machine) : machine :=
  Machine (ram s) (freelist s) (count s) l (kend s) (etext s) (trampoline s).

#[export] Instance machine_locks : HasLocks machine :=
  {| held := mlocks; set_held := set_mlocks |}.
#[export] Instance machine_locks_laws : LocksLaws machine.
Proof. split; by intros; try destruct s. Qed.


(** Loads and stores through a pointer.  The kernel's page table ([kvmmake])
    maps nothing below PLIC, so an access there, in particular one through a null
    pointer, is a page fault, which [kerneltrap] answers with a panic. *)
Definition load64 (a : Z) : M machine Z :=
  if a <? PLIC then panic "kerneltrap" else gets (fun s => ld64 (ram s) a).
Definition store64 (a v : Z) : M machine unit :=
  if a <? PLIC then panic "kerneltrap" else modify (fun s => set_ram (st64 (ram s) a v) s).

Lemma load64_eq a s : KERNBASE <= a -> load64 a s = Ret (ld64 (ram s) a) s.
Proof. unfold KERNBASE. intros. unfold load64. by rewrite (proj2 (Z.ltb_ge _ _)) by lia. Qed.

Lemma store64_eq a v s : KERNBASE <= a -> store64 a v s = Ret tt (set_ram (st64 (ram s) a v) s).
Proof. unfold KERNBASE. intros. unfold store64. by rewrite (proj2 (Z.ltb_ge _ _)) by lia. Qed.

Definition storebytes (a : Z) (bs : list Z) : M machine unit :=
  modify (fun s => set_ram (stbytes (ram s) a bs) s).
Definition memsetM (dst c n : Z) : M machine unit :=
  modify (fun s => set_ram (Str.memset (ram s) dst c n) s).
Definition memmoveM (dst src n : Z) : M machine unit :=
  modify (fun s => set_ram (Str.memmove (ram s) dst src n) s).

Module Kalloc.

Definition kmem_lock : lockid := ("kmem", 0).

Definition kfree (pa : Z) : M machine unit :=
  (e <- gets kend;
   if negb (pa mod PGSIZE =? 0) || (pa <? e) || (PHYSTOP <=? pa) then panic "kfree"
   else
     memsetM pa 1 PGSIZE;;
     let r := pa in
     acquire kmem_lock;;
     f <- gets freelist;
     store64 r f;;
     modify (set_freelist r);;
     release kmem_lock)%K.

Definition kalloc : M machine Z :=
  (acquire kmem_lock;;
   r <- gets freelist;
   (if negb (r =? 0) then
      next <- load64 r;
      modify (set_freelist next)
    else ret tt);;
   release kmem_lock;;
   (if negb (r =? 0) then memsetM r 5 PGSIZE else ret tt);;
   ret r)%K.

Definition freerange_body (pa_end p : Z) : M machine (Z + unit) :=
  (if p + PGSIZE <=? pa_end then kfree p;; ret (inl (p + PGSIZE)) else ret (inr tt))%K.

Definition freerange (pa_start pa_end : Z) : M machine unit :=
  loop (freerange_body pa_end) (PGROUNDUP pa_start).

Definition kinit : M machine unit :=
  (initlock kmem_lock;;
   e <- gets kend;
   freerange e PHYSTOP)%K.

(** ** The invariant: the list head starts a chain through distinct pages of
    allocatable memory. *)

Definition page_ok (e p : Z) : Prop := p mod PGSIZE = 0 /\ e <= p < PHYSTOP.

Fixpoint chain (m : mem) (r : Z) (ps : list Z) : Prop :=
  match ps with
  | [] => r = 0
  | p :: ps' => r = p /\ chain m (ld64 m p) ps'
  end.

Record kmem_inv (s : machine) (ps : list Z) : Prop := {
  inv_chain : chain (ram s) (freelist s) ps;
  inv_nodup : NoDup ps;
  inv_pages : Forall (page_ok (kend s)) ps;
  inv_end : KERNBASE <= kend s;
}.

Lemma page_disjoint e p q :
  page_ok e p -> page_ok e q -> p <> q -> p + PGSIZE <= q \/ q + PGSIZE <= p.
Proof.
  intros [Hp _] [Hq _] Hne. unfold PGSIZE in *.
  apply Z.mod_divide in Hp as [a ->], Hq as [b ->]; lia.
Qed.

(** A chain depends only on the first words of its pages. *)
Lemma chain_ext m m' r ps :
  (forall p, p ∈ ps -> ld64 m' p = ld64 m p) -> chain m r ps -> chain m' r ps.
Proof.
  revert r; induction ps as [|p ps IH]; intros r H; simpl; [done|].
  intros [-> Hc]. split; [done|]. rewrite H by set_solver. apply IH; [set_solver|done].
Qed.

Lemma ld64_memset_page e p q m c :
  page_ok e p -> page_ok e q -> p <> q -> ld64 (Str.memset m p c PGSIZE) q = ld64 m q.
Proof.
  intros Hp Hq Hne. apply ld64_ext. intros i Hi. apply Str.ld8_memset_out.
  destruct (page_disjoint _ _ _ Hp Hq Hne); unfold PGSIZE in *; lia.
Qed.

Lemma page_nonzero e p : KERNBASE <= e -> page_ok e p -> p <> 0.
Proof. unfold KERNBASE. intros ? [_ ?]. lia. Qed.

(** ** What the operations do *)

(** The state after a page is taken from the head of the list. *)
Definition alloc_state (p : Z) (s : machine) : machine :=
  set_ram (Str.memset (ram s) p 5 PGSIZE) (set_freelist (ld64 (ram s) p) s).

(** The state after a page is put at the head. *)
Definition free_state (p : Z) (s : machine) : machine :=
  set_freelist p (set_ram (st64 (Str.memset (ram s) p 1 PGSIZE) p (freelist s)) s).

Lemma kalloc_eq s :
  kmem_lock ∉ mlocks s -> freelist s = 0 \/ KERNBASE <= freelist s ->
  kalloc s = if freelist s =? 0 then Ret 0 s
             else Ret (freelist s) (alloc_state (freelist s) s).
Proof.
  intros Hl Hf. unfold kalloc, bind. rewrite acquire_eq by done. cbn [bindr gets].
  change (freelist (set_held _ s)) with (freelist s). destruct (freelist s =? 0) eqn:E; bdestr; simpl.
  - rewrite E. f_equal; by destruct s.
  - rewrite load64_eq by lia. simpl. f_equal; by destruct s.
Qed.

Lemma kfree_eq s p :
  kmem_lock ∉ mlocks s -> page_ok (kend s) p -> KERNBASE <= kend s ->
  kfree p s = Ret tt (free_state p s).
Proof.
  intros Hl [Ha Hr] He. unfold kfree, bind. simpl.
  rewrite (proj2 (Z.eqb_eq _ _) Ha). simpl.
  destruct (p <? kend s) eqn:E1; bdestr; [lia|].
  destruct (PHYSTOP <=? p) eqn:E2; bdestr; [lia|]. simpl.
  rewrite acquire_eq by done. simpl. rewrite store64_eq by lia. simpl.
  f_equal; by destruct s.
Qed.

Lemma kfree_panics s p :
  ~ page_ok (kend s) p -> kfree p s = Panic "kfree".
Proof.
  intros Hp. unfold kfree, bind. simpl.
  destruct (negb (p mod PGSIZE =? 0) || (p <? kend s) || (PHYSTOP <=? p)) eqn:E; [done|].
  bdestr. destruct Hp. split; [done|lia].
Qed.

Lemma alloc_inv s p ps : kmem_inv s (p :: ps) -> kmem_inv (alloc_state p s) ps.
Proof.
  intros [[Hf Hc] Hn Hp He]. apply NoDup_cons in Hn as [Hni Hn].
  apply Forall_cons in Hp as [Hpp Hp].
  split; simpl; try done.
  eapply chain_ext; [|done]. intros q Hq. eapply ld64_memset_page; [done| |set_solver].
  by eapply Forall_forall in Hp.
Qed.

Lemma free_inv s p ps :
  kmem_inv s ps -> page_ok (kend s) p -> p ∉ ps -> kmem_inv (free_state p s) (p :: ps).
Proof.
  intros [Hc Hn Hp He] Hpp Hni. split; simpl; try done.
  - split; [done|]. rewrite ld64_st64_eq.
    assert (u64 (freelist s) = freelist s) as ->.
    { apply u64_small. destruct ps as [|q ps]; simpl in Hc; [lia|]. destruct Hc as [-> _].
      apply Forall_cons in Hp as [[_ ?] _]. unfold PHYSTOP, KERNBASE in *. lia. }
    eapply chain_ext; [|done]. intros q Hq. eapply Forall_forall in Hp; [|done].
    rewrite ld64_st64_ne.
    + eapply ld64_memset_page; [done..|set_solver].
    + destruct (page_disjoint _ p q Hpp Hp ltac:(set_solver)); unfold PGSIZE in *; lia.
  - by apply NoDup_cons.
  - by apply Forall_cons.
Qed.

Lemma head_nonzero s p ps : kmem_inv s (p :: ps) -> freelist s = p /\ p <> 0.
Proof.
  intros [[Hf Hc] Hn Hp He]. split; [done|]. apply Forall_cons in Hp as [Hpp _].
  by eapply page_nonzero.
Qed.

(** [kalloc] as seen by its callers. *)
Lemma kalloc_spec s ps :
  kmem_inv s ps -> kmem_lock ∉ mlocks s ->
  match ps with
  | [] => kalloc s = Ret 0 s
  | p :: ps' => kalloc s = Ret p (alloc_state p s) /\ kmem_inv (alloc_state p s) ps'
  end.
Proof.
  intros Hinv Hl. destruct ps as [|p ps].
  - destruct Hinv as [E ? ? ?]. rewrite kalloc_eq by auto. by rewrite E.
  - destruct (head_nonzero _ _ _ Hinv) as [E Hnz]. pose proof (inv_end _ _ Hinv).
    pose proof (inv_pages _ _ Hinv) as [[_ Hp] _]%Forall_cons. rewrite kalloc_eq by (done || rewrite E; right; lia). rewrite E.
    rewrite (proj2 (Z.eqb_neq _ _) Hnz). split; [done|]. by apply alloc_inv.
Qed.

(** ** Initialisation *)

(** The [n] pages from [p] on, in increasing order. *)
Fixpoint pages (n : nat) (p : Z) : list Z :=
  match n with
  | O => []
  | S n' => p :: pages n' (p + PGSIZE)
  end.

Lemma elem_of_pages n p q :
  q ∈ pages n p <-> exists i, 0 <= i < Z.of_nat n /\ q = p + i * PGSIZE.
Proof.
  revert p; induction n as [|n IH]; intros p; cbn [pages].
  - split; [by intros ?%not_elem_of_nil|]. intros (i & ? & _). lia.
  - rewrite elem_of_cons, IH. split.
    + intros [->|(i & ? & ->)]; [exists 0 | exists (i + 1)]; lia.
    + intros (i & ? & ->). destruct (decide (i = 0)); [left; lia|].
      right. exists (i - 1). lia.
Qed.

Lemma NoDup_pages n p : NoDup (pages n p).
Proof.
  revert p; induction n as [|n IH]; intros p; cbn [pages]; [constructor|].
  apply NoDup_cons. split; [|done]. rewrite elem_of_pages.
  unfold PGSIZE. intros (i & ? & ?). lia.
Qed.

Lemma freerange_iter n p pa_end s ps :
  kmem_inv s ps -> kmem_lock ∉ mlocks s ->
  p mod PGSIZE = 0 -> kend s <= p -> pa_end <= PHYSTOP ->
  p + Z.of_nat n * PGSIZE <= pa_end < p + (Z.of_nat n + 1) * PGSIZE ->
  (forall q, q ∈ pages n p -> q ∉ ps) ->
  exists s', iter_n (S n) (freerange_body pa_end) p s = Ret (inr tt) s' /\
    kmem_inv s' (rev (pages n p) ++ ps).
Proof.
  revert p s ps; induction n as [|n IH]; intros p s ps Hinv Hl Hal Hlo Hhi Hn Hfr;
    cbn [pages rev] in *; unfold PGSIZE in Hn.
  - simpl. unfold freerange_body. rewrite (proj2 (Z.leb_gt _ _)) by (unfold PGSIZE; lia).
    by exists s.
  - change (iter_n (S (S n)) ?f p s) with
      (bindr (f p s) (fun r => match r with inl a => iter_n (S n) f a | inr b => ret (inr b) end)).
    unfold freerange_body at 1. rewrite (proj2 (Z.leb_le _ _)) by (unfold PGSIZE; lia).
    assert (page_ok (kend s) p) as Hok by (split; [done | lia]).
    unfold bind. rewrite kfree_eq by (done || apply (inv_end _ _ Hinv)). cbn [bindr ret].
    assert (Hinv' := free_inv _ _ _ Hinv Hok (Hfr p ltac:(set_solver))).
    destruct (IH (p + PGSIZE) (free_state p s) (p :: ps)) as (s' & -> & Hi);
      try done; try (unfold PGSIZE in *; simpl; lia).
    + rewrite <- Z.add_mod_idemp_r by done. by rewrite Z.mod_same, Z.add_0_r.
    + intros q Hq. apply not_elem_of_cons. split; [|apply Hfr; set_solver].
      apply elem_of_pages in Hq as (i & ? & ->). unfold PGSIZE. lia.
    + exists s'. rewrite <- app_assoc. done.
Qed.

Lemma PGROUNDUP_bounds a :
  0 <= a -> a + PGSIZE < 2 ^ 64 ->
  a <= PGROUNDUP a < a + PGSIZE /\ PGROUNDUP a mod PGSIZE = 0.
Proof.
  intros. rewrite PGROUNDUP_eq by (unfold PGSIZE in *; lia). unfold PGSIZE.
  split; [|by apply Z.mod_mul]. Z.to_euclidean_division_equations. lia.
Qed.

(** ** The allocator as a stack of free pages *)

Inductive op := OAlloc | OFree (p : Z).

Definition run_op (o : op) : M machine Z :=
  match o with
  | OAlloc => kalloc
  | OFree p => (kfree p;; ret 0)%K
  end.

Fixpoint run_ops (os : list op) : M machine (list Z) :=
  match os with
  | [] => ret []
  | o :: os' => (r <- run_op o; rs <- run_ops os'; ret (r :: rs))%K
  end.

(** The specification: an allocation pops a page (0 when there is none), a
    release pushes one; releasing a page that is free or out of range is
    against the protocol. *)
Definition spec_op (e : Z) (o : op) (ps : list Z) : option (Z * list Z) :=
  match o with
  | OAlloc => Some (match ps with [] => (0, []) | p :: ps' => (p, ps') end)
  | OFree p =>
      if bool_decide (page_ok e p) && bool_decide (p ∉ ps) then Some (0, p :: ps) else None
  end.

Fixpoint spec_ops (e : Z) (os : list op) (ps : list Z) : option (list Z * list Z) :=
  match os with
  | [] => Some ([], ps)
  | o :: os' =>
      '(r, ps1) ← spec_op e o ps; '(rs, ps2) ← spec_ops e os' ps1; Some (r :: rs, ps2)
  end.

Lemma run_op_refines o s ps r ps' :
  kmem_inv s ps -> kmem_lock ∉ mlocks s -> spec_op (kend s) o ps = Some (r, ps') ->
  exists s', run_op o s = Ret r s' /\ kmem_inv s' ps' /\ kend s' = kend s /\ mlocks s' = mlocks s.
Proof.
  intros Hinv Hl Hs. destruct o as [|p]; simpl in Hs.
  - pose proof (kalloc_spec _ _ Hinv Hl) as Hk. simpl. destruct ps as [|p ps]; simplify_eq.
    + rewrite Hk. eauto.
    + destruct Hk as [-> ?]. eauto.
  - destruct (bool_decide (page_ok (kend s) p) && bool_decide (p ∉ ps)) eqn:E; bdestr; simplify_eq.
    simpl. rewrite kfree_eq by (done || by eapply inv_end). simpl. eexists. split; [done|].
    split; [by apply free_inv|]. done.
Qed.

End Kalloc.

(** C21: the page allocator refines a stack of free pages: any sequence of
    [kalloc] and [kfree] calls that frees only allocatable pages that are not
    free returns what the stack returns (0 when it is empty), never panics,
    and leaves the in-memory free list representing the stack. *)
Theorem kalloc_kfree_refine_stack (os : list Kalloc.op) s ps rs ps' :
  Kalloc.kmem_inv s ps -> Kalloc.kmem_lock ∉ mlocks s ->
  Kalloc.spec_ops (kend s) os ps = Some (rs, ps') ->
  exists s', Kalloc.run_ops os s = Ret rs s' /\ Kalloc.kmem_inv s' ps'.
Proof.
  revert s ps rs; induction os as [|o os IH]; intros s ps rs Hinv Hl Hs; simpl in *.
  - simplify_eq. eauto.
  - destruct (Kalloc.spec_op _ o ps) as [[r ps1]|] eqn:E1; simpl in Hs; [|done].
    destruct (Kalloc.spec_ops _ os ps1) as [[rs2 ps2]|] eqn:E2; simpl in Hs; [|done]. simplify_eq.
    destruct (Kalloc.run_op_refines _ _ _ _ _ Hinv Hl E1) as (s1 & -> & Hi & He & Hm). simpl.
    rewrite <- He in E2. rewrite <- Hm in Hl.
    destruct (IH s1 ps1 rs2 Hi Hl E2) as (s2 & -> & ?). simpl. eauto.
Qed.

Lemma kalloc_kfree_refine_stack_witness :
  exists s', Kalloc.run_ops [Kalloc.OFree 0x87fff000; Kalloc.OAlloc; Kalloc.OAlloc]
      (Machine ∅ 0 0 [] 0x87ffe123 0x80008000 0x80007000) = Ret [0; 0x87fff000; 0] s' /\
    Kalloc.kmem_inv s' [].
Proof.
  apply (kalloc_kfree_refine_stack _ _ []).
  - split; simpl; [done|constructor|constructor|vm_compute; discriminate].
  - apply not_elem_of_nil.
  - vm_compute. reflexivity.
Defined.

(** [kinit] puts exactly the page-aligned pages from [end] to [PHYSTOP]
    on the free list, each once, and terminates without a panic. *)
Theorem kinit_frees_all s :
  KERNBASE <= kend s <= PHYSTOP -> freelist s = 0 -> mlocks s = [] ->
  exists s' ps, Kalloc.kinit s = Ret tt s' /\ Kalloc.kmem_inv s' ps /\
    forall p, p ∈ ps <-> Kalloc.page_ok (kend s) p.
Proof.
  intros He Hf Hl. unfold Kalloc.kinit. simpl. rewrite Hl. simpl.
  set (s0 := set_mlocks [] s).
  destruct (Kalloc.PGROUNDUP_bounds (kend s)) as [Hb Hal];
    [unfold PHYSTOP, KERNBASE, PGSIZE in *; lia..|].
  unfold Kalloc.freerange. set (p0 := PGROUNDUP (kend s)) in *.
  assert (p0 <= PHYSTOP) as Hp0.
  { apply Z.mod_divide in Hal as [k Hk]; [|done]. unfold PHYSTOP, KERNBASE, PGSIZE in *. lia. }
  set (n := Z.to_nat ((PHYSTOP - p0) / PGSIZE)).
  assert (p0 + Z.of_nat n * PGSIZE <= PHYSTOP < p0 + (Z.of_nat n + 1) * PGSIZE) as Hn.
  { unfold n. rewrite Z2Nat.id by (apply Z.div_pos; [lia|done]). unfold PGSIZE.
    Z.to_euclidean_division_equations. lia. }
  assert (Kalloc.kmem_inv s0 []) as Hinv.
  { split; simpl; [done|constructor|constructor|lia]. }
  destruct (Kalloc.freerange_iter n p0 PHYSTOP s0 []) as (s' & Hit & Hi); try done;
    [set_solver | simpl; lia | set_solver | ].
  exists s', (rev (Kalloc.pages n p0) ++ []). split; [|split; [done|]].
  { apply (loop_exit (S n)); [|done]. unfold PHYSTOP, KERNBASE, PGSIZE in *. lia. }
  intros p.
  rewrite app_nil_r, list_elem_of_In, <- in_rev, <- list_elem_of_In, Kalloc.elem_of_pages.
  unfold Kalloc.page_ok. apply Z.mod_divide in Hal as [k Hk]; [|done]. split.
  - intros (i & Hi' & ->). split; [|unfold PHYSTOP, KERNBASE, PGSIZE in *; lia].
    rewrite Hk, <- Z.mul_add_distr_r. by apply Z.mod_mul.
  - intros [Hpa Hpr]. apply Z.mod_divide in Hpa as [j ->]; [|done].
    exists (j - k). unfold PGSIZE, PHYSTOP, KERNBASE in *. lia.
Qed.

Lemma kinit_frees_all_witness :
  exists s' ps, Kalloc.kinit (Machine ∅ 0 0 [] 0x80026000 0x80008000 0x80007000) = Ret tt s' /\
    Kalloc.kmem_inv s' ps /\ forall p, p ∈ ps <-> Kalloc.page_ok 0x80026000 p.
Proof.
  apply (kinit_frees_all (Machine ∅ 0 0 [] 0x80026000 0x80008000 0x80007000)); vm_compute;
    [split; discriminate | reflexivity | reflexivity].
Defined.
