(* ===== verification/Vm.v ===== *)
(** * kernel/vm.c

    Page tables and address spaces.  A page table is a page of physical
    memory that holds 512 64-bit entries; every entry is read and written in
    [ram].  [count] is the global of the same name. *)

From S2P Require Import Prelude Mem Riscv Str Locks Kalloc.

Module Vm.

(** One call of [walk], from [level] down; [pagetable] is the table of that level. *)
Fixpoint walk_levels (level : nat) (pagetable va : Z) (alloc : bool) : M machine Z :=
  match level with
  | O => ret (pagetable + 8 * PX 0 va)
  | S level' =>
      let pte := pagetable + 8 * PX (Z.of_nat level) va in
      (e <- load64 pte;
       if negb (Z.land e PTE_V =? 0) then walk_levels level' (PTE2PA e) va alloc
       else if negb alloc then ret 0
       else
         pagetable <- Kalloc.kalloc;
         if pagetable =? 0 then ret 0
         else
           memsetM pagetable 0 PGSIZE;;
           store64 pte (Z.lor (PA2PTE pagetable) PTE_V);;
           walk_levels level' pagetable va alloc)%K
  end.

Definition walk (pagetable va : Z) (alloc : bool) : M machine Z :=
  if MAXVA <=? va then panic "walk" else walk_levels 2 pagetable va alloc.

Definition walkaddr (pagetable va : Z) : M machine Z :=
  (if MAXVA <=? va then ret 0
   else
     pte <- walk pagetable va false;
     if pte =? 0 then ret 0
     else
       e <- load64 pte;
       if Z.land e PTE_V =? 0 then ret 0
       else if Z.land e PTE_U =? 0 then ret 0
       else ret (PTE2PA e))%K.

Definition mappages_body (pagetable last perm : Z) (st : Z * Z) : M machine (Z * Z + Z) :=
  let '(a, pa) := st in
  (pte <- walk pagetable a true;
   if pte =? 0 then ret (inr (-1))
   else
     e <- load64 pte;
     if negb (Z.land e PTE_V =? 0) then panic "mappages: remap"
     else
       store64 pte (Z.lor (Z.lor (PA2PTE pa) perm) PTE_V);;
       if a =? last then ret (inr 0)
       else ret (inl (u64 (a + PGSIZE), u64 (pa + PGSIZE))))%K.

Definition mappages (pagetable va size pa perm : Z) : M machine Z :=
  if size =? 0 then panic "mappages: size"
  else
    let a := PGROUNDDOWN va in
    let last := PGROUNDDOWN (u64 (va + size - 1)) in
    loop (mappages_body pagetable last perm) (a, pa).

Definition kvmmap (kpgtbl va pa sz perm : Z) : M machine unit :=
  (r <- mappages kpgtbl va sz pa perm;
   if negb (r =? 0) then panic "kvmmap" else ret tt)%K.

Definition uvmunmap_body (pagetable bound : Z) (do_free : bool) (a : Z) : M machine (Z + unit) :=
  (if a <? bound then
     pte <- walk pagetable a false;
     if pte =? 0 then panic "uvmunmap: walk"
     else
       e <- load64 pte;
       if Z.land e PTE_V =? 0 then panic "uvmunmap: not mapped"
       else if PTE_FLAGS e =? PTE_V then panic "uvmunmap: not a leaf"
       else
         (if do_free then Kalloc.kfree (PTE2PA e) else ret tt);;
         store64 pte 0;;
         ret (inl (u64 (a + PGSIZE)))
   else ret (inr tt))%K.

Definition uvmunmap (pagetable va npages : Z) (do_free : bool) : M machine unit :=
  if negb (va mod PGSIZE =? 0) then panic "uvmunmap: not aligned"
  else loop (uvmunmap_body pagetable (u64 (va + u64 (npages * PGSIZE))) do_free) va.

Definition uvmcreate : M machine Z :=
  (pagetable <- Kalloc.kalloc;
   if pagetable =? 0 then ret 0
   else memsetM pagetable 0 PGSIZE;; ret pagetable)%K.

(** [src] is the list of the [sz] bytes of the init code. *)
Definition uvminit (pagetable : Z) (src : list Z) (sz : Z) : M machine unit :=
  (if PGSIZE <=? sz then panic "inituvm: more than a page"
   else
     mem <- Kalloc.kalloc;
     memsetM mem 0 PGSIZE;;
     mappages pagetable 0 PGSIZE mem (Z.lor PTE_W (Z.lor PTE_R (Z.lor PTE_X PTE_U)));;
     storebytes mem (take (Z.to_nat sz) src))%K.

Definition uvmdealloc (pagetable oldsz newsz : Z) : M machine Z :=
  (if oldsz <=? newsz then ret oldsz
   else
     (if PGROUNDUP newsz <? PGROUNDUP oldsz then
        let npages := i32 ((PGROUNDUP oldsz - PGROUNDUP newsz) / PGSIZE) in
        uvmunmap pagetable (PGROUNDUP newsz) (u64 npages) true
      else ret tt);;
     ret newsz)%K.

Definition uvmalloc_body (pagetable oldsz newsz a : Z) : M machine (Z + Z) :=
  (if a <? newsz then
     mem <- Kalloc.kalloc;
     if mem =? 0 then uvmdealloc pagetable a oldsz;; ret (inr 0)
     else
       memsetM mem 0 PGSIZE;;
       r <- mappages pagetable a PGSIZE mem (Z.lor PTE_W (Z.lor PTE_X (Z.lor PTE_R PTE_U)));
       if negb (r =? 0) then
         Kalloc.kfree mem;; uvmdealloc pagetable a oldsz;; ret (inr 0)
       else ret (inl (u64 (a + PGSIZE)))
   else ret (inr newsz))%K.

Definition uvmalloc (pagetable oldsz newsz : Z) : M machine Z :=
  if newsz <? oldsz then ret oldsz
  else
    let oldsz := PGROUNDUP oldsz in
    loop (uvmalloc_body pagetable oldsz newsz) oldsz.

(** [freewalk] recurses once per level; the model follows it [depth] levels down. *)
Fixpoint freewalk_rec (depth : nat) (pagetable : Z) : M machine unit :=
  match depth with
  | O => nofuel
  | S depth' =>
      (for_range 512 0 (fun i =>
         pte <- load64 (pagetable + 8 * i);
         if negb (Z.land pte PTE_V =? 0) && (Z.land pte (Z.lor PTE_R (Z.lor PTE_W PTE_X)) =? 0)
         then freewalk_rec depth' (PTE2PA pte);; store64 (pagetable + 8 * i) 0
         else if negb (Z.land pte PTE_V =? 0) then panic "freewalk: leaf"
         else ret tt);;
       Kalloc.kfree pagetable)%K
  end.

Definition freewalk (pagetable : Z) : M machine unit := freewalk_rec 64 pagetable.

Fixpoint countmapped_rec (depth : nat) (pagetable : Z) : M machine Z :=
  match depth with
  | O => nofuel
  | S depth' =>
      (for_range 512 0 (fun i =>
         pte <- load64 (pagetable + 8 * i);
         if negb (Z.land pte PTE_V =? 0) && (Z.land pte (Z.lor PTE_R (Z.lor PTE_W PTE_X)) =? 0)
         then countmapped_rec depth' (PTE2PA pte);; ret tt
         else if negb (Z.land pte PTE_V =? 0) then modify (fun s => set_count (i32 (count s + 1)) s)
         else ret tt);;
       gets count)%K
  end.

Definition countmapped (pagetable : Z) : M machine Z := countmapped_rec 64 pagetable.

Definition uvmfree (pagetable sz : Z) : M machine unit :=
  ((if 0 <? sz then uvmunmap pagetable 0 (PGROUNDUP sz / PGSIZE) true else ret tt);;
   freewalk pagetable)%K.

(** The loop of [uvmcopy]: it ends with [None], or at [err] with the [i] reached. *)
Definition uvmcopy_body (old new sz i : Z) : M machine (Z + option Z) :=
  (if i <? sz then
     pte <- walk old i false;
     if pte =? 0 then panic "uvmcopy: pte should exist"
     else
       e <- load64 pte;
       if Z.land e PTE_V =? 0 then panic "uvmcopy: page not present"
       else
         let pa := PTE2PA e in
         let flags := PTE_FLAGS e in
         mem <- Kalloc.kalloc;
         if mem =? 0 then ret (inr (Some i))
         else
           memmoveM mem pa PGSIZE;;
           r <- mappages new i PGSIZE mem flags;
           if negb (r =? 0) then Kalloc.kfree mem;; ret (inr (Some i))
           else ret (inl (u64 (i + PGSIZE)))
   else ret (inr None))%K.

Definition uvmcopy (old new sz : Z) : M machine Z :=
  (r <- loop (uvmcopy_body old new sz) 0;
   match r with
   | None => ret 0
   | Some i => uvmunmap new 0 (i / PGSIZE) true;; ret (-1)
   end)%K.

Definition uvmclear (pagetable va : Z) : M machine unit :=
  (pte <- walk pagetable va false;
   if pte =? 0 then panic "uvmclear"
   else
     e <- load64 pte;
     store64 pte (Z.land e (Z.lnot PTE_U)))%K.

(** [src] is the list of the bytes at the kernel address [src]; the loop state
    is [dstva], the bytes still to copy and [len]. *)
Definition copyout_body (pagetable : Z) (st : Z * list Z * Z) : M machine (Z * list Z * Z + Z) :=
  let '(dstva, src, len) := st in
  (if 0 <? len then
     let va0 := PGROUNDDOWN dstva in
     pa0 <- walkaddr pagetable va0;
     if pa0 =? 0 then ret (inr (-1))
     else
       let n := PGSIZE - (dstva - va0) in
       let n := if len <? n then len else n in
       storebytes (pa0 + (dstva - va0)) (take (Z.to_nat n) src);;
       ret (inl (u64 (va0 + PGSIZE), drop (Z.to_nat n) src, len - n))
   else ret (inr 0))%K.

Definition copyout (pagetable dstva : Z) (src : list Z) (len : Z) : M machine Z :=
  loop (copyout_body pagetable) (dstva, src, len).

(** The result is the status and the bytes that were written to [dst]. *)
Definition copyin_body (pagetable : Z) (st : list Z * Z * Z) :
    M machine (list Z * Z * Z + Z * list Z) :=
  let '(dst, srcva, len) := st in
  (if 0 <? len then
     let va0 := PGROUNDDOWN srcva in
     pa0 <- walkaddr pagetable va0;
     if pa0 =? 0 then ret (inr (-1, dst))
     else
       let n := PGSIZE - (srcva - va0) in
       let n := if len <? n then len else n in
       bs <- gets (fun s => bytes (ram s) (pa0 + (srcva - va0)) n);
       ret (inl (dst ++ bs, u64 (va0 + PGSIZE), len - n))
   else ret (inr (0, dst)))%K.

Definition copyin (pagetable srcva len : Z) : M machine (Z * list Z) :=
  loop (copyin_body pagetable) ([], srcva, len).

(** The inner loop of [copyinstr] over the [n] bytes at [p]: whether a NUL was
    found, and the bytes written to [dst] (the NUL included). *)
Fixpoint copyinstr_scan (n : nat) (m : mem) (p : Z) : bool * list Z :=
  match n with
  | O => (false, [])
  | S n' =>
      if ld8 m p =? 0 then (true, [0])
      else let '(got_null, bs) := copyinstr_scan n' m (p + 1) in (got_null, ld8 m p :: bs)
  end.

Definition copyinstr_body (pagetable : Z) (st : list Z * Z * Z * bool) :
    M machine (list Z * Z * Z * bool + Z * list Z) :=
  let '(dst, srcva, max, got_null) := st in
  (if negb got_null && (0 <? max) then
     let va0 := PGROUNDDOWN srcva in
     pa0 <- walkaddr pagetable va0;
     if pa0 =? 0 then ret (inr (-1, dst))
     else
       let n := PGSIZE - (srcva - va0) in
       let n := if max <? n then max else n in
       r <- gets (fun s => copyinstr_scan (Z.to_nat n) (ram s) (pa0 + (srcva - va0)));
       let '(got_null, bs) := r in
       let consumed := Z.of_nat (length bs) - b2z got_null in
       ret (inl (dst ++ bs, u64 (va0 + PGSIZE), max - consumed, got_null))
   else ret (inr (if got_null then 0 else -1, dst)))%K.

Definition copyinstr (pagetable srcva max : Z) : M machine (Z * list Z) :=
  loop (copyinstr_body pagetable) ([], srcva, max, false).

(** kernel/proc.c: a page for each process's kernel stack. *)
Definition proc_mapstacks (kpgtbl : Z) : M machine unit :=
  for_range (Z.to_nat NPROC) 0 (fun p =>
    (pa <- Kalloc.kalloc;
     if pa =? 0 then panic "kalloc"
     else kvmmap kpgtbl (KSTACK p) pa PGSIZE (Z.lor PTE_R PTE_W)))%K.

Definition kvmmake : M machine Z :=
  (kpgtbl <- Kalloc.kalloc;
   memsetM kpgtbl 0 PGSIZE;;
   kvmmap kpgtbl UART0 UART0 PGSIZE (Z.lor PTE_R PTE_W);;
   kvmmap kpgtbl VIRTIO0 VIRTIO0 PGSIZE (Z.lor PTE_R PTE_W);;
   kvmmap kpgtbl PLIC PLIC 0x400000 (Z.lor PTE_R PTE_W);;
   et <- gets etext;
   kvmmap kpgtbl KERNBASE KERNBASE (et - KERNBASE) (Z.lor PTE_R PTE_X);;
   kvmmap kpgtbl et et (PHYSTOP - et) (Z.lor PTE_R PTE_W);;
   tr <- gets trampoline;
   kvmmap kpgtbl TRAMPOLINE tr PGSIZE (Z.lor PTE_R PTE_X);;
   proc_mapstacks kpgtbl;;
   ret kpgtbl)%K.

End Vm.
