(* ===== verification/VmWalk.v ===== *)
(** * Page-table walks

    A page table in memory represents a tree of table pages, indexed by paths:
    the path [[]] is the root, [[i]] the level-1 table under entry [i], and
    [[i; j]] a level-0 table, whose entries map pages.  The invariant says that
    the tables are distinct allocated pages and that the entries of the upper
    levels are what the tree says.  The lemmas describe [walk] and
    [mappages] over it. *)

From S2P Require Import Prelude Mem Riscv Str Locks Kalloc Vm.
Import Kalloc Vm.
#[local] Opaque Str.memset.

Abbreviation ptree := (gmap (list Z) Z).

(** The path of the table of level [n] that a virtual address goes through. *)
Definition vpath (n : nat) (va : Z) : list Z :=
  match n with
  | O => [PX 2 va; PX 1 va]
  | S O => [PX 2 va]
  | _ => []
  end.

Definition in_page (p a : Z) : Prop := p <= a < p + PGSIZE.

Definition entry_ok (m : mem) (a : Z) (o : option Z) : Prop :=
  match o with
  | Some q => ld64 m a = Z.lor (PA2PTE q) PTE_V
  | None => Z.land (ld64 m a) PTE_V = 0
  end.

Record pt_rep (e : Z) (m : mem) (root : Z) (T : ptree) : Prop := {
  rep_root : T !! [] = Some root;
  rep_ok x p : T !! x = Some p -> page_ok e p;
  rep_inj x y p : T !! x = Some p -> T !! y = Some p -> x = y;
  rep_dom x i q : T !! (x ++ [i]) = Some q -> 0 <= i < 512 /\ is_Some (T !! x) /\ (length x <= 1)%nat;
  rep_low i q : T !! [i] = Some q -> i < 256;
  rep_entry x p i : T !! x = Some p -> (length x <= 1)%nat -> 0 <= i < 512 ->
    entry_ok m (p + 8 * i) (T !! (x ++ [i]));
}.

Record vm_inv (s : machine) (root : Z) (T : ptree) (ps : list Z) : Prop := {
  vm_kmem : kmem_inv s ps;
  vm_lock : kmem_lock ∉ mlocks s;
  vm_rep : pt_rep (kend s) (ram s) root T;
  vm_sep x p : T !! x = Some p -> p ∉ ps;
}.

(** What a walk may do: take pages from the free list for new tables, zeroed,
    and leave existing level-0 tables and every page that is neither a table
    nor free as they are. *)
Record vm_ext (s : machine) (T : ptree) (ps : list Z)
    (s' : machine) (T' : ptree) (ps' : list Z) : Prop := {
  ext_T : T ⊆ T';
  ext_ps : ps' `suffix_of` ps;
  ext_new x p : T' !! x = Some p -> T !! x = None -> p ∈ ps;
  ext_acc p : p ∈ ps -> p ∈ ps' \/ exists x, T' !! x = Some p;
  ext_leaf x q a : T !! x = Some q -> length x = 2%nat -> in_page q a ->
    ld8 (ram s') a = ld8 (ram s) a;
  ext_zero x q a : T !! x = None -> T' !! x = Some q -> length x = 2%nat -> in_page q a ->
    ld8 (ram s') a = 0;
  ext_other a : (forall x p, T !! x = Some p -> ~ in_page p a) ->
    (forall p, p ∈ ps -> ~ in_page p a) -> ld8 (ram s') a = ld8 (ram s) a;
  ext_const : kend s' = kend s /\ mlocks s' = mlocks s /\ count s' = count s /\
    etext s' = etext s /\ trampoline s' = trampoline s;
}.

(** ** Small facts *)

Lemma lor_V_land x : Z.land (Z.lor x PTE_V) PTE_V = PTE_V.
Proof.
  apply Z.bits_inj'. intros i _. rewrite Z.land_spec, Z.lor_spec.
  by destruct (Z.testbit x i), (Z.testbit PTE_V i).
Qed.

Lemma PTE_V_range : 0 <= PTE_V < 1024.
Proof. by vm_compute. Qed.

Lemma table_entry_valid q : (Z.land (Z.lor (PA2PTE q) PTE_V) PTE_V =? 0) = false.
Proof. by rewrite lor_V_land. Qed.

Lemma page_ok_bounds e p : KERNBASE <= e -> page_ok e p -> 0 < p < 2 ^ 56 /\ p mod PGSIZE = 0.
Proof. intros He [? [? ?]]. split; [|done]. unfold PHYSTOP, KERNBASE in *. lia. Qed.

Lemma table_entry_pa e q :
  KERNBASE <= e -> page_ok e q -> PTE2PA (Z.lor (PA2PTE q) PTE_V) = q.
Proof.
  intros He Hq. destruct (page_ok_bounds e q He Hq). apply PTE2PA_lor; [lia|done|].
  apply PTE_V_range.
Qed.

Lemma in_page_disjoint e p q a :
  page_ok e p -> page_ok e q -> in_page p a -> in_page q a -> p = q.
Proof.
  intros Hp Hq H1 H2. destruct (decide (p = q)) as [|Hne]; [done|].
  destruct (page_disjoint e p q Hp Hq Hne); unfold in_page in *; lia.
Qed.

Lemma in_page_word p i a : 0 <= i < 512 -> p + 8 * i <= a < p + 8 * i + 8 -> in_page p a.
Proof. unfold in_page, PGSIZE. lia. Qed.

Lemma vpath_snoc n va : (n < 2)%nat -> vpath n va = vpath (S n) va ++ [PX (Z.of_nat (S n)) va].
Proof. destruct n as [|[|n]]; simpl; [done|done|lia]. Qed.

Lemma vpath_length n va : (n <= 2)%nat -> length (vpath n va) = (2 - n)%nat.
Proof. destruct n as [|[|[|n]]]; simpl; lia. Qed.

Lemma kmem_inv_ext s s' ps :
  kmem_inv s ps -> freelist s' = freelist s -> kend s' = kend s ->
  (forall q a, q ∈ ps -> in_page q a -> ld8 (ram s') a = ld8 (ram s) a) -> kmem_inv s' ps.
Proof.
  intros [Hc Hn Hp He] Hf Hk Hr. split; rewrite ?Hf, ?Hk; try done.
  eapply chain_ext; [|done]. intros p Hin. apply ld64_ext. intros i Hi.
  apply (Hr p); [done|]. unfold in_page, PGSIZE. lia.
Qed.

(** ** Extensions compose *)

Lemma vm_ext_refl s T ps : vm_ext s T ps s T ps.
Proof. split; try done; [intros; congruence | by left | intros; congruence]. Qed.

Lemma vm_ext_trans s T ps s1 T1 ps1 s2 T2 ps2 :
  vm_ext s T ps s1 T1 ps1 -> vm_ext s1 T1 ps1 s2 T2 ps2 -> vm_ext s T ps s2 T2 ps2.
Proof.
  intros E1 E2.
  assert (Hsuf : forall p, p ∈ ps1 -> p ∈ ps).
  { destruct (ext_ps _ _ _ _ _ _ E1) as [k ->]. set_solver. }
  split.
  - etrans; [apply (ext_T _ _ _ _ _ _ E1) | apply (ext_T _ _ _ _ _ _ E2)].
  - etrans; [apply (ext_ps _ _ _ _ _ _ E2) | apply (ext_ps _ _ _ _ _ _ E1)].
  - intros x p H2 H0. destruct (T1 !! x) as [p1|] eqn:H1.
    + pose proof (lookup_weaken _ _ _ _ H1 (ext_T _ _ _ _ _ _ E2)). simplify_eq.
      by eapply ext_new.
    + apply Hsuf. by eapply (ext_new _ _ _ _ _ _ E2).
  - intros p [Hp|[x Hx]]%(ext_acc _ _ _ _ _ _ E1); [by apply (ext_acc _ _ _ _ _ _ E2)|].
    right. exists x. by eapply lookup_weaken; [|apply (ext_T _ _ _ _ _ _ E2)].
  - intros x q a H0 Hlen Ha.
    rewrite (ext_leaf _ _ _ _ _ _ E2 x q a); [by eapply ext_leaf| |done..].
    by eapply lookup_weaken; [|apply (ext_T _ _ _ _ _ _ E1)].
  - intros x q a H0 H2 Hlen Ha. destruct (T1 !! x) as [q1|] eqn:H1.
    + pose proof (lookup_weaken _ _ _ _ H1 (ext_T _ _ _ _ _ _ E2)). simplify_eq.
      rewrite (ext_leaf _ _ _ _ _ _ E2 x q a) by done. by eapply ext_zero.
    + by eapply (ext_zero _ _ _ _ _ _ E2).
  - intros a HT Hps. rewrite (ext_other _ _ _ _ _ _ E2 a), (ext_other _ _ _ _ _ _ E1 a); try done.
    + intros x p H1. destruct (T !! x) as [p0|] eqn:H0.
      * pose proof (lookup_weaken _ _ _ _ H0 (ext_T _ _ _ _ _ _ E1)). simplify_eq. by eapply HT.
      * apply Hps. by eapply ext_new.
    + intros p Hp. apply Hps, Hsuf, Hp.
  - destruct (ext_const _ _ _ _ _ _ E1) as (?&?&?&?&?), (ext_const _ _ _ _ _ _ E2) as (?&?&?&?&?).
    repeat split; congruence.
Qed.

(** ** A new table page *)

(** The memory after a fresh page [p] is zeroed and entered at [tab + 8 * i]. *)
Definition install_state (p tab i : Z) (s : machine) : machine :=
  let s1 := alloc_state p s in
  let s2 := set_ram (Str.memset (ram s1) p 0 PGSIZE) s1 in
  set_ram (st64 (ram s2) (tab + 8 * i) (Z.lor (PA2PTE p) PTE_V)) s2.

Section install.
Context (s : machine) (root : Z) (T : ptree) (p : Z) (ps : list Z).
Context (x : list Z) (tab i : Z).
Hypothesis Hinv : vm_inv s root T (p :: ps).
Hypothesis Hx : T !! x = Some tab.
Hypothesis Hlen : (length x <= 1)%nat.
Hypothesis Hi : 0 <= i < 512.
Hypothesis Hlow : x = [] -> i < 256.
Hypothesis Hnew : T !! (x ++ [i]) = None.

Let s' := install_state p tab i s.
Let T' := <[x ++ [i] := p]> T.

Lemma install_facts :
  KERNBASE <= kend s /\ page_ok (kend s) p /\ page_ok (kend s) tab /\
  (forall y q, T !! y = Some q -> q <> p /\ page_ok (kend s) q) /\
  (forall q, q ∈ ps -> q <> p /\ page_ok (kend s) q /\ forall y, T !! y <> Some q).
Proof.
  destruct Hinv as [[Hc Hn Hp He] Hl Hr Hs].
  apply Forall_cons in Hp as [Hpp Hp]. apply NoDup_cons in Hn as [Hni Hn].
  split; [done|]. split; [done|]. split; [by eapply rep_ok|]. split.
  - intros y q Hy. split; [|by eapply rep_ok].
    intros ->. eapply (Hs y p); [done|]. left.
  - intros q Hq. split; [intros ->; done|]. split; [by eapply Forall_forall in Hp|].
    intros y Hy. eapply (Hs y q); [done|]. by right.
Qed.

(** Byte by byte, what the installation changes. *)
Lemma install_ld8_new a : in_page p a -> ld8 (ram s') a = 0.
Proof.
  destruct install_facts as (He & Hp & Htab & HT & Hps). intros Ha.
  simpl. rewrite ld8_st64_ne.
  - rewrite Str.ld8_memset_in by (unfold in_page in Ha; lia). done.
  - destruct (HT x tab Hx) as [Hne _].
    destruct (page_disjoint _ _ _ Hp Htab ltac:(done)); unfold in_page, PGSIZE in *; lia.
Qed.

Lemma install_ld8_old a :
  ~ in_page p a -> ~ (tab + 8 * i <= a < tab + 8 * i + 8) -> ld8 (ram s') a = ld8 (ram s) a.
Proof.
  intros Ha Hb. simpl. rewrite ld8_st64_ne by lia.
  unfold in_page in Ha. rewrite !Str.ld8_memset_out by lia. done.
Qed.

Lemma install_ld8_other q a :
  page_ok (kend s) q -> q <> p -> q <> tab -> in_page q a -> ld8 (ram s') a = ld8 (ram s) a.
Proof.
  destruct install_facts as (He & Hp & Htab & HT & Hps). intros Hq Hqp Hqt Ha.
  apply install_ld8_old.
  - intros Ha'. apply Hqp. by eapply in_page_disjoint.
  - intros Hw. apply Hqt. eapply in_page_disjoint; [done..|]. by eapply in_page_word.
Qed.

Lemma install_entry : ld64 (ram s') (tab + 8 * i) = Z.lor (PA2PTE p) PTE_V.
Proof.
  destruct install_facts as (He & Hp & Htab & HT & Hps).
  destruct (page_ok_bounds _ _ He Hp). simpl. rewrite ld64_st64_eq. apply u64_small.
  pose proof PTE_V_range. rewrite pte_lor_eq by lia.
  assert (0 <= p / 4096 <= 2 ^ 44); [|lia].
  split; [apply Z.div_pos; lia|]. apply Z.div_le_upper_bound; lia.
Qed.

Lemma install_word q j :
  0 <= j < 512 -> (exists y, T !! y = Some q) -> q + 8 * j <> tab + 8 * i ->
  ld64 (ram s') (q + 8 * j) = ld64 (ram s) (q + 8 * j).
Proof.
  destruct install_facts as (He & Hp & Htab & HT & Hps).
  intros Hj [y Hy] Hne. destruct (HT y q Hy) as [Hqp Hq].
  destruct (decide (q = tab)) as [->|Hqt].
  - apply ld64_ext. intros a Ha. apply install_ld8_old; [|lia].
    intros Ha'. apply Hqp. eapply in_page_disjoint; [done..| |done].
    by eapply in_page_word.
  - apply ld64_ext. intros a Ha. apply (install_ld8_other q); try done.
    by eapply in_page_word.
Qed.

Lemma install_fresh y j : T !! (x ++ [i] ++ [j]) = Some y -> False.
Proof.
  intros Hy. pose proof (vm_rep _ _ _ _ Hinv) as Hr. rewrite app_assoc in Hy.
  destruct (rep_dom _ _ _ _ Hr _ _ _ Hy) as (_ & [? ?] & _). congruence.
Qed.

Lemma install_rep : pt_rep (kend s) (ram s') root T'.
Proof.
  destruct install_facts as (He & Hp & Htab & HT & Hps).
  pose proof (vm_rep _ _ _ _ Hinv) as Hr.
  assert (Hxne : forall y : list Z, x ++ [i] <> y -> T' !! y = T !! y).
  { intros y Hy. by apply lookup_insert_ne. }
  split.
  - rewrite Hxne by (by destruct x). apply (rep_root _ _ _ _ Hr).
  - intros y q. destruct (decide (x ++ [i] = y)) as [<-|Hne].
    + unfold T'. rewrite lookup_insert_eq. by intros [= <-].
    + rewrite Hxne by done. by eapply rep_ok.
  - intros y z q. destruct (decide (x ++ [i] = y)) as [<-|Hy], (decide (x ++ [i] = z)) as [<-|Hz];
      rewrite ?(Hxne y), ?(Hxne z) by done; unfold T'; rewrite ?lookup_insert_eq; try done.
    + intros [= <-] Hq. by destruct (HT z p Hq).
    + intros Hq [= <-]. by destruct (HT y p Hq).
    + by eapply rep_inj.
  - intros y j q. destruct (decide (x ++ [i] = y ++ [j])) as [E|Hne].
    + intros _. apply app_inj_tail in E as [<- <-]. split; [done|].
      split; [|done]. destruct (decide (x ++ [i] = x)) as [E|].
      { apply (f_equal length) in E. rewrite length_app in E. simpl in E. lia. }
      rewrite Hxne by done. by rewrite Hx.
    + rewrite Hxne by done. intros Hq. destruct (rep_dom _ _ _ _ Hr _ _ _ Hq) as (? & Hs & ?).
      split; [done|]. split; [|done]. destruct (decide (x ++ [i] = y)) as [<-|].
      * destruct Hs. congruence.
      * by rewrite Hxne.
  - intros j q. destruct (decide (x ++ [i] = [j])) as [E|Hne]; [|rewrite Hxne by done; by apply (rep_low _ _ _ _ Hr)].
    intros _. apply (app_inj_tail x []) in E as [-> <-]. by apply Hlow.
  - intros y q j Hq Hl Hj. destruct (decide (x ++ [i] = y)) as [<-|Hy].
    + unfold T' in Hq. rewrite lookup_insert_eq in Hq. injection Hq as <-.
      rewrite Hxne; [|rewrite <- app_assoc; intros E%app_inv_head; done].
      destruct (T !! ((x ++ [i]) ++ [j])) as [z|] eqn:E.
      { rewrite <- app_assoc in E. by apply install_fresh in E. }
      simpl. rewrite ld64_zero; [done|]. intros a Ha. apply install_ld8_new.
      by eapply in_page_word.
    + rewrite Hxne in Hq by done.
      destruct (decide (x ++ [i] = y ++ [j])) as [E|Hne].
      * apply app_inj_tail in E as [<- <-]. unfold T'. rewrite lookup_insert_eq.
        assert (q = tab) as E by congruence. rewrite E. apply install_entry.
      * rewrite Hxne by done. unfold entry_ok. rewrite install_word; [|done|eauto|].
        -- by apply (rep_entry _ _ _ _ Hr).
        -- intros E. assert (q = tab) as ->.
           { destruct (HT y q Hq) as [_ Hqok]. eapply (in_page_disjoint _ q tab (q + 8 * j)); try done.
             - apply (in_page_word _ j); lia.
             - rewrite E. apply (in_page_word _ i); lia. }
           apply Hne. assert (j = i) as -> by lia. f_equal. symmetry.
           by eapply (rep_inj _ _ _ _ Hr).
Qed.

Lemma install_inv : vm_inv s' root T' ps.
Proof.
  destruct install_facts as (He & Hp & Htab & HT & Hps). split.
  - pose proof (alloc_inv _ _ _ (vm_kmem _ _ _ _ Hinv)) as Ha.
    eapply kmem_inv_ext; [exact Ha|done|done|]. intros q a Hq Hin.
    destruct (Hps q Hq) as (Hqp & Hqok & HqT).
    rewrite (install_ld8_other q); try done; [|intros ->; by eapply HqT].
    simpl. rewrite Str.ld8_memset_out; [done|].
    destruct (page_disjoint _ _ _ Hp Hqok ltac:(done)); unfold in_page in *; lia.
  - apply Hinv.
  - apply install_rep.
  - intros y q Hy. destruct (decide (x ++ [i] = y)) as [<-|Hne].
    + unfold T' in Hy. rewrite lookup_insert_eq in Hy. injection Hy as <-. intros Hin.
      by destruct (Hps p Hin).
    + unfold T' in Hy. rewrite lookup_insert_ne in Hy by done.
      intros Hin. destruct (Hps q Hin) as (_ & _ & Hq). by eapply Hq.
Qed.

Lemma install_ext : vm_ext s T (p :: ps) s' T' ps.
Proof.
  destruct install_facts as (He & Hp & Htab & HT & Hps). split.
  - by apply insert_subseteq.
  - by exists [p].
  - intros y q Hy Hn. unfold T' in Hy. rewrite lookup_insert in Hy.
    case_decide; [injection Hy as <-; left | congruence].
  - intros q [->|Hq]%elem_of_cons; [right|by left]. exists (x ++ [i]). apply lookup_insert_eq.
  - intros y q a Hy Hl Ha. destruct (HT y q Hy) as [Hqp Hq].
    apply (install_ld8_other q); try done. intros ->.
    pose proof (vm_rep _ _ _ _ Hinv) as Hr. pose proof (rep_inj _ _ _ _ Hr x y tab Hx Hy) as <-. lia.
  - intros y q a Hn Hy Hl Ha. unfold T' in Hy. rewrite lookup_insert in Hy.
    case_decide; [injection Hy as <-; by apply install_ld8_new | congruence].
  - intros a Ht Hf. apply install_ld8_old.
    + apply Hf. left.
    + intros Hw. apply (Ht x tab Hx). by eapply in_page_word.
  - done.
Qed.
End install.

(** ** Walks *)

Lemma vpath_closed e m root T n va :
  pt_rep e m root T -> (n <= 2)%nat -> T !! vpath n va = None -> T !! vpath 0 va = None.
Proof.
  intros Hr. induction n as [|n IH]; intros Hn HN; [done|]. apply IH; [lia|].
  destruct (T !! vpath n va) as [q|] eqn:E; [|done].
  rewrite vpath_snoc in E by lia. apply (rep_dom _ _ _ _ Hr) in E as (_ & [? ?] & _). congruence.
Qed.

(** The address of the level-0 entry of [va], 0 when it has no level-0 table. *)
Definition leaf_addr (T : ptree) (va : Z) : Z :=
  match T !! vpath 0 va with Some q => q + 8 * PX 0 va | None => 0 end.

(** The level-0 entry of [va], 0 when it has no level-0 table. *)
Definition pte_of (m : mem) (T : ptree) (va : Z) : Z :=
  match T !! vpath 0 va with Some q => ld64 m (q + 8 * PX 0 va) | None => 0 end.

Lemma entry_step e m root T n va tab :
  KERNBASE <= e -> pt_rep e m root T -> (n < 2)%nat -> T !! vpath (S n) va = Some tab ->
  match T !! vpath n va with
  | Some q => (Z.land (ld64 m (tab + 8 * PX (Z.of_nat (S n)) va)) PTE_V =? 0) = false /\
              PTE2PA (ld64 m (tab + 8 * PX (Z.of_nat (S n)) va)) = q
  | None => (Z.land (ld64 m (tab + 8 * PX (Z.of_nat (S n)) va)) PTE_V =? 0) = true
  end.
Proof.
  intros He Hr Hn Ht. rewrite vpath_snoc by lia.
  pose proof (rep_entry _ _ _ _ Hr _ _ (PX (Z.of_nat (S n)) va) Ht) as Hent.
  rewrite vpath_length in Hent by lia.
  specialize (Hent ltac:(lia) (PX_range (Z.of_nat (S n)) va ltac:(lia))).
  destruct (T !! (vpath (S n) va ++ _)) as [q|] eqn:E; simpl in Hent.
  - rewrite Hent. split; [apply table_entry_valid|].
    eapply table_entry_pa; [done|]. by eapply rep_ok.
  - by rewrite Hent.
Qed.

(** Every entry of a table is in memory the kernel maps. *)
Lemma table_addr_high e m root T x q i : KERNBASE <= e -> pt_rep e m root T -> T !! x = Some q -> 0 <= i -> KERNBASE <= q + 8 * i.
Proof. intros He Hr Hx Hi. destruct (rep_ok _ _ _ _ Hr _ _ Hx) as [_ ?]. lia. Qed.

Lemma leaf_addr_high e m root T va q : KERNBASE <= e -> pt_rep e m root T -> T !! vpath 0 va = Some q -> KERNBASE <= leaf_addr T va.
Proof. intros He Hr Hq. unfold leaf_addr. rewrite Hq. eapply table_addr_high; [done..|]. apply PX_range. lia. Qed.

Lemma walk_levels_noalloc n va s root T tab :
  KERNBASE <= kend s -> pt_rep (kend s) (ram s) root T -> (n <= 2)%nat ->
  T !! vpath n va = Some tab ->
  walk_levels n tab va false s = Ret (leaf_addr T va) s.
Proof.
  intros He Hr. revert tab; induction n as [|n IH]; intros tab Hn Ht.
  - unfold leaf_addr. by rewrite Ht.
  - pose proof (entry_step _ _ _ _ n va tab He Hr ltac:(lia) Ht) as Hs.
    assert (KERNBASE <= tab + 8 * PX (Z.of_nat (S n)) va) as Hhi by (eapply table_addr_high; [done..|]; apply PX_range; lia).
    cbn [walk_levels]. unfold bind at 1. rewrite load64_eq by done. cbn [bindr].
    destruct (T !! vpath n va) as [q|] eqn:E.
    + destruct Hs as [-> Hq]. cbn [negb]. rewrite Hq. apply IH; [lia|done].
    + rewrite Hs. cbn [negb]. unfold leaf_addr.
      by rewrite (vpath_closed _ _ _ _ n va Hr) by (done || lia).
Qed.

(** [walk] with [alloc] unset returns the entry's address and changes nothing. *)
Lemma walk_noalloc va s root T :
  KERNBASE <= kend s -> pt_rep (kend s) (ram s) root T -> va < MAXVA ->
  walk root va false s = Ret (leaf_addr T va) s.
Proof.
  intros He Hr Hv. unfold walk. rewrite (proj2 (Z.leb_gt _ _)) by done.
  eapply walk_levels_noalloc; [done..| |]; [lia|]. apply (rep_root _ _ _ _ Hr).
Qed.

Lemma PX_low va : 0 <= va < MAXVA -> PX 2 va < 256.
Proof.
  change MAXVA with (2 ^ 38). intros Hv. rewrite PX_eq by lia. change (12 + 9 * 2) with 30.
  assert (0 <= va / 2 ^ 30 < 256) by (split; [apply Z.div_pos; lia|apply Z.div_lt_upper_bound; lia]).
  rewrite Z.mod_small; lia.
Qed.

Lemma walk_levels_alloc n va s root T ps tab :
  (n <= 2)%nat -> 0 <= va < MAXVA -> vm_inv s root T ps -> T !! vpath n va = Some tab ->
  exists r s' T' ps', walk_levels n tab va true s = Ret r s' /\
    vm_inv s' root T' ps' /\ vm_ext s T ps s' T' ps' /\ (length ps <= length ps' + n)%nat /\
    ((r = 0 /\ ps' = [] /\ T !! vpath 0 va = None) \/
     is_Some (T' !! vpath 0 va) /\ r = leaf_addr T' va).
Proof.
  revert s T ps tab; induction n as [|n IH]; intros s T ps tab Hn Hva Hinv Ht.
  - exists (tab + 8 * PX 0 va), s, T, ps. split; [done|]. split; [done|].
    split; [apply vm_ext_refl|]. split; [lia|]. right. unfold leaf_addr. by rewrite Ht.
  - pose proof (inv_end _ _ (vm_kmem _ _ _ _ Hinv)) as He.
    pose proof (vm_rep _ _ _ _ Hinv) as Hr.
    pose proof (entry_step _ _ _ _ n va tab He Hr ltac:(lia) Ht) as Hs.
    assert (KERNBASE <= tab + 8 * PX (Z.of_nat (S n)) va) as Hhi by (eapply table_addr_high; [done..|]; apply PX_range; lia).
    cbn [walk_levels]. unfold bind at 1. rewrite load64_eq by done. cbn [bindr].
    destruct (T !! vpath n va) as [q|] eqn:E.
    + destruct Hs as [-> Hq]. cbn [negb]. rewrite Hq.
      destruct (IH s T ps q) as (r & s' & T' & ps' & Hw & Hi' & He' & Hlen & Hr'); [lia|done..|].
      exists r, s', T', ps'. split_and!; [done..|lia|done].
    + rewrite Hs. cbn [negb].
      pose proof (kalloc_spec _ _ (vm_kmem _ _ _ _ Hinv) (vm_lock _ _ _ _ Hinv)) as Hk.
      unfold bind. destruct ps as [|p ps].
      * rewrite Hk. simpl. exists 0, s, T, []. split; [done|]. split; [done|].
        split; [apply vm_ext_refl|]. split; [simpl; lia|]. left. split; [done|]. split; [done|].
        by eapply (vpath_closed _ _ _ _ n); [|lia|].
      * destruct Hk as [-> _]. cbn [bindr].
        assert (p <> 0) as Hp0.
        { apply (head_nonzero _ _ _ (vm_kmem _ _ _ _ Hinv)). }
        rewrite (proj2 (Z.eqb_neq _ _) Hp0). cbn [bindr memsetM modify]. rewrite store64_eq by done. cbn [bindr].
        set (i := PX (Z.of_nat (S n)) va) in *.
        pose proof (PX_range (Z.of_nat (S n)) va ltac:(lia)) as Hi.
        rewrite vpath_snoc in E by lia.
        assert (length (vpath (S n) va) <= 1)%nat as Hl by (rewrite vpath_length; lia).
        assert (vpath (S n) va = [] -> i < 256) as Hlow.
        { destruct n as [|[|n]]; [done| |lia]. intros _. by apply PX_low. }
        pose proof (install_inv _ _ _ _ _ _ _ _ Hinv Ht Hl Hi Hlow E) as Hinv'.
        pose proof (install_ext _ _ _ _ _ _ _ _ Hinv Ht Hl Hi E) as Hext.
        destruct (IH (install_state p tab i s) (<[vpath (S n) va ++ [i] := p]> T) ps p)
          as (r & s' & T' & ps' & Hw & Hi' & He' & Hlen & Hr'); [lia|done|done| |].
        { rewrite vpath_snoc by lia. apply lookup_insert_eq. }
        exists r, s', T', ps'. split; [exact Hw|]. split; [done|].
        split; [by eapply vm_ext_trans|]. split; [simpl; lia|].
        destruct Hr' as [(-> & -> & Hn')|Hr']; [left|by right].
        split; [done|]. split; [done|].
        destruct (T !! vpath 0 va) as [q|] eqn:E0; [|done].
        unfold i in *. by rewrite (lookup_weaken _ _ _ _ E0 (ext_T _ _ _ _ _ _ Hext)) in Hn'.
Qed.

Lemma walk_alloc va s root T ps :
  vm_inv s root T ps -> 0 <= va < MAXVA ->
  exists r s' T' ps', walk root va true s = Ret r s' /\
    vm_inv s' root T' ps' /\ vm_ext s T ps s' T' ps' /\ (length ps <= length ps' + 2)%nat /\
    ((r = 0 /\ ps' = [] /\ T !! vpath 0 va = None) \/
     is_Some (T' !! vpath 0 va) /\ r = leaf_addr T' va).
Proof.
  intros Hinv Hv. unfold walk. rewrite (proj2 (Z.leb_gt _ _)) by lia.
  apply walk_levels_alloc; [lia|done|done|]. apply (rep_root _ _ _ _ (vm_rep _ _ _ _ Hinv)).
Qed.

(** An extension maps what was mapped and nothing more. *)
Lemma ext_pte s T ps s' T' ps' va :
  vm_ext s T ps s' T' ps' -> pte_of (ram s') T' va = pte_of (ram s) T va.
Proof.
  intros Hext. unfold pte_of.
  assert (length (vpath 0 va) = 2%nat) as Hl by done.
  pose proof (PX_range 0 va ltac:(lia)) as Hi.
  destruct (T !! vpath 0 va) as [q|] eqn:E.
  - rewrite (lookup_weaken _ _ _ _ E (ext_T _ _ _ _ _ _ Hext)).
    apply ld64_ext. intros a Ha. eapply ext_leaf; [done..|]. by eapply in_page_word.
  - destruct (T' !! vpath 0 va) as [q|] eqn:E'; [|done].
    apply ld64_zero. intros a Ha. eapply ext_zero; [done..|]. by eapply in_page_word.
Qed.
