(* ===== verification/VmMap.v ===== *)
(** * Mapping pages

    What [mappages] does to the page table it is given, and what [walkaddr]
    reads back. *)

From S2P Require Import Prelude Mem Riscv Str Locks Kalloc Vm VmWalk.
Import Kalloc Vm.

(** What an operation on a page table leaves alone: tables stay where they
    are, new ones come from the free list, no free page is lost, and no page
    that is neither a table nor free changes. *)
Record vm_frame (s : machine) (T : ptree) (ps : list Z)
    (s' : machine) (T' : ptree) (ps' : list Z) : Prop := {
  fr_T : T ⊆ T';
  fr_ps : ps' `suffix_of` ps;
  fr_new x p : T' !! x = Some p -> T !! x = None -> p ∈ ps;
  fr_acc p : p ∈ ps -> p ∈ ps' \/ exists x, T' !! x = Some p;
  fr_other a : (forall x p, T !! x = Some p -> ~ in_page p a) ->
    (forall p, p ∈ ps -> ~ in_page p a) -> ld8 (ram s') a = ld8 (ram s) a;
  fr_const : kend s' = kend s /\ mlocks s' = mlocks s /\ count s' = count s /\
    etext s' = etext s /\ trampoline s' = trampoline s;
}.

Lemma ext_frame s T ps s' T' ps' : vm_ext s T ps s' T' ps' -> vm_frame s T ps s' T' ps'.
Proof. intros []. by split. Qed.

Lemma vm_frame_refl s T ps : vm_frame s T ps s T ps.
Proof. apply ext_frame, vm_ext_refl. Qed.

Lemma vm_frame_trans s T ps s1 T1 ps1 s2 T2 ps2 :
  vm_frame s T ps s1 T1 ps1 -> vm_frame s1 T1 ps1 s2 T2 ps2 -> vm_frame s T ps s2 T2 ps2.
Proof.
  intros E1 E2.
  assert (Hsuf : forall p, p ∈ ps1 -> p ∈ ps).
  { destruct (fr_ps _ _ _ _ _ _ E1) as [k ->]. intros. apply elem_of_app. by right. }
  split.
  - etrans; [apply (fr_T _ _ _ _ _ _ E1) | apply (fr_T _ _ _ _ _ _ E2)].
  - etrans; [apply (fr_ps _ _ _ _ _ _ E2) | apply (fr_ps _ _ _ _ _ _ E1)].
  - intros x p H2 H0. destruct (T1 !! x) as [p1|] eqn:H1.
    + pose proof (lookup_weaken _ _ _ _ H1 (fr_T _ _ _ _ _ _ E2)). simplify_eq.
      by eapply fr_new.
    + apply Hsuf. by eapply (fr_new _ _ _ _ _ _ E2).
  - intros p [Hp|[x Hx]]%(fr_acc _ _ _ _ _ _ E1); [by apply (fr_acc _ _ _ _ _ _ E2)|].
    right. exists x. by eapply lookup_weaken; [|apply (fr_T _ _ _ _ _ _ E2)].
  - intros a HT Hps. rewrite (fr_other _ _ _ _ _ _ E2 a), (fr_other _ _ _ _ _ _ E1 a); try done.
    + intros x p H1. destruct (T !! x) as [p0|] eqn:H0.
      * pose proof (lookup_weaken _ _ _ _ H0 (fr_T _ _ _ _ _ _ E1)). simplify_eq. by eapply HT.
      * apply Hps. by eapply fr_new.
    + intros p Hp. apply Hps, Hsuf, Hp.
  - destruct (fr_const _ _ _ _ _ _ E1) as (?&?&?&?&?), (fr_const _ _ _ _ _ _ E2) as (?&?&?&?&?).
    repeat split; congruence.
Qed.

(** Memory that agrees on the table pages holds the same page table. *)
Lemma tables_ext e m m' root T :
  pt_rep e m root T ->
  (forall x q a, T !! x = Some q -> in_page q a -> ld8 m' a = ld8 m a) ->
  pt_rep e m' root T /\ forall va, pte_of m' T va = pte_of m T va.
Proof.
  intros Hr Htab.
  assert (forall x q i, T !! x = Some q -> 0 <= i < 512 ->
            ld64 m' (q + 8 * i) = ld64 m (q + 8 * i)) as Hword.
  { intros x q i Hx Hi. apply ld64_ext. intros a Ha. eapply Htab; [done|].
    by eapply in_page_word. }
  split.
  - split; try (by apply Hr). intros x q i Hx Hlen Hi. unfold entry_ok.
    rewrite (Hword x q i) by done. by apply (rep_entry _ _ _ _ Hr).
  - intros v. unfold pte_of. destruct (T !! vpath 0 v) as [q|] eqn:E; [|done].
    eapply Hword; [done|]. apply PX_range; lia.
Qed.

(** ** Pages of virtual addresses *)

Lemma same_page va va' :
  0 <= va < MAXVA -> 0 <= va' < MAXVA ->
  vpath 0 va = vpath 0 va' /\ PX 0 va = PX 0 va' <-> PGROUNDDOWN va = PGROUNDDOWN va'.
Proof.
  intros H H'. simpl. split.
  - intros [[= H2 H1] H0]. by apply PX_inj.
  - intros E. rewrite <- (PX_page 2 va), <- (PX_page 1 va), <- (PX_page 0 va) by lia.
    rewrite E, !PX_page by lia. done.
Qed.

Lemma vpath_page va : vpath 0 (PGROUNDDOWN va) = vpath 0 va.
Proof. simpl. by rewrite !PX_page by lia. Qed.

Lemma pte_of_page m T va : pte_of m T (PGROUNDDOWN va) = pte_of m T va.
Proof. unfold pte_of. rewrite vpath_page, PX_page by lia. done. Qed.

Lemma PGROUNDDOWN_bounds a :
  0 <= a -> 0 <= PGROUNDDOWN a <= a /\ a < PGROUNDDOWN a + PGSIZE /\ PGROUNDDOWN a mod PGSIZE = 0.
Proof.
  intros. rewrite PGROUNDDOWN_eq. unfold PGSIZE.
  pose proof (Z.mod_pos_bound a 4096 ltac:(lia)). pose proof (Z.mod_le a 4096 ltac:(lia) ltac:(lia)).
  repeat split; try lia. rewrite Zminus_mod_idemp_r, Z.sub_diag. done.
Qed.

Lemma PGROUNDDOWN_aligned a : a mod PGSIZE = 0 -> PGROUNDDOWN a = a.
Proof. intros. rewrite PGROUNDDOWN_eq. lia. Qed.

(** For an aligned [a], the page of [va] is [a]'s exactly when it lies in it. *)
Lemma page_of_iff a va :
  0 <= va -> a mod PGSIZE = 0 -> PGROUNDDOWN va = a <-> a <= va < a + PGSIZE.
Proof.
  intros Hv Ha. destruct (PGROUNDDOWN_bounds va Hv) as (Hb & Hc & Hd).
  split; [lia|]. intros Hr. apply Z.mod_divide in Ha as [k ->], Hd as [j Hj]; [|done..].
  unfold PGSIZE in *. lia.
Qed.

(** ** Writing a level-0 entry *)

Section leaf.
Context (s : machine) (root : Z) (T : ptree) (ps : list Z) (va q v : Z).
Hypothesis Hinv : vm_inv s root T ps.
Hypothesis Hq : T !! vpath 0 va = Some q.

Let s' := set_ram (st64 (ram s) (leaf_addr T va) v) s.

Lemma leaf_addr_eq : leaf_addr T va = q + 8 * PX 0 va.
Proof. unfold leaf_addr. by rewrite Hq. Qed.

Lemma leaf_page_ok : KERNBASE <= kend s /\ page_ok (kend s) q.
Proof.
  split; [apply (inv_end _ _ (vm_kmem _ _ _ _ Hinv))|].
  by eapply (rep_ok _ _ _ _ (vm_rep _ _ _ _ Hinv)).
Qed.

Lemma leaf_addr_nonzero : leaf_addr T va <> 0.
Proof.
  destruct leaf_page_ok as [He [_ ?]]. rewrite leaf_addr_eq.
  pose proof (PX_range 0 va ltac:(lia)). unfold KERNBASE in *. lia.
Qed.

Lemma leaf_store_out a : ~ in_page q a -> ld8 (ram s') a = ld8 (ram s) a.
Proof.
  intros Ha. simpl. rewrite leaf_addr_eq. apply ld8_st64_ne.
  pose proof (PX_range 0 va ltac:(lia)). unfold in_page, PGSIZE in Ha. lia.
Qed.

Lemma leaf_store_inv : vm_inv s' root T ps.
Proof.
  destruct leaf_page_ok as [He Hok]. pose proof (vm_rep _ _ _ _ Hinv) as Hr. split.
  - eapply kmem_inv_ext; [apply (vm_kmem _ _ _ _ Hinv)|done|done|].
    intros p a Hp Ha. apply leaf_store_out. intros Ha'.
    assert (p = q) as ->.
    { eapply in_page_disjoint; [|exact Hok|done..].
      by eapply (Forall_forall _ _) in Hp; [|apply (inv_pages _ _ (vm_kmem _ _ _ _ Hinv))]. }
    by eapply (vm_sep _ _ _ _ Hinv).
  - apply (vm_lock _ _ _ _ Hinv).
  - split; try (by apply Hr).
    intros x p i Hx Hl Hi. unfold entry_ok.
    assert (ld64 (ram s') (p + 8 * i) = ld64 (ram s) (p + 8 * i)) as ->.
    { apply ld64_ext. intros a Ha. apply leaf_store_out. intros Ha'.
      assert (p = q) as ->.
      { eapply in_page_disjoint; [|exact Hok| |exact Ha']; [by eapply rep_ok|].
        by eapply in_page_word. }
      pose proof (rep_inj _ _ _ _ Hr _ _ _ Hx Hq) as ->. simpl in Hl. lia. }
    by apply (rep_entry _ _ _ _ Hr).
  - apply (vm_sep _ _ _ _ Hinv).
Qed.

Lemma leaf_store_frame : vm_frame s T ps s' T ps.
Proof.
  split; try done.
  - intros. congruence.
  - by left.
  - intros a HT _. apply leaf_store_out. by eapply HT.
Qed.

Lemma leaf_store_pte va' :
  0 <= va < MAXVA -> 0 <= va' < MAXVA ->
  pte_of (ram s') T va' =
  if decide (PGROUNDDOWN va' = PGROUNDDOWN va) then u64 v else pte_of (ram s) T va'.
Proof.
  intros Hv Hv'. destruct leaf_page_ok as [He Hok]. pose proof (vm_rep _ _ _ _ Hinv) as Hr.
  pose proof (PX_range 0 va ltac:(lia)). pose proof (PX_range 0 va' ltac:(lia)).
  case_decide as Hd.
  - apply same_page in Hd as [Hd1 Hd2]; [|done..].
    unfold pte_of. rewrite Hd1, Hq, Hd2. simpl. rewrite leaf_addr_eq. apply ld64_st64_eq.
  - unfold pte_of. destruct (T !! vpath 0 va') as [q'|] eqn:Eq; [|done].
    destruct (decide (q = q')) as [<-|Hne].
    + simpl. rewrite leaf_addr_eq. apply ld64_st64_ne.
      assert (PX 0 va' <> PX 0 va); [|lia]. intros E. apply Hd, same_page; [done..|].
      split; [|done]. by eapply (rep_inj _ _ _ _ Hr).
    + apply ld64_ext. intros a Ha. apply leaf_store_out. intros Ha'. apply Hne.
      eapply in_page_disjoint; [exact Hok| |exact Ha'|]; [by eapply rep_ok|].
      by eapply in_page_word.
Qed.
End leaf.

(** ** mappages *)

(** [k] pages from [a] on are mapped to the pages from [pa] on; nothing else
    in the table changed. *)
Definition maps_range (m : mem) (T : ptree) (m' : mem) (T' : ptree) (a pa perm k : Z) : Prop :=
  forall va, 0 <= va < MAXVA ->
    pte_of m' T' va =
    if decide (a <= va < a + k * PGSIZE)
    then Z.lor (Z.lor (PA2PTE (pa + (PGROUNDDOWN va - a))) perm) PTE_V
    else pte_of m T va.

Lemma maps_range_0 m T a pa perm : maps_range m T m T a pa perm 0.
Proof. intros va Hv. rewrite decide_False by lia. done. Qed.

Lemma maps_range_app m T m1 T1 m2 T2 a pa perm k :
  0 <= k ->
  maps_range m T m1 T1 a pa perm 1 ->
  maps_range m1 T1 m2 T2 (a + PGSIZE) (pa + PGSIZE) perm k ->
  maps_range m T m2 T2 a pa perm (k + 1).
Proof.
  intros Hk H1 H2 va Hv. rewrite (H2 va Hv), (H1 va Hv).
  repeat case_decide; try (unfold PGSIZE in *; lia); try done.
  do 3 f_equal. lia.
Qed.

Lemma pte_value_u64 pa perm :
  0 <= pa < 2 ^ 56 -> 0 <= perm < 1024 ->
  u64 (Z.lor (Z.lor (PA2PTE pa) perm) PTE_V) = Z.lor (Z.lor (PA2PTE pa) perm) PTE_V.
Proof.
  intros Hpa Hperm. rewrite <- Z.lor_assoc.
  assert (0 <= Z.lor perm PTE_V < 1024) as Hf.
  { split; [apply Z.lor_nonneg; split; [lia | by vm_compute]|].
    destruct (decide (Z.lor perm PTE_V = 0)); [lia|].
    assert (0 <= Z.lor perm PTE_V) by (apply Z.lor_nonneg; split; [lia | by vm_compute]).
    apply Z.log2_lt_pow2 with (b := 10); [lia|].
    rewrite Z.log2_lor by (first [lia | by vm_compute]).
    change (Z.log2 PTE_V) with 0. pose proof (Z.log2_nonneg perm).
    assert (Z.log2 perm < 10); [|lia].
    destruct (decide (perm = 0)) as [->|]; [done|]. apply Z.log2_lt_pow2; lia. }
  rewrite pte_lor_eq by lia. apply u64_small.
  assert (0 <= pa / 4096 <= 2 ^ 44); [|lia].
  split; [apply Z.div_pos; lia|]. apply Z.div_le_upper_bound; lia.
Qed.

Lemma mappages_step root a pa last perm s T ps :
  vm_inv s root T ps -> 0 <= a < MAXVA -> a mod PGSIZE = 0 ->
  0 <= pa < 2 ^ 56 -> 0 <= perm < 1024 ->
  Z.land (pte_of (ram s) T a) PTE_V = 0 ->
  exists s' T' ps', vm_inv s' root T' ps' /\ vm_frame s T ps s' T' ps' /\
    (length ps <= length ps' + 2)%nat /\
    (mappages_body root last perm (a, pa) s = Ret (inr (-1)) s' /\ ps' = [] /\
       maps_range (ram s) T (ram s') T' a pa perm 0 \/
     mappages_body root last perm (a, pa) s =
       Ret (if a =? last then inr 0 else inl (u64 (a + PGSIZE), u64 (pa + PGSIZE))) s' /\
       maps_range (ram s) T (ram s') T' a pa perm 1).
Proof.
  intros Hinv Ha Hal Hpa Hperm Hun.
  destruct (walk_alloc a s root T ps Hinv ltac:(lia)) as (r & s1 & T1 & ps1 & Hw & Hinv1 & Hext & Hlen & Hr).
  unfold mappages_body, bind. rewrite Hw. cbn [bindr].
  destruct Hr as [(-> & -> & _)|[[q Hq] ->]].
  - exists s1, T1, []. split; [done|]. split; [by apply ext_frame|]. split; [done|]. left.
    split; [done|]. split; [done|]. intros va Hv. rewrite decide_False by lia.
    by eapply ext_pte.
  - rewrite (proj2 (Z.eqb_neq _ _) (leaf_addr_nonzero _ _ _ _ _ _ Hinv1 Hq)).
    assert (KERNBASE <= leaf_addr T1 a) as Hhi by (eapply leaf_addr_high; [apply (inv_end _ _ (vm_kmem _ _ _ _ Hinv1))|apply (vm_rep _ _ _ _ Hinv1)|done]).
    rewrite load64_eq by done. cbn [bindr].
    assert (ld64 (ram s1) (leaf_addr T1 a) = pte_of (ram s) T a) as E.
    { rewrite <- (ext_pte _ _ _ _ _ _ a Hext). unfold leaf_addr, pte_of. by rewrite Hq. }
    rewrite E, Hun. cbn [negb Z.eqb]. rewrite store64_eq by done. cbn [bindr].
    eexists _, T1, ps1. split; [by eapply leaf_store_inv|].
    split; [eapply vm_frame_trans; [by apply ext_frame|by eapply leaf_store_frame]|].
    split; [done|]. right. split; [by destruct (a =? last)|].
    intros va Hv. erewrite leaf_store_pte by done. rewrite pte_value_u64 by done.
    rewrite (PGROUNDDOWN_aligned a) by done.
    destruct (decide (a <= va < a + 1 * PGSIZE)) as [Hin|Hout].
    + assert (PGROUNDDOWN va = a) as Hpg by (apply page_of_iff; [lia|done|lia]).
      rewrite decide_True by done. do 3 f_equal. lia.
    + rewrite decide_False; [by eapply ext_pte|].
      intros Hpg. apply Hout. apply page_of_iff in Hpg; [lia|lia|done].
Qed.

Lemma add_page_aligned a : a mod PGSIZE = 0 -> (a + PGSIZE) mod PGSIZE = 0.
Proof. intros. rewrite <- Z.add_mod_idemp_r by done. by rewrite Z.mod_same, Z.add_0_r. Qed.

Lemma page_below_MAXVA a n :
  a mod PGSIZE = 0 -> a + n * PGSIZE < MAXVA -> a + (n + 1) * PGSIZE <= MAXVA.
Proof.
  intros Ha. apply Z.mod_divide in Ha as [k ->]; [|done].
  change MAXVA with 274877906944. unfold PGSIZE. lia.
Qed.

Lemma mappages_iter n root a pa perm s T ps :
  vm_inv s root T ps -> 0 <= a -> a mod PGSIZE = 0 -> a + Z.of_nat n * PGSIZE < MAXVA ->
  0 <= pa -> pa + Z.of_nat n * PGSIZE < 2 ^ 56 -> 0 <= perm < 1024 ->
  (forall va, a <= va < a + (Z.of_nat n + 1) * PGSIZE -> Z.land (pte_of (ram s) T va) PTE_V = 0) ->
  exists r s' T' ps' k,
    iter_n (S n) (mappages_body root (a + Z.of_nat n * PGSIZE) perm) (a, pa) s = Ret (inr r) s' /\
    vm_inv s' root T' ps' /\ vm_frame s T ps s' T' ps' /\
    maps_range (ram s) T (ram s') T' a pa perm k /\
    (r = 0 /\ k = Z.of_nat n + 1 \/ r = -1 /\ 0 <= k <= Z.of_nat n /\ ps' = []).
Proof.
  revert a pa s T ps; induction n as [|n IH]; intros a pa s T ps Hinv Ha Hal Hmax Hpa Hpa' Hperm Hun.
  - destruct (mappages_step root a pa (a + Z.of_nat 0 * PGSIZE) perm s T ps)
      as (s1 & T1 & ps1 & Hinv1 & Hf1 & _ & Hb); try done; try (unfold PGSIZE in *; lia).
    { apply Hun. unfold PGSIZE. lia. }
    destruct Hb as [(Hb & -> & Hm)|(Hb & Hm)].
    + exists (-1), s1, T1, [], 0. rewrite iter_n_1, Hb. split; [done|].
      split; [done|]. split; [done|]. split; [done|]. right. split_and!; [done|lia|lia|done].
    + exists 0, s1, T1, ps1, 1. rewrite iter_n_1, Hb.
      rewrite (proj2 (Z.eqb_eq _ _)) by (unfold PGSIZE; lia).
      split; [done|]. split; [done|]. split; [done|]. split; [done|]. left. lia.
  - set (last := a + Z.of_nat (S n) * PGSIZE) in *.
    destruct (mappages_step root a pa last perm s T ps)
      as (s1 & T1 & ps1 & Hinv1 & Hf1 & _ & Hb); try done; try (unfold last, PGSIZE in *; lia).
    { apply Hun. unfold PGSIZE. lia. }
    change (iter_n (S (S n)) ?f (a, pa) s) with
      (bindr (f (a, pa) s) (fun r => match r with inl x => iter_n (S n) f x | inr b => ret (inr b) end)).
    destruct Hb as [(Hb & -> & Hm)|(Hb & Hm)]; rewrite Hb.
    + exists (-1), s1, T1, [], 0. simpl. split; [done|].
      split; [done|]. split; [done|]. split; [done|]. right. split_and!; [done|lia|lia|done].
    + rewrite (proj2 (Z.eqb_neq _ _)) by (unfold last, PGSIZE; lia). cbn [bindr].
      assert (Hmax' := Hmax). change MAXVA with (2 ^ 38) in Hmax'.
      rewrite !u64_small by (unfold last, PGSIZE in *; lia).
      destruct (IH (a + PGSIZE) (pa + PGSIZE) s1 T1 ps1)
        as (r & s2 & T2 & ps2 & k & Hit & Hinv2 & Hf2 & Hm2 & Hr);
        try done; try (unfold last, PGSIZE in *; lia).
      { by apply add_page_aligned. }
      { pose proof (page_below_MAXVA _ _ Hal Hmax).
        intros va Hv. rewrite Hm by (unfold PGSIZE in *; lia).
        rewrite decide_False by (unfold PGSIZE in *; lia). apply Hun. unfold PGSIZE in *. lia. }
      replace (a + PGSIZE + Z.of_nat n * PGSIZE) with last in Hit by (unfold last; lia).
      exists r, s2, T2, ps2, (k + 1). split; [exact Hit|]. split; [done|].
      split; [by eapply vm_frame_trans|]. split; [eapply maps_range_app; [lia|done..]|].
      destruct Hr as [[-> ->]|(-> & ? & ->)]; [left; lia | right]. split_and!; [done|lia|lia|done].
Qed.

(** The pages of the range [va, va + size). *)
Definition npages_of (va size : Z) : Z :=
  (PGROUNDDOWN (va + size - 1) - PGROUNDDOWN va) / PGSIZE + 1.

Lemma npages_of_spec va size :
  0 <= va -> 0 < size ->
  PGROUNDDOWN (va + size - 1) = PGROUNDDOWN va + (npages_of va size - 1) * PGSIZE /\
  1 <= npages_of va size.
Proof.
  intros Hva Hsz. unfold npages_of.
  destruct (PGROUNDDOWN_bounds va) as (? & ? & Ha); [lia|].
  destruct (PGROUNDDOWN_bounds (va + size - 1)) as (? & ? & Hl); [lia|].
  apply Z.mod_divide in Ha as [k Hk], Hl as [j Hj]; [|done..]. rewrite Hk, Hj in *.
  rewrite <- Z.mul_sub_distr_r, Z.div_mul by done. unfold PGSIZE in *. lia.
Qed.

Lemma mappages_spec root va size pa perm s T ps :
  vm_inv s root T ps -> 0 <= va -> 0 < size -> va + size - 1 < MAXVA ->
  0 <= pa -> pa + size + PGSIZE < 2 ^ 56 -> 0 <= perm < 1024 ->
  (forall v, PGROUNDDOWN va <= v < PGROUNDDOWN va + npages_of va size * PGSIZE ->
     Z.land (pte_of (ram s) T v) PTE_V = 0) ->
  exists r s' T' ps' k, mappages root va size pa perm s = Ret r s' /\
    vm_inv s' root T' ps' /\ vm_frame s T ps s' T' ps' /\
    maps_range (ram s) T (ram s') T' (PGROUNDDOWN va) pa perm k /\
    (r = 0 /\ k = npages_of va size \/ r = -1 /\ 0 <= k < npages_of va size /\ ps' = []).
Proof.
  intros Hinv Hva Hsz Hmax Hpa Hpa' Hperm Hun.
  destruct (npages_of_spec va size Hva Hsz) as [Hlast Hn].
  destruct (PGROUNDDOWN_bounds va Hva) as (Hb & Hb' & Hal).
  destruct (PGROUNDDOWN_bounds (va + size - 1)) as (Hc & Hc' & _); [lia|].
  unfold mappages. rewrite (proj2 (Z.eqb_neq _ _)) by lia.
  rewrite u64_small by (change MAXVA with (2 ^ 38) in *; lia).
  set (n := Z.to_nat (npages_of va size - 1)).
  assert (Z.of_nat n = npages_of va size - 1) as En by (unfold n; lia).
  rewrite Hlast, <- En.
  destruct (mappages_iter n root (PGROUNDDOWN va) pa perm s T ps)
    as (r & s' & T' & ps' & k & Hit & Hi & Hf & Hm & Hr); try done.
  - lia.
  - rewrite En, <- Hlast. lia.
  - unfold PGSIZE in *. lia.
  - intros v Hv. apply Hun. by rewrite En in Hv; replace (npages_of va size) with (npages_of va size - 1 + 1) by lia.
  - exists r, s', T', ps', k. split.
    + apply (loop_exit (S n)); [|done]. change MAXVA with (2 ^ 38) in *. unfold PGSIZE in *. lia.
    + split; [done|]. split; [done|]. split; [done|].
      destruct Hr as [[-> ->]|(-> & ? & ->)]; [left; lia | right]. split_and!; [done|lia|lia|done].
Qed.

(** ** An empty page table *)

Lemma empty_table_rep e m root :
  page_ok e root -> (forall a, in_page root a -> ld8 m a = 0) -> pt_rep e m root {[ [] := root ]}.
Proof.
  intros Hok Hz. split.
  - apply lookup_singleton_eq.
  - by intros x p [<- <-]%lookup_singleton_Some.
  - by intros x y p [<- _]%lookup_singleton_Some [<- _]%lookup_singleton_Some.
  - intros x i q [Hx _]%lookup_singleton_Some. by destruct x.
  - by intros i q [? _]%lookup_singleton_Some.
  - intros x p i [<- <-]%lookup_singleton_Some _ Hi. simpl.
    rewrite lookup_singleton_ne by done. simpl. rewrite ld64_zero; [done|].
    intros a Ha. apply Hz. by eapply in_page_word.
Qed.

(** C8: [mappages] on a well-formed page table and a range with no valid entry
    returns without a panic and keeps the tables, the free list and all other
    memory intact.  With result 0 every page of the range maps to its page of
    [pa] with [perm | PTE_V] and no other entry changed; result -1 comes only
    when the free list ran out, with a proper prefix of the range mapped. *)
Theorem mappages_correct root va size pa perm s T ps :
  vm_inv s root T ps -> 0 <= va -> 0 < size -> va + size - 1 < MAXVA ->
  0 <= pa -> pa + size + PGSIZE < 2 ^ 56 -> 0 <= perm < 1024 ->
  (forall v, PGROUNDDOWN va <= v < PGROUNDDOWN va + npages_of va size * PGSIZE ->
     Z.land (pte_of (ram s) T v) PTE_V = 0) ->
  exists r s' T' ps' k, mappages root va size pa perm s = Ret r s' /\
    vm_inv s' root T' ps' /\ vm_frame s T ps s' T' ps' /\
    maps_range (ram s) T (ram s') T' (PGROUNDDOWN va) pa perm k /\
    (r = 0 /\ k = npages_of va size \/ r = -1 /\ 0 <= k < npages_of va size /\ ps' = []).
Proof. apply mappages_spec. Qed.

(** A table page and two free pages. *)
Definition demo_state : machine :=
  Machine (st64 ∅ 0x87ffd000 0x87ffe000) 0x87ffd000 0 [] 0x80026000 0x80008000 0x80007000.

Lemma demo_inv : vm_inv demo_state 0x87fff000 {[ [] := 0x87fff000 ]} [0x87ffd000; 0x87ffe000].
Proof.
  split.
  - split; [by vm_compute| |repeat constructor; by vm_compute|by vm_compute].
    apply NoDup_cons. split; [by intros ?%list_elem_of_singleton|]. apply NoDup_singleton.
  - apply not_elem_of_nil.
  - apply empty_table_rep; [split; by vm_compute|]. intros a Ha. simpl.
    unfold in_page, PGSIZE in Ha. rewrite ld8_st64_ne by lia. done.
  - intros x p [_ <-]%lookup_singleton_Some. by intros [?|?%list_elem_of_singleton]%elem_of_cons.
Qed.

Lemma mappages_correct_witness :
  exists r s' T' ps' k, mappages 0x87fff000 0x1234 0x2000 0x80200000 22 demo_state = Ret r s' /\
    vm_inv s' 0x87fff000 T' ps' /\
    vm_frame demo_state {[ [] := 0x87fff000 ]} [0x87ffd000; 0x87ffe000] s' T' ps' /\
    maps_range (ram demo_state) {[ [] := 0x87fff000 ]} (ram s') T' (PGROUNDDOWN 0x1234)
      0x80200000 22 k /\
    (r = 0 /\ k = npages_of 0x1234 0x2000 \/
     r = -1 /\ 0 <= k < npages_of 0x1234 0x2000 /\ ps' = []).
Proof.
  apply (mappages_correct 0x87fff000 0x1234 0x2000 0x80200000 22 demo_state
    {[ [] := 0x87fff000 ]} [0x87ffd000; 0x87ffe000] demo_inv);
    [by vm_compute..|split; by vm_compute|].
  intros v _. unfold pte_of. rewrite lookup_singleton_ne by done. done.
Defined.
