(* ===== verification/VmCopy.v ===== *)
(** * Copying between the kernel and user memory

    User memory as the page table maps it: the byte at a virtual address, and
    the range a copy reads or writes.  [copyin], [copyout] and [copyinstr]
    stop at the first page that has no valid user mapping. *)

From S2P Require Import Prelude Mem Riscv Str Locks Kalloc Vm VmWalk VmMap.
Import Kalloc Vm.

(** The physical page of a user virtual address, 0 when it has no valid user
    mapping; and the byte there. *)
Definition upage (m : mem) (T : ptree) (va : Z) : Z :=
  if MAXVA <=? va then 0
  else if Z.land (pte_of m T va) PTE_V =? 0 then 0
  else if Z.land (pte_of m T va) PTE_U =? 0 then 0
  else PTE2PA (pte_of m T va).

Definition uaddr (m : mem) (T : ptree) (va : Z) : Z := upage m T va + va mod PGSIZE.
Definition ubyte (m : mem) (T : ptree) (va : Z) : Z := ld8 m (uaddr m T va).
Definition uread (m : mem) (T : ptree) (va n : Z) : list Z := ubyte m T <$> seqZ va n.
Definition umapped (m : mem) (T : ptree) (va n : Z) : Prop :=
  forall v, va <= v < va + n -> upage m T v <> 0.

(** User pages are allocated pages, not tables and not free, and no page is
    mapped twice. *)
Record uvm_inv (s : machine) (root : Z) (T : ptree) (ps : list Z) : Prop := {
  uv_vm : vm_inv s root T ps;
  uv_page va : 0 <= va < MAXVA -> upage (ram s) T va <> 0 ->
    page_ok (kend s) (upage (ram s) T va) /\ (upage (ram s) T va ∉ ps) /\
    (forall x, T !! x <> Some (upage (ram s) T va));
  uv_inj va va' : 0 <= va < MAXVA -> 0 <= va' < MAXVA ->
    upage (ram s) T va <> 0 -> upage (ram s) T va = upage (ram s) T va' ->
    PGROUNDDOWN va = PGROUNDDOWN va';
}.

Lemma walkaddr_spec va s root T :
  KERNBASE <= kend s -> pt_rep (kend s) (ram s) root T ->
  walkaddr root va s = Ret (upage (ram s) T va) s.
Proof.
  intros He Hr. unfold walkaddr, upage. destruct (Z.leb_spec MAXVA va); [done|].
  unfold bind. erewrite walk_noalloc by (done || lia). cbn [bindr].
  unfold leaf_addr, pte_of. destruct (T !! vpath 0 va) as [q|] eqn:E; [|done].
  destruct (rep_ok _ _ _ _ Hr _ _ E) as [_ ?].
  pose proof (PX_range 0 va ltac:(lia)).
  rewrite (proj2 (Z.eqb_neq _ _)) by (unfold KERNBASE in *; lia).
  rewrite load64_eq by lia. cbn [bindr]. by repeat case_match.
Qed.

Lemma upage_bound m T va : upage m T va <> 0 -> va < MAXVA.
Proof. unfold upage. destruct (Z.leb_spec MAXVA va); [done|lia]. Qed.

Lemma upage_page m T va va' :
  0 <= va < MAXVA -> 0 <= va' -> PGROUNDDOWN va' = PGROUNDDOWN va -> upage m T va' = upage m T va.
Proof.
  intros Hv Hv' E. assert (va' < MAXVA).
  { destruct (PGROUNDDOWN_bounds va) as (?&?&Ha); [lia|].
    destruct (PGROUNDDOWN_bounds va') as (?&?&_); [lia|].
    pose proof (page_below_MAXVA (PGROUNDDOWN va) 0 Ha). unfold PGSIZE in *. lia. }
  unfold upage. rewrite <- (pte_of_page _ _ va), <- (pte_of_page _ _ va'), E.
  by rewrite !(proj2 (Z.leb_gt _ _)) by lia.
Qed.

Lemma upage_PGROUNDDOWN m T va : 0 <= va -> upage m T (PGROUNDDOWN va) = upage m T va.
Proof.
  intros Hv. destruct (PGROUNDDOWN_bounds va Hv) as (?&?&Ha).
  destruct (decide (va < MAXVA)).
  - apply upage_page; [lia|lia|]. by apply PGROUNDDOWN_aligned.
  - unfold upage. rewrite !(proj2 (Z.leb_le _ _)); [done|lia|].
    destruct (decide (PGROUNDDOWN va < MAXVA)); [|lia].
    pose proof (page_below_MAXVA (PGROUNDDOWN va) 0 Ha). lia.
Qed.

(** The bytes of one page are consecutive in physical memory. *)
Lemma uaddr_chunk m T va v :
  0 <= va < MAXVA -> va <= v < PGROUNDDOWN va + PGSIZE ->
  PGROUNDDOWN v = PGROUNDDOWN va /\ upage m T v = upage m T va /\
  uaddr m T v = upage m T va + (va - PGROUNDDOWN va) + (v - va).
Proof.
  intros Hva Hv. destruct (PGROUNDDOWN_bounds va) as (?&?&?); [lia|].
  assert (PGROUNDDOWN v = PGROUNDDOWN va) as E by (apply page_of_iff; [lia|done|lia]).
  assert (upage m T v = upage m T va) as E' by (apply upage_page; [lia|lia|done]).
  split; [done|]. split; [done|]. unfold uaddr. rewrite E'.
  rewrite <- E, (PGROUNDDOWN_eq v). lia.
Qed.

Lemma bytes_uread m T va n :
  0 <= va < MAXVA -> 0 <= n <= PGSIZE - (va - PGROUNDDOWN va) ->
  bytes m (upage m T va + (va - PGROUNDDOWN va)) n = uread m T va n.
Proof.
  intros Hva Hn. unfold bytes, uread. apply list_eq. intros i.
  rewrite !list_lookup_fmap.
  destruct (decide (Z.of_nat i < n)).
  - rewrite !lookup_seqZ_lt by lia. simpl. unfold ubyte.
    destruct (uaddr_chunk m T va (va + Z.of_nat i)) as (_&_&->); [lia|lia|]. do 2 f_equal. lia.
  - by rewrite !lookup_seqZ_ge by lia.
Qed.

Lemma uread_app m T va n k :
  0 <= n -> 0 <= k -> uread m T va n ++ uread m T (va + n) k = uread m T va (n + k).
Proof. intros. unfold uread. by rewrite (seqZ_app va n k), fmap_app by lia. Qed.

Lemma uread_length m T va n : 0 <= n -> length (uread m T va n) = Z.to_nat n.
Proof. intros. unfold uread. by rewrite length_fmap, length_seqZ. Qed.

(** ** One round of a copy loop

    The number of bytes a round moves: the rest of the page, or what is left. *)
Definition chunk (va len : Z) : Z :=
  let n := PGSIZE - (va - PGROUNDDOWN va) in if len <? n then len else n.

Lemma chunk_spec va len :
  0 <= va < MAXVA -> 0 < len ->
  0 < chunk va len <= PGSIZE - (va - PGROUNDDOWN va) /\ chunk va len <= len /\
  0 <= u64 (PGROUNDDOWN va + PGSIZE) <= MAXVA /\
  (chunk va len < len -> u64 (PGROUNDDOWN va + PGSIZE) = va + chunk va len).
Proof.
  intros Hva Hlen. destruct (PGROUNDDOWN_bounds va) as (?&?&Ha); [lia|].
  pose proof (page_below_MAXVA (PGROUNDDOWN va) 0 Ha).
  unfold chunk. change MAXVA with (2 ^ 38) in *. unfold PGSIZE in *.
  rewrite u64_small by lia. destruct (Z.ltb_spec len (4096 - (va - PGROUNDDOWN va))); lia.
Qed.

Lemma chunk_mapped m T va len :
  0 <= va < MAXVA -> 0 < len -> upage m T va <> 0 -> umapped m T va (chunk va len).
Proof.
  intros Hva Hlen Hp v Hv. destruct (chunk_spec va len Hva Hlen) as (?&_).
  destruct (uaddr_chunk m T va v) as (_&->&_); [done|lia|done].
Qed.

Lemma umapped_app m T va n k :
  0 <= n -> umapped m T va n -> umapped m T (va + n) k -> umapped m T va (n + k).
Proof.
  intros Hn H1 H2 v Hv. destruct (decide (v < va + n)); [apply H1; lia | apply H2; lia].
Qed.

(** How far a copy of [len] bytes at [va] gets: all of it, with status 0, or
    up to the first page that is not mapped for the user, with status -1. *)
Definition copies (m : mem) (T : ptree) (va len st k : Z) : Prop :=
  umapped m T va k /\ (st = 0 /\ k = len \/ st = -1 /\ 0 <= k < len /\ upage m T (va + k) = 0).

Definition copyin_at (s : machine) (T : ptree) (srcva len : Z)
    (n : nat) (st : list Z * Z * Z) (s' : machine) : Prop :=
  let '(dst, va, l) := st in
  s' = s /\ n = Z.to_nat l /\ 0 <= l <= len /\ dst = uread (ram s) T srcva (len - l) /\
  umapped (ram s) T srcva (len - l) /\ 0 <= va /\ (0 < l -> va = srcva + (len - l)).

Lemma copyin_step root s T srcva len n st :
  KERNBASE <= kend s -> pt_rep (kend s) (ram s) root T ->
  copyin_at s T srcva len n st s ->
  runs (fun r s' => match r with
                    | inl st' => exists n', (n' < n)%nat /\ copyin_at s T srcva len n' st' s'
                    | inr (c, bs) => s' = s /\ exists k, bs = uread (ram s) T srcva k /\
                                     copies (ram s) T srcva len c k
                    end) (copyin_body root st s).
Proof.
  intros He Hr. destruct st as [[dst va] l].
  intros (_ & -> & Hl & -> & Hm & Hva & Heq). cbn [copyin_body].
  destruct (Z.ltb_spec 0 l) as [Hl0|Hl0].
  - specialize (Heq Hl0). unfold bind. erewrite walkaddr_spec by done. cbn [bindr].
    rewrite upage_PGROUNDDOWN by done.
    destruct (Z.eqb_spec (upage (ram s) T va) 0) as [H0|H0]; simpl.
    + split; [done|]. exists (len - l). split; [done|]. split; [done|]. right.
      rewrite <- Heq. lia.
    + pose proof (upage_bound _ _ _ H0) as Hb.
      destruct (chunk_spec va l) as (Hc & Hc' & Hu & Hn); [lia|done|].
      change (if l <? PGSIZE - (va - PGROUNDDOWN va) then _ else _) with (chunk va l).
      exists (Z.to_nat (l - chunk va l)). split; [lia|].
      replace (len - (l - chunk va l)) with ((len - l) + chunk va l) by lia.
      split_and!; [done|done|lia|lia| | |lia|].
      * rewrite bytes_uread by lia. rewrite <- (uread_app _ _ srcva (len - l)), <- Heq by lia. done.
      * apply umapped_app; [lia|done|]. rewrite <- Heq. by apply chunk_mapped.
      * intros. rewrite Hn; lia.
  - assert (l = 0) as -> by lia. simpl. split; [done|]. exists len.
    rewrite Z.sub_0_r in *. split; [done|]. split; [done|]. by left.
Qed.

Lemma copyin_spec root s T srcva len :
  KERNBASE <= kend s -> pt_rep (kend s) (ram s) root T ->
  0 <= srcva < 2 ^ 64 -> 0 <= len < 2 ^ 64 ->
  exists st k, copyin root srcva len s = Ret (st, uread (ram s) T srcva k) s /\
    copies (ram s) T srcva len st k.
Proof.
  intros He Hr Hva Hlen.
  assert (runs (fun r s' => s' = s /\ exists k, r.2 = uread (ram s) T srcva k /\
            copies (ram s) T srcva len r.1 k) (copyin root srcva len s)) as H.
  { unfold copyin. eapply (runs_loop _ (copyin_at s T srcva len) _ (Z.to_nat len)).
    - intros n st s' Hi. assert (s' = s) as -> by (destruct st as [[]]; apply Hi).
      eapply runs_mono; [by eapply copyin_step|].
      by intros [st'|[c bs]] s' HQ.
    - simpl. rewrite Z.sub_diag. split_and!; try done; try lia. intros v Hv. lia.
    - lia. }
  apply runs_ret in H as ([st bs] & s' & -> & -> & k & Hbs & Hc). simpl in *. subst.
  by exists st, k.
Qed.

(** ** copyinstr *)

Definition nonzero (bs : list Z) : Prop := Forall (fun b => b <> 0) bs.

Lemma copyinstr_scan_spec n m p :
  (exists k, 0 <= k < Z.of_nat n /\ copyinstr_scan n m p = (true, bytes m p (k + 1)) /\
     nonzero (bytes m p k) /\ ld8 m (p + k) = 0) \/
  (copyinstr_scan n m p = (false, bytes m p (Z.of_nat n)) /\ nonzero (bytes m p (Z.of_nat n))).
Proof.
  revert p; induction n as [|n IH]; intros p; cbn [copyinstr_scan];
    [right; split; [done|by constructor]|].
  destruct (Z.eqb_spec (ld8 m p) 0) as [E|E].
  - left. exists 0. rewrite bytes_cons, E, Z.add_0_r by lia.
    split_and!; [lia|lia|done|by constructor|done].
  - destruct (IH (p + 1)) as [(k & Hk & -> & Hnz & Hz)|[-> Hnz]].
    + left. exists (k + 1). split; [lia|]. split; [|split].
      * rewrite (bytes_cons m p) by lia. do 3 f_equal. lia.
      * rewrite bytes_cons by lia. constructor; [done|]. by rewrite Z.add_simpl_r.
      * by replace (p + (k + 1)) with (p + 1 + k) by lia.
    + right. rewrite (bytes_cons m p) by lia.
      replace (Z.of_nat (S n) - 1) with (Z.of_nat n) by lia. split; [done|]. by constructor.
Qed.

(** The C string at [va], cut at [max] bytes, as [copyinstr] reports it. *)
Definition string_found (m : mem) (T : ptree) (va max : Z) (bs : list Z) : Prop :=
  exists k, 0 <= k < max /\ umapped m T va (k + 1) /\ nonzero (uread m T va k) /\
    ubyte m T (va + k) = 0 /\ bs = uread m T va (k + 1).
Definition string_cut (m : mem) (T : ptree) (va max : Z) (bs : list Z) : Prop :=
  exists k, 0 <= k <= max /\ umapped m T va k /\ nonzero (uread m T va k) /\
    (k = max \/ upage m T (va + k) = 0) /\ bs = uread m T va k.

Definition copyinstr_at (s : machine) (T : ptree) (srcva max : Z)
    (n : nat) (st : list Z * Z * Z * bool) (s' : machine) : Prop :=
  let '(dst, va, l, got_null) := st in
  s' = s /\
  if got_null then string_found (ram s) T srcva max dst
  else n = Z.to_nat l /\ 0 <= l <= max /\ dst = uread (ram s) T srcva (max - l) /\
       nonzero dst /\ umapped (ram s) T srcva (max - l) /\ 0 <= va /\
       (0 < l -> va = srcva + (max - l)).

(** One page of the string: its bytes up to the NUL or to the end of the chunk. *)
Lemma scan_chunk m T va l :
  0 <= va < MAXVA -> 0 < l ->
  (exists k, 0 <= k < chunk va l /\
     copyinstr_scan (Z.to_nat (chunk va l)) m (upage m T va + (va - PGROUNDDOWN va))
       = (true, uread m T va (k + 1)) /\
     nonzero (uread m T va k) /\ ubyte m T (va + k) = 0) \/
  (copyinstr_scan (Z.to_nat (chunk va l)) m (upage m T va + (va - PGROUNDDOWN va))
     = (false, uread m T va (chunk va l)) /\ nonzero (uread m T va (chunk va l))).
Proof.
  intros Hva Hl. destruct (chunk_spec va l Hva Hl) as (Hc & _).
  destruct (copyinstr_scan_spec (Z.to_nat (chunk va l)) m (upage m T va + (va - PGROUNDDOWN va)))
    as [(k & Hk & -> & Hnz & Hz)|[-> Hnz]].
  - left. exists k. rewrite !bytes_uread in * by lia. split; [lia|]. split; [done|]. split; [done|].
    unfold ubyte. destruct (uaddr_chunk m T va (va + k)) as (_&_&->); [done|lia|].
    rewrite <- Hz. f_equal. lia.
  - right. rewrite Z2Nat.id, bytes_uread in * by lia. done.
Qed.

Lemma copyinstr_step root s T srcva max n st :
  KERNBASE <= kend s -> pt_rep (kend s) (ram s) root T ->
  copyinstr_at s T srcva max n st s ->
  runs (fun r s' => match r with
                    | inl st' => exists n', (n' < n)%nat /\ copyinstr_at s T srcva max n' st' s'
                    | inr (c, bs) => s' = s /\
                        (c = 0 /\ string_found (ram s) T srcva max bs \/
                         c = -1 /\ string_cut (ram s) T srcva max bs)
                    end) (copyinstr_body root st s).
Proof.
  intros He Hr. destruct st as [[[dst va] l] got]. intros [_ Hst]. cbn [copyinstr_body].
  unfold copyinstr_body.
  destruct got; cbn [negb andb]; [simpl; by split; [|left]|].
  destruct Hst as (-> & Hl & -> & Hnz & Hm & Hva & Heq).
  destruct (Z.ltb_spec 0 l) as [Hl0|Hl0].
  - specialize (Heq Hl0). unfold bind. erewrite walkaddr_spec by done. cbn [bindr].
    rewrite upage_PGROUNDDOWN by done.
    destruct (Z.eqb_spec (upage (ram s) T va) 0) as [H0|H0].
    + simpl. split; [done|]. right. split; [done|]. exists (max - l). rewrite <- Heq.
      split_and!; (done || lia || by right).
    + pose proof (upage_bound _ _ _ H0) as Hb.
      destruct (chunk_spec va l) as (Hc & Hc' & Hu & Hn); [lia|done|].
      pose proof (chunk_mapped _ T va l ltac:(lia) Hl0 H0) as Hcm.
      cbn [bindr gets].
      change (if l <? PGSIZE - (va - PGROUNDDOWN va) then _ else _) with (chunk va l).
      destruct (scan_chunk (ram s) T va l) as [(k & Hk & -> & Hnz' & Hz)|[-> Hnz']];
        [lia|done| |]; cbn [bindr ret runs]; rewrite uread_length by lia.
      * exists 0%nat. split; [lia|]. split; [done|]. exists ((max - l) + k).
        replace (srcva + (max - l + k)) with (va + k) by lia.
        rewrite <- (uread_app _ _ srcva (max - l) k), <- Heq by lia.
        replace (max - l + k + 1) with (max - l + (k + 1)) by lia.
        split_and!; [lia|lia| |by apply Forall_app|done|].
        -- apply umapped_app; [lia|done|]. rewrite <- Heq. intros v Hv. apply Hcm. lia.
        -- rewrite <- (uread_app _ _ srcva (max - l) (k + 1)), <- Heq by lia. done.
      * exists (Z.to_nat (l - chunk va l)). split; [lia|]. split; [done|]. simpl.
        rewrite Z2Nat.id, Z.sub_0_r by lia.
        replace (max - (l - chunk va l)) with ((max - l) + chunk va l) by lia.
        split_and!; [done|lia|lia| |by apply Forall_app| |lia|].
        -- rewrite <- (uread_app _ _ srcva (max - l)), <- Heq by lia. done.
        -- apply umapped_app; [lia|done|]. by rewrite <- Heq.
        -- intros. rewrite Hn; lia.
  - assert (l = 0) as -> by lia. simpl. rewrite Z.sub_0_r in *. split; [done|]. right.
    split; [done|]. exists max. split_and!; (done || lia || by left).
Qed.

Lemma copyinstr_spec root s T srcva max :
  KERNBASE <= kend s -> pt_rep (kend s) (ram s) root T ->
  0 <= srcva < 2 ^ 64 -> 0 <= max < 2 ^ 64 ->
  exists st bs, copyinstr root srcva max s = Ret (st, bs) s /\
    (st = 0 /\ string_found (ram s) T srcva max bs \/
     st = -1 /\ string_cut (ram s) T srcva max bs).
Proof.
  intros He Hr Hva Hlen.
  assert (runs (fun r s' => s' = s /\
            (r.1 = 0 /\ string_found (ram s) T srcva max r.2 \/
             r.1 = -1 /\ string_cut (ram s) T srcva max r.2)) (copyinstr root srcva max s)) as H.
  { unfold copyinstr. eapply (runs_loop _ (copyinstr_at s T srcva max) _ (Z.to_nat max)).
    - intros n st s' Hi. assert (s' = s) as -> by (destruct st as [[[]]]; apply Hi).
      eapply runs_mono; [by eapply copyinstr_step|]. by intros [st'|[c bs]] s' HQ.
    - simpl. rewrite Z.sub_diag. split_and!; (done || lia || by constructor || (intros v Hv; lia)).
    - lia. }
  apply runs_ret in H as ([st bs] & s' & -> & -> & HQ). by exists st, bs.
Qed.

(** ** copyout *)

(** [m'] is [m] with the bytes [bs] stored at the user address [va]: no other
    user byte, no byte outside the user's pages and no page-table entry differs. *)
Record uwritten (m : mem) (T : ptree) (m' : mem) (va : Z) (bs : list Z) : Prop := {
  uw_byte v : 0 <= v < MAXVA -> upage m T v <> 0 ->
    ubyte m' T v = if decide (va <= v < va + Z.of_nat (length bs))
                   then u8 (nth (Z.to_nat (v - va)) bs 0) else ubyte m T v;
  uw_other a : (forall v, 0 <= v < MAXVA -> upage m T v <> 0 -> ~ in_page (upage m T v) a) ->
    ld8 m' a = ld8 m a;
  uw_pte v : pte_of m' T v = pte_of m T v;
}.

Lemma upage_ext m m' T v : pte_of m' T v = pte_of m T v -> upage m' T v = upage m T v.
Proof. intros E. unfold upage. by rewrite E. Qed.

Lemma uwritten_nil m T va : uwritten m T m va [].
Proof. split; try done. intros. rewrite decide_False by (simpl; lia). done. Qed.

Lemma uwritten_app m T m1 m2 va bs1 bs2 :
  uwritten m T m1 va bs1 -> uwritten m1 T m2 (va + Z.of_nat (length bs1)) bs2 ->
  uwritten m T m2 va (bs1 ++ bs2).
Proof.
  intros H1 H2. assert (forall v, upage m1 T v = upage m T v) as Hu.
  { intros v. apply upage_ext, (uw_pte _ _ _ _ _ H1). }
  split.
  - intros v Hv Hp. rewrite (uw_byte _ _ _ _ _ H2), (uw_byte _ _ _ _ _ H1) by (done || by rewrite Hu).
    rewrite length_app. repeat case_decide; try lia; try done.
    + rewrite app_nth2 by lia. do 2 f_equal. lia.
    + by rewrite app_nth1 by lia.
  - intros a Ha. rewrite (uw_other _ _ _ _ _ H2), (uw_other _ _ _ _ _ H1); [done|done|].
    intros v. rewrite Hu. apply Ha.
  - intros v. by rewrite (uw_pte _ _ _ _ _ H2), (uw_pte _ _ _ _ _ H1).
Qed.

(** Memory that changed only inside user pages keeps the tables and the free list. *)
Lemma user_only_inv s root T ps m' :
  uvm_inv s root T ps ->
  (forall a, (forall v, 0 <= v < MAXVA -> upage (ram s) T v <> 0 -> ~ in_page (upage (ram s) T v) a) ->
     ld8 m' a = ld8 (ram s) a) ->
  (forall v, pte_of m' T v = pte_of (ram s) T v) /\ uvm_inv (set_ram m' s) root T ps.
Proof.
  intros Hu Hout. destruct (uv_vm _ _ _ _ Hu) as [Hk Hl Hr Hs].
  assert (forall x q a, T !! x = Some q -> in_page q a -> ld8 m' a = ld8 (ram s) a) as Htab.
  { intros x q a Hx Ha. apply Hout. intros v Hv Hp Ha'.
    destruct (uv_page _ _ _ _ Hu v Hv Hp) as (Hok & _ & Hnt).
    pose proof (in_page_disjoint _ _ _ _ (rep_ok _ _ _ _ Hr _ _ Hx) Hok Ha Ha') as ->.
    by apply (Hnt x). }
  destruct (tables_ext _ _ m' _ _ Hr Htab) as [Hr' Hp].
  split; [done|]. split.
  - split; [|done|done|done].
    eapply kmem_inv_ext; [done..|]. intros q a Hq Ha. apply Hout. intros v Hv Hpv Ha'.
    destruct (uv_page _ _ _ _ Hu v Hv Hpv) as (Hok & Hnf & _). apply Hnf.
    assert (page_ok (kend s) q) as Hokq.
    { eapply (Forall_forall _ ps) in Hq; [done|]. apply (inv_pages _ _ Hk). }
    by rewrite <- (in_page_disjoint _ _ _ _ Hokq Hok Ha Ha').
  - intros v. simpl. rewrite (upage_ext _ _ _ _ (Hp v)). apply (uv_page _ _ _ _ Hu).
  - intros v v'. simpl. rewrite (upage_ext _ _ _ _ (Hp v)), (upage_ext _ _ _ _ (Hp v')).
    apply (uv_inj _ _ _ _ Hu).
Qed.

Lemma uaddr_in_page m T v : in_page (upage m T v) (uaddr m T v).
Proof. unfold in_page, uaddr. pose proof (Z.mod_pos_bound v PGSIZE ltac:(done)). lia. Qed.

Lemma user_store s root T ps va bs :
  uvm_inv s root T ps -> 0 <= va < MAXVA -> upage (ram s) T va <> 0 ->
  Z.of_nat (length bs) <= PGSIZE - (va - PGROUNDDOWN va) ->
  let m' := stbytes (ram s) (upage (ram s) T va + (va - PGROUNDDOWN va)) bs in
  uvm_inv (set_ram m' s) root T ps /\ uwritten (ram s) T m' va bs.
Proof.
  intros Hu Hva Hp Hlen m'. destruct (PGROUNDDOWN_bounds va) as (?&?&?); [lia|].
  set (p := upage (ram s) T va) in *.
  assert (forall a, ~ in_page p a -> ld8 m' a = ld8 (ram s) a) as Hout.
  { intros a Ha. unfold m'. rewrite ld8_stbytes, decide_False; [done|].
    unfold in_page in Ha. lia. }
  destruct (user_only_inv s root T ps m' Hu) as [Hpte Hu'].
  { intros a Ha. apply Hout. by apply Ha. }
  split; [done|]. split; [|intros a Ha; apply Hout; by apply Ha|done].
  intros v Hv Hpv. unfold ubyte.
  assert (uaddr m' T v = uaddr (ram s) T v) as ->.
  { unfold uaddr. by rewrite (upage_ext _ _ _ _ (Hpte v)). }
  destruct (decide (PGROUNDDOWN v = PGROUNDDOWN va)) as [E|E].
  - assert (uaddr (ram s) T v = p + (va - PGROUNDDOWN va) + (v - va)) as ->.
    { unfold uaddr. rewrite (upage_page _ _ va v) by (done || lia). fold p.
      rewrite <- E, (PGROUNDDOWN_eq v). lia. }
    unfold m'. rewrite ld8_stbytes. repeat case_decide; try lia.
    do 2 f_equal. lia.
  - rewrite decide_False.
    + apply Hout. intros Ha. apply E. apply (uv_inj _ _ _ _ Hu); [done..|].
      eapply in_page_disjoint; [| |apply uaddr_in_page|exact Ha];
        by apply (uv_page _ _ _ _ Hu).
    + intros Hin. apply E. apply page_of_iff; [lia|done|lia].
Qed.

Definition copyout_at (s : machine) (root : Z) (T : ptree) (ps : list Z) (dstva : Z) (src : list Z)
    (n : nat) (st : Z * list Z * Z) (s' : machine) : Prop :=
  let '(va, bs, l) := st in
  let len := Z.of_nat (length src) in
  uvm_inv s' root T ps /\ n = Z.to_nat l /\ 0 <= l <= len /\
  bs = drop (Z.to_nat (len - l)) src /\
  uwritten (ram s) T (ram s') dstva (take (Z.to_nat (len - l)) src) /\
  umapped (ram s) T dstva (len - l) /\ 0 <= va /\ (0 < l -> va = dstva + (len - l)) /\
  s' = set_ram (ram s') s.

Lemma copyout_step s root T ps dstva src n st s1 :
  copyout_at s root T ps dstva src n st s1 ->
  runs (fun r s' => match r with
                    | inl st' => exists n', (n' < n)%nat /\ copyout_at s root T ps dstva src n' st' s'
                    | inr c => uvm_inv s' root T ps /\ s' = set_ram (ram s') s /\ exists k,
                        uwritten (ram s) T (ram s') dstva (take (Z.to_nat k) src) /\
                        copies (ram s) T dstva (Z.of_nat (length src)) c k
                    end) (copyout_body root st s1).
Proof.
  destruct st as [[va bs] l].
  intros (Hu & -> & Hl & -> & Hw & Hm & Hva & Heq & Hram).
  set (len := Z.of_nat (length src)) in *. cbn [copyout_body].
  destruct (Z.ltb_spec 0 l) as [Hl0|Hl0].
  - specialize (Heq Hl0). pose proof (uv_vm _ _ _ _ Hu) as Hvm. unfold bind.
    rewrite (walkaddr_spec _ _ _ T (inv_end _ _ (vm_kmem _ _ _ _ Hvm)) (vm_rep _ _ _ _ Hvm)).
    cbn [bindr]. rewrite upage_PGROUNDDOWN by done.
    pose proof (upage_ext _ _ _ _ (uw_pte _ _ _ _ _ Hw va)) as Hpg.
    destruct (Z.eqb_spec (upage (ram s1) T va) 0) as [H0|H0]; simpl.
    + split; [done|]. split; [done|]. exists (len - l). split; [done|]. split; [done|]. right.
      rewrite <- Heq, <- Hpg. lia.
    + pose proof (upage_bound _ _ _ H0) as Hb.
      destruct (chunk_spec va l) as (Hc & Hc' & Hn' & Hn); [lia|done|].
      change (if l <? PGSIZE - (va - PGROUNDDOWN va) then _ else _) with (chunk va l).
      destruct (user_store s1 root T ps va
        (take (Z.to_nat (chunk va l)) (drop (Z.to_nat (len - l)) src))) as [Hu' Hw'];
        [done|lia|done| |].
      { rewrite length_take, length_drop. lia. }
      exists (Z.to_nat (l - chunk va l)). split; [lia|].
      fold len. replace (len - (l - chunk va l)) with ((len - l) + chunk va l) by lia.
      rewrite Z2Nat.inj_add by lia.
      split_and!; [done|done|lia|lia|by rewrite drop_drop| | |lia| |].
      * rewrite <- take_take_drop. eapply uwritten_app; [done|].
        rewrite length_take, Nat.min_l by lia. rewrite Z2Nat.id, <- Heq by lia. done.
      * apply umapped_app; [lia|done|]. rewrite <- Heq. apply chunk_mapped; [lia|done|congruence].
      * intros. rewrite Hn; lia.
      * rewrite Hram. by destruct s.
  - assert (l = 0) as -> by lia. simpl. split; [done|]. split; [done|]. exists len.
    rewrite Z.sub_0_r in *. split; [done|]. split; [done|]. by left.
Qed.

Lemma copyout_spec root s T ps dstva src len :
  uvm_inv s root T ps -> 0 <= dstva < 2 ^ 64 -> len = Z.of_nat (length src) -> len < 2 ^ 64 ->
  exists st k s', copyout root dstva src len s = Ret st s' /\ uvm_inv s' root T ps /\
    uwritten (ram s) T (ram s') dstva (take (Z.to_nat k) src) /\
    copies (ram s) T dstva len st k /\ s' = set_ram (ram s') s.
Proof.
  intros Hu Hva -> Hlen.
  assert (runs (fun c s' => uvm_inv s' root T ps /\ s' = set_ram (ram s') s /\ exists k,
            uwritten (ram s) T (ram s') dstva (take (Z.to_nat k) src) /\
            copies (ram s) T dstva (Z.of_nat (length src)) c k)
          (copyout root dstva src (Z.of_nat (length src)) s)) as H.
  { unfold copyout. eapply (runs_loop _ (copyout_at s root T ps dstva src) _ (length src)).
    - intros n st s1 Hi. by apply copyout_step.
    - simpl. rewrite Z.sub_diag, Nat2Z.id.
      split_and!; (done || lia || apply uwritten_nil || (intros v Hv; lia) || by destruct s).
    - lia. }
  apply runs_ret in H as (st & s' & -> & Hu' & Hram & k & Hw & Hc). by exists st, k, s'.
Qed.

(** C17: what [copyout] stores, [copyin] reads back.  On an address space whose
    user pages are distinct, [copyout] of [len] bytes keeps every invariant,
    writes exactly the bytes that fit before the first unmapped page, touches
    no other byte, and when it reports success a [copyin] of the same range
    succeeds with the same bytes. *)
Theorem copyout_copyin root s T ps dstva src len :
  uvm_inv s root T ps -> 0 <= dstva < 2 ^ 64 -> len = Z.of_nat (length src) -> len < 2 ^ 64 ->
  Forall (fun b => 0 <= b < 256) src ->
  exists st k s', copyout root dstva src len s = Ret st s' /\ uvm_inv s' root T ps /\
    uwritten (ram s) T (ram s') dstva (take (Z.to_nat k) src) /\
    copies (ram s) T dstva len st k /\
    (st = 0 -> copyin root dstva len s' = Ret (0, src) s').
Proof.
  intros Hu Hva Hlen Hmax Hsrc.
  destruct (copyout_spec root s T ps dstva src len Hu Hva Hlen Hmax)
    as (st & k & s' & Ho & Hu' & Hw & Hc & _).
  exists st, k, s'. split_and!; try done. intros ->.
  destruct Hc as [Hm [[_ ->]|[? _]]]; [|done].
  pose proof (uv_vm _ _ _ _ Hu') as Hvm.
  destruct (copyin_spec root s' T dstva len (inv_end _ _ (vm_kmem _ _ _ _ Hvm))
    (vm_rep _ _ _ _ Hvm) Hva ltac:(lia)) as (st & k & -> & Hm' & Hr).
  assert (forall v, upage (ram s') T v = upage (ram s) T v) as Hpg.
  { intros v. apply upage_ext, (uw_pte _ _ _ _ _ Hw). }
  destruct Hr as [[-> ->]|(_ & Hk & H0)].
  - do 2 f_equal. rewrite take_ge in Hw by lia. apply (nth_ext _ _ 0 0).
    { rewrite uread_length by lia. lia. }
    intros i. rewrite uread_length by lia. intros Hi. unfold uread.
    rewrite (nth_lookup_Some _ _ 0 (ubyte (ram s') T (dstva + Z.of_nat i))).
    2:{ by rewrite list_lookup_fmap, lookup_seqZ_lt by lia. }
    assert (upage (ram s) T (dstva + Z.of_nat i) <> 0) as Hp by (apply Hm; lia).
    rewrite (uw_byte _ _ _ _ _ Hw) by (done || (split; [lia|by eapply upage_bound])).
    rewrite decide_True by lia. replace (Z.to_nat _) with i by lia.
    apply u8_small. rewrite Forall_nth in Hsrc. apply Hsrc. lia.
  - rewrite Hpg in H0. exfalso. by apply (Hm (dstva + k)); [lia|].
Qed.

(** C38: [copyinstr] on any user address returns and changes no memory.  With
    status 0 it delivers the user's string with its first NUL, found within
    [max] mapped bytes; with status -1 it read a run without a NUL that ends at
    [max] bytes or at the first page that is not mapped for the user. *)
Theorem copyinstr_correct root s T srcva max :
  KERNBASE <= kend s -> pt_rep (kend s) (ram s) root T ->
  0 <= srcva < 2 ^ 64 -> 0 <= max < 2 ^ 64 ->
  exists st bs, copyinstr root srcva max s = Ret (st, bs) s /\
    (st = 0 /\ string_found (ram s) T srcva max bs \/
     st = -1 /\ string_cut (ram s) T srcva max bs).
Proof. apply copyinstr_spec. Qed.

(** ** A concrete address space: page 0 mapped at physical 0x87ffc000 *)

Definition demo_T : ptree := {[ [] := 0x87fff000; [0] := 0x87ffe000; [0; 0] := 0x87ffd000 ]}.
Definition demo_pte : Z := Z.lor (Z.lor (PA2PTE 0x87ffc000) 30) PTE_V.
Definition demo_ram : mem :=
  st64 (st64 (st64 ∅ 0x87fff000 (Z.lor (PA2PTE 0x87ffe000) PTE_V))
             0x87ffe000 (Z.lor (PA2PTE 0x87ffd000) PTE_V)) 0x87ffd000 demo_pte.
Definition demo_space : machine := Machine demo_ram 0 0 [] 0x80026000 0x80008000 0x80007000.

Lemma demo_lookup x p :
  demo_T !! x = Some p ->
  x = [] /\ p = 0x87fff000 \/ x = [0] /\ p = 0x87ffe000 \/ x = [0; 0] /\ p = 0x87ffd000.
Proof.
  unfold demo_T. intros [[<- <-]|[_ [[<- <-]|[_ [<- <-]%lookup_singleton_Some]]%lookup_insert_Some]]%lookup_insert_Some; auto.
Qed.

Lemma demo_None x : x <> [] -> x <> [0] -> x <> [0; 0] -> demo_T !! x = None.
Proof. intros. unfold demo_T. rewrite !lookup_insert_ne, lookup_singleton_ne by done. done. Qed.

Lemma demo_word p i :
  p = 0x87fff000 \/ p = 0x87ffe000 \/ p = 0x87ffd000 -> 0 < i < 512 -> ld64 demo_ram (p + 8 * i) = 0.
Proof. intros Hp Hi. unfold demo_ram. rewrite !ld64_st64_ne by lia. by apply ld64_zero. Qed.

Lemma demo_rep : pt_rep 0x80026000 demo_ram 0x87fff000 demo_T.
Proof.
  split.
  - done.
  - intros x p [[-> ->]|[[-> ->]|[-> ->]]]%demo_lookup; split; by vm_compute.
  - by intros x y p [[-> ->]|[[-> ->]|[-> ->]]]%demo_lookup
      [[-> ?]|[[-> ?]|[-> ?]]]%demo_lookup.
  - intros x i q [[Hx ->]|[[Hx ->]|[Hx ->]]]%demo_lookup.
    + by destruct x.
    + destruct x as [|a [|b x]]; simplify_eq/=. split; [lia|]. split; [by eexists|simpl; lia].
    + destruct x as [|a [|b [|c x]]]; simplify_eq/=. split; [lia|]. split; [by eexists|simpl; lia].
  - intros i q [[? _]|[[[= ->] _]|[? _]]]%demo_lookup; [done|lia|done].
  - intros x p i Hx Hl Hi. destruct (decide (i = 0)) as [->|Hi0].
    + apply demo_lookup in Hx as [[-> ->]|[[-> ->]|[-> ->]]]; [by vm_compute..|simpl in Hl; lia].
    + assert (demo_T !! (x ++ [i]) = None) as ->.
      { apply demo_None; apply demo_lookup in Hx as [[-> ->]|[[-> ->]|[-> ->]]]; simpl; congruence. }
      simpl. rewrite demo_word; [done| |lia]. apply demo_lookup in Hx. naive_solver.
Qed.

Lemma demo_upage va : 0 <= va < MAXVA -> upage demo_ram demo_T va <> 0 ->
  upage demo_ram demo_T va = 0x87ffc000 /\ PGROUNDDOWN va = 0.
Proof.
  intros Hva Hp. destruct (decide (vpath 0 va = [0; 0] /\ PX 0 va = 0)) as [[E E0]|Hne].
  - assert (PGROUNDDOWN va = PGROUNDDOWN 0) as Hpg.
    { apply same_page; [done|by vm_compute|]. by rewrite E, E0. }
    split; [|done]. rewrite (upage_page _ _ 0 va); [by vm_compute|by vm_compute|lia|done].
  - destruct Hp. unfold upage.
    assert (pte_of demo_ram demo_T va = 0) as ->; [|by repeat case_match].
    unfold pte_of. destruct (demo_T !! vpath 0 va) as [q|] eqn:Eq; [|done].
    apply demo_lookup in Eq as [[? _]|[[? _]|[E ->]]]; [done..|].
    pose proof (PX_range 0 va ltac:(lia)). apply demo_word; [auto|].
    assert (PX 0 va <> 0); [|lia]. intros E0. by apply Hne.
Qed.

Lemma demo_uvm : uvm_inv demo_space 0x87fff000 demo_T [].
Proof.
  split.
  - split; [|apply not_elem_of_nil|apply demo_rep|intros; apply not_elem_of_nil].
    split; [done|constructor|constructor|by vm_compute].
  - intros va Hva Hp. destruct (demo_upage va Hva Hp) as [E _]. simpl. rewrite E.
    split; [split; by vm_compute|]. split; [apply not_elem_of_nil|].
    by intros x [[_ ?]|[[_ ?]|[_ ?]]]%demo_lookup.
  - intros va va' Hva Hva' Hp Heq. destruct (demo_upage va Hva Hp) as [_ ->].
    simpl in Heq. by destruct (demo_upage va' Hva') as [_ ->]; [rewrite <- Heq|].
Qed.

Lemma copyout_copyin_witness :
  exists st k s', copyout 0x87fff000 100 [7; 8; 9] 3 demo_space = Ret st s' /\
    uvm_inv s' 0x87fff000 demo_T [] /\
    uwritten (ram demo_space) demo_T (ram s') 100 (take (Z.to_nat k) [7; 8; 9]) /\
    copies (ram demo_space) demo_T 100 3 st k /\
    (st = 0 -> copyin 0x87fff000 100 3 s' = Ret (0, [7; 8; 9]) s').
Proof.
  apply (copyout_copyin 0x87fff000 demo_space demo_T [] 100 [7; 8; 9] 3 demo_uvm);
    [lia|done|done|repeat constructor; lia].
Defined.

Lemma copyinstr_correct_witness :
  exists st bs, copyinstr 0x87fff000 4090 20 demo_space = Ret (st, bs) demo_space /\
    (st = 0 /\ string_found (ram demo_space) demo_T 4090 20 bs \/
     st = -1 /\ string_cut (ram demo_space) demo_T 4090 20 bs).
Proof.
  apply (copyinstr_correct 0x87fff000 demo_space demo_T 4090 20); [by vm_compute|apply demo_rep|lia|lia].
Defined.
