(* ===== verification/VmUvm.v ===== *)
(** * User address spaces: unmapping and copying

    What [uvmunmap] frees and [uvmcopy] builds: a child's address space whose
    pages are fresh, hold the parent's bytes and carry the parent's flags,
    with the parent's space untouched; and, when memory runs out, a child
    space that is empty again, with no page lost. *)

From S2P Require Import Prelude Mem Riscv Str Locks Kalloc Vm VmWalk VmMap VmCopy.
Import Kalloc Vm.

(** [va]'s page is mapped to the page [p] by a leaf. *)
Definition leaf_at (m : mem) (T : ptree) (va p : Z) : Prop :=
  Z.land (pte_of m T va) PTE_V <> 0 /\ PTE_FLAGS (pte_of m T va) <> PTE_V /\
  PTE2PA (pte_of m T va) = p.

(** The pages [us] belong to neither the tables [T] nor the free list [ps]. *)
Record private (e : Z) (T : ptree) (ps us : list Z) : Prop := {
  pr_ok p : p ∈ us -> page_ok e p;
  pr_nodup : NoDup us;
  pr_free p : p ∈ us -> p ∉ ps;
  pr_tab x p : T !! x = Some p -> p ∉ us;
}.

(** What stays the same in an operation on one page table. *)
Definition same_const (s s' : machine) : Prop :=
  kend s' = kend s /\ mlocks s' = mlocks s /\ count s' = count s /\
  etext s' = etext s /\ trampoline s' = trampoline s.

Lemma same_const_trans s1 s2 s3 : same_const s1 s2 -> same_const s2 s3 -> same_const s1 s3.
Proof. intros (?&?&?&?&?) (?&?&?&?&?). repeat split; congruence. Qed.

(** ** Changing one page that is not a table *)

Lemma vm_inv_page s s' root T ps ps' p :
  vm_inv s root T ps -> kmem_inv s' ps' -> kend s' = kend s -> mlocks s' = mlocks s ->
  page_ok (kend s) p -> (forall x, T !! x <> Some p) ->
  (forall a, ~ in_page p a -> ld8 (ram s') a = ld8 (ram s) a) ->
  (forall q, q ∈ ps' -> q = p \/ q ∈ ps) ->
  vm_inv s' root T ps' /\ forall va, pte_of (ram s') T va = pte_of (ram s) T va.
Proof.
  intros [Hk Hl Hr Hs] Hk' He Hm Hok Hnt Hout Hps.
  destruct (tables_ext (kend s) (ram s) (ram s') root T Hr) as [Hr' Hp].
  { intros x q a Hx Ha. apply Hout. intros Ha'. apply (Hnt x).
    by rewrite <- (in_page_disjoint _ _ _ _ (rep_ok _ _ _ _ Hr _ _ Hx) Hok Ha Ha'). }
  split; [|done]. split; [done|by rewrite Hm|by rewrite He|].
  intros x q Hx Hq. destruct (Hps q Hq) as [->|?]; [by eapply Hnt|by eapply Hs].
Qed.

Lemma alloc_state_out p s a : ~ in_page p a -> ld8 (ram (alloc_state p s)) a = ld8 (ram s) a.
Proof. unfold in_page. intros. simpl. apply Str.ld8_memset_out. lia. Qed.

Lemma free_state_out p s a : ~ in_page p a -> ld8 (ram (free_state p s)) a = ld8 (ram s) a.
Proof.
  unfold in_page. intros. simpl. rewrite ld8_st64_ne by (unfold PGSIZE in *; lia).
  apply Str.ld8_memset_out. lia.
Qed.

Lemma vm_inv_alloc s root T p ps :
  vm_inv s root T (p :: ps) ->
  page_ok (kend s) p /\ (p ∉ ps) /\ (forall x, T !! x <> Some p) /\
  vm_inv (alloc_state p s) root T ps /\
  forall va, pte_of (ram (alloc_state p s)) T va = pte_of (ram s) T va.
Proof.
  intros Hinv. pose proof (vm_kmem _ _ _ _ Hinv) as Hk.
  pose proof (inv_pages _ _ Hk) as [Hok _]%Forall_cons.
  pose proof (inv_nodup _ _ Hk) as [Hni _]%NoDup_cons.
  assert (forall x, T !! x <> Some p) as Hnt.
  { intros x Hx. eapply (vm_sep _ _ _ _ Hinv); [done|left]. }
  split; [done|]. split; [done|]. split; [done|].
  eapply (vm_inv_page s _ root T (p :: ps) ps p); try done.
  - by apply alloc_inv.
  - intros a Ha. by apply alloc_state_out.
  - intros q Hq. right. by right.
Qed.

Lemma vm_inv_free s root T ps p :
  vm_inv s root T ps -> page_ok (kend s) p -> p ∉ ps -> (forall x, T !! x <> Some p) ->
  vm_inv (free_state p s) root T (p :: ps) /\
  forall va, pte_of (ram (free_state p s)) T va = pte_of (ram s) T va.
Proof.
  intros Hinv Hok Hni Hnt. eapply (vm_inv_page s _ root T ps (p :: ps) p); try done.
  - apply free_inv; [by eapply vm_kmem|done..].
  - intros a Ha. by apply free_state_out.
  - by intros q ?%elem_of_cons.
Qed.

(** ** uvmunmap *)

Lemma uvmunmap_step root a bound p s T ps :
  vm_inv s root T ps -> 0 <= a < bound -> bound <= MAXVA ->
  leaf_at (ram s) T a p -> private (kend s) T ps [p] ->
  exists s', uvmunmap_body root bound true a s = Ret (inl (u64 (a + PGSIZE))) s' /\
    vm_inv s' root T (p :: ps) /\ same_const s s' /\
    (forall va, 0 <= va < MAXVA -> pte_of (ram s') T va =
       if decide (PGROUNDDOWN va = PGROUNDDOWN a) then 0 else pte_of (ram s) T va) /\
    (forall b, (forall x q, T !! x = Some q -> ~ in_page q b) -> ~ in_page p b ->
       ld8 (ram s') b = ld8 (ram s) b).
Proof.
  intros Hinv Ha Hb (HV & HF & HP) [Hok _ Hfr Htab].
  pose proof (inv_end _ _ (vm_kmem _ _ _ _ Hinv)) as He.
  specialize (Hok p ltac:(left)). specialize (Hfr p ltac:(left)).
  assert (forall x, T !! x <> Some p) as Hnt by (intros x Hx; by eapply Htab; [|left]).
  destruct (T !! vpath 0 a) as [q|] eqn:Hq; [|by unfold pte_of in HV; rewrite Hq in HV].
  destruct (vm_inv_free s root T ps p Hinv Hok Hfr Hnt) as [Hinv' Hpte].
  unfold uvmunmap_body, bind. rewrite (proj2 (Z.ltb_lt _ _)) by lia.
  erewrite walk_noalloc by (done || lia || by eapply vm_rep). cbn [bindr].
  rewrite (proj2 (Z.eqb_neq _ _) (leaf_addr_nonzero _ _ _ _ _ _ Hinv Hq)).
  assert (KERNBASE <= leaf_addr T a) as Hhi by (eapply leaf_addr_high; [exact He|apply (vm_rep _ _ _ _ Hinv)|done]).
  rewrite load64_eq by done. cbn [bindr].
  assert (ld64 (ram s) (leaf_addr T a) = pte_of (ram s) T a) as ->.
  { unfold leaf_addr, pte_of. by rewrite Hq. }
  rewrite (proj2 (Z.eqb_neq _ _) HV), (proj2 (Z.eqb_neq _ _) HF), HP.
  rewrite kfree_eq by (done || apply (vm_lock _ _ _ _ Hinv)). cbn [bindr].
  rewrite store64_eq by done. cbn [bindr ret].
  eexists. split; [done|]. split; [by eapply leaf_store_inv|]. split; [done|]. split.
  - intros va Hv. erewrite leaf_store_pte by (done || lia). by rewrite Hpte.
  - intros b Hbt Hbp. erewrite leaf_store_out by (done || by eapply Hbt). by apply free_state_out.
Qed.

Lemma private_cons e T ps p us :
  private e T ps (p :: us) -> private e T ps [p] /\ private e T (p :: ps) us.
Proof.
  intros [Hok Hn Hf Ht]. apply NoDup_cons in Hn as [Hni Hn]. split; split.
  - intros q ->%list_elem_of_singleton. apply Hok. left.
  - apply NoDup_singleton.
  - intros q ->%list_elem_of_singleton. apply Hf. left.
  - intros x q Hx ->%list_elem_of_singleton. eapply Ht; [done|left].
  - intros q Hq. apply Hok. by right.
  - done.
  - intros q Hq [->|Hq']%elem_of_cons; [done|]. eapply Hf; [|done]. by right.
  - intros x q Hx Hq. eapply Ht; [done|by right].
Qed.

(** The pages [us] are unmapped and put on the free list. *)
Lemma uvmunmap_iter us root a s T ps :
  let bound := a + Z.of_nat (length us) * PGSIZE in
  vm_inv s root T ps -> 0 <= a -> a mod PGSIZE = 0 -> bound <= MAXVA ->
  (forall i p, us !! i = Some p -> leaf_at (ram s) T (a + Z.of_nat i * PGSIZE) p) ->
  private (kend s) T ps us ->
  exists s', iter_n (S (length us)) (uvmunmap_body root bound true) a s = Ret (inr tt) s' /\
    vm_inv s' root T (rev us ++ ps) /\ same_const s s' /\
    (forall va, 0 <= va < MAXVA -> pte_of (ram s') T va =
       if decide (a <= va < bound) then 0 else pte_of (ram s) T va) /\
    (forall b, (forall x q, T !! x = Some q -> ~ in_page q b) ->
       (forall p, p ∈ us -> ~ in_page p b) -> ld8 (ram s') b = ld8 (ram s) b).
Proof.
  revert a s ps; induction us as [|p us IH]; intros a s ps bound Hinv Ha Hal Hb Hleaf Hpr.
  - exists s. split.
    { rewrite iter_n_1. unfold uvmunmap_body. rewrite (proj2 (Z.ltb_ge _ _)); [done|].
      unfold bound. simpl. lia. }
    split; [done|]. split; [done|]. split; [|done].
    intros va Hv. rewrite decide_False; [done|]. unfold bound. simpl. lia.
  - apply private_cons in Hpr as [Hp Hpr].
    pose proof (page_below_MAXVA a 0 Hal) as Hpg. unfold bound in *. cbn [length] in *.
    destruct (uvmunmap_step root a (a + Z.of_nat (S (length us)) * PGSIZE) p s T ps)
      as (s1 & E1 & Hinv1 & Hc1 & Hpte1 & Hout1); try done.
    { unfold PGSIZE. lia. }
    { specialize (Hleaf 0%nat p eq_refl). by rewrite Z.add_0_r in Hleaf. }
    assert (0 <= a < 2 ^ 38) as Ha' by (change MAXVA with (2 ^ 38) in Hb; unfold PGSIZE in Hb; lia).
    rewrite u64_small in E1 by (unfold PGSIZE; lia).
    destruct (IH (a + PGSIZE) s1 (p :: ps)) as (s2 & E2 & Hinv2 & Hc2 & Hpte2 & Hout2); try done.
    + unfold PGSIZE. lia.
    + by apply add_page_aligned.
    + unfold PGSIZE in *. lia.
    + intros i q Hq. specialize (Hleaf (S i) q Hq).
      replace (a + PGSIZE + Z.of_nat i * PGSIZE) with (a + Z.of_nat (S i) * PGSIZE) by lia.
      apply lookup_lt_Some in Hq. unfold leaf_at. rewrite Hpte1, decide_False; [done| |].
      * rewrite (PGROUNDDOWN_aligned a) by done. intros E%page_of_iff; [|unfold PGSIZE; lia|done].
        unfold PGSIZE in E. lia.
      * unfold PGSIZE in *. lia.
    + destruct Hc1 as [-> _]. done.
    + replace (a + PGSIZE + Z.of_nat (length us) * PGSIZE)
        with (a + Z.of_nat (S (length us)) * PGSIZE) in * by lia.
      exists s2. split; [by rewrite (iter_n_inl _ _ _ _ _ _ E1)|].
      cbn [rev]. rewrite <- app_assoc. split; [done|]. split; [by eapply same_const_trans|]. split.
      * intros va Hv. rewrite Hpte2, Hpte1, (PGROUNDDOWN_aligned a) by done.
        pose proof (page_of_iff a va ltac:(lia) Hal). repeat case_decide; try done; unfold PGSIZE in *; lia.
      * intros b Ht Hbu. rewrite Hout2, Hout1; [done|done| |done|].
        -- apply Hbu. left.
        -- intros q Hq. apply Hbu. by right.
Qed.

Lemma uvmunmap_spec us root s T ps :
  let bound := Z.of_nat (length us) * PGSIZE in
  vm_inv s root T ps -> bound <= MAXVA ->
  (forall i p, us !! i = Some p -> leaf_at (ram s) T (Z.of_nat i * PGSIZE) p) ->
  private (kend s) T ps us ->
  exists s', uvmunmap root 0 (Z.of_nat (length us)) true s = Ret tt s' /\
    vm_inv s' root T (rev us ++ ps) /\ same_const s s' /\
    (forall va, 0 <= va < MAXVA -> pte_of (ram s') T va =
       if decide (va < bound) then 0 else pte_of (ram s) T va) /\
    (forall b, (forall x q, T !! x = Some q -> ~ in_page q b) ->
       (forall p, p ∈ us -> ~ in_page p b) -> ld8 (ram s') b = ld8 (ram s) b).
Proof.
  intros bound Hinv Hb Hleaf Hpr.
  destruct (uvmunmap_iter us root 0 s T ps) as (s' & E & ? & ? & Hpte & ?); try done.
  exists s'. assert (0 <= bound <= 2 ^ 38) as Hb'.
  { unfold bound in *. change MAXVA with (2 ^ 38) in Hb. unfold PGSIZE in *. lia. }
  split.
  - unfold uvmunmap. change (negb (0 mod PGSIZE =? 0)) with false. cbn [negb].
    fold bound. fold bound in E. rewrite Z.add_0_l in E.
    rewrite Z.add_0_l, !u64_small by (try rewrite u64_small; lia).
    apply (loop_exit (S (length us))); [|done]. unfold bound, PGSIZE in Hb'. lia.
  - split; [done|]. split; [done|]. split; [|done]. intros va Hv. rewrite Hpte by done.
    unfold bound. repeat case_decide; try done; lia.
Qed.

(** ** uvmcopy *)

(** [mappages] of one page. *)
Lemma mappages_page root a p perm s T ps :
  vm_inv s root T ps -> 0 <= a < MAXVA -> a mod PGSIZE = 0 ->
  0 <= p < PHYSTOP -> 0 <= perm < 1024 -> Z.land (pte_of (ram s) T a) PTE_V = 0 ->
  exists r s' T' ps', mappages root a PGSIZE p perm s = Ret r s' /\
    vm_inv s' root T' ps' /\ vm_frame s T ps s' T' ps' /\ (length ps <= length ps' + 2)%nat /\
    (r = 0 /\ (forall va, 0 <= va < MAXVA -> pte_of (ram s') T' va =
        if decide (PGROUNDDOWN va = a) then Z.lor (Z.lor (PA2PTE p) perm) PTE_V
        else pte_of (ram s) T va) \/
     r = -1 /\ ps' = [] /\
       (forall va, 0 <= va < MAXVA -> pte_of (ram s') T' va = pte_of (ram s) T va)).
Proof.
  intros Hinv Ha Hal Hp Hperm Hun.
  destruct (mappages_step root a p a perm s T ps) as (s' & T' & ps' & Hi & Hf & Hlen & Hr);
    try done; [unfold PHYSTOP, KERNBASE, PGSIZE in *; lia|].
  assert (forall r, mappages_body root a perm (a, p) s = Ret (inr r) s' ->
    mappages root a PGSIZE p perm s = Ret r s') as El.
  { intros r E. unfold mappages. rewrite (proj2 (Z.eqb_neq _ _)) by (unfold PGSIZE; lia).
    rewrite u64_small by (change MAXVA with (2 ^ 38) in *; unfold PGSIZE; lia).
    rewrite (proj2 (page_of_iff a (a + PGSIZE - 1) ltac:(unfold PGSIZE; lia) Hal)) by (unfold PGSIZE; lia).
    rewrite (PGROUNDDOWN_aligned a) by done.
    apply (loop_exit 1); [change MAXVA with (2 ^ 38) in *; unfold PGSIZE; lia|]. by rewrite iter_n_1. }
  destruct Hr as [(E & -> & Hm)|(E & Hm)].
  - exists (-1), s', T', []. split_and!; [by apply El|done..|]. right. split; [done|]. split; [done|].
    intros va Hv. rewrite Hm, decide_False by (done || unfold PGSIZE; lia). done.
  - rewrite Z.eqb_refl in E. exists 0, s', T', ps'. split_and!; [by apply El|done..|].
    left. split; [done|]. intros va Hv. rewrite Hm by done.
    pose proof (page_of_iff a va ltac:(lia) Hal) as Hpg.
    repeat case_decide; try done; try (unfold PGSIZE in *; lia).
    by rewrite H0, Z.sub_diag, Z.add_0_r.
Qed.

(** An address space: the table tree [T] at [root], whose pages from address 0
    on are [us]. *)
Record aspace (s : machine) (root : Z) (T : ptree) (us : list Z) : Prop := {
  as_rep : pt_rep (kend s) (ram s) root T;
  as_leaf i p : us !! i = Some p -> leaf_at (ram s) T (Z.of_nat i * PGSIZE) p;
  as_private : private (kend s) T [] us;
}.

(** The pages an address space consists of. *)
Definition as_page (T : ptree) (us : list Z) (p : Z) : Prop :=
  p ∈ us \/ exists x, T !! x = Some p.

Lemma aspace_ext s s' root T us :
  aspace s root T us -> kend s' = kend s ->
  (forall p a, as_page T us p -> in_page p a -> ld8 (ram s') a = ld8 (ram s) a) ->
  aspace s' root T us /\ forall va, pte_of (ram s') T va = pte_of (ram s) T va.
Proof.
  intros [Hr Hl Hp] He Hb.
  destruct (tables_ext (kend s) (ram s) (ram s') root T Hr) as [Hr' Hpte].
  { intros x q a Hx. apply Hb. right. by exists x. }
  split; [|done]. split; rewrite ?He; try done.
  intros i p Hi. unfold leaf_at. rewrite Hpte. by apply Hl.
Qed.

(** The flags of a copied entry. *)
Lemma copied_pte m T va p q :
  leaf_at m T va p -> 0 <= q < 2 ^ 56 -> q mod PGSIZE = 0 ->
  let e := Z.lor (Z.lor (PA2PTE q) (PTE_FLAGS (pte_of m T va))) PTE_V in
  Z.land e PTE_V <> 0 /\ PTE_FLAGS e = PTE_FLAGS (pte_of m T va) /\ PTE2PA e = q.
Proof.
  intros (HV & HF & _) Hq Hal e.
  set (f := PTE_FLAGS (pte_of m T va)) in *.
  assert (0 <= f < 1024) as Hf by (unfold f; rewrite PTE_FLAGS_eq; apply Z.mod_pos_bound; lia).
  assert (Z.lor f PTE_V = f) as Ef.
  { rewrite land_flags in HV by apply PTE_V_range. fold f in HV.
    apply Z.bits_inj'. intros i Hi. rewrite Z.lor_spec.
    destruct (Z.testbit PTE_V i) eqn:E; [|by rewrite orb_false_r].
    change PTE_V with (2 ^ 0) in *. rewrite Z.pow2_bits_eqb in E by lia. apply Z.eqb_eq in E as <-.
    rewrite orb_true_r. symmetry. destruct (Z.testbit f 0) eqn:Ef; [done|].
    destruct HV. apply Z.bits_inj'. intros j Hj. rewrite Z.land_spec, Z.bits_0, Z.pow2_bits_eqb by lia.
    destruct (Z.eqb_spec 0 j) as [<-|]; [by rewrite Ef|apply andb_false_r]. }
  unfold e. rewrite <- Z.lor_assoc, Ef. split; [|split].
  - rewrite land_flags by apply PTE_V_range. rewrite PTE_FLAGS_lor by lia.
    rewrite land_flags in HV by apply PTE_V_range. done.
  - apply PTE_FLAGS_lor; lia.
  - by apply PTE2PA_lor.
Qed.

Lemma page_index va : 0 <= va -> PGROUNDDOWN va = va / PGSIZE * PGSIZE.
Proof.
  intros. rewrite PGROUNDDOWN_eq. pose proof (Z.div_mod va PGSIZE ltac:(done)).
  unfold PGSIZE in *. lia.
Qed.

(** A memory that differs from [s]'s only in the page just allocated. *)
Lemma vm_inv_fill s root T p ps m :
  vm_inv s root T (p :: ps) -> (forall a, ~ in_page p a -> ld8 m a = ld8 (ram s) a) ->
  vm_inv (set_ram m (alloc_state p s)) root T ps /\
  forall va, pte_of m T va = pte_of (ram s) T va.
Proof.
  intros Hinv Hm. destruct (vm_inv_alloc _ _ _ _ _ Hinv) as (Hok & Hni & Hnt & Hinv1 & _).
  pose proof (inv_pages _ _ (vm_kmem _ _ _ _ Hinv1)) as Hpg.
  eapply (vm_inv_page s (set_ram m (alloc_state p s)) root T (p :: ps) ps p); try done.
  - eapply kmem_inv_ext; [by eapply vm_kmem|done|done|]. intros q a Hq Ha.
    assert (~ in_page p a).
    { intros Ha'. apply Hni. eapply Forall_forall in Hpg; [|done].
      by rewrite (in_page_disjoint _ _ _ _ Hok Hpg Ha' Ha). }
    cbn [set_ram ram]. by rewrite Hm, alloc_state_out.
  - intros q Hq. right. by right.
Qed.

Section uvmcopy.
Context (s0 : machine) (old : Z) (To : ptree) (us : list Z) (new : Z) (Tn : ptree) (ps : list Z).
Hypothesis Hold : aspace s0 old To us.
Hypothesis Hapart : forall p, as_page To us p -> (p ∉ ps) /\ forall x, Tn !! x <> Some p.
Hypothesis Hmax : Z.of_nat (length us) * PGSIZE <= MAXVA.
Hypothesis Hempty : forall va, 0 <= va < Z.of_nat (length us) * PGSIZE -> pte_of (ram s0) Tn va = 0.

(** Where the pages that were free have gone: still free, a new table, or a
    page of the copy; no page has two uses. *)
Record acct (T : ptree) (fr us1 : list Z) : Prop := {
  ac_T : Tn ⊆ T;
  ac_new x p : T !! x = Some p -> Tn !! x = None -> p ∈ ps;
  ac_fr p : p ∈ fr -> p ∈ ps;
  ac_us p : p ∈ us1 -> p ∈ ps;
  ac_private : private (kend s0) T fr us1;
  ac_acc p : p ∈ ps -> p ∈ fr \/ as_page T us1 p;
}.

(** The pages before [length us1 * PGSIZE] are copied, to [us1]. *)
Record upto (s : machine) (T : ptree) (fr us1 : list Z) : Prop := {
  ut_inv : vm_inv s new T fr;
  ut_const : same_const s0 s;
  ut_acct : acct T fr us1;
  ut_pte va : 0 <= va < MAXVA -> pte_of (ram s) T va =
    match us1 !! Z.to_nat (va / PGSIZE) with
    | Some q => Z.lor (Z.lor (PA2PTE q) (PTE_FLAGS (pte_of (ram s0) To va))) PTE_V
    | None => pte_of (ram s0) Tn va
    end;
  ut_bytes i p q : us !! i = Some p -> us1 !! i = Some q ->
    forall o, 0 <= o < PGSIZE -> ld8 (ram s) (q + o) = ld8 (ram s0) (p + o);
  ut_other a : (forall x p, Tn !! x = Some p -> ~ in_page p a) ->
    (forall p, p ∈ ps -> ~ in_page p a) -> ld8 (ram s) a = ld8 (ram s0) a;
}.

Lemma acct_add T q fr us1 s2 s3 T3 fr3 :
  acct T (q :: fr) us1 -> page_ok (kend s0) q -> q ∉ fr -> (forall x, T !! x <> Some q) ->
  vm_frame s2 T fr s3 T3 fr3 -> acct T3 fr3 (us1 ++ [q]).
Proof.
  intros [HT Hnew Hfr Hus [Hok Hn Hf Ht] Hacc] Hq Hqf Hqt [F1 F2 F3 F4 _ _].
  assert (forall p, p ∈ fr3 -> p ∈ fr) as Hsuf.
  { destruct F2 as [l ->]. intros. apply elem_of_app. by right. }
  assert (forall p, p ∈ us1 ++ [q] -> p ∈ us1 \/ p = q) as Happ.
  { intros p [?|?%list_elem_of_singleton]%elem_of_app; auto. }
  split.
  - by etrans.
  - intros x p Hx Hx'. destruct (T !! x) as [p'|] eqn:E.
    + pose proof (lookup_weaken _ _ _ _ E F1). simplify_eq. by eapply Hnew.
    + apply Hfr. right. by eapply F3.
  - intros p Hp. apply Hfr. right. by apply Hsuf.
  - intros p [?| ->]%Happ; [by apply Hus|]. apply Hfr. left.
  - split.
    + intros p [?| ->]%Happ; [by apply Hok|done].
    + apply NoDup_app. split; [done|]. split; [|apply NoDup_singleton].
      intros p Hp ->%list_elem_of_singleton. eapply Hf; [done|left].
    + intros p [Hp| ->]%Happ Hp'; apply Hsuf in Hp'; [|done]. eapply Hf; [done|by right].
    + intros x p Hx Hp. destruct (T !! x) as [p'|] eqn:E.
      * pose proof (lookup_weaken _ _ _ _ E F1). simplify_eq.
        destruct (Happ _ Hp) as [?| ->]; [by eapply Ht|by eapply Hqt].
      * specialize (F3 _ _ Hx E). destruct (Happ _ Hp) as [?| ->]; [|done].
        eapply Hf; [done|by right].
  - intros p [[->|Hp]%elem_of_cons|[Hp|[x Hx]]]%Hacc; unfold as_page; rewrite elem_of_app.
    + right. left. right. left.
    + destruct (F4 p Hp) as [?|?]; auto.
    + auto.
    + right. right. exists x. by eapply lookup_weaken.
Qed.

(** Pages of the copy go back to the free list. *)
Lemma acct_free T fr us1 us2 : acct T fr (us1 ++ us2) -> acct T (rev us2 ++ fr) us1.
Proof.
  intros [HT Hnew Hfr Hus [Hok Hn Hf Ht] Hacc]. apply NoDup_app in Hn as (Hn & Hd & _).
  assert (forall p, p ∈ us1 -> p ∈ us1 ++ us2) as Hin by (intros; apply elem_of_app; by left).
  assert (forall p, p ∈ rev us2 ++ fr <-> p ∈ us2 \/ p ∈ fr) as Hrev.
  { intros p. rewrite elem_of_app, !list_elem_of_In, <- in_rev. done. }
  split; try done.
  - intros p [Hp|Hp]%Hrev; [|by apply Hfr]. apply Hus, elem_of_app. by right.
  - intros p Hp. by apply Hus, Hin.
  - split; try done.
    + intros p Hp. by apply Hok, Hin.
    + intros p Hp [Hp'|Hp']%Hrev; [by eapply Hd|]. eapply Hf; [by apply Hin|done].
    + intros x p Hx Hp. eapply Ht; [done|by apply Hin].
  - intros p. rewrite Hrev. unfold as_page.
    intros [Hp|[[Hp|Hp]%elem_of_app|Hp]]%Hacc; auto.
Qed.

Lemma upto_ok s T fr us1 p : upto s T fr us1 -> p ∈ ps -> page_ok (kend s0) p.
Proof.
  intros H Hp. destruct (ut_const _ _ _ _ H) as [He _].
  destruct (ac_acc _ _ _ (ut_acct _ _ _ _ H) p Hp) as [Hf|[Hu|[x Hx]]].
  - pose proof (inv_pages _ _ (vm_kmem _ _ _ _ (ut_inv _ _ _ _ H))) as Hpg.
    eapply Forall_forall in Hpg; [|done]. by rewrite He in Hpg.
  - by apply (pr_ok _ _ _ _ (ac_private _ _ _ (ut_acct _ _ _ _ H))).
  - rewrite <- He. by eapply (rep_ok _ _ _ _ (vm_rep _ _ _ _ (ut_inv _ _ _ _ H))).
Qed.

(** The parent's pages are apart from everything the copy touches. *)
Lemma upto_apart s T fr us1 p a :
  upto s T fr us1 -> as_page To us p -> in_page p a ->
  (forall x q, Tn !! x = Some q -> ~ in_page q a) /\ (forall q, q ∈ ps -> ~ in_page q a).
Proof.
  intros H Hp Ha. destruct (Hapart p Hp) as [Hnf Hnt].
  assert (page_ok (kend s0) p) as Hok.
  { destruct Hp as [Hp|[x Hx]]; [by apply (pr_ok _ _ _ _ (as_private _ _ _ _ Hold))|].
    by eapply (rep_ok _ _ _ _ (as_rep _ _ _ _ Hold)). }
  destruct (ut_const _ _ _ _ H) as [He _].
  split.
  - intros x q Hx Ha'. apply (Hnt x). rewrite Hx. f_equal. symmetry.
    eapply in_page_disjoint; [exact Hok| |exact Ha|exact Ha']. rewrite <- He.
    eapply (rep_ok _ _ _ _ (vm_rep _ _ _ _ (ut_inv _ _ _ _ H))).
    by eapply lookup_weaken; [|apply (ac_T _ _ _ (ut_acct _ _ _ _ H))].
  - intros q Hq Ha'. apply Hnf.
    by rewrite (in_page_disjoint _ _ _ _ Hok (upto_ok _ _ _ _ _ H Hq) Ha Ha').
Qed.

Lemma upto_old s T fr us1 :
  upto s T fr us1 ->
  aspace s old To us /\ (forall va, pte_of (ram s) To va = pte_of (ram s0) To va) /\
  (forall p a, as_page To us p -> in_page p a -> ld8 (ram s) a = ld8 (ram s0) a).
Proof.
  intros H.
  assert (forall p a, as_page To us p -> in_page p a -> ld8 (ram s) a = ld8 (ram s0) a) as Hb.
  { intros p a Hp Ha. destruct (upto_apart _ _ _ _ p a H Hp Ha). by apply (ut_other _ _ _ _ H). }
  destruct (aspace_ext s0 s old To us Hold) as [? ?]; [apply (ut_const _ _ _ _ H)|done|].
  done.
Qed.

Lemma upto_start : vm_inv s0 new Tn ps -> upto s0 Tn ps [].
Proof.
  intros Hinv. split; try done. split; try done.
  - intros. congruence.
  - by intros p ?%not_elem_of_nil.
  - split; [by intros p ?%not_elem_of_nil|constructor|by intros p ?%not_elem_of_nil|].
    by intros x p _ ?%not_elem_of_nil.
  - by left.
Qed.

(** What one round's memory writes leave alone: it fills the new page [q] and
    may add tables. *)
Lemma upto_frame s T q fr us1 s2 s3 T3 fr3 :
  upto s T (q :: fr) us1 ->
  (forall a, ~ in_page q a -> ld8 (ram s2) a = ld8 (ram s) a) ->
  vm_frame s2 T fr s3 T3 fr3 ->
  (forall p a, p ∈ us1 -> in_page p a -> ld8 (ram s3) a = ld8 (ram s) a) /\
  (forall a, in_page q a -> ld8 (ram s3) a = ld8 (ram s2) a) /\
  (forall a, (forall x p, Tn !! x = Some p -> ~ in_page p a) ->
    (forall p, p ∈ ps -> ~ in_page p a) -> ld8 (ram s3) a = ld8 (ram s0) a).
Proof.
  intros H Hm HF. destruct (ut_const _ _ _ _ H) as [He _].
  pose proof (ut_acct _ _ _ _ H) as [HT Hnew Hfr Hus [Hok Hn Hf Ht] Hacc].
  destruct (vm_inv_alloc _ _ _ _ _ (ut_inv _ _ _ _ H)) as (Hq & Hni & Hnt & Hinv & _).
  pose proof (vm_rep _ _ _ _ (ut_inv _ _ _ _ H)) as Hr. rewrite He in Hq, Hr.
  assert (forall p, p ∈ q :: fr -> page_ok (kend s0) p) as Hfok.
  { intros p Hp. by eapply upto_ok; [|apply Hfr]. }
  split_and!.
  - intros p a Hp Ha. rewrite (fr_other _ _ _ _ _ _ HF a).
    + apply Hm. intros Ha'. eapply (Hf p Hp).
      rewrite (in_page_disjoint _ _ _ _ (Hok p Hp) Hq Ha Ha'). left.
    + intros x p' Hx Ha'. eapply (Ht x p' Hx).
      by rewrite <- (in_page_disjoint _ _ _ _ (Hok p Hp) (rep_ok _ _ _ _ Hr _ _ Hx) Ha Ha').
    + intros p' Hp' Ha'. eapply (Hf p Hp). right.
      by rewrite (in_page_disjoint _ _ _ _ (Hok p Hp) (Hfok p' ltac:(by right)) Ha Ha').
  - intros a Ha. apply (fr_other _ _ _ _ _ _ HF a).
    + intros x p Hx Ha'. eapply (Hnt x).
      by rewrite (in_page_disjoint _ _ _ _ Hq (rep_ok _ _ _ _ Hr _ _ Hx) Ha Ha').
    + intros p Hp Ha'. apply Hni.
      by rewrite (in_page_disjoint _ _ _ _ Hq (Hfok p ltac:(by right)) Ha Ha').
  - intros a HTa Hpa. rewrite (fr_other _ _ _ _ _ _ HF a).
    + rewrite Hm; [by apply (ut_other _ _ _ _ H)|]. apply Hpa, Hfr. left.
    + intros x p Hx. destruct (Tn !! x) as [p'|] eqn:E.
      * pose proof (lookup_weaken _ _ _ _ E HT). simplify_eq. by eapply HTa.
      * apply Hpa. by eapply Hnew.
    + intros p Hp. apply Hpa, Hfr. by right.
Qed.

(** The page copied in round [length us1]. *)
Lemma upto_add s T q fr us1 p s2 s3 T3 fr3 :
  upto s T (q :: fr) us1 -> us !! length us1 = Some p ->
  (forall a, ~ in_page q a -> ld8 (ram s2) a = ld8 (ram s) a) ->
  (forall o, 0 <= o < PGSIZE -> ld8 (ram s2) (q + o) = ld8 (ram s0) (p + o)) ->
  vm_frame s2 T fr s3 T3 fr3 -> same_const s s2 -> vm_inv s3 new T3 fr3 ->
  (forall va, 0 <= va < MAXVA -> pte_of (ram s3) T3 va =
    if decide (PGROUNDDOWN va = Z.of_nat (length us1) * PGSIZE)
    then Z.lor (Z.lor (PA2PTE q) (PTE_FLAGS (pte_of (ram s0) To va))) PTE_V
    else pte_of (ram s) T va) ->
  upto s3 T3 fr3 (us1 ++ [q]).
Proof.
  intros H Hp Hm Hcp HF Hc Hinv Hpte. destruct (upto_frame _ _ _ _ _ _ _ _ _ H Hm HF) as (Hb & Hbq & Ho).
  destruct (vm_inv_alloc _ _ _ _ _ (ut_inv _ _ _ _ H)) as (Hq & Hni & Hnt & _).
  destruct (ut_const _ _ _ _ H) as [He _]. rewrite He in Hq.
  split; [done| | | | |done].
  - eapply same_const_trans; [apply (ut_const _ _ _ _ H)|].
    eapply same_const_trans; [done|]. apply (fr_const _ _ _ _ _ _ HF).
  - by eapply acct_add; [apply (ut_acct _ _ _ _ H)|..].
  - intros va Hv. rewrite Hpte by done.
    pose proof (Z.div_pos va PGSIZE ltac:(lia) ltac:(done)). rewrite page_index by lia.
    case_decide as Hd.
    + rewrite lookup_app_r by (unfold PGSIZE in *; lia).
      replace (Z.to_nat (va / PGSIZE) - length us1)%nat with 0%nat by (unfold PGSIZE in *; lia). done.
    + rewrite (ut_pte _ _ _ _ H) by done.
      destruct (decide (Z.to_nat (va / PGSIZE) < length us1)%nat); [by rewrite lookup_app_l|].
      rewrite lookup_app_r, lookup_ge_None_2 by lia.
      rewrite (lookup_ge_None_2 [q]); [done|]. cbn [length]. unfold PGSIZE in *. lia.
  - intros i p' q' Hi Hi' o Hoff. apply lookup_app_Some in Hi' as [Hi'|[Hl Hi']].
    + rewrite (Hb q'); [by eapply ut_bytes|by eapply list_elem_of_lookup_2|unfold in_page; lia].
    + apply list_lookup_singleton_Some in Hi' as [Hl' <-].
      replace i with (length us1) in Hi by lia. simplify_eq.
      rewrite Hbq by (unfold in_page; lia). by apply Hcp.
Qed.

(** A round that finds no memory for a table gives its page back. *)
Lemma upto_back s T q fr us1 s2 s3 T3 fr3 :
  upto s T (q :: fr) us1 ->
  (forall a, ~ in_page q a -> ld8 (ram s2) a = ld8 (ram s) a) ->
  vm_frame s2 T fr s3 T3 fr3 -> same_const s s2 -> vm_inv s3 new T3 fr3 ->
  (forall va, 0 <= va < MAXVA -> pte_of (ram s3) T3 va = pte_of (ram s) T va) ->
  kfree q s3 = Ret tt (free_state q s3) /\ upto (free_state q s3) T3 (q :: fr3) us1.
Proof.
  intros H Hm HF Hc Hinv Hpte. destruct (upto_frame _ _ _ _ _ _ _ _ _ H Hm HF) as (Hb & Hbq & Ho).
  destruct (vm_inv_alloc _ _ _ _ _ (ut_inv _ _ _ _ H)) as (Hq & Hni & Hnt & _).
  pose proof (ut_acct _ _ _ _ H) as Hac. destruct (ut_const _ _ _ _ H) as [He _]. rewrite He in Hq.
  assert (acct T3 fr3 (us1 ++ [q])) as Hac3 by (by eapply acct_add).
  pose proof (ac_private _ _ _ Hac3) as [_ _ Hpf Hpt].
  assert (q ∈ us1 ++ [q]) as Hin by (apply elem_of_app; right; left).
  assert (same_const s0 s3) as Hc3.
  { eapply same_const_trans; [apply (ut_const _ _ _ _ H)|].
    eapply same_const_trans; [done|]. apply (fr_const _ _ _ _ _ _ HF). }
  assert (page_ok (kend s3) q) as Hq3 by (destruct Hc3 as [-> _]; done).
  destruct (vm_inv_free s3 new T3 fr3 q Hinv Hq3 (Hpf q Hin)) as [Hinv' Hpte'].
  { intros x Hx. by eapply Hpt. }
  split; [apply kfree_eq; [apply (vm_lock _ _ _ _ Hinv)|done|apply (inv_end _ _ (vm_kmem _ _ _ _ Hinv))]|].
  split; [done|done|by apply (acct_free T3 fr3 us1 [q])| | |].
  - intros va Hv. rewrite Hpte', Hpte by done. by apply (ut_pte _ _ _ _ H).
  - intros i p q' Hi Hi' o Hoff.
    assert (q' ∈ us1) as Hq' by (by eapply list_elem_of_lookup_2).
    assert (in_page q' (q' + o)) as Ha by (unfold in_page; lia).
    rewrite free_state_out; [rewrite (Hb q') by done; by eapply ut_bytes|].
    pose proof (ac_private _ _ _ Hac) as [Hok _ Hf _].
    intros Ha'. apply (Hf q' Hq'). rewrite (in_page_disjoint _ _ _ _ (Hok q' Hq') Hq Ha Ha'). left.
  - intros a HTa Hpa. rewrite free_state_out; [by apply Ho|].
    apply Hpa, (ac_fr _ _ _ Hac). left.
Qed.

(** A round that got the page [q]: the copy and the mapping. *)
Lemma uvmcopy_page s T q fr us1 p :
  upto s T (q :: fr) us1 -> us !! length us1 = Some p ->
  let i := Z.of_nat (length us1) * PGSIZE in
  let s2 := set_ram (Str.memmove (ram (alloc_state q s)) q p PGSIZE) (alloc_state q s) in
  exists r s3 T3 fr3,
    mappages new i PGSIZE q (PTE_FLAGS (pte_of (ram s) To i)) s2 = Ret r s3 /\
    (length fr <= length fr3 + 2)%nat /\
    (r = 0 /\ upto s3 T3 fr3 (us1 ++ [q]) \/
     r = -1 /\ fr3 = [] /\ kfree q s3 = Ret tt (free_state q s3) /\
       upto (free_state q s3) T3 (q :: fr3) us1).
Proof.
  intros H Hp i s2. pose proof (lookup_lt_Some _ _ _ Hp) as Hlt.
  assert (0 <= i < Z.of_nat (length us) * PGSIZE) as Hi by (unfold i, PGSIZE; lia).
  assert (i mod PGSIZE = 0) as Hal by (unfold i; by apply Z.mod_mul).
  destruct (upto_old _ _ _ _ H) as (Ho & Hopte & Hobytes).
  destruct (vm_inv_alloc _ _ _ _ _ (ut_inv _ _ _ _ H)) as (Hq & Hni & Hnt & _).
  assert (forall a, ~ in_page q a -> ld8 (ram s2) a = ld8 (ram s) a) as Hm.
  { intros a Ha. unfold s2. cbn [set_ram ram]. rewrite Str.ld8_memmove by done.
    unfold in_page in Ha. ifd; [lia|]. by apply alloc_state_out. }
  assert (forall o, 0 <= o < PGSIZE -> ld8 (ram s2) (q + o) = ld8 (ram s0) (p + o)) as Hcp.
  { intros o Hoff. unfold s2. cbn [set_ram ram]. rewrite Str.ld8_memmove by done. ifd; [|lia].
    replace (p + (q + o - q)) with (p + o) by lia.
    assert (as_page To us p) as Hpp by (left; by eapply list_elem_of_lookup_2).
    assert (in_page p (p + o)) as Ha by (unfold in_page; lia).
    rewrite alloc_state_out; [by eapply Hobytes|]. destruct (upto_apart _ _ _ _ p _ H Hpp Ha) as [_ Hx].
    apply Hx, (ac_fr _ _ _ (ut_acct _ _ _ _ H)). left. }
  destruct (vm_inv_fill _ _ _ _ _ (ram s2) (ut_inv _ _ _ _ H) Hm) as [Hinv2 Hpte2].
  assert (same_const s s2) as Hc by done.
  destruct (mappages_page new i q (PTE_FLAGS (pte_of (ram s) To i)) s2 T fr)
    as (r & s3 & T3 & fr3 & E & Hinv3 & HF & Hlen & Hr); try done; [lia| | | |].
  { pose proof (inv_end _ _ (vm_kmem _ _ _ _ Hinv2)). destruct Hq as [_ ?]. unfold KERNBASE in *. cbn in *. lia. }
  { rewrite PTE_FLAGS_eq. by apply Z.mod_pos_bound. }
  { rewrite Hpte2, (ut_pte _ _ _ _ H) by lia. rewrite (lookup_ge_None_2 us1).
    - by rewrite Hempty.
    - unfold i. rewrite Z.div_mul by done. lia. }
  exists r, s3, T3, fr3. split; [done|]. split; [done|].
  destruct Hr as [[-> Hpte]|(-> & -> & Hpte)]; [left|right]; (split; [done|]).
  - eapply upto_add; [done..|]. intros va Hv. rewrite Hpte by done. fold i.
    case_decide as Hd; [|by rewrite Hpte2]. by rewrite <- Hopte, <- (pte_of_page _ _ va), Hd.
  - split; [done|]. eapply upto_back; [done..|]. intros va Hv. by rewrite Hpte.
Qed.

(** One round of the loop. *)
Lemma uvmcopy_step sz s T fr us1 p :
  upto s T fr us1 -> us !! length us1 = Some p ->
  let i := Z.of_nat (length us1) * PGSIZE in
  i < sz ->
  exists s' T' fr',
    (uvmcopy_body old new sz i s = Ret (inr (Some i)) s' /\ upto s' T' fr' us1 /\
       (length fr' <= 1)%nat /\ (length fr <= 3)%nat) \/
    (uvmcopy_body old new sz i s = Ret (inl (i + PGSIZE)) s' /\ (length fr <= length fr' + 3)%nat /\
       exists q, upto s' T' fr' (us1 ++ [q])).
Proof.
  intros H Hp i Hsz. pose proof (lookup_lt_Some _ _ _ Hp) as Hlt.
  assert (0 <= i < MAXVA) as Hi.
  { unfold i. clear - Hlt Hmax. unfold PGSIZE in *. lia. }
  assert (i mod PGSIZE = 0) as Hal by (unfold i; by apply Z.mod_mul).
  destruct (upto_old _ _ _ _ H) as (Ho & Hopte & Hobytes).
  pose proof (as_leaf _ _ _ _ Ho _ _ Hp) as (HV & HF & HP). fold i in HV, HF, HP.
  pose proof (inv_end _ _ (vm_kmem _ _ _ _ (ut_inv _ _ _ _ H))) as He.
  unfold uvmcopy_body, bind. rewrite (proj2 (Z.ltb_lt _ _)) by done.
  erewrite walk_noalloc by (done || lia || by eapply as_rep). cbn [bindr].
  destruct (To !! vpath 0 i) as [tq|] eqn:Htq; [|by unfold pte_of in HV; rewrite Htq in HV].
  assert (leaf_addr To i <> 0) as Hnz.
  { unfold leaf_addr. rewrite Htq. destruct (rep_ok _ _ _ _ (as_rep _ _ _ _ Ho) _ _ Htq) as [_ ?].
    pose proof (PX_range 0 i ltac:(lia)). unfold KERNBASE in *. lia. }
  rewrite (proj2 (Z.eqb_neq _ _) Hnz). rewrite load64_eq by (eapply leaf_addr_high; [exact He|by eapply as_rep|done]). cbn [bindr].
  assert (ld64 (ram s) (leaf_addr To i) = pte_of (ram s) To i) as ->.
  { unfold leaf_addr, pte_of. by rewrite Htq. }
  rewrite (proj2 (Z.eqb_neq _ _) HV), HP.
  pose proof (kalloc_spec _ _ (vm_kmem _ _ _ _ (ut_inv _ _ _ _ H)) (vm_lock _ _ _ _ (ut_inv _ _ _ _ H))) as Hk.
  destruct fr as [|q fr].
  { rewrite Hk. cbn [bindr]. exists s, T, []. left. split; [done|]. split; [done|]. simpl. lia. }
  destruct Hk as [-> _]. cbn [bindr].
  destruct (head_nonzero _ _ _ (vm_kmem _ _ _ _ (ut_inv _ _ _ _ H))) as [_ Hq0].
  rewrite (proj2 (Z.eqb_neq _ _) Hq0). cbn [bindr memmoveM modify].
  destruct (uvmcopy_page _ _ _ _ _ _ H Hp) as (r & s3 & T3 & fr3 & E & Hlen & Hr). fold i in E.
  rewrite E. cbn [bindr]. destruct Hr as [[-> Hu]|(-> & -> & Ek & Hu)].
  - exists s3, T3, fr3. right. change MAXVA with (2 ^ 38) in Hi.
    cbn [negb Z.eqb ret]. rewrite u64_small by (unfold PGSIZE; lia). split; [done|]. split; [simpl; lia|]. by exists q.
  - eexists _, T3, [q]. left. cbn [negb Z.eqb]. rewrite Ek. cbn [bindr ret]. simpl in *.
    split_and!; [done|done|lia|lia].
Qed.

Lemma uvmcopy_iter n sz s T fr us1 :
  upto s T fr us1 -> length us = (length us1 + n)%nat ->
  sz <= Z.of_nat (length us) * PGSIZE < sz + PGSIZE ->
  exists r s' T' fr' us',
    iter_n (S n) (uvmcopy_body old new sz) (Z.of_nat (length us1) * PGSIZE) s = Ret (inr r) s' /\
    upto s' T' fr' us' /\
    (r = None /\ length us' = length us \/
     r = Some (Z.of_nat (length us') * PGSIZE) /\ (length us' < length us)%nat /\
       (length fr' <= 1)%nat /\ (length fr <= 3 * n)%nat).
Proof.
  revert s T fr us1; induction n as [|n IH]; intros s T fr us1 H Hlen Hsz.
  - exists None, s, T, fr, us1. split; [|split; [done|left; split; [done|lia]]].
    rewrite iter_n_1. unfold uvmcopy_body. rewrite (proj2 (Z.ltb_ge _ _)); [done|].
    rewrite Nat.add_0_r in Hlen. rewrite <- Hlen. apply Hsz.
  - destruct (lookup_lt_is_Some_2 us (length us1)) as [p Hp]; [lia|].
    destruct (uvmcopy_step sz s T fr us1 p H Hp) as (s1 & T1 & fr1 & [(E & Hu & Hf & Hl)|(E & Hl & q & Hu)]).
    { clear - Hlen Hsz. unfold PGSIZE in *. lia. }
    + eexists _, s1, T1, fr1, us1. rewrite (iter_n_inr _ _ _ _ _ _ E).
      split; [done|]. split; [done|]. right. split_and!; [done|lia|done|lia].
    + rewrite (iter_n_inl _ _ _ _ _ _ E).
      destruct (IH s1 T1 fr1 (us1 ++ [q]) Hu) as (r & s' & T' & fr' & us' & E' & Hu' & Hres); [|done|].
      { rewrite length_app. simpl. lia. }
      exists r, s', T', fr', us'. split; [|split; [done|]].
      * rewrite <- E'. f_equal. rewrite length_app. simpl. lia.
      * destruct Hres as [?|(-> & ? & ? & ?)]; [by left|right]. split_and!; [done..|lia].
Qed.

(** The finished copy is an address space of its own. *)
Lemma upto_aspace s T fr us1 :
  upto s T fr us1 -> length us1 = length us ->
  aspace s new T us1 /\
  forall va, 0 <= va < Z.of_nat (length us) * PGSIZE ->
    PTE_FLAGS (pte_of (ram s) T va) = PTE_FLAGS (pte_of (ram s0) To va).
Proof.
  intros H Hlen.
  pose proof (ac_private _ _ _ (ut_acct _ _ _ _ H)) as [Hok Hn _ Ht].
  destruct (ut_const _ _ _ _ H) as [He _].
  pose proof (inv_end _ _ (vm_kmem _ _ _ _ (ut_inv _ _ _ _ H))) as Hend. rewrite He in Hend.
  assert (forall i q va, us1 !! i = Some q -> 0 <= va -> va / PGSIZE = Z.of_nat i ->
    Z.land (pte_of (ram s) T va) PTE_V <> 0 /\
    PTE_FLAGS (pte_of (ram s) T va) = PTE_FLAGS (pte_of (ram s0) To va) /\
    PTE_FLAGS (pte_of (ram s0) To va) <> PTE_V /\
    PTE2PA (pte_of (ram s) T va) = q) as Hpte.
  { intros i q va Hi Hv Hd. pose proof (lookup_lt_Some _ _ _ Hi) as Hlt.
    destruct (lookup_lt_is_Some_2 us i) as [p Hp]; [lia|].
    destruct (page_ok_bounds _ _ Hend (Hok q (list_elem_of_lookup_2 _ _ _ Hi))).
    pose proof (as_leaf _ _ _ _ Hold _ _ Hp) as Hl.
    rewrite <- Hd in Hl. unfold leaf_at in Hl. rewrite <- page_index, pte_of_page in Hl by done.
    destruct (copied_pte (ram s0) To va p q) as (? & ? & ?); [done|lia|done|].
    rewrite (ut_pte _ _ _ _ H); [|clear - Hv Hd Hlt Hlen Hmax; unfold PGSIZE in *;
      Z.to_euclidean_division_equations; lia].
    rewrite Hd, Nat2Z.id, Hi. split_and!; try done. apply Hl. }
  split.
  - split; [by apply (vm_rep _ _ _ _ (ut_inv _ _ _ _ H))| |].
    + intros i q Hi. destruct (Hpte i q (Z.of_nat i * PGSIZE) Hi) as (? & E & ? & ?);
        [unfold PGSIZE; lia|by apply Z.div_mul|]. split; [done|]. by rewrite E.
    + rewrite He. split; try done. by intros p _ ?%not_elem_of_nil.
  - intros va Hv. assert (0 <= va / PGSIZE < Z.of_nat (length us)) as Hd.
    { split; [apply Z.div_pos; [lia|done]|]. apply Z.div_lt_upper_bound; [done|]. lia. }
    destruct (lookup_lt_is_Some_2 us1 (Z.to_nat (va / PGSIZE))) as [q Hq]; [lia|].
    by destruct (Hpte _ q va Hq) as (_ & ? & _); [lia|lia|].
Qed.

(** The error path unmaps and frees what was copied. *)
Lemma upto_undo s T fr us1 :
  upto s T fr us1 -> (length us1 < length us)%nat ->
  exists s', uvmunmap new 0 (Z.of_nat (length us1)) true s = Ret tt s' /\
    upto s' T (rev us1 ++ fr) [].
Proof.
  intros H Hlen. pose proof (ut_acct _ _ _ _ H) as Hac. pose proof (ut_const _ _ _ _ H) as Hc.
  pose proof (ac_private _ _ _ Hac) as Hpr. assert (He : kend s = kend s0) by apply Hc.
  pose proof (inv_end _ _ (vm_kmem _ _ _ _ (ut_inv _ _ _ _ H))) as Hend. rewrite He in Hend.
  assert (Z.of_nat (length us1) * PGSIZE <= MAXVA) as Hm.
  { clear - Hlen Hmax. unfold PGSIZE in *. lia. }
  destruct (uvmunmap_spec us1 new s T fr) as (s' & E & Hinv' & Hc' & Hpte & Hout); try done.
  { by apply (ut_inv _ _ _ _ H). }
  { intros i q Hi. pose proof (lookup_lt_Some _ _ _ Hi) as Hlt.
    destruct (lookup_lt_is_Some_2 us i) as [p Hp]; [lia|].
    destruct (page_ok_bounds _ _ Hend (pr_ok _ _ _ _ Hpr q (list_elem_of_lookup_2 _ _ _ Hi))).
    pose proof (as_leaf _ _ _ _ Hold _ _ Hp) as Hl.
    destruct (copied_pte (ram s0) To _ p q Hl) as (? & Ef & ?); [lia|done|].
    unfold leaf_at. rewrite (ut_pte _ _ _ _ H), Z.div_mul, Nat2Z.id, Hi;
      [|done|clear - Hlt Hm; unfold PGSIZE in *; lia].
    split; [done|]. rewrite Ef. split; [apply Hl|done]. }
  { by rewrite He. }
  exists s'. split; [done|].
  split; [done|by eapply same_const_trans|by apply (acct_free T fr [] us1)| |by intros|].
  - intros va Hv. rewrite Hpte by done. cbn. case_decide as Hd.
    + symmetry. apply Hempty. clear - Hd Hv Hlen. unfold PGSIZE in *. lia.
    + rewrite (ut_pte _ _ _ _ H), lookup_ge_None_2; [done| |done].
      clear - Hd Hv. unfold PGSIZE in *. Z.to_euclidean_division_equations. lia.
  - intros a HTa Hpa. rewrite Hout; [by apply (ut_other _ _ _ _ H)| |].
    + intros x p Hx. destruct (Tn !! x) as [p'|] eqn:Ex.
      * pose proof (lookup_weaken _ _ _ _ Ex (ac_T _ _ _ Hac)). simplify_eq. by eapply HTa.
      * apply Hpa. by eapply (ac_new _ _ _ Hac).
    + intros p Hp. by apply Hpa, (ac_us _ _ _ Hac).
Qed.

Lemma uvmcopy_spec sz :
  vm_inv s0 new Tn ps -> sz <= Z.of_nat (length us) * PGSIZE < sz + PGSIZE ->
  exists r s' T fr us', uvmcopy old new sz s0 = Ret r s' /\ upto s' T fr us' /\
    (r = 0 /\ length us' = length us \/
     r = -1 /\ us' = [] /\ (length fr <= length us)%nat /\ (length ps <= 3 * length us)%nat).
Proof.
  intros Hinv Hsz.
  destruct (uvmcopy_iter (length us) sz s0 Tn ps [] (upto_start Hinv)) as (r & s1 & T & fr & us1 & E & H & Hr);
    [done|done|].
  assert (loop (uvmcopy_body old new sz) 0 s0 = Ret r s1) as El.
  { apply (loop_exit (S (length us))); [|done]. clear - Hmax.
    change MAXVA with (2 ^ 38) in Hmax. unfold PGSIZE in *. lia. }
  unfold uvmcopy, bind. rewrite El. cbn [bindr].
  destruct Hr as [[-> Hl]|(-> & Hl & Hf & Hlen)].
  - exists 0, s1, T, fr, us1. split; [done|]. split; [done|]. by left.
  - destruct (upto_undo _ _ _ _ H Hl) as (s2 & E2 & H2).
    rewrite Z.div_mul, E2 by done. cbn [bindr ret].
    eexists _, s2, T, _, []. split; [done|]. split; [done|]. right. split; [done|]. split; [done|].
    rewrite length_app, length_rev. lia.
Qed.
End uvmcopy.

(** C9: [uvmcopy], given a parent's address space and a child's page table
    with nothing mapped below [sz], returns without a panic and leaves every
    byte of the parent's tables and pages as it was.  With result 0 the child
    has an address space of as many pages, all of them fresh, each holding the
    bytes of the parent's page and mapped with the same flags; with result -1
    the child's table maps what it did before.  Either way each page that was
    free is still free, one of the child's tables or one of its pages, with no
    page used twice; and a failure leaves no more free pages than the parent
    has. *)
Theorem uvmcopy_correct sz s old To us new Tn ps :
  aspace s old To us -> vm_inv s new Tn ps ->
  (forall p, as_page To us p -> (p ∉ ps) /\ forall x, Tn !! x <> Some p) ->
  sz <= Z.of_nat (length us) * PGSIZE < sz + PGSIZE -> Z.of_nat (length us) * PGSIZE <= MAXVA ->
  (forall va, 0 <= va < Z.of_nat (length us) * PGSIZE -> pte_of (ram s) Tn va = 0) ->
  exists r s' Tn' ps' us', uvmcopy old new sz s = Ret r s' /\
    aspace s' old To us /\
    (forall p a, as_page To us p -> in_page p a -> ld8 (ram s') a = ld8 (ram s) a) /\
    vm_inv s' new Tn' ps' /\ acct s Tn ps Tn' ps' us' /\
    (r = 0 /\ length us' = length us /\ aspace s' new Tn' us' /\
       (forall i p q, us !! i = Some p -> us' !! i = Some q ->
          bytes (ram s') q PGSIZE = bytes (ram s) p PGSIZE) /\
       (forall va, 0 <= va < Z.of_nat (length us) * PGSIZE ->
          PTE_FLAGS (pte_of (ram s') Tn' va) = PTE_FLAGS (pte_of (ram s) To va)) \/
     r = -1 /\ us' = [] /\ (length ps' <= length us)%nat /\
       forall va, 0 <= va < MAXVA -> pte_of (ram s') Tn' va = pte_of (ram s) Tn va).
Proof.
  intros Hold Hinv Hapart Hsz Hmax Hempty.
  destruct (uvmcopy_spec s old To us new Tn ps Hold Hapart Hmax Hempty sz Hinv Hsz)
    as (r & s' & T & fr & us' & E & H & Hr).
  destruct (upto_old s old To us new Tn ps Hold Hapart _ _ _ _ H) as (Ho & _ & Hb).
  exists r, s', T, fr, us'. split; [done|]. split; [done|]. split; [done|].
  split; [apply H|]. split; [apply H|].
  destruct Hr as [[-> Hl]|(-> & -> & Hf & _)]; [left|right]; (split; [done|]).
  - destruct (upto_aspace s old To us new Tn ps Hold Hmax _ _ _ _ H Hl) as [Ha Hfl].
    split; [done|]. split; [done|]. split; [|done].
    intros i p q Hi Hq. apply bytes_ext. intros o Hoff. by eapply (ut_bytes _ _ _ _ _ _ _ _ _ _ H).
  - split; [done|]. split; [done|]. intros va Hv. by rewrite (ut_pte _ _ _ _ _ _ _ _ _ _ H).
Qed.

(** ** A parent with one page, a child with an empty table, four free pages *)

Definition fork_free : list Z := [0x87ffa000; 0x87ff9000; 0x87ff8000; 0x87ff7000].
Definition fork_ram : mem :=
  st64 (st64 (st64 (st64 demo_ram 0x87ffa000 0x87ff9000) 0x87ff9000 0x87ff8000)
    0x87ff8000 0x87ff7000) 0x87ff7000 0.
Definition fork_machine : machine :=
  Machine fork_ram 0x87ffa000 0 [] 0x80026000 0x80008000 0x80007000.
Definition fork_table : ptree := {[ [] := 0x87ffb000 ]}.

Lemma fork_ram_high a : 0x87ffb000 <= a -> ld8 fork_ram a = ld8 demo_ram a.
Proof. intros. unfold fork_ram. by rewrite !ld8_st64_ne by lia. Qed.

Lemma fork_parent : aspace fork_machine 0x87fff000 demo_T [0x87ffc000].
Proof.
  destruct (tables_ext _ _ fork_ram _ _ demo_rep) as [Hr Hp].
  { intros x q a [[-> ->]|[[-> ->]|[-> ->]]]%demo_lookup Ha; apply fork_ram_high;
      unfold in_page in Ha; lia. }
  split; [done| |split].
  - intros i p [-> <-]%list_lookup_singleton_Some. unfold leaf_at. simpl ram. rewrite Hp.
    by vm_compute.
  - intros p ->%list_elem_of_singleton. split; by vm_compute.
  - apply NoDup_singleton.
  - intros p _. apply not_elem_of_nil.
  - by intros x p [[-> ->]|[[-> ->]|[-> ->]]]%demo_lookup ?%list_elem_of_singleton.
Qed.

Lemma fork_child : vm_inv fork_machine 0x87ffb000 fork_table fork_free.
Proof.
  split.
  - split; [by vm_compute| |repeat constructor; by vm_compute|by vm_compute].
    apply (bool_decide_unpack _). by vm_compute.
  - apply not_elem_of_nil.
  - apply empty_table_rep; [split; by vm_compute|]. intros a Ha. unfold in_page, PGSIZE in Ha.
    simpl. rewrite fork_ram_high by lia. unfold demo_ram. by rewrite !ld8_st64_ne by lia.
  - unfold fork_table. intros x p [_ <-]%lookup_singleton_Some. apply (bool_decide_unpack _). by vm_compute.
Qed.

Lemma uvmcopy_correct_witness :
  exists r s' Tn' ps' us', uvmcopy 0x87fff000 0x87ffb000 100 fork_machine = Ret r s' /\
    aspace s' 0x87fff000 demo_T [0x87ffc000] /\
    (forall p a, as_page demo_T [0x87ffc000] p -> in_page p a ->
       ld8 (ram s') a = ld8 (ram fork_machine) a) /\
    vm_inv s' 0x87ffb000 Tn' ps' /\ acct fork_machine fork_table fork_free Tn' ps' us' /\
    (r = 0 /\ length us' = 1%nat /\ aspace s' 0x87ffb000 Tn' us' /\
       (forall i p q, [0x87ffc000] !! i = Some p -> us' !! i = Some q ->
          bytes (ram s') q PGSIZE = bytes (ram fork_machine) p PGSIZE) /\
       (forall va, 0 <= va < 1 * PGSIZE ->
          PTE_FLAGS (pte_of (ram s') Tn' va) = PTE_FLAGS (pte_of (ram fork_machine) demo_T va)) \/
     r = -1 /\ us' = [] /\ (length ps' <= 1)%nat /\
       forall va, 0 <= va < MAXVA -> pte_of (ram s') Tn' va = pte_of (ram fork_machine) fork_table va).
Proof.
  apply (uvmcopy_correct 100 fork_machine 0x87fff000 demo_T [0x87ffc000] 0x87ffb000 fork_table
    fork_free fork_parent fork_child).
  - intros p Hp. assert (p = 0x87ffc000 \/ p = 0x87fff000 \/ p = 0x87ffe000 \/ p = 0x87ffd000) as Hp'.
    { destruct Hp as [->%list_elem_of_singleton|[x Hx%demo_lookup]]; naive_solver. }
    split.
    + destruct Hp' as [-> |[-> |[-> | ->]]]; apply (bool_decide_unpack _); by vm_compute.
    + unfold fork_table. intros x [_ <-]%lookup_singleton_Some. by destruct Hp' as [?|[?|[?|?]]].
  - simpl. unfold PGSIZE. lia.
  - by vm_compute.
  - intros va _. unfold pte_of, fork_table. by rewrite lookup_singleton_ne.
Defined.
