(* ===== verification/VmFree.v ===== *)
(** * Freeing page tables

    What [freewalk], [uvmfree] and [uvmunmap] of a single page do: a page table
    without leaves is returned to the allocator, every table of it once, and an
    address space with all its pages. *)

From S2P Require Import Prelude Mem Riscv Str Locks Kalloc Vm VmWalk VmMap VmCopy VmUvm.
Import Kalloc Vm.

(** ** freewalk *)

(** The table at [p], [n] levels above the leaves, consists of the pages [l] and
    maps nothing. *)
Fixpoint tabs (n : nat) (m : mem) (p : Z) (l : list Z) : Prop :=
  exists ls, l = p :: concat ls /\ length ls = 512%nat /\ forall i li, ls !! i = Some li ->
    li = [] /\ Z.land (ld64 m (p + 8 * Z.of_nat i)) PTE_V = 0 \/
    match n with
    | O => False
    | S n' => exists q, ld64 m (p + 8 * Z.of_nat i) = Z.lor (PA2PTE q) PTE_V /\ tabs n' m q li
    end.

(** One entry of such a table. *)
Definition tab_entry (n : nat) (m : mem) (a : Z) (li : list Z) : Prop :=
  li = [] /\ Z.land (ld64 m a) PTE_V = 0 \/
  match n with O => False | S n' => exists q, ld64 m a = Z.lor (PA2PTE q) PTE_V /\ tabs n' m q li end.

Lemma tabs_eq n m p l : tabs n m p l <-> exists ls, l = p :: concat ls /\ length ls = 512%nat /\
  forall i li, ls !! i = Some li -> tab_entry n m (p + 8 * Z.of_nat i) li.
Proof. by destruct n. Qed.

Lemma tabs_head n m p l : tabs n m p l -> p ∈ l.
Proof. intros (ls & -> & _)%tabs_eq. left. Qed.

Lemma page_word_ext m m' p i : (forall a, in_page p a -> ld8 m' a = ld8 m a) -> 0 <= i < 512 ->
  ld64 m' (p + 8 * i) = ld64 m (p + 8 * i).
Proof. intros H Hi. apply ld64_ext. intros j Hj. apply H. unfold in_page, PGSIZE. lia. Qed.

Lemma elem_of_concat {A} (ls : list (list A)) x : x ∈ concat ls <-> exists l, l ∈ ls /\ x ∈ l.
Proof. rewrite list_elem_of_In, in_concat. by setoid_rewrite <- list_elem_of_In. Qed.

Lemma concat_elem {A} (ls : list (list A)) i l x : ls !! i = Some l -> x ∈ l -> x ∈ concat ls.
Proof. intros Hi Hx. apply elem_of_concat. exists l. split; [|done]. by eapply list_elem_of_lookup_2. Qed.

Lemma tabs_ext n : forall m m' p l, (forall q a, q ∈ l -> in_page q a -> ld8 m' a = ld8 m a) -> tabs n m p l -> tabs n m' p l.
Proof.
  induction n as [|n IH]; intros m m' p l H (ls & -> & Hl & He)%tabs_eq; apply tabs_eq; exists ls; (split; [done|]); (split; [done|]);
    intros i li Hi; pose proof (lookup_lt_Some _ _ _ Hi); unfold tab_entry;
    rewrite (page_word_ext m m') by (lia || by intros a; apply H; left); specialize (He i li Hi); [exact He|].
  destruct He as [He|(q & Eq & Hq)]; [by left|right]. exists q. split; [done|]. eapply IH; [|done].
  intros r a Hr. apply H. right. by eapply concat_elem.
Qed.

Lemma table_entry_walk e q : KERNBASE <= e -> page_ok e q ->
  (Z.land (Z.lor (PA2PTE q) PTE_V) (Z.lor PTE_R (Z.lor PTE_W PTE_X)) =? 0) = true.
Proof.
  intros He Hq. pose proof (page_ok_bounds e q He Hq) as [Hb _]. rewrite land_flags by by vm_compute.
  rewrite PTE_FLAGS_lor by (apply PTE_V_range || lia). by vm_compute.
Qed.

(** [m] returns the pages [l] to the allocator and changes no byte outside of
    [touched]. *)
Definition gives_back (m : M machine unit) (s : machine) (ps l : list Z) (touched : Z -> Prop) : Prop :=
  exists s' ps', m s = Ret tt s' /\ kmem_inv s' ps' /\ ps' ≡ₚ l ++ ps /\ same_const s s' /\
    forall a, ~ touched a -> ld8 (ram s') a = ld8 (ram s) a.

Definition in_pages (l : list Z) (a : Z) : Prop := exists q, q ∈ l /\ in_page q a.

Lemma tab_entry_ext n m m' a li : ld64 m' a = ld64 m a -> (forall q b, q ∈ li -> in_page q b -> ld8 m' b = ld8 m b) ->
  tab_entry n m a li -> tab_entry n m' a li.
Proof.
  intros Ea H [[-> Hv]|He]; [left; by rewrite Ea|right]. destruct n as [|n]; [done|]. destruct He as (q & Eq & Hq).
  exists q. rewrite Ea. split; [done|]. by eapply tabs_ext.
Qed.

Lemma same_const_refl s : same_const s s.
Proof. done. Qed.

(** The entries of a table from [i] on, when the tables below can be freed. *)
Section entries.
Context (n d : nat) (p : Z).
Let body (i : Z) : M machine unit :=
  (pte <- load64 (p + 8 * i);
   if negb (Z.land pte PTE_V =? 0) && (Z.land pte (Z.lor PTE_R (Z.lor PTE_W PTE_X)) =? 0)
   then freewalk_rec d (PTE2PA pte);; store64 (p + 8 * i) 0
   else if negb (Z.land pte PTE_V =? 0) then panic "freewalk: leaf"
   else ret tt)%K.
Hypothesis IH : forall n' q l s ps, n = S n' -> tabs n' (ram s) q l -> kmem_inv s ps -> kmem_lock ∉ mlocks s ->
  Forall (page_ok (kend s)) l -> NoDup (l ++ ps) -> gives_back (freewalk_rec d q) s ps l (in_pages l).

(** One entry. *)
Lemma freewalk_entry i li s ps : 0 <= i < 512 -> tab_entry n (ram s) (p + 8 * i) li -> kmem_inv s ps -> kmem_lock ∉ mlocks s ->
  page_ok (kend s) p -> Forall (page_ok (kend s)) li -> NoDup (p :: li ++ ps) ->
  gives_back (body i) s ps li (fun a => p + 8 * i <= a < p + 8 * i + 8 \/ in_pages li a).
Proof.
  intros Hi He Hk Hl Hp Hli [Hnp Hnd]%NoDup_cons. pose proof (inv_end _ _ Hk) as Hend. unfold body.
  assert (KERNBASE <= p + 8 * i) as Hhi by (destruct Hp; lia).
  destruct He as [[-> Hv]|He].
  - exists s, ps. rewrite bind_Ret with (a := ld64 (ram s) (p + 8 * i)) (s1 := s) by by apply load64_eq. rewrite Hv. by split_and!.
  - destruct n as [|n'] eqn:En; [done|]. destruct He as (q & Eq & Hq).
    assert (page_ok (kend s) q) as Hqok by (eapply (proj1 (Forall_forall _ _) Hli), tabs_head; done).
    destruct (IH n' q li s ps eq_refl Hq Hk Hl Hli Hnd) as (s1 & ps1 & E1 & Hk1 & Hps1 & Hc1 & Hm1).
    exists (set_ram (st64 (ram s1) (p + 8 * i) 0) s1), ps1. split_and!; [|..|exact Hps1|exact Hc1|].
    + rewrite bind_Ret with (a := ld64 (ram s) (p + 8 * i)) (s1 := s) by by apply load64_eq.
      rewrite Eq, table_entry_valid, (table_entry_walk _ _ Hend Hqok), (table_entry_pa _ _ Hend Hqok). cbn [negb andb].
      erewrite bind_Ret by exact E1. by apply store64_eq.
    + eapply (kmem_inv_ext s1); [done..|]. intros r a Hr Ha. apply ld8_st64_ne.
      assert (r <> p) as Hrp by (intros ->; apply Hnp; by rewrite <- Hps1).
      pose proof (inv_pages _ _ Hk1) as Hok1. rewrite Forall_forall in Hok1. specialize (Hok1 r Hr). destruct Hc1 as (Ee & _).
      rewrite Ee in Hok1. pose proof (page_disjoint _ _ _ Hok1 Hp Hrp). unfold in_page, PGSIZE in *. lia.
    + intros a Ha. cbn [ram set_ram]. rewrite ld8_st64_ne by (destruct (decide (p + 8 * i <= a < p + 8 * i + 8)); [destruct Ha; by left|lia]).
      apply Hm1. intros Hin. apply Ha. by right.
Qed.

Lemma freewalk_entries ls : forall i s ps, 0 <= i -> i + Z.of_nat (length ls) = 512 ->
  (forall j li, ls !! j = Some li -> tab_entry n (ram s) (p + 8 * (i + Z.of_nat j)) li) -> kmem_inv s ps -> kmem_lock ∉ mlocks s ->
  page_ok (kend s) p -> Forall (page_ok (kend s)) (concat ls) -> NoDup (p :: concat ls ++ ps) ->
  gives_back (for_range (length ls) i body) s ps (concat ls) (fun a => in_page p a \/ in_pages (concat ls) a).
Proof.
  induction ls as [|li ls IHls]; intros i s ps Hi Hlen He Hk Hl Hp Hok Hnd; cbn [length for_range concat] in *.
  { by exists s, ps. }
  apply Forall_app in Hok as [Hok1 Hok2]. pose proof Hnd as [Hnp Hnd1]%NoDup_cons. rewrite <- app_assoc in Hnp, Hnd1.
  pose proof (He 0%nat li eq_refl) as He0. rewrite Z.add_0_r in He0.
  destruct (freewalk_entry i li s ps) as (s1 & ps1 & E1 & Hk1 & Hps1 & Hc1 & Hm1); try done; [lia|..].
  { apply NoDup_cons. split; [set_solver|]. apply NoDup_app in Hnd1 as (? & Hd & Hnd2). apply NoDup_app in Hnd2 as (_ & _ & ?).
    apply NoDup_app. split; [done|]. split; [|done]. intros x Hx. specialize (Hd x Hx). set_solver. }
  pose proof Hc1 as (Ek & El & _).
  assert (forall q a, q ∈ concat ls -> in_page q a -> ld8 (ram s1) a = ld8 (ram s) a) as Hsame.
  { intros q a Hq Ha. apply Hm1. assert (page_ok (kend s) q) as Hqok by (by eapply (proj1 (Forall_forall _ _) Hok2)).
    intros [Hw|(r & Hr & Hra)].
    - assert (q = p) as -> by (eapply (in_page_disjoint _ q p a); try done; apply (in_page_word p i); lia). set_solver.
    - assert (page_ok (kend s) r) as Hrok by (by eapply (proj1 (Forall_forall _ _) Hok1)).
      assert (q = r) as -> by by eapply (in_page_disjoint _ q r a). apply NoDup_app in Hnd1 as (_ & Hd & _). specialize (Hd r Hr). set_solver. }
  destruct (IHls (i + 1) s1 ps1) as (s2 & ps2 & E2 & Hk2 & Hps2 & Hc2 & Hm2); try done; try lia.
  - intros j lj Hj. pose proof (lookup_lt_Some _ _ _ Hj). specialize (He (S j) lj Hj).
    replace (i + Z.of_nat (S j)) with (i + 1 + Z.of_nat j) in He by lia. eapply tab_entry_ext; [| |exact He].
    + apply ld64_ext. intros k Hk'. apply Hm1. intros [?|(r & Hr & Hra)]; [lia|].
      assert (page_ok (kend s) r) as Hrok by (by eapply (proj1 (Forall_forall _ _) Hok1)).
      assert (r = p) as ->; [|set_solver]. eapply (in_page_disjoint _ r p); [done|done|exact Hra|]. unfold in_page, PGSIZE. lia.
    + intros q b Hq Hb. apply (Hsame q); [|done]. by eapply concat_elem.
  - by rewrite El.
  - by rewrite Ek.
  - by rewrite Ek.
  - rewrite Hps1. rewrite <- app_assoc in Hnd. eapply NoDup_Permutation_proper; [|exact Hnd]. apply perm_skip. solve_Permutation.
  - exists s2, ps2. split_and!; [by erewrite bind_Ret by exact E1|done| | |].
    + rewrite Hps2, Hps1. solve_Permutation.
    + by eapply same_const_trans.
    + intros a Ha. rewrite Hm2, Hm1; [done|..].
      * intros [Hw|Hin]; apply Ha; [left; by apply (in_page_word p i); [lia|]|right].
        destruct Hin as (r & ? & ?). exists r. split; [|done]. apply elem_of_app. by left.
      * intros [Hw|Hin]; apply Ha; [by left|right]. destruct Hin as (r & ? & ?). exists r. split; [|done]. apply elem_of_app. by right.
Qed.
End entries.

Lemma freewalk_tabs n : forall d p l s ps, (n < d)%nat -> tabs n (ram s) p l -> kmem_inv s ps -> kmem_lock ∉ mlocks s ->
  Forall (page_ok (kend s)) l -> NoDup (l ++ ps) -> gives_back (freewalk_rec d p) s ps l (in_pages l).
Proof.
  induction n as [n IH] using lt_wf_ind; intros [|d] p l s ps Hd (ls & -> & Hlen & He)%tabs_eq Hk Hl Hok Hnd; [lia|].
  apply Forall_cons in Hok as [Hp Hok]. cbn [freewalk_rec].
  destruct (freewalk_entries n d p) with (ls := ls) (i := 0) (s := s) (ps := ps) as (s1 & ps1 & E1 & Hk1 & Hps1 & Hc1 & Hm1);
    try done; [|lia|].
  { intros n' q l' s' ps' ->. apply IH; lia. }
  pose proof Hc1 as (Ek & El & _). cbn [app] in Hnd. pose proof Hnd as [Hnp _]%NoDup_cons.
  assert (p ∉ ps1) as Hnp1 by (by rewrite Hps1).
  exists (free_state p s1), (p :: ps1). split_and!.
  - rewrite Hlen in E1. erewrite bind_Ret by exact E1. apply kfree_eq; [by rewrite El|by rewrite Ek|by eapply inv_end].
  - apply free_inv; [done|by rewrite Ek|done].
  - cbn. by rewrite Hps1.
  - done.
  - intros a Ha. rewrite free_state_out by (intros Hin; apply Ha; exists p; split; [left|done]).
    apply Hm1. intros [Hin|(q & Hq & Hqa)]; apply Ha; [by exists p; split; [left|]|exists q; by split; [right|]].
Qed.

(** ** The tables of a page table *)

(** Nothing is mapped. *)
Definition unmapped (m : mem) (T : ptree) : Prop := forall va, 0 <= va < MAXVA -> Z.land (pte_of m T va) PTE_V = 0.

Definition va_of (i2 i1 i0 : Z) : Z := i2 * 2 ^ 30 + i1 * 2 ^ 21 + i0 * 2 ^ 12.

Lemma va_of_PX i2 i1 i0 : 0 <= i2 < 256 -> 0 <= i1 < 512 -> 0 <= i0 < 512 -> let va := va_of i2 i1 i0 in
  0 <= va < MAXVA /\ PX 2 va = i2 /\ PX 1 va = i1 /\ PX 0 va = i0.
Proof.
  intros H2 H1 H0 va. change MAXVA with (2 ^ 38). split; [unfold va, va_of; lia|]. rewrite !PX_eq by lia.
  change (12 + 9 * 2) with 30. change (12 + 9 * 1) with 21. change (12 + 9 * 0) with 12. unfold va, va_of. split_and!.
  - rewrite <- (Z.div_unique _ (2 ^ 30) i2 (i1 * 2 ^ 21 + i0 * 2 ^ 12)) by lia. apply Z.mod_small. lia.
  - rewrite <- (Z.div_unique _ (2 ^ 21) (i2 * 512 + i1) (i0 * 2 ^ 12)) by lia. symmetry. apply (Z.mod_unique _ _ i2); lia.
  - rewrite <- (Z.div_unique _ (2 ^ 12) ((i2 * 512 + i1) * 512 + i0) 0) by lia. symmetry.
    apply (Z.mod_unique _ _ (i2 * 512 + i1)); lia.
Qed.

Lemma list_choice {A} (k : nat) (P : nat -> A -> Prop) : (forall i, (i < k)%nat -> exists a, P i a) ->
  exists l, length l = k /\ forall i a, l !! i = Some a -> P i a.
Proof.
  induction k as [|k IH]; intros H; [by exists []|]. destruct IH as (l & Hl & HP); [auto|].
  destruct (H k) as [a Ha]; [lia|]. exists (l ++ [a]). split; [rewrite length_app; cbn; lia|].
  intros i b [Hi|[Hi Hb]]%lookup_app_Some; [by apply HP|]. apply list_lookup_singleton_Some in Hb as [Hi0 <-].
  by replace i with k by lia.
Qed.

Lemma NoDup_concat {A} (ls : list (list A)) : (forall i l, ls !! i = Some l -> NoDup l) ->
  (forall i j l l' x, ls !! i = Some l -> ls !! j = Some l' -> x ∈ l -> x ∈ l' -> i = j) -> NoDup (concat ls).
Proof.
  induction ls as [|l ls IH]; intros Hn Hd; cbn [concat]; [constructor|]. apply NoDup_app. split; [by apply (Hn 0%nat)|]. split.
  - intros x Hx (l' & Hl' & Hx')%elem_of_concat. apply list_elem_of_lookup_1 in Hl' as (j & Hj).
    by specialize (Hd 0%nat (S j) l l' x eq_refl Hj Hx Hx').
  - apply IH; [intros i; apply (Hn (S i))|]. intros i j l1 l2 x H1 H2 H3 H4. by specialize (Hd (S i) (S j) l1 l2 x H1 H2 H3 H4) as [= ->].
Qed.

Section rep_tabs.
Context (e : Z) (m : mem) (root : Z) (T : ptree).
Hypothesis Hr : pt_rep e m root T.
Hypothesis Hun : unmapped m T.

Lemma leaf_entry_empty x p i : T !! x = Some p -> length x = 2%nat -> 0 <= i < 512 -> Z.land (ld64 m (p + 8 * i)) PTE_V = 0.
Proof.
  intros Hx Hl Hi. destruct x as [|a [|b [|]]]; try done.
  destruct (rep_dom _ _ _ _ Hr [a] b p Hx) as (Hb & [q Hq] & _). destruct (rep_dom _ _ _ _ Hr [] a q Hq) as (Ha & _).
  pose proof (rep_low _ _ _ _ Hr _ _ Hq) as Hlow. destruct (va_of_PX a b i) as (Hv & E2 & E1 & E0); [lia..|].
  specialize (Hun _ Hv). unfold pte_of, vpath in Hun. rewrite E2, E1, E0, Hx in Hun. done.
Qed.

(** A path below a leaf table is the table's own. *)
Lemma below_leaf x y q : T !! (x ++ y) = Some q -> length x = 2%nat -> y = [].
Proof.
  intros Hy Hl. destruct y as [|b y _] using rev_ind; [done|]. rewrite app_assoc in Hy.
  destruct (rep_dom _ _ _ _ Hr _ _ _ Hy) as (_ & _ & Hlen). rewrite length_app in Hlen. lia.
Qed.

Lemma rep_prefix x y q : T !! (x ++ y) = Some q -> is_Some (T !! x).
Proof.
  revert q. induction y as [|b y IH] using rev_ind; intros q Hq; [rewrite app_nil_r in Hq; by eexists|].
  rewrite app_assoc in Hq. destruct (rep_dom _ _ _ _ Hr _ _ _ Hq) as (_ & [q' Hq'] & _). by eapply IH.
Qed.

(** The pages of the tables from [x] on. *)
Definition below (x l : list Z) : Prop := NoDup l /\ forall q, q ∈ l <-> exists y, T !! (x ++ y) = Some q.

Lemma rep_tabs n : forall x p, T !! x = Some p -> (length x + n = 2)%nat -> exists l, tabs n m p l /\ below x l.
Proof.
  induction n as [|n IH]; intros x p Hx Hl.
  - exists (p :: concat (repeat [] 512)). assert (concat (repeat (@nil Z) 512) = []) as -> by done. split.
    + apply tabs_eq. exists (repeat [] 512). split; [done|]. split; [done|]. intros i li Hi.
      apply lookup_repeat_inv in Hi as Ei. left. split; [done|]. pose proof (lookup_lt_Some _ _ _ Hi) as Hlt. rewrite repeat_length in Hlt.
      apply (leaf_entry_empty x); [done|lia|lia].
    + split; [apply NoDup_singleton|]. intros q. rewrite list_elem_of_singleton. split.
      * intros ->. exists []. by rewrite app_nil_r.
      * intros (y & Hy). rewrite (below_leaf x y q Hy ltac:(lia)), app_nil_r in Hy. congruence.
  - destruct (list_choice 512 (fun i li => tab_entry (S n) m (p + 8 * Z.of_nat i) li /\ NoDup li /\
      forall q, q ∈ li <-> exists y, T !! (x ++ Z.of_nat i :: y) = Some q)) as (ls & Hls & HP).
    { intros i Hi. pose proof (rep_entry _ _ _ _ Hr x p (Z.of_nat i) Hx ltac:(lia) ltac:(lia)) as He.
      destruct (T !! (x ++ [Z.of_nat i])) as [q|] eqn:Eq.
      - destruct (IH _ _ Eq) as (li & Hli & Hnd & Hin); [rewrite length_app; cbn; lia|]. exists li.
        split; [right; by exists q|]. split; [done|]. intros r. rewrite Hin. by setoid_rewrite <- app_assoc.
      - exists []. split; [by left|]. split; [constructor|]. intros q. rewrite elem_of_nil. split; [done|].
        intros (y & Hy). destruct (rep_prefix (x ++ [Z.of_nat i]) y q) as [? ?]; [by rewrite <- app_assoc|congruence]. }
    assert (forall q, q ∈ concat ls <-> exists i y, T !! (x ++ i :: y) = Some q) as Hin.
    { intros q. rewrite elem_of_concat. split.
      - intros (li & (i & Hi)%list_elem_of_lookup_1 & Hq). destruct (HP _ _ Hi) as (_ & _ & Hq'). apply Hq' in Hq as (y & Hy). eauto.
      - intros (i & y & Hy). destruct (rep_prefix (x ++ [i]) y q) as [q' Hq']; [by rewrite <- app_assoc|].
        destruct (rep_dom _ _ _ _ Hr _ _ _ Hq') as (Hi & _). destruct (lookup_lt_is_Some_2 ls (Z.to_nat i)) as [li Hli]; [lia|].
        exists li. split; [by eapply list_elem_of_lookup_2|]. apply (HP _ _ Hli). exists y. by rewrite Z2Nat.id by lia. }
    exists (p :: concat ls). split; [apply tabs_eq; exists ls; split; [done|]; split; [done|]; intros i li Hi; by apply HP|]. split.
    + apply NoDup_cons. split.
      * intros (i & y & Hy)%Hin. pose proof (rep_inj _ _ _ _ Hr _ _ _ Hx Hy) as E%(f_equal length). rewrite length_app in E. cbn in E. lia.
      * apply NoDup_concat; [intros i li Hi; by destruct (HP _ _ Hi) as (_ & ? & _)|]. intros i j li lj q Hi Hj Hq1 Hq2.
        destruct (HP _ _ Hi) as (_ & _ & H1), (HP _ _ Hj) as (_ & _ & H2). apply H1 in Hq1 as (y1 & Hy1). apply H2 in Hq2 as (y2 & Hy2).
        pose proof (rep_inj _ _ _ _ Hr _ _ _ Hy1 Hy2) as [= E _]%app_inv_head. lia.
    + intros q. rewrite elem_of_cons, Hin. split.
      * intros [->|(i & y & Hy)]; [exists []; by rewrite app_nil_r|by exists (i :: y)].
      * intros ([|i y] & Hy); [rewrite app_nil_r in Hy; left; congruence|right; eauto].
Qed.
End rep_tabs.

(** The pages of all the tables of [T]. *)
Definition tables (T : ptree) (l : list Z) : Prop := NoDup l /\ forall q, q ∈ l <-> exists x, T !! x = Some q.

Lemma freewalk_spec s root T ps : vm_inv s root T ps -> unmapped (ram s) T ->
  exists l, tables T l /\ gives_back (freewalk root) s ps l (in_pages l).
Proof.
  intros [Hk Hl Hr Hsep] Hun.
  destruct (rep_tabs _ _ _ _ Hr Hun 2 [] root (rep_root _ _ _ _ Hr) eq_refl) as (l & Ht & Hnd & Hin). exists l. split; [done|].
  apply (freewalk_tabs 2); [lia|done..| |].
  - apply Forall_forall. intros q (x & Hx)%Hin. by eapply (rep_ok _ _ _ _ Hr).
  - apply NoDup_app. split; [done|]. split; [|apply (inv_nodup _ _ Hk)]. intros q (x & Hx)%Hin. by eapply Hsep.
Qed.

(** ** One page, not freed *)

Lemma uvmunmap_one root a pg s T ps : vm_inv s root T ps -> 0 <= a -> a mod PGSIZE = 0 -> a + PGSIZE <= MAXVA ->
  leaf_at (ram s) T a pg ->
  exists s', uvmunmap root a 1 false s = Ret tt s' /\ vm_inv s' root T ps /\ same_const s s' /\
    (forall va, 0 <= va < MAXVA -> pte_of (ram s') T va = if decide (PGROUNDDOWN va = a) then 0 else pte_of (ram s) T va) /\
    forall b, (forall x q, T !! x = Some q -> ~ in_page q b) -> ld8 (ram s') b = ld8 (ram s) b.
Proof.
  intros Hinv Ha Hal Hmax (HV & HF & HP). change MAXVA with (2 ^ 38) in Hmax.
  destruct (T !! vpath 0 a) as [q|] eqn:Hq; [|by unfold pte_of in HV; rewrite Hq in HV].
  set (s' := set_ram (st64 (ram s) (leaf_addr T a) 0) s). exists s'. split; [|split; [by eapply leaf_store_inv|split; [done|split]]].
  - unfold uvmunmap. rewrite Hal. cbn [negb Z.eqb]. change (u64 (1 * PGSIZE)) with PGSIZE. rewrite u64_small by (unfold PGSIZE in *; lia).
    apply (loop_exit 2); [lia|]. rewrite (iter_n_inl _ _ _ _ (u64 (a + PGSIZE)) s').
    + rewrite iter_n_1. unfold uvmunmap_body. rewrite u64_small by (unfold PGSIZE in *; lia). by rewrite Z.ltb_irrefl.
    + unfold uvmunmap_body, bind. rewrite (proj2 (Z.ltb_lt _ _)) by (unfold PGSIZE; lia).
      erewrite walk_noalloc by (apply (inv_end _ _ (vm_kmem _ _ _ _ Hinv)) || (change MAXVA with (2 ^ 38); unfold PGSIZE in *; lia) || by eapply vm_rep).
      cbn [bindr]. rewrite (proj2 (Z.eqb_neq _ _) (leaf_addr_nonzero _ _ _ _ _ _ Hinv Hq)). rewrite load64_eq by (eapply leaf_addr_high; [apply (inv_end _ _ (vm_kmem _ _ _ _ Hinv))|apply (vm_rep _ _ _ _ Hinv)|done]). cbn [bindr].
      assert (ld64 (ram s) (leaf_addr T a) = pte_of (ram s) T a) as -> by (unfold leaf_addr, pte_of; by rewrite Hq).
      rewrite (proj2 (Z.eqb_neq _ _) HV), (proj2 (Z.eqb_neq _ _) HF). cbn [bindr ret].
      by rewrite store64_eq by (eapply leaf_addr_high; [apply (inv_end _ _ (vm_kmem _ _ _ _ Hinv))|apply (vm_rep _ _ _ _ Hinv)|done]).
  - intros va Hv. unfold s'. erewrite leaf_store_pte by (done || change MAXVA with (2 ^ 38); unfold PGSIZE in *; lia).
    by rewrite (PGROUNDDOWN_aligned a Hal).
  - intros b Hb. unfold s'. erewrite leaf_store_out by (done || by eapply Hb). done.
Qed.

(** ** uvmfree *)

Lemma private_nil e T ps : private e T ps [].
Proof. split; [by intros p ?%not_elem_of_nil|constructor|by intros p ?%not_elem_of_nil|intros x p _; apply not_elem_of_nil]. Qed.

Lemma uvmfree_spec root sz us s T ps : vm_inv s root T ps -> 0 <= sz -> sz <= Z.of_nat (length us) * PGSIZE < sz + PGSIZE ->
  Z.of_nat (length us) * PGSIZE <= MAXVA ->
  (forall i p, us !! i = Some p -> leaf_at (ram s) T (Z.of_nat i * PGSIZE) p) -> private (kend s) T ps us ->
  (forall va, Z.of_nat (length us) * PGSIZE <= va < MAXVA -> Z.land (pte_of (ram s) T va) PTE_V = 0) ->
  exists l, tables T l /\ gives_back (uvmfree root sz) s ps (us ++ l) (in_pages (us ++ l)).
Proof.
  intros Hinv Hsz Hlen Hmax Hleaf Hpr Hrest. change MAXVA with (2 ^ 38) in Hmax.
  assert (exists s1, (if 0 <? sz then uvmunmap root 0 (PGROUNDUP sz / PGSIZE) true else ret tt) s = Ret tt s1 /\
    vm_inv s1 root T (rev us ++ ps) /\ same_const s s1 /\ unmapped (ram s1) T /\
    (forall b, (forall x q, T !! x = Some q -> ~ in_page q b) -> (forall p, p ∈ us -> ~ in_page p b) -> ld8 (ram s1) b = ld8 (ram s) b))
    as (s1 & E1 & Hinv1 & Hc1 & Hun & Hm1).
  { destruct (Z.ltb_spec 0 sz) as [Hpos|Hz].
    - destruct (uvmunmap_spec us root s T ps Hinv Hmax Hleaf Hpr) as (s1 & E1 & H1 & Hc1 & Hp1 & Hm1). exists s1.
      destruct (PGROUNDUP_bounds sz) as [Hb Hal]; [lia|unfold PGSIZE in *; lia|].
      assert (PGROUNDUP sz / PGSIZE = Z.of_nat (length us)) as ->.
      { pose proof (Z_div_mod_eq_full (PGROUNDUP sz) PGSIZE). unfold PGSIZE in *. lia. }
      split_and!; [done|done|done| |done]. intros va Hv. rewrite (Hp1 va Hv). case_decide; [done|]. apply Hrest. lia.
    - assert (length us = 0%nat) as E0%nil_length_inv by (unfold PGSIZE in *; lia). subst us. by exists s. }
  destruct (freewalk_spec s1 root T _ Hinv1 Hun) as (l & [Hnd Hin] & s2 & ps2 & E2 & Hk2 & Hps2 & Hc2 & Hm2).
  exists l. split; [done|]. exists s2, ps2. split; [|split; [done|split; [|split]]].
  - unfold uvmfree. by erewrite bind_Ret by exact E1.
  - rewrite Hps2, <- Permutation_rev. solve_Permutation.
  - by eapply same_const_trans.
  - intros a Ha. rewrite Hm2, Hm1; [done|..].
    + intros x q Hx Hq. apply Ha. exists q. split; [|done]. apply elem_of_app. right. apply Hin. by exists x.
    + intros q Hq Hqa. apply Ha. exists q. split; [|done]. apply elem_of_app. by left.
    + intros (q & Hq & Hqa). apply Ha. exists q. split; [|done]. apply elem_of_app. by right.
Qed.
