(* ===== verification/Kstate.v ===== *)
(** * The kernel's state

    The structures and globals of the kernel above the page tables, and how
    code reads and updates them.  A field [x] of a record is set by [set_x] and
    updated by [upd_x]. *)

From S2P Require Import Prelude Mem Riscv Locks Kalloc.

Inductive procstate := UNUSED | USED | SLEEPING | RUNNABLE | RUNNING | ZOMBIE.
#[export] Instance procstate_eq_dec : EqDecision procstate.
Proof. solve_decision. Defined.

(** kernel/file.h *)
Inductive fdtype := FD_NONE | FD_PIPE | FD_INODE | FD_DEVICE.
#[export] Instance fdtype_eq_dec : EqDecision fdtype.
Proof. solve_decision. Defined.

(** The functions a [struct devsw] can hold: consoleread and consolewrite. *)
Inductive device := DevConsole.

(** What a DMA descriptor points at: a command header, a buffer's data or a
    status byte of the driver. *)
Inductive daddr := ANull | AOp (i : Z) | AData (b : nat) | AStatus (i : Z).

(** A wait channel is the address of an object; objects are named by the
    variable they are and an index. *)
Abbreviation chan := (string * Z)%type.

(** struct context: [ra], [sp] and the callee-saved registers.  The code sets
    only the first two, after clearing all; [ctx_ra] names a function. *)
Record context := MkContext { ctx_ra : string; ctx_sp : Z; ctx_s : list Z }.

(** struct sleeplock (kernel/sleeplock.h); its spinlock is a lock of Locks.v. *)
Record sleeplock := MkSleeplock {
  sl_locked : Z;
  sl_pid : Z;
}.
Definition set_sl_locked (v : Z) (r : sleeplock) : sleeplock :=
  MkSleeplock v (sl_pid r).
Definition set_sl_pid (v : Z) (r : sleeplock) : sleeplock :=
  MkSleeplock (sl_locked r) v.

(** struct proc (kernel/proc.h). Pointers into the kernel's tables are indices; a null pointer is [None], or 0 where it is an address. *)
Record proc := MkProc {
  p_state : procstate;
  p_chan : option chan;
  p_killed : Z;
  p_xstate : Z;
  p_pid : Z;
  p_parent : option nat;
  p_kstack : Z;
  p_sz : Z;
  p_pagetable : Z;
  p_trapframe : Z;
  p_context : context;
  p_ofile : list (option nat);
  p_cwd : option nat;
  p_name : list Z;
  p_trace_mask : Z;
}.
Definition set_p_state (v : procstate) (r : proc) : proc :=
  MkProc v (p_chan r) (p_killed r) (p_xstate r) (p_pid r) (p_parent r) (p_kstack r) (p_sz r) (p_pagetable r) (p_trapframe r) (p_context r) (p_ofile r) (p_cwd r) (p_name r) (p_trace_mask r).
Definition set_p_chan (v : option chan) (r : proc) : proc :=
  MkProc (p_state r) v (p_killed r) (p_xstate r) (p_pid r) (p_parent r) (p_kstack r) (p_sz r) (p_pagetable r) (p_trapframe r) (p_context r) (p_ofile r) (p_cwd r) (p_name r) (p_trace_mask r).
Definition set_p_killed (v : Z) (r : proc) : proc :=
  MkProc (p_state r) (p_chan r) v (p_xstate r) (p_pid r) (p_parent r) (p_kstack r) (p_sz r) (p_pagetable r) (p_trapframe r) (p_context r) (p_ofile r) (p_cwd r) (p_name r) (p_trace_mask r).
Definition set_p_xstate (v : Z) (r : proc) : proc :=
  MkProc (p_state r) (p_chan r) (p_killed r) v (p_pid r) (p_parent r) (p_kstack r) (p_sz r) (p_pagetable r) (p_trapframe r) (p_context r) (p_ofile r) (p_cwd r) (p_name r) (p_trace_mask r).
Definition set_p_pid (v : Z) (r : proc) : proc :=
  MkProc (p_state r) (p_chan r) (p_killed r) (p_xstate r) v (p_parent r) (p_kstack r) (p_sz r) (p_pagetable r) (p_trapframe r) (p_context r) (p_ofile r) (p_cwd r) (p_name r) (p_trace_mask r).
Definition set_p_parent (v : option nat) (r : proc) : proc :=
  MkProc (p_state r) (p_chan r) (p_killed r) (p_xstate r) (p_pid r) v (p_kstack r) (p_sz r) (p_pagetable r) (p_trapframe r) (p_context r) (p_ofile r) (p_cwd r) (p_name r) (p_trace_mask r).
Definition set_p_kstack (v : Z) (r : proc) : proc :=
  MkProc (p_state r) (p_chan r) (p_killed r) (p_xstate r) (p_pid r) (p_parent r) v (p_sz r) (p_pagetable r) (p_trapframe r) (p_context r) (p_ofile r) (p_cwd r) (p_name r) (p_trace_mask r).
Definition set_p_sz (v : Z) (r : proc) : proc :=
  MkProc (p_state r) (p_chan r) (p_killed r) (p_xstate r) (p_pid r) (p_parent r) (p_kstack r) v (p_pagetable r) (p_trapframe r) (p_context r) (p_ofile r) (p_cwd r) (p_name r) (p_trace_mask r).
Definition set_p_pagetable (v : Z) (r : proc) : proc :=
  MkProc (p_state r) (p_chan r) (p_killed r) (p_xstate r) (p_pid r) (p_parent r) (p_kstack r) (p_sz r) v (p_trapframe r) (p_context r) (p_ofile r) (p_cwd r) (p_name r) (p_trace_mask r).
Definition set_p_trapframe (v : Z) (r : proc) : proc :=
  MkProc (p_state r) (p_chan r) (p_killed r) (p_xstate r) (p_pid r) (p_parent r) (p_kstack r) (p_sz r) (p_pagetable r) v (p_context r) (p_ofile r) (p_cwd r) (p_name r) (p_trace_mask r).
Definition set_p_context (v : context) (r : proc) : proc :=
  MkProc (p_state r) (p_chan r) (p_killed r) (p_xstate r) (p_pid r) (p_parent r) (p_kstack r) (p_sz r) (p_pagetable r) (p_trapframe r) v (p_ofile r) (p_cwd r) (p_name r) (p_trace_mask r).
Definition set_p_ofile (v : list (option nat)) (r : proc) : proc :=
  MkProc (p_state r) (p_chan r) (p_killed r) (p_xstate r) (p_pid r) (p_parent r) (p_kstack r) (p_sz r) (p_pagetable r) (p_trapframe r) (p_context r) v (p_cwd r) (p_name r) (p_trace_mask r).
Definition set_p_cwd (v : option nat) (r : proc) : proc :=
  MkProc (p_state r) (p_chan r) (p_killed r) (p_xstate r) (p_pid r) (p_parent r) (p_kstack r) (p_sz r) (p_pagetable r) (p_trapframe r) (p_context r) (p_ofile r) v (p_name r) (p_trace_mask r).
Definition set_p_name (v : list Z) (r : proc) : proc :=
  MkProc (p_state r) (p_chan r) (p_killed r) (p_xstate r) (p_pid r) (p_parent r) (p_kstack r) (p_sz r) (p_pagetable r) (p_trapframe r) (p_context r) (p_ofile r) (p_cwd r) v (p_trace_mask r).
Definition set_p_trace_mask (v : Z) (r : proc) : proc :=
  MkProc (p_state r) (p_chan r) (p_killed r) (p_xstate r) (p_pid r) (p_parent r) (p_kstack r) (p_sz r) (p_pagetable r) (p_trapframe r) (p_context r) (p_ofile r) (p_cwd r) (p_name r) v.

(** struct buf (kernel/buf.h). [b_prev] and [b_next] are indices into bcache.buf, NBUF standing for bcache.head. *)
Record buf := MkBuf {
  b_valid : bool;
  b_disk : bool;
  b_dev : Z;
  b_blockno : Z;
  b_lock : sleeplock;
  b_refcnt : Z;
  b_prev : Z;
  b_next : Z;
  b_data : list Z;
}.
Definition set_b_valid (v : bool) (r : buf) : buf :=
  MkBuf v (b_disk r) (b_dev r) (b_blockno r) (b_lock r) (b_refcnt r) (b_prev r) (b_next r) (b_data r).
Definition set_b_disk (v : bool) (r : buf) : buf :=
  MkBuf (b_valid r) v (b_dev r) (b_blockno r) (b_lock r) (b_refcnt r) (b_prev r) (b_next r) (b_data r).
Definition set_b_dev (v : Z) (r : buf) : buf :=
  MkBuf (b_valid r) (b_disk r) v (b_blockno r) (b_lock r) (b_refcnt r) (b_prev r) (b_next r) (b_data r).
Definition set_b_blockno (v : Z) (r : buf) : buf :=
  MkBuf (b_valid r) (b_disk r) (b_dev r) v (b_lock r) (b_refcnt r) (b_prev r) (b_next r) (b_data r).
Definition set_b_lock (v : sleeplock) (r : buf) : buf :=
  MkBuf (b_valid r) (b_disk r) (b_dev r) (b_blockno r) v (b_refcnt r) (b_prev r) (b_next r) (b_data r).
Definition set_b_refcnt (v : Z) (r : buf) : buf :=
  MkBuf (b_valid r) (b_disk r) (b_dev r) (b_blockno r) (b_lock r) v (b_prev r) (b_next r) (b_data r).
Definition set_b_prev (v : Z) (r : buf) : buf :=
  MkBuf (b_valid r) (b_disk r) (b_dev r) (b_blockno r) (b_lock r) (b_refcnt r) v (b_next r) (b_data r).
Definition set_b_next (v : Z) (r : buf) : buf :=
  MkBuf (b_valid r) (b_disk r) (b_dev r) (b_blockno r) (b_lock r) (b_refcnt r) (b_prev r) v (b_data r).
Definition set_b_data (v : list Z) (r : buf) : buf :=
  MkBuf (b_valid r) (b_disk r) (b_dev r) (b_blockno r) (b_lock r) (b_refcnt r) (b_prev r) (b_next r) v.

(** struct superblock (kernel/fs.h). *)
Record superblock := MkSuperblock {
  sb_magic : Z;
  sb_size : Z;
  sb_nblocks : Z;
  sb_ninodes : Z;
  sb_nlog : Z;
  sb_logstart : Z;
  sb_inodestart : Z;
  sb_bmapstart : Z;
}.
Definition set_sb_magic (v : Z) (r : superblock) : superblock :=
  MkSuperblock v (sb_size r) (sb_nblocks r) (sb_ninodes r) (sb_nlog r) (sb_logstart r) (sb_inodestart r) (sb_bmapstart r).
Definition set_sb_size (v : Z) (r : superblock) : superblock :=
  MkSuperblock (sb_magic r) v (sb_nblocks r) (sb_ninodes r) (sb_nlog r) (sb_logstart r) (sb_inodestart r) (sb_bmapstart r).
Definition set_sb_nblocks (v : Z) (r : superblock) : superblock :=
  MkSuperblock (sb_magic r) (sb_size r) v (sb_ninodes r) (sb_nlog r) (sb_logstart r) (sb_inodestart r) (sb_bmapstart r).
Definition set_sb_ninodes (v : Z) (r : superblock) : superblock :=
  MkSuperblock (sb_magic r) (sb_size r) (sb_nblocks r) v (sb_nlog r) (sb_logstart r) (sb_inodestart r) (sb_bmapstart r).
Definition set_sb_nlog (v : Z) (r : superblock) : superblock :=
  MkSuperblock (sb_magic r) (sb_size r) (sb_nblocks r) (sb_ninodes r) v (sb_logstart r) (sb_inodestart r) (sb_bmapstart r).
Definition set_sb_logstart (v : Z) (r : superblock) : superblock :=
  MkSuperblock (sb_magic r) (sb_size r) (sb_nblocks r) (sb_ninodes r) (sb_nlog r) v (sb_inodestart r) (sb_bmapstart r).
Definition set_sb_inodestart (v : Z) (r : superblock) : superblock :=
  MkSuperblock (sb_magic r) (sb_size r) (sb_nblocks r) (sb_ninodes r) (sb_nlog r) (sb_logstart r) v (sb_bmapstart r).
Definition set_sb_bmapstart (v : Z) (r : superblock) : superblock :=
  MkSuperblock (sb_magic r) (sb_size r) (sb_nblocks r) (sb_ninodes r) (sb_nlog r) (sb_logstart r) (sb_inodestart r) v.

(** struct log (kernel/log.c); [lh_n] and [lh_block] are its header [lh]. *)
Record logst := MkLog {
  l_start : Z;
  l_size : Z;
  l_outstanding : Z;
  l_committing : bool;
  l_dev : Z;
  lh_n : Z;
  lh_block : list Z;
}.
Definition set_l_start (v : Z) (r : logst) : logst :=
  MkLog v (l_size r) (l_outstanding r) (l_committing r) (l_dev r) (lh_n r) (lh_block r).
Definition set_l_size (v : Z) (r : logst) : logst :=
  MkLog (l_start r) v (l_outstanding r) (l_committing r) (l_dev r) (lh_n r) (lh_block r).
Definition set_l_outstanding (v : Z) (r : logst) : logst :=
  MkLog (l_start r) (l_size r) v (l_committing r) (l_dev r) (lh_n r) (lh_block r).
Definition set_l_committing (v : bool) (r : logst) : logst :=
  MkLog (l_start r) (l_size r) (l_outstanding r) v (l_dev r) (lh_n r) (lh_block r).
Definition set_l_dev (v : Z) (r : logst) : logst :=
  MkLog (l_start r) (l_size r) (l_outstanding r) (l_committing r) v (lh_n r) (lh_block r).
Definition set_lh_n (v : Z) (r : logst) : logst :=
  MkLog (l_start r) (l_size r) (l_outstanding r) (l_committing r) (l_dev r) v (lh_block r).
Definition set_lh_block (v : list Z) (r : logst) : logst :=
  MkLog (l_start r) (l_size r) (l_outstanding r) (l_committing r) (l_dev r) (lh_n r) v.

(** struct inode (kernel/file.h). *)
Record inode := MkInode {
  i_dev : Z;
  i_inum : Z;
  i_ref : Z;
  i_lock : sleeplock;
  i_valid : bool;
  i_type : Z;
  i_major : Z;
  i_minor : Z;
  i_nlink : Z;
  i_size : Z;
  i_addrs : list Z;
}.
Definition set_i_dev (v : Z) (r : inode) : inode :=
  MkInode v (i_inum r) (i_ref r) (i_lock r) (i_valid r) (i_type r) (i_major r) (i_minor r) (i_nlink r) (i_size r) (i_addrs r).
Definition set_i_inum (v : Z) (r : inode) : inode :=
  MkInode (i_dev r) v (i_ref r) (i_lock r) (i_valid r) (i_type r) (i_major r) (i_minor r) (i_nlink r) (i_size r) (i_addrs r).
Definition set_i_ref (v : Z) (r : inode) : inode :=
  MkInode (i_dev r) (i_inum r) v (i_lock r) (i_valid r) (i_type r) (i_major r) (i_minor r) (i_nlink r) (i_size r) (i_addrs r).
Definition set_i_lock (v : sleeplock) (r : inode) : inode :=
  MkInode (i_dev r) (i_inum r) (i_ref r) v (i_valid r) (i_type r) (i_major r) (i_minor r) (i_nlink r) (i_size r) (i_addrs r).
Definition set_i_valid (v : bool) (r : inode) : inode :=
  MkInode (i_dev r) (i_inum r) (i_ref r) (i_lock r) v (i_type r) (i_major r) (i_minor r) (i_nlink r) (i_size r) (i_addrs r).
Definition set_i_type (v : Z) (r : inode) : inode :=
  MkInode (i_dev r) (i_inum r) (i_ref r) (i_lock r) (i_valid r) v (i_major r) (i_minor r) (i_nlink r) (i_size r) (i_addrs r).
Definition set_i_major (v : Z) (r : inode) : inode :=
  MkInode (i_dev r) (i_inum r) (i_ref r) (i_lock r) (i_valid r) (i_type r) v (i_minor r) (i_nlink r) (i_size r) (i_addrs r).
Definition set_i_minor (v : Z) (r : inode) : inode :=
  MkInode (i_dev r) (i_inum r) (i_ref r) (i_lock r) (i_valid r) (i_type r) (i_major r) v (i_nlink r) (i_size r) (i_addrs r).
Definition set_i_nlink (v : Z) (r : inode) : inode :=
  MkInode (i_dev r) (i_inum r) (i_ref r) (i_lock r) (i_valid r) (i_type r) (i_major r) (i_minor r) v (i_size r) (i_addrs r).
Definition set_i_size (v : Z) (r : inode) : inode :=
  MkInode (i_dev r) (i_inum r) (i_ref r) (i_lock r) (i_valid r) (i_type r) (i_major r) (i_minor r) (i_nlink r) v (i_addrs r).
Definition set_i_addrs (v : list Z) (r : inode) : inode :=
  MkInode (i_dev r) (i_inum r) (i_ref r) (i_lock r) (i_valid r) (i_type r) (i_major r) (i_minor r) (i_nlink r) (i_size r) v.

(** struct file (kernel/file.h). *)
Record file := MkFile {
  f_type : fdtype;
  f_ref : Z;
  f_readable : bool;
  f_writable : bool;
  f_pipe : Z;
  f_ip : option nat;
  f_off : Z;
  f_major : Z;
}.
Definition set_f_type (v : fdtype) (r : file) : file :=
  MkFile v (f_ref r) (f_readable r) (f_writable r) (f_pipe r) (f_ip r) (f_off r) (f_major r).
Definition set_f_ref (v : Z) (r : file) : file :=
  MkFile (f_type r) v (f_readable r) (f_writable r) (f_pipe r) (f_ip r) (f_off r) (f_major r).
Definition set_f_readable (v : bool) (r : file) : file :=
  MkFile (f_type r) (f_ref r) v (f_writable r) (f_pipe r) (f_ip r) (f_off r) (f_major r).
Definition set_f_writable (v : bool) (r : file) : file :=
  MkFile (f_type r) (f_ref r) (f_readable r) v (f_pipe r) (f_ip r) (f_off r) (f_major r).
Definition set_f_pipe (v : Z) (r : file) : file :=
  MkFile (f_type r) (f_ref r) (f_readable r) (f_writable r) v (f_ip r) (f_off r) (f_major r).
Definition set_f_ip (v : option nat) (r : file) : file :=
  MkFile (f_type r) (f_ref r) (f_readable r) (f_writable r) (f_pipe r) v (f_off r) (f_major r).
Definition set_f_off (v : Z) (r : file) : file :=
  MkFile (f_type r) (f_ref r) (f_readable r) (f_writable r) (f_pipe r) (f_ip r) v (f_major r).
Definition set_f_major (v : Z) (r : file) : file :=
  MkFile (f_type r) (f_ref r) (f_readable r) (f_writable r) (f_pipe r) (f_ip r) (f_off r) v.

(** struct pipe (kernel/pipe.c). *)
Record pipe := MkPipe {
  pi_data : list Z;
  pi_nread : Z;
  pi_nwrite : Z;
  pi_readopen : bool;
  pi_writeopen : bool;
}.
Definition set_pi_data (v : list Z) (r : pipe) : pipe :=
  MkPipe v (pi_nread r) (pi_nwrite r) (pi_readopen r) (pi_writeopen r).
Definition set_pi_nread (v : Z) (r : pipe) : pipe :=
  MkPipe (pi_data r) v (pi_nwrite r) (pi_readopen r) (pi_writeopen r).
Definition set_pi_nwrite (v : Z) (r : pipe) : pipe :=
  MkPipe (pi_data r) (pi_nread r) v (pi_readopen r) (pi_writeopen r).
Definition set_pi_readopen (v : bool) (r : pipe) : pipe :=
  MkPipe (pi_data r) (pi_nread r) (pi_nwrite r) v (pi_writeopen r).
Definition set_pi_writeopen (v : bool) (r : pipe) : pipe :=
  MkPipe (pi_data r) (pi_nread r) (pi_nwrite r) (pi_readopen r) v.

(** The input buffer of kernel/console.c. *)
Record console := MkConsole {
  c_buf : list Z;
  c_r : Z;
  c_w : Z;
  c_e : Z;
}.
Definition set_c_buf (v : list Z) (r : console) : console :=
  MkConsole v (c_r r) (c_w r) (c_e r).
Definition set_c_r (v : Z) (r : console) : console :=
  MkConsole (c_buf r) v (c_w r) (c_e r).
Definition set_c_w (v : Z) (r : console) : console :=
  MkConsole (c_buf r) (c_r r) v (c_e r).
Definition set_c_e (v : Z) (r : console) : console :=
  MkConsole (c_buf r) (c_r r) (c_w r) v.

(** The transmit buffer of kernel/uart.c, and the 16550 device behind it: the values that reads of LSR and RHR will return, the bytes THR has taken, and whether LSR has shown it empty since. *)
Record uart := MkUart {
  tx_buf : list Z;
  tx_w : Z;
  tx_r : Z;
  lsr_in : list Z;
  rhr_in : list Z;
  thr_out : list Z;
  thr_empty : bool;
}.
Definition set_tx_buf (v : list Z) (r : uart) : uart :=
  MkUart v (tx_w r) (tx_r r) (lsr_in r) (rhr_in r) (thr_out r) (thr_empty r).
Definition set_tx_w (v : Z) (r : uart) : uart :=
  MkUart (tx_buf r) v (tx_r r) (lsr_in r) (rhr_in r) (thr_out r) (thr_empty r).
Definition set_tx_r (v : Z) (r : uart) : uart :=
  MkUart (tx_buf r) (tx_w r) v (lsr_in r) (rhr_in r) (thr_out r) (thr_empty r).
Definition set_lsr_in (v : list Z) (r : uart) : uart :=
  MkUart (tx_buf r) (tx_w r) (tx_r r) v (rhr_in r) (thr_out r) (thr_empty r).
Definition set_rhr_in (v : list Z) (r : uart) : uart :=
  MkUart (tx_buf r) (tx_w r) (tx_r r) (lsr_in r) v (thr_out r) (thr_empty r).
Definition set_thr_out (v : list Z) (r : uart) : uart :=
  MkUart (tx_buf r) (tx_w r) (tx_r r) (lsr_in r) (rhr_in r) v (thr_empty r).
Definition set_thr_empty (v : bool) (r : uart) : uart :=
  MkUart (tx_buf r) (tx_w r) (tx_r r) (lsr_in r) (rhr_in r) (thr_out r) v.

(** The other memory-mapped device registers: what each reads as, and the writes they have received, latest last. *)
Record mmio := MkMmio {
  mm_regs : gmap Z Z;
  mm_out : list (Z * Z);
}.
Definition set_mm_regs (v : gmap Z Z) (r : mmio) : mmio :=
  MkMmio v (mm_out r).
Definition set_mm_out (v : list (Z * Z)) (r : mmio) : mmio :=
  MkMmio (mm_regs r) v.

(** The control registers trap.c reads and writes, the interrupts PLIC_SCLAIM will report, and the ones completed. *)
Record csrs := MkCsrs {
  sstatus : Z;
  sepc : Z;
  scause : Z;
  stval : Z;
  stvec : Z;
  satp : Z;
  sip : Z;
  hartid : Z;
  plic_in : list Z;
  plic_done : list Z;
}.
Definition set_sstatus (v : Z) (r : csrs) : csrs :=
  MkCsrs v (sepc r) (scause r) (stval r) (stvec r) (satp r) (sip r) (hartid r) (plic_in r) (plic_done r).
Definition set_sepc (v : Z) (r : csrs) : csrs :=
  MkCsrs (sstatus r) v (scause r) (stval r) (stvec r) (satp r) (sip r) (hartid r) (plic_in r) (plic_done r).
Definition set_scause (v : Z) (r : csrs) : csrs :=
  MkCsrs (sstatus r) (sepc r) v (stval r) (stvec r) (satp r) (sip r) (hartid r) (plic_in r) (plic_done r).
Definition set_stval (v : Z) (r : csrs) : csrs :=
  MkCsrs (sstatus r) (sepc r) (scause r) v (stvec r) (satp r) (sip r) (hartid r) (plic_in r) (plic_done r).
Definition set_stvec (v : Z) (r : csrs) : csrs :=
  MkCsrs (sstatus r) (sepc r) (scause r) (stval r) v (satp r) (sip r) (hartid r) (plic_in r) (plic_done r).
Definition set_satp (v : Z) (r : csrs) : csrs :=
  MkCsrs (sstatus r) (sepc r) (scause r) (stval r) (stvec r) v (sip r) (hartid r) (plic_in r) (plic_done r).
Definition set_sip (v : Z) (r : csrs) : csrs :=
  MkCsrs (sstatus r) (sepc r) (scause r) (stval r) (stvec r) (satp r) v (hartid r) (plic_in r) (plic_done r).
Definition set_hartid (v : Z) (r : csrs) : csrs :=
  MkCsrs (sstatus r) (sepc r) (scause r) (stval r) (stvec r) (satp r) (sip r) v (plic_in r) (plic_done r).
Definition set_plic_in (v : list Z) (r : csrs) : csrs :=
  MkCsrs (sstatus r) (sepc r) (scause r) (stval r) (stvec r) (satp r) (sip r) (hartid r) v (plic_done r).
Definition set_plic_done (v : list Z) (r : csrs) : csrs :=
  MkCsrs (sstatus r) (sepc r) (scause r) (stval r) (stvec r) (satp r) (sip r) (hartid r) (plic_in r) v.

(** struct virtq_desc (kernel/virtio.h). *)
Record desc := MkDesc {
  d_addr : daddr;
  d_len : Z;
  d_flags : Z;
  d_next : Z;
}.
Definition set_d_addr (v : daddr) (r : desc) : desc :=
  MkDesc v (d_len r) (d_flags r) (d_next r).
Definition set_d_len (v : Z) (r : desc) : desc :=
  MkDesc (d_addr r) v (d_flags r) (d_next r).
Definition set_d_flags (v : Z) (r : desc) : desc :=
  MkDesc (d_addr r) (d_len r) v (d_next r).
Definition set_d_next (v : Z) (r : desc) : desc :=
  MkDesc (d_addr r) (d_len r) (d_flags r) v.

(** The driver structures of kernel/virtio_disk.c: descriptors, the available ring with its index, the used ring (the [id]s) with the device's index, the free flags, [used_idx], the in-flight table (buffer and status) and the command headers (type and sector). *)
Record vdisk := MkVdisk {
  v_desc : list desc;
  v_avail : list Z;
  v_avail_idx : Z;
  v_used : list Z;
  v_used_dev : Z;
  v_free : list bool;
  v_used_idx : Z;
  v_info_b : list (option nat);
  v_info_status : list Z;
  v_ops : list (Z * Z);
}.
Definition set_v_desc (v : list desc) (r : vdisk) : vdisk :=
  MkVdisk v (v_avail r) (v_avail_idx r) (v_used r) (v_used_dev r) (v_free r) (v_used_idx r) (v_info_b r) (v_info_status r) (v_ops r).
Definition set_v_avail (v : list Z) (r : vdisk) : vdisk :=
  MkVdisk (v_desc r) v (v_avail_idx r) (v_used r) (v_used_dev r) (v_free r) (v_used_idx r) (v_info_b r) (v_info_status r) (v_ops r).
Definition set_v_avail_idx (v : Z) (r : vdisk) : vdisk :=
  MkVdisk (v_desc r) (v_avail r) v (v_used r) (v_used_dev r) (v_free r) (v_used_idx r) (v_info_b r) (v_info_status r) (v_ops r).
Definition set_v_used (v : list Z) (r : vdisk) : vdisk :=
  MkVdisk (v_desc r) (v_avail r) (v_avail_idx r) v (v_used_dev r) (v_free r) (v_used_idx r) (v_info_b r) (v_info_status r) (v_ops r).
Definition set_v_used_dev (v : Z) (r : vdisk) : vdisk :=
  MkVdisk (v_desc r) (v_avail r) (v_avail_idx r) (v_used r) v (v_free r) (v_used_idx r) (v_info_b r) (v_info_status r) (v_ops r).
Definition set_v_free (v : list bool) (r : vdisk) : vdisk :=
  MkVdisk (v_desc r) (v_avail r) (v_avail_idx r) (v_used r) (v_used_dev r) v (v_used_idx r) (v_info_b r) (v_info_status r) (v_ops r).
Definition set_v_used_idx (v : Z) (r : vdisk) : vdisk :=
  MkVdisk (v_desc r) (v_avail r) (v_avail_idx r) (v_used r) (v_used_dev r) (v_free r) v (v_info_b r) (v_info_status r) (v_ops r).
Definition set_v_info_b (v : list (option nat)) (r : vdisk) : vdisk :=
  MkVdisk (v_desc r) (v_avail r) (v_avail_idx r) (v_used r) (v_used_dev r) (v_free r) (v_used_idx r) v (v_info_status r) (v_ops r).
Definition set_v_info_status (v : list Z) (r : vdisk) : vdisk :=
  MkVdisk (v_desc r) (v_avail r) (v_avail_idx r) (v_used r) (v_used_dev r) (v_free r) (v_used_idx r) (v_info_b r) v (v_ops r).
Definition set_v_ops (v : list (Z * Z)) (r : vdisk) : vdisk :=
  MkVdisk (v_desc r) (v_avail r) (v_avail_idx r) (v_used r) (v_used_dev r) (v_free r) (v_used_idx r) (v_info_b r) (v_info_status r) v.

(** The kernel's globals, as one CPU sees them. [intr] is the interrupt enable outside critical sections: [sstatus.SIE] while no spinlock is held, [mycpu()->intena] otherwise. *)
Record kstate := MkKstate {
  mach : machine;
  procs : list proc;
  cpu_proc : option nat;
  intr : bool;
  nextpid : Z;
  initproc : option nat;
  ticks : Z;
  forkret_first : bool;
  kernel_pagetable : Z;
  bufs : list buf;
  disk : gmap Z (list Z);
  disk_writes : list (Z * list Z);
  sb : superblock;
  log : logst;
  itable : list inode;
  ftable : list file;
  devsw : list (option device);
  pipes : gmap Z pipe;
  cons : console;
  uartst : uart;
  pr_locking : bool;
  vd : vdisk;
  csr : csrs;
  dregs : mmio;
  started : bool;
}.
Definition set_mach (v : machine) (r : kstate) : kstate :=
  MkKstate v (procs r) (cpu_proc r) (intr r) (nextpid r) (initproc r) (ticks r) (forkret_first r) (kernel_pagetable r) (bufs r) (disk r) (disk_writes r) (sb r) (log r) (itable r) (ftable r) (devsw r) (pipes r) (cons r) (uartst r) (pr_locking r) (vd r) (csr r) (dregs r) (started r).
Definition set_procs (v : list proc) (r : kstate) : kstate :=
  MkKstate (mach r) v (cpu_proc r) (intr r) (nextpid r) (initproc r) (ticks r) (forkret_first r) (kernel_pagetable r) (bufs r) (disk r) (disk_writes r) (sb r) (log r) (itable r) (ftable r) (devsw r) (pipes r) (cons r) (uartst r) (pr_locking r) (vd r) (csr r) (dregs r) (started r).
Definition set_cpu_proc (v : option nat) (r : kstate) : kstate :=
  MkKstate (mach r) (procs r) v (intr r) (nextpid r) (initproc r) (ticks r) (forkret_first r) (kernel_pagetable r) (bufs r) (disk r) (disk_writes r) (sb r) (log r) (itable r) (ftable r) (devsw r) (pipes r) (cons r) (uartst r) (pr_locking r) (vd r) (csr r) (dregs r) (started r).
Definition set_intr (v : bool) (r : kstate) : kstate :=
  MkKstate (mach r) (procs r) (cpu_proc r) v (nextpid r) (initproc r) (ticks r) (forkret_first r) (kernel_pagetable r) (bufs r) (disk r) (disk_writes r) (sb r) (log r) (itable r) (ftable r) (devsw r) (pipes r) (cons r) (uartst r) (pr_locking r) (vd r) (csr r) (dregs r) (started r).
Definition set_nextpid (v : Z) (r : kstate) : kstate :=
  MkKstate (mach r) (procs r) (cpu_proc r) (intr r) v (initproc r) (ticks r) (forkret_first r) (kernel_pagetable r) (bufs r) (disk r) (disk_writes r) (sb r) (log r) (itable r) (ftable r) (devsw r) (pipes r) (cons r) (uartst r) (pr_locking r) (vd r) (csr r) (dregs r) (started r).
Definition set_initproc (v : option nat) (r : kstate) : kstate :=
  MkKstate (mach r) (procs r) (cpu_proc r) (intr r) (nextpid r) v (ticks r) (forkret_first r) (kernel_pagetable r) (bufs r) (disk r) (disk_writes r) (sb r) (log r) (itable r) (ftable r) (devsw r) (pipes r) (cons r) (uartst r) (pr_locking r) (vd r) (csr r) (dregs r) (started r).
Definition set_ticks (v : Z) (r : kstate) : kstate :=
  MkKstate (mach r) (procs r) (cpu_proc r) (intr r) (nextpid r) (initproc r) v (forkret_first r) (kernel_pagetable r) (bufs r) (disk r) (disk_writes r) (sb r) (log r) (itable r) (ftable r) (devsw r) (pipes r) (cons r) (uartst r) (pr_locking r) (vd r) (csr r) (dregs r) (started r).
Definition set_forkret_first (v : bool) (r : kstate) : kstate :=
  MkKstate (mach r) (procs r) (cpu_proc r) (intr r) (nextpid r) (initproc r) (ticks r) v (kernel_pagetable r) (bufs r) (disk r) (disk_writes r) (sb r) (log r) (itable r) (ftable r) (devsw r) (pipes r) (cons r) (uartst r) (pr_locking r) (vd r) (csr r) (dregs r) (started r).
Definition set_kernel_pagetable (v : Z) (r : kstate) : kstate :=
  MkKstate (mach r) (procs r) (cpu_proc r) (intr r) (nextpid r) (initproc r) (ticks r) (forkret_first r) v (bufs r) (disk r) (disk_writes r) (sb r) (log r) (itable r) (ftable r) (devsw r) (pipes r) (cons r) (uartst r) (pr_locking r) (vd r) (csr r) (dregs r) (started r).
Definition set_bufs (v : list buf) (r : kstate) : kstate :=
  MkKstate (mach r) (procs r) (cpu_proc r) (intr r) (nextpid r) (initproc r) (ticks r) (forkret_first r) (kernel_pagetable r) v (disk r) (disk_writes r) (sb r) (log r) (itable r) (ftable r) (devsw r) (pipes r) (cons r) (uartst r) (pr_locking r) (vd r) (csr r) (dregs r) (started r).
Definition set_disk (v : gmap Z (list Z)) (r : kstate) : kstate :=
  MkKstate (mach r) (procs r) (cpu_proc r) (intr r) (nextpid r) (initproc r) (ticks r) (forkret_first r) (kernel_pagetable r) (bufs r) v (disk_writes r) (sb r) (log r) (itable r) (ftable r) (devsw r) (pipes r) (cons r) (uartst r) (pr_locking r) (vd r) (csr r) (dregs r) (started r).
Definition set_disk_writes (v : list (Z * list Z)) (r : kstate) : kstate :=
  MkKstate (mach r) (procs r) (cpu_proc r) (intr r) (nextpid r) (initproc r) (ticks r) (forkret_first r) (kernel_pagetable r) (bufs r) (disk r) v (sb r) (log r) (itable r) (ftable r) (devsw r) (pipes r) (cons r) (uartst r) (pr_locking r) (vd r) (csr r) (dregs r) (started r).
Definition set_sb (v : superblock) (r : kstate) : kstate :=
  MkKstate (mach r) (procs r) (cpu_proc r) (intr r) (nextpid r) (initproc r) (ticks r) (forkret_first r) (kernel_pagetable r) (bufs r) (disk r) (disk_writes r) v (log r) (itable r) (ftable r) (devsw r) (pipes r) (cons r) (uartst r) (pr_locking r) (vd r) (csr r) (dregs r) (started r).
Definition set_log (v : logst) (r : kstate) : kstate :=
  MkKstate (mach r) (procs r) (cpu_proc r) (intr r) (nextpid r) (initproc r) (ticks r) (forkret_first r) (kernel_pagetable r) (bufs r) (disk r) (disk_writes r) (sb r) v (itable r) (ftable r) (devsw r) (pipes r) (cons r) (uartst r) (pr_locking r) (vd r) (csr r) (dregs r) (started r).
Definition set_itable (v : list inode) (r : kstate) : kstate :=
  MkKstate (mach r) (procs r) (cpu_proc r) (intr r) (nextpid r) (initproc r) (ticks r) (forkret_first r) (kernel_pagetable r) (bufs r) (disk r) (disk_writes r) (sb r) (log r) v (ftable r) (devsw r) (pipes r) (cons r) (uartst r) (pr_locking r) (vd r) (csr r) (dregs r) (started r).
Definition set_ftable (v : list file) (r : kstate) : kstate :=
  MkKstate (mach r) (procs r) (cpu_proc r) (intr r) (nextpid r) (initproc r) (ticks r) (forkret_first r) (kernel_pagetable r) (bufs r) (disk r) (disk_writes r) (sb r) (log r) (itable r) v (devsw r) (pipes r) (cons r) (uartst r) (pr_locking r) (vd r) (csr r) (dregs r) (started r).
Definition set_devsw (v : list (option device)) (r : kstate) : kstate :=
  MkKstate (mach r) (procs r) (cpu_proc r) (intr r) (nextpid r) (initproc r) (ticks r) (forkret_first r) (kernel_pagetable r) (bufs r) (disk r) (disk_writes r) (sb r) (log r) (itable r) (ftable r) v (pipes r) (cons r) (uartst r) (pr_locking r) (vd r) (csr r) (dregs r) (started r).
Definition set_pipes (v : gmap Z pipe) (r : kstate) : kstate :=
  MkKstate (mach r) (procs r) (cpu_proc r) (intr r) (nextpid r) (initproc r) (ticks r) (forkret_first r) (kernel_pagetable r) (bufs r) (disk r) (disk_writes r) (sb r) (log r) (itable r) (ftable r) (devsw r) v (cons r) (uartst r) (pr_locking r) (vd r) (csr r) (dregs r) (started r).
Definition set_cons (v : console) (r : kstate) : kstate :=
  MkKstate (mach r) (procs r) (cpu_proc r) (intr r) (nextpid r) (initproc r) (ticks r) (forkret_first r) (kernel_pagetable r) (bufs r) (disk r) (disk_writes r) (sb r) (log r) (itable r) (ftable r) (devsw r) (pipes r) v (uartst r) (pr_locking r) (vd r) (csr r) (dregs r) (started r).
Definition set_uartst (v : uart) (r : kstate) : kstate :=
  MkKstate (mach r) (procs r) (cpu_proc r) (intr r) (nextpid r) (initproc r) (ticks r) (forkret_first r) (kernel_pagetable r) (bufs r) (disk r) (disk_writes r) (sb r) (log r) (itable r) (ftable r) (devsw r) (pipes r) (cons r) v (pr_locking r) (vd r) (csr r) (dregs r) (started r).
Definition set_pr_locking (v : bool) (r : kstate) : kstate :=
  MkKstate (mach r) (procs r) (cpu_proc r) (intr r) (nextpid r) (initproc r) (ticks r) (forkret_first r) (kernel_pagetable r) (bufs r) (disk r) (disk_writes r) (sb r) (log r) (itable r) (ftable r) (devsw r) (pipes r) (cons r) (uartst r) v (vd r) (csr r) (dregs r) (started r).
Definition set_vd (v : vdisk) (r : kstate) : kstate :=
  MkKstate (mach r) (procs r) (cpu_proc r) (intr r) (nextpid r) (initproc r) (ticks r) (forkret_first r) (kernel_pagetable r) (bufs r) (disk r) (disk_writes r) (sb r) (log r) (itable r) (ftable r) (devsw r) (pipes r) (cons r) (uartst r) (pr_locking r) v (csr r) (dregs r) (started r).
Definition set_csr (v : csrs) (r : kstate) : kstate :=
  MkKstate (mach r) (procs r) (cpu_proc r) (intr r) (nextpid r) (initproc r) (ticks r) (forkret_first r) (kernel_pagetable r) (bufs r) (disk r) (disk_writes r) (sb r) (log r) (itable r) (ftable r) (devsw r) (pipes r) (cons r) (uartst r) (pr_locking r) (vd r) v (dregs r) (started r).
Definition set_dregs (v : mmio) (r : kstate) : kstate :=
  MkKstate (mach r) (procs r) (cpu_proc r) (intr r) (nextpid r) (initproc r) (ticks r) (forkret_first r) (kernel_pagetable r) (bufs r) (disk r) (disk_writes r) (sb r) (log r) (itable r) (ftable r) (devsw r) (pipes r) (cons r) (uartst r) (pr_locking r) (vd r) (csr r) v (started r).
Definition set_started (v : bool) (r : kstate) : kstate :=
  MkKstate (mach r) (procs r) (cpu_proc r) (intr r) (nextpid r) (initproc r) (ticks r) (forkret_first r) (kernel_pagetable r) (bufs r) (disk r) (disk_writes r) (sb r) (log r) (itable r) (ftable r) (devsw r) (pipes r) (cons r) (uartst r) (pr_locking r) (vd r) (csr r) (dregs r) v.

#[export] Instance kstate_locks : HasLocks kstate :=
  {| held := fun s => mlocks (mach s); set_held := fun h s => set_mach (set_mlocks h (mach s)) s |}.
#[export] Instance kstate_locks_laws : LocksLaws kstate.
Proof. split; intros; destruct s as [[]]; done. Qed.

(** ** Access to the tables *)

(** A load or store through a null or wild pointer: the kernel traps, and
    kerneltrap() panics. *)
Definition fault {A} : M kstate A := panic "kerneltrap".

Definition proc_at (i : nat) : M kstate proc :=
  fun s => match procs s !! i with Some p => Ret p s | None => fault s end.
Definition proc_upd (i : nat) (f : proc -> proc) : M kstate unit :=
  fun s => match procs s !! i with
           | Some p => Ret tt (set_procs (<[i := f p]> (procs s)) s)
           | None => fault s
           end.
Definition buf_at (i : nat) : M kstate buf :=
  fun s => match bufs s !! i with Some b => Ret b s | None => fault s end.
Definition buf_upd (i : nat) (f : buf -> buf) : M kstate unit :=
  fun s => match bufs s !! i with
           | Some b => Ret tt (set_bufs (<[i := f b]> (bufs s)) s)
           | None => fault s
           end.
Definition inode_at (i : nat) : M kstate inode :=
  fun s => match itable s !! i with Some x => Ret x s | None => fault s end.
Definition inode_upd (i : nat) (f : inode -> inode) : M kstate unit :=
  fun s => match itable s !! i with
           | Some x => Ret tt (set_itable (<[i := f x]> (itable s)) s)
           | None => fault s
           end.
Definition file_at (i : nat) : M kstate file :=
  fun s => match ftable s !! i with Some x => Ret x s | None => fault s end.
Definition file_upd (i : nat) (f : file -> file) : M kstate unit :=
  fun s => match ftable s !! i with
           | Some x => Ret tt (set_ftable (<[i := f x]> (ftable s)) s)
           | None => fault s
           end.
Definition pipe_at (a : Z) : M kstate pipe :=
  fun s => match pipes s !! a with Some x => Ret x s | None => fault s end.
Definition pipe_upd (a : Z) (f : pipe -> pipe) : M kstate unit :=
  fun s => match pipes s !! a with
           | Some x => Ret tt (set_pipes (<[a := f x]> (pipes s)) s)
           | None => fault s
           end.

(** A pointer is used: a null pointer faults. *)
Definition deref {A} (o : option A) : M kstate A :=
  match o with Some a => ret a | None => fault end.

(** Device registers: [*R(a)] as a value and as the target of a store. *)
Definition reg_read (a : Z) : M kstate Z := gets (fun s => default 0 (mm_regs (dregs s) !! a)).
Definition reg_write (a v : Z) : M kstate unit :=
  modify (fun s => set_dregs (set_mm_out (mm_out (dregs s) ++ [(a, v)]) (dregs s)) s).

(** The memory-management code runs in the [mach] part. *)
Definition vm {A} (m : M machine A) : M kstate A := lift mach set_mach m.

Lemma vm_ret {A} (m : M machine A) a t s :
  m (mach s) = Ret a t -> vm m s = Ret a (set_mach t s).
Proof. intros E. unfold vm, lift. by rewrite E. Qed.

(** ** The globals as the kernel's image has them before main(): zero but for
    [nextpid] (proc.c:15) and [first] (proc.c:510).  [m] is the memory. *)

Definition zero_sleeplock : sleeplock := MkSleeplock 0 0.
Definition zero_proc : proc :=
  MkProc UNUSED None 0 0 0 None 0 0 0 0 (MkContext "null" 0 (repeat 0 12))
    (repeat None (Z.to_nat NOFILE)) None (repeat 0 16) 0.
Definition zero_buf : buf := MkBuf false false 0 0 zero_sleeplock 0 0 0 (repeat 0 1024).
Definition zero_inode : inode := MkInode 0 0 0 zero_sleeplock false 0 0 0 0 0 (repeat 0 13).
Definition zero_file : file := MkFile FD_NONE 0 false false 0 None 0 0.
Definition zero_vdisk : vdisk :=
  MkVdisk (repeat (MkDesc ANull 0 0 0) 8) (repeat 0 8) 0 (repeat 0 8) 0 (repeat false 8) 0
    (repeat None 8) (repeat 0 8) (repeat (0, 0) 8).
Definition zero_kstate (m : machine) : kstate :=
  MkKstate m (repeat zero_proc (Z.to_nat NPROC)) None false 1 None 0 true 0
    (repeat zero_buf (S (Z.to_nat NBUF))) ∅ [] (MkSuperblock 0 0 0 0 0 0 0 0)
    (MkLog 0 0 0 false 0 0 (repeat 0 (Z.to_nat LOGSIZE))) (repeat zero_inode (Z.to_nat NINODE))
    (repeat zero_file (Z.to_nat NFILE)) (repeat None (Z.to_nat NDEV)) ∅
    (MkConsole (repeat 0 128) 0 0 0) (MkUart (repeat 0 32) 0 0 [] [] [] true) false zero_vdisk
    (MkCsrs 0 0 0 0 0 0 0 0 [] []) (MkMmio ∅ []) false.
