(* ===== verification/UserMem.v ===== *)
(** * The user's memory, a byte at a time

    [copyin] and [copyout] of one byte, as console.c and pipe.c use them, inside
    the kernel's state. *)

From S2P Require Import Prelude Riscv Mem Locks Kalloc Vm VmWalk VmMap VmCopy Kstate.

Lemma set_mach_id s : set_mach (mach s) s = s.
Proof. by destruct s. Qed.

Lemma copyin1 root s T va :
  KERNBASE <= kend (mach s) -> pt_rep (kend (mach s)) (ram (mach s)) root T -> 0 <= va < 2 ^ 64 ->
  vm (Vm.copyin root va 1) s = if decide (upage (ram (mach s)) T va = 0) then Ret (-1, []) s
                               else Ret (0, [ubyte (ram (mach s)) T va]) s.
Proof.
  intros He Hr Hva.
  destruct (copyin_spec root (mach s) T va 1 He Hr Hva ltac:(lia)) as (st & k & H & Hm & Hc).
  apply vm_ret in H. rewrite H, set_mach_id. case_decide as Hp.
  - destruct Hc as [[-> ->]|(-> & Hk & _)]; [exfalso; apply (Hm va); [lia|done]|].
    by replace k with 0 by lia.
  - destruct Hc as [[-> ->]|(-> & Hk & Hu)]; [done|].
    exfalso. apply Hp. rewrite <- Hu. f_equal. lia.
Qed.

Lemma copyout1 root s T ps va ch :
  uvm_inv (mach s) root T ps -> 0 <= va < 2 ^ 64 ->
  exists m, uvm_inv (set_ram m (mach s)) root T ps /\
    vm (Vm.copyout root va [ch] 1) s =
      Ret (if decide (upage (ram (mach s)) T va = 0) then -1 else 0) (set_mach (set_ram m (mach s)) s) /\
    uwritten (ram (mach s)) T m va (if decide (upage (ram (mach s)) T va = 0) then [] else [ch]).
Proof.
  intros Hu Hva.
  destruct (copyout_spec root (mach s) T ps va [ch] 1 Hu Hva eq_refl ltac:(lia))
    as (st & k & t & H & Hu' & Hw & [Hm Hc] & Ht).
  exists (ram t). rewrite <- Ht. split; [done|].
  rewrite (vm_ret _ _ _ _ H). case_decide as Hp.
  - destruct Hc as [[-> ->]|(-> & Hk & _)]; [exfalso; apply (Hm va); [lia|done]|].
    replace k with 0 in Hw by lia. done.
  - destruct Hc as [[-> ->]|(-> & Hk & Hu0)]; [done|].
    exfalso. apply Hp. rewrite <- Hu0. f_equal. lia.
Qed.

Lemma umapped_last m T addr i : 0 <= addr -> 0 < i -> umapped m T addr i -> addr + i <= MAXVA.
Proof.
  intros Ha Hi Hm. pose proof (upage_bound m T (addr + i - 1) (Hm (addr + i - 1) ltac:(lia))). lia.
Qed.

Lemma umapped_next m T addr i : 0 <= i ->
  umapped m T addr i -> upage m T (addr + i) <> 0 -> umapped m T addr (i + 1).
Proof.
  intros Hi Hm Hp v Hv. destruct (decide (v = addr + i)) as [->|]; [done|]. apply Hm. lia.
Qed.

Lemma uread_next m T addr i : 0 <= i ->
  uread m T addr (i + 1) = uread m T addr i ++ [ubyte m T (addr + i)].
Proof. intros Hi. by rewrite <- uread_app by lia. Qed.

Lemma uvm_inv_locks h m root T ps :
  uvm_inv m root T ps -> Kalloc.kmem_lock ∉ h -> uvm_inv (set_mlocks h m) root T ps.
Proof. intros [[[] ? ?] ? ?] Hh. by split; [split|..]. Qed.

Lemma uvm_inv_unlock h m m' root T ps :
  uvm_inv (set_ram m' (set_mlocks h m)) root T ps -> Kalloc.kmem_lock ∉ mlocks m ->
  uvm_inv (set_ram m' m) root T ps.
Proof. intros [[[] ? ?] ? ?] Hh. by split; [split|..]. Qed.
