(* ===== verification/SleepWakeup.v ===== *)
(** * No wakeup is lost

    The code of [sleep] and [wakeup] (kernel/proc.c) under every interleaving
    of its atomic actions.  Any number of kernel threads, one per process slot,
    use a condition guarded by a spinlock [lk] and a wait channel:

    - a consumer runs  acquire(lk); while(!cond) sleep(chan, lk); cond = 0; release(lk);
    - a producer runs  acquire(lk); cond = 1; wakeup(chan); release(lk);

    as pipes, sleep locks, the log and the disk driver do.  [lk] and the
    process locks are spinlocks (see SpinlockSmp.v): an acquire is a step that
    waits until nobody owns the lock. *)

From S2P Require Import Prelude Riscv Kstate.

Module SleepWakeup.

(** Positions in the consumer's and the producer's code. *)
Inductive pc :=
| Out
| Test          (* holds lk, about to test the condition *)
| SlpAcquire    (* sleep: acquire(&p->lock) *)
| SlpRelease    (* sleep: release(lk) *)
| SlpChan       (* sleep: p->chan = chan *)
| SlpState      (* sleep: p->state = SLEEPING *)
| SlpSched      (* sleep: sched(); the scheduler will release p->lock *)
| Asleep        (* off the CPU *)
| SlpTidy       (* sleep: p->chan = 0 *)
| SlpUnlock     (* sleep: release(&p->lock) *)
| SlpRelock     (* sleep: acquire(lk) *)
| Taken         (* consumer: release(lk) *)
| Signal        (* producer: cond = 1 *)
| WkLoop (j : nat)     (* wakeup: at slot j of the loop *)
| WkCheck (j : nat)    (* wakeup: holds proc[j].lock, about to test and set *)
| WkRelease (j : nat). (* wakeup: release(&proc[j].lock) *)

Record sys := Sys {
  pcs : nat -> pc;
  lk : option nat;               (* the thread that holds lk *)
  pl : nat -> option nat;        (* the thread that holds proc[i].lock *)
  cond : bool;
  st : nat -> procstate;
  ch : nat -> bool;              (* proc[i].chan == chan *)
}.

Inductive step : sys -> sys -> Prop :=
(* consumer *)
| s_enter t p pl c st ch :
    p t = Out -> step (Sys p None pl c st ch) (Sys (upd p t Test) (Some t) pl c st ch)
| s_take t p l pl st ch :
    p t = Test -> step (Sys p l pl true st ch) (Sys (upd p t Taken) l pl false st ch)
| s_leave t p l pl c st ch :
    p t = Taken -> step (Sys p l pl c st ch) (Sys (upd p t Out) None pl c st ch)
| s_wait t p l pl st ch :
    p t = Test -> step (Sys p l pl false st ch) (Sys (upd p t SlpAcquire) l pl false st ch)
(* sleep *)
| s_slp_acquire t p l pl c st ch :
    p t = SlpAcquire -> pl t = None ->
    step (Sys p l pl c st ch) (Sys (upd p t SlpRelease) l (upd pl t (Some t)) c st ch)
| s_slp_release t p l pl c st ch :
    p t = SlpRelease -> step (Sys p l pl c st ch) (Sys (upd p t SlpChan) None pl c st ch)
| s_slp_chan t p l pl c st ch :
    p t = SlpChan -> step (Sys p l pl c st ch) (Sys (upd p t SlpState) l pl c st (upd ch t true))
| s_slp_state t p l pl c st ch :
    p t = SlpState -> step (Sys p l pl c st ch) (Sys (upd p t SlpSched) l pl c (upd st t SLEEPING) ch)
| s_sched_out t p l pl c st ch :   (* swtch; scheduler: release(&p->lock) *)
    p t = SlpSched -> step (Sys p l pl c st ch) (Sys (upd p t Asleep) l (upd pl t None) c st ch)
| s_sched_in t p l pl c st ch :    (* scheduler: acquire(&p->lock); p->state = RUNNING; swtch *)
    p t = Asleep -> pl t = None -> st t = RUNNABLE ->
    step (Sys p l pl c st ch) (Sys (upd p t SlpTidy) l (upd pl t (Some t)) c (upd st t RUNNING) ch)
| s_slp_tidy t p l pl c st ch :
    p t = SlpTidy -> step (Sys p l pl c st ch) (Sys (upd p t SlpUnlock) l pl c st (upd ch t false))
| s_slp_unlock t p l pl c st ch :
    p t = SlpUnlock -> step (Sys p l pl c st ch) (Sys (upd p t SlpRelock) l (upd pl t None) c st ch)
| s_slp_relock t p pl c st ch :
    p t = SlpRelock -> step (Sys p None pl c st ch) (Sys (upd p t Test) (Some t) pl c st ch)
(* producer and wakeup *)
| s_produce t p pl c st ch :
    p t = Out -> step (Sys p None pl c st ch) (Sys (upd p t Signal) (Some t) pl c st ch)
| s_signal t p l pl c st ch :
    p t = Signal -> step (Sys p l pl c st ch) (Sys (upd p t (WkLoop 0)) l pl true st ch)
| s_wk_self t p l pl c st ch :     (* if(p != myproc()) *)
    p t = WkLoop t -> (t < Z.to_nat NPROC)%nat ->
    step (Sys p l pl c st ch) (Sys (upd p t (WkLoop (S t))) l pl c st ch)
| s_wk_acquire t j p l pl c st ch :
    p t = WkLoop j -> (j < Z.to_nat NPROC)%nat -> j <> t -> pl j = None ->
    step (Sys p l pl c st ch) (Sys (upd p t (WkCheck j)) l (upd pl j (Some t)) c st ch)
| s_wk_wake t j p l pl c st ch :
    p t = WkCheck j -> st j = SLEEPING -> ch j = true ->
    step (Sys p l pl c st ch) (Sys (upd p t (WkRelease j)) l pl c (upd st j RUNNABLE) ch)
| s_wk_skip t j p l pl c st ch :
    p t = WkCheck j -> ~ (st j = SLEEPING /\ ch j = true) ->
    step (Sys p l pl c st ch) (Sys (upd p t (WkRelease j)) l pl c st ch)
| s_wk_release t j p l pl c st ch :
    p t = WkRelease j ->
    step (Sys p l pl c st ch) (Sys (upd p t (WkLoop (S j))) l (upd pl j None) c st ch)
| s_wk_done t p l pl c st ch :
    p t = WkLoop (Z.to_nat NPROC) ->
    step (Sys p l pl c st ch) (Sys (upd p t Taken) l pl c st ch).

(** At the start every thread runs outside, and no lock is held. *)
Inductive reach : sys -> Prop :=
| reach_init c : reach (Sys (fun _ => Out) None (fun _ => None) c (fun _ => RUNNING) (fun _ => false))
| reach_step s s' : reach s -> step s s' -> reach s'.

(** ** The invariant *)

Definition has_lk (p : pc) : Prop :=
  match p with
  | Test | SlpAcquire | SlpRelease | Taken | Signal | WkLoop _ | WkCheck _ | WkRelease _ => True
  | _ => False
  end.

(** The thread [t] at [p] holds [proc[i].lock]. *)
Definition has_pl (t : nat) (p : pc) (i : nat) : Prop :=
  match p with
  | SlpRelease | SlpChan | SlpState | SlpSched | SlpTidy | SlpUnlock => t = i
  | WkCheck j | WkRelease j => j = i
  | _ => False
  end.

(** The thread has found the condition false and will sleep, or sleeps. *)
Definition committed (p : pc) (s : procstate) : Prop :=
  match p with
  | SlpAcquire | SlpRelease | SlpChan | SlpState | SlpSched => True
  | Asleep => s = SLEEPING
  | _ => False
  end.

(** A running [wakeup] has still to look at slot [i]. *)
Definition pending (p : pc) (i : nat) : Prop :=
  match p with
  | WkLoop j | WkCheck j => (j <= i)%nat
  | WkRelease j => (j < i)%nat
  | _ => False
  end.

(** Where a thread can be SLEEPING, and with its channel set. *)
Definition state_ok (p : pc) (s : procstate) (c : bool) : Prop :=
  (s = SLEEPING -> p = SlpSched \/ p = Asleep) /\ (p = SlpSched -> s = SLEEPING) /\
  (p = SlpState \/ p = SlpSched \/ p = Asleep -> c = true).

Record inv (s : sys) : Prop := {
  inv_lk t : lk s = Some t <-> has_lk (pcs s t);
  inv_pl i t : pl s i = Some t <-> has_pl t (pcs s t) i;
  inv_st t : state_ok (pcs s t) (st s t) (ch s t);
  inv_range t j : (pcs s t = WkCheck j \/ pcs s t = WkRelease j) -> j <> t;
  inv_wake i : (i < Z.to_nat NPROC)%nat -> committed (pcs s i) (st s i) ->
    cond s = false \/ exists t, pending (pcs s t) i;
}.

(** How a step of thread [t] to position [x] keeps each part. *)
Section parts.
Context (p : nat -> pc) (t : nat) (x : pc).

Lemma lk_keep l :
  (forall t, l = Some t <-> has_lk (p t)) -> (has_lk (p t) <-> has_lk x) ->
  forall t', l = Some t' <-> has_lk (upd p t x t').
Proof. intros H Hx t'. unfold upd. case_decide; subst; [by rewrite H|apply H]. Qed.

Lemma lk_acquire :
  (forall t, None = Some t <-> has_lk (p t)) -> has_lk x ->
  forall t', Some t = Some t' <-> has_lk (upd p t x t').
Proof.
  intros H Hx t'. unfold upd. case_decide; subst; [done|]. rewrite <- H. split; congruence.
Qed.

Lemma lk_release l :
  (forall t, l = Some t <-> has_lk (p t)) -> has_lk (p t) -> ~ has_lk x ->
  forall t', None = Some t' <-> has_lk (upd p t x t').
Proof.
  intros H Ht Hx t'. unfold upd. case_decide; subst; [done|]. rewrite <- H.
  apply H in Ht as ->. split; congruence.
Qed.

Lemma pl_keep (pl : nat -> option nat) :
  (forall i t, pl i = Some t <-> has_pl t (p t) i) -> (forall i, has_pl t (p t) i <-> has_pl t x i) ->
  forall i t', pl i = Some t' <-> has_pl t' (upd p t x t') i.
Proof. intros H Hx i t'. unfold upd. case_decide; subst; [by rewrite H|apply H]. Qed.

Lemma pl_acquire (pl : nat -> option nat) j :
  (forall i t, pl i = Some t <-> has_pl t (p t) i) -> pl j = None ->
  (forall i, ~ has_pl t (p t) i) -> (forall i, has_pl t x i <-> i = j) ->
  forall i t', upd pl j (Some t) i = Some t' <-> has_pl t' (upd p t x t') i.
Proof.
  intros H Hj Ht Hx i t'. unfold upd. case_decide as Ei; case_decide as Et; subst.
  - by rewrite Hx.
  - rewrite <- H, Hj. split; congruence.
  - rewrite Hx. rewrite H. split; [intros Hc; by apply Ht in Hc|done].
  - apply H.
Qed.

Lemma pl_release (pl : nat -> option nat) j :
  (forall i t, pl i = Some t <-> has_pl t (p t) i) ->
  (forall i, has_pl t (p t) i <-> i = j) -> (forall i, ~ has_pl t x i) ->
  forall i t', upd pl j None i = Some t' <-> has_pl t' (upd p t x t') i.
Proof.
  intros H Ht Hx i t'. unfold upd. case_decide as Ei; case_decide as Et; subst.
  - split; [done|intros Hc; by apply Hx in Hc].
  - rewrite <- H. assert (pl j = Some t) as -> by (by apply H, Ht). split; congruence.
  - rewrite H. split; intros Hc; [by apply Ht in Hc|by apply Hx in Hc].
  - apply H.
Qed.

Lemma st_keep (st : nat -> procstate) (ch : nat -> bool) s' c' :
  (forall t, state_ok (p t) (st t) (ch t)) -> state_ok x s' c' ->
  forall t', state_ok (upd p t x t') (upd st t s' t') (upd ch t c' t').
Proof. intros H Hx t'. unfold upd. case_decide; [done|apply H]. Qed.

Lemma range_keep :
  (forall t j, p t = WkCheck j \/ p t = WkRelease j -> j <> t) ->
  (forall j, x = WkCheck j \/ x = WkRelease j -> j <> t) ->
  forall t' j, upd p t x t' = WkCheck j \/ upd p t x t' = WkRelease j -> j <> t'.
Proof. intros H Hx t' j. unfold upd. case_decide; subst; [apply Hx|apply H]. Qed.

(** No thread becomes committed, and the pending looks of [t] remain. *)
Lemma wake_keep (st st' : nat -> procstate) c :
  (forall i, (i < Z.to_nat NPROC)%nat -> committed (p i) (st i) ->
     c = false \/ exists t, pending (p t) i) ->
  (forall i, committed (upd p t x i) (st' i) -> committed (p i) (st i)) ->
  (forall i, (i < Z.to_nat NPROC)%nat -> i <> t -> committed (p i) (st' i) ->
     pending (p t) i -> pending x i) ->
  forall i, (i < Z.to_nat NPROC)%nat -> committed (upd p t x i) (st' i) ->
    c = false \/ exists t', pending (upd p t x t') i.
Proof.
  intros H Hc Hp i Hi Hci. destruct (H i Hi (Hc i Hci)) as [?|[t' Ht']]; [by left|right].
  destruct (decide (t' = t)) as [->|Hne].
  - exists t. rewrite upd_eq. destruct (decide (i = t)) as [->|Hi'].
    + specialize (Hc t). destruct (p t) eqn:E; simpl in *; try done; exfalso; by apply Hc.
    + apply Hp; [done|done| |done]. by rewrite upd_ne in Hci.
  - exists t'. by rewrite upd_ne.
Qed.
End parts.

Ltac part_lk Hp :=
  first [ apply lk_keep; [done|rewrite Hp; simpl; tauto]
        | apply lk_acquire; [done|simpl; tauto]
        | eapply lk_release; [done|rewrite Hp; simpl; tauto|simpl; tauto] ].
Ltac part_pl Hp :=
  first [ apply pl_keep; [done|intros i; rewrite Hp; simpl; tauto]
        | apply pl_acquire; [done|done|intros i; rewrite Hp; simpl; tauto
                            |intros i; simpl; split; congruence]
        | apply pl_release; [done|intros i; rewrite Hp; simpl; split; congruence|intros i; simpl; tauto] ].
Ltac part_range := apply range_keep; [done|intros j' [?|?]; simplify_eq; done].
Ltac part_wake Hp :=
  eapply wake_keep; [done|
    intros i; unfold upd; repeat case_decide; subst; rewrite ?Hp; simpl; try done; tauto|
    intros i; rewrite Hp; simpl; intros; try done; lia].

(** A step that leaves the state of other processes alone. *)
Lemma step_own s t x l' pl' c' s' b' :
  inv s -> state_ok x s' b' ->
  (forall t', l' = Some t' <-> has_lk (upd (pcs s) t x t')) ->
  (forall i t', pl' i = Some t' <-> has_pl t' (upd (pcs s) t x t') i) ->
  (forall j, x = WkCheck j \/ x = WkRelease j -> j <> t) ->
  (forall i, (i < Z.to_nat NPROC)%nat -> committed (upd (pcs s) t x i) (upd (st s) t s' i) ->
     c' = false \/ exists t', pending (upd (pcs s) t x t') i) ->
  inv (Sys (upd (pcs s) t x) l' pl' c' (upd (st s) t s') (upd (ch s) t b')).
Proof.
  intros [Hl Hpl Hst Hr Hw] Hx H1 H2 H3 H4. split; simpl; [done|done| | |done].
  - by apply st_keep.
  - by apply range_keep.
Qed.

Lemma step_own' s t x l' pl' c' :
  inv s -> state_ok x (st s t) (ch s t) ->
  (forall t', l' = Some t' <-> has_lk (upd (pcs s) t x t')) ->
  (forall i t', pl' i = Some t' <-> has_pl t' (upd (pcs s) t x t') i) ->
  (forall j, x = WkCheck j \/ x = WkRelease j -> j <> t) ->
  (forall i, (i < Z.to_nat NPROC)%nat -> committed (upd (pcs s) t x i) (st s i) ->
     c' = false \/ exists t', pending (upd (pcs s) t x t') i) ->
  inv (Sys (upd (pcs s) t x) l' pl' c' (st s) (ch s)).
Proof.
  intros Hi Hx H1 H2 H3 H4. rewrite <- (upd_same (st s) t), <- (upd_same (ch s) t).
  apply step_own; try done. by rewrite upd_same.
Qed.

Ltac own Hp s t x :=
  apply (step_own' s t x); simpl;
    [done|unfold state_ok; naive_solver|part_lk Hp|part_pl Hp|naive_solver|].
Ltac own2 Hp s t x :=
  apply (step_own s t x); simpl;
    [done|unfold state_ok; naive_solver|part_lk Hp|part_pl Hp|naive_solver|].

(** While a waker looks at slot [j], its process can only be off the CPU. *)
Lemma check_asleep s t j x :
  inv s -> pcs s t = WkCheck j -> committed (pcs s j) x -> pcs s j = Asleep.
Proof.
  intros Hi Hp Hc.
  assert (j <> t) as Hjt by (apply (inv_range _ Hi t); by left).
  assert (pl s j = Some t) as E by (apply (inv_pl _ Hi); by rewrite Hp).
  assert (lk s = Some t) as El by (apply (inv_lk _ Hi); by rewrite Hp).
  assert (has_pl j (pcs s j) j -> False) as H1.
  { intros H. apply (inv_pl _ Hi) in H. congruence. }
  assert (has_lk (pcs s j) -> False) as H2.
  { intros H. apply (inv_lk _ Hi) in H. congruence. }
  destruct (pcs s j); simpl in *; tauto.
Qed.

Lemma sw_step_inv s s' : inv s -> step s s' -> inv s'.
Proof.
  intros Hi Hs. pose proof Hi as [Hl Hpl Hst Hr Hw].
  destruct Hs as [t p pl c st ch Hp|t p l pl st ch Hp|t p l pl c st ch Hp|t p l pl st ch Hp
    |t p l pl c st ch Hp Hfree|t p l pl c st ch Hp|t p l pl c st ch Hp|t p l pl c st ch Hp
    |t p l pl c st ch Hp|t p l pl c st ch Hp Hfree Hrun|t p l pl c st ch Hp|t p l pl c st ch Hp
    |t p pl c st ch Hp|t p pl c st ch Hp|t p l pl c st ch Hp|t p l pl c st ch Hp Ht
    |t j p l pl c st ch Hp Hj Hne Hfree|t j p l pl c st ch Hp Hsl Hch|t j p l pl c st ch Hp Hno
    |t j p l pl c st ch Hp|t p l pl c st ch Hp]; simpl in *; pose proof (Hst t) as Ht0; rewrite Hp in Ht0.
  all: unfold state_ok in Ht0.
  - own Hp (Sys p None pl c st ch) t Test; part_wake Hp.
  - own Hp (Sys p l pl true st ch) t Taken. by left.
  - own Hp (Sys p l pl c st ch) t Out; part_wake Hp.
  - own Hp (Sys p l pl false st ch) t SlpAcquire. by left.
  - own Hp (Sys p l pl c st ch) t SlpRelease; part_wake Hp.
  - own Hp (Sys p l pl c st ch) t SlpChan; part_wake Hp.
  - rewrite <- (upd_same st t). own2 Hp (Sys p l pl c st ch) t SlpState.
    rewrite upd_same. part_wake Hp.
  - rewrite <- (upd_same ch t). own2 Hp (Sys p l pl c st ch) t SlpSched. part_wake Hp.
  - own Hp (Sys p l pl c st ch) t Asleep; part_wake Hp.
  - rewrite <- (upd_same ch t). own2 Hp (Sys p l pl c st ch) t SlpTidy. part_wake Hp.
  - rewrite <- (upd_same st t). own2 Hp (Sys p l pl c st ch) t SlpUnlock. rewrite upd_same. part_wake Hp.
  - own Hp (Sys p l pl c st ch) t SlpRelock; part_wake Hp.
  - own Hp (Sys p None pl c st ch) t Test; part_wake Hp.
  - own Hp (Sys p None pl c st ch) t Signal; part_wake Hp.
  - own Hp (Sys p l pl c st ch) t (WkLoop 0). intros i _ _. right. exists t. rewrite upd_eq. simpl. lia.
  - own Hp (Sys p l pl c st ch) t (WkLoop (S t)); part_wake Hp.
  - own Hp (Sys p l pl c st ch) t (WkCheck j); part_wake Hp.
  - (* the sleeper at [j] is woken *)
    pose proof (Hr t j (or_introl Hp)) as Hjt.
    assert (committed (p j) RUNNABLE -> False) as Hnc.
    { intros Hc. pose proof (check_asleep _ t j _ Hi Hp Hc) as E. simpl in E. by rewrite E in Hc. }
    split; simpl; [part_lk Hp|part_pl Hp| | |].
    + intros t'. destruct (decide (t' = t)) as [->|]; [rewrite upd_eq, upd_ne by done; unfold state_ok; naive_solver|].
      rewrite upd_ne by done. destruct (decide (t' = j)) as [->|]; [|rewrite upd_ne by done; apply Hst].
      rewrite upd_eq. destruct (Hst j) as (H1 & H2 & H3). split; [done|]. split; [|done].
      intros E. by destruct Hnc; rewrite E.
    + part_range.
    + eapply wake_keep; [done| |].
      * intros i. unfold upd. repeat case_decide; subst; rewrite ?Hp; simpl; try done; tauto.
      * intros i Hin Hit Hc. rewrite Hp; simpl. unfold upd in Hc. case_decide; subst; [done|lia].
  - (* nothing to wake at [j] *)
    own Hp (Sys p l pl c st ch) t (WkRelease j). eapply wake_keep; [done| |].
    + intros i. unfold upd. repeat case_decide; subst; rewrite ?Hp; simpl; try done; tauto.
    + intros i Hin Hit Hc. rewrite Hp; simpl. intros Hle. destruct (decide (i = j)) as [->|]; [|lia].
      exfalso. pose proof (check_asleep _ t j _ Hi Hp Hc) as E. simpl in E.
      destruct (Hst j) as (H1 & H2 & H3). rewrite E in Hc. apply Hno. auto.
  - own Hp (Sys p l pl c st ch) t (WkLoop (S j)); part_wake Hp.
  - own Hp (Sys p l pl c st ch) t Taken; part_wake Hp.
Qed.

Lemma sw_reach_inv s : reach s -> inv s.
Proof.
  induction 1 as [c|]; [|by eapply sw_step_inv]. split; simpl; try done; unfold state_ok; naive_solver.
Qed.
End SleepWakeup.

(** C7: no wakeup is lost.  In every interleaving of consumers that sleep on a
    channel while a condition is false and producers that set it and call
    [wakeup], whenever the condition holds and no [wakeup] is still running
    through the table, no process sleeps on the channel, and no process that
    found the condition false is still on its way to sleep. *)
Theorem no_lost_wakeup s i :
  SleepWakeup.reach s -> (i < Z.to_nat NPROC)%nat ->
  SleepWakeup.cond s = true -> (forall t, ~ SleepWakeup.pending (SleepWakeup.pcs s t) i) ->
  ~ (SleepWakeup.st s i = SLEEPING /\ SleepWakeup.ch s i = true) /\
  ~ SleepWakeup.committed (SleepWakeup.pcs s i) (SleepWakeup.st s i).
Proof.
  intros Hr Hi Hc Hp. pose proof (SleepWakeup.sw_reach_inv s Hr) as Hinv.
  assert (~ SleepWakeup.committed (SleepWakeup.pcs s i) (SleepWakeup.st s i)) as Hn.
  { intros H. destruct (SleepWakeup.inv_wake _ Hinv i Hi H) as [?|[t ?]]; [congruence|by apply (Hp t)]. }
  split; [|done]. intros [Hs _]. apply Hn.
  destruct (proj1 (SleepWakeup.inv_st _ Hinv i) Hs) as [->| ->]; done.
Qed.

(** Process 0 goes to sleep; process 5 makes the condition true and its [wakeup]
    has passed slot 0: process 0 is RUNNABLE. *)
Lemma no_lost_wakeup_witness :
  let s := SleepWakeup.Sys
    (foldl (fun p '(t, a) => upd p t a) (fun _ => SleepWakeup.Out)
       [(0%nat, SleepWakeup.Test); (0%nat, SleepWakeup.SlpAcquire); (0%nat, SleepWakeup.SlpRelease); (0%nat, SleepWakeup.SlpChan);
        (0%nat, SleepWakeup.SlpState); (0%nat, SleepWakeup.SlpSched); (0%nat, SleepWakeup.Asleep); (5%nat, SleepWakeup.Signal);
        (5%nat, SleepWakeup.WkLoop 0); (5%nat, SleepWakeup.WkCheck 0); (5%nat, SleepWakeup.WkRelease 0); (5%nat, SleepWakeup.WkLoop 1)])
    (Some 5%nat) (upd (upd (upd (upd (fun _ => None) 0%nat (Some 0%nat)) 0%nat None) 0%nat (Some 5%nat)) 0%nat None) true
    (upd (upd (fun _ => RUNNING) 0%nat SLEEPING) 0%nat RUNNABLE) (upd (fun _ => false) 0%nat true) in
  SleepWakeup.pcs s 0%nat = SleepWakeup.Asleep /\
  ~ (SleepWakeup.st s 0%nat = SLEEPING /\ SleepWakeup.ch s 0%nat = true) /\
  ~ SleepWakeup.committed (SleepWakeup.pcs s 0%nat) (SleepWakeup.st s 0%nat).
Proof.
  split; [reflexivity|]. apply no_lost_wakeup; [cbn [foldl]|by apply Nat.ltb_lt|done|].
  - eapply SleepWakeup.reach_step; [|by apply SleepWakeup.s_wk_release].
    eapply SleepWakeup.reach_step; [|by apply SleepWakeup.s_wk_wake].
    eapply SleepWakeup.reach_step; [|apply SleepWakeup.s_wk_acquire; [done|by apply Nat.ltb_lt|done|done]].
    eapply SleepWakeup.reach_step; [|by apply (SleepWakeup.s_signal 5 _ _ _ false)].
    eapply SleepWakeup.reach_step; [|by apply SleepWakeup.s_produce].
    eapply SleepWakeup.reach_step; [|by apply SleepWakeup.s_sched_out].
    eapply SleepWakeup.reach_step; [|by apply SleepWakeup.s_slp_state].
    eapply SleepWakeup.reach_step; [|by apply SleepWakeup.s_slp_chan].
    eapply SleepWakeup.reach_step; [|by apply (SleepWakeup.s_slp_release 0 _ (Some 0%nat))].
    eapply SleepWakeup.reach_step; [|by apply SleepWakeup.s_slp_acquire].
    eapply SleepWakeup.reach_step; [|by apply SleepWakeup.s_wait].
    eapply SleepWakeup.reach_step; [apply (SleepWakeup.reach_init false)|by apply SleepWakeup.s_enter].
  - intros t. cbn [foldl SleepWakeup.pcs]. unfold upd. repeat case_decide; simpl; lia || tauto.
Defined.
