(* ===== verification/Proc.v ===== *)
(** * kernel/proc.c, the process table

    Allocation and release of processes, sleep and wakeup, the switch to the
    scheduler and back, kill and wait.  [swtch] suspends the run: its
    continuation takes the state in which the process runs again. *)

From S2P Require Import Prelude Mem Riscv Str Locks Kalloc Vm Kstate.

Module Proc.

Definition proc_lock (i : nat) : lockid := ("proc", Z.of_nat i).
Definition pid_lock : lockid := ("nextpid", 0).
Definition wait_lock : lockid := ("wait_lock", 0).

(** The slots of the process table, in the order of the code's loops. *)
Definition proc_slots : list nat := seq 0 (Z.to_nat NPROC).

Definition procinit : M kstate unit :=
  (initlock pid_lock;;
   initlock wait_lock;;
   for_each proc_slots (fun p =>
     initlock (proc_lock p);;
     proc_upd p (set_p_kstack (KSTACK (Z.of_nat p)))))%K.

Definition cpuid : M kstate Z := gets (fun s => i32 (hartid (csr s))).

(** [push_off] and [pop_off] around the read keep the CPU the same; they cancel. *)
Definition myproc : M kstate (option nat) := gets cpu_proc.

(** The current process where the code uses it without a check. *)
Definition curproc : M kstate nat := (p <- myproc; deref p)%K.

Definition allocpid : M kstate Z :=
  (acquire pid_lock;;
   pid <- gets nextpid;
   modify (fun s => set_nextpid (i32 (nextpid s + 1)) s);;
   release pid_lock;;
   ret pid)%K.

Definition proc_pagetable (p : nat) : M kstate Z :=
  (tf <- proc_at p;
   pagetable <- vm Vm.uvmcreate;
   if pagetable =? 0 then ret 0
   else
     tr <- gets (fun s => trampoline (mach s));
     r <- vm (Vm.mappages pagetable TRAMPOLINE PGSIZE tr (Z.lor PTE_R PTE_X));
     if r <? 0 then vm (Vm.uvmfree pagetable 0);; ret 0
     else
       r <- vm (Vm.mappages pagetable TRAPFRAME PGSIZE (p_trapframe tf) (Z.lor PTE_R PTE_W));
       if r <? 0 then
         vm (Vm.uvmunmap pagetable TRAMPOLINE 1 false);;
         vm (Vm.uvmfree pagetable 0);;
         ret 0
       else ret pagetable)%K.

Definition proc_freepagetable (pagetable sz : Z) : M kstate unit :=
  (vm (Vm.uvmunmap pagetable TRAMPOLINE 1 false);;
   vm (Vm.uvmunmap pagetable TRAPFRAME 1 false);;
   vm (Vm.uvmfree pagetable sz))%K.

Definition freeproc (p : nat) : M kstate unit :=
  (x <- proc_at p;
   (if negb (p_trapframe x =? 0) then vm (Kalloc.kfree (p_trapframe x)) else ret tt);;
   proc_upd p (set_p_trapframe 0);;
   (if negb (p_pagetable x =? 0) then proc_freepagetable (p_pagetable x) (p_sz x) else ret tt);;
   proc_upd p (set_p_pagetable 0);;
   proc_upd p (set_p_sz 0);;
   proc_upd p (set_p_pid 0);;
   proc_upd p (set_p_parent None);;
   proc_upd p (fun x => set_p_name (<[0%nat := 0]> (p_name x)) x);;
   proc_upd p (set_p_chan None);;
   proc_upd p (set_p_killed 0);;
   proc_upd p (set_p_xstate 0);;
   proc_upd p (set_p_state UNUSED))%K.

(** The rest of [allocproc] once an UNUSED slot is found, its lock held. *)
Definition allocproc_found (p : nat) : M kstate (option nat) :=
  (pid <- allocpid;
   proc_upd p (set_p_pid pid);;
   proc_upd p (set_p_state USED);;
   tf <- vm Kalloc.kalloc;
   proc_upd p (set_p_trapframe tf);;
   if tf =? 0 then freeproc p;; release (proc_lock p);; ret None
   else
     pt <- proc_pagetable p;
     proc_upd p (set_p_pagetable pt);;
     if pt =? 0 then freeproc p;; release (proc_lock p);; ret None
     else
       proc_upd p (fun x => set_p_context (MkContext "forkret" (p_kstack x + PGSIZE) (repeat 0 12)) x);;
       ret (Some p))%K.

Definition allocproc : M kstate (option nat) :=
  (r <- for_first proc_slots (fun p =>
     acquire (proc_lock p);;
     x <- proc_at p;
     if decide (p_state x = UNUSED) then ret (Some p)
     else release (proc_lock p);; ret None);
   match r with
   | None => ret None
   | Some p => allocproc_found p
   end)%K.

Definition growproc (n : Z) : M kstate Z :=
  (p <- curproc;
   x <- proc_at p;
   let sz := u32 (p_sz x) in
   if 0 <? n then
     sz <- vm (Vm.uvmalloc (p_pagetable x) sz (u32 (sz + n)));
     let sz := u32 sz in
     if sz =? 0 then ret (-1)
     else proc_upd p (set_p_sz sz);; ret 0
   else if n <? 0 then
     sz <- vm (Vm.uvmdealloc (p_pagetable x) sz (u32 (sz + n)));
     proc_upd p (set_p_sz (u32 sz));;
     ret 0
   else proc_upd p (set_p_sz sz);; ret 0)%K.

(** ** The switch to the scheduler *)

(** swtch.S: the thread stops here and goes on when it is switched to. *)
Definition swtch : M kstate unit := fun s => Switch s (fun s' => Ret tt s').

(** Interrupts are off while a spinlock is held. *)
Definition intr_get : M kstate bool :=
  gets (fun s => match held s with [] => intr s | _ => false end).

Definition sched : M kstate unit :=
  (p <- curproc;
   h <- holding (proc_lock p);
   if negb h then panic "sched p->lock"
   else
     noff <- gets (fun s => length (held s));
     if negb (noff =? 1)%nat then panic "sched locks"
     else
       x <- proc_at p;
       if decide (p_state x = RUNNING) then panic "sched running"
       else
         i <- intr_get;
         if (i : bool) then panic "sched interruptible"
         else
           intena <- gets intr;
           swtch;;
           modify (set_intr intena))%K.

Definition yield : M kstate unit :=
  (p <- curproc;
   acquire (proc_lock p);;
   proc_upd p (set_p_state RUNNABLE);;
   sched;;
   release (proc_lock p))%K.

Definition sleep (c : chan) (lk : lockid) : M kstate unit :=
  (p <- curproc;
   acquire (proc_lock p);;
   release lk;;
   proc_upd p (set_p_chan (Some c));;
   proc_upd p (set_p_state SLEEPING);;
   sched;;
   proc_upd p (set_p_chan None);;
   release (proc_lock p);;
   acquire lk)%K.

(** The channel is an address; [None] is the null pointer. *)
Definition wakeup_chan (c : option chan) : M kstate unit :=
  for_each proc_slots (fun p =>
    (me <- myproc;
     if decide (me = Some p) then ret tt
     else
       acquire (proc_lock p);;
       x <- proc_at p;
       (if decide (p_state x = SLEEPING /\ p_chan x = c)
        then proc_upd p (set_p_state RUNNABLE) else ret tt);;
       release (proc_lock p)))%K.

Definition wakeup (c : chan) : M kstate unit := wakeup_chan (Some c).

Definition kill (pid : Z) : M kstate Z :=
  (r <- for_first proc_slots (fun p =>
     acquire (proc_lock p);;
     x <- proc_at p;
     if p_pid x =? pid then
       proc_upd p (set_p_killed 1);;
       (if decide (p_state x = SLEEPING) then proc_upd p (set_p_state RUNNABLE) else ret tt);;
       release (proc_lock p);;
       ret (Some 0)
     else release (proc_lock p);; ret None);
   ret (default (-1) r))%K.

(** One round of [scheduler] over the table; the swtch is to the process. *)
Definition scheduler_round : M kstate unit :=
  for_each proc_slots (fun p =>
    (acquire (proc_lock p);;
     x <- proc_at p;
     (if decide (p_state x = RUNNABLE) then
        proc_upd p (set_p_state RUNNING);;
        modify (set_cpu_proc (Some p));;
        swtch;;
        modify (set_cpu_proc None)
      else ret tt);;
     release (proc_lock p)))%K.

Definition scheduler : M kstate unit :=
  (modify (set_cpu_proc None);;
   loop (fun _ : unit => modify (set_intr true);; scheduler_round;; ret (inl tt)) tt)%K.

(** ** wait *)

Definition proc_chan (p : nat) : chan := ("proc", Z.of_nat p).

(** The scan for an exited child: [inr] leaves [wait] with its result, [inl]
    says whether there are children. *)
Definition wait_scan (p : nat) (addr : Z) : list nat -> bool -> M kstate (bool + Z) :=
  fix scan (nps : list nat) (havekids : bool) :=
    match nps with
    | [] => ret (inl havekids)
    | np :: nps' =>
        (x <- proc_at np;
         if decide (p_parent x = Some p) then
           acquire (proc_lock np);;
           x <- proc_at np;
           if decide (p_state x = ZOMBIE) then
             let pid := p_pid x in
             me <- proc_at p;
             r <- (if negb (addr =? 0)
                   then vm (Vm.copyout (p_pagetable me) addr
                          (ListDef.map (fun i => u8 (Z.shiftr (p_xstate x) (8 * i))) [0; 1; 2; 3]) 4)
                   else ret 0);
             if r <? 0 then
               release (proc_lock np);;
               release wait_lock;;
               ret (inr (-1))
             else
               freeproc np;;
               release (proc_lock np);;
               release wait_lock;;
               ret (inr pid)
           else release (proc_lock np);; scan nps' true
         else scan nps' havekids)%K
    end.

Definition wait_body (p : nat) (addr : Z) (_ : unit) : M kstate (unit + Z) :=
  (r <- wait_scan p addr proc_slots false;
   match r with
   | inr ret_ => ret (inr ret_)
   | inl havekids =>
       me <- proc_at p;
       if negb havekids || negb (p_killed me =? 0) then
         release wait_lock;;
         ret (inr (-1))
       else
         sleep (proc_chan p) wait_lock;;
         ret (inl tt)
   end)%K.

Definition wait (addr : Z) : M kstate Z :=
  (p <- curproc;
   acquire wait_lock;;
   loop (wait_body p addr) tt)%K.

(** [wakeup] on a process pointer, which may be null. *)
Definition wakeup_proc (o : option nat) : M kstate unit := wakeup_chan (proc_chan <$> o).

Definition reparent (p : nat) : M kstate unit :=
  for_each proc_slots (fun pp =>
    (x <- proc_at pp;
     if decide (p_parent x = Some p) then
       ip <- gets initproc;
       proc_upd pp (set_p_parent ip);;
       wakeup_proc ip
     else ret tt))%K.

(** ** Copies to and from user or kernel memory *)

(** Where data goes or comes from: a user virtual address of the current
    process, a physical address, or a local object of the caller. *)
Inductive place := PUser (va : Z) | PKern (pa : Z) | PLocal (bs : list Z).

Definition padd (d : place) (n : Z) : place :=
  match d with
  | PUser va => PUser (u64 (va + n))
  | PKern pa => PKern (pa + n)
  | PLocal bs => PLocal (drop (Z.to_nat n) bs)
  end.

(** [src] is the list of the [len] bytes; a local destination is returned to
    by the caller. *)
Definition either_copyout (dst : place) (src : list Z) (len : Z) : M kstate Z :=
  (p <- curproc;
   x <- proc_at p;
   match dst with
   | PUser va => vm (Vm.copyout (p_pagetable x) va src len)
   | PKern pa => vm (storebytes pa (take (Z.to_nat len) src));; ret 0
   | PLocal _ => ret 0
   end)%K.

(** The result is the status and the bytes that reach [dst]. *)
Definition either_copyin (src : place) (len : Z) : M kstate (Z * list Z) :=
  (p <- curproc;
   x <- proc_at p;
   match src with
   | PUser va => vm (Vm.copyin (p_pagetable x) va len)
   | PKern pa => bs <- gets (fun s => bytes (ram (mach s)) pa len); ret (0, bs)
   | PLocal bs => ret (0, take (Z.to_nat len) bs)
   end)%K.

End Proc.
