(* ===== verification/ProcSpec.v ===== *)
(** * Sleep, wakeup, kill and the scheduler

    What the operations of proc.c do to the process table. *)

From S2P Require Import Prelude Mem Riscv Str Locks Kalloc Vm Kstate Proc.
Import Proc.

(** ** Loops over the table *)

(** The process table has its [NPROC] slots. *)
Definition ptab_ok (s : kstate) : Prop := length (procs s) = Z.to_nat NPROC.

(** Applying [f] to the first [n] slots. *)
Definition upto (f : nat -> proc -> proc) (n : nat) (ps : list proc) : list proc :=
  imap (fun i x => if decide (i < n)%nat then f i x else x) ps.

Lemma upto_0 f ps : upto f 0 ps = ps.
Proof. apply list_eq. intros i. unfold upto. rewrite list_lookup_imap. by destruct (ps !! i). Qed.

Lemma upto_all f ps : upto f (length ps) ps = imap f ps.
Proof.
  apply list_eq. intros i. unfold upto. rewrite !list_lookup_imap.
  destruct (ps !! i) eqn:E; [|done]. simpl. rewrite decide_True; [done|].
  by eapply lookup_lt_Some.
Qed.

Lemma upto_S f n ps : alter (f n) n (upto f n ps) = upto f (S n) ps.
Proof.
  apply list_eq. intros i. unfold upto. rewrite list_lookup_imap.
  destruct (decide (i = n)) as [->|Hne].
  - rewrite list_lookup_alter_eq, list_lookup_imap.
    destruct (ps !! n); simpl; [|done]. by rewrite decide_False, decide_True by lia.
  - rewrite list_lookup_alter_ne, list_lookup_imap by done.
    destruct (ps !! i); simpl; [|done]. f_equal. repeat case_decide; (done || lia).
Qed.

(** A loop whose body updates slot [i], whatever the table is, updates the table. *)
Lemma for_slots (body : nat -> M kstate unit) (f : nat -> proc -> proc) s :
  ptab_ok s ->
  (forall i ps, (i < Z.to_nat NPROC)%nat -> length ps = Z.to_nat NPROC ->
     body i (set_procs ps s) = Ret tt (set_procs (alter (f i) i ps) s)) ->
  for_each proc_slots body s = Ret tt (set_procs (imap f (procs s)) s).
Proof.
  intros Hok Hb. rewrite <- upto_all, Hok. unfold proc_slots.
  set (N := Z.to_nat NPROC) in *. assert (N <= N)%nat as Hn by lia. revert Hn.
  generalize N at 1 3 4 as n. induction n as [|n IH]; intros Hn.
  - simpl. rewrite upto_0. by destruct s.
  - rewrite seq_S, for_each_app, IH by lia. cbn [bindr for_each]. unfold bind.
    rewrite Nat.add_0_l, Hb; [|lia|unfold upto; by rewrite length_imap].
    cbn [bindr]. by rewrite upto_S.
Qed.

(** ** Slots *)

Lemma proc_upd_eq i f s x : procs s !! i = Some x ->
  proc_upd i f s = Ret tt (set_procs (<[i := f x]> (procs s)) s).
Proof. intros E. unfold proc_upd. by rewrite E. Qed.

Lemma proc_at_eq i s x : procs s !! i = Some x -> proc_at i s = Ret x s.
Proof. intros E. unfold proc_at. by rewrite E. Qed.

Lemma alter_insert {A} (f : A -> A) (i : nat) (ps : list A) x :
  ps !! i = Some x -> alter f i ps = <[i := f x]> ps.
Proof.
  intros E. apply list_eq. intros j. destruct (decide (j = i)) as [->|Hne].
  - rewrite list_lookup_alter_eq, E, list_lookup_insert_eq; [done|]. by eapply lookup_lt_Some.
  - by rewrite list_lookup_alter_ne, list_lookup_insert_ne.
Qed.

(** No lock of a process slot is held. *)
Definition no_plock (s : kstate) : Prop := forall i, proc_lock i ∉ held s.

(** ** wakeup *)

Definition wake (c : chan) (me : option nat) (i : nat) (x : proc) : proc :=
  if decide (me = Some i) then x
  else if decide (p_state x = SLEEPING /\ p_chan x = Some c) then set_p_state RUNNABLE x else x.

Lemma wakeup_spec c s :
  ptab_ok s -> (forall i, cpu_proc s <> Some i -> proc_lock i ∉ held s) ->
  wakeup c s = Ret tt (set_procs (imap (wake c (cpu_proc s)) (procs s)) s).
Proof.
  intros Hok Hl. unfold wakeup, wakeup_chan. apply for_slots; [done|]. intros i ps Hi Hps.
  destruct (lookup_lt_is_Some_2 ps i) as [x Hx]; [lia|].
  unfold bind, myproc, gets. cbn [bindr].
  change (cpu_proc (set_procs ps s)) with (cpu_proc s).
  rewrite (alter_insert _ _ _ _ Hx). unfold wake.
  case_decide as Hme.
  - simpl. by rewrite list_insert_id.
  - rewrite acquire_eq by (simpl; by apply Hl). cbn [bindr].
    erewrite proc_at_eq by (simpl; exact Hx). cbn [bindr].
    case_decide as Hs; simpl.
    + erewrite proc_upd_eq by (simpl; exact Hx). cbn [bindr].
      erewrite release_head by reflexivity. f_equal; by destruct s as [[]].
    + erewrite release_head by reflexivity. rewrite list_insert_id by done.
      f_equal; by destruct s as [[]].
Qed.

(** [wakeup c] makes RUNNABLE exactly the processes, other than the caller,
    that are SLEEPING on [c]; every other process, and everything outside the
    process table, is left as it was. *)
Theorem wakeup_correct c s :
  ptab_ok s -> (forall i, cpu_proc s <> Some i -> proc_lock i ∉ held s) ->
  exists s', wakeup c s = Ret tt s' /\ s = set_procs (procs s) s' /\
    length (procs s') = length (procs s) /\
    forall i x, procs s !! i = Some x ->
      procs s' !! i = Some (if decide (cpu_proc s <> Some i /\ p_state x = SLEEPING /\ p_chan x = Some c)
                            then set_p_state RUNNABLE x else x).
Proof.
  intros Hok Hl. eexists. split; [by apply wakeup_spec|]. split; [by destruct s|].
  split; [simpl; by rewrite length_imap|]. intros i x Hx. simpl.
  rewrite list_lookup_imap, Hx. simpl. unfold wake. repeat case_decide; (done || tauto).
Qed.

(** Two sleepers, one of them on the channel. *)
Definition demo_sleepers : kstate :=
  let s := zero_kstate (Machine ∅ 0 0 [] 0 0 0) in
  let asleep c := set_p_pid 7 (set_p_state SLEEPING (set_p_chan (Some c) zero_proc)) in
  set_cpu_proc (Some 0%nat) (set_procs (<[3%nat := asleep ("log", 0)]>
    (<[5%nat := asleep ("pipe", 4096)]> (procs s))) s).

Lemma demo_sleepers_ok : ptab_ok demo_sleepers /\ no_plock demo_sleepers.
Proof. split; [by vm_compute|]. intros i. apply not_elem_of_nil. Qed.

Lemma wakeup_correct_witness : exists s',
  wakeup ("log", 0) demo_sleepers = Ret tt s' /\ demo_sleepers = set_procs (procs demo_sleepers) s' /\
  length (procs s') = length (procs demo_sleepers) /\
  forall i x, procs demo_sleepers !! i = Some x ->
    procs s' !! i = Some (if decide (cpu_proc demo_sleepers <> Some i /\ p_state x = SLEEPING /\
                                     p_chan x = Some ("log", 0))
                          then set_p_state RUNNABLE x else x).
Proof. apply wakeup_correct; [apply demo_sleepers_ok|]. intros i _. apply demo_sleepers_ok. Defined.

(** ** Scans of the table *)

Lemma for_first_skip {S A R} (l1 : list A) a l2 (body : A -> M S (option R)) s :
  (forall x, x ∈ l1 -> body x s = Ret None s) ->
  for_first (l1 ++ a :: l2) body s = for_first (a :: l2) body s.
Proof.
  induction l1 as [|x l1 IH]; intros H; [done|]. cbn [app].
  change (for_first (x :: l1 ++ a :: l2) body s) with
    (bindr (body x s) (fun r => match r with Some y => ret (Some y) | None => for_first (l1 ++ a :: l2) body end)).
  rewrite H by set_solver. apply IH. set_solver.
Qed.

Lemma for_first_none {S A R} (l : list A) (body : A -> M S (option R)) s :
  (forall x, x ∈ l -> body x s = Ret None s) -> for_first l body s = Ret None s.
Proof.
  induction l as [|x l IH]; intros H; [done|].
  simpl. rewrite H by set_solver. apply IH. set_solver.
Qed.

(** Slot [i] is the first whose process satisfies [P]. *)
Definition first_slot (P : proc -> Prop) (ps : list proc) (i : nat) : Prop :=
  (exists x, ps !! i = Some x /\ P x) /\ forall j y, (j < i)%nat -> ps !! j = Some y -> ~ P y.

Lemma first_slot_unique P ps i j : first_slot P ps i -> first_slot P ps j -> i = j.
Proof.
  intros [(x & Hx & HP) Hi] [(y & Hy & HQ) Hj]. destruct (Nat.lt_trichotomy i j) as [H|[H|H]]; [|done|].
  - by destruct (Hj i x).
  - by destruct (Hi j y).
Qed.

Lemma scan_found {R} (body : nat -> M kstate (option R)) (P : proc -> Prop) s i r s' :
  ptab_ok s -> first_slot P (procs s) i ->
  (forall j y, procs s !! j = Some y -> ~ P y -> body j s = Ret None s) ->
  body i s = Ret (Some r) s' -> for_first proc_slots body s = Ret (Some r) s'.
Proof.
  intros Hok [(x & Hx & HP) Hbefore] Hno Hyes.
  assert (i < Z.to_nat NPROC)%nat as Hi by (rewrite <- Hok; by eapply lookup_lt_Some).
  unfold proc_slots. replace (Z.to_nat NPROC) with (i + S (Z.to_nat NPROC - S i))%nat by lia.
  rewrite seq_app. cbn [seq]. rewrite for_first_skip.
  - rewrite Nat.add_0_l. cbn [for_first]. unfold bind. by rewrite Hyes.
  - intros j [_ Hj]%elem_of_seq.
    destruct (lookup_lt_is_Some_2 (procs s) j) as [y Hy]; [unfold ptab_ok in Hok; lia|].
    apply (Hno j y Hy). apply (Hbefore j y); [lia|done].
Qed.

Lemma scan_none {R} (body : nat -> M kstate (option R)) s :
  ptab_ok s -> (forall j y, procs s !! j = Some y -> body j s = Ret None s) ->
  for_first proc_slots body s = Ret None s.
Proof.
  intros Hok Hno. apply for_first_none. intros j [_ Hj]%elem_of_seq.
  destruct (lookup_lt_is_Some_2 (procs s) j) as [y Hy]; [unfold ptab_ok in Hok; lia|]. eauto.
Qed.

(** ** kill *)

Definition killed_proc (x : proc) : proc :=
  let y := set_p_killed 1 x in
  if decide (p_state x = SLEEPING) then set_p_state RUNNABLE y else y.

Lemma slot_skip i s x {R} (k : proc -> M kstate (option R)) :
  proc_lock i ∉ held s -> procs s !! i = Some x -> k x = (release (proc_lock i);; ret None)%K ->
  (acquire (proc_lock i);; x <- proc_at i; k x)%K s = Ret None s.
Proof.
  intros Hl Hx Hk. unfold bind. rewrite acquire_eq by done. cbn [bindr].
  erewrite proc_at_eq by (simpl; exact Hx). cbn [bindr]. rewrite Hk. unfold bind.
  erewrite release_head by reflexivity. cbn. f_equal. by destruct s as [[]].
Qed.

Lemma kill_found pid s i x :
  ptab_ok s -> no_plock s -> first_slot (fun x => p_pid x = pid) (procs s) i -> procs s !! i = Some x ->
  kill pid s = Ret 0 (set_procs (<[i := killed_proc x]> (procs s)) s).
Proof.
  intros Hok Hl Hf Hx. pose proof Hf as [(x' & Hx' & Hp) _]. simplify_eq.
  unfold kill. unfold bind at 1. erewrite scan_found; [|done|exact Hf| |]; [reflexivity| |].
  - intros j y Hy Hne. apply (slot_skip j s y); [apply Hl|done|]. apply Z.eqb_neq in Hne. by rewrite Hne.
  - unfold bind. rewrite acquire_eq by apply Hl. cbn [bindr].
    erewrite proc_at_eq by (simpl; exact Hx). cbn [bindr]. rewrite Z.eqb_refl.
    erewrite proc_upd_eq by (simpl; exact Hx). cbn [bindr].
    unfold killed_proc. case_decide; cbn [bindr ret].
    + erewrite proc_upd_eq by (simpl; apply list_lookup_insert_eq; by eapply lookup_lt_Some).
      cbn [bindr]. erewrite release_head by reflexivity. cbn. f_equal.
      rewrite list_insert_insert_eq. by destruct s as [[]].
    + erewrite release_head by reflexivity. cbn. f_equal. by destruct s as [[]].
Qed.

(** [kill pid] marks the first slot whose pid is [pid], and makes its
    process RUNNABLE if it sleeps; it changes nothing else and leaves all locks
    as they were.  It fails only if no slot has that pid. *)
Theorem kill_correct pid s :
  ptab_ok s -> no_plock s ->
  (forall i x, first_slot (fun x => p_pid x = pid) (procs s) i -> procs s !! i = Some x ->
     kill pid s = Ret 0 (set_procs (<[i := killed_proc x]> (procs s)) s)) /\
  ((forall i x, procs s !! i = Some x -> p_pid x <> pid) -> kill pid s = Ret (-1) s).
Proof.
  intros Hok Hl. split; [intros i x; by apply kill_found|].
  intros Hno. unfold kill. unfold bind at 1. rewrite scan_none; [done..|].
  intros j y Hy. apply (slot_skip j s y); [apply Hl|done|].
  apply Hno, Z.eqb_neq in Hy. by rewrite Hy.
Qed.

Lemma kill_correct_witness :
  kill 7 demo_sleepers = Ret 0 (set_procs (<[3%nat := killed_proc (set_p_pid 7 (set_p_state SLEEPING
    (set_p_chan (Some ("log", 0)) zero_proc)))]> (procs demo_sleepers)) demo_sleepers).
Proof.
  apply (kill_correct 7 demo_sleepers); [apply demo_sleepers_ok..| |done].
  split; [by eexists|]. intros j y Hj. do 3 (destruct j as [|j]; [by intros [= <-]|]). lia.
Defined.

(** ** sched and sleep *)

Lemma curproc_eq p s : cpu_proc s = Some p -> curproc s = Ret p s.
Proof. intros E. unfold curproc, myproc, bind, gets. cbn [bindr]. by rewrite E. Qed.

Lemma sched_switch p x s :
  cpu_proc s = Some p -> procs s !! p = Some x -> held s = [proc_lock p] ->
  p_state x <> RUNNING -> sched s = Switch s (fun s' => Ret tt (set_intr (intr s) s')).
Proof.
  intros Hc Hx Hh Hst. unfold sched, bind. rewrite (curproc_eq p) by done. cbn [bindr].
  unfold holding, gets. cbn [bindr]. rewrite Hh, bool_decide_true by set_solver.
  cbn [negb]. rewrite Hh. cbn [length Nat.eqb negb]. rewrite (proc_at_eq p s x) by done. cbn [bindr].
  rewrite decide_False by done. unfold intr_get, gets. cbn [bindr]. by rewrite Hh.
Qed.

Lemma sched_locks p s :
  cpu_proc s = Some p -> proc_lock p ∈ held s -> length (held s) <> 1%nat ->
  sched s = Panic "sched locks".
Proof.
  intros Hc Hl Hn. unfold sched, bind. rewrite (curproc_eq p) by done. cbn [bindr].
  unfold holding, gets. cbn [bindr]. rewrite bool_decide_true by done.
  cbn [bindr negb]. apply Nat.eqb_neq in Hn. by rewrite Hn.
Qed.

(** The state in which [sleep] gives up the CPU. *)
Lemma sleep_enter p x c lk s :
  cpu_proc s = Some p -> procs s !! p = Some x -> proc_lock p ∉ held s -> lk ∈ held s ->
  sleep c lk s = bindr (sched (set_held (proc_lock p :: remove_lock lk (held s))
       (set_procs (<[p := set_p_state SLEEPING (set_p_chan (Some c) x)]> (procs s)) s)))
    (fun _ => (proc_upd p (set_p_chan None);; release (proc_lock p);; acquire lk)%K).
Proof.
  intros Hc Hx Hp Hlk. unfold sleep. unfold bind at 1. rewrite (curproc_eq p) by done. cbn [bindr].
  unfold bind at 1. rewrite acquire_eq by done. cbn [bindr].
  unfold bind at 1. unfold release at 1. rewrite !held_set_held, set_held_twice.
  rewrite decide_True by set_solver. cbn [bindr remove_lock].
  rewrite decide_False by (intros ->; done).
  unfold bind at 1. erewrite proc_upd_eq by (simpl; exact Hx). cbn [bindr].
  unfold bind at 1. erewrite proc_upd_eq by (simpl; apply list_lookup_insert_eq; by eapply lookup_lt_Some).
  cbn [bindr]. unfold bind at 1. f_equal. f_equal. cbn. rewrite list_insert_insert_eq. done.
Qed.

(** The state a sleeping process leaves behind: its own lock is the only one held. *)
Definition asleep_on (c : chan) (pr : nat) (p : proc) (s : kstate) : kstate :=
  set_held [proc_lock pr]
    (set_procs (<[pr := set_p_state SLEEPING (set_p_chan (Some c) p)]> (procs s)) s).

Lemma sleep_switch c lk pr p s : cpu_proc s = Some pr -> procs s !! pr = Some p ->
  held s = [lk] -> lk <> proc_lock pr -> exists k, sleep c lk s = Switch (asleep_on c pr p s) k.
Proof.
  intros Hc Hp Hh Hne. rewrite (sleep_enter pr p); [|done|done|rewrite Hh; set_solver|rewrite Hh; set_solver].
  rewrite Hh, remove_lock_head. erewrite sched_switch;
    [by eexists|done|apply list_lookup_insert_eq; by eapply lookup_lt_Some|done|done].
Qed.

(** C23: [sleep c lk] gives up [lk] and the CPU in one step: the switch happens
    with the process SLEEPING on [c], its own lock held and [lk] free, so no
    [wakeup] can slip in between.  When the process runs again, the sleep ends
    with [lk] held again, the channel cleared and the interrupt state as before.
    With any other spinlock held, the sleep panics. *)
Theorem sleep_correct p x c lk s :
  cpu_proc s = Some p -> procs s !! p = Some x -> proc_lock p ∉ held s ->
  (held s = [lk] -> exists k,
     sleep c lk s = Switch (set_held [proc_lock p]
       (set_procs (<[p := set_p_state SLEEPING (set_p_chan (Some c) x)]> (procs s)) s)) k /\
     forall s' x', procs s' !! p = Some x' -> held s' = [proc_lock p] ->
       k s' = Ret tt (set_held [lk] (set_intr (intr s)
                (set_procs (<[p := set_p_chan None x']> (procs s')) s')))) /\
  (lk ∈ held s -> (1 < length (held s))%nat -> sleep c lk s = Panic "sched locks").
Proof.
  intros Hc Hx Hp. pose proof (list_lookup_insert_eq (procs s) p
    (set_p_state SLEEPING (set_p_chan (Some c) x)) (lookup_lt_Some _ _ _ Hx)) as Hy.
  split.
  - intros Hh. rewrite (sleep_enter p x) by (done || rewrite Hh; set_solver).
    rewrite Hh, remove_lock_head. erewrite sched_switch by (done || exact Hy). cbn [bindr].
    eexists. split; [done|]. intros s' x' Hx' Hh'. cbn [bindr]. unfold bind.
    rewrite (proc_upd_eq p _ _ x') by done. cbn [bindr].
    erewrite release_head by exact Hh'. cbn [bindr]. rewrite acquire_eq by apply not_elem_of_nil.
    done.
  - intros Hl Hn. rewrite (sleep_enter p x) by done.
    erewrite (sched_locks p); [done|done|cbn; set_solver|].
    cbn. pose proof (remove_lock_length lk (held s) Hl) as E. cbn in *. lia.
Qed.

Lemma sleep_correct_witness : exists k,
  let s := set_held [("log", 0)] demo_sleepers in
  sleep ("log", 0) ("log", 0) s = Switch (set_held [proc_lock 0]
    (set_procs (<[0%nat := set_p_state SLEEPING (set_p_chan (Some ("log", 0)) zero_proc)]> (procs s)) s)) k /\
  forall s' x', procs s' !! 0%nat = Some x' -> held s' = [proc_lock 0] ->
    k s' = Ret tt (set_held [("log", 0)] (set_intr (intr s)
             (set_procs (<[0%nat := set_p_chan None x']> (procs s')) s'))).
Proof.
  apply (sleep_correct 0%nat zero_proc ("log", 0) ("log", 0)
    (set_held [("log", 0)] demo_sleepers)); [done..| |done].
  by intros ?%list_elem_of_singleton.
Defined.
