(* ===== verification/Sched.v ===== *)
(** * The scheduler

    One round of [scheduler] over the process table, with the processes it
    switches to as a function of the state. *)

From Stdlib Require Import Sorted.
From S2P Require Import Prelude Mem Riscv Locks Kalloc Kstate Proc ProcSpec.
Import Proc.

(** What the scheduler relies on when it switches to process [p]: the process
    comes back with its lock held, and no other process that was RUNNABLE has
    been taken. *)
Record gives_back (p : nat) (s s' : kstate) : Prop := {
  gb_table : ptab_ok s';
  gb_lock : held s' = [proc_lock p];
  gb_others : forall j x, j <> p -> procs s !! j = Some x -> p_state x = RUNNABLE ->
                exists y, procs s' !! j = Some y /\ p_state y = RUNNABLE;
}.

(** The scheduler hands the CPU to [p]. *)
Definition hands_over (s : kstate) (p : nat) : Prop :=
  cpu_proc s = Some p /\ held s = [proc_lock p] /\
  exists x, procs s !! p = Some x /\ p_state x = RUNNING.

(** The state in which [p], found in state [x], is switched to. *)
Definition dispatched (p : nat) (x : proc) (s : kstate) : kstate :=
  set_cpu_proc (Some p) (set_procs (<[p := set_p_state RUNNING x]> (procs s)) (set_held [proc_lock p] s)).

(** The turns of a round that starts in [s] and ends in [s']: the states [sw] of
    the switches and the slots [l] the CPU goes to.  A process gets its turn only
    if it is RUNNABLE in the state the turn before has left; nothing happens
    between turns. *)
Inductive turns (env : kstate -> kstate) : kstate -> list kstate -> list nat -> kstate -> Prop :=
  | turns_end s : turns env s [] [] s
  | turns_next s p x sw l s' : procs s !! p = Some x -> p_state x = RUNNABLE ->
      turns env (set_held [] (set_cpu_proc None (env (dispatched p x s)))) sw l s' ->
      turns env s (dispatched p x s :: sw) (p :: l) s'.

Section round.
Context (env : kstate -> kstate).
Hypothesis env_back : forall s p, ptab_ok s -> hands_over s p -> gives_back p s (env s).

(** The body of the loop in [scheduler_round]. *)
Definition visit : nat -> M kstate unit :=
  ltac:(let b := eval unfold scheduler_round in scheduler_round in match b with for_each _ ?f => exact f end).

Lemma scheduler_round_eq : scheduler_round = for_each proc_slots visit.
Proof. reflexivity. Qed.

Lemma visit_skip p x s :
  held s = [] -> procs s !! p = Some x -> p_state x <> RUNNABLE -> visit p s = Ret tt s.
Proof.
  intros Hh Hx Hst. unfold visit, bind. rewrite acquire_eq by (rewrite Hh; apply not_elem_of_nil).
  cbn [bindr]. erewrite proc_at_eq by exact Hx. cbn [bindr].
  rewrite decide_False by done. cbn [bindr ret]. erewrite release_head by done.
  rewrite set_held_twice, set_held_held. done.
Qed.

Lemma visit_run p x s :
  ptab_ok s -> held s = [] -> procs s !! p = Some x -> p_state x = RUNNABLE ->
  let s1 := dispatched p x s in
  let s' := set_held [] (set_cpu_proc None (env s1)) in
  switches env (visit p s) = [s1] /\ hands_over s1 p /\
    finish env (visit p s) = Ret tt s' /\ ptab_ok s' /\ held s' = [] /\
    forall j y, j <> p -> procs s !! j = Some y -> p_state y = RUNNABLE ->
      exists z, procs s' !! j = Some z /\ p_state z = RUNNABLE.
Proof.
  intros Hok Hh Hx Hst s1 s'. unfold visit, bind.
  rewrite acquire_eq by (rewrite Hh; apply not_elem_of_nil). rewrite Hh.
  cbn [bindr]. erewrite proc_at_eq by exact Hx. cbn [bindr]. rewrite decide_True by done.
  erewrite proc_upd_eq by exact Hx. cbn [bindr modify swtch].
  match goal with |- context [Switch ?t _] => change t with s1 end.
  assert (hands_over s1 p) as Hho.
  { split; [done|]. split; [done|]. eexists.
    split; [apply list_lookup_insert_eq; by eapply lookup_lt_Some|done]. }
  destruct (env_back s1 p) as [Ht Hl Ho]; [by unfold ptab_ok, s1; simpl; rewrite length_insert|done|].
  cbn [switches finish bindr]. erewrite release_head by exact Hl. cbn [switches finish].
  split; [done|]. split; [done|]. split; [done|]. split; [done|]. split; [done|].
  intros j y Hne Hy HR. apply (Ho j y Hne); [|done]. cbn. by rewrite list_lookup_insert_ne.
Qed.

Lemma round_from n a s :
  (a + n = Z.to_nat NPROC)%nat -> ptab_ok s -> held s = [] ->
  exists l s', finish env (for_each (seq a n) visit s) = Ret tt s' /\ held s' = [] /\
    turns env s (switches env (for_each (seq a n) visit s)) l s' /\
    Forall2 hands_over (switches env (for_each (seq a n) visit s)) l /\
    StronglySorted lt l /\ Forall (fun i => a <= i)%nat l /\
    forall i x, (a <= i)%nat -> procs s !! i = Some x -> p_state x = RUNNABLE -> i ∈ l.
Proof.
  revert a s. induction n as [|n IH]; intros a s Hn Hok Hh.
  { exists [], s. repeat split; try done; try constructor.
    intros i x Hi Hx%lookup_lt_Some. unfold ptab_ok in Hok. lia. }
  cbn [seq for_each]. unfold bind.
  destruct (lookup_lt_is_Some_2 (procs s) a) as [x Hx]; [unfold ptab_ok in Hok; lia|].
  destruct (decide (p_state x = RUNNABLE)) as [Hst|Hst].
  - destruct (visit_run a x s) as (Hsw & Hho & Hfin & Hok2 & Hh2 & Hkeep); [done..|].
    destruct (IH (S a) _ ltac:(lia) Hok2 Hh2) as (l & s' & IH1 & IH2 & IHt & IH3 & IH4 & IH5 & IH6).
    exists (a :: l), s'. rewrite finish_bindr, switches_bindr, Hfin, Hsw. cbn [bindr app].
    split; [done|]. split; [done|]. split; [by eapply turns_next|]. split; [by constructor|].
    split; [by constructor; [|eapply Forall_impl; [exact IH5|simpl; lia]]|].
    split; [constructor; [lia|]; eapply Forall_impl; [exact IH5|simpl; lia]|].
    intros i y Hi Hy HR. destruct (decide (i = a)) as [->|Hne]; [set_solver|].
    destruct (Hkeep i y Hne Hy HR) as (z & Hz & HzR).
    apply elem_of_cons. right. apply (IH6 i z); [lia|done..].
  - rewrite (visit_skip a x) by done. cbn [bindr].
    destruct (IH (S a) s) as (l & s' & IH1 & IH2 & IHt & IH3 & IH4 & IH5 & IH6); [lia|done..|].
    exists l, s'. do 5 (split; [done|]). split; [eapply Forall_impl; [exact IH5|simpl; lia]|].
    intros i y Hi Hy HR. destruct (decide (i = a)) as [->|Hne]; [congruence|].
    apply (IH6 i y); [lia|done..].
Qed.
End round.

(** C22: one round of the scheduler is fair, as long as a process it switches to
    comes back with its lock held and takes no other process that is RUNNABLE
    (so no other CPU runs them in the meantime).  The round returns to its start
    with no lock held.  In slot order and each at most once, it hands the CPU to
    processes that are RUNNABLE at that moment, and to no others, with the
    process RUNNING, its lock held and the CPU's [proc] set to it; nothing else
    changes between two turns.  Every process that was RUNNABLE when the round
    began gets the CPU in it. *)
Theorem scheduler_round_fair (env : kstate -> kstate) s :
  (forall s p, ptab_ok s -> hands_over s p -> gives_back p s (env s)) ->
  ptab_ok s -> held s = [] ->
  exists l s', finish env (scheduler_round s) = Ret tt s' /\ held s' = [] /\
    turns env s (switches env (scheduler_round s)) l s' /\
    Forall2 hands_over (switches env (scheduler_round s)) l /\ StronglySorted lt l /\
    forall i x, procs s !! i = Some x -> p_state x = RUNNABLE -> i ∈ l.
Proof.
  intros Henv Hok Hh. rewrite scheduler_round_eq. unfold proc_slots.
  destruct (round_from env Henv (Z.to_nat NPROC) 0 s) as (l & s' & H1 & H2 & Ht & H3 & H4 & _ & H6);
    [done..|].
  exists l, s'. do 5 (split; [done|]). intros i x. apply H6. lia.
Qed.

(** Two RUNNABLE processes that yield. *)
Definition demo_yield (s : kstate) : kstate :=
  match cpu_proc s with
  | Some p => set_procs (alter (set_p_state RUNNABLE) p (procs s)) s
  | None => s
  end.
Definition demo_ready : kstate :=
  let s := zero_kstate (Machine ∅ 0 0 [] 0 0 0) in
  set_procs (<[3%nat := set_p_state RUNNABLE zero_proc]>
            (<[5%nat := set_p_state RUNNABLE zero_proc]> (procs s))) s.

Lemma scheduler_round_fair_witness : exists l s',
  finish demo_yield (scheduler_round demo_ready) = Ret tt s' /\ held s' = [] /\
  turns demo_yield demo_ready (switches demo_yield (scheduler_round demo_ready)) l s' /\
  Forall2 hands_over (switches demo_yield (scheduler_round demo_ready)) l /\ StronglySorted lt l /\
  forall i x, procs demo_ready !! i = Some x -> p_state x = RUNNABLE -> i ∈ l.
Proof.
  apply scheduler_round_fair; [|by vm_compute|done].
  intros s p Hok (Hp & Hh & x & Hx & Hst). unfold demo_yield. rewrite Hp. split.
  - unfold ptab_ok. simpl. by rewrite length_alter.
  - done.
  - intros j y Hne Hy HR. exists y. simpl. by rewrite list_lookup_alter_ne.
Defined.
