(* ===== verification/ProcAlloc.v ===== *)
(** * Allocation of processes

    What [allocproc] and [freeproc] leave in the process table, whatever the
    memory management underneath does. *)

From S2P Require Import Prelude Mem Riscv Locks Kalloc Vm Kstate Proc ProcSpec.
Import Proc.

(** ** Memory management changes only the machine *)

Lemma vm_Ret {A} (m : M machine A) s a s' :
  vm m s = Ret a s' -> exists t, s' = set_mach t s.
Proof. unfold vm, lift. destruct (m (mach s)); simpl; intros [=]; subst; eauto. Qed.

Definition same_but_mach (s s' : kstate) : Prop := exists t, s' = set_mach t s.

Lemma same_but_mach_trans s1 s2 s3 :
  same_but_mach s1 s2 -> same_but_mach s2 s3 -> same_but_mach s1 s3.
Proof. intros [t ->] [t' ->]. by exists t'. Qed.

Lemma same_but_mach_refl s : same_but_mach s s.
Proof. exists (mach s). by destruct s. Qed.

Lemma proc_at_Ret i s x s' : proc_at i s = Ret x s' -> s' = s /\ procs s !! i = Some x.
Proof. unfold proc_at. destruct (procs s !! i); intros [=]; by subst. Qed.

Lemma proc_upd_Ret i f s u s' : proc_upd i f s = Ret u s' ->
  exists x, procs s !! i = Some x /\ s' = set_procs (<[i := f x]> (procs s)) s.
Proof. unfold proc_upd. destruct (procs s !! i); intros [=]; subst; eauto. Qed.

Lemma proc_pagetable_mach p s r s' : proc_pagetable p s = Ret r s' -> same_but_mach s s'.
Proof.
  unfold proc_pagetable. intros H. inv_ret H. apply proc_at_Ret in E as [-> _].
  inv_ret H. apply vm_Ret in E. eapply same_but_mach_trans; [exact E|]. clear E.
  case_match; [by inv_ret H; apply same_but_mach_refl|]. inv_ret H. inv_ret E.
  inv_ret H. apply vm_Ret in E. eapply same_but_mach_trans; [exact E|]. clear E.
  case_match.
  { inv_ret H. apply vm_Ret in E. inv_ret H. done. }
  inv_ret H. apply vm_Ret in E. eapply same_but_mach_trans; [exact E|]. clear E.
  case_match; [|by inv_ret H; apply same_but_mach_refl].
  inv_ret H. apply vm_Ret in E. eapply same_but_mach_trans; [exact E|]. clear E.
  inv_ret H. apply vm_Ret in E. inv_ret H. done.
Qed.

(** ** Changes of one slot *)

(** Slot [p] holds [x] and then [y]; the memory may have changed, nothing else. *)
Definition slot_step (p : nat) (x y : proc) (s s' : kstate) : Prop :=
  procs s !! p = Some x /\ exists t, s' = set_mach t (set_procs (<[p := y]> (procs s)) s).

Lemma slot_step_upd p f s u s' : proc_upd p f s = Ret u s' -> exists x, slot_step p x (f x) s s'.
Proof.
  intros (x & Hx & ->)%proc_upd_Ret. exists x. split; [done|]. exists (mach s). by destruct s.
Qed.

Lemma slot_step_refl p x s : procs s !! p = Some x -> slot_step p x x s s.
Proof.
  intros Hx. split; [done|]. exists (mach s). rewrite list_insert_id by done. by destruct s.
Qed.

Lemma slot_step_mach p x y s s' s'' :
  slot_step p x y s s' -> same_but_mach s' s'' -> slot_step p x y s s''.
Proof. intros (Hx & t & ->) [t' ->]. split; [done|]. by exists t'. Qed.

Lemma slot_step_lookup p x y s s' : slot_step p x y s s' -> procs s' !! p = Some y.
Proof. intros (Hx & t & ->). simpl. apply list_lookup_insert_eq. by eapply lookup_lt_Some. Qed.

Lemma slot_step_trans p x y z s s' s'' :
  slot_step p x y s s' -> slot_step p y z s' s'' -> slot_step p x z s s''.
Proof.
  intros (Hx & t & ->) (Hy & t' & ->). split; [done|]. exists t'. simpl.
  by rewrite list_insert_insert_eq.
Qed.

Lemma slot_step_next p x y f s s' u s'' :
  slot_step p x y s s' -> proc_upd p f s' = Ret u s'' -> slot_step p x (f y) s s''.
Proof.
  intros H1 (y' & H2)%slot_step_upd. eapply slot_step_trans; [exact H1|].
  pose proof (slot_step_lookup _ _ _ _ _ H1). destruct H2 as [??]. by simplify_eq.
Qed.

Ltac step_upd H HS :=
  inv_ret H; match goal with E : proc_upd _ _ _ = Ret _ _ |- _ =>
    let HS' := fresh in pose proof (slot_step_next _ _ _ _ _ _ _ _ HS E) as HS';
    clear E HS; rename HS' into HS end.

Definition freed_proc (x : proc) : proc :=
  set_p_state UNUSED (set_p_xstate 0 (set_p_killed 0 (set_p_chan None
    (let y := set_p_parent None (set_p_pid 0 (set_p_sz 0 (set_p_pagetable 0 (set_p_trapframe 0 x)))) in
     set_p_name (<[0%nat := 0]> (p_name y)) y)))).

Lemma freepagetable_mach pt sz s u s' : proc_freepagetable pt sz s = Ret u s' -> same_but_mach s s'.
Proof.
  unfold proc_freepagetable. intros H. inv_ret H. apply vm_Ret in E.
  inv_ret H. apply vm_Ret in E0. apply vm_Ret in H.
  eauto using same_but_mach_trans.
Qed.

Lemma when_mach (b : bool) (m : M kstate unit) s u s' :
  (forall u s', m s = Ret u s' -> same_but_mach s s') ->
  (if b then m else ret tt) s = Ret u s' -> same_but_mach s s'.
Proof. intros Hm. destruct b; [apply Hm|]. intros H. inv_ret H. apply same_but_mach_refl. Qed.

Lemma freeproc_step p s u s' : freeproc p s = Ret u s' -> exists x, slot_step p x (freed_proc x) s s'.
Proof.
  unfold freeproc. intros H. inv_ret H. apply proc_at_Ret in E as [-> Hx]. exists v.
  pose proof (slot_step_refl _ _ _ Hx) as HS.
  inv_ret H. eapply slot_step_mach in HS; [|eapply when_mach, E; by intros ?? ?%vm_Ret].
  clear E. step_upd H HS.
  inv_ret H. eapply slot_step_mach in HS; [|eapply when_mach, E; by intros ?? ?%freepagetable_mach].
  clear E. do 8 step_upd H HS. exact (slot_step_next _ _ _ _ _ _ _ _ HS H).
Qed.

(** ** allocproc *)

Lemma acquire_Ret l (s : kstate) u s' : acquire l s = Ret u s' -> s' = set_held (l :: held s) s.
Proof. unfold acquire. case_decide; intros [=]; by subst. Qed.

Lemma release_Ret l (s : kstate) u s' :
  release l s = Ret u s' -> s' = set_held (remove_lock l (held s)) s.
Proof. unfold release. case_decide; intros [=]; by subst. Qed.

Lemma allocpid_Ret s pid s' :
  allocpid s = Ret pid s' -> pid = nextpid s /\ s' = set_nextpid (i32 (nextpid s + 1)) s.
Proof.
  unfold allocpid. intros H. inv_ret H. apply acquire_Ret in E as ->. inv_ret H. inv_ret E.
  inv_ret H. inv_ret E. inv_ret H. apply release_Ret in E as ->. inv_ret H. split; [done|].
  by destruct s as [[]].
Qed.

(** A slot [allocproc] has just filled in. *)
Record new_proc (x y : proc) (pid : Z) : Prop := {
  np_pid : p_pid y = pid;
  np_state : p_state y = USED;
  np_trapframe : p_trapframe y <> 0;
  np_pagetable : p_pagetable y <> 0;
  np_context : p_context y = MkContext "forkret" (p_kstack x + PGSIZE) (repeat 0 12);
  np_killed : p_killed y = p_killed x;
}.

Lemma give_up_step p x y s s' r s'' :
  slot_step p x y s s' ->
  (freeproc p;; release (proc_lock p);; ret (@None nat))%K s' = Ret r s'' ->
  r = None /\ slot_step p x (freed_proc y) s s''.
Proof.
  intros HS H. inv_ret H. apply freeproc_step in E as (y' & HS').
  inv_ret H. apply release_Ret in E as ->. inv_ret H. split; [done|].
  eapply slot_step_mach; [|by eexists]. eapply slot_step_trans; [exact HS|].
  apply slot_step_lookup in HS. destruct HS' as [? ?]. by simplify_eq.
Qed.

Lemma allocproc_found_step p x s r s' :
  procs s !! p = Some x -> allocproc_found p s = Ret r s' ->
  exists y, slot_step p x y (set_nextpid (i32 (nextpid s + 1)) s) s' /\
    (r = Some p /\ new_proc x y (nextpid s) \/
     r = None /\ p_pid y = 0 /\ p_state y = UNUSED).
Proof.
  intros Hx H. unfold allocproc_found in H. inv_ret H. apply allocpid_Ret in E as [-> ->].
  pose proof (slot_step_refl p x (set_nextpid (i32 (nextpid s + 1)) s) Hx) as HS.
  do 2 step_upd H HS. inv_ret H.
  eapply slot_step_mach in HS; [|by eapply vm_Ret]. clear E. step_upd H HS.
  case_match eqn:Htf; bdestr.
  { apply (give_up_step _ _ _ _ _ _ _ HS) in H as [-> HS']. eexists. split; [exact HS'|]. by right. }
  inv_ret H. eapply slot_step_mach in HS; [|by eapply proc_pagetable_mach]. clear E. step_upd H HS.
  case_match eqn:Hpt; bdestr.
  { apply (give_up_step _ _ _ _ _ _ _ HS) in H as [-> HS']. eexists. split; [exact HS'|]. by right. }
  step_upd H HS. inv_ret H. eexists. split; [exact HS|]. left. split; [done|]. by split.
Qed.

Lemma allocproc_eq i s :
  ptab_ok s -> no_plock s -> first_slot (fun x => p_state x = UNUSED) (procs s) i ->
  allocproc s = allocproc_found i (set_held (proc_lock i :: held s) s).
Proof.
  intros Hok Hl Hf. pose proof Hf as [(x & Hx & Hst) _]. unfold allocproc. unfold bind at 1.
  erewrite scan_found; [|done|exact Hf| |]; [reflexivity| |].
  - intros j y Hy Hne. apply (slot_skip j s y); [apply Hl|done|]. by rewrite decide_False.
  - unfold bind. rewrite acquire_eq by apply Hl. cbn [bindr].
    erewrite proc_at_eq by exact Hx. cbn [bindr]. by rewrite decide_True.
Qed.

Lemma allocproc_full s :
  ptab_ok s -> no_plock s -> (forall i x, procs s !! i = Some x -> p_state x <> UNUSED) ->
  allocproc s = Ret None s.
Proof.
  intros Hok Hl Hno. unfold allocproc. unfold bind at 1. rewrite scan_none; [done..|].
  intros j y Hy. apply (slot_skip j s y); [apply Hl|done|]. rewrite decide_False; [done|eauto].
Qed.

Lemma first_slot_dec (P : proc -> Prop) `{!forall x, Decision (P x)} (ps : list proc) :
  (exists i, first_slot P ps i) \/ forall i x, ps !! i = Some x -> ~ P x.
Proof.
  induction ps as [|x ps IH]; [by right|]. destruct (decide (P x)) as [HP|HP].
  { left. exists 0%nat. split; [by exists x|]. lia. }
  destruct IH as [(i & Hi & Hb)|Hno].
  - left. exists (S i). split; [done|]. intros [|j] y Hj Hy; [by simplify_eq/=|].
    apply (Hb j); [lia|done].
  - right. intros [|i] y Hy; [by simplify_eq/=|]. by apply (Hno i).
Qed.

(** Process ids: a slot has one iff it is in use, they have been handed out
    already, and no two slots share one. *)
Record pids_ok (s : kstate) : Prop := {
  pids_used : forall i x, procs s !! i = Some x -> (p_pid x = 0 <-> p_state x = UNUSED);
  pids_old : forall i x, procs s !! i = Some x -> p_pid x <> 0 -> 0 < p_pid x < nextpid s;
  pids_unique : forall i j x y, procs s !! i = Some x -> procs s !! j = Some y ->
    p_pid x <> 0 -> p_pid x = p_pid y -> i = j;
}.

(** A slot that was free gets the next pid, or stays free. *)
Lemma pids_ok_step p x y s s' :
  pids_ok s -> 0 < nextpid s < 2 ^ 31 - 1 -> p_state x = UNUSED ->
  slot_step p x y (set_nextpid (i32 (nextpid s + 1)) s) s' ->
  (p_pid y = nextpid s /\ p_state y = USED \/ p_pid y = 0 /\ p_state y = UNUSED) ->
  pids_ok s'.
Proof.
  intros [H1 H2 H3] Hn Hst (Hx & t & ->) Hy. rewrite i32_small by lia. simpl in Hx.
  pose proof (lookup_lt_Some _ _ _ Hx) as Hlt.
  split; simpl.
  - intros i z [(<- & <- & _)|[Hne Hz]]%list_lookup_insert_Some; [|eauto].
    destruct Hy as [[-> ->]|[-> ->]]; split; (done || lia).
  - intros i z [(<- & <- & _)|[Hne Hz]]%list_lookup_insert_Some.
    + destruct Hy as [[-> _]|[-> _]]; lia.
    + intros Hz0. pose proof (H2 i z Hz Hz0). lia.
  - intros i j z w Hz Hw Hz0 E.
    apply list_lookup_insert_Some in Hz as [(<- & <- & _)|[Hne Hz]];
    apply list_lookup_insert_Some in Hw as [(<- & <- & _)|[Hne' Hw]]; try done.
    + destruct Hy as [[Hy _]|[Hy _]]; [|congruence]. rewrite Hy in E.
      pose proof (H2 j w Hw ltac:(lia)). lia.
    + destruct Hy as [[Hy _]|[Hy _]]; [|congruence]. rewrite Hy in E.
      pose proof (H2 i z Hz ltac:(lia)). lia.
    + eauto.
Qed.

Lemma ptab_ok_step p x y s s' : ptab_ok s -> slot_step p x y s s' -> ptab_ok s'.
Proof. intros Hok (_ & t & ->). unfold ptab_ok. simpl. by rewrite length_insert. Qed.

(** C40: [kill 0] does not fail when there is a free slot.  Free slots have pid
    0, so the call marks the first of them as killed, and [allocproc], which
    takes that slot and does not clear the mark, then hands out a process that
    has been killed before it ran. *)
Theorem kill_zero_marks_next_process s i :
  ptab_ok s -> no_plock s -> pids_ok s -> first_slot (fun x => p_state x = UNUSED) (procs s) i ->
  exists s1, kill 0 s = Ret 0 s1 /\
    forall p s2, allocproc s1 = Ret (Some p) s2 ->
      p = i /\ exists y, procs s2 !! i = Some y /\ p_state y = USED /\ p_killed y = 1.
Proof.
  intros Hok Hl Hp Hf. pose proof Hf as [(x & Hx & Hst) Hb].
  assert (first_slot (fun x => p_pid x = 0) (procs s) i) as Hf0.
  { split; [exists x; split; [done|by eapply pids_used]|].
    intros j y Hj Hy Hy0. apply (Hb j y Hj Hy). by eapply pids_used. }
  eexists. split; [by apply (kill_found 0 s i x)|].
  assert (p_state (killed_proc x) = UNUSED) as Hst'.
  { unfold killed_proc. by rewrite decide_False by (rewrite Hst; done). }
  pose proof (lookup_lt_Some _ _ _ Hx) as Hlt.
  intros p s2 H. rewrite (allocproc_eq i) in H; [| |done|].
  - eapply allocproc_found_step in H as (y & HS & [([= ->] & Hnew)|(? & ?)]);
      [|done|by apply list_lookup_insert_eq].
    split; [done|]. exists y. split; [by eapply slot_step_lookup|].
    destruct Hnew as [_ ? _ _ _ Hk]. split; [done|]. rewrite Hk. unfold killed_proc.
    by rewrite decide_False by (rewrite Hst; done).
  - unfold ptab_ok. simpl. by rewrite length_insert.
  - split; [eexists; split; [by apply list_lookup_insert_eq|done]|].
    intros j y Hj. simpl. rewrite list_lookup_insert_ne by lia. by apply Hb.
Qed.

(** All slots free, four free pages. *)
Definition demo_boot : kstate :=
  zero_kstate (Machine
    (st64 (st64 (st64 ∅ 0x87ffc000 0x87ffd000) 0x87ffd000 0x87ffe000) 0x87ffe000 0x87fff000)
    0x87ffc000 0 [] 0x80026000 0x80008000 0x80007000).

Lemma demo_boot_slots i x : procs demo_boot !! i = Some x -> x = zero_proc.
Proof. apply lookup_repeat_inv. Qed.

Lemma demo_boot_ok :
  ptab_ok demo_boot /\ no_plock demo_boot /\ pids_ok demo_boot /\
  first_slot (fun x => p_state x = UNUSED) (procs demo_boot) 0.
Proof.
  split; [by vm_compute|]. split; [intros i; apply not_elem_of_nil|]. split.
  - split; [by intros i x ->%demo_boot_slots|by intros i x ->%demo_boot_slots|].
    by intros i j x y ->%demo_boot_slots _.
  - split; [by exists zero_proc|]. lia.
Qed.

Definition returns_slot (p : nat) (r : res kstate (option nat)) : bool :=
  match r with Ret (Some q) _ => (p =? q)%nat | _ => false end.

Lemma returns_slot_Ret p r : returns_slot p r = true -> exists s', r = Ret (Some p) s'.
Proof. destruct r as [[q|] s'| | |]; simpl; try discriminate. intros <-%Nat.eqb_eq. eauto. Qed.

Lemma kill_zero_marks_next_process_witness : exists s1 s2 y,
  kill 0 demo_boot = Ret 0 s1 /\ allocproc s1 = Ret (Some 0%nat) s2 /\
  procs s2 !! 0%nat = Some y /\ p_killed y = 1.
Proof.
  destruct demo_boot_ok as (H1 & H2 & H3 & H4).
  destruct (kill_zero_marks_next_process demo_boot 0 H1 H2 H3 H4) as (s1 & Hk & Ha).
  destruct (returns_slot_Ret 0 (bindr (kill 0 demo_boot) (fun _ => allocproc))) as (s2 & E);
    [vm_compute; reflexivity|].
  rewrite Hk in E. destruct (Ha _ _ E) as (_ & y & Hy & _ & Hk1).
  exists s1, s2, y. split; [exact Hk|]. split; [exact E|]. split; [exact Hy|exact Hk1].
Defined.
