(* ===== verification/ProcMem.v ===== *)
(** * The memory of processes

    What [proc_pagetable], [proc_freepagetable], [allocproc] and [freeproc] do to
    the pages of the machine: every page a process gets comes from the
    allocator, and every one of them goes back. *)

From S2P Require Import Prelude Mem Riscv Str Locks Kalloc Vm VmWalk VmMap VmCopy VmUvm VmFree Kstate UserMem Proc ProcSpec ProcAlloc.
Import Kalloc Vm Proc.
#[local] Opaque Str.memset.

(** ** Accounts *)

Lemma tables_exist e m root T : pt_rep e m root T -> exists l, tables T l.
Proof.
  intros Hr. exists (map_to_list T).*2. split.
  - apply NoDup_fmap_2_strong; [|apply NoDup_map_to_list]. intros [x p] [y q] Hx%elem_of_map_to_list Hy%elem_of_map_to_list. cbn. intros <-.
    f_equal. by eapply (rep_inj _ _ _ _ Hr).
  - intros q. rewrite list_elem_of_fmap. split.
    + intros ([x p] & -> & Hx%elem_of_map_to_list). by exists x.
    + intros (x & Hx%elem_of_map_to_list). by exists (x, q).
Qed.

(** The pages [all] are the pages [us], the tables of [T] and the free pages [ps],
    each once. *)
Definition accounts (T : ptree) (us ps all : list Z) : Prop := exists l, tables T l /\ us ++ l ++ ps ≡ₚ all.

Lemma accounts_elem T us ps all p : accounts T us ps all -> p ∈ us \/ (exists x, T !! x = Some p) \/ p ∈ ps -> p ∈ all.
Proof. intros (l & [_ Hl] & <-). rewrite !elem_of_app, Hl. tauto. Qed.

Lemma accounts_frame s s' root T ps T' ps' all : vm_inv s root T ps -> vm_inv s' root T' ps' -> vm_frame s T ps s' T' ps' ->
  accounts T [] ps all -> accounts T' [] ps' all.
Proof.
  intros Hi Hi' [HT Hps Hnew Hacc _ _] (l & [Hnd Hl] & Hall). cbn [app] in *.
  destruct (tables_exist _ _ _ _ (vm_rep _ _ _ _ Hi')) as (l' & Hnd' & Hl'). exists l'. split; [done|]. rewrite <- Hall. cbn [app].
  assert (forall s root T ps l, vm_inv s root T ps -> NoDup l -> (forall q, q ∈ l <-> exists x, T !! x = Some q) -> NoDup (l ++ ps)) as Hn.
  { clear. intros s root T ps l [Hk _ _ Hsep] Hl Hin. apply NoDup_app. split; [done|]. split; [|apply (inv_nodup _ _ Hk)].
    intros q (x & Hx)%Hin. by eapply Hsep. }
  apply NoDup_Permutation; [by eapply (Hn s')|by eapply (Hn s)|]. intros q. rewrite !elem_of_app, Hl, Hl'. split.
  - intros [(x & Hx)|Hq]; [|right; by eapply elem_of_suffix]. destruct (T !! x) as [q'|] eqn:E.
    + left. exists x. by rewrite (lookup_weaken _ _ _ _ E HT) in Hx; simplify_eq.
    + right. by eapply Hnew.
  - intros [(x & Hx)|Hq]; [left; exists x; by eapply lookup_weaken|]. destruct (Hacc q Hq); [by right|by left].
Qed.

(** ** proc_pagetable *)

(** The page table [T] of a process maps its pages [us] from address 0 on, the
    trampoline and the trap frame [tf], and nothing else. *)
Record proc_space (s : machine) (tf : Z) (T : ptree) (us : list Z) : Prop := {
  sp_max : Z.of_nat (length us) * PGSIZE <= TRAPFRAME;
  sp_leaf i p : us !! i = Some p -> leaf_at (ram s) T (Z.of_nat i * PGSIZE) p;
  sp_tramp : pte_of (ram s) T TRAMPOLINE = Z.lor (Z.lor (PA2PTE (trampoline s)) (Z.lor PTE_R PTE_X)) PTE_V;
  sp_frame : pte_of (ram s) T TRAPFRAME = Z.lor (Z.lor (PA2PTE tf) (Z.lor PTE_R PTE_W)) PTE_V;
  sp_rest va : Z.of_nat (length us) * PGSIZE <= va < TRAPFRAME -> pte_of (ram s) T va = 0;
}.

Lemma TRAPFRAME_eq : TRAPFRAME = 2 ^ 38 - 2 * PGSIZE /\ TRAMPOLINE = 2 ^ 38 - PGSIZE /\ MAXVA = 2 ^ 38.
Proof. by vm_compute. Qed.

(** Outside the pages [ps], memory is the same. *)
Definition keeps (ps : list Z) (s s' : machine) : Prop := same_const s s' /\
  forall a, ~ in_pages ps a -> ld8 (ram s') a = ld8 (ram s) a.

Lemma keeps_refl ps s : keeps ps s s.
Proof. done. Qed.

Lemma keeps_trans ps s1 s2 s3 : keeps ps s1 s2 -> keeps ps s2 s3 -> keeps ps s1 s3.
Proof. intros [C1 H1] [C2 H2]. split; [by eapply same_const_trans|]. intros a Ha. by rewrite H2, H1. Qed.

Lemma keeps_sub ps ps' s s' : keeps ps s s' -> (forall p, p ∈ ps -> p ∈ ps') -> keeps ps' s s'.
Proof. intros [C H] Hs. split; [done|]. intros a Ha. apply H. intros (q & Hq & Hqa). apply Ha. exists q. auto. Qed.

Lemma frame_keeps s T ps s' T' ps' all : vm_frame s T ps s' T' ps' -> accounts T [] ps all -> keeps all s s'.
Proof.
  intros [_ _ _ _ Ho (C1 & C2 & C3 & C4 & C5)] Hac. split; [done|]. intros a Ha. apply Ho.
  - intros x p Hx Hp. apply Ha. exists p. split; [|done]. apply (accounts_elem _ _ _ _ _ Hac). eauto.
  - intros p Hx Hp. apply Ha. exists p. split; [|done]. apply (accounts_elem _ _ _ _ _ Hac). auto.
Qed.

Lemma uvmcreate_spec s ps : kmem_inv s ps -> kmem_lock ∉ mlocks s ->
  match ps with
  | [] => uvmcreate s = Ret 0 s
  | r :: ps' => exists s', uvmcreate s = Ret r s' /\ r <> 0 /\ vm_inv s' r {[ [] := r ]} ps' /\ keeps ps s s' /\
      accounts {[ [] := r ]} [] ps' ps /\ forall va, pte_of (ram s') {[ [] := r ]} va = 0
  end.
Proof.
  intros Hk Hl. pose proof (kalloc_spec s ps Hk Hl) as Ha. unfold uvmcreate. destruct ps as [|r ps].
  - by erewrite bind_Ret by exact Ha.
  - destruct Ha as [Ea Hk1]. destruct (head_nonzero _ _ _ Hk) as [_ Hr0]. pose proof (inv_pages _ _ Hk) as [Hrok Hok]%Forall_cons.
    pose proof (inv_nodup _ _ Hk) as [Hnr _]%NoDup_cons.
    set (s1 := set_ram (Str.memset (ram (alloc_state r s)) r 0 PGSIZE) (alloc_state r s)). exists s1.
    assert (forall a, ~ in_page r a -> ld8 (ram s1) a = ld8 (ram s) a) as Hout.
    { intros a Hna. cbn [s1 ram set_ram]. rewrite Str.ld8_memset_out by (unfold in_page in Hna; lia). by apply alloc_state_out. }
    split; [|split; [done|split; [|split; [|split]]]].
    + erewrite bind_Ret by exact Ea. by rewrite (proj2 (Z.eqb_neq _ _) Hr0).
    + split; [|done|apply empty_table_rep; [done|]|].
      * eapply (kmem_inv_ext (alloc_state r s)); [done..|]. intros q a Hq Hqa. cbn [s1 ram set_ram]. rewrite Str.ld8_memset_out; [done|].
        rewrite Forall_forall in Hok. pose proof (page_disjoint _ _ _ (Hok q Hq) Hrok ltac:(congruence)). unfold in_page in Hqa. lia.
      * intros a Hra. cbn [s1 ram set_ram]. by rewrite Str.ld8_memset_in.
      * by intros x p [_ <-]%lookup_singleton_Some.
    + split; [done|]. intros a Hna. apply Hout. intros Hin. apply Hna. exists r. split; [left|done].
    + exists [r]. split; [|done]. split; [apply NoDup_singleton|]. intros q. rewrite list_elem_of_singleton. split.
      * intros ->. exists []. apply lookup_singleton_eq.
      * by intros (x & [_ <-]%lookup_singleton_Some).
    + intros va. unfold pte_of. by rewrite lookup_singleton_ne.
Qed.

Lemma tables_perm T l l' : tables T l -> tables T l' -> l ≡ₚ l'.
Proof. intros [Hn H] [Hn' H']. apply NoDup_Permutation; [done..|]. intros q. by rewrite H, H'. Qed.

(** Freeing an address space gives back all of its pages. *)
Lemma uvmfree_all s root T us ps all sz : vm_inv s root T ps -> accounts T us ps all -> private (kend s) T ps us ->
  0 <= sz -> sz <= Z.of_nat (length us) * PGSIZE < sz + PGSIZE -> Z.of_nat (length us) * PGSIZE <= MAXVA ->
  (forall i p, us !! i = Some p -> leaf_at (ram s) T (Z.of_nat i * PGSIZE) p) ->
  (forall va, Z.of_nat (length us) * PGSIZE <= va < MAXVA -> Z.land (pte_of (ram s) T va) PTE_V = 0) ->
  exists s' ps', uvmfree root sz s = Ret tt s' /\ kmem_inv s' ps' /\ ps' ≡ₚ all /\ keeps all s s'.
Proof.
  intros Hinv (l' & Hl' & Hall) Hpr Hsz Hlen Hmax Hleaf Hrest.
  destruct (uvmfree_spec root sz us s T ps Hinv Hsz Hlen Hmax Hleaf Hpr Hrest) as (l & Hl & s' & ps' & E & Hk & Hps & Hc & Hm).
  exists s', ps'. split; [done|]. split; [done|]. split.
  - rewrite Hps, <- Hall, (tables_perm T l l' Hl Hl'). solve_Permutation.
  - split; [done|]. intros a Ha. apply Hm. intros (q & Hq & Hqa). apply Ha. exists q. split; [|done]. rewrite <- Hall.
    apply elem_of_app in Hq as [Hq|Hq]; apply elem_of_app; [by left|right]. apply elem_of_app. left. by apply Hl', Hl.
Qed.

(** A table that maps nothing. *)
Lemma uvmfree_tables s root T ps all : vm_inv s root T ps -> accounts T [] ps all -> unmapped (ram s) T ->
  exists s' ps', uvmfree root 0 s = Ret tt s' /\ kmem_inv s' ps' /\ ps' ≡ₚ all /\ keeps all s s'.
Proof.
  intros Hinv Hac Hun. apply (uvmfree_all s root T [] ps all 0); try done. apply private_nil.
Qed.

Lemma perm_flags : 0 <= Z.lor PTE_R PTE_X < 1024 /\ 0 <= Z.lor PTE_R PTE_W < 1024.
Proof. by vm_compute. Qed.

(** A leaf that [mappages] has written. *)
Lemma mapped_leaf m T va p perm : 0 <= p < PHYSTOP -> p mod PGSIZE = 0 -> 0 <= perm < 1024 -> Z.lor perm PTE_V <> PTE_V ->
  pte_of m T va = Z.lor (Z.lor (PA2PTE p) perm) PTE_V -> leaf_at m T va p.
Proof.
  intros Hp Hal Hperm Hne E. unfold leaf_at. rewrite E, <- Z.lor_assoc. unfold PHYSTOP, KERNBASE in Hp.
  assert (0 <= Z.lor perm PTE_V < 1024) as Hf.
  { split; [apply Z.lor_nonneg; split; [lia|by vm_compute]|]. apply (Z.log2_lt_cancel _ 1024).
    rewrite Z.log2_lor by (first [lia|by vm_compute]). change (Z.log2 PTE_V) with 0. change (Z.log2 1024) with 10.
    pose proof (Z.log2_nonneg perm). assert (Z.log2 perm < 10); [|lia].
    destruct (decide (perm = 0)) as [->|]; [done|]. apply Z.log2_lt_pow2; lia. }
  rewrite (land_flags _ PTE_V) by apply PTE_V_range. rewrite PTE_FLAGS_lor, PTE2PA_lor by (done || lia).
  by rewrite lor_V_land.
Qed.

Definition page_in (p : Z) : Prop := 0 <= p < PHYSTOP /\ p mod PGSIZE = 0.

(** What [proc_pagetable] leaves of the machine [s], whose free pages were [ps]. *)
Definition new_table (s : machine) (tf : Z) (ps : list Z) (r : Z) (s' : machine) : Prop := keeps ps s s' /\
  (r = 0 /\ (length ps <= 5)%nat /\ (exists ps', kmem_inv s' ps' /\ ps' ≡ₚ ps) \/
   r <> 0 /\ exists T ps', (length ps <= length ps' + 5)%nat /\ vm_inv s' r T ps' /\ accounts T [] ps' ps /\ proc_space s' tf T []).

(** Its error exit. *)
Lemma pagetable_give_up s m m1 root T ps all tf : mach s = m1 -> vm_inv m1 root T ps -> accounts T [] ps all ->
  unmapped (ram m1) T -> keeps all m m1 -> (length all <= 5)%nat ->
  exists m', (vm (uvmfree root 0);; ret 0)%K s = Ret 0 (set_mach m' s) /\ new_table m tf all 0 m'.
Proof.
  intros <- Hi Ha Hun Hk Hlen. destruct (uvmfree_tables _ _ _ _ _ Hi Ha Hun) as (m' & ps' & E & Hk' & Hps & Hkp). exists m'.
  erewrite bind_Ret by (apply vm_ret; exact E). split; [done|]. split; [by eapply keeps_trans|]. left. eauto.
Qed.

Lemma below_frame va : 0 <= va < TRAPFRAME -> PGROUNDDOWN va <> TRAMPOLINE /\ PGROUNDDOWN va <> TRAPFRAME.
Proof.
  intros Hv. destruct TRAPFRAME_eq as (ETF & ETR & _). destruct (PGROUNDDOWN_bounds va ltac:(lia)) as (H1 & _). unfold PGSIZE in *. lia.
Qed.

Lemma proc_pagetable_spec p y s ps : procs s !! p = Some y -> kmem_inv (mach s) ps -> kmem_lock ∉ mlocks (mach s) ->
  page_in (p_trapframe y) -> page_in (trampoline (mach s)) ->
  exists r m, proc_pagetable p s = Ret r (set_mach m s) /\ new_table (mach s) (p_trapframe y) ps r m.
Proof.
  intros Hy Hk Hl [Htf Htfa] [Htr Htra]. unfold proc_pagetable. erewrite bind_Ret by by apply proc_at_eq.
  pose proof (uvmcreate_spec _ _ Hk Hl) as Hc. destruct TRAPFRAME_eq as (ETF & ETR & EM). destruct perm_flags as [HRX HRW].
  destruct ps as [|r ps].
  { erewrite bind_Ret by (apply vm_ret; exact Hc). exists 0, (mach s). split; [by rewrite set_mach_id|]. split; [apply keeps_refl|]. left.
    split; [done|]. split; [simpl; lia|]. eauto. }
  destruct Hc as (m1 & E1 & Hr0 & Hi1 & Hk1 & Ha1 & Hp1).
  erewrite bind_Ret by (apply vm_ret; exact E1). rewrite (proj2 (Z.eqb_neq _ _) Hr0). erewrite bind_Ret by reflexivity.
  cbn [mach set_mach]. assert (trampoline m1 = trampoline (mach s)) as Etr by apply Hk1. rewrite Etr.
  destruct (mappages_page r TRAMPOLINE (trampoline (mach s)) (Z.lor PTE_R PTE_X) m1 _ ps Hi1) as (r2 & m2 & T2 & ps2 & E2 & Hi2 & Hf2 & Hl2 & Hr2);
    [unfold PGSIZE in *; lia|done|done|done|by rewrite Hp1|].
  pose proof (accounts_frame _ _ _ _ _ _ _ _ Hi1 Hi2 Hf2 Ha1) as Ha2.
  pose proof (keeps_trans _ _ _ _ Hk1 (frame_keeps _ _ _ _ _ _ _ Hf2 Ha1)) as Hk2.
  erewrite bind_Ret by (apply vm_ret; exact E2). destruct Hr2 as [[-> Hp2]|(-> & -> & Hp2)].
  2:{ destruct (pagetable_give_up (set_mach m2 s) (mach s) m2 r T2 [] _ (p_trapframe y) eq_refl Hi2 Ha2) as (m' & E & Hn); [|done|simpl in *; lia|].
      { intros va Hv. by rewrite Hp2, Hp1. }
      exists 0, m'. split; [exact E|done]. }
  change (0 <? 0) with false. cbn match.
  destruct (mappages_page r TRAPFRAME (p_trapframe y) (Z.lor PTE_R PTE_W) m2 T2 ps2 Hi2) as (r3 & m3 & T3 & ps3 & E3 & Hi3 & Hf3 & Hl3 & Hr3);
    [unfold PGSIZE in *; lia|done|done|done| |].
  { rewrite Hp2, decide_False, Hp1 by done. done. }
  pose proof (accounts_frame _ _ _ _ _ _ _ _ Hi2 Hi3 Hf3 Ha2) as Ha3.
  pose proof (keeps_trans _ _ _ _ Hk2 (frame_keeps _ _ _ _ _ _ _ Hf3 Ha2)) as Hk3.
  erewrite bind_Ret by (apply vm_ret; exact E3). destruct Hr3 as [[-> Hp3]|(-> & -> & Hp3)].
  - exists r, m3. split; [done|]. split; [done|]. right. split; [done|]. exists T3, ps3. split; [simpl in *; lia|]. split; [done|]. split; [done|]. split; [done|done|..].
    + rewrite Hp3, decide_False, Hp2, decide_True by done. do 3 f_equal. symmetry. apply Hk3.
    + by rewrite Hp3, decide_True.
    + intros va Hv. cbn in Hv. destruct (below_frame va ltac:(lia)) as [? ?].
      by rewrite Hp3, decide_False, Hp2, decide_False, Hp1 by (done || unfold PGSIZE in *; lia).
  - assert (pte_of (ram m3) T3 TRAMPOLINE = Z.lor (Z.lor (PA2PTE (trampoline (mach s))) (Z.lor PTE_R PTE_X)) PTE_V) as Ept.
    { by rewrite Hp3, Hp2, decide_True. }
    destruct (uvmunmap_one r TRAMPOLINE (trampoline (mach s)) m3 T3 [] Hi3) as (m4 & E4 & Hi4 & Hc4 & Hp4 & Ho4);
      [unfold PGSIZE in *; lia|done|unfold PGSIZE in *; lia|by eapply mapped_leaf; [..|exact Ept]|].
    change (-1 <? 0) with true. cbn match. erewrite bind_Ret by (apply vm_ret; exact E4). cbn [mach set_mach].
    destruct (pagetable_give_up (set_mach m4 s) (mach s) m4 r T3 [] _ (p_trapframe y) eq_refl Hi4 Ha3) as (m' & E & Hn).
    + intros va Hv. rewrite Hp4 by done. case_decide; [done|]. by rewrite Hp3, Hp2, decide_False, Hp1.
    + eapply keeps_trans; [exact Hk3|]. split; [done|]. intros a Ha. apply Ho4. intros x q Hx Hq. apply Ha. exists q. split; [|done].
      apply (accounts_elem _ _ _ _ _ Ha3). eauto.
    + simpl in *. lia.
    + exists 0, m'. split; [exact E|done].
Qed.

Section space.
Context (s : kstate) (root tf : Z) (T : ptree) (us ps all : list Z).
Hypothesis Htr : page_in (trampoline (mach s)).
Hypothesis Htf : page_in tf.
Hypothesis Hsp : proc_space (mach s) tf T us.

Lemma proc_freepagetable_spec sz : vm_inv (mach s) root T ps -> accounts T us ps all -> private (kend (mach s)) T ps us ->
  0 <= sz -> sz <= Z.of_nat (length us) * PGSIZE < sz + PGSIZE ->
  exists m ps', proc_freepagetable root sz s = Ret tt (set_mach m s) /\ kmem_inv m ps' /\ ps' ≡ₚ all /\ keeps all (mach s) m.
Proof using Htr Htf Hsp.
  intros Hi Hac Hpr Hsz Hlen. destruct Hsp as [Smax Slf Str Sfr Sre], Htr as [Htr1 Htr2], Htf as [Htf1 Htf2].
  destruct TRAPFRAME_eq as (ETF & ETR & EM). unfold proc_freepagetable.
  destruct (uvmunmap_one root TRAMPOLINE (trampoline (mach s)) (mach s) T ps Hi) as (m1 & E1 & Hi1 & Hc1 & Hp1 & Ho1);
    [unfold PGSIZE in *; lia|done|unfold PGSIZE in *; lia|by eapply mapped_leaf; [..|exact Str]|].
  assert (pte_of (ram m1) T TRAPFRAME = Z.lor (Z.lor (PA2PTE tf) (Z.lor PTE_R PTE_W)) PTE_V) as Ept.
  { by rewrite Hp1, decide_False. }
  destruct (uvmunmap_one root TRAPFRAME tf m1 T ps Hi1) as (m2 & E2 & Hi2 & Hc2 & Hp2 & Ho2);
    [unfold PGSIZE in *; lia|done|unfold PGSIZE in *; lia|by eapply mapped_leaf; [..|exact Ept]|].
  assert (forall va, 0 <= va < TRAPFRAME -> pte_of (ram m2) T va = pte_of (ram (mach s)) T va) as Hsame.
  { intros va Hv. destruct (below_frame va Hv) as [? ?]. by rewrite Hp2, decide_False, Hp1, decide_False by (done || unfold PGSIZE in *; lia). }
  pose proof (same_const_trans _ _ _ Hc1 Hc2) as Hc.
  assert (keeps all (mach s) m2) as Hk.
  { split; [done|]. intros a Ha. assert (forall x q, T !! x = Some q -> ~ in_page q a) as Hn.
    { intros x q Hx Hq. apply Ha. exists q. split; [|done]. apply (accounts_elem _ _ _ _ _ Hac). eauto. }
    by rewrite Ho2, Ho1. }
  destruct (uvmfree_all m2 root T us ps all sz Hi2 Hac) as (m3 & ps' & E3 & Hk3 & Hps & Hkp); try done.
  - destruct Hc as (-> & _). done.
  - unfold PGSIZE in *; lia.
  - intros i p Hi'. pose proof (lookup_lt_Some _ _ _ Hi'). unfold leaf_at. rewrite Hsame by (unfold PGSIZE in *; lia). by apply Slf.
  - intros va Hv. destruct (decide (va < TRAPFRAME)) as [Hlt|Hge]; [rewrite Hsame, Sre by (unfold PGSIZE in *; lia); done|].
    rewrite Hp2 by (unfold PGSIZE in *; lia). case_decide as E; [done|]. rewrite Hp1 by (unfold PGSIZE in *; lia).
    rewrite decide_True; [done|]. apply page_of_iff; [lia|done|]. destruct (decide (va < TRAMPOLINE)); [|unfold PGSIZE in *; lia].
    destruct E. apply page_of_iff; [lia|done|unfold PGSIZE in *; lia].
  - exists m3, ps'. split; [|split; [done|split; [done|by eapply keeps_trans]]].
    erewrite bind_Ret by (apply vm_ret; exact E1). erewrite bind_Ret by (apply vm_ret; exact E2). exact (vm_ret _ _ _ (set_mach m2 s) E3).
Qed.
End space.

(** ** freeproc *)

(** The state with [z] in slot [p]. *)
Definition slot (p : nat) (z : proc) (s : kstate) : kstate := set_procs (<[p := z]> (procs s)) s.

Section slot.
Context (p : nat) (s : kstate) (Hp : (p < length (procs s))%nat).

Lemma proc_at_slot z m : proc_at p (slot p z (set_mach m s)) = Ret z (slot p z (set_mach m s)).
Proof using Hp. apply proc_at_eq. by apply list_lookup_insert_eq. Qed.

Lemma proc_upd_slot z m f : proc_upd p f (slot p z (set_mach m s)) = Ret tt (slot p (f z) (set_mach m s)).
Proof using Hp.
  unfold proc_upd. change (procs (slot p z (set_mach m s))) with (<[p := z]> (procs s)).
  rewrite list_lookup_insert_eq by done. unfold slot. cbn [procs set_mach set_procs]. by rewrite list_insert_insert_eq.
Qed.

Lemma vm_slot {A} (op : M machine A) z m a m' : op m = Ret a m' -> vm op (slot p z (set_mach m s)) = Ret a (slot p z (set_mach m' s)).
Proof using. intros E. exact (vm_ret op a m' (slot p z (set_mach m s)) E). Qed.
End slot.

(** A process with the page table [T] at [pt], the trap frame [tf] and the pages
    [us]: with the free pages [fr] these are [all], each once. *)
Record own_pages (pt tf : Z) (all : list Z) (m : machine) (T : ptree) (us fr : list Z) : Prop := {
  op_inv : vm_inv m pt T fr;
  op_acc : accounts T (tf :: us) fr all;
  op_private : private (kend m) T fr (tf :: us);
  op_space : proc_space m tf T us;
}.

(** The pages of the process [y], which may be only partly set up: with the free
    pages [ps] they are [all]. *)
Inductive proc_mem (m : machine) (y : proc) (ps all : list Z) : Prop :=
  | pm_none : p_trapframe y = 0 -> p_pagetable y = 0 -> kmem_inv m ps -> ps ≡ₚ all -> proc_mem m y ps all
  | pm_frame : p_trapframe y <> 0 -> p_pagetable y = 0 -> kmem_inv m ps -> page_ok (kend m) (p_trapframe y) ->
      p_trapframe y ∉ ps -> p_trapframe y :: ps ≡ₚ all -> proc_mem m y ps all
  | pm_space T us : p_trapframe y <> 0 -> p_pagetable y <> 0 -> vm_inv m (p_pagetable y) T ps ->
      proc_space m (p_trapframe y) T us -> private (kend m) T ps (p_trapframe y :: us) ->
      accounts T (p_trapframe y :: us) ps all ->
      0 <= p_sz y -> p_sz y <= Z.of_nat (length us) * PGSIZE < p_sz y + PGSIZE -> proc_mem m y ps all.

(** The trap frame is returned first. *)
Lemma free_frame m y ps all : proc_mem m y ps all -> kmem_lock ∉ mlocks m -> page_in (trampoline m) ->
  exists m', (if negb (p_trapframe y =? 0) then kfree (p_trapframe y) else ret tt) m = Ret tt m' /\ keeps all m m' /\
    (p_pagetable y = 0 /\ (exists ps', kmem_inv m' ps' /\ ps' ≡ₚ all) \/
     p_pagetable y <> 0 /\ exists T us ps', vm_inv m' (p_pagetable y) T ps' /\ page_in (p_trapframe y) /\
       proc_space m' (p_trapframe y) T us /\ private (kend m') T ps' us /\ accounts T us ps' all /\
       0 <= p_sz y /\ p_sz y <= Z.of_nat (length us) * PGSIZE < p_sz y + PGSIZE).
Proof.
  intros H Hl Htr. assert (forall tf ps, page_ok (kend m) tf -> kmem_inv m ps -> tf ∈ all -> keeps all m (free_state tf m)) as Hkeep.
  { intros tf ps' Hok Hk Hin. split; [done|]. intros a Ha. apply free_state_out. intros Hq. apply Ha. by exists tf. }
  destruct H as [E1 E2 Hk Hps|E1 E2 Hk Hok Hn Hps|T us E1 E2 Hi Hsp Hpr Hac Hsz Hlen].
  - rewrite E1. exists m. split; [done|]. split; [apply keeps_refl|]. left. eauto.
  - rewrite (proj2 (Z.eqb_neq _ _) E1). cbn [negb]. eexists. split; [apply kfree_eq; [done|done|by eapply inv_end]|]. split.
    + eapply Hkeep; [done..|]. rewrite <- Hps. left.
    + left. split; [done|]. eexists. split; [by apply free_inv|done].
  - rewrite (proj2 (Z.eqb_neq _ _) E1). cbn [negb]. apply private_cons in Hpr as [[Hok _ Hfr Htab] Hpr].
    specialize (Hok _ ltac:(left)). specialize (Hfr _ ltac:(left)). pose proof (vm_kmem _ _ _ _ Hi) as Hk.
    destruct (vm_inv_free m _ T ps _ Hi Hok Hfr) as [Hi' Hpte]; [intros x Hx; eapply Htab; [done|left]|].
    eexists. split; [apply kfree_eq; [done|done|by eapply inv_end]|]. split; [eapply Hkeep; [done..|]; apply (accounts_elem _ _ _ _ _ Hac); left; left|].
    right. split; [done|]. exists T, us, (p_trapframe y :: ps). split; [done|]. split; [|split; [|split; [done|split]]].
    + pose proof (inv_end _ _ Hk). destruct Hok as [? ?]. unfold page_in, KERNBASE in *. lia.
    + destruct Hsp as [S1 S2 S3 S4 S5]. split; [done|..].
      * intros i q Hq. unfold leaf_at. rewrite Hpte. by apply S2.
      * by rewrite Hpte.
      * by rewrite Hpte.
      * intros va Hv. rewrite Hpte. by apply S5.
    + destruct Hac as (l & Hlt & Hall). exists l. split; [done|]. rewrite <- Hall. cbn [app]. solve_Permutation.
    + done.
Qed.

Lemma freeproc_spec p s y m ps all : (p < length (procs s))%nat -> proc_mem m y ps all -> kmem_lock ∉ mlocks m -> page_in (trampoline m) ->
  exists m' ps', freeproc p (slot p y (set_mach m s)) = Ret tt (slot p (freed_proc y) (set_mach m' s)) /\
    kmem_inv m' ps' /\ ps' ≡ₚ all /\ keeps all m m'.
Proof.
  intros Hp Hm Hl Htr. destruct (free_frame m y ps all Hm Hl Htr) as (m1 & E1 & Hk1 & Hr). unfold freeproc.
  erewrite bind_Ret by by apply proc_at_slot.
  assert ((if negb (p_trapframe y =? 0) then vm (kfree (p_trapframe y)) else ret tt) (slot p y (set_mach m s)) =
    Ret tt (slot p y (set_mach m1 s))) as E1'.
  { destruct (negb _); [by apply vm_slot|]. by injection E1 as ->. }
  erewrite bind_Ret by exact E1'. erewrite bind_Ret by by apply proc_upd_slot.
  assert (exists m2 ps2, (if negb (p_pagetable y =? 0) then proc_freepagetable (p_pagetable y) (p_sz y) else ret tt)
      (slot p (set_p_trapframe 0 y) (set_mach m1 s)) = Ret tt (slot p (set_p_trapframe 0 y) (set_mach m2 s)) /\
    kmem_inv m2 ps2 /\ ps2 ≡ₚ all /\ keeps all m1 m2) as (m2 & ps2 & E2 & Hk2 & Hps2 & Hkp2).
  { destruct Hr as [[-> (ps1 & ? & ?)]|(Hne & T & us & ps1 & Hi & Htf & Hsp & Hpr & Hac & Hsz & Hlen)].
    - exists m1, ps1. split; [done|]. split; [done|]. split; [done|apply keeps_refl].
    - rewrite (proj2 (Z.eqb_neq _ _) Hne). cbn [negb]. assert (trampoline m1 = trampoline m) as Et by apply Hk1. rewrite <- Et in Htr.
      destruct (proc_freepagetable_spec (slot p (set_p_trapframe 0 y) (set_mach m1 s)) (p_pagetable y) (p_trapframe y) T us ps1 all
        Htr Htf Hsp (p_sz y) Hi Hac Hpr Hsz Hlen) as (m2 & ps2 & E & H). by exists m2, ps2. }
  erewrite bind_Ret by exact E2. do 8 (erewrite bind_Ret by by apply proc_upd_slot). exists m2, ps2. split; [exact (proc_upd_slot p s Hp _ m2 (set_p_state UNUSED))|].
  split; [done|]. split; [done|]. by eapply keeps_trans.
Qed.

(** ** allocproc *)

Lemma allocpid_eq s : pid_lock ∉ held s -> allocpid s = Ret (nextpid s) (set_nextpid (i32 (nextpid s + 1)) s).
Proof.
  intros H. unfold allocpid. erewrite bind_Ret by by apply acquire_eq. erewrite bind_Ret by reflexivity. erewrite bind_Ret by reflexivity.
  erewrite bind_Ret by by apply (release_head _ (held s)). cbn. f_equal. by destruct s as [[]].
Qed.

(** A free slot holds no memory. *)
Definition slot_clean (x : proc) : Prop := p_trapframe x = 0 /\ p_pagetable x = 0 /\ p_sz x = 0.

(** The slot that [allocproc] fills in. *)
Definition alloc_slot (x : proc) (pid tf pt : Z) : proc :=
  set_p_context (MkContext "forkret" (p_kstack x + PGSIZE) (repeat 0 12))
    (set_p_pagetable pt (set_p_trapframe tf (set_p_state USED (set_p_pid pid x)))).

Lemma give_up_spec {A} (e : A) p s y m ps all : (p < length (procs s))%nat -> proc_mem m y ps all -> mlocks m = [proc_lock p] -> page_in (trampoline m) ->
  exists m' ps', (freeproc p;; release (proc_lock p);; ret e)%K (slot p y (set_mach m s)) =
      Ret e (slot p (freed_proc y) (set_mach (set_mlocks [] m') s)) /\
    kmem_inv m' ps' /\ ps' ≡ₚ all /\ keeps all m m'.
Proof.
  intros Hp Hm Hl Htr. destruct (freeproc_spec p s y m ps all Hp Hm) as (m' & ps' & E & Hk & Hps & Hkp); [rewrite Hl; set_solver|done|].
  exists m', ps'. split; [|done]. erewrite bind_Ret by exact E.
  assert (mlocks m' = [proc_lock p]) as El by (destruct Hkp as [(_ & -> & _) _]; done).
  erewrite bind_Ret by by apply (release_head _ []). done.
Qed.

Section found.
Context (p : nat) (s : kstate) (x : proc) (ps : list Z).
Hypothesis Hx : procs s !! p = Some x.
Hypothesis Hclean : slot_clean x.
Hypothesis Hheld : held s = [].
Hypothesis Hk : kmem_inv (mach s) ps.
Hypothesis Htr : page_in (trampoline (mach s)).

(** The machine with the lock of the slot held, and the state with the next pid. *)
Let m0 := set_mlocks [proc_lock p] (mach s).
Let sB := set_nextpid (i32 (nextpid s + 1)) s.

(** [allocproc] fails: the slot is free again, all pages are back. *)
Definition alloc_failed (r : res kstate (option nat)) : Prop :=
  exists m ps', r = Ret None (slot p (freed_proc x) (set_mach (set_mlocks [] m) sB)) /\ (length ps <= 6)%nat /\
    kmem_inv m ps' /\ ps' ≡ₚ ps /\ keeps ps m0 m.

(** It succeeds. *)
Definition alloc_done (r : res kstate (option nat)) : Prop :=
  exists m tf pt T ps', r = Ret (Some p) (slot p (alloc_slot x (nextpid s) tf pt) (set_mach m sB)) /\ tf <> 0 /\ pt <> 0 /\
    (length ps <= length ps' + 6)%nat /\ vm_inv m pt T ps' /\ accounts T [tf] ps' ps /\ proc_space m tf T [] /\ private (kend m) T ps' [tf] /\ keeps ps m0 m.

Lemma alloc_give_up y m ps1 : proc_mem m y ps1 ps -> keeps ps m0 m -> freed_proc y = freed_proc x -> (length ps <= 6)%nat ->
  alloc_failed ((freeproc p;; release (proc_lock p);; ret (@None nat))%K (slot p y (set_mach m sB))).
Proof using Hx Htr.
  intros Hm Hkp Hy Hlen. destruct Hkp as [(C1 & C2 & C3 & C4 & C5) Hmem].
  destruct (give_up_spec (@None nat) p sB y m ps1 ps) as (m' & ps' & E & Hk' & Hps & Hkp'); [by eapply lookup_lt_Some|done|done|by rewrite C5|].
  exists m', ps'. rewrite <- Hy. split; [done|]. split; [done|]. split; [done|]. split; [done|]. by eapply (keeps_trans _ _ m).
Qed.

Lemma allocproc_found_spec : let r := allocproc_found p (set_held [proc_lock p] s) in alloc_failed r \/ alloc_done r.
Proof using Hx Hclean Hheld Hk Htr.
  intros r. unfold r. clear r. pose proof (lookup_lt_Some _ _ _ Hx) as Hp. destruct Hclean as (C1 & C2 & C3). unfold allocproc_found.
  erewrite bind_Ret by (apply allocpid_eq; cbn; set_solver).
  assert (set_nextpid (i32 (nextpid (set_held [proc_lock p] s) + 1)) (set_held [proc_lock p] s) = slot p x (set_mach m0 sB)) as ->.
  { unfold slot. cbn [procs set_mach sB set_nextpid]. rewrite list_insert_id by done. by destruct s. }
  change (nextpid (set_held [proc_lock p] s)) with (nextpid s).
  do 2 (erewrite bind_Ret by by apply (proc_upd_slot p sB)). set (x1 := set_p_state USED _).
  assert (kmem_inv m0 ps) as Hk0 by (destruct Hk; by split).
  assert (kmem_lock ∉ mlocks m0) as Hl0 by (cbn; set_solver). pose proof (kalloc_spec m0 ps Hk0 Hl0) as Ha.
  remember ps as ps0 eqn:Eps in Ha. destruct ps0 as [|tf ps1].
  { erewrite bind_Ret by (apply vm_slot; exact Ha). erewrite bind_Ret by by apply (proc_upd_slot p sB). cbn [Z.eqb].
    left. eapply (alloc_give_up _ _ ps); [|apply keeps_refl|done|rewrite <- Eps; simpl; lia]. by apply pm_none. }
  destruct Ha as [Ea Hk1]. rewrite <- Eps in Hk0. destruct (head_nonzero _ _ _ Hk0) as [_ Htf0].
  pose proof (inv_pages _ _ Hk0) as [Hok _]%Forall_cons. pose proof (inv_nodup _ _ Hk0) as [Hni _]%NoDup_cons.
  set (m1 := alloc_state tf m0) in *.
  assert (keeps ps m0 m1) as Hkp1.
  { split; [done|]. intros a Ha. apply alloc_state_out. intros Hin. apply Ha. exists tf. rewrite <- Eps. split; [left|done]. }
  erewrite bind_Ret by (apply vm_slot; exact Ea). erewrite bind_Ret by by apply (proc_upd_slot p sB).
  rewrite (proj2 (Z.eqb_neq _ _) Htf0). set (x2 := set_p_trapframe tf x1).
  destruct (proc_pagetable_spec p x2 (slot p x2 (set_mach m1 sB)) ps1) as (pt & m2 & E2 & Hkp2 & Hr);
    [by apply list_lookup_insert_eq|done|done| |done|].
  { pose proof (inv_end _ _ Hk0). destruct Hok as [? ?]. unfold page_in. cbn. unfold KERNBASE in *. lia. }
  erewrite bind_Ret by exact E2. change (set_mach m2 (slot p x2 (set_mach m1 sB))) with (slot p x2 (set_mach m2 sB)).
  erewrite bind_Ret by by apply (proc_upd_slot p sB).
  assert (keeps ps m0 m2) as Hkp.
  { eapply keeps_trans; [exact Hkp1|]. eapply keeps_sub; [exact Hkp2|]. intros q Hq. rewrite <- Eps. by right. }
  destruct Hr as [(-> & Hlen & ps2 & Hk2 & Hps2)|(Hpt & T & ps2 & Hlen & Hi2 & Hac2 & Hsp2)].
  - cbn [Z.eqb]. left. eapply (alloc_give_up _ _ ps2); [|done|done|rewrite <- Eps; simpl; lia]. apply pm_frame; cbn; try done.
    + assert (kend m2 = kend m0) as -> by apply Hkp. done.
    + by rewrite Hps2.
    + by rewrite Hps2, Eps.
  - rewrite (proj2 (Z.eqb_neq _ _) Hpt). erewrite bind_Ret by by apply (proc_upd_slot p sB). right.
    exists m2, tf, pt, T, ps2. split; [done|]. split; [done|]. split; [done|].
    split; [rewrite <- Eps; simpl; lia|]. split; [done|]. split; [|split; [done|split; [|done]]].
    + destruct Hac2 as (l & Hl & Hall). exists l. split; [done|]. cbn in *. by rewrite Hall, Eps.
    + assert (kend m2 = kend m0) as -> by apply Hkp. split.
      * by intros q ->%list_elem_of_singleton.
      * apply NoDup_singleton.
      * intros q ->%list_elem_of_singleton Hin. apply Hni. apply (accounts_elem _ _ _ _ _ Hac2). auto.
      * intros y q Hy ->%list_elem_of_singleton. apply Hni. apply (accounts_elem _ _ _ _ _ Hac2). eauto.
Qed.
End found.

(** ** The whole of allocproc *)

(** [allocproc] always returns: with no slot, or with the first free one filled in
    or free again. *)
Lemma allocproc_spec s ps : ptab_ok s -> held s = [] -> kmem_inv (mach s) ps -> page_in (trampoline (mach s)) ->
  (forall i x, procs s !! i = Some x -> p_state x = UNUSED -> slot_clean x) ->
  allocproc s = Ret None s /\ (forall i x, procs s !! i = Some x -> p_state x <> UNUSED) \/
  exists p x, first_slot (fun x => p_state x = UNUSED) (procs s) p /\ procs s !! p = Some x /\ p_state x = UNUSED /\
    (alloc_failed p s x ps (allocproc s) \/ alloc_done p s x ps (allocproc s)).
Proof.
  intros Hok Hheld Hk Htr Hclean. assert (no_plock s) as Hl by (intros i; rewrite Hheld; apply not_elem_of_nil).
  destruct (first_slot_dec (fun x => p_state x = UNUSED) (procs s)) as [[p Hf]|Hno].
  - right. pose proof Hf as [(x & Hx & Hst) _]. exists p, x. split; [done|]. split; [done|]. split; [done|].
    rewrite (allocproc_eq p s) by done. rewrite Hheld. apply allocproc_found_spec; eauto.
  - left. split; [by apply allocproc_full|done].
Qed.

(** Both outcomes are a step of the slot to [y]. *)
Lemma alloc_step p x y s m : procs s !! p = Some x ->
  slot_step p x y (set_nextpid (i32 (nextpid s + 1)) s) (slot p y (set_mach m (set_nextpid (i32 (nextpid s + 1)) s))).
Proof. intros Hx. split; [done|]. by exists m. Qed.

(** C35: [allocproc], called with no lock held and every free slot without
    memory, always returns.  With no UNUSED slot the result is none and nothing
    changes.  Otherwise it takes the first one and the next process id; process
    ids stay unique and no other slot changes.  On success it returns that slot
    with its lock, and no other, held: the slot is USED, with the new id and a
    context that starts in [forkret] at the top of its kernel stack, and owns a
    trap frame and a page table that maps the trampoline and this frame, made of
    pages that were free.  On failure, which takes a free list of at most six
    pages, no lock is held, the slot is UNUSED again and all pages are free. *)
Theorem allocproc_correct s ps : ptab_ok s -> held s = [] -> pids_ok s -> 0 < nextpid s < 2 ^ 31 - 1 ->
  kmem_inv (mach s) ps -> page_in (trampoline (mach s)) ->
  (forall i x, procs s !! i = Some x -> p_state x = UNUSED -> slot_clean x) ->
  ((forall i x, procs s !! i = Some x -> p_state x <> UNUSED) -> allocproc s = Ret None s) /\
  (forall p, first_slot (fun x => p_state x = UNUSED) (procs s) p ->
   exists r s' x y, allocproc s = Ret r s' /\ ptab_ok s' /\ pids_ok s' /\ nextpid s' = nextpid s + 1 /\
     procs s !! p = Some x /\ procs s' !! p = Some y /\ (forall j, j <> p -> procs s' !! j = procs s !! j) /\
     (r = Some p /\ held s' = [proc_lock p] /\ new_proc x y (nextpid s) /\
        (exists T fr, own_pages (p_pagetable y) (p_trapframe y) ps (mach s') T [] fr) \/
      r = None /\ held s' = [] /\ p_state y = UNUSED /\ slot_clean y /\ (length ps <= 6)%nat /\
        exists ps', kmem_inv (mach s') ps' /\ ps' ≡ₚ ps)).
Proof.
  intros Hok Hh Hp Hn Hk Htr Hcl. split.
  { intros Hno. apply allocproc_full; [done| |done]. intros i. rewrite Hh. apply not_elem_of_nil. }
  intros p Hf. destruct (allocproc_spec s ps Hok Hh Hk Htr Hcl) as [[_ Hno]|(p' & x & Hf' & Hx & Hst & Hr)].
  { destruct Hf as [(x & Hx & Hst) _]. by destruct (Hno p x). }
  rewrite (first_slot_unique _ _ _ _ Hf Hf') in *. clear Hf Hf' p. rename p' into p.
  pose proof (lookup_lt_Some _ _ _ Hx) as Hlt.
  assert (forall y m, let s' := slot p y (set_mach m (set_nextpid (i32 (nextpid s + 1)) s)) in
    p_pid y = nextpid s /\ p_state y = USED \/ p_pid y = 0 /\ p_state y = UNUSED ->
    ptab_ok s' /\ pids_ok s' /\ nextpid s' = nextpid s + 1 /\ procs s !! p = Some x /\ procs s' !! p = Some y /\
    forall j, j <> p -> procs s' !! j = procs s !! j) as Hstep.
  { intros y m s' Hy. pose proof (alloc_step p x y s m Hx) as HS. split; [by eapply ptab_ok_step, HS|].
    split; [by eapply pids_ok_step|]. split; [cbn; by rewrite i32_small by lia|]. split; [done|].
    split; [by apply list_lookup_insert_eq|]. intros j Hj. cbn. by rewrite list_lookup_insert_ne. }
  destruct Hr as [(m & ps' & E & Hl & Hk' & Hps & Hkeep)|(m & tf & pt & T & fr & E & Htf & Hpt & _ & Hi & Hac & Hsp & Hpr & Hkeep)].
  - destruct (Hstep (freed_proc x) (set_mlocks [] m)) as (S1 & S2 & S3 & S4 & S5 & S6); [by right|].
    eexists None, _, x, _. do 7 (split; [done|]). right. split_and!; try done. exists ps'. split; [by destruct Hk'|done].
  - destruct (Hstep (alloc_slot x (nextpid s) tf pt) m) as (S1 & S2 & S3 & S4 & S5 & S6); [by left|].
    eexists (Some p), _, x, _. do 7 (split; [done|]). left. split; [done|]. split; [apply Hkeep|]. split; [by split|].
    exists T, fr. by split.
Qed.

(** ** A parent with one page and two descriptors of one file; ten free pages *)

Definition fork_pages : list Z := map (fun i => 0x87ffa000 - i * 4096) [0; 1; 2; 3; 4; 5; 6; 7; 8; 9].
Definition fork_space : machine :=
  Machine (foldl (fun m p => st64 m p (if p =? 0x87ff1000 then 0 else p - 4096)) demo_ram fork_pages)
    0x87ffa000 0 [] 0x80026000 0x80008000 0x80007000.
Definition fork_parent_slot : proc :=
  MkProc RUNNING None 0 0 1 None 0 100 0x87fff000 0x87ffb000 (MkContext "null" 0 (repeat 0 12))
    (Some 0%nat :: Some 0%nat :: repeat None 14) (Some 0%nat) ([115; 104] ++ repeat 0 14) 0.
Definition fork_state : kstate :=
  let s := zero_kstate fork_space in
  set_cpu_proc (Some 0%nat) (set_nextpid 2 (set_ftable (<[0%nat := set_f_ref 2 zero_file]> (ftable s))
    (set_procs (<[0%nat := fork_parent_slot]> (procs s)) s))).

Lemma fork_space_high a : 0x87ffb000 <= a -> ld8 (ram fork_space) a = ld8 demo_ram a.
Proof. intros. unfold fork_space. cbn [ram foldl fork_pages map]. by rewrite !ld8_st64_ne by lia. Qed.

Lemma fork_state_space : aspace fork_space 0x87fff000 demo_T [0x87ffc000].
Proof.
  destruct (tables_ext _ _ (ram fork_space) _ _ demo_rep) as [Hr Hp].
  { intros x q a [[-> ->]|[[-> ->]|[-> ->]]]%demo_lookup Ha; apply fork_space_high; unfold in_page in Ha; lia. }
  split; [done| |split].
  - intros i p [-> <-]%list_lookup_singleton_Some. unfold leaf_at. rewrite Hp. by vm_compute.
  - intros p ->%list_elem_of_singleton. split; by vm_compute.
  - apply NoDup_singleton.
  - intros p _. apply not_elem_of_nil.
  - by intros x p [[-> ->]|[[-> ->]|[-> ->]]]%demo_lookup ?%list_elem_of_singleton.
Qed.

Lemma fork_state_kmem : kmem_inv (mach fork_state) fork_pages.
Proof.
  split; [by vm_compute| |repeat constructor; by vm_compute|by vm_compute]. apply (bool_decide_unpack _). by vm_compute.
Qed.

Lemma fork_state_free i z : procs fork_state !! i = Some z -> p_state z = UNUSED -> z = zero_proc.
Proof. destruct i as [|i]; intros Hz Hu; [by simplify_eq/=|]. by apply lookup_repeat_inv in Hz. Qed.

#[local] Opaque allocproc.

(** The slot and the memory [allocproc] makes for a child of it. *)
Lemma fork_state_alloc : exists m tf pt T ps,
  allocproc fork_state = Ret (Some 1%nat) (slot 1 (alloc_slot zero_proc 2 tf pt) (set_mach m (set_nextpid 3 fork_state))) /\
  tf <> 0 /\ pt <> 0 /\ (4 <= length ps)%nat /\ vm_inv m pt T ps /\ accounts T [tf] ps fork_pages /\ proc_space m tf T [] /\
  private (kend m) T ps [tf] /\ keeps fork_pages (set_mlocks [proc_lock 1] (mach fork_state)) m.
Proof.
  assert (page_in (trampoline (mach fork_state))) as Htr by by vm_compute.
  assert (forall i z, procs fork_state !! i = Some z -> p_state z = UNUSED -> slot_clean z) as Hcl.
  { intros i z Hz Hu. by rewrite (fork_state_free i z Hz Hu). }
  pose proof (allocproc_spec fork_state fork_pages eq_refl eq_refl fork_state_kmem Htr Hcl) as H.
  assert (returns_slot 1 (allocproc fork_state) = true) as E1 by (vm_compute; reflexivity).
  destruct H as [[E _]|(np & z & _ & Hz & Hun & [H|H])].
  - rewrite E in E1. discriminate E1.
  - destruct H as (m & ps' & _ & Hl & _). simpl in Hl. lia.
  - destruct H as (m & tf & pt & T & ps & E & Htf & Hpt & Hl & Hrest). rewrite E in E1. apply Nat.eqb_eq in E1 as <-.
    rewrite (fork_state_free 1 z Hz Hun) in *. exists m, tf, pt, T, ps. split; [exact E|]. split; [exact Htf|]. split; [exact Hpt|].
    split; [simpl in Hl; clear - Hl; lia|exact Hrest].
Qed.

Lemma allocproc_correct_witness : exists s' x y T fr, allocproc fork_state = Ret (Some 1%nat) s' /\
  held s' = [proc_lock 1] /\ new_proc x y 2 /\ own_pages (p_pagetable y) (p_trapframe y) fork_pages (mach s') T [] fr.
Proof.
  assert (pids_ok fork_state) as Hp.
  { split.
    - intros [|i] x Hx; [by injection Hx as <-|]. by apply lookup_repeat_inv in Hx as ->.
    - intros [|i] x Hx; [by injection Hx as <-|]. by apply lookup_repeat_inv in Hx as ->.
    - intros [|i] [|j] x y Hx Hy; [done|..].
      + injection Hx as <-. by apply lookup_repeat_inv in Hy as ->.
      + apply lookup_repeat_inv in Hx as ->. done.
      + apply lookup_repeat_inv in Hx as ->. done. }
  destruct (proj2 (allocproc_correct fork_state fork_pages eq_refl eq_refl Hp ltac:(split; reflexivity) fork_state_kmem
    ltac:(by vm_compute) ltac:(intros i z Hz Hu; by rewrite (fork_state_free i z Hz Hu))) 1%nat) as (r & s' & x & y & E & _ & _ & _ & _ & _ & _ & Hr).
  { split; [by exists zero_proc|]. intros [|j] z Hj Hz; [by injection Hz as <-|lia]. }
  destruct Hr as [(-> & Hh & Hnew & T & fr & Ho)|(_ & _ & _ & _ & Hl & _)]; [|simpl in Hl; clear - Hl; lia].
  exact (ex_intro _ s' (ex_intro _ x (ex_intro _ y (ex_intro _ T (ex_intro _ fr (conj E (conj Hh (conj Hnew Ho)))))))).
Defined.
