(* ===== verification/WaitSpec.v ===== *)
(** * wait

    [wait] from the scan for an exited child to the return of its memory, the
    counterpart of [fork]. *)

From S2P Require Import Prelude Mem Riscv Str Locks Kalloc Vm VmWalk VmMap VmCopy VmUvm VmFree Kstate UserMem Proc ProcSpec ProcAlloc ProcMem.
Import Kalloc Vm Proc.

(** ** The scan *)

Definition child_of (p : nat) (x : proc) : Prop := p_parent x = Some p.
Definition zombie_of (p : nat) (x : proc) : Prop := child_of p x /\ p_state x = ZOMBIE.
#[export] Instance child_of_dec p x : Decision (child_of p x).
Proof. unfold child_of. apply _. Defined.
#[export] Instance zombie_of_dec p x : Decision (zombie_of p x).
Proof. unfold zombie_of. apply _. Defined.

(** Whether slot [i] is a child of [p]. *)
Definition kid (p : nat) (s : kstate) (i : nat) : bool :=
  match procs s !! i with Some x => bool_decide (child_of p x) | None => false end.

Section scan.
Context (p : nat) (addr : Z) (s : kstate).
Hypothesis Hl : no_plock s.

(** Slots without an exited child are passed over. *)
Lemma wait_scan_skip l l' hk :
  (forall i, i ∈ l -> exists x, procs s !! i = Some x /\ ~ zombie_of p x) ->
  wait_scan p addr (l ++ l') hk s = wait_scan p addr l' (hk || existsb (kid p s) l) s.
Proof using Hl.
  revert hk; induction l as [|i l IH]; intros hk H; [cbn; by rewrite orb_false_r|].
  destruct (H i) as (x & Hx & Hn); [left|]. cbn [app wait_scan existsb]. erewrite bind_Ret by by apply proc_at_eq.
  assert (kid p s i = bool_decide (child_of p x)) as Ek by (unfold kid; by rewrite Hx).
  destruct (decide (p_parent x = Some p)) as [Hp|Hp].
  - erewrite bind_Ret by (apply acquire_eq, Hl). erewrite bind_Ret by by apply proc_at_eq.
    rewrite decide_False by (intros Hz; by apply Hn). erewrite bind_Ret by by apply (release_head _ (held s)).
    replace (set_held _ _) with s by by destruct s as [[]]. rewrite Ek, bool_decide_eq_true_2 by done.
    fold (wait_scan p addr). rewrite IH by (intros j Hj; apply H; by right). cbn. by rewrite orb_true_r.
  - fold (wait_scan p addr). rewrite IH by (intros j Hj; apply H; by right). by rewrite Ek, bool_decide_eq_false_2.
Qed.

Lemma kids_false : ptab_ok s -> (forall i x, procs s !! i = Some x -> ~ child_of p x) -> existsb (kid p s) proc_slots = false.
Proof.
  intros Hok Hno. apply not_true_is_false. intros (i & _ & Hi)%existsb_exists. unfold kid in Hi.
  destruct (procs s !! i) as [x|] eqn:Hx; [|done]. apply bool_decide_eq_true in Hi. by eapply Hno.
Qed.

Lemma kids_true i x : ptab_ok s -> procs s !! i = Some x -> child_of p x -> existsb (kid p s) proc_slots = true.
Proof.
  intros Hok Hx Hc. apply existsb_exists. exists i. split.
  - apply in_seq. apply lookup_lt_Some in Hx. rewrite Hok in Hx. lia.
  - unfold kid. rewrite Hx. by apply bool_decide_eq_true_2.
Qed.
End scan.

(** ** Reaping *)

(** The memory of a process depends on its own pages and the free ones only. *)
Lemma proc_mem_ext m y ps all r h : proc_mem m y ps all -> kmem_lock ∉ h ->
  (forall q a, q ∈ all -> in_page q a -> ld8 r a = ld8 (ram m) a) -> proc_mem (set_mlocks h (set_ram r m)) y ps all.
Proof.
  intros H Hh Hr.
  assert (forall ps, kmem_inv m ps -> (forall q, q ∈ ps -> q ∈ all) -> kmem_inv (set_mlocks h (set_ram r m)) ps) as Hk.
  { intros ps' Hk Hin. eapply (kmem_inv_ext m); [done..|]. intros q a Hq. by apply Hr, Hin. }
  destruct H as [E1 E2 Hkm Hps|E1 E2 Hkm Hok Hn Hps|T us E1 E2 [Hkm Hl Hrep Hs] [S1 S2 S3 S4 S5] Hpr Hac Hsz Hlen].
  - apply pm_none; try done. apply Hk; [done|]. intros q. by rewrite Hps.
  - apply pm_frame; try done. apply Hk; [done|]. intros q Hq. rewrite <- Hps. by right.
  - destruct (tables_ext (kend m) (ram m) r _ T Hrep) as [Hrep' Hpte].
    { intros i q a Hi. apply Hr, (accounts_elem _ _ _ _ _ Hac). eauto. }
    apply (pm_space _ _ _ _ T us); try done.
    + split; [|done|done|done]. apply Hk; [done|]. intros q Hq. apply (accounts_elem _ _ _ _ _ Hac). auto.
    + split; [done|..]; try (intros; unfold leaf_at; cbn [ram set_mlocks set_ram]; rewrite Hpte; auto). by apply S2.
Qed.

(** The bytes of the exit status in memory order. *)
Definition status_bytes (x : proc) : list Z := ListDef.map (fun i => u8 (Z.shiftr (p_xstate x) (8 * i))) [0; 1; 2; 3].

(** Delivering the exit status: [k] of its bytes are in the caller's memory at
    [addr], all of them when the result [r] is 0.  A null [addr] asks for none. *)
Definition delivered (m : mem) (T : ptree) (addr : Z) (y : proc) (r : Z) (m' : mem) : Prop :=
  if addr =? 0 then r = 0 /\ m' = m
  else exists k, uwritten m T m' addr (take (Z.to_nat k) (status_bytes y)) /\ copies m T addr 4 r k.

Section reap.
Context (s : kstate) (p np : nat) (x y : proc) (addr : Z) (T : ptree) (ps all : list Z).
Hypothesis Hx : procs s !! p = Some x.
Hypothesis Hy : procs s !! np = Some y.
Hypothesis Hz : zombie_of p y.
Hypothesis Hheld : held s = [].
Hypothesis Haddr : 0 <= addr < 2 ^ 64.
Hypothesis Hu : uvm_inv (mach s) (p_pagetable x) T ps.
Hypothesis Htr : page_in (trampoline (mach s)).
Hypothesis Hmem : proc_mem (mach s) y ps all.
Hypothesis Hok : Forall (page_ok (kend (mach s))) all.
Hypothesis Hapart : forall v, 0 <= v < MAXVA -> upage (ram (mach s)) T v ∉ all.

Let locks := [proc_lock np; wait_lock].

Lemma deliver_spec : exists r m', delivered (ram (mach s)) T addr y r m' /\
  (if negb (addr =? 0) then vm (Vm.copyout (p_pagetable x) addr (status_bytes y) 4) else ret 0)
    (set_held locks s) = Ret r (set_mach (set_mlocks locks (set_ram m' (mach s))) s) /\
  forall q a, q ∈ all -> in_page q a -> ld8 m' a = ld8 (ram (mach s)) a.
Proof using All.
  unfold delivered. destruct (addr =? 0).
  { exists 0, (ram (mach s)). split; [done|]. done. }
  assert (uvm_inv (set_mlocks locks (mach s)) (p_pagetable x) T ps) as Hu' by (apply uvm_inv_locks; [done|set_solver]).
  destruct (copyout_spec (p_pagetable x) (set_mlocks locks (mach s)) T ps addr (status_bytes y) 4 Hu' Haddr) as (r & k & m1 & E & Hu1 & Hw & Hc & Em); [done|lia|].
  exists r, (ram m1). split; [by exists k|]. split.
  - cbn [negb]. erewrite vm_ret by exact E. by rewrite Em.
  - intros q a Hq Ha. apply (uw_other _ _ _ _ _ Hw). intros v Hv Hne' Hin. apply (Hapart v Hv).
    destruct (uv_page _ _ _ _ Hu v Hv Hne') as (Hvok & _ & _). rewrite Forall_forall in Hok.
    cbn in Hin. by rewrite (in_page_disjoint _ _ _ _ Hvok (Hok q Hq) Hin Ha).
Qed.

(** The exited child is found in slot [np]. *)
Lemma wait_found l hk : exists r m', delivered (ram (mach s)) T addr y r m' /\
  (r = 0 /\ (exists m ps', wait_scan p addr (np :: l) hk (set_held [wait_lock] s) = Ret (inr (p_pid y)) (slot np (freed_proc y) (set_mach m s)) /\
     kmem_inv m ps' /\ ps' ≡ₚ all /\ keeps all (set_ram m' (mach s)) m) \/
   r = -1 /\ wait_scan p addr (np :: l) hk (set_held [wait_lock] s) = Ret (inr (-1)) (set_mach (set_ram m' (mach s)) s)).
Proof using All.
  destruct Hz as [Hp Hst]. destruct deliver_spec as (r & m' & Hd & E & Hb). exists r, m'. split; [done|].
  cbn [wait_scan]. erewrite bind_Ret by by apply proc_at_eq. rewrite decide_True by done.
  erewrite bind_Ret by (apply acquire_eq; cbn; set_solver). erewrite bind_Ret by by apply proc_at_eq. rewrite decide_True by done.
  cbv zeta. erewrite bind_Ret by by apply proc_at_eq. erewrite bind_Ret by exact E.
  assert (r = 0 \/ r = -1) as [-> | ->].
  { unfold delivered in Hd. destruct (addr =? 0); [left; apply Hd|]. destruct Hd as (k & _ & _ & [[-> _]|[-> _]]); auto. }
  - left. split; [done|]. change (0 <? 0) with false. cbn match.
    assert (set_mach (set_mlocks locks (set_ram m' (mach s))) s = slot np y (set_mach (set_mlocks locks (set_ram m' (mach s))) s)) as ->.
    { unfold slot. cbn [procs set_mach]. rewrite list_insert_id by done. done. }
    destruct (freeproc_spec np s y (set_mlocks locks (set_ram m' (mach s))) ps all) as (m & ps' & E1 & Hk & Hps & [(K1 & K2 & K3 & K4 & K5) Hm]);
      [by eapply lookup_lt_Some|apply proc_mem_ext; [done|set_solver|done]|cbn; set_solver|done|].
    exists (set_mlocks [] m), ps'. split; [|split; [destruct Hk; by split|split; [done|]]].
    + erewrite bind_Ret by exact E1. erewrite bind_Ret by by apply (release_head _ [wait_lock]).
      erewrite bind_Ret by by apply (release_head _ []). done.
    + split; [|done]. split; [done|]. split; [by rewrite <- Hheld|done].
  - right. split; [done|]. change (-1 <? 0) with true. cbn match.
    erewrite bind_Ret by by apply (release_head _ [wait_lock]).
    erewrite bind_Ret by by apply (release_head _ []).
    assert (set_ram m' (mach s) = set_mlocks [] (set_ram m' (mach s))) as ->; [|done].
    change (set_mlocks [] (set_ram m' (mach s))) with
      (Machine m' (freelist (mach s)) (count (mach s)) [] (kend (mach s)) (etext (mach s)) (trampoline (mach s))).
    by rewrite <- Hheld.
Qed.
End reap.

(** ** The whole of wait *)

(** Process [p], in slot [x], calls [wait]; [T] is its page table, [ps] the free pages. *)
Record wait_ready (s : kstate) (p : nat) (x : proc) (T : ptree) (ps : list Z) : Prop := {
  wr_cur : cpu_proc s = Some p;
  wr_slot : procs s !! p = Some x;
  wr_tab : ptab_ok s;
  wr_held : held s = [];
  wr_uvm : uvm_inv (mach s) (p_pagetable x) T ps;
  wr_tramp : page_in (trampoline (mach s));
}.

(** The pages of [y] and the free ones are [all], none of them the caller's. *)
Record owns (s : kstate) (T : ptree) (y : proc) (ps all : list Z) : Prop := {
  ow_mem : proc_mem (mach s) y ps all;
  ow_ok : Forall (page_ok (kend (mach s))) all;
  ow_apart v : 0 <= v < MAXVA -> upage (ram (mach s)) T v ∉ all;
}.

Lemma slots_split i : (i < Z.to_nat NPROC)%nat -> proc_slots = seq 0 i ++ i :: seq (S i) (Z.to_nat NPROC - S i).
Proof.
  intros Hi. unfold proc_slots. replace (Z.to_nat NPROC) with (i + S (Z.to_nat NPROC - S i))%nat at 1 by lia. by rewrite seq_app.
Qed.

Section wait.
Context (s : kstate) (p : nat) (x : proc) (T : ptree) (ps : list Z) (addr : Z).
Hypothesis HR : wait_ready s p x T ps.

Let sW := set_held [wait_lock] s.

Lemma wait_eq : wait addr s = loop (wait_body p addr) tt sW.
Proof using HR.
  destruct HR as [Hc Hx Hok Hh _ _]. unfold wait. erewrite bind_Ret by by apply curproc_eq.
  erewrite bind_Ret by (apply acquire_eq; rewrite Hh; apply not_elem_of_nil). by rewrite Hh.
Qed.

Lemma wait_exit r s' : wait_scan p addr proc_slots false sW = Ret (inr r) s' -> wait addr s = Ret r s'.
Proof using HR.
  intros E. rewrite wait_eq. apply (loop_exit 1); [lia|]. rewrite iter_n_1. unfold wait_body. by erewrite bind_Ret by exact E.
Qed.

Lemma wait_scan_none : (forall i y, procs s !! i = Some y -> ~ zombie_of p y) ->
  wait_scan p addr proc_slots false sW = Ret (inl (existsb (kid p sW) proc_slots)) sW.
Proof using HR.
  intros Hno. rewrite <- (app_nil_r proc_slots) at 1. rewrite wait_scan_skip; [done|intros i; cbn; set_solver|].
  intros i [_ Hi]%elem_of_seq. destruct (lookup_lt_is_Some_2 (procs s) i) as [y Hy]; [|by exists y; split; [|eapply Hno]].
  rewrite (wr_tab _ _ _ _ _ HR). lia.
Qed.
End wait.

(** C4: [wait] with an exited child takes the first one in the table: its
    exit status is delivered at [addr], its slot is free again, all of its
    pages are back on the free list, and the result is its process id; where
    the status does not fit into the caller's memory the child stays and the
    result is -1.  With no children, or with none that has exited when the
    caller is killed, the result is -1 and nothing changes.  Otherwise the
    caller sleeps, with only its own lock held. *)
Theorem wait_correct s p x T ps addr : wait_ready s p x T ps -> 0 <= addr < 2 ^ 64 ->
  (forall np y all, first_slot (zombie_of p) (procs s) np -> procs s !! np = Some y -> owns s T y ps all ->
     exists r m', delivered (ram (mach s)) T addr y r m' /\
       (r = 0 /\ (exists m ps', wait addr s = Ret (p_pid y) (slot np (freed_proc y) (set_mach m s)) /\
          kmem_inv m ps' /\ ps' ≡ₚ all /\ keeps all (set_ram m' (mach s)) m) \/
        r = -1 /\ wait addr s = Ret (-1) (set_mach (set_ram m' (mach s)) s))) /\
  ((forall i y, procs s !! i = Some y -> ~ zombie_of p y) ->
   ((forall i y, procs s !! i = Some y -> ~ child_of p y) \/ p_killed x <> 0 -> wait addr s = Ret (-1) s) /\
   (forall i y, procs s !! i = Some y -> child_of p y -> p_killed x = 0 ->
      exists k, wait addr s = Switch (asleep_on (proc_chan p) p x s) k)).
Proof.
  intros HR Haddr. pose proof HR as [Hc Hx Hok Hh Hu Htr]. split.
  - intros np y all Hf Hy [Ho1 Ho2 Ho3]. pose proof Hf as [(y' & Hy' & Hz) Hb]. simplify_eq.
    assert (np < Z.to_nat NPROC)%nat as Hnp by (rewrite <- Hok; by eapply lookup_lt_Some).
    destruct (wait_found s p np x y addr T ps all) with (l := seq (S np) (Z.to_nat NPROC - S np))
      (hk := false || existsb (kid p (set_held [wait_lock] s)) (seq 0 np)) as (r & m' & Hd & Hr); try done.
    exists r, m'. split; [done|].
    assert (forall e s', wait_scan p addr (np :: seq (S np) (Z.to_nat NPROC - S np))
      (false || existsb (kid p (set_held [wait_lock] s)) (seq 0 np)) (set_held [wait_lock] s) = Ret (inr e) s' -> wait addr s = Ret e s') as Hw.
    { intros e s' E. eapply (wait_exit _ _ _ _ _ _ HR). rewrite (slots_split np Hnp), wait_scan_skip; [exact E|intros i; cbn; set_solver|].
      intros i [_ Hi]%elem_of_seq. destruct (lookup_lt_is_Some_2 (procs s) i) as [z Hz']; [unfold ptab_ok in Hok; lia|].
      exists z. split; [done|]. by apply (Hb i). }
    destruct Hr as [(-> & m & ps' & E & Hrest)|[-> E]]; [left|right]; (split; [done|]); [exists m, ps'; split; [by apply Hw|done]|by apply Hw].
  - intros Hno. pose proof (wait_scan_none _ _ _ _ _ addr HR Hno) as E. split.
    + intros Hor. rewrite (wait_eq _ _ _ _ _ _ HR). apply (loop_exit 1); [lia|]. rewrite iter_n_1. unfold wait_body.
      erewrite bind_Ret by exact E. cbn match. erewrite bind_Ret by by apply proc_at_eq.
      assert (negb (existsb (kid p (set_held [wait_lock] s)) proc_slots) || negb (p_killed x =? 0) = true) as ->.
      { destruct Hor as [Hk|Hk]; [by rewrite kids_false|]. rewrite (proj2 (Z.eqb_neq _ _) Hk). by rewrite orb_true_r. }
      erewrite bind_Ret by by apply (release_head _ []). cbn. f_equal. f_equal. rewrite <- Hh. by destruct s as [[]].
    + intros i y Hy Hk Hkill. rewrite (wait_eq _ _ _ _ _ _ HR). 
      destruct (sleep_switch (proc_chan p) wait_lock p x (set_held [wait_lock] s)) as [k Es]; [done..|].
      assert (exists k', wait_body p addr tt (set_held [wait_lock] s) = Switch (asleep_on (proc_chan p) p x s) k') as (k' & Ew).
      { unfold wait_body. erewrite bind_Ret by exact E. cbn match. erewrite bind_Ret by by apply proc_at_eq.
        rewrite (kids_true p _ i y), Hkill by done. cbn [negb orb Z.eqb]. unfold bind. rewrite Es. by eexists. }
      exact (loop_switch _ _ _ _ _ Ew).
Qed.

(** ** A parent whose child, made by allocproc, has exited with status 7 *)

Definition exited (y : proc) : proc := set_p_state ZOMBIE (set_p_parent (Some 0%nat) (set_p_xstate 7 y)).
Definition wait_state : kstate :=
  match allocproc fork_state with
  | Ret _ s => match procs s !! 1%nat with Some y => slot 1 (exited y) (set_held [] s) | None => s end
  | _ => fork_state
  end.

Lemma fork_pages_low q : q ∈ fork_pages -> q < 0x87ffb000.
Proof. revert q. apply Forall_forall. repeat constructor. Qed.

Lemma demo_parent m ps : kmem_inv m ps -> kmem_lock ∉ mlocks m -> kend m = 0x80026000 ->
  (forall a, 0x87ffb000 <= a -> ld8 (ram m) a = ld8 demo_ram a) -> (forall q, q ∈ ps -> q ∈ fork_pages) ->
  uvm_inv m 0x87fff000 demo_T ps /\ (forall v, 0 <= v < MAXVA -> upage (ram m) demo_T v ∉ fork_pages) /\
  forall v, upage (ram m) demo_T v = upage demo_ram demo_T v.
Proof.
  intros Hk Hl He Hm Hps. destruct (tables_ext _ _ (ram m) _ _ demo_rep) as [Hr Hp].
  { intros x q a [[-> ->]|[[-> ->]|[-> ->]]]%demo_lookup Ha; apply Hm; unfold in_page in Ha; lia. }
  assert (forall v, upage (ram m) demo_T v = upage demo_ram demo_T v) as Hu by (intros v; by apply upage_ext).
  assert (forall v, 0 <= v < MAXVA -> upage (ram m) demo_T v ∉ fork_pages) as Hno.
  { intros v Hv. rewrite Hu. destruct (decide (upage demo_ram demo_T v = 0)) as [->|Hne].
    - apply (bool_decide_unpack _). by vm_compute.
    - rewrite (proj1 (demo_upage v Hv Hne)). apply (bool_decide_unpack _). by vm_compute. }
  split; [|by split]. split.
  - split; [done..|by rewrite He|]. intros x p Hx Hin%Hps%fork_pages_low. apply demo_lookup in Hx. lia.
  - intros v Hv. rewrite Hu. intros Hne. rewrite <- Hu at 2. split; [|split; [intros Hin%Hps; by eapply Hno|]].
    + rewrite He. destruct (uv_page _ _ _ _ demo_uvm v Hv Hne) as [? _]. done.
    + by destruct (uv_page _ _ _ _ demo_uvm v Hv Hne) as (_ & _ & ?).
  - intros v v' Hv Hv'. rewrite !Hu. apply (uv_inj _ _ _ _ demo_uvm); done.
Qed.

#[local] Opaque allocproc.

Lemma wait_state_ok : exists ps y, wait_ready wait_state 0 fork_parent_slot demo_T ps /\
  first_slot (zombie_of 0) (procs wait_state) 1 /\ procs wait_state !! 1%nat = Some y /\ p_pid y = 2 /\
  owns wait_state demo_T y ps fork_pages /\ forall v, upage (ram (mach wait_state)) demo_T v = upage demo_ram demo_T v.
Proof.
  destruct fork_state_alloc as (m & tf & pt & T & ps & E & Htf & Hpt & _ & Hi & Hac & Hsp & Hpr & [(K1 & K2 & K3 & K4 & K5) Hm]).
  set (y := exited (alloc_slot zero_proc 2 tf pt)).
  assert (wait_state = slot 1 y (set_mach (set_mlocks [] m) (set_nextpid 3 fork_state))) as ->.
  { unfold wait_state. rewrite E. reflexivity. }
  clear E. assert (kmem_inv (set_mlocks [] m) ps) as Hk by (destruct (vm_kmem _ _ _ _ Hi); by split).
  destruct (demo_parent (set_mlocks [] m) ps Hk) as (Hu & Hno & Hup); [apply not_elem_of_nil|done|..].
  { intros a Ha. rewrite <- fork_space_high by done. apply Hm. intros (q & Hq & Hin). pose proof (fork_pages_low q Hq) as Hlow.
    assert (q mod PGSIZE = 0) as Hal by (pose proof (inv_pages _ _ fork_state_kmem) as F; eapply Forall_forall in F; [|exact Hq]; apply F).
    unfold in_page in Hin. apply Z.mod_divide in Hal as [j ->]; [|done]. unfold PGSIZE in *. lia. }
  { intros q Hq. apply (accounts_elem _ _ _ _ _ Hac). auto. }
  exists ps, y. split; [split; try done; cbn; rewrite K5; by vm_compute|]. split.
  { split; [by exists y|]. intros [|j] z' Hj Hz'; [|lia]. injection Hz' as <-. by intros [? _]. }
  split; [done|]. split; [done|]. split; [|done]. split; [|cbn; rewrite K1; apply (inv_pages _ _ fork_state_kmem)|done].
  apply (pm_space _ _ _ _ T []); try done.
  - destruct Hi. split; try done. apply not_elem_of_nil.
  - by destruct Hsp.
Qed.

(** Its status is delivered at address 64. *)
Lemma wait_correct_witness : exists m m' ps y, delivered (ram (mach wait_state)) demo_T 64 y 0 m' /\
  wait 64 wait_state = Ret 2 (slot 1 (freed_proc y) (set_mach m wait_state)) /\
  kmem_inv m ps /\ ps ≡ₚ fork_pages.
Proof.
  destruct wait_state_ok as (ps & y & HR & Hf & Hy & Hpid & Ho & Hup).
  destruct (proj1 (wait_correct wait_state 0 fork_parent_slot demo_T ps 64 HR ltac:(lia)) 1%nat y fork_pages Hf Hy Ho)
    as (r & m' & Hd & [(-> & m & ps' & E & Hk & Hps & _)|[-> E]]).
  - exists m, m', ps', y. rewrite <- Hpid. exact (conj Hd (conj E (conj Hk Hps))).
  - exfalso. clear E. destruct Hd as (k & _ & _ & [[H0 _]|(_ & Hk & Hp)]); [discriminate H0|]. rewrite Hup in Hp.
    assert (k = 0 \/ k = 1 \/ k = 2 \/ k = 3) as Hk' by lia.
    destruct Hk' as [-> |[-> |[-> | ->]]]; vm_compute in Hp; discriminate Hp.
Defined.
