(* ===== verification/GrowSpec.v ===== *)
(** * growproc

    Growing and shrinking the memory of a process, as [sbrk] does. *)

From S2P Require Import Prelude Mem Riscv Str Locks Kalloc Vm VmWalk VmMap VmCopy VmUvm VmFree Kstate UserMem Proc ProcSpec ProcAlloc ProcMem.
Import Kalloc Vm Proc.
#[local] Opaque Str.memset.

Lemma private_perm e T fr us us' : private e T fr us -> us ≡ₚ us' -> private e T fr us'.
Proof.
  intros [H1 H2 H3 H4] Hp. split.
  - intros p. rewrite <- Hp. apply H1.
  - by rewrite <- Hp.
  - intros p. rewrite <- Hp. apply H3.
  - intros x p Hx. rewrite <- Hp. by eapply H4.
Qed.

Lemma private_split e T fr us1 us2 : private e T fr (us1 ++ us2) -> private e T fr us2 /\ private e T (rev us2 ++ fr) us1.
Proof.
  intros [P1 P2 P3 P4]. apply NoDup_app in P2 as (N1 & N2 & N3). split; split; try done.
  - intros p Hp. apply P1, elem_of_app. by right.
  - intros p Hp. apply P3, elem_of_app. by right.
  - intros x p Hx Hp. eapply P4; [exact Hx|]. apply elem_of_app. by right.
  - intros p Hp. apply P1, elem_of_app. by left.
  - intros p Hp [Hr|Hr]%elem_of_app; [rewrite <- Permutation_rev in Hr; by eapply N2|]. eapply P3; [|exact Hr]. apply elem_of_app. by left.
  - intros x p Hx Hp. eapply P4; [exact Hx|]. apply elem_of_app. by left.
Qed.

Lemma proc_space_ext m m' tf T T' us : proc_space m tf T us -> trampoline m' = trampoline m ->
  (forall va, 0 <= va < MAXVA -> pte_of (ram m') T' va = pte_of (ram m) T va) -> proc_space m' tf T' us.
Proof.
  intros [S1 S2 S3 S4 S5] Ht Hp. destruct TRAPFRAME_eq as (ETF & ETR & EM). split; [done|..].
  - intros i p Hi. pose proof (lookup_lt_Some _ _ _ Hi). unfold leaf_at. rewrite Hp by (unfold PGSIZE in *; lia). by apply S2.
  - by rewrite Hp, Ht by (unfold PGSIZE in *; lia).
  - by rewrite Hp by (unfold PGSIZE in *; lia).
  - intros va Hv. rewrite Hp by (unfold PGSIZE in *; lia). by apply S5.
Qed.

(** The machine once [kalloc] has returned [q] and the page is zeroed. *)
Definition zeroed (q : Z) (m : machine) : machine := set_ram (Str.memset (ram (alloc_state q m)) q 0 PGSIZE) (alloc_state q m).

Lemma zeroed_out q m a : ~ in_page q a -> ld8 (ram (zeroed q m)) a = ld8 (ram m) a.
Proof. intros Ha. cbn [zeroed ram set_ram]. rewrite Str.ld8_memset_out by (unfold in_page in Ha; lia). by apply alloc_state_out. Qed.

Lemma zeroed_in q m a : in_page q a -> ld8 (ram (zeroed q m)) a = 0.
Proof. intros Ha. cbn [zeroed ram set_ram]. by rewrite Str.ld8_memset_in. Qed.

Section grow.
Context (pt tf : Z) (all : list Z) (m0 : machine) (T0 : ptree) (us0 : list Z).

Let n0 := Z.of_nat (length us0).
Let perm := Z.lor PTE_W (Z.lor PTE_X (Z.lor PTE_R PTE_U)).

(** The process with the pages [new] added: its old pages and their mappings are
    as in [m0], the new pages are zero and belong to the user. *)
Record grown (m : machine) (T : ptree) (new fr : list Z) : Prop := {
  gr_own : own_pages pt tf all m T (us0 ++ new) fr;
  gr_keep : keeps all m0 m;
  gr_pte va : 0 <= va < n0 * PGSIZE -> pte_of (ram m) T va = pte_of (ram m0) T0 va;
  gr_bytes q a : q ∈ tf :: us0 -> in_page q a -> ld8 (ram m) a = ld8 (ram m0) a;
  gr_new i q : new !! i = Some q ->
    pte_of (ram m) T ((n0 + Z.of_nat i) * PGSIZE) = Z.lor (Z.lor (PA2PTE q) perm) PTE_V /\
    forall a, in_page q a -> ld8 (ram m) a = 0;
}.

Lemma grown_start fr : own_pages pt tf all m0 T0 us0 fr -> grown m0 T0 [] fr.
Proof. intros H. split; [by rewrite app_nil_r|apply keeps_refl|done|done|done]. Qed.

(** Moving the last page to the free list, on paper. *)
Lemma accounts_snoc T us q fr : accounts T (us ++ [q]) fr all <-> accounts T us (q :: fr) all.
Proof.
  unfold accounts. split; intros (l & Hl & Hp); exists l; (split; [done|]); rewrite <- Hp; solve_Permutation.
Qed.

Lemma private_snoc e T us q fr : private e T fr (us ++ [q]) -> private e T (q :: fr) us.
Proof. intros H. eapply private_cons, private_perm; [exact H|]. solve_Permutation. Qed.

(** A page taken from the free list and tables made from others. *)
Lemma own_frame m m2 m3 T us q fr T3 fr3 : own_pages pt tf all m T us (q :: fr) ->
  vm_inv m2 pt T fr -> vm_frame m2 T fr m3 T3 fr3 -> vm_inv m3 pt T3 fr3 -> kend m3 = kend m ->
  accounts T3 (tf :: us ++ [q]) fr3 all /\ private (kend m3) T3 fr3 (tf :: us ++ [q]).
Proof.
  intros [Hi Hac Hpr _] Hi2 Hf Hi3 He. pose proof Hf as [HT Hps Hnew Hacc _ _].
  pose proof (inv_nodup _ _ (vm_kmem _ _ _ _ Hi)) as [Hqf _]%NoDup_cons.
  pose proof (inv_pages _ _ (vm_kmem _ _ _ _ Hi)) as [Hqok _]%Forall_cons.
  destruct Hpr as [P1 P2 P3 P4]. split.
  - apply (proj2 (accounts_snoc T (tf :: us) q fr)) in Hac as (l & Hl & Hp).
    destruct (accounts_frame m2 m3 pt T fr T3 fr3 (l ++ fr) Hi2 Hi3 Hf) as (l3 & Hl3 & Hp3); [by exists l|].
    exists l3. split; [done|]. cbn [app] in Hp, Hp3 |- *. by rewrite Hp3.
  - change (tf :: us ++ [q]) with ((tf :: us) ++ [q]). rewrite He. split.
    + intros p [Hp| ->%list_elem_of_singleton]%elem_of_app; [by apply P1|done].
    + apply NoDup_app. split; [done|]. split; [|apply NoDup_singleton].
      intros p Hp ->%list_elem_of_singleton. apply (P3 q Hp). left.
    + intros p Hp Hin. assert (p ∈ fr) by (by eapply elem_of_suffix). apply elem_of_app in Hp as [Hp| ->%list_elem_of_singleton]; [|done].
      apply (P3 p Hp). by right.
    + intros x p Hx Hp. destruct (T !! x) as [p'|] eqn:E.
      * rewrite (lookup_weaken _ _ _ _ E HT) in Hx. simplify_eq.
        apply elem_of_app in Hp as [Hp| ->%list_elem_of_singleton]; [by eapply P4|].
        apply (vm_sep _ _ _ _ Hi x q E). left.
      * pose proof (Hnew _ _ Hx E) as Hin. apply elem_of_app in Hp as [Hp| ->%list_elem_of_singleton]; [|done].
        apply (P3 p Hp). by right.
Qed.

(** The process's own pages and the page taken are neither tables nor free. *)
Lemma own_apart m T us q fr p a : own_pages pt tf all m T us (q :: fr) -> p ∈ tf :: us ++ [q] -> in_page p a ->
  (forall x r, T !! x = Some r -> ~ in_page r a) /\ (forall r, r ∈ fr -> ~ in_page r a).
Proof.
  intros [Hi _ [P1 _ P3 P4] _] Hp Ha. pose proof (vm_kmem _ _ _ _ Hi) as Hk. pose proof (inv_pages _ _ Hk) as Hpg.
  pose proof (inv_nodup _ _ Hk) as [Hqf _]%NoDup_cons.
  change (tf :: us ++ [q]) with ((tf :: us) ++ [q]) in Hp.
  assert (page_ok (kend m) p) as Hok.
  { apply elem_of_app in Hp as [Hp| ->%list_elem_of_singleton]; [by apply P1|]. by apply Forall_cons in Hpg as [? _]. }
  split.
  - intros x r Hx Hr. pose proof (rep_ok _ _ _ _ (vm_rep _ _ _ _ Hi) _ _ Hx) as Hrok.
    rewrite <- (in_page_disjoint _ _ _ _ Hok Hrok Ha Hr) in Hx. apply elem_of_app in Hp as [Hp| ->%list_elem_of_singleton]; [by eapply P4|].
    apply (vm_sep _ _ _ _ Hi _ _ Hx). left.
  - intros r Hr Hra. assert (page_ok (kend m) r) as Hrok by (eapply Forall_forall in Hpg; [done|by right]).
    rewrite <- (in_page_disjoint _ _ _ _ Hok Hrok Ha Hra) in Hr. apply elem_of_app in Hp as [Hp| ->%list_elem_of_singleton]; [|done].
    apply (P3 _ Hp). by right.
Qed.

Section step.
Context (m : machine) (T : ptree) (new : list Z) (q : Z) (fr : list Z).
Hypothesis HG : grown m T new (q :: fr).
Let n := n0 + Z.of_nat (length new).
Hypothesis Hmax : (n + 1) * PGSIZE <= TRAPFRAME.

Lemma zeroed_inv : vm_inv (zeroed q m) pt T fr /\ forall va, pte_of (ram (zeroed q m)) T va = pte_of (ram m) T va.
Proof using HG. apply vm_inv_fill; [apply HG|]. intros a. apply zeroed_out. Qed.

Lemma page_free va : n * PGSIZE <= va < TRAPFRAME -> pte_of (ram m) T va = 0.
Proof using HG.
  intros Hv. apply (sp_rest _ _ _ _ (op_space _ _ _ _ _ _ _ (gr_own _ _ _ _ HG))). rewrite length_app, Nat2Z.inj_add. exact Hv.
Qed.

(** The state in which [mappages] has made its tables. *)
Context (m3 : machine) (T3 : ptree) (fr3 : list Z).
Hypothesis Hi3 : vm_inv m3 pt T3 fr3.
Hypothesis Hf3 : vm_frame (zeroed q m) T fr m3 T3 fr3.

Lemma step_const : same_const m m3.
Proof using Hf3. destruct Hf3 as [_ _ _ _ _ (C1 & C2 & C3 & C4 & C5)]. done. Qed.

Lemma step_bytes p a : p ∈ tf :: (us0 ++ new) ++ [q] -> in_page p a -> ld8 (ram m3) a = ld8 (ram (zeroed q m)) a.
Proof using HG Hf3.
  intros Hp Ha. destruct (own_apart _ _ _ _ _ p a (gr_own _ _ _ _ HG) Hp Ha) as [H1 H2]. by apply (fr_other _ _ _ _ _ _ Hf3).
Qed.

Lemma step_old p a : p ∈ tf :: us0 ++ new -> in_page p a -> ld8 (ram m3) a = ld8 (ram m) a.
Proof using HG Hf3.
  intros Hp Ha. rewrite (step_bytes p); [|change (p ∈ (tf :: us0 ++ new) ++ [q]); apply elem_of_app; by left|done]. apply zeroed_out. intros Hq.
  pose proof (op_private _ _ _ _ _ _ _ (gr_own _ _ _ _ HG)) as [P1 _ P3 _].
  pose proof (inv_pages _ _ (vm_kmem _ _ _ _ (op_inv _ _ _ _ _ _ _ (gr_own _ _ _ _ HG)))) as [Hqok _]%Forall_cons.
  apply (P3 p Hp). rewrite (in_page_disjoint _ _ _ _ (P1 p Hp) Hqok Ha Hq). left.
Qed.

Lemma step_keeps : keeps all m0 m3.
Proof using HG Hf3.
  eapply keeps_trans; [apply (gr_keep _ _ _ _ HG)|]. split; [apply step_const|]. intros a Ha.
  pose proof (op_acc _ _ _ _ _ _ _ (gr_own _ _ _ _ HG)) as Hac.
  assert (forall p, p ∈ all -> ~ in_page p a) as Hn by (intros p Hp Hpa; apply Ha; by exists p).
  rewrite (fr_other _ _ _ _ _ _ Hf3).
  - apply zeroed_out, Hn, (accounts_elem _ _ _ _ _ Hac). right. right. left.
  - intros x p Hx. apply Hn, (accounts_elem _ _ _ _ _ Hac). eauto.
  - intros p Hp. apply Hn, (accounts_elem _ _ _ _ _ Hac). right. right. by right.
Qed.

Lemma perm_ok : 0 <= perm < 1024 /\ Z.lor perm PTE_V <> PTE_V.
Proof using. split; [split; by vm_compute|by vm_compute]. Qed.

Lemma step_acc : accounts T3 (tf :: (us0 ++ new) ++ [q]) fr3 all /\ private (kend m3) T3 fr3 (tf :: (us0 ++ new) ++ [q]).
Proof using HG Hi3 Hf3.
  eapply own_frame; [apply (gr_own _ _ _ _ HG)|apply zeroed_inv|exact Hf3|exact Hi3|apply step_const].
Qed.

Lemma step_add : (forall va, 0 <= va < MAXVA -> pte_of (ram m3) T3 va =
    if decide (PGROUNDDOWN va = n * PGSIZE) then Z.lor (Z.lor (PA2PTE q) perm) PTE_V else pte_of (ram (zeroed q m)) T va) ->
  grown m3 T3 (new ++ [q]) fr3.
Proof using All.
  intros Hpte. destruct step_acc as [Hac Hpr], zeroed_inv as [_ Hz], TRAPFRAME_eq as (ETF & ETR & EM), step_const as (C1 & _ & _ & _ & C5).
  pose proof (gr_own _ _ _ _ HG) as [Hi _ _ [S1 S2 S3 S4 S5]]. 
  assert (Z.of_nat (length (us0 ++ new)) = n) as En by (rewrite length_app; unfold n, n0; lia). rewrite En in S1, S5.
  assert (0 <= n * PGSIZE) as Hn by (unfold n, n0, PGSIZE; lia).
  assert (forall va, 0 <= va < n * PGSIZE \/ (n + 1) * PGSIZE <= va < MAXVA -> pte_of (ram m3) T3 va = pte_of (ram m) T va) as Hsame.
  { intros va Hv. rewrite Hpte, decide_False, Hz; [done| |unfold PGSIZE in *; lia].
    intros E%page_of_iff; [|unfold PGSIZE in *; lia|by apply Z.mod_mul]. unfold PGSIZE in *. lia. }
  assert (pte_of (ram m3) T3 (n * PGSIZE) = Z.lor (Z.lor (PA2PTE q) perm) PTE_V) as Hq.
  { rewrite Hpte, decide_True; [done| |unfold PGSIZE in *; lia]. apply PGROUNDDOWN_aligned. by apply Z.mod_mul. }
  rewrite <- app_assoc in Hac, Hpr. split.
  - assert (Z.of_nat (length (us0 ++ new ++ [q])) = n + 1) as En' by (rewrite !length_app; unfold n, n0; simpl; lia).
    split; [done..|]. split; rewrite ?En'; [done|..].
    + intros i p Hip. rewrite app_assoc in Hip. apply lookup_snoc_Some in Hip as [[Hlt Hip]|[-> <-]].
      * unfold leaf_at. rewrite Hsame by (unfold PGSIZE in *; lia). by apply S2.
      * rewrite En. destruct perm_ok as [? ?]. eapply mapped_leaf; [| | | |exact Hq]; [| |done..];
          (destruct (pr_ok _ _ _ _ Hpr q) as [? ?]; [set_solver +|]); [|done].
        pose proof (inv_end _ _ (vm_kmem _ _ _ _ Hi3)). unfold KERNBASE in *. lia.
    + rewrite Hsame, C5 by (unfold PGSIZE in *; lia). done.
    + rewrite Hsame by (unfold PGSIZE in *; lia). done.
    + intros va Hv. rewrite Hsame by (unfold PGSIZE in *; lia). apply S5. unfold PGSIZE in *. lia.
  - apply step_keeps.
  - intros va Hv. rewrite Hsame by (unfold n, PGSIZE in *; lia). by apply (gr_pte _ _ _ _ HG).
  - intros p a Hp Ha. rewrite (step_old p); [by eapply (gr_bytes _ _ _ _ HG)| |done]. set_solver +Hp.
  - intros i p [[Hlt Hip]|[-> <-]]%lookup_snoc_Some.
    + destruct (gr_new _ _ _ _ HG i p Hip) as [H1 H2]. split.
      * rewrite Hsame; [done|]. clear - Hlt. unfold n, n0, PGSIZE. lia.
      * intros a Ha. rewrite (step_old p); [by apply H2| |done]. apply list_elem_of_lookup_2 in Hip. set_solver +Hip.
    + split; [exact Hq|]. intros a Ha. rewrite (step_bytes q); [by apply zeroed_in|set_solver +|done].
Qed.

Lemma step_back : (forall va, 0 <= va < MAXVA -> pte_of (ram m3) T3 va = pte_of (ram (zeroed q m)) T va) ->
  kfree q m3 = Ret tt (free_state q m3) /\ grown (free_state q m3) T3 new (q :: fr3).
Proof using All.
  intros Hpte. destruct step_acc as [Hac Hpr], zeroed_inv as [_ Hz], step_const as (C1 & _ & _ & _ & C5).
  pose proof (gr_own _ _ _ _ HG) as [Hi _ _ [S1 S2 S3 S4 S5]].
  change (tf :: (us0 ++ new) ++ [q]) with ((tf :: us0 ++ new) ++ [q]) in Hac, Hpr.
  pose proof Hpr as [P1 P2 P3 P4].
  assert (q ∈ (tf :: us0 ++ new) ++ [q]) as Hqin by (apply elem_of_app; right; left).
  destruct (vm_inv_free m3 pt T3 fr3 q Hi3 (P1 q Hqin) (P3 q Hqin)) as [Hi4 Hpte4]; [intros x Hx; by eapply P4|].
  assert (forall a, ~ in_page q a -> ld8 (ram (free_state q m3)) a = ld8 (ram m3) a) as Hout by (intros a; apply free_state_out).
  split; [apply kfree_eq; [apply (vm_lock _ _ _ _ Hi3)|by apply P1|apply (inv_end _ _ (vm_kmem _ _ _ _ Hi3))]|].
  assert (forall va, 0 <= va < MAXVA -> pte_of (ram (free_state q m3)) T3 va = pte_of (ram m) T va) as Hsame.
  { intros va Hv. by rewrite Hpte4, Hpte, Hz. }
  assert (forall p a, p ∈ tf :: us0 ++ new -> in_page p a -> ld8 (ram (free_state q m3)) a = ld8 (ram m) a) as Hold.
  { intros p a Hp Ha. rewrite Hout; [by apply (step_old p)|]. intros Hqa. apply NoDup_app in P2 as (_ & P2 & _). apply (P2 p Hp).
    rewrite (in_page_disjoint _ _ _ _ (P1 p ltac:(apply elem_of_app; by left)) (P1 q Hqin) Ha Hqa). left. }
  destruct TRAPFRAME_eq as (ETF & ETR & EM). split.
  - split; [done|by apply accounts_snoc|by apply private_snoc|]. by eapply proc_space_ext; [apply (op_space _ _ _ _ _ _ _ (gr_own _ _ _ _ HG))|..].
  - eapply keeps_trans; [exact step_keeps|]. split; [done|]. intros a Ha. apply Hout. intros Hqa. apply Ha. exists q.
    split; [|done]. apply (accounts_elem _ _ _ _ _ Hac). by left.
  - intros va Hv. rewrite Hsame; [by apply (gr_pte _ _ _ _ HG)|]. unfold n, PGSIZE in *. lia.
  - intros p a Hp Ha. rewrite (Hold p); [by eapply (gr_bytes _ _ _ _ HG)| |done]. set_solver +Hp.
  - intros i p Hip. destruct (gr_new _ _ _ _ HG i p Hip) as [H1 H2]. pose proof (lookup_lt_Some _ _ _ Hip) as Hlt. split.
    + rewrite Hsame; [done|]. unfold n, n0, PGSIZE in *. lia.
    + intros a Ha. rewrite (Hold p); [by apply H2| |done]. apply list_elem_of_lookup_2 in Hip. set_solver +Hip.
Qed.
End step.
End grow.

(** ** Shrinking *)

Lemma PGROUNDUP_pages sz k : 0 <= sz -> sz <= k * PGSIZE < sz + PGSIZE -> k * PGSIZE <= TRAPFRAME -> PGROUNDUP sz = k * PGSIZE.
Proof.
  intros Hs Hk Hm. destruct TRAPFRAME_eq as (ETF & _). rewrite PGROUNDUP_eq by (unfold PGSIZE in *; lia). f_equal.
  unfold PGSIZE in *. Z.to_euclidean_division_equations. lia.
Qed.

Section shrink.
Context (pt tf : Z) (all : list Z).

(** The last pages are unmapped and free, the others as they were. *)
Record shrunk (m : machine) (T : ptree) (us1 fr : list Z) (m' : machine) : Prop := {
  sk_own : own_pages pt tf all m' T us1 fr;
  sk_keep : keeps all m m';
  sk_pte va : 0 <= va < Z.of_nat (length us1) * PGSIZE -> pte_of (ram m') T va = pte_of (ram m) T va;
  sk_bytes q a : q ∈ tf :: us1 -> in_page q a -> ld8 (ram m') a = ld8 (ram m) a;
}.

Lemma uvmunmap_tail m T us1 us2 fr : own_pages pt tf all m T (us1 ++ us2) fr ->
  exists m', uvmunmap pt (Z.of_nat (length us1) * PGSIZE) (Z.of_nat (length us2)) true m = Ret tt m' /\
    shrunk m T us1 (rev us2 ++ fr) m'.
Proof.
  intros [Hi Hac Hpr [S1 S2 S3 S4 S5]]. destruct TRAPFRAME_eq as (ETF & ETR & EM).
  set (a := Z.of_nat (length us1) * PGSIZE). rewrite length_app, Nat2Z.inj_add in S1.
  assert (a mod PGSIZE = 0) as Hal by (unfold a; by apply Z.mod_mul).
  assert (private (kend m) T fr us2 /\ private (kend m) T (rev us2 ++ fr) (tf :: us1)) as [Hp2 Hp1].
  { change (tf :: us1 ++ us2) with ((tf :: us1) ++ us2) in Hpr. by apply private_split. }
  destruct (uvmunmap_iter us2 pt a m T fr Hi) as (m' & E & Hi' & Hc & Hpte & Hout); try done.
  { unfold a, PGSIZE. lia. }
  { unfold a, PGSIZE in *. lia. }
  { intros i p Hip. unfold a. rewrite <- Z.mul_add_distr_r, <- Nat2Z.inj_add. apply S2. by rewrite lookup_app_r, Nat.add_comm, Nat.add_sub by lia. }
  exists m'. split; [|split].
  - unfold uvmunmap. rewrite Hal. cbn [negb Z.eqb]. rewrite !u64_small by (unfold a, PGSIZE in *; try rewrite u64_small; lia).
    apply (loop_exit (S (length us2))); [unfold PGSIZE in *; lia|exact E].
  - assert (forall va, 0 <= va < a \/ a + Z.of_nat (length us2) * PGSIZE <= va < MAXVA -> pte_of (ram m') T va = pte_of (ram m) T va) as Hsame.
    { intros va Hv. rewrite Hpte, decide_False by (unfold a, PGSIZE in *; lia). done. }
    split; [done| |by destruct Hc as [-> _]|split].
    + destruct Hac as (l & Hl & Hp). exists l. split; [done|]. rewrite <- Hp, <- Permutation_rev. solve_Permutation.
    + unfold PGSIZE in *. lia.
    + intros i p Hip. pose proof (lookup_lt_Some _ _ _ Hip). unfold leaf_at. rewrite Hsame by (unfold a, PGSIZE in *; lia).
      apply S2. by rewrite lookup_app_l.
    + rewrite Hsame by (unfold a, PGSIZE in *; lia). rewrite S3. do 3 f_equal. symmetry. apply Hc.
    + by rewrite Hsame by (unfold a, PGSIZE in *; lia).
    + intros va Hv. rewrite Hpte by (unfold PGSIZE in *; lia). case_decide as Hd; [done|]. apply S5. rewrite length_app, Nat2Z.inj_add.
      unfold a, PGSIZE in *. lia.
  - split; [done|]. intros b Hb. apply Hout.
    + intros x q Hx Hq. apply Hb. exists q. split; [|done]. apply (accounts_elem _ _ _ _ _ Hac). eauto.
    + intros q Hq Hqb. apply Hb. exists q. split; [|done]. apply (accounts_elem _ _ _ _ _ Hac). left. set_solver +Hq.
  - intros va Hv. rewrite Hpte, decide_False by (unfold a, PGSIZE in *; lia). done.
  - intros q b Hq Hqb. destruct Hp1 as [P1 P2 P3 P4]. apply Hout.
    + intros x r Hx Hr. pose proof (rep_ok _ _ _ _ (vm_rep _ _ _ _ Hi) _ _ Hx) as Hrok.
      rewrite <- (in_page_disjoint _ _ _ _ (P1 q Hq) Hrok Hqb Hr) in Hx. by eapply P4.
    + intros r Hr Hrb. rewrite <- (in_page_disjoint _ _ _ _ (P1 q Hq) (pr_ok _ _ _ _ Hp2 r Hr) Hqb Hrb) in Hr.
      apply (P3 q Hq), elem_of_app. left. by rewrite <- Permutation_rev.
Qed.

Lemma shrunk_refl m T us fr : own_pages pt tf all m T us fr -> shrunk m T us fr m.
Proof. intros H. split; [done|apply keeps_refl|done|done]. Qed.

Lemma uvmdealloc_spec m T us1 us2 fr oldsz newsz : own_pages pt tf all m T (us1 ++ us2) fr -> 0 <= newsz < oldsz ->
  newsz <= Z.of_nat (length us1) * PGSIZE < newsz + PGSIZE ->
  oldsz <= Z.of_nat (length (us1 ++ us2)) * PGSIZE < oldsz + PGSIZE ->
  exists m', uvmdealloc pt oldsz newsz m = Ret newsz m' /\ shrunk m T us1 (rev us2 ++ fr) m'.
Proof.
  intros Ho Hsz H1 H2. pose proof (sp_max _ _ _ _ (op_space _ _ _ _ _ _ _ Ho)) as Hmax. destruct TRAPFRAME_eq as (ETF & _).
  rewrite length_app, Nat2Z.inj_add in H2, Hmax. unfold uvmdealloc. rewrite (proj2 (Z.leb_gt _ _)) by lia.
  rewrite (PGROUNDUP_pages newsz _ ltac:(lia) H1), (PGROUNDUP_pages oldsz _ ltac:(lia) H2) by (unfold PGSIZE in *; lia).
  destruct us2 as [|q us2].
  - rewrite app_nil_r in Ho. exists m. rewrite (proj2 (Z.ltb_ge _ _)) by (simpl; unfold PGSIZE; lia). split; [done|]. by apply shrunk_refl.
  - destruct (uvmunmap_tail m T us1 (q :: us2) fr Ho) as (m' & E & Hs). exists m'. split; [|done].
    rewrite (proj2 (Z.ltb_lt _ _)) by (simpl; unfold PGSIZE; lia). rewrite <- Z.mul_sub_distr_r, Z.div_mul by done.
    replace (_ + _ - _) with (Z.of_nat (length (q :: us2))) by lia. unfold PGSIZE in Hmax.
    rewrite i32_small, u64_small by lia. by erewrite bind_Ret by exact E.
Qed.
End shrink.

(** ** Growing *)

Section alloc.
Context (pt tf : Z) (all : list Z) (m0 : machine) (T0 : ptree) (us0 : list Z).
Let n0 := Z.of_nat (length us0).

(** The error exit: the pages allocated so far are freed. *)
Lemma grow_undo m T new fr : grown pt tf all m0 T0 us0 m T new fr ->
  exists r m' fr', uvmdealloc pt ((n0 + Z.of_nat (length new)) * PGSIZE) (n0 * PGSIZE) m = Ret r m' /\
    grown pt tf all m0 T0 us0 m' T [] fr'.
Proof using.
  intros HG. destruct new as [|q new].
  { eexists _, m, fr. split; [|exact HG]. unfold uvmdealloc. by rewrite Z.add_0_r, Z.leb_refl. }
  destruct (uvmdealloc_spec pt tf all m T us0 (q :: new) fr ((n0 + Z.of_nat (length (q :: new))) * PGSIZE) (n0 * PGSIZE) (gr_own _ _ _ _ _ _ _ _ _ _ HG))
    as (m' & E & [Ho Hk Hp Hb]).
  - unfold n0. simpl. unfold PGSIZE. lia.
  - unfold n0, PGSIZE. lia.
  - rewrite length_app, Nat2Z.inj_add. fold n0. unfold PGSIZE. lia.
  - eexists _, m', _. split; [exact E|]. split; [by rewrite app_nil_r|eapply keeps_trans; [apply HG|done]| | |done].
    + intros va Hv. rewrite Hp by done. by apply (gr_pte _ _ _ _ _ _ _ _ _ _ HG).
    + intros p a Hp' Ha. rewrite (Hb p) by done. by apply (gr_bytes _ _ _ _ _ _ _ _ _ _ HG p).
Qed.

Context (newsz : Z) (N : nat).
Hypothesis Hsz : newsz <= (n0 + Z.of_nat N) * PGSIZE < newsz + PGSIZE.
Hypothesis Hmax : (n0 + Z.of_nat N) * PGSIZE <= TRAPFRAME.

(** One round. *)
Lemma uvmalloc_step m T new fr : grown pt tf all m0 T0 us0 m T new fr -> (length new < N)%nat ->
  let a := (n0 + Z.of_nat (length new)) * PGSIZE in
  (exists q m' T' fr', uvmalloc_body pt (n0 * PGSIZE) newsz a m = Ret (inl (a + PGSIZE)) m' /\
     grown pt tf all m0 T0 us0 m' T' (new ++ [q]) fr' /\ (length fr <= length fr' + 3)%nat) \/
  (exists m' T' fr', uvmalloc_body pt (n0 * PGSIZE) newsz a m = Ret (inr 0) m' /\
     grown pt tf all m0 T0 us0 m' T' [] fr' /\ (length fr <= 3)%nat).
Proof using Hsz Hmax.
  intros HG Hlt a. pose proof (op_inv _ _ _ _ _ _ _ (gr_own _ _ _ _ _ _ _ _ _ _ HG)) as Hi.
  assert (0 <= a /\ a + PGSIZE <= TRAPFRAME /\ a < newsz) as (Ha & Hat & Han) by (unfold a, n0, PGSIZE in *; lia).
  destruct TRAPFRAME_eq as (ETF & ETR & EM). unfold uvmalloc_body. rewrite (proj2 (Z.ltb_lt _ _) Han).
  pose proof (kalloc_spec _ _ (vm_kmem _ _ _ _ Hi) (vm_lock _ _ _ _ Hi)) as Hk. destruct fr as [|q fr].
  { right. destruct (grow_undo m T new [] HG) as (r & m' & fr' & E & HG'). exists m', T, fr'.
    erewrite bind_Ret by exact Hk. cbn [Z.eqb]. erewrite bind_Ret by exact E. split; [done|]. split; [done|]. simpl. lia. }
  destruct Hk as [Ek _]. destruct (head_nonzero _ _ _ (vm_kmem _ _ _ _ Hi)) as [_ Hq0].
  pose proof (inv_pages _ _ (vm_kmem _ _ _ _ Hi)) as [Hqok _]%Forall_cons. pose proof (inv_end _ _ (vm_kmem _ _ _ _ Hi)) as He.
  erewrite bind_Ret by exact Ek. rewrite (proj2 (Z.eqb_neq _ _) Hq0). erewrite bind_Ret by reflexivity.
  change (set_ram _ (alloc_state q m)) with (zeroed q m).
  destruct (zeroed_inv pt tf all m0 T0 us0 m T new q fr HG) as [Hi2 Hz].
  destruct (mappages_page pt a q (Z.lor PTE_W (Z.lor PTE_X (Z.lor PTE_R PTE_U))) (zeroed q m) T fr Hi2)
    as (r & m3 & T3 & fr3 & E3 & Hi3 & Hf3 & Hl3 & Hr3).
  - unfold PGSIZE in *. lia.
  - unfold a. by apply Z.mod_mul.
  - destruct Hqok as [_ ?]. unfold KERNBASE in *. lia.
  - by vm_compute.
  - rewrite Hz, (page_free pt tf all m0 T0 us0 m T new q fr HG); [done|]. fold n0. fold a. unfold PGSIZE in *. lia.
  - erewrite bind_Ret by exact E3. destruct Hr3 as [[-> Hp3]|(-> & -> & Hp3)].
    + left. exists q, m3, T3, fr3. cbn [Z.eqb negb]. rewrite u64_small by (unfold PGSIZE in *; lia). split; [done|].
      split; [|simpl; lia]. eapply step_add; [exact HG| |exact Hi3|exact Hf3|exact Hp3]. fold n0. unfold a in Hat. unfold PGSIZE in *. lia.
    + right. destruct (step_back pt tf all m0 T0 us0 m T new q fr HG) with (m3 := m3) (T3 := T3) (fr3 := @nil Z) as [Ef HG3]; try done.
      { fold n0. unfold a in Hat. unfold PGSIZE in *. lia. }
      destruct (grow_undo _ _ _ _ HG3) as (r & m' & fr' & E & HG'). exists m', T3, fr'. cbn [Z.eqb negb].
      erewrite bind_Ret by exact Ef. erewrite bind_Ret by exact E. split; [done|]. split; [done|]. simpl in *. lia.
Qed.

Lemma uvmalloc_iter k m T new fr : grown pt tf all m0 T0 us0 m T new fr -> (length new + k)%nat = N ->
  exists r m' T' new' fr',
    iter_n (S k) (uvmalloc_body pt (n0 * PGSIZE) newsz) ((n0 + Z.of_nat (length new)) * PGSIZE) m = Ret (inr r) m' /\
    grown pt tf all m0 T0 us0 m' T' new' fr' /\
    (r = newsz /\ length new' = N \/ r = 0 /\ new' = [] /\ (length fr <= 3 * k)%nat).
Proof using Hsz Hmax.
  revert m T new fr; induction k as [|k IH]; intros m T new fr HG Hk.
  - exists newsz, m, T, new, fr. rewrite iter_n_1. split; [|split; [done|left; split; [done|lia]]].
    unfold uvmalloc_body. rewrite (proj2 (Z.ltb_ge _ _)); [done|]. replace (length new) with N by lia. apply Hsz.
  - destruct (uvmalloc_step m T new fr HG) as [(q & m1 & T1 & fr1 & E & HG1 & Hl)|(m1 & T1 & fr1 & E & HG1 & Hl)]; [lia|..].
    + rewrite (iter_n_inl _ _ _ _ _ _ E).
      destruct (IH m1 T1 (new ++ [q]) fr1 HG1) as (r & m' & T' & new' & fr' & E' & HG' & Hr); [rewrite length_app; simpl; lia|].
      exists r, m', T', new', fr'. split; [|split; [done|]].
      * rewrite <- E'. f_equal. rewrite length_app. unfold PGSIZE. simpl. lia.
      * destruct Hr as [?|(? & ? & ?)]; [by left|right]. split_and!; [done..|lia].
    + exists 0, m1, T1, [], fr1. rewrite (iter_n_inr _ _ _ _ _ _ E). split; [done|]. split; [done|]. right. split_and!; [done..|lia].
Qed.

Lemma uvmalloc_spec oldsz fr : own_pages pt tf all m0 T0 us0 fr -> 0 <= oldsz <= newsz -> oldsz <= n0 * PGSIZE < oldsz + PGSIZE ->
  exists r m' T' new fr', uvmalloc pt oldsz newsz m0 = Ret r m' /\ grown pt tf all m0 T0 us0 m' T' new fr' /\
    (r = newsz /\ length new = N \/ r = 0 /\ new = [] /\ (length fr <= 3 * N)%nat).
Proof using Hsz Hmax.
  intros Ho Hold Hn. destruct (uvmalloc_iter N m0 T0 [] fr (grown_start _ _ _ _ _ _ _ Ho)) as (r & m' & T' & new & fr' & E & HG & Hr); [done|].
  exists r, m', T', new, fr'. split; [|done]. unfold uvmalloc. rewrite (proj2 (Z.ltb_ge _ _)) by lia.
  rewrite (PGROUNDUP_pages oldsz n0) by (done || unfold PGSIZE in *; lia).
  destruct TRAPFRAME_eq as (ETF & _). apply (loop_exit (S N)); [unfold n0, PGSIZE in *; lia|]. by rewrite Z.add_0_r in E.
Qed.
End alloc.

(** ** growproc *)

(** The caller of [growproc]: process [p] in slot [x] with the pages [us]. *)
Record grow_ready (s : kstate) (p : nat) (x : proc) (T : ptree) (us fr all : list Z) : Prop := {
  gw_cur : cpu_proc s = Some p;
  gw_slot : procs s !! p = Some x;
  gw_own : own_pages (p_pagetable x) (p_trapframe x) all (mach s) T us fr;
  gw_size : 0 <= p_sz x < 2 ^ 31;
  gw_cover : p_sz x <= Z.of_nat (length us) * PGSIZE < p_sz x + PGSIZE;
}.

(** The number of pages [sz] bytes take. *)
Lemma pages_exist sz : 0 <= sz -> exists k : nat, sz <= Z.of_nat k * PGSIZE < sz + PGSIZE.
Proof.
  intros Hs. exists (Z.to_nat ((sz + PGSIZE - 1) / PGSIZE)). rewrite Z2Nat.id by (apply Z.div_pos; unfold PGSIZE; lia).
  unfold PGSIZE. Z.to_euclidean_division_equations. lia.
Qed.

(** C5: [growproc n] for a process of [sz] bytes.  For [n] positive it adds
    as many zeroed pages of the user as [sz + n] bytes need, and the size is
    [sz + n]; or, when memory runs out, it gives all pages back, except for
    tables that stay in place, and returns -1 with the process as it was.
    For [n] negative the pages above [sz + n] are unmapped and free.  In
    each case the other pages of the process, their mappings and the trap
    frame are unchanged and no page is lost.  Shrinking by more than [sz]
    does nothing, and reports success. *)
Theorem growproc_correct s p x T us fr all n : grow_ready s p x T us fr all -> - 2 ^ 31 <= n < 2 ^ 31 ->
  let sz := p_sz x in
  (0 < n -> exists N m' T' new fr', sz + n <= Z.of_nat (length us + N) * PGSIZE < sz + n + PGSIZE /\
     grown (p_pagetable x) (p_trapframe x) all (mach s) T us m' T' new fr' /\
     (growproc n s = Ret 0 (slot p (set_p_sz (sz + n) x) (set_mach m' s)) /\ length new = N \/
      growproc n s = Ret (-1) (set_mach m' s) /\ new = [] /\ (length fr <= 3 * N)%nat)) /\
  (n < 0 -> 0 <= sz + n -> exists us1 us2 m', us = us1 ++ us2 /\
     sz + n <= Z.of_nat (length us1) * PGSIZE < sz + n + PGSIZE /\
     shrunk (p_pagetable x) (p_trapframe x) all (mach s) T us1 (rev us2 ++ fr) m' /\
     growproc n s = Ret 0 (slot p (set_p_sz (sz + n) x) (set_mach m' s))) /\
  (n = 0 \/ sz + n < 0 -> growproc n s = Ret 0 s).
Proof.
  intros [Hc Hx Ho Hsz Hcov] Hn sz. pose proof (sp_max _ _ _ _ (op_space _ _ _ _ _ _ _ Ho)) as Hmax. destruct TRAPFRAME_eq as (ETF & _).
  pose proof (lookup_lt_Some _ _ _ Hx) as Hp. unfold sz in *. clear sz.
  assert (forall m v, proc_upd p (set_p_sz v) (set_mach m s) = Ret tt (slot p (set_p_sz v x) (set_mach m s))) as Hup.
  { intros m v. by apply proc_upd_eq. }
  assert (slot p (set_p_sz (p_sz x) x) (set_mach (mach s) s) = s) as Eid.
  { unfold slot. rewrite list_insert_id by (by destruct x). by destruct s. }
  split; [|split].
  - intros Hpos. destruct (pages_exist (p_sz x + n)) as [k Hk]; [lia|].
    assert (exists N, k = (length us + N)%nat) as [N ->] by (exists (k - length us)%nat; unfold PGSIZE in *; lia).
    destruct (uvmalloc_spec (p_pagetable x) (p_trapframe x) all (mach s) T us (p_sz x + n) N) with (oldsz := p_sz x) (fr := fr)
      as (r & m' & T' & new & fr' & E & HG & Hr); try done; try (unfold PGSIZE in *; lia).
    exists N, m', T', new, fr'. split; [done|]. split; [done|]. unfold growproc.
    erewrite !bind_Ret by by apply curproc_eq. erewrite !bind_Ret by by apply proc_at_eq. cbv zeta.
    rewrite (proj2 (Z.ltb_lt _ _) Hpos), !u32_small by lia. erewrite !bind_Ret by (apply vm_ret; exact E).
    destruct Hr as [[-> Hl]|(-> & -> & Hl)]; [left|right; done]. split; [|done].
    rewrite u32_small, (proj2 (Z.eqb_neq _ _)) by lia. by erewrite bind_Ret by apply Hup.
  - intros Hneg Hle. destruct (pages_exist (p_sz x + n) Hle) as [k Hk].
    assert (k <= length us)%nat as Hkl by (unfold PGSIZE in *; lia). rewrite <- (take_drop k us) in Ho, Hcov.
    destruct (uvmdealloc_spec (p_pagetable x) (p_trapframe x) all (mach s) T (take k us) (drop k us) fr (p_sz x) (p_sz x + n) Ho) as (m' & E & Hs);
      [lia|by rewrite length_take_le|done|].
    exists (take k us), (drop k us), m'. rewrite length_take_le by done. split; [by rewrite take_drop|]. split; [done|]. split; [done|].
    unfold growproc. erewrite !bind_Ret by by apply curproc_eq. erewrite !bind_Ret by by apply proc_at_eq. cbv zeta.
    rewrite (proj2 (Z.ltb_ge _ _)), (proj2 (Z.ltb_lt _ _) Hneg), !u32_small by lia. erewrite !bind_Ret by (apply vm_ret; exact E).
    rewrite u32_small by lia. by erewrite bind_Ret by apply Hup.
  - intros Hor. unfold growproc. erewrite !bind_Ret by by apply curproc_eq. erewrite !bind_Ret by by apply proc_at_eq. cbv zeta.
    rewrite (proj2 (Z.ltb_ge _ _)) by lia. rewrite (u32_small (p_sz x)) by lia. rewrite <- Eid at 2. destruct (n <? 0) eqn:En.
    + assert (u32 (p_sz x + n) = p_sz x + n + 2 ^ 32) as Ew.
      { apply Z.ltb_lt in En. unfold u32. rewrite <- (Z.mod_add _ 1) by done. apply Z.mod_small. lia. }
      assert (uvmdealloc (p_pagetable x) (p_sz x) (u32 (p_sz x + n)) (mach s) = Ret (p_sz x) (mach s)) as E.
      { unfold uvmdealloc. apply Z.ltb_lt in En. rewrite Ew, (proj2 (Z.leb_le _ _)) by lia. done. }
      erewrite bind_Ret by (apply vm_ret; exact E). rewrite u32_small by lia. by erewrite bind_Ret by apply Hup.
    + rewrite <- (set_mach_id s) at 1. by erewrite bind_Ret by apply Hup.
Qed.

(** ** A process fresh from allocproc, of size 0 *)

Definition grow_state : kstate :=
  match allocproc fork_state with Ret _ s => set_cpu_proc (Some 1%nat) (set_held [] s) | _ => fork_state end.

#[local] Opaque allocproc.

Lemma grow_state_ready : exists x T fr, grow_ready grow_state 1 x T [] fr fork_pages /\ p_sz x = 0 /\ (4 <= length fr)%nat.
Proof.
  destruct fork_state_alloc as (m & tf & pt & T & fr & E & Htf & Hpt & Hl & Hi & Hac & Hsp & Hpr & _).
  assert (grow_state = set_cpu_proc (Some 1%nat)
    (slot 1 (alloc_slot zero_proc 2 tf pt) (set_mach (set_mlocks [] m) (set_nextpid 3 fork_state)))) as ->.
  { unfold grow_state. rewrite E. reflexivity. }
  clear E. exists (alloc_slot zero_proc 2 tf pt), T, fr. split; [|done]. split; [done|done| |by cbn|by cbn].
  split; [|done|done|by destruct Hsp]. destruct Hi as [[] ? ? ?]. split; [by split|apply not_elem_of_nil|done|done].
Qed.

(** One page is enough for 100 bytes, and there is memory for it. *)
Lemma growproc_correct_witness : exists x T m' T' new fr',
  grown (p_pagetable x) (p_trapframe x) fork_pages (mach grow_state) T [] m' T' new fr' /\ length new = 1%nat /\
  growproc 100 grow_state = Ret 0 (slot 1 (set_p_sz 100 x) (set_mach m' grow_state)).
Proof.
  destruct grow_state_ready as (x & T & fr & HR & Hsz & Hl).
  destruct (proj1 (growproc_correct grow_state 1 x T [] fr fork_pages 100 HR ltac:(lia)) ltac:(lia)) as (N & m' & T' & new & fr' & HN & HG & Hr).
  rewrite Hsz in HN. assert (N = 1%nat) as -> by (simpl in HN; unfold PGSIZE in HN; clear - HN; lia).
  destruct Hr as [[E Hlen]|(E & _ & Hbad)]; [|clear - Hl Hbad; lia].
  rewrite Hsz in E. exact (ex_intro _ x (ex_intro _ T (ex_intro _ m' (ex_intro _ T' (ex_intro _ new (ex_intro _ fr' (conj HG (conj Hlen E)))))))).
Defined.
