(* ===== verification/Sleeplock.v ===== *)
(** * kernel/sleeplock.c

    Locks that give up the CPU while they wait.  The sleep locks of the kernel
    are those of the buffers and the inodes. *)

From S2P Require Import Prelude Riscv Locks Kalloc Kstate Proc.
Import Proc.

Module Sleeplock.

Inductive slref := SLbuf (i : nat) | SLinode (i : nat).

(** The spinlock [lk->lk] and the wait channel [lk]. *)
Definition sl_lock (r : slref) : lockid :=
  match r with SLbuf i => ("sleep lock: buffer", Z.of_nat i) | SLinode i => ("sleep lock: inode", Z.of_nat i) end.
Definition sl_chan (r : slref) : chan :=
  match r with SLbuf i => ("buffer", Z.of_nat i) | SLinode i => ("inode", Z.of_nat i) end.

Definition sl_get (r : slref) : M kstate sleeplock :=
  match r with
  | SLbuf i => (b <- buf_at i; ret (b_lock b))%K
  | SLinode i => (x <- inode_at i; ret (i_lock x))%K
  end.
Definition sl_set (r : slref) (l : sleeplock) : M kstate unit :=
  match r with
  | SLbuf i => buf_upd i (set_b_lock l)
  | SLinode i => inode_upd i (set_i_lock l)
  end.

Definition initsleeplock (r : slref) : M kstate unit :=
  (initlock (sl_lock r);; sl_set r (MkSleeplock 0 0))%K.

(** [while (lk->locked) sleep(lk, &lk->lk);] *)
Definition acquiresleep_body (r : slref) (_ : unit) : M kstate (unit + unit) :=
  (l <- sl_get r;
   if negb (sl_locked l =? 0) then sleep (sl_chan r) (sl_lock r);; ret (inl tt)
   else ret (inr tt))%K.

Definition acquiresleep (r : slref) : M kstate unit :=
  (acquire (sl_lock r);;
   loop (acquiresleep_body r) tt;;
   p <- curproc;
   x <- proc_at p;
   sl_set r (MkSleeplock 1 (p_pid x));;
   release (sl_lock r))%K.

Definition releasesleep (r : slref) : M kstate unit :=
  (acquire (sl_lock r);;
   sl_set r (MkSleeplock 0 0);;
   wakeup (sl_chan r);;
   release (sl_lock r))%K.

Definition holdingsleep (r : slref) : M kstate bool :=
  (acquire (sl_lock r);;
   l <- sl_get r;
   p <- curproc;
   x <- proc_at p;
   let v := negb (sl_locked l =? 0) && (sl_pid l =? p_pid x) in
   release (sl_lock r);;
   ret v)%K.

End Sleeplock.
