(* ===== verification/SleeplockSpec.v ===== *)
(** * Sleep locks: what their operations do

    Run by a thread that holds no spinlock. *)

From S2P Require Import Prelude Mem Riscv Locks Kalloc Kstate Proc ProcSpec Sleeplock.
Import Proc Sleeplock.

(** Process [p], whose slot is [x], runs and holds no spinlock. *)
Definition thread (p : nat) (x : proc) (s : kstate) : Prop :=
  cpu_proc s = Some p /\ procs s !! p = Some x /\ ptab_ok s /\ held s = [].

Lemma thread_unlocked p x s l : thread p x s -> l ∉ held s.
Proof. intros (_ & _ & _ & ->). apply not_elem_of_nil. Qed.

(** A sleep lock in the state, and the state with another one in its place. *)
Definition sl_at (r : slref) (s : kstate) : option sleeplock :=
  match r with
  | SLbuf i => b_lock <$> bufs s !! i
  | SLinode i => i_lock <$> itable s !! i
  end.
Definition sl_put (r : slref) (l : sleeplock) (s : kstate) : kstate :=
  match r with
  | SLbuf i => set_bufs (alter (set_b_lock l) i (bufs s)) s
  | SLinode i => set_itable (alter (set_i_lock l) i (itable s)) s
  end.

Lemma sl_get_eq r l s : sl_at r s = Some l -> sl_get r s = Ret l s.
Proof.
  destruct r; simpl; intros (x & Hx & ->)%fmap_Some; unfold bind, buf_at, inode_at; by rewrite Hx.
Qed.

Lemma sl_set_eq r l l' s : sl_at r s = Some l -> sl_set r l' s = Ret tt (sl_put r l' s).
Proof.
  destruct r; simpl; intros (x & Hx & ->)%fmap_Some; unfold buf_upd, inode_upd; rewrite Hx;
    by erewrite alter_insert.
Qed.

Lemma sl_put_held r l h s : sl_put r l (set_held h s) = set_held h (sl_put r l s).
Proof. by destruct r. Qed.

(** ** The operations *)

Section ops.
Context (p : nat) (x : proc) (r : slref) (l : sleeplock) (s : kstate).
Context (Ht : thread p x s) (Hl : sl_at r s = Some l).


Let s1 := set_held [sl_lock r] s.

Lemma sl_enter {A} (k : M kstate A) : bind (acquire (sl_lock r)) (fun _ => k) s = k s1.
Proof.
  destruct Ht as (_ & _ & _ & Hh).
  rewrite (bind_Ret _ _ _ tt s1); [done|]. rewrite acquire_eq; rewrite Hh; [done|]. apply not_elem_of_nil.
Qed.

Lemma sl_at_s1 : sl_at r s1 = Some l.
Proof. by destruct r. Qed.

Lemma holdingsleep_eq :
  holdingsleep r s = Ret (negb (sl_locked l =? 0) && (sl_pid l =? p_pid x)) s.
Proof.
  destruct Ht as (Hc & Hx & _ & Hh). unfold holdingsleep. rewrite sl_enter.
  erewrite bind_Ret by (apply sl_get_eq, sl_at_s1). erewrite bind_Ret by by apply curproc_eq.
  erewrite bind_Ret by by apply proc_at_eq.
  erewrite bind_Ret by by apply (release_head _ []). cbn. f_equal. unfold s1. destruct s as [[]].
  simpl in *. by subst.
Qed.

Lemma acquiresleep_free : sl_locked l = 0 ->
  acquiresleep r s = Ret tt (sl_put r (MkSleeplock 1 (p_pid x)) s).
Proof.
  intros El. destruct Ht as (Hc & Hx & _ & Hh). unfold acquiresleep. rewrite sl_enter.
  erewrite bind_Ret.
  2:{ apply (loop_exit 1); [lia|]. rewrite iter_n_1. unfold acquiresleep_body.
      erewrite bind_Ret by (apply sl_get_eq, sl_at_s1). by rewrite El. }
  erewrite bind_Ret by by apply curproc_eq. erewrite bind_Ret by by apply proc_at_eq.
  erewrite bind_Ret by (apply (sl_set_eq r l), sl_at_s1). unfold s1. rewrite sl_put_held.
  rewrite (release_head _ []) by done. rewrite set_held_twice. f_equal.
  destruct r, s as [[]]; simpl in *; by subst.
Qed.

Lemma acquiresleep_busy : sl_locked l <> 0 ->
  exists k, acquiresleep r s = Switch (asleep_on (sl_chan r) p x s) k.
Proof.
  intros El. destruct Ht as (Hc & Hx & _ & Hh). unfold acquiresleep. rewrite sl_enter.
  destruct (sleep_switch (sl_chan r) (sl_lock r) p x s1) as [k Hk];
    [done|done|done|by destruct r|]. unfold bind at 1.
  destruct (loop_switch (acquiresleep_body r) tt s1 (asleep_on (sl_chan r) p x s1)
              (fun t => bindr (k t) (fun _ => ret (inl tt)))) as [k' Hk'].
  { unfold acquiresleep_body. erewrite bind_Ret by (apply sl_get_eq, sl_at_s1).
    apply Z.eqb_neq in El. rewrite El. cbn [negb]. unfold bind. by rewrite Hk. }
  rewrite Hk'. cbn [bindr]. eexists. reflexivity.
Qed.

Lemma releasesleep_eq :
  releasesleep r s = Ret tt (set_procs (imap (wake (sl_chan r) (Some p)) (procs s))
                              (sl_put r (MkSleeplock 0 0) s)).
Proof.
  destruct Ht as (Hc & Hx & Hp & Hh). unfold releasesleep. rewrite sl_enter.
  erewrite bind_Ret by (apply (sl_set_eq r l), sl_at_s1). unfold s1. rewrite sl_put_held.
  erewrite bind_Ret.
  2:{ apply wakeup_spec; [by destruct r|]. intros i _. rewrite held_set_held.
      intros Hi%list_elem_of_singleton. by destruct r. }
  rewrite (release_head _ []) by done. f_equal. destruct r, s as [[]]; simpl in *; by subst.
Qed.

End ops.

(** Waking others leaves the running process as it is. *)
Lemma wake_self c p x ps : ps !! p = Some x -> imap (wake c (Some p)) ps !! p = Some x.
Proof. intros Hx. rewrite list_lookup_imap, Hx. simpl. unfold wake. by rewrite decide_True. Qed.
