(* ===== verification/Uart.v ===== *)
(** * kernel/uart.c and kernel/printf.c

    The 16550 driver and the kernel's printf.  The device is its sequence of
    readings of LSR and RHR, and the bytes it has taken.  Once the readings are
    used up the device is idle with no input.  A panicked kernel does not run
    on, so the loops on [panicked] are not reached.  [push_off] and
    [pop_off] in [uartputc_sync] cancel out, as no interrupt arrives between
    them. *)

From S2P Require Import Prelude Riscv Locks Kalloc Kstate Proc.
Import Proc.

Module Uart.

Abbreviation LSR_RX_READY := (Z.shiftl 1 0)%Z.
Abbreviation LSR_TX_IDLE := (Z.shiftl 1 5)%Z.
Definition UART_TX_BUF_SIZE : Z := 32.
Definition uart_tx_lock : lockid := ("uart", 0).
Definition uart_chan : chan := ("uart_tx_r", 0).

Definition upd_uart (f : uart -> uart) : M kstate unit := modify (fun s => set_uartst (f (uartst s)) s).

Definition read_LSR : M kstate Z :=
  (u <- gets uartst;
   let v := hd LSR_TX_IDLE (lsr_in u) in
   upd_uart (fun u => set_thr_empty (negb (Z.land v LSR_TX_IDLE =? 0)) (set_lsr_in (tl (lsr_in u)) u));;
   ret v)%K.
Definition read_RHR : M kstate Z :=
  (u <- gets uartst;
   match rhr_in u with
   | [] => ret 0
   | v :: vs => upd_uart (set_rhr_in vs);; ret v
   end)%K.
(** A byte written before LSR shows the register empty is lost. *)
Definition write_THR (c : Z) : M kstate unit :=
  upd_uart (fun u => if thr_empty u then set_thr_empty false (set_thr_out (thr_out u ++ [u8 c]) u) else u).

(** The other registers are written once, at boot. *)
(** The registers uartinit writes: line control, FIFO control and interrupt
    enable; registers 0 and 1 hold the baud rate while the latch bit is set. *)
Definition IER : Z := 1.
Definition IER_RX_ENABLE : Z := Z.shiftl 1 0.
Definition IER_TX_ENABLE : Z := Z.shiftl 1 1.
Definition FCR : Z := 2.
Definition FCR_FIFO_ENABLE : Z := Z.shiftl 1 0.
Definition FCR_FIFO_CLEAR : Z := Z.shiftl 3 1.
Definition LCR : Z := 3.
Definition LCR_EIGHT_BITS : Z := Z.shiftl 3 0.
Definition LCR_BAUD_LATCH : Z := Z.shiftl 1 7.
Definition WriteReg (reg v : Z) : M kstate unit := reg_write (UART0 + reg) v.

Definition uartinit : M kstate unit :=
  (WriteReg IER 0x00;;
   WriteReg LCR LCR_BAUD_LATCH;;
   WriteReg 0 0x03;;
   WriteReg 1 0x00;;
   WriteReg LCR LCR_EIGHT_BITS;;
   WriteReg FCR (Z.lor FCR_FIFO_ENABLE FCR_FIFO_CLEAR);;
   WriteReg IER (Z.lor IER_TX_ENABLE IER_RX_ENABLE);;
   initlock uart_tx_lock)%K.

Definition uartstart_body (_ : unit) : M kstate (unit + unit) :=
  (u <- gets uartst;
   if tx_w u =? tx_r u then ret (inr tt)
   else
     lsr <- read_LSR;
     if Z.land lsr LSR_TX_IDLE =? 0 then ret (inr tt)
     else
       let c := nth (Z.to_nat (tx_r u mod UART_TX_BUF_SIZE)) (tx_buf u) 0 in
       upd_uart (fun u => set_tx_r (u64 (tx_r u + 1)) u);;
       wakeup uart_chan;;
       write_THR c;;
       ret (inl tt))%K.

Definition uartstart : M kstate unit := loop uartstart_body tt.

Definition uartputc_body (c : Z) (_ : unit) : M kstate (unit + unit) :=
  (u <- gets uartst;
   if tx_w u =? u64 (tx_r u + UART_TX_BUF_SIZE) then
     sleep uart_chan uart_tx_lock;;
     ret (inl tt)
   else
     upd_uart (fun u => set_tx_buf (<[Z.to_nat (tx_w u mod UART_TX_BUF_SIZE) := u8 c]> (tx_buf u)) u);;
     upd_uart (fun u => set_tx_w (u64 (tx_w u + 1)) u);;
     uartstart;;
     release uart_tx_lock;;
     ret (inr tt))%K.

Definition uartputc (c : Z) : M kstate unit :=
  (acquire uart_tx_lock;; loop (uartputc_body c) tt)%K.

(** [while((ReadReg(LSR) & LSR_TX_IDLE) == 0);] then the write. *)
Definition uartputc_sync (c : Z) : M kstate unit :=
  (loop (fun _ : unit =>
     lsr <- read_LSR; ret (if Z.land lsr LSR_TX_IDLE =? 0 then inl tt else inr tt)) tt;;
   write_THR c)%K.

Definition uartgetc : M kstate Z :=
  (lsr <- read_LSR;
   if negb (Z.land lsr LSR_RX_READY =? 0) then read_RHR else ret (-1))%K.

(** ** Console output and printf *)

Abbreviation BACKSPACE := (0x100)%Z.

Definition consputc (c : Z) : M kstate unit :=
  (if c =? BACKSPACE then uartputc_sync 8;; uartputc_sync 32;; uartputc_sync 8
   else uartputc_sync c)%K.

Definition pr_lock : lockid := ("pr", 0).

(** The bytes of a string constant. *)
Definition bytes_of (s : string) : list Z :=
  ListDef.map (fun a => Z.of_N (Ascii.N_of_ascii a)) (String.list_ascii_of_string s).
Definition chr (s : string) : Z := hd 0 (bytes_of s).

Definition digit (d : Z) : Z := nth (Z.to_nat d) (bytes_of "0123456789abcdef") 0.

(** The do-while loop of [printint]: the digits, least significant first.  A
    32-bit number has at most 32 digits in any base. *)
Fixpoint digits_loop (k : nat) (x base : Z) : list Z :=
  match k with
  | O => []
  | S k' => digit (x mod base) ::
            (if x / base =? 0 then [] else digits_loop k' (x / base) base)
  end.

(** The characters [printint] prints, in order. *)
Definition printint_chars (xx base : Z) (sign : bool) : list Z :=
  let neg := sign && (xx <? 0) in
  let x := if neg then u32 (- xx) else u32 xx in
  rev (digits_loop 32 x base ++ (if neg then [chr "-"] else [])).

Definition printint (xx base : Z) (sign : bool) : M kstate unit :=
  for_each (printint_chars xx base sign) consputc.

Definition printptr_chars (x : Z) : list Z :=
  ListDef.map (fun i => digit (Z.shiftr (u64 (Z.shiftl x (4 * i))) 60)) (seqZ 0 16).

Definition printptr (x : Z) : M kstate unit :=
  (consputc (chr "0");;
   consputc (chr "x");;
   for_each (printptr_chars x) consputc)%K.

(** The variable arguments. *)
Inductive arg := AInt (x : Z) | APtr (x : Z) | AStr (s : option (list Z)).

Definition print_arg (c : Z) (args : list arg) : M kstate (list arg) :=
  (match args with
   | AInt x :: args' =>
       if c =? chr "d" then printint x 10 true;; ret args'
       else printint x 16 true;; ret args'
   | APtr x :: args' => printptr x;; ret args'
   | AStr o :: args' => for_each (default (bytes_of "(null)") o) consputc;; ret args'
   | [] => ret []
   end)%K.

Fixpoint print_fmt (fmt : list Z) (args : list arg) : M kstate unit :=
  match fmt with
  | [] => ret tt
  | c :: fmt' =>
      if negb (c =? chr "%") then (consputc c;; print_fmt fmt' args)%K
      else
        match fmt' with
        | [] => ret tt
        | c :: fmt'' =>
            (if (c =? chr "d") || (c =? chr "x") || (c =? chr "p") || (c =? chr "s") then
               args <- print_arg c args; print_fmt fmt'' args
             else if c =? chr "%" then consputc (chr "%");; print_fmt fmt'' args
             else consputc (chr "%");; consputc c;; print_fmt fmt'' args)%K
        end
  end.

Definition printf (fmt : list Z) (args : list arg) : M kstate unit :=
  (locking <- gets pr_locking;
   (if (locking : bool) then acquire pr_lock else ret tt);;
   print_fmt fmt args;;
   (if (locking : bool) then release pr_lock else ret tt))%K.

Definition printfinit : M kstate unit :=
  (initlock pr_lock;; modify (set_pr_locking true))%K.

(** What [panic] prints before it stops for good. *)
Definition panic_output (msg : list Z) : M kstate unit :=
  (modify (set_pr_locking false);;
   printf (bytes_of "panic: ") [];;
   printf msg [];;
   printf [10] [])%K.

(** ** kernel/proc.c: procdump *)

Definition state_name (st : procstate) : list Z :=
  bytes_of (match st with
            | UNUSED => "unused" | SLEEPING => "sleep " | RUNNABLE => "runble"
            | RUNNING => "run   " | ZOMBIE => "zombie" | USED => "???"
            end).

(** A NUL-terminated array as a string. *)
Fixpoint cstring (bs : list Z) : list Z :=
  match bs with [] => [] | b :: bs' => if b =? 0 then [] else b :: cstring bs' end.

Definition procdump : M kstate unit :=
  (printf [10] [];;
   for_each proc_slots (fun p =>
     x <- proc_at p;
     if decide (p_state x = UNUSED) then ret tt
     else
       printf (bytes_of "%d %s %s")
         [AInt (p_pid x); AStr (Some (state_name (p_state x))); AStr (Some (cstring (p_name x)))];;
       printf [10] []))%K.

End Uart.
