(* ===== verification/PrintfSpec.v ===== *)
(** * Formatted output

    What [printint] and [printf] send to the serial line. *)

From S2P Require Import Prelude Riscv Locks Kalloc Kstate Proc Uart.
Import Proc Uart.

(** ** Numbers *)

Definition undigit (c : Z) : Z := if c <? 58 then c - 48 else c - 87.

(** The value of digits, least significant first, and of a printed number. *)
Definition digits_val (base : Z) (ds : list Z) : Z :=
  foldr (fun c v => undigit c + base * v) 0 ds.
Definition parse_num (base : Z) (cs : list Z) : Z :=
  match cs with
  | c :: ds => if c =? chr "-" then - digits_val base (rev ds) else digits_val base (rev cs)
  | [] => 0
  end.

Lemma digit_facts d : 0 <= d < 16 ->
  undigit (digit d) = d /\ digit d <> chr "-" /\ 0 <= digit d < 256 /\ (digit d = chr "0" -> d = 0).
Proof.
  intros H. rewrite <- (Z2Nat.id d) in * by lia. generalize dependent (Z.to_nat d). intros n Hn.
  do 16 (destruct n as [|n]; [vm_compute; split_and!; (done || by intros [=])|]). lia.
Qed.

Lemma digits_loop_val k x base :
  2 <= base <= 16 -> 0 <= x < base ^ Z.of_nat k -> (0 < k)%nat ->
  digits_val base (digits_loop k x base) = x /\ Forall (fun c => c <> chr "-" /\ 0 <= c < 256) (digits_loop k x base).
Proof.
  intros Hb. revert x. induction k as [|k IH]; intros x Hx Hk; [lia|]. cbn [digits_loop].
  pose proof (Z.mod_pos_bound x base ltac:(lia)) as Hm.
  pose proof (Z.div_mod x base ltac:(lia)) as Hdm.
  destruct (digit_facts (x mod base)) as (Hu & Hne & Hr & _); [lia|].
  destruct (Z.eqb_spec (x / base) 0) as [E|E].
  - split; [simpl; lia|]. by constructor.
  - assert (0 <= x / base < base ^ Z.of_nat k) as Hq.
    { split; [apply Z.div_pos; lia|]. apply Z.div_lt_upper_bound; [lia|].
      rewrite <- Z.pow_succ_r by lia. replace (Z.succ (Z.of_nat k)) with (Z.of_nat (S k)) by lia. lia. }
    assert (0 < k)%nat by (destruct k; [simpl in Hq; lia|lia]).
    destruct (IH (x / base)) as [IH1 IH2]; [done..|]. split; [simpl; rewrite IH1; lia|].
    by constructor.
Qed.

Lemma digits_loop_length k n x base :
  2 <= base <= 16 -> 0 <= x < base ^ Z.of_nat n -> (0 < n)%nat ->
  (length (digits_loop k x base) <= n)%nat.
Proof.
  intros Hb. revert k x. induction n as [|n IH]; intros k x Hx Hn; [lia|].
  destruct k as [|k]; cbn [digits_loop length]; [lia|].
  destruct (Z.eqb_spec (x / base) 0) as [E|E]; cbn [length]; [lia|].
  assert (0 <= x / base < base ^ Z.of_nat n) as Hq.
  { split; [apply Z.div_pos; lia|]. apply Z.div_lt_upper_bound; [lia|].
    rewrite <- Z.pow_succ_r by lia. replace (Z.succ (Z.of_nat n)) with (Z.of_nat (S n)) by lia. lia. }
  assert (0 < n)%nat by (destruct n; [simpl in Hq; lia|lia]).
  pose proof (IH k (x / base) Hq). lia.
Qed.

(** No leading zero. *)
Lemma digits_loop_last k x base c :
  2 <= base <= 16 -> 0 <= x < base ^ Z.of_nat k -> 0 < x ->
  last (digits_loop k x base) = Some c -> c <> chr "0".
Proof.
  intros Hb. revert x. induction k as [|k IH]; intros x Hx H0; [by simpl in *; lia|]. cbn [digits_loop].
  pose proof (Z.mod_pos_bound x base ltac:(lia)) as Hm.
  destruct (Z.eqb_spec (x / base) 0) as [E|E].
  - intros [= <-] E0. apply digit_facts in E0; [|lia].
    pose proof (Z.div_mod x base). lia.
  - assert (0 < x / base) by (pose proof (Z.div_pos x base); lia).
    assert (x / base < base ^ Z.of_nat k) as Hq.
    { apply Z.div_lt_upper_bound; [lia|].
      rewrite <- Z.pow_succ_r by lia. replace (Z.succ (Z.of_nat k)) with (Z.of_nat (S k)) by lia. lia. }
    specialize (IH (x / base) ltac:(lia) ltac:(done)).
    destruct (digits_loop k (x / base) base) eqn:Ed; [|rewrite last_cons_cons; apply IH].
    destruct k; [simpl in Hq; lia|done].
Qed.

(** ** The serial line *)

(** [bs] was sent, and nothing else happened but readings of the line status. *)
Definition sent (bs : list Z) (s s' : kstate) : Prop :=
  exists vs e, vs `suffix_of` lsr_in (uartst s) /\
    s' = set_uartst (set_thr_empty e (set_thr_out (thr_out (uartst s) ++ bs) (set_lsr_in vs (uartst s)))) s.

(** The readings that are still to come fit in the fuel of a loop. *)
Definition line_ok (s : kstate) : Prop := Z.of_nat (length (lsr_in (uartst s))) < 2 ^ 64.

Lemma sent_nil s : sent [] s s.
Proof. exists (lsr_in (uartst s)), (thr_empty (uartst s)). split; [done|]. rewrite app_nil_r. by destruct s as [[] ?????????????????? []]. Qed.

Lemma sent_trans b1 b2 s1 s2 s3 : sent b1 s1 s2 -> sent b2 s2 s3 -> sent (b1 ++ b2) s1 s3.
Proof.
  intros (v1 & e1 & H1 & ->) (v2 & e2 & H2 & ->). exists v2, e2. simpl in *.
  split; [by etrans|]. by rewrite <- app_assoc.
Qed.

Lemma sent_ok bs s s' : line_ok s -> sent bs s s' -> line_ok s'.
Proof. intros Hok (vs & e & Hs%suffix_length & ->). unfold line_ok in *. simpl. lia. Qed.

Definition poll (_ : unit) : M kstate (unit + unit) :=
  (lsr <- read_LSR; ret (if Z.land lsr LSR_TX_IDLE =? 0 then inl tt else inr tt))%K.

Lemma poll_exit s : exists vs, vs `suffix_of` lsr_in (uartst s) /\
  iter_n (S (length (lsr_in (uartst s)))) poll tt s =
    Ret (inr tt) (set_uartst (set_thr_empty true (set_lsr_in vs (uartst s))) s).
Proof.
  remember (lsr_in (uartst s)) as l eqn:E. revert s E. induction l as [|v l IH]; intros s E.
  - exists []. split; [done|]. cbn. by rewrite <- E.
  - cbn [length iter_n]. unfold bind at 1, poll at 1, bind at 1, read_LSR at 1, bind at 1, gets.
    cbn [bindr]. rewrite <- E. unfold bind at 1, upd_uart, modify. cbn [bindr ret hd]. rewrite <- E. cbn [tl].
    destruct (Z.land v LSR_TX_IDLE =? 0).
    + edestruct IH as (vs & Hs & Hi); [|exists vs; split; [by apply suffix_cons_r|exact Hi]]. done.
    + exists l. split; [by apply suffix_cons_r|done].
Qed.

Lemma uartputc_sync_sent c s : line_ok s ->
  exists s', uartputc_sync c s = Ret tt s' /\ sent [u8 c] s s'.
Proof.
  intros Hok. destruct (poll_exit s) as (vs & Hs & Hi). unfold uartputc_sync, bind at 1.
  change (loop _ tt s) with (loop poll tt s).
  rewrite (loop_exit (S (length (lsr_in (uartst s)))) poll _ _ _ _ ltac:(unfold line_ok in Hok; lia) Hi).
  eexists. split; [done|]. by exists vs, false.
Qed.

Definition is_char (c : Z) : Prop := 0 <= c < 256.

Lemma consputc_sent c s : is_char c -> line_ok s ->
  exists s', consputc c s = Ret tt s' /\ sent [c] s s'.
Proof.
  intros Hc Hok. unfold consputc. destruct (Z.eqb_spec c BACKSPACE) as [->|_]; [by destruct Hc|].
  destruct (uartputc_sync_sent c s Hok) as (s' & H & Hs). rewrite u8_small in Hs by done. eauto.
Qed.

Lemma print_chars_sent cs s : Forall is_char cs -> line_ok s ->
  exists s', for_each cs consputc s = Ret tt s' /\ sent cs s s'.
Proof.
  intros Hcs. revert s. induction Hcs as [|c cs Hc _ IH]; intros s Hok; simpl.
  { exists s. split; [done|apply sent_nil]. }
  destruct (consputc_sent c s Hc Hok) as (s1 & -> & H1). simpl.
  destruct (IH s1) as (s2 & -> & H2); [by eapply sent_ok|].
  exists s2. split; [done|]. exact (sent_trans [c] cs s s1 s2 H1 H2).
Qed.

(** ** printint and printptr *)

Lemma printint_chars_ok xx base :
  - 2 ^ 31 <= xx < 2 ^ 31 -> base = 10 \/ base = 16 ->
  parse_num base (printint_chars xx base true) = xx /\
  (length (printint_chars xx base true) <= 11)%nat /\ Forall is_char (printint_chars xx base true).
Proof.
  intros Hx Hb. unfold printint_chars. cbn [andb].
  set (x := if xx <? 0 then u32 (- xx) else u32 xx).
  assert (0 <= x <= 2 ^ 31 /\ xx = if xx <? 0 then - x else x) as [Hx' Hxx].
  { subst x. destruct (Z.ltb_spec xx 0); rewrite u32_small by lia; lia. }
  assert (2 <= base <= 16) as Hb' by lia.
  assert (2 ^ 32 <= base ^ Z.of_nat 10 /\ base ^ Z.of_nat 10 <= base ^ Z.of_nat 32) as [Hp Hp'].
  { destruct Hb as [-> | ->]; by vm_compute. }
  destruct (digits_loop_val 32 x base) as [Hv Hall]; [lia|lia|lia|].
  pose proof (digits_loop_length 32 10 x base Hb' ltac:(lia) ltac:(lia)) as Hlen.
  assert (digits_loop 32 x base <> []) as Hnil by done.
  split; [|split].
  - rewrite Hxx at 2. destruct (xx <? 0).
    + rewrite rev_unit. cbn [parse_num]. rewrite Z.eqb_refl. by rewrite rev_involutive, Hv.
    + rewrite app_nil_r. destruct (rev (digits_loop 32 x base)) as [|c ds] eqn:E.
      { apply (f_equal (@rev Z)) in E. rewrite rev_involutive in E. done. }
      cbn [parse_num]. rewrite <- E, rev_involutive, Hv.
      destruct (Z.eqb_spec c (chr "-")) as [->|]; [exfalso|done].
      assert (chr "-" ∈ digits_loop 32 x base) as Hin.
      { apply list_elem_of_In, in_rev. rewrite E. by left. }
      by apply (proj1 (Forall_forall _ _) Hall) in Hin as [??].
  - rewrite length_rev, length_app. destruct (xx <? 0); cbn [length]; lia.
  - apply Forall_rev, Forall_app. split; [by eapply Forall_impl; [exact Hall|intros ? [??]]|].
    destruct (xx <? 0); [|done]. apply Forall_singleton. by vm_compute.
Qed.

Lemma nibbles_val x n : 0 <= x ->
  digits_val 16 (map (fun j => digit ((x / 16 ^ Z.of_nat j) mod 16)) (seq 0 n)) = x mod 16 ^ Z.of_nat n.
Proof.
  revert x. induction n as [|n IH]; intros x Hx; [by rewrite Z.mod_1_r|].
  cbn [seq map]. rewrite <- seq_shift, map_map.
  pose proof (Z.mod_pos_bound x 16 ltac:(lia)).
  change (digits_val 16 (?c :: ?l)) with (undigit c + 16 * digits_val 16 l).
  change (16 ^ Z.of_nat 0) with 1. rewrite Z.div_1_r, (proj1 (digit_facts (x mod 16) ltac:(lia))).
  erewrite (map_ext _ (fun j => digit ((x / 16 / 16 ^ Z.of_nat j) mod 16))).
  - rewrite IH by (apply Z.div_pos; lia).
    rewrite Nat2Z.inj_succ, Z.pow_succ_r by lia.
    rewrite Z.rem_mul_r by lia. lia.
  - intros j. rewrite Nat2Z.inj_succ, Z.pow_succ_r by lia. by rewrite Z.div_div by lia.
Qed.

Lemma shifted_nibble x j : 0 <= j <= 15 ->
  Z.shiftr (u64 (Z.shiftl x (4 * (15 - j)))) 60 = (x / 16 ^ j) mod 16.
Proof.
  intros Hj. rewrite Z.shiftl_mul_pow2, Z.shiftr_div_pow2 by lia. unfold u64.
  replace (2 ^ 64) with (16 ^ j * 16 * 2 ^ (4 * (15 - j))).
  2:{ change 16 with (2 ^ 4). rewrite <- Z.pow_mul_r, <- !Z.pow_add_r by lia. f_equal. lia. }
  rewrite Z.mul_mod_distr_r by (try apply Z.pow_nonzero; lia).
  replace (2 ^ 60) with (16 ^ j * 2 ^ (4 * (15 - j))).
  2:{ change 16 with (2 ^ 4). rewrite <- Z.pow_mul_r, <- Z.pow_add_r by lia. f_equal. lia. }
  rewrite Z.div_mul_cancel_r by (apply Z.pow_nonzero; lia).
  rewrite Z.rem_mul_r by (try apply Z.pow_nonzero; lia).
  rewrite Z.mul_comm, Z.div_add by (apply Z.pow_nonzero; lia).
  rewrite Z.div_small; [lia|]. apply Z.mod_pos_bound. apply Z.pow_pos_nonneg; lia.
Qed.

Lemma printptr_chars_ok x : 0 <= x < 2 ^ 64 ->
  digits_val 16 (rev (printptr_chars x)) = x /\ length (printptr_chars x) = 16%nat /\
  Forall is_char (printptr_chars x).
Proof.
  intros Hx.
  assert (rev (printptr_chars x) =
          map (fun j => digit ((x / 16 ^ Z.of_nat j) mod 16)) (seq 0 16)) as E.
  { unfold printptr_chars. rewrite <- map_rev.
    change (rev (seqZ 0 16)) with (map (fun j => 15 - Z.of_nat j) (seq 0 16)).
    rewrite map_map. apply map_ext_in. intros j Hj%list_elem_of_In. apply elem_of_seq in Hj.
    rewrite shifted_nibble by lia. f_equal. }
  split; [|split; [done|]].
  - rewrite E, nibbles_val by lia. apply Z.mod_small. exact Hx.
  - rewrite <- (rev_involutive (printptr_chars x)), E. apply Forall_rev, Forall_forall.
    intros c Hc. apply list_elem_of_In, in_map_iff in Hc as (j & <- & _).
    apply digit_facts. apply Z.mod_pos_bound. lia.
Qed.

(** Numbers print correctly.  On the serial line [printint] sends decimal
    or hexadecimal digits whose value, with the sign, is the int it was given,
    at most 11 characters (its buffer has 16); [printptr] sends [0x] and the 16
    hexadecimal digits of the word. *)
Theorem number_output_correct s :
  line_ok s ->
  (forall xx base, - 2 ^ 31 <= xx < 2 ^ 31 -> base = 10 \/ base = 16 ->
     exists cs s', printint xx base true s = Ret tt s' /\ sent cs s s' /\
       parse_num base cs = xx /\ (length cs <= 11)%nat) /\
  (forall x, 0 <= x < 2 ^ 64 ->
     exists ds s', printptr x s = Ret tt s' /\ sent (chr "0" :: chr "x" :: ds) s s' /\
       parse_num 16 ds = x /\ length ds = 16%nat).
Proof.
  intros Hok. split.
  - intros xx base Hx Hb. destruct (printint_chars_ok xx base Hx Hb) as (Hv & Hlen & Hch).
    destruct (print_chars_sent _ s Hch Hok) as (s' & Hr & Hs). eauto 10.
  - intros x Hx. destruct (printptr_chars_ok x Hx) as (Hv & Hlen & Hch).
    destruct (print_chars_sent (chr "0" :: chr "x" :: printptr_chars x) s) as (s' & Hr & Hs);
      [do 2 (constructor; [by vm_compute|]); exact Hch|done|].
    exists (printptr_chars x), s'. split; [exact Hr|]. split; [done|]. split; [|done].
    assert (hd 0 (printptr_chars x) = digit (Z.shiftr (u64 (Z.shiftl x (4 * (15 - 15)))) 60)) as Hd
      by reflexivity.
    rewrite shifted_nibble in Hd by lia.
    assert (hd 0 (printptr_chars x) <> chr "-") as Hne.
    { rewrite Hd. apply digit_facts. apply Z.mod_pos_bound. lia. }
    clear Hd Hr Hs. destruct (printptr_chars x) as [|c ds]; [discriminate Hlen|].
    cbn [parse_num hd] in *. apply Z.eqb_neq in Hne. by rewrite Hne.
Qed.

Lemma number_output_correct_witness :
  let s := zero_kstate (Machine ∅ 0 0 [] 0 0 0) in
  (exists cs s', printint (-2147483648) 10 true s = Ret tt s' /\ sent cs s s' /\
     parse_num 10 cs = -2147483648 /\ (length cs <= 11)%nat) /\
  (exists ds s', printptr 0xdeadbeef s = Ret tt s' /\ sent (chr "0" :: chr "x" :: ds) s s' /\
       parse_num 16 ds = 0xdeadbeef /\ length ds = 16%nat).
Proof.
  intros s. destruct (number_output_correct s) as [H1 H2]; [done|].
  split; [apply H1; lia|apply H2; lia].
Defined.

(** ** printf *)

(** What one argument looks like: the conversion that consumes it is only told
    apart from others for numbers. *)
Definition render_arg (c : Z) (a : arg) : list Z :=
  match a with
  | AInt x => printint_chars x (if c =? chr "d" then 10 else 16) true
  | APtr x => chr "0" :: chr "x" :: printptr_chars x
  | AStr o => default (bytes_of "(null)") o
  end.

Definition takes_arg (c : Z) : bool :=
  (c =? chr "d") || (c =? chr "x") || (c =? chr "p") || (c =? chr "s").

(** The text of a format with its arguments. *)
Fixpoint render (fmt : list Z) (args : list arg) : list Z :=
  match fmt with
  | c :: fmt' =>
      if negb (c =? chr "%") then c :: render fmt' args
      else match fmt' with
           | [] => []
           | c :: fmt'' =>
               if takes_arg c then
                 match args with
                 | a :: args' => render_arg c a ++ render fmt'' args'
                 | [] => render fmt'' []
                 end
               else if c =? chr "%" then chr "%" :: render fmt'' args
               else chr "%" :: c :: render fmt'' args
           end
  | [] => []
  end.

Definition arg_ok (a : arg) : Prop :=
  match a with
  | AInt x => - 2 ^ 31 <= x < 2 ^ 31
  | APtr x => 0 <= x < 2 ^ 64
  | AStr o => Forall is_char (default [] o)
  end.

Lemma render_arg_chars c a : arg_ok a -> Forall is_char (render_arg c a).
Proof.
  destruct a as [x|x|[o|]]; simpl; intros H; [| |done|by apply Forall_forall; intros ? H'; repeat (apply elem_of_cons in H' as [->|H']; [by vm_compute|]); apply elem_of_nil in H'].
  - apply printint_chars_ok; [done|]. case_match; lia.
  - do 2 (constructor; [by vm_compute|]). by apply printptr_chars_ok.
Qed.

Lemma print_arg_sent c a args s : arg_ok a -> line_ok s ->
  exists s', print_arg c (a :: args) s = Ret args s' /\ sent (render_arg c a) s s'.
Proof.
  intros Ha Hok. destruct (print_chars_sent (render_arg c a) s) as (s' & Hr & Hs);
    [by apply render_arg_chars|done|].
  exists s'. split; [|done]. unfold print_arg. destruct a as [x|x|o]; cbn [render_arg] in Hr.
  - destruct (c =? chr "d"); unfold bind, printint; by rewrite Hr.
  - unfold bind. change (printptr x s) with
      (for_each (chr "0" :: chr "x" :: printptr_chars x) consputc s). by rewrite Hr.
  - unfold bind. by rewrite Hr.
Qed.

Lemma print_fmt_sent n fmt args s : (length fmt < n)%nat ->
  Forall is_char fmt -> Forall arg_ok args -> line_ok s ->
  exists s', print_fmt fmt args s = Ret tt s' /\ sent (render fmt args) s s'.
Proof.
  revert fmt args s. induction n as [|n IH]; intros fmt args s Hn Hf Ha Hok; [lia|].
  destruct fmt as [|c fmt]; cbn [print_fmt render].
  { exists s. split; [done|apply sent_nil]. }
  apply Forall_cons in Hf as [Hc Hf]. cbn [length] in Hn.
  destruct (c =? chr "%"); cbn [negb].
  2:{ destruct (consputc_sent c s Hc Hok) as (s1 & H1 & S1).
      destruct (IH fmt args s1) as (s2 & H2 & S2); [lia|done..|by eapply sent_ok|].
      exists s2. unfold bind. rewrite H1. split; [exact H2|]. exact (sent_trans _ _ _ _ _ S1 S2). }
  destruct fmt as [|d fmt]; [exists s; split; [done|apply sent_nil]|].
  apply Forall_cons in Hf as [Hd Hf]. cbn [length] in Hn. fold (takes_arg d).
  destruct (takes_arg d).
  { destruct Ha as [|a args Ha0 Ha]; [by apply IH; [lia|..]|].
    destruct (print_arg_sent d a args s Ha0 Hok) as (s1 & H1 & S1).
    destruct (IH fmt args s1) as (s2 & H2 & S2); [lia|done..|by eapply sent_ok|].
    exists s2. unfold bind. rewrite H1. split; [exact H2|]. exact (sent_trans _ _ _ _ _ S1 S2). }
  destruct (consputc_sent (chr "%") s) as (s1 & H1 & S1); [by vm_compute|done|].
  destruct (d =? chr "%").
  { destruct (IH fmt args s1) as (s2 & H2 & S2); [lia|done..|by eapply sent_ok|].
    exists s2. unfold bind. rewrite H1. split; [exact H2|]. exact (sent_trans _ _ _ _ _ S1 S2). }
  destruct (consputc_sent d s1) as (s2 & H2 & S2); [done|by eapply sent_ok|].
  pose proof (sent_trans _ _ _ _ _ S1 S2) as S12.
  destruct (IH fmt args s2) as (s3 & H3 & S3); [lia|done..|by eapply sent_ok|].
  exists s3. unfold bind. rewrite H1. cbn [bindr]. rewrite H2. split; [exact H3|].
  exact (sent_trans _ _ _ _ _ S12 S3).
Qed.

(** [printf] sends exactly the text of its format: ordinary characters as
    they are, [%d] and [%x] as [printint] prints them, [%p] as an address,
    [%s] as the string ([(null)] for a null pointer), [%%] as one percent sign,
    an unknown conversion with its percent sign.  The lock that keeps lines of
    different CPUs apart is free again afterwards. *)
Theorem printf_correct fmt args s :
  Forall is_char fmt -> Forall arg_ok args -> line_ok s ->
  (pr_locking s = true -> pr_lock ∉ held s) ->
  exists s', printf fmt args s = Ret tt s' /\ sent (render fmt args) s s'.
Proof.
  intros Hf Ha Hok Hl. unfold printf, bind, gets. cbn [bindr].
  destruct (pr_locking s) eqn:El; cbn [bindr ret].
  - rewrite acquire_eq by (by apply Hl). cbn [bindr].
    destruct (print_fmt_sent (S (length fmt)) fmt args (set_held (pr_lock :: held s) s))
      as (s1 & -> & vs & e & Hvs & ->); [lia|done..|].
    cbn [bindr]. erewrite release_head by reflexivity. eexists. split; [done|].
    exists vs, e. split; [done|]. by destruct s as [[]].
  - destruct (print_fmt_sent (S (length fmt)) fmt args s) as (s1 & -> & Hs); [lia|done..|]. eauto.
Qed.

Lemma printf_correct_witness : exists s',
  let s := zero_kstate (Machine ∅ 0 0 [] 0 0 0) in
  printf (bytes_of "%d: %s %x%%%q") [AInt (-12); AStr None; AInt 255] s = Ret tt s' /\
  sent (bytes_of "-12: (null) ff%%q") s s'.
Proof.
  apply (printf_correct (bytes_of "%d: %s %x%%%q") [AInt (-12); AStr None; AInt 255]
    (zero_kstate (Machine ∅ 0 0 [] 0 0 0))); [| |done|done].
  - repeat (constructor; [by vm_compute|]). constructor.
  - repeat (constructor; [by vm_compute|]). constructor.
Defined.
