(* ===== verification/UartSpec.v ===== *)
(** * The transmit buffer of uart.c

    Characters leave the serial line in the order they were put in. *)

From S2P Require Import Prelude RingBuf Riscv Mem Locks Kalloc Kstate Proc ProcSpec Uart.
Import Proc Uart.

Record tx_ok (u : uart) : Prop := {
  tx_ring : rb_ok (2 ^ 64) UART_TX_BUF_SIZE (tx_buf u) (tx_r u) (tx_w u);
  tx_bytes : Forall (fun c => 0 <= c < 256) (tx_buf u);
}.

(** The characters waiting in the buffer, and all characters so far. *)
Definition tx_queue (u : uart) : list Z :=
  rb_items (2 ^ 64) UART_TX_BUF_SIZE (tx_buf u) (tx_r u) (tx_w u).
Definition tx_stream (u : uart) : list Z := thr_out u ++ tx_queue u.

Lemma tx_size : 0 < UART_TX_BUF_SIZE.
Proof. done. Qed.
Lemma tx_small : UART_TX_BUF_SIZE < 2 ^ 64.
Proof. done. Qed.
Lemma tx_div : (UART_TX_BUF_SIZE | 2 ^ 64).
Proof. by exists (2 ^ 59). Qed.

(** Sending changes the UART and wakes up writers. *)
Record transmits (s s' : kstate) : Prop := {
  tr_state : exists u ps, s' = set_uartst u (set_procs ps s) /\ (ps = procs s \/
               ps = imap (wake uart_chan (cpu_proc s)) (procs s));
  tr_ok : tx_ok (uartst s');
  tr_stream : tx_stream (uartst s') = tx_stream (uartst s);
}.

Lemma wake_idem c me ps : imap (wake c me) (imap (wake c me) ps) = imap (wake c me) ps.
Proof.
  apply list_eq. intros i. rewrite !list_lookup_imap. destruct (ps !! i) as [x|]; [|done]. simpl.
  f_equal. unfold wake. repeat case_decide; simpl in *; naive_solver.
Qed.

Lemma transmits_refl s : tx_ok (uartst s) -> transmits s s.
Proof.
  intros H. split; [|done|done]. exists (uartst s), (procs s). split; [|by left].
  by destruct s.
Qed.

Lemma transmits_trans s1 s2 s3 : transmits s1 s2 -> transmits s2 s3 -> transmits s1 s3.
Proof.
  intros [(u & ps & -> & Hps) _ H1] [(u' & ps' & -> & Hps') H2 H3]. split; [|done|congruence].
  exists u', ps'. split; [done|]. simpl in *.
  destruct Hps as [-> | ->], Hps' as [-> | ->]; rewrite ?wake_idem; auto.
Qed.

Definition tx_inv (s : kstate) : Prop := ptab_ok s /\ no_plock s.

Lemma tx_inv_keep s s' : tx_inv s -> transmits s s' -> tx_inv s'.
Proof.
  intros [H1 H2] [(u & ps & -> & Hps) _ _]. split; [|done]. unfold ptab_ok in *. simpl.
  destruct Hps as [-> | ->]; [done|]. by rewrite length_imap.
Qed.

Lemma read_LSR_cases s : exists v vs,
  read_LSR s = Ret v (set_uartst (set_thr_empty (negb (Z.land v LSR_TX_IDLE =? 0)) (set_lsr_in vs (uartst s))) s).
Proof. exists (hd LSR_TX_IDLE (lsr_in (uartst s))), (tl (lsr_in (uartst s))). reflexivity. Qed.

Lemma tx_get_byte u i : tx_ok u -> 0 <= rb_get UART_TX_BUF_SIZE (tx_buf u) i < 256.
Proof.
  intros [_ Hb]. unfold rb_get. rewrite nth_lookup.
  destruct (tx_buf u !! _) as [c|] eqn:E; [|done]. simpl. exact (Forall_lookup_1 _ _ _ _ Hb E).
Qed.

Lemma tx_pos u : tx_ok u -> tx_w u <> tx_r u -> 0 < rb_len (2 ^ 64) (tx_r u) (tx_w u).
Proof.
  intros [[Hb Hr Hw Hf] _] Hne.
  pose proof (rb_len_range _ _ tx_size tx_small tx_div (tx_r u) (tx_w u)).
  pose proof (rb_empty _ _ tx_size tx_small tx_div _ _ Hr Hw). lia.
Qed.

(** One round of [uartstart]'s loop. *)
Lemma uartstart_step s : tx_inv s -> tx_ok (uartst s) ->
  runs (fun r s' => transmits s s' /\
    match r with
    | inl _ => (length (tx_queue (uartst s')) < length (tx_queue (uartst s)))%nat
    | inr _ => True
    end) (uartstart_body tt s).
Proof.
  intros Hinv Hok. unfold uartstart_body, bind at 1, gets. cbn [bindr].
  destruct (Z.eqb_spec (tx_w (uartst s)) (tx_r (uartst s))) as [E|E].
  { simpl. split; [by apply transmits_refl|done]. }
  destruct (read_LSR_cases s) as (v & vs & Hread). unfold bind at 1. rewrite Hread. cbn [bindr].
  destruct (Z.land v LSR_TX_IDLE =? 0).
  { simpl. split; [|done]. split; [|by destruct Hok|done]. eexists _, _. split; [|by left]. by destruct s. }
  pose proof (tx_pos _ Hok E) as Hpos. pose proof (tx_get_byte _ (tx_r (uartst s)) Hok) as Hbyte.
  destruct Hok as [Hring Hb].
  unfold upd_uart, write_THR, upd_uart, bind, modify, ret. cbn [bindr negb].
  destruct Hinv as [Hp Hl].
  rewrite wakeup_spec by (first [exact Hp | intros i _; apply Hl]). cbn [bindr runs].
  pose proof (rb_pop _ _ tx_size tx_small tx_div _ _ _ Hring Hpos) as Hpop.
  split.
  - split; [by eexists _, _; split; [|right]| |].
    + split; [|done]. by apply (rb_ok_pop _ _ tx_size tx_small tx_div).
    + unfold tx_stream, tx_queue. rewrite Hpop. simpl. rewrite <- app_assoc.
      rewrite u8_small by done. done.
  - unfold tx_queue. rewrite Hpop. simpl. unfold u64. lia.
Qed.

Lemma uartstart_spec s : tx_inv s -> tx_ok (uartst s) ->
  exists s', uartstart s = Ret tt s' /\ transmits s s'.
Proof.
  intros Hinv Hok. assert (runs (fun _ s' => transmits s s') (uartstart s)) as H.
  { unfold uartstart. eapply (runs_loop _ (fun n _ s' => transmits s s' /\ n = length (tx_queue (uartst s')))).
    - intros n [] s1 [Ht ->]. eapply runs_mono;
        [apply uartstart_step; [by eapply tx_inv_keep|by destruct Ht]|].
      intros [[]|[]] s2 [Ht2 Hlen]; simpl in *; [|by eapply transmits_trans].
      eexists. split; [exact Hlen|]. split; [by eapply transmits_trans|done].
    - split; [by apply transmits_refl|done].
    - unfold tx_queue. rewrite (rb_items_length _ _ tx_size tx_small tx_div).
      pose proof (rb_len_range _ _ tx_size tx_small tx_div (tx_r (uartst s)) (tx_w (uartst s))). lia. }
  apply runs_ret in H as ([] & s' & -> & ?). eauto.
Qed.

Lemma uartputc_room c s : tx_inv s -> tx_ok (uartst s) -> 0 <= c < 256 ->
  uart_tx_lock ∉ held s -> (length (tx_queue (uartst s)) < 32)%nat ->
  exists s', uartputc c s = Ret tt s' /\ held s' = held s /\ tx_ok (uartst s') /\
    tx_stream (uartst s') = tx_stream (uartst s) ++ [c].
Proof.
  intros [Hp Hl] Hok Hc Hlk Hroom. pose proof Hok as [Hring Hb]. pose proof Hring as [Hbuf Hr Hw _].
  unfold tx_queue in Hroom. rewrite (rb_items_length _ _ tx_size tx_small tx_div) in Hroom.
  pose proof (rb_len_range _ _ tx_size tx_small tx_div (tx_r (uartst s)) (tx_w (uartst s))).
  assert (rb_len (2 ^ 64) (tx_r (uartst s)) (tx_w (uartst s)) < UART_TX_BUF_SIZE) as Hlt
    by (unfold UART_TX_BUF_SIZE; lia).
  pose proof (rb_push _ _ tx_size tx_small tx_div _ _ _ c Hring Hlt) as Hpush.
  pose proof (rb_ok_push _ _ tx_size tx_small tx_div _ _ _ c Hring Hlt) as Hok'.
  set (u' := set_tx_w (u64 (tx_w (uartst s) + 1)) (set_tx_buf
    (<[Z.to_nat (tx_w (uartst s) mod UART_TX_BUF_SIZE) := c]> (tx_buf (uartst s))) (uartst s))).
  set (s1 := set_uartst u' (set_held (uart_tx_lock :: held s) s)).
  assert (tx_ok u') as Hu' by (split; [done|by apply Forall_insert]).
  destruct (uartstart_spec s1) as (s2 & Hstart & [(u2 & ps & -> & _) Hok2 Hs2]); [|done|].
  { split; [done|]. intros i. unfold s1. simpl.
    apply not_elem_of_cons. split; [done|apply Hl]. }
  exists (set_held (held s) (set_uartst u2 (set_procs ps s1))). split; [|split; [done|split; [done|]]].
  - unfold uartputc, bind. rewrite acquire_eq by done. cbn [bindr].
    apply (loop_exit 1); [lia|]. rewrite iter_n_1. unfold uartputc_body, bind, gets, upd_uart, modify.
    cbn [bindr]. rewrite (proj2 (Z.eqb_neq _ _)).
    2:{ unfold u64. rewrite (rb_full _ _ tx_size tx_small tx_div) by done. simpl. lia. }
    cbn [bindr]. rewrite u8_small by done. 
    match goal with |- context [uartstart ?x] => change x with s1 end. rewrite Hstart. cbn [bindr].
    erewrite release_head by reflexivity. done.
  - cbn in Hs2 |- *. rewrite Hs2. unfold tx_stream, tx_queue, u'. simpl.
    unfold u64. rewrite Hpush. by rewrite app_assoc.
Qed.

Lemma uartputc_full c s p x : ptab_ok s -> tx_ok (uartst s) -> held s = [] ->
  cpu_proc s = Some p -> procs s !! p = Some x -> (length (tx_queue (uartst s)) = 32)%nat ->
  exists k, uartputc c s = Switch (set_held [proc_lock p]
    (set_procs (<[p := set_p_state SLEEPING (set_p_chan (Some uart_chan) x)]> (procs s)) s)) k.
Proof.
  intros Hp Hok Hh Hc Hx Hfull. pose proof Hok as [[Hbuf Hr Hw _] _].
  unfold tx_queue in Hfull. rewrite (rb_items_length _ _ tx_size tx_small tx_div) in Hfull.
  unfold uartputc, bind. rewrite acquire_eq by (rewrite Hh; apply not_elem_of_nil). cbn [bindr].
  set (s1 := set_held (uart_tx_lock :: held s) s).
  assert (held s1 = [uart_tx_lock]) as Hh1 by (unfold s1; by rewrite held_set_held, Hh).
  destruct (sleep_switch uart_chan uart_tx_lock p x s1) as [k Hsl]; [done..|].
  eapply loop_switch. unfold uartputc_body, bind, gets. cbn [bindr].
  rewrite (proj2 (Z.eqb_eq _ _)).
  2:{ unfold u64. rewrite (rb_full _ _ tx_size tx_small tx_div) by done. unfold s1; simpl.
      unfold UART_TX_BUF_SIZE in *. lia. }
  rewrite Hsl. reflexivity.
Qed.

(** C33: characters written to the serial line through the buffer leave in order
    and none is lost.  What was sent followed by what is buffered is a stream to
    which [uartputc c] appends [c]; [uartstart] moves characters from the buffer
    to the line without changing the stream; and a writer that finds the buffer
    full sleeps until there is room. *)
Theorem uart_fifo s :
  ptab_ok s -> no_plock s -> tx_ok (uartst s) ->
  (exists s', uartstart s = Ret tt s' /\ tx_ok (uartst s') /\
     tx_stream (uartst s') = tx_stream (uartst s)) /\
  (forall c, 0 <= c < 256 -> uart_tx_lock ∉ held s -> (length (tx_queue (uartst s)) < 32)%nat ->
     exists s', uartputc c s = Ret tt s' /\ held s' = held s /\ tx_ok (uartst s') /\
       tx_stream (uartst s') = tx_stream (uartst s) ++ [c]) /\
  (forall c p x, held s = [] -> cpu_proc s = Some p -> procs s !! p = Some x ->
     length (tx_queue (uartst s)) = 32%nat ->
     exists k, uartputc c s = Switch (set_held [proc_lock p]
       (set_procs (<[p := set_p_state SLEEPING (set_p_chan (Some uart_chan) x)]> (procs s)) s)) k).
Proof.
  intros Hp Hl Hok. split; [|split].
  - destruct (uartstart_spec s) as (s' & H & [_ ? ?]); [done..|]. eauto.
  - intros c Hc Hlk Hroom. by apply uartputc_room.
  - intros c p x Hh Hc Hx Hfull. by apply uartputc_full.
Qed.

(** The counters about to wrap around. *)
Definition demo_uart : uart := MkUart (repeat 65 32) 1 (2 ^ 64 - 2) [32; 0] [] [] false.

Lemma uart_fifo_witness : exists s',
  let s := set_uartst demo_uart (zero_kstate (Machine ∅ 0 0 [] 0 0 0)) in
  uartputc 66 s = Ret tt s' /\ held s' = held s /\ tx_ok (uartst s') /\
  tx_stream (uartst s') = [65; 65; 65; 66].
Proof.
  apply (uart_fifo (set_uartst demo_uart (zero_kstate (Machine ∅ 0 0 [] 0 0 0))));
    [by vm_compute|intros i; apply not_elem_of_nil| |lia|apply not_elem_of_nil|by apply Nat.ltb_lt].
  split; [by split; vm_compute|]. by repeat constructor.
Defined.
