(* ===== verification/Console.v ===== *)
(** * kernel/console.c

    The console's line discipline: input is edited between [w] and [e] and
    handed to readers between [r] and [w], all modulo the buffer size. *)

From S2P Require Import Prelude Riscv Locks Kalloc Kstate Proc Uart.
Import Proc Uart.

Module Console.

Definition INPUT_BUF : Z := 128.
Definition cons_lock : lockid := ("cons", 0).
Definition cons_chan : chan := ("cons.r", 0).
Definition ctrl (c : string) : Z := chr c - chr "@".
Definition NL : Z := 10.

Definition upd_cons (f : console -> console) : M kstate unit := modify (fun s => set_cons (f (cons s)) s).

Definition consolewrite_body (src : place) (n i : Z) : M kstate (Z + Z) :=
  (if i <? n then
     ' (r, bs) <- either_copyin (padd src i) 1;
     if r =? -1 then ret (inr i)
     else uartputc (hd 0 bs);; ret (inl (i + 1))
   else ret (inr i))%K.

Definition consolewrite (src : place) (n : Z) : M kstate Z := loop (consolewrite_body src n) 0.

(** [while(cons.r == cons.w)]: [false] when the process was killed. *)
Definition consoleread_wait (_ : unit) : M kstate (unit + bool) :=
  (c <- gets cons;
   if c_r c =? c_w c then
     p <- curproc;
     x <- proc_at p;
     if negb (p_killed x =? 0) then release cons_lock;; ret (inr false)
     else sleep cons_chan cons_lock;; ret (inl tt)
   else ret (inr true))%K.

(** [n] bytes of [target] are still wanted; [None] is the early return -1.
    The state carries the bytes delivered so far. *)
Definition consoleread_body (target : Z) (st : place * Z * list Z) :
    M kstate (place * Z * list Z + option (Z * list Z)) :=
  let '(dst, n, acc) := st in
  (if 0 <? n then
     ok <- loop consoleread_wait tt;
     if negb ok then ret (inr None)
     else
       cs <- gets cons;
       let c := nth (Z.to_nat (c_r cs mod INPUT_BUF)) (c_buf cs) 0 in
       upd_cons (fun cs => set_c_r (u32 (c_r cs + 1)) cs);;
       if c =? ctrl "D" then
         (if n <? target then upd_cons (fun cs => set_c_r (u32 (c_r cs - 1)) cs) else ret tt);;
         ret (inr (Some (n, acc)))
       else
         r <- either_copyout dst [c] 1;
         if r =? -1 then ret (inr (Some (n, acc)))
         else if c =? NL then ret (inr (Some (n - 1, acc ++ [c])))
         else ret (inl (padd dst 1, n - 1, acc ++ [c]))
   else ret (inr (Some (n, acc))))%K.

(** The result and the bytes delivered. *)
Definition consoleread (dst : place) (n : Z) : M kstate (Z * list Z) :=
  (let target := n in
   acquire cons_lock;;
   r <- loop (consoleread_body target) (dst, n, []);
   match r with
   | None => ret (-1, [])
   | Some (n, acc) => release cons_lock;; ret (target - n, acc)
   end)%K.

(** [^U]: erase back to the start of the line. *)
Definition kill_line_body (_ : unit) : M kstate (unit + unit) :=
  (c <- gets cons;
   if negb (c_e c =? c_w c) &&
      negb (nth (Z.to_nat (u32 (c_e c - 1) mod INPUT_BUF)) (c_buf c) 0 =? NL) then
     upd_cons (fun c => set_c_e (u32 (c_e c - 1)) c);;
     consputc BACKSPACE;;
     ret (inl tt)
   else ret (inr tt))%K.

Definition consoleintr (c : Z) : M kstate unit :=
  (acquire cons_lock;;
   (if c =? ctrl "P" then procdump
    else if c =? ctrl "U" then loop kill_line_body tt
    else if (c =? ctrl "H") || (c =? 0x7f) then
      cs <- gets cons;
      if negb (c_e cs =? c_w cs) then
        upd_cons (fun c => set_c_e (u32 (c_e c - 1)) c);;
        consputc BACKSPACE
      else ret tt
    else
      cs <- gets cons;
      if negb (c =? 0) && (u32 (c_e cs - c_r cs) <? INPUT_BUF) then
        let c := if c =? 13 then NL else c in
        consputc c;;
        upd_cons (fun cs => set_c_buf (<[Z.to_nat (c_e cs mod INPUT_BUF) := c]> (c_buf cs)) cs);;
        upd_cons (fun cs => set_c_e (u32 (c_e cs + 1)) cs);;
        cs <- gets cons;
        if (c =? NL) || (c =? ctrl "D") || (c_e cs =? u32 (c_r cs + INPUT_BUF)) then
          upd_cons (fun cs => set_c_w (c_e cs) cs);;
          wakeup cons_chan
        else ret tt
      else ret tt);;
   release cons_lock)%K.

Abbreviation CONSOLE := 1%nat.

Definition consoleinit : M kstate unit :=
  (initlock cons_lock;;
   uartinit;;
   modify (fun s => set_devsw (<[CONSOLE := Some DevConsole]> (devsw s)) s))%K.

(** kernel/uart.c: uartintr *)
Definition uartintr : M kstate unit :=
  (loop (fun _ : unit =>
     c <- uartgetc;
     if c =? -1 then ret (inr tt) else consoleintr c;; ret (inl tt)) tt;;
   acquire uart_tx_lock;;
   uartstart;;
   release uart_tx_lock)%K.

End Console.
