(* ===== verification/ConsoleSpec.v ===== *)
(** * The console's line discipline *)

From S2P Require Import Prelude RingBuf Riscv Mem Locks Kalloc Vm VmWalk VmMap VmCopy Kstate UserMem Proc ProcSpec Uart PrintfSpec Console.
Import Proc Uart Console.

(** ** What the buffer holds

    [r .. e] are the characters typed and not yet read; those up to [w] are
    lines that may be read, the rest is the line being edited. *)

Record cons_ok (c : console) : Prop := {
  co_ring : rb_ok (2 ^ 32) INPUT_BUF (c_buf c) (c_r c) (c_e c);
  co_w : 0 <= c_w c < 2 ^ 32;
  co_between : rb_len (2 ^ 32) (c_r c) (c_w c) <= rb_len (2 ^ 32) (c_r c) (c_e c);
}.

Definition typed (c : console) : list Z := rb_items (2 ^ 32) INPUT_BUF (c_buf c) (c_r c) (c_e c).
Definition ready_len (c : console) : nat := Z.to_nat (rb_len (2 ^ 32) (c_r c) (c_w c)).
Definition ready (c : console) : list Z := take (ready_len c) (typed c).
Definition editing (c : console) : list Z := drop (ready_len c) (typed c).

Lemma in_size : 0 < INPUT_BUF.
Proof. done. Qed.
Lemma in_small : INPUT_BUF < 2 ^ 32.
Proof. done. Qed.
Lemma in_div : (INPUT_BUF | 2 ^ 32).
Proof. by exists (2 ^ 25). Qed.

Lemma typed_split c : typed c = ready c ++ editing c.
Proof. symmetry. apply take_drop. Qed.

Lemma typed_length c : length (typed c) = Z.to_nat (rb_len (2 ^ 32) (c_r c) (c_e c)).
Proof. apply (rb_items_length _ _ in_size in_small in_div). Qed.

Lemma len_range r w : 0 <= rb_len (2 ^ 32) r w < 2 ^ 32.
Proof. apply (rb_len_range _ _ in_size in_small in_div). Qed.

Lemma editing_length c : cons_ok c ->
  Z.of_nat (length (editing c)) = rb_len (2 ^ 32) (c_r c) (c_e c) - rb_len (2 ^ 32) (c_r c) (c_w c).
Proof.
  intros [_ _ Hb]. unfold editing, ready_len. rewrite length_drop, typed_length.
  pose proof (len_range (c_r c) (c_e c)). pose proof (len_range (c_r c) (c_w c)). lia.
Qed.

Lemma rb_len_inj r w w' : 0 <= w < 2 ^ 32 -> 0 <= w' < 2 ^ 32 ->
  rb_len (2 ^ 32) r w = rb_len (2 ^ 32) r w' -> w = w'.
Proof.
  intros Hw Hw' E. rewrite <- (rb_w_eq _ _ in_size in_small in_div r w Hw), E.
  by apply (rb_w_eq _ _ in_size in_small in_div).
Qed.

Lemma editing_empty c : cons_ok c -> (c_e c =? c_w c) = (length (editing c) =? 0)%nat.
Proof.
  intros Hok. pose proof (editing_length c Hok) as Hl. destruct Hok as [[_ Hr He _] Hw Hb].
  apply eq_iff_eq_true. rewrite Z.eqb_eq, Nat.eqb_eq. split.
  - intros E. rewrite E in Hl. lia.
  - intros E. apply (rb_len_inj (c_r c)); [done..|]. lia.
Qed.

(** ** Changes of the buffer *)

Definition cons_put (ch : Z) (c : console) : console :=
  set_c_e (u32 (c_e c + 1)) (set_c_buf (<[Z.to_nat (c_e c mod INPUT_BUF) := ch]> (c_buf c)) c).
Definition cons_erase (c : console) : console := set_c_e (u32 (c_e c - 1)) c.
Definition cons_commit (c : console) : console := set_c_w (c_e c) c.

Lemma cons_put_spec ch c : cons_ok c -> (length (typed c) < 128)%nat ->
  cons_ok (cons_put ch c) /\ ready (cons_put ch c) = ready c /\
  editing (cons_put ch c) = editing c ++ [ch].
Proof.
  intros [Hring Hw Hb] Hlt. rewrite typed_length in Hlt.
  pose proof (len_range (c_r c) (c_e c)). pose proof (len_range (c_r c) (c_w c)).
  assert (rb_len (2 ^ 32) (c_r c) (c_e c) < INPUT_BUF) as Hlt' by (unfold INPUT_BUF; lia).
  assert (typed (cons_put ch c) = typed c ++ [ch]) as Ht.
  { by apply (rb_push _ _ in_size in_small in_div). }
  assert (ready_len c <= length (typed c))%nat as Hle by (unfold ready_len; rewrite typed_length; lia).
  split; [|unfold ready, editing; change (ready_len (cons_put ch c)) with (ready_len c);
           rewrite Ht, take_app_le, drop_app_le by done; done].
  split; [by apply (rb_ok_push _ _ in_size in_small in_div)|done|]. simpl. unfold u32.
  rewrite (rb_len_push _ _ in_size in_small in_div) by done. lia.
Qed.

Lemma cons_erase_spec c : cons_ok c -> editing c <> [] ->
  cons_ok (cons_erase c) /\ ready (cons_erase c) = ready c /\
  editing c = editing (cons_erase c) ++ [nth (Z.to_nat (u32 (c_e c - 1) mod INPUT_BUF)) (c_buf c) 0].
Proof.
  intros Hok Hne. pose proof (editing_length c Hok) as Hl. destruct Hok as [Hring Hw Hb].
  pose proof (len_range (c_r c) (c_e c)). pose proof (len_range (c_r c) (c_w c)).
  assert (0 < Z.of_nat (length (editing c))) by (destruct (editing c); [done|simpl; lia]).
  assert (typed c = typed (cons_erase c) ++ [nth (Z.to_nat (u32 (c_e c - 1) mod INPUT_BUF)) (c_buf c) 0]) as Ht.
  { apply (rb_unpush _ _ in_size in_small in_div); [done|lia]. }
  assert (rb_len (2 ^ 32) (c_r c) (u32 (c_e c - 1)) = rb_len (2 ^ 32) (c_r c) (c_e c) - 1) as Hlen.
  { apply (rb_len_unpush _ _ in_size in_small in_div). lia. }
  assert (ready_len c <= length (typed (cons_erase c)))%nat as Hle.
  { unfold ready_len. rewrite typed_length. simpl. lia. }
  split; [|unfold ready, editing; change (ready_len (cons_erase c)) with (ready_len c);
           rewrite Ht, take_app_le, drop_app_le by done; done].
  split; [apply (rb_ok_unpush _ _ in_size in_small in_div); [done|simpl; lia]|done|]. simpl. lia.
Qed.

Lemma cons_commit_spec c : cons_ok c ->
  cons_ok (cons_commit c) /\ ready (cons_commit c) = ready c ++ editing c /\ editing (cons_commit c) = [].
Proof.
  intros [Hring Hw Hb]. split; [split; [done|apply Hring|done]|].
  assert (ready_len (cons_commit c) = length (typed c)) as E by (by rewrite typed_length).
  unfold ready at 1, editing at 2. rewrite E. change (typed (cons_commit c)) with (typed c).
  by rewrite <- typed_split, firstn_all, drop_all.
Qed.

(** ** The editor

    What one character does to the lines that are ready, to the line being
    edited, and to the screen, and whether readers are woken. *)

Fixpoint drop_line (l : list Z) : list Z :=
  match l with [] => [] | c :: l' => if c =? NL then l else drop_line l' end.
Definition kill_line (ed : list Z) : list Z := rev (drop_line (rev ed)).

Definition rubout : list Z := [8; 32; 8].

Definition input_char (c : Z) (rd ed : list Z) : list Z * list Z * list Z * bool :=
  if c =? ctrl "U" then
    (rd, kill_line ed, concat (repeat rubout (length ed - length (kill_line ed))), false)
  else if (c =? ctrl "H") || (c =? 0x7f) then
    (rd, removelast ed, match ed with [] => [] | _ => rubout end, false)
  else if negb (c =? 0) && (length rd + length ed <? 128)%nat then
    let c := if c =? 13 then NL else c in
    if (c =? NL) || (c =? ctrl "D") || (length rd + length ed =? 127)%nat
    then (rd ++ ed ++ [c], [], [c], true)
    else (rd, ed ++ [c], [c], false)
  else (rd, ed, [], false).

(** The effect of one interrupt. *)
Definition typed_in (s s' : kstate) (out : list Z * list Z * list Z * bool) : Prop :=
  let '(rd, ed, echo, woken) := out in
  exists c s1, sent echo s s1 /\ cons_ok c /\ ready c = rd /\ editing c = ed /\
    s' = set_cons c (set_procs (if (woken : bool) then imap (wake cons_chan (cpu_proc s)) (procs s) else procs s) s1).

Lemma consputc_rubout s : line_ok s -> exists s', consputc BACKSPACE s = Ret tt s' /\ sent rubout s s'.
Proof.
  intros Hok. unfold consputc. rewrite Z.eqb_refl. unfold bind.
  destruct (uartputc_sync_sent 8 s Hok) as (s1 & -> & S1). cbn [bindr].
  destruct (uartputc_sync_sent 32 s1) as (s2 & -> & S2); [by eapply sent_ok|]. cbn [bindr].
  pose proof (sent_trans _ _ _ _ _ S1 S2) as S12.
  destruct (uartputc_sync_sent 8 s2) as (s3 & -> & S3); [by eapply sent_ok|].
  exists s3. split; [done|]. exact (sent_trans _ _ _ _ _ S12 S3).
Qed.

Lemma sent_cons bs c s s' : sent bs (set_cons c s) s' ->
  exists s1, sent bs s s1 /\ s' = set_cons c s1.
Proof. intros (vs & e & Hv & ->). eexists. split; [by exists vs, e|done]. Qed.

Lemma kill_line_snoc ed c :
  kill_line (ed ++ [c]) = if c =? NL then ed ++ [c] else kill_line ed.
Proof.
  unfold kill_line. rewrite rev_unit. cbn [drop_line]. case_match; [|done].
  by rewrite <- rev_unit, rev_involutive.
Qed.

Lemma kill_line_length ed : (length (kill_line ed) <= length ed)%nat.
Proof.
  induction ed as [|c ed IH] using rev_ind; [done|]. rewrite kill_line_snoc, length_app.
  case_match; rewrite ?length_app; simpl; lia.
Qed.

Lemma kill_loop n s : (length (editing (cons s)) < n)%nat -> cons_ok (cons s) -> line_ok s ->
  exists c s1, iter_n n kill_line_body tt s = Ret (inr tt) (set_cons c s1) /\ cons_ok c /\
    ready c = ready (cons s) /\ editing c = kill_line (editing (cons s)) /\
    sent (concat (repeat rubout (length (editing (cons s)) - length (kill_line (editing (cons s)))))) s s1.
Proof.
  revert s. induction n as [|n IH]; intros s Hn Hok Hl; [lia|]. cbn [iter_n].
  unfold bind at 1, kill_line_body at 1, bind at 1, gets. cbn [bindr].
  rewrite editing_empty by done.
  destruct (Nat.eqb_spec (length (editing (cons s))) 0) as [E|E]; cbn [negb andb].
  { apply nil_length_inv in E. rewrite E. exists (cons s), s. split; [by destruct s|].
    do 3 (split; [done|]). apply sent_nil. }
  assert (editing (cons s) <> []) as Hne by (by intros E'; rewrite E' in E).
  destruct (cons_erase_spec (cons s) Hok Hne) as (Hok' & Hrd & Hed).
  set (ch := nth _ _ _) in *. rewrite Hed, kill_line_snoc.
  destruct (Z.eqb_spec ch NL) as [->|Hch]; cbn [negb andb].
  { exists (cons s), s. split; [by destruct s|]. rewrite Nat.sub_diag.
    split; [done|]. split; [done|]. split; [done|]. apply sent_nil. }
  unfold upd_cons, modify, bind. cbn [bindr].
  change (set_cons _ s) with (set_cons (cons_erase (cons s)) s).
  destruct (consputc_rubout (set_cons (cons_erase (cons s)) s)) as (s1 & -> & S1); [done|]. cbn [bindr ret].
  assert (line_ok s1) as Hl1 by (eapply sent_ok; [|exact S1]; exact Hl).
  apply sent_cons in S1 as (s2 & S1 & ->).
  destruct (IH (set_cons (cons_erase (cons s)) s2)) as (c & s3 & Hi & Hokc & Hrc & Hec & S3); [|done|done|].
  { cbn [cons set_cons]. rewrite Hed, length_app in Hn. simpl in Hn. lia. }
  apply sent_cons in S3 as (s4 & S3 & ->). cbn [cons set_cons] in *.
  exists c, s4. split; [exact Hi|]. split; [done|]. split; [congruence|]. split; [done|].
  pose proof (kill_line_length (editing (cons_erase (cons s)))). rewrite length_app. simpl.
  replace (_ + 1 - _)%nat with (S (length (editing (cons_erase (cons s))) - length (kill_line (editing (cons_erase (cons s)))))) by lia.
  exact (sent_trans _ _ _ _ _ S1 S3).
Qed.

Lemma sent_unlock bs h s s1 : sent bs (set_held h s) s1 -> sent bs s (set_held (held s) s1).
Proof. intros (vs & e & Hv & ->). exists vs, e. split; [done|]. by destruct s as [[]]. Qed.

Lemma sent_held bs s s' : sent bs s s' -> held s' = held s.
Proof. by intros (vs & e & Hv & ->). Qed.

Lemma full_test c : cons_ok c ->
  (u32 (c_e c - c_r c) <? INPUT_BUF) = (length (ready c) + length (editing c) <? 128)%nat.
Proof.
  intros Hok. rewrite <- length_app, <- typed_split, typed_length. unfold u32. fold (rb_len (2 ^ 32) (c_r c) (c_e c)).
  pose proof (len_range (c_r c) (c_e c)). unfold INPUT_BUF.
  apply eq_iff_eq_true. rewrite Z.ltb_lt, Nat.ltb_lt. lia.
Qed.

Lemma last_test c : cons_ok c -> (length (ready c) + length (editing c) < 128)%nat ->
  (u32 (c_e c + 1) =? u32 (c_r c + INPUT_BUF)) = (length (ready c) + length (editing c) =? 127)%nat.
Proof.
  intros Hok Hlt. destruct (cons_put_spec 0 c Hok) as (Hok' & Hr & He).
  { by rewrite typed_split, length_app. }
  destruct Hok' as [[_ ? ? _] _ _]. apply eq_iff_eq_true. rewrite Z.eqb_eq, Nat.eqb_eq.
  change (u32 (c_e c + 1)) with (c_e (cons_put 0 c)). unfold u32 at 1.
  rewrite (rb_full _ _ in_size in_small in_div) by done.
  pose proof (typed_length (cons_put 0 c)) as Hlen. rewrite typed_split, length_app, Hr, He, length_app in Hlen.
  simpl in *. pose proof (len_range (c_r c) (u32 (c_e c + 1))). unfold INPUT_BUF. lia.
Qed.

(** The body of [consoleintr], between its lock operations. *)
Definition intr_body (c : Z) : M kstate unit :=
  (if c =? ctrl "P" then procdump
   else if c =? ctrl "U" then loop kill_line_body tt
   else if (c =? ctrl "H") || (c =? 0x7f) then
     cs <- gets cons;
     if negb (c_e cs =? c_w cs) then
       upd_cons (fun c => set_c_e (u32 (c_e c - 1)) c);; consputc BACKSPACE
     else ret tt
   else
     cs <- gets cons;
     if negb (c =? 0) && (u32 (c_e cs - c_r cs) <? INPUT_BUF) then
       let c := if c =? 13 then NL else c in
       consputc c;;
       upd_cons (fun cs => set_c_buf (<[Z.to_nat (c_e cs mod INPUT_BUF) := c]> (c_buf cs)) cs);;
       upd_cons (fun cs => set_c_e (u32 (c_e cs + 1)) cs);;
       cs <- gets cons;
       if (c =? NL) || (c =? ctrl "D") || (c_e cs =? u32 (c_r cs + INPUT_BUF)) then
         upd_cons (fun cs => set_c_w (c_e cs) cs);; wakeup cons_chan
       else ret tt
     else ret tt)%K.

Lemma typed_in_same s : cons_ok (cons s) -> typed_in s s (ready (cons s), editing (cons s), [], false).
Proof.
  intros Hok. exists (cons s), s. split; [apply sent_nil|]. do 3 (split; [done|]). by destruct s.
Qed.

Lemma intr_char c s : cons_ok (cons s) -> line_ok s -> ptab_ok s -> no_plock s -> is_char c ->
  c <> 0 -> c <> 13 -> (length (ready (cons s)) + length (editing (cons s)) < 128)%nat ->
  exists s', (consputc c;;
       upd_cons (fun cs => set_c_buf (<[Z.to_nat (c_e cs mod INPUT_BUF) := c]> (c_buf cs)) cs);;
       upd_cons (fun cs => set_c_e (u32 (c_e cs + 1)) cs);;
       cs <- gets cons;
       if (c =? NL) || (c =? ctrl "D") || (c_e cs =? u32 (c_r cs + INPUT_BUF)) then
         upd_cons (fun cs => set_c_w (c_e cs) cs);; wakeup cons_chan
       else ret tt)%K s = Ret tt s' /\
    typed_in s s' (if (c =? NL) || (c =? ctrl "D") || (length (ready (cons s)) + length (editing (cons s)) =? 127)%nat
      then (ready (cons s) ++ editing (cons s) ++ [c], [], [c], true)
      else (ready (cons s), editing (cons s) ++ [c], [c], false)).
Proof.
  intros Hok Hl Hpt Hnl Hc H0 H13 Hlt.
  destruct (cons_put_spec c (cons s) Hok) as (Hok' & Hr & He); [by rewrite typed_split, length_app|].
  destruct (consputc_sent c s Hc Hl) as (s1 & Hput & S1). unfold bind, upd_cons, modify, gets.
  rewrite Hput. cbn [bindr]. assert (cons s1 = cons s) as Ec by (by destruct S1 as (? & ? & _ & ->)).
  assert (cpu_proc s1 = cpu_proc s /\ procs s1 = procs s) as [Ecpu Eps] by (by destruct S1 as (? & ? & _ & ->)).
  set (s2 := set_cons (cons_put c (cons s1)) s1).
  repeat match goal with |- context [set_cons (set_c_e ?a ?b) ?d] =>
    change (set_cons (set_c_e a b) d) with s2 end.
  change (c_e (cons s2)) with (u32 (c_e (cons s1) + 1)). change (c_r (cons s2)) with (c_r (cons s1)).
  rewrite Ec, last_test by done.
  destruct (_ || (_ =? 127)%nat) eqn:Etest.
  - destruct (cons_commit_spec _ Hok') as (Hok2 & Hr2 & He2).
    rewrite wakeup_spec.
    + eexists. split; [done|]. unfold typed_in. exists (cons_commit (cons_put c (cons s))), s1.
      split; [done|]. split; [done|]. rewrite Hr2, He2, Hr, He. do 2 (split; [by rewrite ?app_assoc|]).
      cbn. rewrite Ec, Ecpu, Eps. done.
    + unfold ptab_ok. cbn. by rewrite Eps.
    + intros i _. change (proc_lock i ∉ held s1). rewrite (sent_held _ _ _ S1). apply Hnl.
  - eexists. split; [done|]. exists (cons_put c (cons s)), s1. rewrite Hr, He.
    do 4 (split; [done|]). unfold s2. rewrite Ec, <- Eps. by destruct s1.
Qed.

Lemma intr_body_spec c s : cons_ok (cons s) -> line_ok s -> ptab_ok s -> no_plock s -> is_char c ->
  c <> ctrl "P" ->
  exists s', intr_body c s = Ret tt s' /\
    typed_in s s' (input_char c (ready (cons s)) (editing (cons s))).
Proof.
  intros Hok Hl Hpt Hnl Hc HP. unfold intr_body, input_char.
  rewrite (proj2 (Z.eqb_neq _ _) HP).
  destruct (c =? ctrl "U") eqn:EU.
  { destruct (kill_loop (S (length (editing (cons s)))) s) as (c' & s1 & Hi & Hok' & Hr & He & S1); [lia|done..|].
    eexists. split.
    - eapply loop_exit; [|exact Hi]. pose proof (editing_length _ Hok).
      pose proof (len_range (c_r (cons s)) (c_e (cons s))). pose proof (len_range (c_r (cons s)) (c_w (cons s))). lia.
    - exists c', s1. do 4 (split; [done|]). destruct S1 as (vs & e & _ & ->). by destruct s. }
  destruct ((c =? ctrl "H") || (c =? 127)) eqn:EH.
  { unfold bind, gets. cbn [bindr]. rewrite editing_empty by done.
    destruct (editing (cons s)) as [|x ed] eqn:Eed; cbn [length Nat.eqb negb].
    { eexists. split; [done|]. pose proof (typed_in_same s Hok) as H. rewrite Eed in H. exact H. }
    rewrite <- Eed. destruct (cons_erase_spec (cons s) Hok) as (Hok' & Hr & He); [by rewrite Eed|].
    unfold upd_cons, modify. cbn [bindr].
    destruct (consputc_rubout (set_cons (cons_erase (cons s)) s)) as (s1 & Hp & S1); [done|].
    apply sent_cons in S1 as (s2 & S1 & ->).
    eexists. split; [exact Hp|]. exists (cons_erase (cons s)), s2. split; [done|]. split; [done|].
    split; [done|]. split; [by rewrite He, removelast_last|].
    destruct S1 as (vs & e & _ & ->). by destruct s. }
  unfold bind at 1, gets at 1. cbn [bindr]. rewrite full_test by done.
  destruct (Z.eqb_spec c 0) as [->|H0]; cbn [negb andb].
  { eexists. split; [done|]. by apply typed_in_same. }
  destruct (Nat.ltb_spec (length (ready (cons s)) + length (editing (cons s))) 128) as [Hlt|Hge].
  2:{ eexists. split; [done|]. by apply typed_in_same. }
  cbv zeta. apply intr_char; try done.
  - destruct (Z.eqb_spec c 13); [by vm_compute|done].
  - destruct (Z.eqb_spec c 13); [by vm_compute|done].
  - destruct (Z.eqb_spec c 13); [by vm_compute|done].
Qed.

(** C31: the console's line editor.  Apart from ^P, which prints the process
    table, every character typed has exactly the effect of the editor above on
    the finished lines, on the line being edited and on the screen: ^U erases
    the line, ^H and DEL the last character, never into a finished line; other
    characters are appended and echoed while there is room, a carriage return
    as a newline; and a newline, ^D or a full buffer finishes the line and
    wakes up readers. *)
Theorem consoleintr_correct c s :
  cons_ok (cons s) -> line_ok s -> ptab_ok s -> no_plock s -> cons_lock ∉ held s ->
  is_char c -> c <> ctrl "P" ->
  exists s', consoleintr c s = Ret tt s' /\ held s' = held s /\
    typed_in s s' (input_char c (ready (cons s)) (editing (cons s))).
Proof.
  intros Hok Hl Hpt Hnl Hlk Hc HP. unfold consoleintr, bind at 1. rewrite acquire_eq by done. cbn [bindr].
  set (s0 := set_held (cons_lock :: held s) s).
  destruct (intr_body_spec c s0) as (s1 & Hb & Ht); [done..| |done|done|].
  { intros i. cbn. apply not_elem_of_cons. split; [done|apply Hnl]. }
  unfold bind at 1. change (bindr _ (fun _ => release cons_lock)) with
    (bindr (intr_body c s0) (fun _ => release cons_lock)). rewrite Hb. cbn [bindr].
  destruct (input_char _ _ _) as [[[rd ed] echo] woken]. destruct Ht as (cs & s2 & S2 & ? & ? & ? & ->).
  rewrite (release_head cons_lock (held s)) by exact (sent_held _ _ _ S2).
  eexists. split; [done|]. split; [done|]. exists cs, (set_held (held s) s2).
  split; [by eapply sent_unlock|]. do 3 (split; [done|]). done.
Qed.

(** Three characters typed, the counters about to wrap around. *)
Definition demo_cons : kstate :=
  set_cons (MkConsole (repeat 120 128) (2 ^ 32 - 2) (2 ^ 32 - 2) 1) (zero_kstate (Machine ∅ 0 0 [] 0 0 0)).

Lemma consoleintr_correct_witness : exists s',
  consoleintr 13 demo_cons = Ret tt s' /\ held s' = [] /\
  typed_in demo_cons s' ([120; 120; 120; NL], [], [NL], true).
Proof.
  apply (consoleintr_correct 13 demo_cons);
    [|done|by vm_compute|intros i; apply not_elem_of_nil|apply not_elem_of_nil|by vm_compute|by vm_compute].
  by split; [split|..]; vm_compute.
Defined.

(** ** consoleread *)

Definition cons_take (c : console) : console := set_c_r (u32 (c_r c + 1)) c.
Definition next_char (c : console) : Z := nth (Z.to_nat (c_r c mod INPUT_BUF)) (c_buf c) 0.

Lemma ready_length c : cons_ok c -> length (ready c) = ready_len c.
Proof.
  intros [_ _ Hb]. unfold ready, ready_len. rewrite length_take, typed_length.
  pose proof (len_range (c_r c) (c_e c)). pose proof (len_range (c_r c) (c_w c)). lia.
Qed.

Lemma ready_empty c : cons_ok c -> (c_r c =? c_w c) = (length (ready c) =? 0)%nat.
Proof.
  intros Hok. rewrite ready_length by done. destruct Hok as [[_ Hr He _] Hw Hb].
  pose proof (len_range (c_r c) (c_w c)). unfold ready_len.
  apply eq_iff_eq_true. rewrite Z.eqb_eq, Nat.eqb_eq.
  rewrite (rb_empty _ _ in_size in_small in_div) by done. lia.
Qed.

Lemma cons_take_spec c : cons_ok c -> ready c <> [] ->
  cons_ok (cons_take c) /\ ready c = next_char c :: ready (cons_take c) /\
  editing (cons_take c) = editing c.
Proof.
  intros Hok Hne. pose proof (ready_length c Hok) as Hl. pose proof Hok as [Hring Hw Hb].
  assert (0 < length (ready c))%nat as Hpos by (destruct (ready c); [done|simpl; lia]).
  pose proof (len_range (c_r c) (c_w c)). pose proof (len_range (c_r c) (c_e c)). unfold ready_len in Hl.
  assert (0 < rb_len (2 ^ 32) (c_r c) (c_e c)) as Hpe by lia.
  pose proof (rb_pop _ _ in_size in_small in_div _ _ _ Hring Hpe) as Hpop.
  pose proof (rb_len_pop _ _ in_size in_small in_div (c_r c) (c_w c) ltac:(lia)) as Hlw.
  pose proof (rb_len_pop _ _ in_size in_small in_div (c_r c) (c_e c) Hpe) as Hle.
  assert (ready_len c = S (ready_len (cons_take c))) as Hrl.
  { unfold ready_len. simpl. unfold u32. rewrite Hlw. lia. }
  assert (typed c = next_char c :: typed (cons_take c)) as Ht by exact Hpop.
  split; [|unfold ready, editing; rewrite Hrl, Ht; done].
  split; [by apply (rb_ok_pop _ _ in_size in_small in_div)|done|]. simpl. unfold u32. lia.
Qed.

(** Putting the character back is the inverse. *)
Lemma cons_untake c : cons_ok c -> set_c_r (u32 (c_r (cons_take c) - 1)) (cons_take c) = c.
Proof.
  intros [[_ Hr _ _] _ _]. unfold cons_take. simpl. unfold u32.
  rewrite Zminus_mod_idemp_l. replace (c_r c + 1 - 1) with (c_r c) by lia.
  rewrite Z.mod_small by done. by destruct c.
Qed.

(** What a read of [n] bytes, [target] in the beginning, delivers of the
    finished lines [rd], and how many characters it consumes: up to a newline;
    ^D ends the read, and stays if something was delivered before it.  [None]:
    there is not enough yet. *)
Fixpoint read_line (target n : Z) (rd : list Z) : option (list Z * nat) :=
  if 0 <? n then
    match rd with
    | [] => None
    | c :: rd' =>
        if c =? ctrl "D" then Some ([], if n <? target then 0%nat else 1%nat)
        else if c =? NL then Some ([c], 1%nat)
        else match read_line target (n - 1) rd' with
             | Some (bs, k) => Some (c :: bs, S k)
             | None => None
             end
    end
  else Some ([], 0%nat).

Section read.
Context (s : kstate) (T : ptree) (ps : list Z) (pr : nat) (p : proc).
Hypothesis Hc : cpu_proc s = Some pr.
Hypothesis Hp : procs s !! pr = Some p.

(** The state after some characters were delivered. *)
Definition delivered (c : console) (m : mem) : kstate :=
  set_cons c (set_mach (set_ram m (mach s)) s).

Lemma read_wait c m : cons_ok c -> ready c <> [] ->
  loop consoleread_wait tt (delivered c m) = Ret true (delivered c m).
Proof.
  intros Hok Hne. apply (loop_exit 1); [lia|]. rewrite iter_n_1.
  unfold consoleread_wait, bind, gets. cbn [bindr delivered cons set_cons].
  rewrite ready_empty by done. by destruct (ready c).
Qed.

Lemma copy_char c m addr ch : uvm_inv (set_ram m (mach s)) (p_pagetable p) T ps ->
  0 <= addr -> upage m T addr <> 0 ->
  exists m', uvm_inv (set_ram m' (mach s)) (p_pagetable p) T ps /\ uwritten m T m' addr [ch] /\
    either_copyout (PUser addr) [ch] 1 (delivered c m) = Ret 0 (delivered c m').
Proof.
  intros Hu Ha Hpg. pose proof (upage_bound _ _ _ Hpg). assert (MAXVA < 2 ^ 64) by done.
  destruct (copyout1 (p_pagetable p) (delivered c m) T ps addr ch) as (m' & Hu' & Hco & Hw); [done|lia|].
  exists m'. cbn [delivered mach set_cons set_mach ram set_ram] in *.
  rewrite decide_False in Hco by done. rewrite decide_False in Hw by done. split; [done|]. split; [done|].
  unfold either_copyout, bind. rewrite (curproc_eq pr) by done. cbn [bindr].
  rewrite (proc_at_eq pr _ p) by done. cbn [bindr]. exact Hco.
Qed.

Lemma read_iter target rd n addr acc c m bs k :
  cons_ok c -> ready c = rd -> uvm_inv (set_ram m (mach s)) (p_pagetable p) T ps ->
  read_line target n rd = Some (bs, k) -> 0 <= addr -> umapped m T addr (Z.of_nat (length bs)) ->
  exists c' m', iter_n (S (length rd)) (consoleread_body target) (PUser addr, n, acc) (delivered c m) =
      Ret (inr (Some (n - Z.of_nat (length bs), acc ++ bs))) (delivered c' m') /\
    cons_ok c' /\ ready c' = drop k rd /\ editing c' = editing c /\
    uvm_inv (set_ram m' (mach s)) (p_pagetable p) T ps /\ uwritten m T m' addr bs.
Proof.
  revert n addr acc c m bs k. induction rd as [|ch rd IH]; intros n addr acc c m bs k Hok Hrd Hu Hrl Ha Hm;
    cbn [read_line] in Hrl; cbn [iter_n length]; unfold bind at 1, consoleread_body at 1.
  { destruct (0 <? n); [done|]. injection Hrl as <- <-. exists c, m. simpl.
    rewrite Z.sub_0_r, app_nil_r. by split_and!; [..|apply uwritten_nil]. }
  destruct (0 <? n) eqn:En.
  2:{ injection Hrl as <- <-. exists c, m. simpl. rewrite Z.sub_0_r, app_nil_r. by split_and!; [..|apply uwritten_nil]. }
  assert (ready c <> []) as Hne by (by rewrite Hrd).
  destruct (cons_take_spec c Hok Hne) as (Hok' & Hr' & He').
  rewrite Hrd in Hr'. injection Hr' as Hch Hrd'.
  unfold bind at 1. rewrite read_wait by done. cbn [bindr negb].
  unfold bind at 1, gets. cbn [bindr]. unfold bind at 1, upd_cons at 1, modify. cbn [bindr].
  change (nth _ (c_buf (cons (delivered c m))) 0) with (next_char c). rewrite <- Hch.
  change (set_cons _ (delivered c m)) with (delivered (cons_take c) m).
  destruct (ch =? ctrl "D").
  { injection Hrl as <- <-. simpl length. rewrite Z.sub_0_r, app_nil_r. unfold bind at 1.
    destruct (n <? target).
    - exists c, m. unfold upd_cons, modify. cbn [bindr ret].
      change (set_cons _ (delivered (cons_take c) m)) with
        (delivered (set_c_r (u32 (c_r (cons_take c) - 1)) (cons_take c)) m).
      rewrite cons_untake, drop_0 by done.
      by split_and!; [..|apply uwritten_nil].
    - exists (cons_take c), m. cbn. rewrite drop_0. by split_and!; [..|apply uwritten_nil]. }
  destruct (ch =? NL).
  { injection Hrl as <- <-. 
    destruct (copy_char (cons_take c) m addr ch Hu Ha) as (m' & Hu' & Hw & Hco); [apply Hm; simpl; lia|].
    unfold bind. rewrite Hco. cbn [bindr]. change (0 =? -1) with false. cbn.
    exists (cons_take c), m'. by split_and!. }
  destruct (read_line target (n - 1) rd) as [[bs' k']|] eqn:Erl; [|done]. injection Hrl as <- <-.
  cbn [length] in Hm |- *.
  assert (upage m T addr <> 0) as Hpg by (apply Hm; lia).
  destruct (copy_char (cons_take c) m addr ch Hu Ha Hpg) as (m1 & Hu1 & Hw1 & Hco).
  unfold bind at 1. rewrite Hco. cbn [bindr]. change (0 =? -1) with false. cbn [bindr ret padd].
  pose proof (upage_bound _ _ _ Hpg). assert (MAXVA < 2 ^ 64) by done. rewrite u64_small by lia.
  destruct (IH (n - 1) (addr + 1) (acc ++ [ch]) (cons_take c) m1 bs' k')
    as (c' & m' & Hi & Hokc & Hrc & Hec & Hu' & Hw'); [done..|lia| |].
  { intros v Hv. rewrite (upage_ext m m1 T v) by apply Hw1. apply Hm. lia. }
  exists c', m'. split.
  { replace (n - Z.of_nat (S (length bs'))) with (n - 1 - Z.of_nat (length bs')) by lia.
    rewrite <- app_assoc in Hi. exact Hi. }
  split_and!; try done; [congruence|]. exact (uwritten_app _ _ _ _ _ [ch] bs' Hw1 Hw').
Qed.
End read.

Lemma read_wait_empty s pr p : cpu_proc s = Some pr -> procs s !! pr = Some p ->
  cons_ok (cons s) -> ready (cons s) = [] ->
  consoleread_wait tt (set_held (cons_lock :: held s) s) =
    if negb (p_killed p =? 0) then Ret (inr false) s
    else bindr (sleep cons_chan cons_lock (set_held (cons_lock :: held s) s)) (fun _ => ret (inl tt)).
Proof.
  intros Hc Hp Hok Hr. unfold consoleread_wait, bind, gets. cbn [bindr].
  change (cons (set_held _ s)) with (cons s).
  rewrite ready_empty, Hr by done. cbn [length Nat.eqb]. rewrite (curproc_eq pr) by done. cbn [bindr].
  rewrite (proc_at_eq pr _ p) by done. cbn [bindr]. destruct (negb _); [|done].
  erewrite release_head by reflexivity. cbn. f_equal. by destruct s as [[]].
Qed.

(** C32: [consoleread] delivers a line.  If the finished input allows a read of
    [n] bytes to complete and the caller's buffer is mapped, the caller gets
    exactly the characters up to the newline, to ^D or to [n], in its memory,
    which changes nowhere else; those characters leave the buffer, a ^D met
    after other characters stays for the next read, and the line being edited
    is untouched.  With no finished input the reader sleeps, or returns -1 if
    it was killed. *)
Theorem consoleread_correct s T ps pr p addr n :
  cpu_proc s = Some pr -> procs s !! pr = Some p -> cons_lock ∉ held s -> cons_ok (cons s) ->
  uvm_inv (mach s) (p_pagetable p) T ps -> 0 <= addr ->
  (forall bs k, read_line n n (ready (cons s)) = Some (bs, k) ->
     umapped (ram (mach s)) T addr (Z.of_nat (length bs)) ->
     exists c m, consoleread (PUser addr) n s =
         Ret (Z.of_nat (length bs), bs) (set_cons c (set_mach (set_ram m (mach s)) s)) /\
       uvm_inv (set_ram m (mach s)) (p_pagetable p) T ps /\
       uwritten (ram (mach s)) T m addr bs /\ cons_ok c /\
       ready c = drop k (ready (cons s)) /\ editing c = editing (cons s)) /\
  (ready (cons s) = [] -> 0 < n -> p_killed p = 0 -> held s = [] ->
     exists k, consoleread (PUser addr) n s = Switch (asleep_on cons_chan pr p s) k) /\
  (ready (cons s) = [] -> 0 < n -> p_killed p <> 0 -> consoleread (PUser addr) n s = Ret (-1, []) s).
Proof.
  intros Hc Hp Hlk Hok Hu Ha. unfold consoleread. unfold bind at 1 4 7. rewrite acquire_eq by done. cbn [bindr].
  set (s1 := set_held (cons_lock :: held s) s).
  assert (Kalloc.kmem_lock ∉ mlocks (mach s)) as Hkm by apply Hu.
  assert (uvm_inv (mach s1) (p_pagetable p) T ps) as Hu1.
  { apply uvm_inv_locks; [done|]. apply not_elem_of_cons. split; [done|apply Hkm]. }
  split; [|split].
  - intros bs k Hrl Hm.
    destruct (read_iter s1 T ps pr p Hc Hp n (ready (cons s)) n addr [] (cons s) (ram (mach s)) bs k)
      as (c & m & Hi & Hokc & Hrc & Hec & Hu' & Hw); [done..| |done|done|done|].
    { by destruct s as [[]]. }
    assert (Z.of_nat (S (length (ready (cons s)))) <= 2 ^ 64) as Hbound.
    { rewrite ready_length by done. unfold ready_len. pose proof (len_range (c_r (cons s)) (c_w (cons s))). lia. }
    exists c, m. split; [|split_and!; try done; by apply (uvm_inv_unlock (cons_lock :: held s))].
    assert (delivered s1 (cons s) (ram (mach s)) = s1) as Es by (by destruct s as [[]]). rewrite Es in Hi.
    unfold bind at 1. rewrite (loop_exit _ _ _ _ _ _ Hbound Hi). cbn [bindr app].
    unfold bind. erewrite release_head by reflexivity. cbn [bindr]. unfold ret.
    replace (n - (n - Z.of_nat (length bs))) with (Z.of_nat (length bs)) by lia. by f_equal.
  - intros Hr Hn Hk Hh. pose proof (read_wait_empty s pr p Hc Hp Hok Hr) as Hwait. rewrite Hk in Hwait.
    destruct (sleep_switch cons_chan cons_lock pr p s1) as [k Hsl]; [done..| |done|].
    { cbn. cbn in Hh. by rewrite Hh. }
    fold s1 in Hwait. rewrite Hsl in Hwait. cbn [Z.eqb negb bindr] in Hwait.
    destruct (loop_switch _ _ _ _ _ Hwait) as [k1 Hl1].
    assert (exists k2, consoleread_body n (PUser addr, n, []) s1 = Switch (asleep_on cons_chan pr p s1) k2) as [k2 Hb2].
    { unfold consoleread_body. rewrite (proj2 (Z.ltb_lt _ _)) by done. unfold bind at 1. rewrite Hl1. by eexists. }
    destruct (loop_switch _ _ _ _ _ Hb2) as [k3 Hl3].
    unfold bind. rewrite Hl3. cbn [bindr]. by eexists.
  - intros Hr Hn Hk. pose proof (read_wait_empty s pr p Hc Hp Hok Hr) as Hwait.
    rewrite (proj2 (Z.eqb_neq _ _) Hk) in Hwait. cbn [negb] in Hwait.
    unfold bind. rewrite (loop_exit 1 _ _ _ None s); [done|lia|]. rewrite iter_n_1.
    unfold consoleread_body. rewrite (proj2 (Z.ltb_lt _ _)) by done.
    unfold bind. rewrite (loop_exit 1 consoleread_wait tt s1 false s); [done|lia|]. by rewrite iter_n_1.
Qed.

(** A finished line and a character of the next; the process has page 0. *)
Definition demo_line : console := MkConsole ([104; 105; NL; 120] ++ repeat 0 124) 0 3 4.
Definition demo_typing : kstate :=
  let s := zero_kstate demo_space in
  set_cons demo_line (set_cpu_proc (Some 0%nat)
    (set_procs (<[0%nat := set_p_pagetable 0x87fff000 zero_proc]> (procs s)) s)).

Lemma consoleread_correct_witness : exists c m,
  consoleread (PUser 16) 100 demo_typing =
    Ret (3, [104; 105; NL]) (set_cons c (set_mach (set_ram m demo_space) demo_typing)) /\
  uvm_inv (set_ram m demo_space) 0x87fff000 demo_T [] /\
  uwritten demo_ram demo_T m 16 [104; 105; NL] /\ cons_ok c /\ ready c = [] /\ editing c = [120].
Proof.
  apply (consoleread_correct demo_typing demo_T [] 0%nat (set_p_pagetable 0x87fff000 zero_proc) 16 100)
    with (bs := [104; 105; NL]) (k := 3%nat);
    [done|done|apply not_elem_of_nil|by split; [split|..]; vm_compute|apply demo_uvm|lia|by vm_compute|].
  intros v Hv. assert (v = 16 \/ v = 17 \/ v = 18) as [->|[->| ->]] by (simpl in Hv; lia); by vm_compute.
Defined.
