(* ===== verification/Pipe.v ===== *)
(** * kernel/pipe.c

    Pipes: a ring of [PIPESIZE] bytes between a read and a write index that
    only grow, modulo 2^32.  A pipe is named by the address of its page. *)

From S2P Require Import Prelude Riscv Mem Locks Kalloc Vm Kstate Proc.
Import Proc.

Module Pipe.

Definition PIPESIZE : Z := 512.
Definition pipe_lock (pi : Z) : lockid := ("pipe", pi).
Definition nread_chan (pi : Z) : chan := ("pipe.nread", pi).
Definition nwrite_chan (pi : Z) : chan := ("pipe.nwrite", pi).

Definition pipeclose (pi : Z) (writable : bool) : M kstate unit :=
  (acquire (pipe_lock pi);;
   (if writable then
      pipe_upd pi (set_pi_writeopen false);;
      wakeup (nread_chan pi)
    else
      pipe_upd pi (set_pi_readopen false);;
      wakeup (nwrite_chan pi));;
   x <- pipe_at pi;
   if negb (pi_readopen x) && negb (pi_writeopen x) then
     release (pipe_lock pi);;
     modify (fun s => set_pipes (delete pi (pipes s)) s);;
     vm (Kalloc.kfree pi)
   else release (pipe_lock pi))%K.

(** One round of [pipewrite]'s loop; [inr None] is the early return -1. *)
Definition pipewrite_body (pr : nat) (pi addr n i : Z) : M kstate (Z + option Z) :=
  (if i <? n then
     x <- pipe_at pi;
     p <- proc_at pr;
     if negb (pi_readopen x) || negb (p_killed p =? 0) then
       release (pipe_lock pi);;
       ret (inr None)
     else if pi_nwrite x =? u32 (pi_nread x + PIPESIZE) then
       wakeup (nread_chan pi);;
       sleep (nwrite_chan pi) (pipe_lock pi);;
       ret (inl i)
     else
       ' (r, bs) <- vm (Vm.copyin (p_pagetable p) (u64 (addr + i)) 1);
       if r =? -1 then ret (inr (Some i))
       else
         pipe_upd pi (fun x =>
           set_pi_data (<[Z.to_nat (pi_nwrite x mod PIPESIZE) := hd 0 bs]> (pi_data x)) x);;
         pipe_upd pi (fun x => set_pi_nwrite (u32 (pi_nwrite x + 1)) x);;
         ret (inl (i + 1))
   else ret (inr (Some i)))%K.

Definition pipewrite (pi addr n : Z) : M kstate Z :=
  (pr <- curproc;
   acquire (pipe_lock pi);;
   r <- loop (pipewrite_body pr pi addr n) 0;
   match r with
   | None => ret (-1)
   | Some i =>
       wakeup (nread_chan pi);;
       release (pipe_lock pi);;
       ret i
   end)%K.

(** The wait for data: [false] is the early return -1. *)
Definition piperead_wait (pr : nat) (pi : Z) (_ : unit) : M kstate (unit + bool) :=
  (x <- pipe_at pi;
   if (pi_nread x =? pi_nwrite x) && pi_writeopen x then
     p <- proc_at pr;
     if negb (p_killed p =? 0) then release (pipe_lock pi);; ret (inr false)
     else sleep (nread_chan pi) (pipe_lock pi);; ret (inl tt)
   else ret (inr true))%K.

Definition piperead_body (pr : nat) (pi addr n i : Z) : M kstate (Z + Z) :=
  (if i <? n then
     x <- pipe_at pi;
     if pi_nread x =? pi_nwrite x then ret (inr i)
     else
       let ch := nth (Z.to_nat (pi_nread x mod PIPESIZE)) (pi_data x) 0 in
       pipe_upd pi (fun x => set_pi_nread (u32 (pi_nread x + 1)) x);;
       p <- proc_at pr;
       r <- vm (Vm.copyout (p_pagetable p) (u64 (addr + i)) [ch] 1);
       if r =? -1 then ret (inr i) else ret (inl (i + 1))
   else ret (inr i))%K.

Definition piperead (pi addr n : Z) : M kstate Z :=
  (pr <- curproc;
   acquire (pipe_lock pi);;
   ok <- loop (piperead_wait pr pi) tt;
   if negb ok then ret (-1)
   else
     i <- loop (piperead_body pr pi addr n) 0;
     wakeup (nwrite_chan pi);;
     release (pipe_lock pi);;
     ret i)%K.

End Pipe.
