(* ===== verification/PipeSpec.v ===== *)
(** * Pipes as queues *)

From S2P Require Import Prelude RingBuf Riscv Mem Locks Kalloc Vm VmWalk VmMap VmCopy Kstate UserMem Proc ProcSpec Pipe.
Import Proc Pipe.

Definition pipe_ok (x : pipe) : Prop := rb_ok (2 ^ 32) PIPESIZE (pi_data x) (pi_nread x) (pi_nwrite x).

(** The bytes in a pipe, oldest first. *)
Definition pipe_bytes (x : pipe) : list Z :=
  rb_items (2 ^ 32) PIPESIZE (pi_data x) (pi_nread x) (pi_nwrite x).

Lemma pipe_size : 0 < PIPESIZE.
Proof. done. Qed.
Lemma pipe_small : PIPESIZE < 2 ^ 32.
Proof. done. Qed.
Lemma pipe_div : (PIPESIZE | 2 ^ 32).
Proof. by exists (2 ^ 23). Qed.

(** ** The operations on the ring *)

Definition pipe_push (c : Z) (x : pipe) : pipe :=
  set_pi_nwrite (u32 (pi_nwrite x + 1))
    (set_pi_data (<[Z.to_nat (pi_nwrite x mod PIPESIZE) := c]> (pi_data x)) x).
Definition pipe_pop (x : pipe) : pipe := set_pi_nread (u32 (pi_nread x + 1)) x.

Lemma pipe_full x : pipe_ok x ->
  (pi_nwrite x =? u32 (pi_nread x + PIPESIZE)) = (length (pipe_bytes x) =? 512)%nat.
Proof.
  intros [_ Hr Hw Hf]. unfold pipe_bytes. rewrite (rb_items_length _ _ pipe_size pipe_small pipe_div).
  pose proof (rb_len_range _ _ pipe_size pipe_small pipe_div (pi_nread x) (pi_nwrite x)).
  apply eq_iff_eq_true. rewrite Z.eqb_eq, Nat.eqb_eq. unfold u32.
  rewrite (rb_full _ _ pipe_size pipe_small pipe_div) by done. unfold PIPESIZE in *. lia.
Qed.

Lemma pipe_empty x : pipe_ok x ->
  (pi_nread x =? pi_nwrite x) = (length (pipe_bytes x) =? 0)%nat.
Proof.
  intros [_ Hr Hw Hf]. unfold pipe_bytes. rewrite (rb_items_length _ _ pipe_size pipe_small pipe_div).
  pose proof (rb_len_range _ _ pipe_size pipe_small pipe_div (pi_nread x) (pi_nwrite x)).
  apply eq_iff_eq_true. rewrite Z.eqb_eq, Nat.eqb_eq.
  rewrite (rb_empty _ _ pipe_size pipe_small pipe_div) by done. lia.
Qed.

Lemma pipe_len x : pipe_ok x ->
  Z.of_nat (length (pipe_bytes x)) = rb_len (2 ^ 32) (pi_nread x) (pi_nwrite x).
Proof.
  intros _. unfold pipe_bytes. rewrite (rb_items_length _ _ pipe_size pipe_small pipe_div).
  pose proof (rb_len_range _ _ pipe_size pipe_small pipe_div (pi_nread x) (pi_nwrite x)). lia.
Qed.

Lemma pipe_push_spec c x : pipe_ok x -> (length (pipe_bytes x) < 512)%nat ->
  pipe_ok (pipe_push c x) /\ pipe_bytes (pipe_push c x) = pipe_bytes x ++ [c].
Proof.
  intros Hok Hlt. pose proof (pipe_len x Hok).
  split; [apply (rb_ok_push _ _ pipe_size pipe_small pipe_div)|
          apply (rb_push _ _ pipe_size pipe_small pipe_div)];
    [exact Hok|simpl; unfold PIPESIZE; lia|exact Hok|simpl; unfold PIPESIZE; lia].
Qed.

Lemma pipe_pop_spec x : pipe_ok x -> pipe_bytes x <> [] ->
  pipe_ok (pipe_pop x) /\
  pipe_bytes x = nth (Z.to_nat (pi_nread x mod PIPESIZE)) (pi_data x) 0 :: pipe_bytes (pipe_pop x).
Proof.
  intros Hok Hne. pose proof (pipe_len x Hok) as Hl.
  assert (0 < rb_len (2 ^ 32) (pi_nread x) (pi_nwrite x)).
  { rewrite <- Hl. destruct (pipe_bytes x); [done|]. simpl. lia. }
  split; [by apply (rb_ok_pop _ _ pipe_size pipe_small pipe_div)|
          by apply (rb_pop _ _ pipe_size pipe_small pipe_div)].
Qed.

Lemma pipe_at_eq pi x s : pipes s !! pi = Some x -> pipe_at pi s = Ret x s.
Proof. intros E. unfold pipe_at. by rewrite E. Qed.

Lemma pipe_upd_eq pi f x s : pipes s !! pi = Some x ->
  pipe_upd pi f s = Ret tt (set_pipes (<[pi := f x]> (pipes s)) s).
Proof. intros E. unfold pipe_upd. by rewrite E. Qed.

(** ** pipewrite *)

(** After [i] bytes: the pipe has them, nothing else has changed. *)
Definition wrote (s : kstate) (T : ptree) (pi addr n : Z) (x : pipe) (k : nat) (i : Z) (s' : kstate) : Prop :=
  exists x', s' = set_pipes (<[pi := x']> (pipes s)) s /\ k = Z.to_nat (n - i) /\ 0 <= i <= n /\
    umapped (ram (mach s)) T addr i /\ pipe_ok x' /\ pi_readopen x' = pi_readopen x /\
    pi_writeopen x' = pi_writeopen x /\
    pipe_bytes x' = pipe_bytes x ++ uread (ram (mach s)) T addr i.

(** Everything from [addr] on that is mapped, up to [n] bytes. *)
Definition stops_at (m : mem) (T : ptree) (addr n i : Z) : Prop :=
  0 <= i <= n /\ umapped m T addr i /\ (i < n -> upage m T (addr + i) = 0).

Section write.
Context (s : kstate) (T : ptree) (pr : nat) (p : proc) (pi addr n : Z) (x : pipe).
Hypothesis Hp : procs s !! pr = Some p.
Hypothesis Hkilled : p_killed p = 0.
Hypothesis Hend : KERNBASE <= kend (mach s).
Hypothesis Hrep : pt_rep (kend (mach s)) (ram (mach s)) (p_pagetable p) T.
Hypothesis Hx : pipes s !! pi = Some x.
Hypothesis Hpipe : pipe_ok x.
Hypothesis Hopen : pi_readopen x = true.
Hypothesis Haddr : 0 <= addr < 2 ^ 64.
Hypothesis Hroom : Z.of_nat (length (pipe_bytes x)) + n <= PIPESIZE.

Lemma pipewrite_step k i s1 : wrote s T pi addr n x k i s1 ->
  runs (fun r s' => match r with
    | inl i' => exists k', (k' < k)%nat /\ wrote s T pi addr n x k' i' s'
    | inr (Some i') => wrote s T pi addr n x (Z.to_nat (n - i')) i' s' /\ stops_at (ram (mach s)) T addr n i'
    | inr None => False
    end) (pipewrite_body pr pi addr n i s1).
Proof.
  intros (x' & -> & -> & Hi & Hm & Hok & Hro & Hwo & Hbytes). unfold pipewrite_body.
  destruct (Z.ltb_spec i n) as [Hlt|Hge].
  2:{ simpl. split; [exists x'; by split_and!; try lia|]. by split_and!; try lia. }
  unfold bind. erewrite pipe_at_eq by apply lookup_insert_eq. cbn [bindr].
  erewrite proc_at_eq by (simpl; exact Hp). cbn [bindr].
  rewrite Hro, Hopen, Hkilled. cbn [negb orb Z.eqb].
  assert (length (pipe_bytes x') < 512)%nat as Hfit.
  { rewrite Hbytes, length_app, uread_length by lia. unfold PIPESIZE in Hroom. lia. }
  rewrite pipe_full, (proj2 (Nat.eqb_neq _ _)) by (done || lia).
  assert (i = 0 \/ addr + i <= MAXVA) as Hin.
  { destruct (decide (i = 0)); [by left|right]. eapply umapped_last; [lia| |done]. lia. }
  assert (MAXVA < 2 ^ 64) by done.
  rewrite u64_small by lia.
  rewrite (copyin1 _ _ T) by (done || lia). cbn [mach set_pipes].
  case_decide as Hpg; cbn [bindr Z.eqb].
  { simpl. split; [exists x'; by split_and!; try lia|]. by split_and!; try lia. }
  destruct (pipe_push_spec (ubyte (ram (mach s)) T (addr + i)) x' Hok Hfit) as [Hok' Hb'].
  change (0 =? -1) with false. cbn [hd].
  erewrite pipe_upd_eq by apply lookup_insert_eq. cbn [bindr].
  erewrite pipe_upd_eq by apply lookup_insert_eq. cbn [bindr runs ret].
  exists (Z.to_nat (n - (i + 1))). split; [lia|]. eexists. split.
  { cbn. by rewrite !insert_insert_eq. }
  split_and!; try done; try lia.
  - apply umapped_next; [lia|done..].
  - by rewrite uread_next, app_assoc, <- Hbytes by lia.
Qed.

Lemma pipewrite_loop : 0 <= n -> exists i s', loop (pipewrite_body pr pi addr n) 0 s = Ret (Some i) s' /\
  wrote s T pi addr n x (Z.to_nat (n - i)) i s' /\ stops_at (ram (mach s)) T addr n i.
Proof.
  intros Hn. assert (runs (fun r s' => match r with
    | Some i' => wrote s T pi addr n x (Z.to_nat (n - i')) i' s' /\ stops_at (ram (mach s)) T addr n i'
    | None => False end) (loop (pipewrite_body pr pi addr n) 0 s)) as H.
  { eapply (runs_loop _ (wrote s T pi addr n x) _ (Z.to_nat n)).
    - intros k i s1 H1. eapply runs_mono; [by apply pipewrite_step|]. intros [i'|[i'|]] s2; auto.
    - exists x. rewrite insert_id by done. split; [by destruct s|].
      split_and!; try done; try lia; [intros v; lia|by rewrite app_nil_r].
    - unfold PIPESIZE in Hroom. lia. }
  apply runs_ret in H as ([i|] & s' & -> & H); [|done]. exists i, s'. done.
Qed.
End write.

Lemma pipewrite_enter pr p pi addr n s : cpu_proc s = Some pr -> procs s !! pr = Some p ->
  pipe_lock pi ∉ held s ->
  pipewrite pi addr n s =
  bindr (loop (pipewrite_body pr pi addr n) 0 (set_held (pipe_lock pi :: held s) s))
    (fun r => match r with
     | None => ret (-1)
     | Some i => (wakeup (nread_chan pi);; release (pipe_lock pi);; ret i)%K
     end).
Proof.
  intros Hc Hp Hl. unfold pipewrite. unfold bind at 1. rewrite (curproc_eq pr) by done. cbn [bindr].
  unfold bind at 1. rewrite acquire_eq by done. cbn [bindr]. done.
Qed.

(** C25: a write to a pipe with room appends the caller's bytes in order: all [n]
    of them, or those before the first page that is not the caller's; readers
    are woken and nothing else changes.  A full pipe makes the writer wake the
    readers and sleep, with the pipe as it was; a pipe without readers, or a
    killed writer, gives -1. *)
Theorem pipewrite_correct s T pr p pi addr n x :
  cpu_proc s = Some pr -> procs s !! pr = Some p -> ptab_ok s -> no_plock s ->
  pipe_lock pi ∉ held s -> KERNBASE <= kend (mach s) ->
  pt_rep (kend (mach s)) (ram (mach s)) (p_pagetable p) T ->
  pipes s !! pi = Some x -> pipe_ok x -> 0 <= addr < 2 ^ 64 -> 0 < n ->
  (pi_readopen x = true -> p_killed p = 0 -> Z.of_nat (length (pipe_bytes x)) + n <= PIPESIZE ->
     exists i x', pipe_ok x' /\ pipe_bytes x' = pipe_bytes x ++ uread (ram (mach s)) T addr i /\
       stops_at (ram (mach s)) T addr n i /\
       pipewrite pi addr n s =
         Ret i (set_procs (imap (wake (nread_chan pi) (Some pr)) (procs s))
                 (set_pipes (<[pi := x']> (pipes s)) s))) /\
  (pi_readopen x = true -> p_killed p = 0 -> length (pipe_bytes x) = 512%nat -> held s = [] ->
     exists k, pipewrite pi addr n s =
       Switch (asleep_on (nwrite_chan pi) pr p
         (set_procs (imap (wake (nread_chan pi) (Some pr)) (procs s)) s)) k) /\
  (pi_readopen x = false \/ p_killed p <> 0 -> pipewrite pi addr n s = Ret (-1) s).
Proof.
  intros Hc Hp Hpt Hnl Hl He Hr Hx Hok Ha Hn.
  rewrite (pipewrite_enter pr p) by done. set (s1 := set_held (pipe_lock pi :: held s) s).
  assert (forall i, proc_lock i ∉ held s1) as Hnl1.
  { intros i. unfold s1. simpl. apply not_elem_of_cons. split; [done|apply Hnl]. }
  split; [|split].
  - intros Hro Hk Hroom.
    destruct (pipewrite_loop s1 T pr p pi addr n x) as (i & s2 & -> & (x' & -> & _ & _ & _ & Hok' & _ & _ & Hb) & Hst);
      [done..|lia|].
    exists i, x'. split_and!; try done. cbn [bindr]. unfold bind.
    rewrite wakeup_spec by (done || intros ? _; apply Hnl1). cbn [bindr].
    erewrite release_head by reflexivity. simpl. rewrite Hc. f_equal. by destruct s as [[]].
  - intros Hro Hk Hfull Hh.
    destruct (sleep_switch (nwrite_chan pi) (pipe_lock pi) pr (wake (nread_chan pi) (Some pr) pr p)
      (set_procs (imap (wake (nread_chan pi) (Some pr)) (procs s)) s1)) as [k Hsl]; [done| | |done|].
    { simpl. by rewrite list_lookup_imap, Hp. }
    { cbn. cbn in Hh. by rewrite Hh. }
    destruct (loop_switch (pipewrite_body pr pi addr n) 0 s1
      (asleep_on (nwrite_chan pi) pr (wake (nread_chan pi) (Some pr) pr p)
        (set_procs (imap (wake (nread_chan pi) (Some pr)) (procs s)) s1))
      (fun s' => bindr (k s') (fun _ => ret (inl 0)))) as [k' ->].
    { unfold pipewrite_body. rewrite (proj2 (Z.ltb_lt _ _)) by done.
      unfold bind. rewrite (pipe_at_eq pi x) by done. cbn [bindr].
      rewrite (proc_at_eq pr s1 p) by done. cbn [bindr]. rewrite Hro, Hk, pipe_full, Hfull by done.
      cbn [negb orb Z.eqb Nat.eqb]. rewrite wakeup_spec by (done || intros ? _; apply Hnl1).
      cbn [bindr]. change (cpu_proc s1) with (cpu_proc s). change (procs s1) with (procs s). rewrite Hc. by rewrite Hsl. }
    cbn [bindr]. eexists. f_equal. unfold wake at 1. by rewrite decide_True.
  - intros Hor.
    rewrite (loop_exit 1 _ 0 s1 None s); [done|lia|].
    rewrite iter_n_1. unfold pipewrite_body. rewrite (proj2 (Z.ltb_lt _ _)) by done.
    unfold bind. rewrite (pipe_at_eq pi x) by done. cbn [bindr].
    rewrite (proc_at_eq pr s1 p) by done. cbn [bindr].
    replace (negb (pi_readopen x) || negb (p_killed p =? 0)) with true.
    2:{ symmetry. apply orb_true_iff. destruct Hor as [-> | Hk]; [by left|].
        right. by apply negb_true_iff, Z.eqb_neq. }
    erewrite release_head by reflexivity. cbn [bindr]. unfold ret. f_equal. by destruct s as [[]].
Qed.

(** ** piperead *)

Section read.
Context (s : kstate) (T : ptree) (ps : list Z) (pr : nat) (p : proc) (pi addr n : Z) (x : pipe).
Hypothesis Hp : procs s !! pr = Some p.
Hypothesis Hu : uvm_inv (mach s) (p_pagetable p) T ps.
Hypothesis Hx : pipes s !! pi = Some x.
Hypothesis Hpipe : pipe_ok x.
Hypothesis Haddr : 0 <= addr < 2 ^ 64.

(** [i] bytes are in the user's memory and [d] have left the pipe. *)
Definition took (i d : Z) (s' : kstate) : Prop :=
  exists x' m, s' = set_pipes (<[pi := x']> (pipes s)) (set_mach (set_ram m (mach s)) s) /\
    uvm_inv (set_ram m (mach s)) (p_pagetable p) T ps /\ pipe_ok x' /\
    pi_readopen x' = pi_readopen x /\ pi_writeopen x' = pi_writeopen x /\
    umapped (ram (mach s)) T addr i /\
    uwritten (ram (mach s)) T m addr (take (Z.to_nat i) (pipe_bytes x)) /\
    pipe_bytes x' = drop (Z.to_nat d) (pipe_bytes x).

(** Where a read stops: with all it can give, or at a page that is not the
    user's, where one more byte has left the pipe. *)
Definition read_stops (i d : Z) : Prop :=
  d = i /\ i = Z.min n (Z.of_nat (length (pipe_bytes x))) \/
  d = i + 1 /\ 0 <= i < Z.min n (Z.of_nat (length (pipe_bytes x))) /\ upage (ram (mach s)) T (addr + i) = 0.

Lemma piperead_step k i s1 :
  took i i s1 -> k = Z.to_nat (n - i) -> 0 <= i <= n -> i <= Z.of_nat (length (pipe_bytes x)) ->
  runs (fun r s' => match r with
    | inl i' => i' = i + 1 /\ i < n /\ i < Z.of_nat (length (pipe_bytes x)) /\ took i' i' s'
    | inr i' => exists d, took i' d s' /\ read_stops i' d
    end) (piperead_body pr pi addr n i s1).
Proof.
  intros (x' & m & -> & Hu' & Hok & Hro & Hwo & Hm & Hw & Hb) -> Hi Hlen. unfold piperead_body.
  destruct (Z.ltb_spec i n) as [Hlt|Hge].
  2:{ simpl. exists i. split; [by exists x', m|]. left. lia. }
  unfold bind. erewrite pipe_at_eq by apply lookup_insert_eq. cbn [bindr]. rewrite pipe_empty by done.
  assert (length (pipe_bytes x') = length (pipe_bytes x) - Z.to_nat i)%nat as Hl' by (by rewrite Hb, length_drop).
  destruct (Nat.eqb_spec (length (pipe_bytes x')) 0) as [E|E].
  { simpl. exists i. split; [by exists x', m|]. left. lia. }
  destruct (pipe_pop_spec x' Hok) as [Hok' Hpop]; [by intros E'; rewrite E' in E|].
  set (ch := nth _ _ _) in *.
  erewrite pipe_upd_eq by apply lookup_insert_eq. cbn [bindr].
  erewrite proc_at_eq by (simpl; exact Hp). cbn [bindr].
  assert (i = 0 \/ addr + i <= MAXVA) as Hin.
  { destruct (decide (i = 0)); [by left|right]. eapply umapped_last; [lia| |done]. lia. }
  assert (MAXVA < 2 ^ 64) by done.
  assert (upage m T (addr + i) = upage (ram (mach s)) T (addr + i)) as Hpg.
  { apply upage_ext, (uw_pte _ _ _ _ _ Hw). }
  set (s2 := set_pipes _ _).
  destruct (copyout1 (p_pagetable p) s2 T ps (addr + i) ch) as (m2 & Hu2 & Hco & Hw2); [done|lia|].
  rewrite u64_small by lia. rewrite Hco. cbn [bindr]. cbn [s2 mach set_pipes ram set_mach set_ram] in *.
  rewrite Hpg in *. assert (drop (Z.to_nat (i + 1)) (pipe_bytes x) = pipe_bytes (pipe_pop x')) as Hd.
  { replace (Z.to_nat (i + 1)) with (Z.to_nat i + 1)%nat by lia. by rewrite <- drop_drop, <- Hb, Hpop. }
  assert (Z.of_nat (length (take (Z.to_nat i) (pipe_bytes x))) = i) as Hti by (rewrite length_take; lia).
  rewrite <- Hti in Hw2 at 1. pose proof (uwritten_app _ _ _ _ _ _ _ Hw Hw2) as Hw12.
  case_decide as Hp0; cbn [Z.eqb runs ret].
  - exists (i + 1). split.
    + exists (pipe_pop x'), m2. rewrite Hd. split; [unfold s2; cbn; by rewrite insert_insert_eq|].
      split_and!; try done. by rewrite app_nil_r in Hw12.
    + right. lia.
  - change (0 =? -1) with false. cbn [runs ret]. split_and!; [done|done|lia|].
    exists (pipe_pop x'), m2. rewrite Hd. split; [unfold s2; cbn; by rewrite insert_insert_eq|].
    split_and!; try done.
    + apply umapped_next; [lia|done..].
    + replace (Z.to_nat (i + 1)) with (Z.to_nat i + 1)%nat by lia.
      rewrite <- take_take_drop, <- Hb, Hpop. done.
Qed.

Lemma piperead_loop : 0 <= n -> exists i d s', loop (piperead_body pr pi addr n) 0 s = Ret i s' /\
  took i d s' /\ read_stops i d.
Proof.
  intros Hn. assert (runs (fun i s' => exists d, took i d s' /\ read_stops i d)
    (loop (piperead_body pr pi addr n) 0 s)) as H.
  { eapply (runs_loop _ (fun k i s' => took i i s' /\ k = (length (pipe_bytes x) - Z.to_nat i)%nat /\
      0 <= i <= n /\ i <= Z.of_nat (length (pipe_bytes x))) _ (length (pipe_bytes x))).
    - intros k i s1 (Ht & -> & Hi & Hl). eapply runs_mono; [by apply (piperead_step (Z.to_nat (n - i)))|].
      intros [i'|i'] s2; [|done]. intros (-> & ? & ? & Ht'). eexists. split; [|split_and!; [done..|lia|lia|lia]]. lia.
    - split_and!; [|lia..]. exists x, (ram (mach s)). rewrite insert_id by done.
      split; [by destruct s as [[]]|]. split; [by destruct s as [[]]|].
      split_and!; try done; [intros v; lia|apply uwritten_nil].
    - pose proof (pipe_len x Hpipe). destruct Hpipe as [_ _ _ Hf]. unfold PIPESIZE in Hf. lia. }
  apply runs_ret in H as (i & s' & -> & d & H). eauto.
Qed.
End read.

Lemma piperead_enter pr p pi addr n s : cpu_proc s = Some pr -> procs s !! pr = Some p ->
  pipe_lock pi ∉ held s ->
  piperead pi addr n s =
  bindr (loop (piperead_wait pr pi) tt (set_held (pipe_lock pi :: held s) s))
    (fun ok => (if negb ok then ret (-1)
      else i <- loop (piperead_body pr pi addr n) 0;
           wakeup (nwrite_chan pi);; release (pipe_lock pi);; ret i)%K).
Proof.
  intros Hc Hp Hl. unfold piperead. unfold bind at 1. rewrite (curproc_eq pr) by done. cbn [bindr].
  unfold bind at 1. rewrite acquire_eq by done. cbn [bindr]. done.
Qed.

(** C26: a read from a pipe that has bytes, or no writers, delivers the oldest
    bytes in order: as many as were asked for and are there, copied to the
    caller's memory, which changes nowhere else; writers are woken.  If the
    caller's memory ends early, the read stops there, and the byte it could not
    deliver is gone.  An empty pipe with writers makes the reader sleep, or
    return -1 if it was killed. *)
Theorem piperead_correct s T ps pr p pi addr n x :
  cpu_proc s = Some pr -> procs s !! pr = Some p -> ptab_ok s -> no_plock s ->
  pipe_lock pi ∉ held s -> uvm_inv (mach s) (p_pagetable p) T ps ->
  pipes s !! pi = Some x -> pipe_ok x -> 0 <= addr < 2 ^ 64 -> 0 <= n ->
  (pipe_bytes x <> [] \/ pi_writeopen x = false ->
     exists i d x' m, pipe_ok x' /\ uvm_inv (set_ram m (mach s)) (p_pagetable p) T ps /\
       umapped (ram (mach s)) T addr i /\
       uwritten (ram (mach s)) T m addr (take (Z.to_nat i) (pipe_bytes x)) /\
       pipe_bytes x' = drop (Z.to_nat d) (pipe_bytes x) /\ read_stops s T addr n x i d /\
       piperead pi addr n s =
         Ret i (set_procs (imap (wake (nwrite_chan pi) (Some pr)) (procs s))
                 (set_pipes (<[pi := x']> (pipes s)) (set_mach (set_ram m (mach s)) s)))) /\
  (pipe_bytes x = [] -> pi_writeopen x = true -> p_killed p = 0 -> held s = [] ->
     exists k, piperead pi addr n s = Switch (asleep_on (nread_chan pi) pr p s) k) /\
  (pipe_bytes x = [] -> pi_writeopen x = true -> p_killed p <> 0 -> piperead pi addr n s = Ret (-1) s).
Proof.
  intros Hc Hp Hpt Hnl Hl Hu Hx Hok Ha Hn.
  rewrite (piperead_enter pr p) by done. set (s1 := set_held (pipe_lock pi :: held s) s).
  assert (forall i, proc_lock i ∉ held s1) as Hnl1.
  { intros i. unfold s1. simpl. apply not_elem_of_cons. split; [done|apply Hnl]. }
  assert (piperead_wait pr pi tt s1 =
    if (length (pipe_bytes x) =? 0)%nat && pi_writeopen x then
      if negb (p_killed p =? 0) then Ret (inr false) s
      else bindr (sleep (nread_chan pi) (pipe_lock pi) s1) (fun _ => ret (inl tt))
    else Ret (inr true) s1) as Hwait.
  { unfold piperead_wait, bind. rewrite (pipe_at_eq pi x) by done. cbn [bindr]. rewrite pipe_empty by done.
    destruct (_ && _); [|done]. rewrite (proc_at_eq pr s1 p) by done. cbn [bindr].
    destruct (negb _); [|done]. erewrite release_head by reflexivity. cbn. f_equal. by destruct s as [[]]. }
  split; [|split].
  - intros Hor. replace ((_ =? 0)%nat && _) with false in Hwait.
    2:{ symmetry. apply andb_false_iff. destruct Hor as [Hne| ->]; [left|by right].
        by destruct (pipe_bytes x). }
    rewrite (loop_exit 1 _ tt s1 true s1) by (by rewrite ?iter_n_1 || lia). cbn [bindr negb].
    assert (Kalloc.kmem_lock ∉ mlocks (mach s)) as Hkm by apply Hu.
    destruct (piperead_loop s1 T ps pr p pi addr n x) as
      (i & d & s2 & Hloop & (x' & m & -> & Hu' & Hok' & _ & _ & Hm & Hw & Hb) & Hst); [done| |done..|].
    { apply uvm_inv_locks; [done|]. apply not_elem_of_cons. split; [done|apply Hkm]. }
    exists i, d, x', m. split_and!; try done; [by apply (uvm_inv_unlock (pipe_lock pi :: held s))|].
    unfold bind. rewrite Hloop. cbn [bindr].
    rewrite wakeup_spec by (done || intros ? _; apply Hnl1). cbn [bindr].
    erewrite release_head by reflexivity. simpl. by rewrite Hc.
  - intros Hb Hwo Hk Hh. rewrite Hb, Hwo, Hk in Hwait. cbn [length Nat.eqb andb Z.eqb negb] in Hwait.
    destruct (sleep_switch (nread_chan pi) (pipe_lock pi) pr p s1) as [k Hsl]; [done..| |done|].
    { cbn. cbn in Hh. by rewrite Hh. }
    rewrite Hsl in Hwait. cbn [bindr] in Hwait.
    destruct (loop_switch _ _ _ _ _ Hwait) as [k' ->]. cbn [bindr]. by eexists.
  - intros Hb Hwo Hk. rewrite Hb, Hwo, (proj2 (Z.eqb_neq _ _) Hk) in Hwait. cbn [length Nat.eqb andb negb] in Hwait.
    rewrite (loop_exit 1 _ tt s1 false s) by (by rewrite ?iter_n_1 || lia). done.
Qed.

(** Two bytes in a pipe whose counters wrap around; the process has page 0. *)
Definition demo_pipe : pipe := MkPipe (repeat 7 512) (2 ^ 32 - 1) 1 true true.
Definition demo_reader : proc := set_p_pagetable 0x87fff000 zero_proc.
Definition demo_pipes : kstate :=
  let s := zero_kstate demo_space in
  set_pipes {[ 0x87ffb000 := demo_pipe ]} (set_cpu_proc (Some 0%nat)
    (set_procs (<[0%nat := demo_reader]> (procs s)) s)).

Lemma demo_pipe_ok : pipe_ok demo_pipe.
Proof. by split; vm_compute. Qed.

Lemma pipewrite_correct_witness : exists i x', pipe_ok x' /\
  pipe_bytes x' = [7; 7] ++ uread demo_ram demo_T 16 i /\ stops_at demo_ram demo_T 16 3 i /\
  pipewrite 0x87ffb000 16 3 demo_pipes =
    Ret i (set_procs (imap (wake (nread_chan 0x87ffb000) (Some 0%nat)) (procs demo_pipes))
            (set_pipes (<[0x87ffb000 := x']> (pipes demo_pipes)) demo_pipes)).
Proof.
  apply (pipewrite_correct demo_pipes demo_T 0%nat demo_reader 0x87ffb000 16 3 demo_pipe);
    [done|done|by vm_compute|intros i; apply not_elem_of_nil|apply not_elem_of_nil|done|
     apply demo_uvm|by apply lookup_singleton_eq|apply demo_pipe_ok|lia|lia|done|done|by vm_compute].
Defined.

Lemma piperead_correct_witness : exists i d x' m, pipe_ok x' /\
  uvm_inv (set_ram m demo_space) 0x87fff000 demo_T [] /\ umapped demo_ram demo_T 16 i /\
  uwritten demo_ram demo_T m 16 (take (Z.to_nat i) [7; 7]) /\
  pipe_bytes x' = drop (Z.to_nat d) [7; 7] /\ read_stops demo_pipes demo_T 16 5 demo_pipe i d /\
  piperead 0x87ffb000 16 5 demo_pipes =
    Ret i (set_procs (imap (wake (nwrite_chan 0x87ffb000) (Some 0%nat)) (procs demo_pipes))
      (set_pipes (<[0x87ffb000 := x']> (pipes demo_pipes)) (set_mach (set_ram m demo_space) demo_pipes))).
Proof.
  apply (piperead_correct demo_pipes demo_T [] 0%nat demo_reader 0x87ffb000 16 5 demo_pipe);
    [done|done|by vm_compute|intros i; apply not_elem_of_nil|apply not_elem_of_nil|
     apply demo_uvm|by apply lookup_singleton_eq|apply demo_pipe_ok|lia|lia|by left].
Defined.
