(* ===== verification/Blk.v ===== *)
(** * Disk blocks

    The data of a buffer is the list of its bytes; C structures laid over it
    are read and written as little-endian fields at their offsets. *)

From S2P Require Import Prelude.

Fixpoint le_bytes (n : nat) (v : Z) : list Z :=
  match n with O => [] | S n' => u8 v :: le_bytes n' (v / 256) end.

Fixpoint le_val (bs : list Z) : Z :=
  match bs with [] => 0 | b :: bs' => b + 256 * le_val bs' end.

(** [lput d off bs] is [d] with [bs] stored at [off]; bytes past the end of [d]
    are dropped. *)
Definition lput (d : list Z) (off : Z) (bs : list Z) : list Z :=
  take (length d) (take (Z.to_nat off) d ++ bs ++ drop (Z.to_nat off + length bs) d).
Definition lsub (d : list Z) (off n : Z) : list Z := take (Z.to_nat n) (drop (Z.to_nat off) d).

Definition get8 (d : list Z) (off : Z) : Z := nth (Z.to_nat off) d 0.
Definition get16 (d : list Z) (off : Z) : Z := le_val (lsub d off 2).
Definition get32 (d : list Z) (off : Z) : Z := le_val (lsub d off 4).
Definition get64 (d : list Z) (off : Z) : Z := le_val (lsub d off 8).
Definition put8 (d : list Z) (off v : Z) : list Z := lput d off [u8 v].
Definition put16 (d : list Z) (off v : Z) : list Z := lput d off (le_bytes 2 v).
Definition put32 (d : list Z) (off v : Z) : list Z := lput d off (le_bytes 4 v).

(** The signed 16-bit value, C's [short]. *)
Definition i16 (x : Z) : Z := (x + 2 ^ 15) mod 2 ^ 16 - 2 ^ 15.

(** [memset(d + off, 0, n)] *)
Definition lzero (d : list Z) (off n : Z) : list Z := lput d off (repeat 0 (Z.to_nat n)).

Lemma le_bytes_length n v : length (le_bytes n v) = n.
Proof. revert v; induction n as [|n IH]; intros v; simpl; [done|]. by rewrite IH. Qed.

Lemma le_val_bytes n v : le_val (le_bytes n v) = v mod 2 ^ (8 * Z.of_nat n).
Proof.
  revert v; induction n as [|n IH]; intros v; [by rewrite Z.mod_1_r|].
  cbn [le_bytes le_val]. rewrite IH. unfold u8.
  replace (8 * Z.of_nat (S n)) with (8 + 8 * Z.of_nat n) by lia.
  rewrite Z.pow_add_r, Z.rem_mul_r by lia. change (2 ^ 8) with 256. lia.
Qed.

Lemma lput_length d off bs : length (lput d off bs) = length d.
Proof.
  unfold lput. rewrite length_take, !length_app, length_take, length_drop. lia.
Qed.

Lemma lsub_lput d off bs :
  0 <= off -> (Z.to_nat off + length bs <= length d)%nat ->
  lsub (lput d off bs) off (Z.of_nat (length bs)) = bs.
Proof.
  intros Ho Hl. unfold lsub, lput. rewrite Nat2Z.id.
  rewrite (take_ge (_ ++ _)); [|rewrite !length_app, length_take, length_drop; lia].
  rewrite drop_app_ge, length_take, Nat.min_l, Nat.sub_diag by (rewrite ?length_take; lia).
  rewrite drop_0. by apply take_app_length'.
Qed.

(** A store leaves the bytes outside its range alone. *)
Lemma lput_lookup_out d off bs i :
  0 <= off -> (Z.to_nat off + length bs <= length d)%nat ->
  (i < Z.to_nat off \/ Z.to_nat off + length bs <= i)%nat -> lput d off bs !! i = d !! i.
Proof.
  intros Ho Hl Hi. unfold lput.
  rewrite (take_ge (_ ++ _)); [|rewrite !length_app, length_take, length_drop; lia].
  destruct Hi as [Hi|Hi].
  - rewrite lookup_app_l, lookup_take_lt by (rewrite ?length_take; lia). done.
  - rewrite lookup_app_r, length_take, Nat.min_l by (rewrite ?length_take; lia).
    rewrite lookup_app_r by lia. rewrite lookup_drop. f_equal. lia.
Qed.

Lemma get32_put32 d off v :
  0 <= off -> off + 4 <= Z.of_nat (length d) -> get32 (put32 d off v) off = u32 v.
Proof.
  intros Ho Hl. unfold get32, put32.
  pose proof (lsub_lput d off (le_bytes 4 v) Ho) as H. rewrite le_bytes_length in H.
  change (Z.of_nat 4) with 4 in H. rewrite H by lia. by rewrite le_val_bytes.
Qed.

Lemma get16_put16 d off v :
  0 <= off -> off + 2 <= Z.of_nat (length d) -> get16 (put16 d off v) off = u16 v.
Proof.
  intros Ho Hl. unfold get16, put16.
  pose proof (lsub_lput d off (le_bytes 2 v) Ho) as H. rewrite le_bytes_length in H.
  change (Z.of_nat 2) with 2 in H. rewrite H by lia. by rewrite le_val_bytes.
Qed.

(** Fields that do not overlap a store keep their value. *)
Lemma lsub_lput_ne d off bs off' n :
  0 <= off -> off + Z.of_nat (length bs) <= Z.of_nat (length d) -> 0 <= off' ->
  off' + n <= off \/ off + Z.of_nat (length bs) <= off' ->
  lsub (lput d off bs) off' n = lsub d off' n.
Proof.
  intros Ho Hl Ho' Hd. unfold lsub. apply list_eq. intros i.
  destruct (decide (i < Z.to_nat n)%nat) as [Hi|Hi].
  - rewrite !lookup_take_lt, !lookup_drop by lia. apply lput_lookup_out; lia.
  - rewrite !lookup_take_ge by lia. done.
Qed.
