(* ===== verification/Bio.v ===== *)
(** * kernel/bio.c

    The buffer cache: a ring of buffers through [b_prev] and [b_next], most
    recently used first, with the head at index [NBUF]. *)

From S2P Require Import Prelude Riscv Mem Locks Kalloc Kstate Proc Sleeplock.
Import Proc Sleeplock.

Module Bio.

Definition BSIZE : Z := 1024.
Definition bcache_lock : lockid := ("bcache", 0).

(** ** The disk

    What [virtio_disk_rw] (kernel/virtio_disk.c) promises when it returns: the
    buffer's data and the block on the disk are the same, the disk's when it
    was a read, the buffer's when it was a write.  [disk_writes] lists the
    writes in the order they reached the disk, latest first. *)

Definition disk_block (s : kstate) (n : Z) : list Z :=
  default (repeat 0 (Z.to_nat BSIZE)) (disk s !! n).

Definition virtio_disk_rw (b : nat) (write : bool) : M kstate unit :=
  (x <- buf_at b;
   if write then
     modify (fun s => set_disk_writes ((b_blockno x, b_data x) :: disk_writes s)
                        (set_disk (<[b_blockno x := b_data x]> (disk s)) s))
   else
     d <- gets (fun s => disk_block s (b_blockno x));
     buf_upd b (set_b_data d))%K.

(** ** The ring *)

(** [bcache.head] is a [struct buf] of its own: the last element of [bufs]. *)
Definition head : nat := Z.to_nat NBUF.
Definition idx (b : nat) : Z := Z.of_nat b.
Definition b_next_at (b : nat) : M kstate nat := (x <- buf_at b; ret (Z.to_nat (b_next x)))%K.
Definition b_prev_at (b : nat) : M kstate nat := (x <- buf_at b; ret (Z.to_nat (b_prev x)))%K.

(** The body of [binit]'s loop: buffer [b] goes to the front of the ring. *)
Definition binit_body (b : nat) : M kstate unit :=
  (n <- b_next_at head;
   buf_upd b (set_b_next (idx n));;
   buf_upd b (set_b_prev (idx head));;
   initsleeplock (SLbuf b);;
   n <- b_next_at head;
   buf_upd n (set_b_prev (idx b));;
   buf_upd head (set_b_next (idx b)))%K.

Definition binit : M kstate unit :=
  (initlock bcache_lock;;
   buf_upd head (set_b_prev (idx head));;
   buf_upd head (set_b_next (idx head));;
   for_each (seq 0 (Z.to_nat NBUF)) binit_body)%K.

(** The two searches of [bget]: for the block, from the most recent buffer on,
    and for an unused buffer, from the least recent on. *)
Definition bget_cached (dev blockno : Z) (b : nat) : M kstate (nat + option nat) :=
  (if decide (b = head) then ret (inr None)
   else
     x <- buf_at b;
     if (b_dev x =? dev) && (b_blockno x =? blockno) then ret (inr (Some b))
     else n <- b_next_at b; ret (inl n))%K.

Definition bget_unused (b : nat) : M kstate (nat + option nat) :=
  (if decide (b = head) then ret (inr None)
   else
     x <- buf_at b;
     if b_refcnt x =? 0 then ret (inr (Some b))
     else n <- b_prev_at b; ret (inl n))%K.

Definition bget (dev blockno : Z) : M kstate nat :=
  (acquire bcache_lock;;
   first <- b_next_at head;
   r <- loop (bget_cached dev blockno) first;
   match r with
   | Some b =>
       buf_upd b (fun x => set_b_refcnt (u32 (b_refcnt x + 1)) x);;
       release bcache_lock;;
       acquiresleep (SLbuf b);;
       ret b
   | None =>
       last <- b_prev_at head;
       r <- loop bget_unused last;
       match r with
       | Some b =>
           buf_upd b (set_b_dev dev);;
           buf_upd b (set_b_blockno blockno);;
           buf_upd b (set_b_valid false);;
           buf_upd b (set_b_refcnt 1);;
           release bcache_lock;;
           acquiresleep (SLbuf b);;
           ret b
       | None => panic "bget: no buffers"
       end
   end)%K.

Definition bread (dev blockno : Z) : M kstate nat :=
  (b <- bget dev blockno;
   x <- buf_at b;
   (if negb (b_valid x) then
      virtio_disk_rw b false;;
      buf_upd b (set_b_valid true)
    else ret tt);;
   ret b)%K.

Definition bwrite (b : nat) : M kstate unit :=
  (h <- holdingsleep (SLbuf b);
   if negb h then panic "bwrite" else virtio_disk_rw b true)%K.

Definition brelse (b : nat) : M kstate unit :=
  (h <- holdingsleep (SLbuf b);
   if negb h then panic "brelse"
   else
     releasesleep (SLbuf b);;
     acquire bcache_lock;;
     buf_upd b (fun x => set_b_refcnt (u32 (b_refcnt x - 1)) x);;
     x <- buf_at b;
     (if b_refcnt x =? 0 then
        n <- b_next_at b; p <- b_prev_at b;
        buf_upd n (set_b_prev (idx p));;
        buf_upd p (set_b_next (idx n));;
        n <- b_next_at head;
        buf_upd b (set_b_next (idx n));;
        buf_upd b (set_b_prev (idx head));;
        n <- b_next_at head;
        buf_upd n (set_b_prev (idx b));;
        buf_upd head (set_b_next (idx b))
      else ret tt);;
     release bcache_lock)%K.

Definition bpin (b : nat) : M kstate unit :=
  (acquire bcache_lock;;
   buf_upd b (fun x => set_b_refcnt (u32 (b_refcnt x + 1)) x);;
   release bcache_lock)%K.

Definition bunpin (b : nat) : M kstate unit :=
  (acquire bcache_lock;;
   buf_upd b (fun x => set_b_refcnt (u32 (b_refcnt x - 1)) x);;
   release bcache_lock)%K.

(** [b->data] changed in place. *)
Definition bdata (b : nat) : M kstate (list Z) := (x <- buf_at b; ret (b_data x))%K.
Definition set_bdata (b : nat) (d : list Z) : M kstate unit := buf_upd b (set_b_data d).

End Bio.
