(* ===== verification/BioSpec.v ===== *)
(** * The buffer cache: which buffer a block gets, and what it holds

    [bufs] as a ring of buffers, most recently used first, and as a view of the
    disk in which the data of a valid buffer stands in for its block. *)

From S2P Require Import Prelude Mem Riscv Locks Ring Kalloc Kstate Proc ProcSpec Sleeplock SleeplockSpec Bio.
Import Proc Sleeplock Bio.

(** ** Access to buffers *)

Definition bufget (bs : list buf) (b : nat) : buf := default zero_buf (bs !! b).
Definition nxb (bs : list buf) (b : nat) : nat := Z.to_nat (b_next (bufget bs b)).
Definition pvb (bs : list buf) (b : nat) : nat := Z.to_nat (b_prev (bufget bs b)).

Definition NB : nat := Z.to_nat NBUF.

Lemma bufget_alter f i bs b :
  (i < length bs)%nat -> bufget (alter f i bs) b = if decide (i = b) then f (bufget bs b) else bufget bs b.
Proof.
  intros Hi. unfold bufget. case_decide as E; [subst i|by rewrite list_lookup_alter_ne].
  destruct (lookup_lt_is_Some_2 bs b Hi) as [x Hx]. by rewrite list_lookup_alter_eq, Hx.
Qed.

Lemma buf_at_eq b s : (b < length (bufs s))%nat -> buf_at b s = Ret (bufget (bufs s) b) s.
Proof.
  intros Hb. unfold buf_at, bufget. by destruct (lookup_lt_is_Some_2 _ _ Hb) as [x ->].
Qed.

Lemma buf_upd_eq b f s : (b < length (bufs s))%nat ->
  buf_upd b f s = Ret tt (set_bufs (alter f b (bufs s)) s).
Proof.
  intros Hb. unfold buf_upd. destruct (lookup_lt_is_Some_2 _ _ Hb) as [x Hx].
  by rewrite Hx, (alter_insert _ _ _ _ Hx).
Qed.

Lemma b_next_at_eq b s : (b < length (bufs s))%nat -> b_next_at b s = Ret (nxb (bufs s) b) s.
Proof. intros Hb. unfold b_next_at. by erewrite bind_Ret by by apply buf_at_eq. Qed.

Lemma b_prev_at_eq b s : (b < length (bufs s))%nat -> b_prev_at b s = Ret (pvb (bufs s) b) s.
Proof. intros Hb. unfold b_prev_at. by erewrite bind_Ret by by apply buf_at_eq. Qed.

Lemma sl_at_buf b s : (b < length (bufs s))%nat -> sl_at (SLbuf b) s = Some (b_lock (bufget (bufs s) b)).
Proof.
  intros Hb. unfold bufget. simpl. by destruct (lookup_lt_is_Some_2 _ _ Hb) as [x ->].
Qed.

(** ** The invariant

    [es] is the order of use of the buffers, [v] the contents of the disk as the
    cache presents it, and [d] the contents of the disk itself. *)

Record buf_ok (v : Z -> list Z) (d : Z -> list Z) (x : buf) : Prop := {
  bo_ref : 0 <= b_refcnt x < 2 ^ 32;
  bo_dev : b_valid x = true -> b_dev x = ROOTDEV;
  bo_view : b_valid x = true -> b_data x = v (b_blockno x);
  bo_lock : b_refcnt x = 0 -> sl_locked (b_lock x) = 0;
  bo_clean : b_valid x = true -> b_refcnt x = 0 -> b_data x = d (b_blockno x);
}.

(** Buffer [x] is the one for block [n]. *)
Definition caches (n : Z) (x : buf) : bool := (b_dev x =? ROOTDEV) && (b_blockno x =? n).

Record cache_ok (es : list nat) (v : Z -> list Z) (s : kstate) : Prop := {
  co_len : length (bufs s) = S NB;
  co_ring : ring (nxb (bufs s)) (pvb (bufs s)) head es;
  co_all : es ≡ₚ seq 0 NB;
  co_buf : forall b, b ∈ es -> buf_ok v (disk_block s) (bufget (bufs s) b);
  co_uniq : forall n b b', b ∈ es -> b' ∈ es ->
    caches n (bufget (bufs s) b) = true -> caches n (bufget (bufs s) b') = true -> b = b';
  co_rest : forall n, (forall b, b ∈ es -> caches n (bufget (bufs s) b) = true ->
      b_valid (bufget (bufs s) b) = false) -> v n = disk_block s n;
}.

Lemma co_lt es v s b : cache_ok es v s -> b ∈ es -> (b < NB)%nat.
Proof. intros H Hb. rewrite (co_all _ _ _ H), elem_of_seq in Hb. lia. Qed.

Lemma co_lt' es v s b : cache_ok es v s -> b ∈ es -> (b < length (bufs s))%nat.
Proof. intros H Hb. rewrite (co_len _ _ _ H). pose proof (co_lt _ _ _ _ H Hb). lia. Qed.

Lemma co_head es v s : cache_ok es v s -> (head < length (bufs s))%nat.
Proof. intros H. rewrite (co_len _ _ _ H). unfold head, NB. lia. Qed.

(** The fields of the ring do not change. *)
Definition keeps_links (f : buf -> buf) : Prop :=
  forall x, b_next (f x) = b_next x /\ b_prev (f x) = b_prev x.

Lemma nxb_keeps f i bs b : keeps_links f -> nxb (alter f i bs) b = nxb bs b.
Proof.
  intros Hf. unfold nxb, bufget. destruct (decide (i = b)) as [->|]; [|by rewrite list_lookup_alter_ne].
  rewrite list_lookup_alter_eq. destruct (bs !! b) as [x|]; simpl; [|done]. by destruct (Hf x) as [-> _].
Qed.

Lemma pvb_keeps f i bs b : keeps_links f -> pvb (alter f i bs) b = pvb bs b.
Proof.
  intros Hf. unfold pvb, bufget. destruct (decide (i = b)) as [->|]; [|by rewrite list_lookup_alter_ne].
  rewrite list_lookup_alter_eq. destruct (bs !! b) as [x|]; simpl; [|done]. by destruct (Hf x) as [_ ->].
Qed.

Lemma ring_ext nx pv nx' pv' h (es : list nat) :
  (forall x, nx' x = nx x) -> (forall x, pv' x = pv x) -> ring nx pv h es -> ring nx' pv' h es.
Proof. intros Hn Hp [Hd Hl]. split; [done|]. eapply links_ext; [| |exact Hl]; auto. Qed.

(** ** The searches *)

(** From the most recent buffer on, along [b_next]. *)
Lemma bget_cached_scan n es0 es s :
  head ∉ es -> (forall b, b ∈ es -> (b < length (bufs s))%nat) ->
  links (nxb (bufs s)) (pvb (bufs s)) (es ++ [head]) -> es0 = default head (hd_error es) ->
  iter_n (S (length es)) (bget_cached ROOTDEV n) es0 s =
    Ret (inr (List.find (fun b => caches n (bufget (bufs s) b)) es)) s.
Proof.
  revert es0; induction es as [|b es IH]; intros es0 Hh Hlt Hl ->.
  { change (length []) with 0%nat. rewrite iter_n_1. unfold bget_cached. by rewrite decide_True. }
  assert (bget_cached ROOTDEV n b s =
            if caches n (bufget (bufs s) b) then Ret (inr (Some b)) s
            else Ret (inl (nxb (bufs s) b)) s) as Hstep.
  { unfold bget_cached. rewrite decide_False by set_solver.
    erewrite bind_Ret by (apply buf_at_eq, Hlt; left). unfold caches. ifd; [done|].
    by erewrite bind_Ret by (apply b_next_at_eq, Hlt; left). }
  cbn [List.find]. destruct (caches _ _); [by apply iter_n_inr|].
  erewrite iter_n_inl by exact Hstep. apply IH; [set_solver|set_solver| |].
  - destruct es; [done|]. apply Hl.
  - destruct es; apply Hl.
Qed.

(** From the least recent buffer on, along [b_prev]. *)
Lemma bget_unused_scan es es0 s :
  head ∉ es -> (forall b, b ∈ es -> (b < length (bufs s))%nat) ->
  links (nxb (bufs s)) (pvb (bufs s)) (head :: es) -> es0 = default head (last es) ->
  iter_n (S (length es)) bget_unused es0 s =
    Ret (inr (List.find (fun b => b_refcnt (bufget (bufs s) b) =? 0) (rev es))) s.
Proof.
  revert es0; induction es as [|b es IH] using rev_ind; intros es0 Hh Hlt Hl ->.
  { change (length []) with 0%nat. rewrite iter_n_1. unfold bget_unused. by rewrite decide_True. }
  assert (b < length (bufs s))%nat as Hb by (apply Hlt; set_solver).
  assert (bget_unused b s =
            if b_refcnt (bufget (bufs s) b) =? 0 then Ret (inr (Some b)) s
            else Ret (inl (pvb (bufs s) b)) s) as Hstep.
  { unfold bget_unused. rewrite decide_False by set_solver.
    erewrite bind_Ret by by apply buf_at_eq. ifd; [done|].
    by erewrite bind_Ret by by apply b_prev_at_eq. }
  rewrite length_app, Nat.add_comm, last_snoc, rev_app_distr.
  cbn [List.find rev app]. destruct (b_refcnt _ =? 0); [by apply iter_n_inr|].
  erewrite iter_n_inl by exact Hstep. apply IH; [set_solver|set_solver| |].
  - by apply links_snoc in Hl as [? _].
  - by apply links_snoc in Hl as [_ ?].
Qed.

Lemma co_fuel es v s : cache_ok es v s -> Z.of_nat (S (length es)) <= 2 ^ 64.
Proof.
  intros H. rewrite (Permutation_length (co_all _ _ _ H)), length_seq. unfold NB, NBUF, MAXOPBLOCKS. lia.
Qed.

Definition find_cached (n : Z) (es : list nat) (s : kstate) : option nat :=
  List.find (fun b => caches n (bufget (bufs s) b)) es.
Definition find_unused (es : list nat) (s : kstate) : option nat :=
  List.find (fun b => b_refcnt (bufget (bufs s) b) =? 0) (rev es).

Lemma bget_cached_eq n es v s : cache_ok es v s ->
  loop (bget_cached ROOTDEV n) (nxb (bufs s) head) s = Ret (find_cached n es s) s.
Proof.
  intros Hok. pose proof (co_ring _ _ _ Hok) as [Hd Hl]. apply NoDup_cons in Hd as [Hh _].
  apply (loop_exit (S (length es))); [by eapply co_fuel|].
  apply bget_cached_scan; [done|intros; by eapply co_lt'| |].
  - destruct es; [done|]. apply Hl.
  - destruct es; apply Hl.
Qed.

Lemma bget_unused_eq es v s : cache_ok es v s ->
  loop bget_unused (pvb (bufs s) head) s = Ret (find_unused es s) s.
Proof.
  intros Hok. pose proof (co_ring _ _ _ Hok) as [Hd Hl]. apply NoDup_cons in Hd as [Hh _].
  apply (loop_exit (S (length es))); [by eapply co_fuel|].
  apply bget_unused_scan; [done|intros; by eapply co_lt'| |].
  - by apply links_snoc in Hl as [? _].
  - by apply links_snoc in Hl as [_ ?].
Qed.

Lemma cache_ok_ext es v s s' :
  bufs s' = bufs s -> disk s' = disk s -> cache_ok es v s -> cache_ok es v s'.
Proof.
  intros Eb Ed [H1 H2 H3 H4 H5 H6].
  assert (forall n, disk_block s' n = disk_block s n) as Hd by (intros; unfold disk_block; by rewrite Ed).
  split; rewrite ?Eb; try done.
  - intros b Hb. destruct (H4 b Hb). split; try done. intros. rewrite Hd. eauto.
  - intros n Hn. rewrite Hd. auto.
Qed.

Lemma find_Some_elem {A} (f : A -> bool) l x : List.find f l = Some x -> x ∈ l /\ f x = true.
Proof. intros [? ?]%find_some. by rewrite list_elem_of_In. Qed.

(** ** bget *)

(** What [bget] does to the buffer it returns: to one that holds the block, and
    to one it reuses. *)
Definition taken (pid : Z) (x : buf) : buf :=
  set_b_lock (MkSleeplock 1 pid) (set_b_refcnt (u32 (b_refcnt x + 1)) x).
Definition reused (pid n : Z) (x : buf) : buf :=
  set_b_lock (MkSleeplock 1 pid)
    (set_b_refcnt 1 (set_b_valid false (set_b_blockno n (set_b_dev ROOTDEV x)))).

Section bget.
Context (p : nat) (x : proc) (es : list nat) (v : Z -> list Z) (s : kstate) (n : Z).
Context (Ht : thread p x s) (Hok : cache_ok es v s).

Let s1 := set_held [bcache_lock] s.

Lemma bget_enter : bget ROOTDEV n s =
  match find_cached n es s with
  | Some b => (release bcache_lock;; acquiresleep (SLbuf b);; ret b)%K
      (set_bufs (alter (fun x => set_b_refcnt (u32 (b_refcnt x + 1)) x) b (bufs s)) s1)
  | None => match find_unused es s with
            | Some b => (release bcache_lock;; acquiresleep (SLbuf b);; ret b)%K
                (set_bufs (alter (fun x => set_b_refcnt 1 (set_b_valid false
                   (set_b_blockno n (set_b_dev ROOTDEV x)))) b (bufs s)) s1)
            | None => Panic "bget: no buffers"
            end
  end.
Proof.
  destruct Ht as (Hc & Hx & _ & Hh). unfold bget.
  erewrite bind_Ret by (apply acquire_eq; rewrite Hh; apply not_elem_of_nil). rewrite Hh. fold s1.
  assert (cache_ok es v s1) as Hok1 by by apply (cache_ok_ext es v s).
  erewrite bind_Ret by (apply b_next_at_eq; by eapply co_head).
  erewrite bind_Ret by by eapply bget_cached_eq. change (find_cached n es s1) with (find_cached n es s).
  destruct (find_cached n es s) as [b|] eqn:Ef.
  { apply find_Some_elem in Ef as [Hb _].
    by erewrite bind_Ret by (apply buf_upd_eq; by eapply co_lt'). }
  erewrite bind_Ret by (apply b_prev_at_eq; by eapply co_head).
  erewrite bind_Ret by by eapply bget_unused_eq. change (find_unused es s1) with (find_unused es s).
  destruct (find_unused es s) as [b|] eqn:Eu; [|done].
  apply find_Some_elem in Eu as [Hb%list_elem_of_In%in_rev%list_elem_of_In _].
  assert (b < length (bufs s))%nat as Hlt by by eapply co_lt'.
  do 4 erewrite bind_Ret by (apply buf_upd_eq; cbn; by rewrite ?length_alter).
  cbn. by rewrite !list_alter_alter_eq.
Qed.

Lemma bget_finish (b : nat) (f : buf -> buf) : b ∈ es ->
  let s2 := set_bufs (alter f b (bufs s)) s in
  let l := b_lock (f (bufget (bufs s) b)) in
  let r := (release bcache_lock;; acquiresleep (SLbuf b);; ret b)%K (set_bufs (alter f b (bufs s)) s1) in
  (sl_locked l = 0 ->
     r = Ret b (set_bufs (alter (fun y => set_b_lock (MkSleeplock 1 (p_pid x)) (f y)) b (bufs s)) s)) /\
  (sl_locked l <> 0 -> exists k, r = Switch (asleep_on (sl_chan (SLbuf b)) p x s2) k).
Proof.
  intros Hb s2 l r. unfold r. clear r.
  assert (b < length (bufs s))%nat as Hlt by by eapply co_lt'.
  erewrite bind_Ret by by apply (release_head _ []).
  assert (set_held [] (set_bufs (alter f b (bufs s)) s1) = s2) as ->.
  { unfold s2, s1. destruct Ht as (_ & _ & _ & Hh). destruct s as [[]]. simpl in *. by subst. }
  assert (thread p x s2) as Ht2 by done.
  assert (sl_at (SLbuf b) s2 = Some l) as Hl.
  { rewrite sl_at_buf by (cbn; by rewrite length_alter). cbn.
    rewrite bufget_alter by done. by rewrite decide_True. }
  split; intros El.
  - erewrite bind_Ret by by apply (acquiresleep_free p x _ l). cbn. by rewrite list_alter_alter_eq.
  - destruct (acquiresleep_busy p x (SLbuf b) l s2 Ht2 Hl El) as [k Hk].
    unfold bind. rewrite Hk. cbn [bindr]. by eexists.
Qed.
End bget.

(** ** The invariant after a change of one buffer *)

Lemma cache_ok_change es v v' s s' b f :
  cache_ok es v s -> b ∈ es -> keeps_links f -> bufs s' = alter f b (bufs s) ->
  let y := f (bufget (bufs s) b) in
  buf_ok v' (disk_block s') y ->
  (forall b', b' ∈ es -> b' <> b -> buf_ok v' (disk_block s') (bufget (bufs s) b')) ->
  (forall n b', b' ∈ es -> b' <> b -> caches n y = true -> caches n (bufget (bufs s) b') = false) ->
  (forall n, (caches n y = true -> b_valid y = false) ->
     (forall b', b' ∈ es -> b' <> b -> caches n (bufget (bufs s) b') = true ->
        b_valid (bufget (bufs s) b') = false) -> v' n = disk_block s' n) ->
  cache_ok es v' s'.
Proof.
  intros Hok Hb Hf Eb y Hy Hoth Hu Hr. pose proof (co_lt' _ _ _ _ Hok Hb) as Hlt.
  assert (forall b', bufget (bufs s') b' = if decide (b = b') then y else bufget (bufs s) b') as Hget.
  { intros b'. rewrite Eb, bufget_alter by done. case_decide; by subst. }
  split.
  - rewrite Eb, length_alter. apply Hok.
  - eapply ring_ext; [| |apply Hok]; intros b'; rewrite Eb; [by apply nxb_keeps|by apply pvb_keeps].
  - apply Hok.
  - intros b' Hb'. rewrite Hget. case_decide; [by subst|]. by apply Hoth.
  - intros n b1 b2 H1 H2. rewrite !Hget. repeat case_decide; subst; [done| | |by eapply co_uniq].
    + intros C1 C2. by rewrite (Hu n b2) in C2.
    + intros C1 C2. by rewrite (Hu n b1) in C1.
  - intros n Hn. apply Hr.
    + intros C. specialize (Hn b Hb). rewrite Hget, decide_True in Hn by done. auto.
    + intros b' Hb' Hne C. specialize (Hn b' Hb'). rewrite Hget, decide_False in Hn by done. auto.
Qed.

(** ** The cache by block number

    [rc n] is the number of references to block [n]'s buffer, and [lk n] the
    process that has it locked.  A block without references may have a buffer
    or not. *)

Definition lock_of (l : sleeplock) : option Z := if sl_locked l =? 0 then None else Some (sl_pid l).

Record crep (es : list nat) (v : Z -> list Z) (rc : Z -> Z) (lk : Z -> option Z) (s : kstate) : Prop := {
  cr_ok : cache_ok es v s;
  cr_ref : forall b n, b ∈ es -> caches n (bufget (bufs s) b) = true ->
    b_refcnt (bufget (bufs s) b) = rc n /\ lock_of (b_lock (bufget (bufs s) b)) = lk n;
  cr_none : forall b, b ∈ es -> b_dev (bufget (bufs s) b) <> ROOTDEV -> b_refcnt (bufget (bufs s) b) = 0;
  cr_live : forall n, rc n <> 0 -> exists b, b ∈ es /\ caches n (bufget (bufs s) b) = true /\
    b_valid (bufget (bufs s) b) = true;
  cr_free : forall n, rc n = 0 -> lk n = None;
}.

(** [b] is the buffer of block [n], and holds it. *)
Definition buf_of (s : kstate) (b : nat) (n : Z) : Prop :=
  (b < NB)%nat /\ caches n (bufget (bufs s) b) = true /\ b_valid (bufget (bufs s) b) = true.

(** Fewer blocks than buffers are in use. *)
Definition room (rc : Z -> Z) : Prop :=
  exists L, (length L < NB)%nat /\ forall n, rc n <> 0 -> n ∈ L.

Lemma caches_eq n x : caches n x = true <-> b_dev x = ROOTDEV /\ b_blockno x = n.
Proof. unfold caches. rewrite andb_true_iff, !Z.eqb_eq. done. Qed.

Lemma cr_elem es v rc lk s b : crep es v rc lk s -> b ∈ es <-> (b < NB)%nat.
Proof. intros H. rewrite (co_all _ _ _ (cr_ok _ _ _ _ _ H)), elem_of_seq. lia. Qed.

Lemma crep_ext es v rc lk s s' :
  bufs s' = bufs s -> disk s' = disk s -> crep es v rc lk s -> crep es v rc lk s'.
Proof.
  intros Eb Ed [Hok C1 C2 C3 C4]. split; rewrite ?Eb; try done. by apply (cache_ok_ext es v s).
Qed.

(** With room, some buffer has no references. *)
Lemma room_unused es v rc lk s : crep es v rc lk s -> room rc -> exists b, find_unused es s = Some b.
Proof.
  intros Hc (L & HL & Hrc). pose proof (cr_ok _ _ _ _ _ Hc) as Hok. unfold find_unused.
  destruct (List.find _ _) as [b|] eqn:Ef; [by exists b|]. exfalso.
  assert (forall b, b ∈ es -> b_refcnt (bufget (bufs s) b) <> 0) as Hne.
  { intros b Hb. apply Z.eqb_neq. apply (find_none _ _ Ef). rewrite <- in_rev. by apply list_elem_of_In. }
  assert (forall b, b ∈ es -> caches (b_blockno (bufget (bufs s) b)) (bufget (bufs s) b) = true) as Hca.
  { intros b Hb. apply caches_eq. split; [|done].
    destruct (decide (b_dev (bufget (bufs s) b) = ROOTDEV)); [done|].
    exfalso. by eapply Hne, cr_none. }
  assert (NoDup ((fun b => b_blockno (bufget (bufs s) b)) <$> es)) as Hnd.
  { apply NoDup_fmap_2_strong; [|rewrite (co_all _ _ _ Hok); apply NoDup_seq].
    intros b b' Hb Hb' E. eapply (co_uniq _ _ _ Hok _ b b' Hb Hb' (Hca b Hb)).
    rewrite E. by apply Hca. }
  assert (length es <= length L)%nat as Hlen.
  { rewrite <- (length_fmap (fun b => b_blockno (bufget (bufs s) b))).
    apply submseteq_length, NoDup_submseteq; [done|]. intros n (b & -> & Hb)%list_elem_of_fmap.
    apply Hrc. destruct (cr_ref _ _ _ _ _ Hc b _ Hb (Hca b Hb)) as [<- _]. by apply Hne. }
  rewrite (Permutation_length (co_all _ _ _ Hok)), length_seq in Hlen. lia.
Qed.

Lemma find_cached_None n es s : find_cached n es s = None ->
  forall b, b ∈ es -> caches n (bufget (bufs s) b) = false.
Proof. intros H b Hb. by apply (find_none _ _ H), list_elem_of_In. Qed.

(** A buffer is taken for block [n]: its own, or one without references that is
    recycled. *)
Lemma crep_take es v rc lk s s' b f n pid :
  crep es v rc lk s -> b ∈ es -> keeps_links f -> bufs s' = alter f b (bufs s) -> disk s' = disk s ->
  let x := bufget (bufs s) b in let y := f x in
  caches n x = true \/ (b_refcnt x = 0 /\ find_cached n es s = None) ->
  caches n y = true -> b_valid y = true -> b_data y = v n -> b_refcnt y = rc n + 1 ->
  lock_of (b_lock y) = Some pid -> 0 < rc n + 1 < 2 ^ 32 ->
  crep es v (upd rc n (rc n + 1)) (upd lk n (Some pid)) s'.
Proof.
  intros Hc Hb Hf Eb Ed x y Hx Hcy Hvy Hdy Hry Hly Hr. pose proof (cr_ok _ _ _ _ _ Hc) as Hok.
  assert (forall m, disk_block s' m = disk_block s m) as Hd by (intros; unfold disk_block; by rewrite Ed).
  pose proof (proj1 (caches_eq n y) Hcy) as [Hdev Hbn].
  assert (forall b', b' ∈ es -> b' <> b -> caches n (bufget (bufs s) b') = false) as Hoth.
  { intros b' Hb' Hne. destruct Hx as [Hx|[_ Hx]]; [|by eapply find_cached_None].
    apply not_true_is_false. intros C. by apply Hne, (co_uniq _ _ _ Hok n). }
  assert (forall m, caches m y = true -> m = n) as Hm by (intros m []%caches_eq; congruence).
  assert (forall b', bufget (bufs s') b' = if decide (b = b') then y else bufget (bufs s) b') as Hget.
  { intros b'. rewrite Eb, bufget_alter by by eapply co_lt'. unfold y, x. case_decide; by subst. }
  assert (forall m, caches m x = true -> b_valid x = true -> m = n \/ (rc m = 0 /\ v m = disk_block s m)) as Hev.
  { intros m C V. destruct Hx as [Hx|[Hx _]].
    - left. apply caches_eq in C as [_ <-]. by apply caches_eq in Hx as [_ ->].
    - right. pose proof (co_buf _ _ _ Hok b Hb) as Hbo. fold x in Hbo. destruct Hbo as [_ _ Hv _ Hcl].
      pose proof (proj1 (cr_ref _ _ _ _ _ Hc b m Hb C)) as E. apply caches_eq in C as [_ <-]. split; [by rewrite <- E|].
      rewrite <- Hv by done. by apply Hcl. }
  split.
  - apply (cache_ok_change es v v s s' b f); [done..| | | |].
    + split; fold x y; try lia; try done; intros; by rewrite ?Hbn.
    + intros b' Hb' _. destruct (co_buf _ _ _ Hok b' Hb'). split; try done. intros. rewrite Hd. auto.
    + intros m b' Hb' Hne ->%Hm. by apply Hoth.
    + intros m H1 H2. rewrite Hd. destruct (decide (caches m x = true /\ b_valid x = true)) as [[C V]|N].
      * destruct (Hev m C V) as [->|[_ ?]]; [|done]. discriminate (eq_trans (eq_sym (H1 Hcy)) Hvy).
      * apply (co_rest _ _ _ Hok). intros b' Hb' C. destruct (decide (b' = b)) as [->|]; [|by apply H2].
        apply not_true_is_false. tauto.
  - intros b' m Hb'. rewrite Hget. case_decide as E; [intros ->%Hm; by rewrite !upd_eq|].
    intros C. rewrite !upd_ne; [by apply (cr_ref _ _ _ _ _ Hc)| |]; intros ->; by rewrite Hoth in C.
  - intros b' Hb'. rewrite Hget. case_decide; [done|]. by apply (cr_none _ _ _ _ _ Hc).
  - intros m Hne. destruct (decide (m = n)) as [->|Hmn].
    { exists b. rewrite Hget, decide_True by done. done. }
    rewrite upd_ne in Hne by done. destruct (cr_live _ _ _ _ _ Hc m Hne) as (b0 & ? & C & V). exists b0.
    rewrite Hget. case_decide as E; [|done]. subst. destruct (Hev m C V) as [|[? _]]; done.
  - intros m. destruct (decide (m = n)) as [->|]; [rewrite upd_eq; lia|]. rewrite !upd_ne by done. apply Hc.
Qed.

(** ** bread *)

Definition filled (s : kstate) (y : buf) : buf :=
  if b_valid y then y else set_b_valid true (set_b_data (disk_block s (b_blockno y)) y).

Lemma bufget_lookup bs b x : bs !! b = Some x -> bufget bs b = x.
Proof. unfold bufget. by intros ->. Qed.

Lemma disk_read_eq b s : (b < length (bufs s))%nat ->
  virtio_disk_rw b false s =
    Ret tt (set_bufs (alter (fun y => set_b_data (disk_block s (b_blockno y)) y) b (bufs s)) s).
Proof.
  intros Hlt. unfold virtio_disk_rw. erewrite bind_Ret by by apply buf_at_eq.
  erewrite bind_Ret by reflexivity. rewrite buf_upd_eq by done.
  destruct (lookup_lt_is_Some_2 _ _ Hlt) as [x Hx].
  by rewrite !(alter_insert _ _ _ _ Hx), (bufget_lookup _ _ _ Hx).
Qed.

Lemma bread_fill n s b g :
  bget ROOTDEV n s = Ret b (set_bufs (alter g b (bufs s)) s) -> (b < length (bufs s))%nat ->
  bread ROOTDEV n s = Ret b (set_bufs (alter (fun x => filled s (g x)) b (bufs s)) s).
Proof.
  intros Hg Hlt. unfold bread. rewrite (bind_Ret _ _ _ _ _ Hg).
  assert (b < length (alter g b (bufs s)))%nat as Hlt' by by rewrite length_alter.
  erewrite bind_Ret by (apply buf_at_eq; exact Hlt'). cbn [bufs set_bufs].
  rewrite bufget_alter, decide_True by done.
  destruct (lookup_lt_is_Some_2 _ _ Hlt) as [x Hx]. rewrite (bufget_lookup _ _ _ Hx).
  destruct (b_valid (g x)) eqn:V; cbn [negb].
  - cbn. do 2 f_equal. rewrite !(alter_insert _ _ _ _ Hx). unfold filled. by rewrite V.
  - erewrite bind_Ret.
    2:{ erewrite bind_Ret by (apply disk_read_eq; exact Hlt').
        apply buf_upd_eq. cbn [bufs set_bufs]. by rewrite length_alter. }
    unfold ret. cbn [bufs set_bufs]. f_equal. rewrite !list_alter_alter_eq, !(alter_insert _ _ _ _ Hx).
    unfold filled, compose. rewrite V. done.
Qed.

(** Buffers other than the one for [n] keep their block. *)
Definition others_kept (n : Z) (s s' : kstate) : Prop :=
  forall b m, m <> n -> buf_of s b m -> b_refcnt (bufget (bufs s) b) <> 0 -> buf_of s' b m.

Lemma others_kept_alter es v rc lk s s' b f n :
  crep es v rc lk s -> b ∈ es -> bufs s' = alter f b (bufs s) ->
  caches n (bufget (bufs s) b) = true \/ b_refcnt (bufget (bufs s) b) = 0 -> others_kept n s s'.
Proof.
  intros Hc Hb Eb Hx b' m Hm (Hlt & C & V) Hr. pose proof (cr_ok _ _ _ _ _ Hc) as Hok.
  assert (b <> b') as Hne.
  { intros <-. destruct Hx as [Hx|Hx]; [|done]. apply Hm. apply caches_eq in C as [_ <-].
    by apply caches_eq in Hx as [_ ?]. }
  unfold buf_of. rewrite Eb, bufget_alter by by eapply co_lt'. by rewrite decide_False.
Qed.

Lemma lock_of_None l : lock_of l = None -> sl_locked l = 0.
Proof. unfold lock_of. ifd; done. Qed.

Lemma filled_eq s y : let z := filled s y in b_valid z = true /\
  b_blockno z = b_blockno y /\ b_dev z = b_dev y /\ b_refcnt z = b_refcnt y /\ b_lock z = b_lock y /\
  b_next z = b_next y /\ b_prev z = b_prev y /\
  b_data z = (if b_valid y then b_data y else disk_block s (b_blockno y)).
Proof. unfold filled. destruct (b_valid y) eqn:E; cbn; by rewrite ?E. Qed.

(** The buffer [bget] returns: it is locked and has one more reference, and if it
    is valid, it holds the block. *)
Lemma bget_takes p x es v rc lk s n :
  thread p x s -> crep es v rc lk s -> lk n = None -> 0 <= rc n < 2 ^ 32 - 1 -> rc n <> 0 \/ room rc ->
  exists b g, b ∈ es /\ keeps_links g /\ bget ROOTDEV n s = Ret b (set_bufs (alter g b (bufs s)) s) /\
    let x0 := bufget (bufs s) b in let y := g x0 in
    (caches n x0 = true \/ b_refcnt x0 = 0 /\ find_cached n es s = None) /\ caches n y = true /\
    b_refcnt y = rc n + 1 /\ lock_of (b_lock y) = Some (p_pid x) /\
    (if b_valid y then b_data y else disk_block s n) = v n.
Proof.
  intros Ht Hc Hlk Hrc Hroom. pose proof (cr_ok _ _ _ _ _ Hc) as Hok.
  pose proof (bget_enter p x es v s n Ht Hok) as Hg.
  destruct (find_cached n es s) as [b|] eqn:Ef.
  - exists b, (taken (p_pid x)). apply find_Some_elem in Ef as [Hb C]. split; [done|]. split; [done|].
    destruct (cr_ref _ _ _ _ _ Hc b n Hb C) as [Er El].
    destruct (bget_finish p x es v s Ht Hok b (fun x => set_b_refcnt (u32 (b_refcnt x + 1)) x) Hb) as [Hfin _].
    rewrite Hg, Hfin by (cbn; apply lock_of_None; by rewrite El). split; [done|]. cbn zeta.
    split; [by left|]. split; [done|]. split; [cbn; rewrite Er; apply u32_small; lia|]. split; [done|].
    cbn. destruct (b_valid _) eqn:V.
    + destruct (co_buf _ _ _ Hok b Hb) as [_ _ Hv _ _]. rewrite (Hv V). by apply caches_eq in C as [_ ->].
    + symmetry. apply (co_rest _ _ _ Hok). intros b' Hb' C'. by rewrite (co_uniq _ _ _ Hok n b' b).
  - assert (rc n = 0) as Er.
    { destruct (decide (rc n = 0)) as [|Hne]; [done|]. destruct (cr_live _ _ _ _ _ Hc n Hne) as (b & Hb & C & _).
      by rewrite (find_cached_None _ _ _ Ef b Hb) in C. }
    destruct Hroom as [|Hroom]; [done|]. destruct (room_unused es v rc lk s Hc Hroom) as [b Eu].
    rewrite Eu in Hg. apply find_Some_elem in Eu as [Hb%list_elem_of_In%in_rev%list_elem_of_In R].
    bdestr. exists b, (reused (p_pid x) n). split; [done|]. split; [done|].
    destruct (bget_finish p x es v s Ht Hok b (fun x => set_b_refcnt 1 (set_b_valid false
                 (set_b_blockno n (set_b_dev ROOTDEV x)))) Hb) as [Hfin _].
    rewrite Hg, Hfin by by apply (co_buf _ _ _ Hok b Hb). split; [done|]. cbn zeta.
    split; [by right|]. split; [by apply caches_eq|]. split; [cbn; lia|]. split; [done|]. cbn.
    symmetry. apply (co_rest _ _ _ Hok). intros b' Hb' C'. by rewrite (find_cached_None _ _ _ Ef b' Hb') in C'.
Qed.

Lemma bread_crep p x es v rc lk s n :
  thread p x s -> crep es v rc lk s -> lk n = None -> 0 <= rc n < 2 ^ 32 - 1 -> rc n <> 0 \/ room rc ->
  exists b bs, let s' := set_bufs bs s in bread ROOTDEV n s = Ret b s' /\
    crep es v (upd rc n (rc n + 1)) (upd lk n (Some (p_pid x))) s' /\ buf_of s' b n /\ others_kept n s s'.
Proof.
  intros Ht Hc Hlk Hrc Hroom. pose proof (cr_ok _ _ _ _ _ Hc) as Hok.
  destruct (bget_takes p x es v rc lk s n Ht Hc Hlk Hrc Hroom)
    as (b & g & Hb & Hkg & Eg & Hx & Hcy & Hry & Hly & Hdy).
  assert (b < length (bufs s))%nat as Hlt by by eapply co_lt'.
  exists b, (alter (fun y => filled s (g y)) b (bufs s)). cbn zeta. split; [by apply bread_fill|].
  destruct (filled_eq s (g (bufget (bufs s) b))) as (F1 & F2 & F3 & F4 & F5 & _ & _ & F8).
  assert (caches n (filled s (g (bufget (bufs s) b))) = true) as Hcf.
  { apply caches_eq. rewrite F2, F3. by apply caches_eq. }
  split; [|split].
  - eapply (crep_take es v rc lk s _ b (fun y => filled s (g y)) n (p_pid x)); try done.
    + intros y. destruct (filled_eq s (g y)) as (_ & _ & _ & _ & _ & -> & -> & _). apply Hkg.
    + rewrite F8. apply caches_eq in Hcy as [_ ->]. done.
    + by rewrite F4.
    + by rewrite F5.
    + lia.
  - unfold buf_of. cbn -[alter]. rewrite bufget_alter, decide_True by done.
    split; [|done]. by eapply co_lt.
  - eapply others_kept_alter; [done|done|done|]. tauto.
Qed.

(** ** The buffer of a block changes, and with it what the cache says of the block *)

Lemma buf_of_elem es v rc lk s b n : crep es v rc lk s -> buf_of s b n -> b ∈ es.
Proof. intros Hc [Hb _]. by apply (cr_elem es v rc lk s b Hc). Qed.

Lemma buf_of_lt es v rc lk s b n : crep es v rc lk s -> buf_of s b n -> (b < length (bufs s))%nat.
Proof. intros Hc Hb. eapply co_lt'; [apply Hc|]. by eapply buf_of_elem. Qed.

Lemma buf_of_view es v rc lk s b n : crep es v rc lk s -> buf_of s b n ->
  let x := bufget (bufs s) b in b_blockno x = n /\ b_data x = v n /\ b_refcnt x = rc n /\ lock_of (b_lock x) = lk n.
Proof.
  intros Hc Hbo. pose proof (buf_of_elem _ _ _ _ _ _ _ Hc Hbo) as Hb. destruct Hbo as (_ & C & V).
  destruct (co_buf _ _ _ (cr_ok _ _ _ _ _ Hc) b Hb) as [_ _ Hv _ _]. cbn zeta.
  destruct (cr_ref _ _ _ _ _ Hc b n Hb C) as [-> ->]. rewrite (Hv V).
  by apply caches_eq in C as [_ ->].
Qed.

Lemma crep_update es v rc lk s s' b f n :
  crep es v rc lk s -> buf_of s b n -> keeps_links f -> bufs s' = alter f b (bufs s) ->
  (forall m, m <> n -> disk_block s' m = disk_block s m) ->
  let x := bufget (bufs s) b in let y := f x in
  b_dev y = b_dev x -> b_blockno y = b_blockno x -> b_valid y = b_valid x -> 0 <= b_refcnt y < 2 ^ 32 ->
  (b_refcnt y = 0 -> lock_of (b_lock y) = None /\ b_data y = disk_block s' n) ->
  crep es (upd v n (b_data y)) (upd rc n (b_refcnt y)) (upd lk n (lock_of (b_lock y))) s'.
Proof.
  intros Hc Hbo Hf Eb Hd x y Hdev Hbn Hval Hr H0. pose proof (cr_ok _ _ _ _ _ Hc) as Hok.
  pose proof (buf_of_elem _ _ _ _ _ _ _ Hc Hbo) as Hb. destruct Hbo as (_ & C & V). fold x in C, V.
  assert (forall m, caches m y = caches m x) as Hcy by (intros m; unfold caches; by rewrite Hdev, Hbn).
  assert (forall m, caches m x = true -> m = n) as Hm.
  { intros m [_ <-]%caches_eq. by apply caches_eq in C as [_ ?]. }
  assert (forall b' m, b' ∈ es -> b' <> b -> caches m (bufget (bufs s) b') = true -> m <> n) as Hoth.
  { intros b' m Hb' Hne C' ->. by apply Hne, (co_uniq _ _ _ Hok n). }
  assert (forall b', bufget (bufs s') b' = if decide (b = b') then y else bufget (bufs s) b') as Hget.
  { intros b'. rewrite Eb, bufget_alter by by eapply co_lt'. unfold y, x. case_decide; by subst. }
  pose proof C as [Cd Cn]%caches_eq.
  split.
  - apply (cache_ok_change es v _ s s' b f); [done..| | | |]; fold x; fold y.
    + split; rewrite ?Hbn, ?Cn, ?upd_eq; try done; [congruence| |].
      * intros [E _]%H0. by apply lock_of_None.
      * intros _ [_ E]%H0. done.
    + intros b' Hb' Hne. destruct (co_buf _ _ _ Hok b' Hb') as [B1 B2 B3 B4 B5]. split; try done.
      * intros V'. rewrite upd_ne; [auto|]. apply (Hoth b'); [done..|]. apply caches_eq. auto.
      * intros V' R'. rewrite Hd; [auto|]. apply (Hoth b'); [done..|]. apply caches_eq. auto.
    + intros m b' Hb' Hne. rewrite Hcy. intros ->%Hm. apply not_true_is_false. intros C'. by eapply Hoth.
    + intros m H1 H2. assert (m <> n) as Hmn.
      { intros ->. rewrite Hcy, Hval in H1. specialize (H1 C). congruence. }
      rewrite upd_ne, Hd by done. apply (co_rest _ _ _ Hok). intros b' Hb' C'.
      destruct (decide (b' = b)) as [->|]; [|by apply H2]. by apply Hm in C'.
  - intros b' m Hb'. rewrite Hget. case_decide as E; [rewrite Hcy; intros ->%Hm; by rewrite !upd_eq|].
    intros C'. rewrite !upd_ne by (eapply (Hoth b'); congruence). by apply (cr_ref _ _ _ _ _ Hc).
  - intros b' Hb'. rewrite Hget. case_decide; [congruence|]. by apply (cr_none _ _ _ _ _ Hc).
  - intros m Hne. destruct (decide (m = n)) as [->|Hmn].
    { exists b. rewrite Hget, decide_True, Hcy by done. rewrite Hval. done. }
    rewrite upd_ne in Hne by done. destruct (cr_live _ _ _ _ _ Hc m Hne) as (b0 & ? & C0 & V0). exists b0.
    rewrite Hget. case_decide as E; [|done]. subst. by apply Hm in C0.
  - intros m. destruct (decide (m = n)) as [->|]; [rewrite !upd_eq; tauto|]. rewrite !upd_ne by done. apply Hc.
Qed.

Lemma buf_of_update s s' b f b' n' : bufs s' = alter f b (bufs s) -> (b < length (bufs s))%nat ->
  (forall x, b_dev (f x) = b_dev x /\ b_blockno (f x) = b_blockno x /\ b_valid (f x) = b_valid x) ->
  buf_of s b' n' -> buf_of s' b' n'.
Proof.
  intros Eb Hlt Hf (? & C & V). unfold buf_of. rewrite Eb, bufget_alter by done.
  case_decide; [subst|done]. destruct (Hf (bufget (bufs s) b')) as (F1 & F2 & F3).
  unfold caches in *. by rewrite F1, F2, F3.
Qed.

(** ** Changing, writing, pinning *)

Lemma set_bdata_crep es v rc lk s b n d :
  crep es v rc lk s -> buf_of s b n -> rc n <> 0 ->
  let s' := set_bufs (alter (set_b_data d) b (bufs s)) s in
  set_bdata b d s = Ret tt s' /\ crep es (upd v n d) rc lk s' /\
  (forall b' n', buf_of s b' n' -> buf_of s' b' n').
Proof.
  intros Hc Hb Hr s'. pose proof (buf_of_lt _ _ _ _ _ _ _ Hc Hb) as Hlt.
  destruct (buf_of_view _ _ _ _ _ _ _ Hc Hb) as (_ & _ & Er & El).
  split; [by apply buf_upd_eq|]. split; [|intros ??; by apply (buf_of_update s s' b (set_b_data d))].
  pose proof (crep_update es v rc lk s s' b (set_b_data d) n Hc Hb) as H. cbn in H.
  rewrite Er, El, !upd_same in H.
  pose proof (co_buf _ _ _ (cr_ok _ _ _ _ _ Hc) b (buf_of_elem _ _ _ _ _ _ _ Hc Hb)) as [Hrr _ _ _ _].
  rewrite Er in Hrr. by apply H.
Qed.

Lemma alter_same {A} (i : nat) (l : list A) : alter (fun x => x) i l = l.
Proof. apply list_eq. intros j. rewrite list_lookup_alter. case_decide; [subst|done]. by destruct (l !! j). Qed.

Lemma bwrite_crep p x es v rc lk s b n :
  thread p x s -> crep es v rc lk s -> buf_of s b n -> lk n = Some (p_pid x) ->
  let s' := set_disk_writes ((n, v n) :: disk_writes s) (set_disk (<[n := v n]> (disk s)) s) in
  bwrite b s = Ret tt s' /\ crep es v rc lk s'.
Proof.
  intros Ht Hc Hb Hl s'. pose proof (buf_of_lt _ _ _ _ _ _ _ Hc Hb) as Hlt.
  destruct (buf_of_view _ _ _ _ _ _ _ Hc Hb) as (En & Ev & Er & El). rewrite Hl in El.
  assert (disk_block s' n = v n) as Hdn by (unfold disk_block; cbn; by rewrite lookup_insert_eq).
  split.
  - unfold bwrite. erewrite bind_Ret by (apply (holdingsleep_eq p x); [done|by apply sl_at_buf]).
    unfold lock_of in El. destruct (sl_locked _ =? 0); [done|]. injection El as ->.
    rewrite Z.eqb_refl. cbn [negb andb]. unfold virtio_disk_rw.
    erewrite bind_Ret by by apply buf_at_eq. rewrite En, Ev. done.
  - pose proof (crep_update es v rc lk s s' b (fun x => x) n Hc Hb) as H. cbn in H.
    rewrite Er, Ev, El, <- Hl, !upd_same in H. apply H; try done; [by rewrite alter_same| | |].
    + intros m Hm. unfold disk_block. cbn. by rewrite lookup_insert_ne.
    + rewrite <- Er. apply (co_buf _ _ _ (cr_ok _ _ _ _ _ Hc)). by eapply buf_of_elem.
    + intros E0. split; [by apply (cr_free _ _ _ _ _ Hc)|done].
Qed.

Lemma locked_upd_eq f b s :
  bcache_lock ∉ held s -> (b < length (bufs s))%nat ->
  (acquire bcache_lock;; buf_upd b f;; release bcache_lock)%K s = Ret tt (set_bufs (alter f b (bufs s)) s).
Proof.
  intros Hh Hlt. erewrite bind_Ret by by apply acquire_eq.
  erewrite bind_Ret by by apply buf_upd_eq. rewrite (release_head _ (held s)) by done.
  f_equal. by destruct s as [[]].
Qed.

(** [bpin] and [bunpin] count references. *)
Lemma bpin_crep p x es v rc lk s b n k f :
  thread p x s -> crep es v rc lk s -> buf_of s b n ->
  (forall y, f y = set_b_refcnt (u32 (b_refcnt y + k)) y) -> 0 <= rc n + k < 2 ^ 32 ->
  (rc n + k = 0 -> lk n = None /\ v n = disk_block s n) ->
  let s' := set_bufs (alter f b (bufs s)) s in
  crep es v (upd rc n (rc n + k)) lk s' /\ (forall b' n', buf_of s b' n' -> buf_of s' b' n').
Proof.
  intros Ht Hc Hb Hf Hk H0 s'. pose proof (buf_of_lt _ _ _ _ _ _ _ Hc Hb) as Hlt.
  destruct (buf_of_view _ _ _ _ _ _ _ Hc Hb) as (En & Ev & Er & El).
  split; [|intros ??; apply (buf_of_update s s' b f); [done|done|]; intros y; by rewrite Hf].
  pose proof (crep_update es v rc lk s s' b f n Hc Hb) as H. cbn in H. rewrite Hf in H. cbn in H.
  rewrite Er, Ev, El, u32_small, !upd_same in H by done.
  apply H; try done. intros y. by rewrite Hf.
Qed.

(** ** brelse *)

Lemma nxb_set_next i a bs b : (i < length bs)%nat ->
  nxb (alter (set_b_next (idx a)) i bs) b = if decide (i = b) then a else nxb bs b.
Proof. intros. unfold nxb. rewrite bufget_alter by done. case_decide; [|done]. cbn. unfold idx. lia. Qed.
Lemma pvb_set_prev i a bs b : (i < length bs)%nat ->
  pvb (alter (set_b_prev (idx a)) i bs) b = if decide (i = b) then a else pvb bs b.
Proof. intros. unfold pvb. rewrite bufget_alter by done. case_decide; [|done]. cbn. unfold idx. lia. Qed.
Lemma nxb_set_prev i a bs b : (i < length bs)%nat -> nxb (alter (set_b_prev a) i bs) b = nxb bs b.
Proof. intros. unfold nxb. rewrite bufget_alter by done. by case_decide. Qed.
Lemma pvb_set_next i a bs b : (i < length bs)%nat -> pvb (alter (set_b_next a) i bs) b = pvb bs b.
Proof. intros. unfold pvb. rewrite bufget_alter by done. by case_decide. Qed.

(** The ring after [b] has been unlinked, and after it has been put in front. *)
Definition unlinked (bs : list buf) (b : nat) : list buf :=
  alter (set_b_next (idx (nxb bs b))) (pvb bs b) (alter (set_b_prev (idx (pvb bs b))) (nxb bs b) bs).
Definition put_front (bs : list buf) (b : nat) : list buf :=
  alter (set_b_next (idx b)) head (alter (set_b_prev (idx b)) (nxb bs head)
    (alter (set_b_prev (idx head)) b (alter (set_b_next (idx (nxb bs head))) b bs))).

Ltac lt_alter := repeat rewrite length_alter; assumption.

Lemma unlinked_ring bs e1 b e2 : (forall e, e ∈ head :: e1 ++ b :: e2 -> (e < length bs)%nat) ->
  ring (nxb bs) (pvb bs) head (e1 ++ b :: e2) ->
  ring (nxb (unlinked bs b)) (pvb (unlinked bs b)) head (e1 ++ e2).
Proof.
  intros Hlt Hr. destruct (ring_neighbours _ _ _ _ b Hr ltac:(set_solver)) as [Hn%Hlt Hp%Hlt].
  eapply ring_remove; [exact Hr|]. intros x _. unfold unlinked. split.
  - rewrite nxb_set_next, nxb_set_prev by lt_alter. done.
  - rewrite pvb_set_next, pvb_set_prev by lt_alter. done.
Qed.

Lemma put_front_ring bs b es : (forall e, e ∈ b :: head :: es -> (e < length bs)%nat) ->
  b ∉ head :: es -> ring (nxb bs) (pvb bs) head es ->
  ring (nxb (put_front bs b)) (pvb (put_front bs b)) head (b :: es).
Proof.
  intros Hlt Hb Hr. destruct (ring_neighbours _ _ _ _ head Hr ltac:(set_solver)) as [Hn _].
  assert (nxb bs head < length bs)%nat as Hn' by (apply Hlt; set_solver).
  assert (nxb bs head <> b) as Hnb by (intros E; rewrite E in Hn; done).
  assert (b < length bs /\ head < length bs)%nat as [Hlb Hlh] by (split; apply Hlt; set_solver).
  eapply ring_insert_front; [done|exact Hr|]. intros x _. unfold put_front. split.
  - rewrite nxb_set_next by lt_alter. case_decide; [done|].
    rewrite nxb_set_prev, nxb_set_prev, nxb_set_next by lt_alter. done.
  - rewrite pvb_set_next, pvb_set_prev, pvb_set_prev, pvb_set_next by lt_alter.
    repeat case_decide; congruence.
Qed.

(** A move in the ring changes no other field. *)
Definition but_links (x : buf) : buf := set_b_next 0 (set_b_prev 0 x).

Lemma bufget_links i f bs b : (i < length bs)%nat -> (forall x, but_links (f x) = but_links x) ->
  but_links (bufget (alter f i bs) b) = but_links (bufget bs b).
Proof. intros Hi Hf. rewrite bufget_alter by done. by case_decide. Qed.

Lemma crep_move es es' v rc lk s s' :
  crep es v rc lk s -> ring (nxb (bufs s')) (pvb (bufs s')) head es' -> es' ≡ₚ es ->
  length (bufs s') = length (bufs s) -> disk s' = disk s ->
  (forall b, but_links (bufget (bufs s') b) = but_links (bufget (bufs s) b)) -> crep es' v rc lk s'.
Proof.
  intros [[H1 _ H3 H4 H5 H6] C1 C2 C3 C4] Hr Hp Hlen Ed Hl.
  assert (forall m, disk_block s' m = disk_block s m) as Hd by (intros; unfold disk_block; by rewrite Ed).
  assert (forall b, exists nx pv, bufget (bufs s') b = set_b_next nx (set_b_prev pv (bufget (bufs s) b))) as Hg.
  { intros b. specialize (Hl b). exists (b_next (bufget (bufs s') b)), (b_prev (bufget (bufs s') b)).
    destruct (bufget (bufs s') b), (bufget (bufs s) b). unfold but_links, set_b_next, set_b_prev in *.
    cbn in *. congruence. }
  assert (forall b, b ∈ es' -> b ∈ es) as Hin by (intros b; by rewrite Hp).
  assert (forall b, b ∈ es -> b ∈ es') as Hin' by (intros b; by rewrite Hp).
  split; [split|..].
  - congruence.
  - done.
  - by rewrite Hp.
  - intros b Hb%Hin. destruct (Hg b) as (nx & pv & ->). destruct (H4 b Hb). split; try done.
    cbn. intros. rewrite Hd. auto.
  - intros n b b' Hb%Hin Hb'%Hin. destruct (Hg b) as (? & ? & ->), (Hg b') as (? & ? & ->). by apply H5.
  - intros n Hn. rewrite Hd. apply H6. intros b Hb. specialize (Hn b (Hin' b Hb)).
    by destruct (Hg b) as (? & ? & E); rewrite E in Hn.
  - intros b n Hb%Hin. destruct (Hg b) as (? & ? & ->). by apply C1.
  - intros b Hb%Hin. destruct (Hg b) as (? & ? & ->). by apply C2.
  - intros n Hn. destruct (C3 n Hn) as (b & Hb & C & V). exists b. destruct (Hg b) as (? & ? & ->). auto.
  - done.
Qed.

Lemma brelse_move s e1 b e2 : (forall e, e ∈ head :: e1 ++ b :: e2 -> (e < length (bufs s))%nat) ->
  ring (nxb (bufs s)) (pvb (bufs s)) head (e1 ++ b :: e2) ->
  (n <- b_next_at b; p <- b_prev_at b;
   buf_upd n (set_b_prev (idx p));; buf_upd p (set_b_next (idx n));;
   n <- b_next_at head;
   buf_upd b (set_b_next (idx n));; buf_upd b (set_b_prev (idx head));;
   n <- b_next_at head;
   buf_upd n (set_b_prev (idx b));; buf_upd head (set_b_next (idx b)))%K s =
  Ret tt (set_bufs (put_front (unlinked (bufs s) b) b) s).
Proof.
  intros Hlt Hr. pose proof (unlinked_ring _ _ _ _ Hlt Hr) as Hr'.
  destruct (ring_neighbours _ _ _ _ b Hr ltac:(set_solver)) as [Hn%Hlt Hp%Hlt].
  assert (b < length (bufs s) /\ head < length (bufs s))%nat as [Hb Hh] by (split; apply Hlt; set_solver).
  assert (length (unlinked (bufs s) b) = length (bufs s)) as Elen by (unfold unlinked; by rewrite !length_alter).
  assert (nxb (unlinked (bufs s) b) head < length (bufs s))%nat as Hf.
  { destruct (ring_neighbours _ _ _ _ head Hr' ltac:(set_solver)) as [Hnh _]. apply Hlt. set_solver. }
  assert (b <> head) as Hbh.
  { destruct Hr as [[Hnd _]%NoDup_cons _]. set_solver. }
  erewrite bind_Ret by by apply b_next_at_eq. erewrite bind_Ret by by apply b_prev_at_eq.
  erewrite bind_Ret by by apply buf_upd_eq.
  erewrite bind_Ret by (apply buf_upd_eq; cbn [bufs set_bufs]; lt_alter). cbn [bufs set_bufs]. fold (unlinked (bufs s) b).
  rewrite <- Elen in *. set (u := unlinked (bufs s) b) in *.
  erewrite bind_Ret by (apply b_next_at_eq; done). cbn [bufs set_bufs].
  erewrite bind_Ret by (apply buf_upd_eq; done). cbn [bufs set_bufs].
  erewrite bind_Ret by (apply buf_upd_eq; cbn [bufs set_bufs]; lt_alter). cbn [bufs set_bufs].
  erewrite bind_Ret by (apply b_next_at_eq; cbn [bufs set_bufs]; lt_alter). cbn [bufs set_bufs].
  rewrite nxb_set_prev, nxb_set_next, decide_False by (done || lt_alter).
  erewrite bind_Ret by (apply buf_upd_eq; cbn [bufs set_bufs]; lt_alter). cbn [bufs set_bufs].
  rewrite buf_upd_eq by (cbn [bufs set_bufs]; lt_alter). done.
Qed.

Lemma put_front_links bs b b' : (forall e, e ∈ [b; head; nxb bs b; pvb bs b; nxb (unlinked bs b) head] -> (e < length bs)%nat) ->
  but_links (bufget (put_front (unlinked bs b) b) b') = but_links (bufget bs b').
Proof.
  intros Hlt. unfold put_front. assert (length (unlinked bs b) = length bs) as E by (unfold unlinked; by rewrite !length_alter).
  rewrite !bufget_links by (try done; rewrite !length_alter, E; apply Hlt; set_solver).
  unfold unlinked. rewrite !bufget_links by (try done; rewrite ?length_alter; apply Hlt; set_solver). done.
Qed.

(** The buffer after [brelse] has unlocked it and dropped a reference. *)
Definition dropped (x : buf) : buf :=
  set_b_refcnt (u32 (b_refcnt x - 1)) (set_b_lock (MkSleeplock 0 0) x).

Definition brelse_state (p b : nat) (s : kstate) : kstate :=
  set_bufs (alter dropped b (bufs s)) (set_procs (imap (wake (sl_chan (SLbuf b)) (Some p)) (procs s)) s).

Lemma dropped_crep p x es v rc lk s b n :
  thread p x s -> crep es v rc lk s -> buf_of s b n -> 0 < rc n < 2 ^ 32 ->
  (rc n = 1 -> v n = disk_block s n) ->
  let s1 := brelse_state p b s in crep es v (upd rc n (rc n - 1)) (upd lk n None) s1 /\
    (forall b' n', buf_of s b' n' -> buf_of s1 b' n').
Proof.
  intros Ht Hc Hb Hr H1 s1. pose proof (buf_of_lt _ _ _ _ _ _ _ Hc Hb) as Hlt.
  destruct (buf_of_view _ _ _ _ _ _ _ Hc Hb) as (En & Ev & Er & El).
  split; [|intros ??; by apply (buf_of_update s s1 b dropped)].
  pose proof (crep_update es v rc lk s s1 b dropped n Hc Hb) as H. cbn in H.
  rewrite Er, Ev, u32_small, !upd_same in H by lia.
  apply H; try done; [lia|]. intros E. split; [done|]. rewrite H1 by lia. done.
Qed.

(** The run of [brelse] up to the move in the ring. *)
Lemma brelse_enter p x s b :
  thread p x s -> (b < length (bufs s))%nat -> lock_of (b_lock (bufget (bufs s) b)) = Some (p_pid x) ->
  let s1 := set_held [bcache_lock] (brelse_state p b s) in
  brelse b s = bindr (if b_refcnt (dropped (bufget (bufs s) b)) =? 0
    then (n <- b_next_at b; p <- b_prev_at b;
          buf_upd n (set_b_prev (idx p));; buf_upd p (set_b_next (idx n));;
          n <- b_next_at head;
          buf_upd b (set_b_next (idx n));; buf_upd b (set_b_prev (idx head));;
          n <- b_next_at head;
          buf_upd n (set_b_prev (idx b));; buf_upd head (set_b_next (idx b)))%K s1
    else Ret tt s1) (fun _ => release bcache_lock).
Proof.
  intros Ht Hlt El s1. pose proof Ht as (_ & _ & _ & Hh). unfold brelse.
  erewrite bind_Ret by (apply (holdingsleep_eq p x); [done|by apply sl_at_buf]).
  unfold lock_of in El. destruct (sl_locked _ =? 0); [done|]. injection El as ->.
  rewrite Z.eqb_refl. cbn [negb andb].
  erewrite bind_Ret by (apply (releasesleep_eq p x _ _ _ Ht (sl_at_buf b s Hlt))).
  erewrite bind_Ret by (apply acquire_eq; cbn in *; rewrite Hh; apply not_elem_of_nil).
  erewrite bind_Ret by (apply buf_upd_eq; cbn; lt_alter).
  erewrite bind_Ret by (apply buf_at_eq; cbn; lt_alter). cbn -[alter]. rewrite list_alter_alter_eq.
  rewrite bufget_alter, decide_True by done.
  destruct s as [[]]. cbn in *. subst. unfold s1, brelse_state. cbn -[alter].
  destruct (u32 _ =? 0); done.
Qed.

Lemma set_held_back h bs s : held s = [] -> set_held [] (set_bufs bs (set_held h s)) = set_bufs bs s.
Proof. intros Hh. destruct s as [[]]. cbn in *. by subst. Qed.

(** The move of buffer [b] to the front of the ring. *)
Lemma front_crep v rc lk s e1 b e2 : crep (e1 ++ b :: e2) v rc lk s ->
  let bs := put_front (unlinked (bufs s) b) b in let s' := set_bufs bs s in
  (forall e, e ∈ head :: e1 ++ b :: e2 -> (e < length (bufs s))%nat) /\
  crep (b :: e1 ++ e2) v rc lk s' /\ (forall b' n', buf_of s b' n' -> buf_of s' b' n').
Proof.
  intros Hc bs s'. pose proof (cr_ok _ _ _ _ _ Hc) as Hok. pose proof (co_ring _ _ _ Hok) as Hring.
  assert (forall e, e ∈ head :: e1 ++ b :: e2 -> (e < length (bufs s))%nat) as Hlt.
  { intros e [->|He]%elem_of_cons; [by eapply co_head|by eapply co_lt']. }
  pose proof (unlinked_ring _ _ _ _ Hlt Hring) as Hr2.
  assert (b ∉ head :: e1 ++ e2) as Hnb.
  { destruct Hring as [[? Hnd]%NoDup_cons _]. apply NoDup_app in Hnd as (? & ? & [? ?]%NoDup_cons). set_solver. }
  destruct (ring_neighbours _ _ _ _ b Hring ltac:(set_solver)) as [Hn Hp].
  destruct (ring_neighbours _ _ _ _ head Hr2 ltac:(set_solver)) as [Hn2 _].
  assert (forall b', but_links (bufget bs b') = but_links (bufget (bufs s) b')) as Hlk.
  { intros b'. apply put_front_links. intros e He. apply Hlt. set_solver. }
  split; [done|]. split.
  - eapply crep_move; [exact Hc| |by rewrite Permutation_middle| |done|done].
    + apply put_front_ring; [|done|done]. unfold unlinked. rewrite !length_alter. set_solver.
    + unfold s', bs, put_front, unlinked. cbn [bufs set_bufs]. by rewrite !length_alter.
  - intros b' n' Hbn'. unfold buf_of in *. cbn [bufs set_bufs s'].
    specialize (Hlk b'). destruct (bufget bs b'), (bufget (bufs s) b'). unfold but_links, caches in *.
    cbn in *. by simplify_eq.
Qed.

Lemma brelse_crep p x es v rc lk s b n :
  thread p x s -> crep es v rc lk s -> buf_of s b n -> lk n = Some (p_pid x) -> 0 < rc n < 2 ^ 32 ->
  (rc n = 1 -> v n = disk_block s n) ->
  exists e1 e2 bs, es = e1 ++ b :: e2 /\
    let s' := set_bufs bs (set_procs (imap (wake (sl_chan (SLbuf b)) (Some p)) (procs s)) s) in
    let es' := if decide (rc n = 1) then b :: e1 ++ e2 else es in
    brelse b s = Ret tt s' /\ crep es' v (upd rc n (rc n - 1)) (upd lk n None) s' /\
    (forall b' n', buf_of s b' n' -> buf_of s' b' n').
Proof.
  intros Ht Hc Hb Hl Hr H1. pose proof (buf_of_lt _ _ _ _ _ _ _ Hc Hb) as Hlt.
  pose proof (buf_of_elem _ _ _ _ _ _ _ Hc Hb) as Hin. apply list_elem_of_split in Hin as (e1 & e2 & Ees).
  destruct (buf_of_view _ _ _ _ _ _ _ Hc Hb) as (En & Ev & Er & El).
  destruct (dropped_crep p x es v rc lk s b n Ht Hc Hb Hr H1) as [Hc1 Hof].
  pose proof (brelse_enter p x s b Ht Hlt ltac:(by rewrite El)) as Hrun. cbn zeta in Hrun.
  cbn [dropped b_refcnt set_b_refcnt] in Hrun. rewrite Er, u32_small in Hrun by lia.
  assert (held (brelse_state p b s) = []) as Hh1 by apply Ht.
  destruct (decide (rc n = 1)) as [E1|E1].
  - rewrite Ees in Hc1. destruct (front_crep _ _ _ _ _ _ _ Hc1) as (Hlt1 & Hc2 & Hof2).
    eexists e1, e2, _. split; [done|]. cbn zeta. split; [|split; [exact Hc2|by auto]].
    assert ((rc n - 1 =? 0) = true) as E0 by (apply Z.eqb_eq; lia). rewrite E0 in Hrun. rewrite Hrun.
    erewrite (brelse_move _ e1 b e2); [|exact Hlt1|exact (co_ring _ _ _ (cr_ok _ _ _ _ _ Hc1))]. cbn [bindr].
    rewrite (release_head _ []) by done. f_equal. etrans; [by apply set_held_back|done].
  - exists e1, e2, (alter dropped b (bufs s)). split; [done|]. cbn zeta. split; [|by split].
    rewrite (proj2 (Z.eqb_neq (rc n - 1) 0)) in Hrun by lia. rewrite Hrun. cbn [bindr].
    rewrite (release_head _ []), set_held_twice by done. f_equal. rewrite <- Hh1. apply set_held_held.
Qed.

(** ** binit *)

(** The ring after the first [k] buffers, in a table of zeroed buffers. *)
Definition binit_inv (s : kstate) (k : nat) (s' : kstate) : Prop :=
  exists bs, s' = set_bufs bs s /\ length bs = S NB /\ (forall b, but_links (bufget bs b) = zero_buf) /\
    ring (nxb bs) (pvb bs) head (rev (seq 0 k)).

Lemma initsleeplock_zero b s : held s = [] -> (b < length (bufs s))%nat ->
  b_lock (bufget (bufs s) b) = zero_sleeplock -> initsleeplock (SLbuf b) s = Ret tt s.
Proof.
  intros Hh Hb El. unfold initsleeplock. erewrite bind_Ret by reflexivity. unfold sl_set.
  destruct (lookup_lt_is_Some_2 _ _ Hb) as [y Hy]. rewrite (bufget_lookup _ _ _ Hy) in El.
  rewrite buf_upd_eq by done. cbn [bufs set_bufs]. f_equal.
  rewrite Hh. cbn [remove_lock]. rewrite <- Hh, set_held_held, (alter_insert _ _ _ _ Hy), list_insert_id.
  - by destruct s.
  - rewrite Hy. f_equal. destruct y. cbn in *. by subst.
Qed.

Lemma bufget_links_lock bs b : but_links (bufget bs b) = zero_buf -> b_lock (bufget bs b) = zero_sleeplock.
Proof. intros H. exact (f_equal b_lock H). Qed.

Lemma binit_step s k s' : held s = [] -> (k < NB)%nat -> binit_inv s k s' ->
  exists s2, binit_body k s' = Ret tt s2 /\ binit_inv s (S k) s2.
Proof.
  intros Hh Hk (bs & -> & Hlen & Hz & Hr).
  assert (forall e, e ∈ head :: rev (seq 0 k) -> (e < length bs)%nat) as Hlt.
  { intros e [->|He]%elem_of_cons; [rewrite Hlen; unfold head, NB; lia|].
    apply list_elem_of_In, in_rev, list_elem_of_In, elem_of_seq in He. lia. }
  assert (k < length bs)%nat as Hk' by lia. pose proof (Hlt head ltac:(set_solver)) as Hhd.
  destruct (ring_neighbours _ _ _ _ head Hr ltac:(set_solver)) as [Hn%Hlt _].
  assert (k <> head) as Hkh by (unfold head, NB in *; lia).
  assert (k ∉ head :: rev (seq 0 k)) as Hnew.
  { apply not_elem_of_cons. split; [done|]. intros He.
    apply list_elem_of_In, in_rev, list_elem_of_In, elem_of_seq in He. lia. }
  assert (forall e, e ∈ k :: head :: rev (seq 0 k) -> (e < length bs)%nat) as Hlt'.
  { intros e [->|He]%elem_of_cons; auto. }
  pose proof (put_front_ring bs k _ Hlt' Hnew Hr) as Hr'.
  exists (set_bufs (put_front bs k) s). split.
  - unfold binit_body. erewrite bind_Ret by by apply b_next_at_eq. cbn [bufs set_bufs].
    erewrite bind_Ret by by apply buf_upd_eq. cbn [bufs set_bufs].
    erewrite bind_Ret by (apply buf_upd_eq; cbn [bufs set_bufs]; lt_alter). cbn [bufs set_bufs].
    erewrite bind_Ret.
    2:{ apply initsleeplock_zero; [done|cbn [bufs set_bufs]; lt_alter|].
        apply bufget_links_lock. cbn [bufs set_bufs]. rewrite !bufget_links by (done || lt_alter). apply Hz. }
    erewrite bind_Ret by (apply b_next_at_eq; cbn [bufs set_bufs]; lt_alter). cbn [bufs set_bufs].
    rewrite nxb_set_prev, nxb_set_next, decide_False by (done || lt_alter).
    erewrite bind_Ret by (apply buf_upd_eq; cbn [bufs set_bufs]; lt_alter). cbn [bufs set_bufs].
    rewrite buf_upd_eq by (cbn [bufs set_bufs]; lt_alter). done.
  - exists (put_front bs k). split; [done|]. split; [unfold put_front; by rewrite !length_alter|].
    split; [|by rewrite seq_S, rev_app_distr].
    intros b. unfold put_front. rewrite !bufget_links by (done || lt_alter). apply Hz.
Qed.

Lemma binit_start s : held s = [] -> bufs s = repeat zero_buf (S NB) ->
  let s1 := set_bufs (alter (set_b_next (idx head)) head (alter (set_b_prev (idx head)) head (bufs s))) s in
  binit s = for_each (seq 0 NB) binit_body s1 /\ binit_inv s 0 s1.
Proof.
  intros Hh Hbs s1. assert (head < length (bufs s))%nat as Hl by (rewrite Hbs, repeat_length; unfold head, NB; lia).
  split.
  - unfold binit. erewrite bind_Ret by reflexivity. rewrite Hh. cbn [remove_lock]. rewrite <- Hh, set_held_held.
    erewrite bind_Ret by by apply buf_upd_eq.
    by erewrite bind_Ret by (apply buf_upd_eq; cbn [bufs set_bufs]; lt_alter).
  - eexists. split; [done|]. split; [rewrite !length_alter, Hbs; apply repeat_length|]. split.
    + intros b. rewrite !bufget_links by (done || lt_alter). unfold bufget. rewrite Hbs.
      by destruct (repeat zero_buf (S NB) !! b) eqn:E; [apply lookup_repeat_inv in E as ->|].
    + split; [apply NoDup_singleton|]. cbn [links rev seq app]. split; [|split; [|done]].
      * rewrite nxb_set_next by lt_alter. by rewrite decide_True.
      * rewrite pvb_set_next, pvb_set_prev by lt_alter. by rewrite decide_True.
Qed.

Lemma binit_crep s : held s = [] -> bufs s = repeat zero_buf (S NB) ->
  exists bs, let s' := set_bufs bs s in
    binit s = Ret tt s' /\ crep (rev (seq 0 NB)) (disk_block s) (fun _ => 0) (fun _ => None) s'.
Proof.
  intros Hh Hbs. destruct (binit_start s Hh Hbs) as [-> Hi].
  assert (forall k, (k <= NB)%nat -> exists s2,
    for_each (seq 0 k) binit_body (set_bufs (alter (set_b_next (idx head)) head
      (alter (set_b_prev (idx head)) head (bufs s))) s) = Ret tt s2 /\ binit_inv s k s2) as Hloop.
  { induction k as [|k IH]; intros Hk; [by eexists|]. destruct IH as (s2 & E2 & Hi2); [lia|].
    destruct (binit_step s k s2 Hh ltac:(lia) Hi2) as (s3 & E3 & Hi3). exists s3.
    split; [|done]. rewrite seq_S, for_each_app, E2. cbn [bindr for_each Nat.add]. by rewrite (bind_Ret _ _ _ _ _ E3). }
  destruct (Hloop NB ltac:(lia)) as (s2 & -> & (bs & -> & Hlen & Hz & Hr)). exists bs. split; [done|].
  assert (forall b, exists nx pv, bufget bs b = set_b_next nx (set_b_prev pv zero_buf)) as Hg.
  { intros b. exists (b_next (bufget bs b)), (b_prev (bufget bs b)). rewrite <- (Hz b). by destruct (bufget bs b). }
  assert (forall n b, caches n (bufget bs b) = false) as Hca by (intros n b; by destruct (Hg b) as (? & ? & ->)).
  split; [split|..]; cbn [bufs set_bufs]; try done.
  - by rewrite Permutation_rev.
  - intros b _. destruct (Hg b) as (? & ? & ->). split; done.
  - intros n b b' _ _. by rewrite Hca.
  - intros b n _. by rewrite Hca.
  - intros b _ _. by destruct (Hg b) as (? & ? & ->).
Qed.

(** ** What callers rely on *)

(** C34: [bget] returns the buffer that holds the block if there is one, and
    otherwise the least recently used buffer without references, which it
    claims for the block and marks as not read yet.  Either is returned locked
    by the caller and with one more reference.  A buffer that another process
    has locked makes the caller sleep on it, with its reference counted.  With
    every buffer in use, [bget] panics. *)
Theorem bget_lru p x es v s n :
  thread p x s -> cache_ok es v s ->
  match find_cached n es s, find_unused es s with
  | Some b, _ =>
      let l := b_lock (bufget (bufs s) b) in
      (sl_locked l = 0 -> bget ROOTDEV n s = Ret b (set_bufs (alter (taken (p_pid x)) b (bufs s)) s)) /\
      (sl_locked l <> 0 -> exists k, bget ROOTDEV n s =
         Switch (asleep_on (sl_chan (SLbuf b)) p x
           (set_bufs (alter (fun y => set_b_refcnt (u32 (b_refcnt y + 1)) y) b (bufs s)) s)) k)
  | None, Some b => bget ROOTDEV n s = Ret b (set_bufs (alter (reused (p_pid x) n) b (bufs s)) s)
  | None, None => bget ROOTDEV n s = Panic "bget: no buffers"
  end.
Proof.
  intros Ht Hok. rewrite (bget_enter p x es v s n Ht Hok).
  destruct (find_cached n es s) as [b|] eqn:Ef.
  { apply find_Some_elem in Ef as [Hb _].
    exact (bget_finish p x es v s Ht Hok b (fun y => set_b_refcnt (u32 (b_refcnt y + 1)) y) Hb). }
  destruct (find_unused es s) as [b|] eqn:Eu; [|done].
  apply find_Some_elem in Eu as [Hb%list_elem_of_In%in_rev%list_elem_of_In R]. bdestr.
  apply (bget_finish p x es v s Ht Hok b _ Hb). cbn. by apply (co_buf _ _ _ Hok b Hb).
Qed.

(** A cache just initialised, used by process 0. *)
Definition demo_disk : kstate :=
  let s := zero_kstate (Machine ∅ 0 0 [] 0 0 0) in
  set_cpu_proc (Some 0%nat) (set_procs (<[0%nat := set_p_pid 1 (set_p_state RUNNING zero_proc)]> (procs s)) s).
Definition demo_cache : kstate :=
  match binit demo_disk with Ret _ s => s | _ => demo_disk end.
Definition demo_proc : proc := set_p_pid 1 (set_p_state RUNNING zero_proc).

Lemma demo_cache_ok : thread 0 demo_proc demo_cache /\
  crep (rev (seq 0 NB)) (disk_block demo_disk) (fun _ => 0) (fun _ => None) demo_cache.
Proof.
  destruct (binit_crep demo_disk) as (bs & E & Hc); [done|done|]. unfold demo_cache. rewrite E.
  split; [|exact Hc]. by repeat split.
Qed.

Lemma bget_lru_witness :
  bget ROOTDEV 7 demo_cache = Ret 0%nat (set_bufs (alter (reused 1 7) 0%nat (bufs demo_cache)) demo_cache).
Proof.
  exact (bget_lru 0 demo_proc (rev (seq 0 NB)) (disk_block demo_disk) demo_cache 7
    (proj1 demo_cache_ok) (cr_ok _ _ _ _ _ (proj2 demo_cache_ok))).
Defined.

(** A block without references is on the disk as the cache presents it. *)
Lemma crep_clean es v rc lk s n : crep es v rc lk s -> rc n = 0 -> v n = disk_block s n.
Proof.
  intros Hc E. pose proof (cr_ok _ _ _ _ _ Hc) as Hok.
  destruct (find_cached n es s) as [b|] eqn:Ef.
  - apply find_Some_elem in Ef as [Hb C]. destruct (cr_ref _ _ _ _ _ Hc b n Hb C) as [Er _].
    destruct (b_valid (bufget (bufs s) b)) eqn:V.
    + destruct (co_buf _ _ _ Hok b Hb) as [_ _ Hv _ Hcl]. apply caches_eq in C as [_ C].
      rewrite <- C, <- Hv by done. apply Hcl; [done|]. by rewrite Er.
    + apply (co_rest _ _ _ Hok). intros b' Hb' C'. by rewrite (co_uniq _ _ _ Hok n b' b).
  - apply (co_rest _ _ _ Hok). intros b Hb C. by rewrite (find_cached_None _ _ _ Ef b Hb) in C.
Qed.

Lemma thread_wake p x s c bs :
  thread p x s -> thread p x (set_bufs bs (set_procs (imap (wake c (Some p)) (procs s)) s)).
Proof.
  intros (H1 & H2 & H3 & H4). split; [done|]. split; [by apply wake_self|]. split; [|done].
  unfold ptab_ok in *. cbn. by rewrite length_imap.
Qed.

Lemma upd_back {A B} `{EqDecision A} (f : A -> B) a b c : c = f a -> upd (upd f a b) a c = f.
Proof. intros ->. by rewrite upd_upd, upd_same. Qed.

(** C18: reading a block through the cache gives what was last written to it.
    [bread] returns a buffer that holds the block as the cache presents it,
    locked, without touching the disk's contents; releasing it changes nothing
    but its place in the order of use; and new data, written with [bwrite] and
    released, are from then on what the cache and the disk have for this block,
    with every other block as before. *)
Theorem bread_bwrite_coherent p x es v rc lk s n :
  thread p x s -> crep es v rc lk s -> lk n = None -> 0 <= rc n < 2 ^ 32 - 1 -> rc n <> 0 \/ room rc ->
  exists b s1, bread ROOTDEV n s = Ret b s1 /\ b_data (bufget (bufs s1) b) = v n /\ disk s1 = disk s /\
    crep es v (upd rc n (rc n + 1)) (upd lk n (Some (p_pid x))) s1 /\
    (exists es' s2, brelse b s1 = Ret tt s2 /\ disk s2 = disk s /\ crep es' v rc lk s2) /\
    forall d, exists es' s2, (set_bdata b d;; bwrite b;; brelse b)%K s1 = Ret tt s2 /\
      crep es' (upd v n d) rc lk s2 /\ forall m, disk_block s2 m = upd (disk_block s) n d m.
Proof.
  intros Ht Hc Hlk Hrc Hroom. destruct (bread_crep p x es v rc lk s n) as (b & bs & Eb & Hc1 & Hb1 & _); [done..|].
  set (s1 := set_bufs bs s) in *. assert (thread p x s1) as Ht1 by done.
  exists b, s1. split; [done|]. split; [by apply (buf_of_view _ _ _ _ _ _ _ Hc1 Hb1)|]. split; [done|]. split; [done|].
  assert (0 < upd rc n (rc n + 1) n < 2 ^ 32) as Hr1 by (rewrite upd_eq; lia). split.
  - destruct (brelse_crep p x _ _ _ _ s1 b n Ht1 Hc1 Hb1) as (e1 & e2 & bs2 & _ & E2 & Hc2 & _);
      [by rewrite upd_eq|done| |].
    { rewrite upd_eq. intros. apply (crep_clean _ _ _ _ _ _ Hc). lia. }
    rewrite !upd_back in Hc2 by (rewrite ?upd_eq; (done || lia)). by eexists _, _.
  - intros d. destruct (set_bdata_crep es v _ _ s1 b n d Hc1 Hb1) as (E2 & Hc2 & Hb2); [rewrite upd_eq; lia|].
    rewrite (bind_Ret _ _ _ _ _ E2). set (s2 := set_bufs _ s1) in *.
    destruct (bwrite_crep p x _ _ _ _ s2 b n Ht1 Hc2 (Hb2 _ _ Hb1)) as (E3 & Hc3); [by rewrite upd_eq|].
    rewrite (bind_Ret _ _ _ _ _ E3). rewrite (upd_eq v) in *. set (s3 := set_disk_writes _ _) in *.
    assert (forall m, disk_block s3 m = upd (disk_block s) n d m) as Hd.
    { intros m. unfold disk_block, upd. cbn. case_decide; [subst; by rewrite lookup_insert_eq|by rewrite lookup_insert_ne by congruence]. }
    destruct (brelse_crep p x _ _ _ _ s3 b n Ht1 Hc3 (Hb2 _ _ Hb1)) as (e1 & e2 & bs2 & _ & E4 & Hc4 & _);
      [by rewrite upd_eq|done|intros _; by rewrite Hd, !upd_eq|].
    rewrite !upd_back in Hc4 by (rewrite ?upd_eq; (done || lia)). by eexists _, _.
Qed.

Lemma bread_bwrite_coherent_witness : exists b s1, bread ROOTDEV 7 demo_cache = Ret b s1 /\
  b_data (bufget (bufs s1) b) = disk_block demo_disk 7 /\ disk s1 = disk demo_cache.
Proof.
  destruct demo_cache_ok as [Ht Hc].
  destruct (bread_bwrite_coherent 0 demo_proc _ _ _ _ demo_cache 7 Ht Hc) as (b & s1 & H1 & H2 & H3 & _);
    [reflexivity|lia|right; exists []; split; [vm_compute; lia|intros m Hm; by destruct Hm]|].
  exists b, s1. split; [exact H1|]. split; [exact H2|exact H3].
Defined.
