(* ===== verification/CacheOps.v ===== *)
(** * Sequential file-system code over the buffer cache

    What each operation of bio.c does to the cache as a client sees it: the
    contents [v] of the blocks, the references [rc] and locks [lk] of their
    buffers, the contents [D] of the disk and the writes [W] it has received. *)

From Stdlib Require Import FunctionalExtensionality.
From S2P Require Import Prelude Mem Riscv Locks Ring Kalloc Kstate Proc ProcSpec Sleeplock SleeplockSpec Bio BioSpec.
Import Proc Sleeplock Bio.

(** Other processes may have been woken up. *)
Definition woken (ps ps' : list proc) : Prop :=
  Forall2 (fun x y => y = x \/ p_state x = SLEEPING /\ y = set_p_state RUNNABLE x) ps ps'.

Lemma woken_refl ps : woken ps ps.
Proof. apply Forall_Forall2_diag, Forall_forall. auto. Qed.

Lemma woken_trans ps1 ps2 ps3 : woken ps1 ps2 -> woken ps2 ps3 -> woken ps1 ps3.
Proof.
  intros H; revert ps3; induction H as [|x y ps1 ps2 Hxy H IH]; intros ps3; [done|].
  intros (z & ps & Hyz & Hps & ->)%Forall2_cons_inv_l. constructor; [|by apply IH].
  destruct Hxy as [->|[Hx ->]], Hyz as [->|[Hy ->]]; auto.
Qed.

Lemma woken_wake c me ps : woken ps (imap (wake c me) ps).
Proof.
  apply Forall2_same_length_lookup_2; [by rewrite length_imap|]. intros i x y Hx.
  rewrite list_lookup_imap, Hx. cbn. intros [= <-]. unfold wake. repeat case_decide; tauto.
Qed.

(** The parts of the state that code using the cache leaves alone. *)
Definition erase (s : kstate) : kstate :=
  set_disk_writes [] (set_disk ∅ (set_bufs [] (set_procs [] s))).

(** The cache and the disk, reached from state [s0] by operations of bio.c. *)
Record cst (p : nat) (x : proc) (s0 : kstate) (v : Z -> list Z) (rc : Z -> Z) (lk : Z -> option Z)
    (D : Z -> list Z) (W : list (Z * list Z)) (s : kstate) : Prop := {
  cs_thread : thread p x s;
  cs_crep : exists es, crep es v rc lk s;
  cs_disk : disk_block s = D;
  cs_writes : disk_writes s = W;
  cs_erase : erase s = erase s0;
  cs_woken : woken (procs s0) (procs s);
}.

Section cst.
Context (p : nat) (x : proc) (s0 : kstate).
Implicit Types (v D : Z -> list Z) (rc : Z -> Z) (lk : Z -> option Z).

Lemma cst_start es v rc lk s :
  thread p x s -> crep es v rc lk s -> cst p x s v rc lk (disk_block s) (disk_writes s) s.
Proof. intros Ht Hc. split; [done|by exists es|done..|]. apply woken_refl. Qed.

Lemma bread_cst v rc lk D W s n :
  cst p x s0 v rc lk D W s -> lk n = None -> 0 <= rc n < 2 ^ 32 - 1 -> rc n <> 0 \/ room rc ->
  exists b s', bread ROOTDEV n s = Ret b s' /\ buf_of s' b n /\
    cst p x s0 v (upd rc n (rc n + 1)) (upd lk n (Some (p_pid x))) D W s' /\
    forall b' m, m <> n -> rc m <> 0 -> buf_of s b' m -> buf_of s' b' m.
Proof.
  intros [Ht [es Hc] HD HW He Hwk] Hlk Hrc Hroom.
  destruct (bread_crep p x es v rc lk s n) as (b & bs & Eb & Hc1 & Hb1 & Hk); [done..|].
  eexists b, _. split; [exact Eb|]. split; [done|]. split; [split; try done; by exists es|].
  intros b' m Hm Hr Hb'. apply Hk; [done|done|].
  by destruct (buf_of_view _ _ _ _ _ _ _ Hc Hb') as (_ & _ & -> & _).
Qed.

Lemma bdata_cst v rc lk D W s b n :
  cst p x s0 v rc lk D W s -> buf_of s b n -> bdata b s = Ret (v n) s.
Proof.
  intros [_ [es Hc] _ _ _ _] Hb. unfold bdata.
  erewrite bind_Ret by (apply buf_at_eq; by eapply buf_of_lt). cbn. f_equal.
  by apply (buf_of_view _ _ _ _ _ _ _ Hc Hb).
Qed.

Lemma set_bdata_cst v rc lk D W s b n d :
  cst p x s0 v rc lk D W s -> buf_of s b n -> rc n <> 0 ->
  exists s', set_bdata b d s = Ret tt s' /\ cst p x s0 (upd v n d) rc lk D W s' /\
    forall b' m, buf_of s b' m -> buf_of s' b' m.
Proof.
  intros [Ht [es Hc] HD HW He Hwk] Hb Hr.
  destruct (set_bdata_crep es v rc lk s b n d Hc Hb Hr) as (E & Hc' & Hk).
  eexists. split; [exact E|]. split; [|done]. split; try done. by exists es.
Qed.

Lemma bwrite_cst v rc lk D W s b n :
  cst p x s0 v rc lk D W s -> buf_of s b n -> lk n = Some (p_pid x) ->
  exists s', bwrite b s = Ret tt s' /\ cst p x s0 v rc lk (upd D n (v n)) ((n, v n) :: W) s' /\
    forall b' m, buf_of s b' m -> buf_of s' b' m.
Proof.
  intros [Ht [es Hc] HD HW He Hwk] Hb Hl.
  destruct (bwrite_crep p x es v rc lk s b n Ht Hc Hb Hl) as (E & Hc').
  eexists. split; [exact E|]. split; [|done]. split; [done|by exists es| |cbn; congruence|done|done].
  apply functional_extensionality. intros m. rewrite <- HD. unfold disk_block, upd. cbn.
  case_decide; [subst; by rewrite lookup_insert_eq|by rewrite lookup_insert_ne by congruence].
Qed.

Lemma brelse_cst v rc lk D W s b n :
  cst p x s0 v rc lk D W s -> buf_of s b n -> lk n = Some (p_pid x) -> 0 < rc n < 2 ^ 32 ->
  (rc n = 1 -> v n = D n) ->
  exists s', brelse b s = Ret tt s' /\ cst p x s0 v (upd rc n (rc n - 1)) (upd lk n None) D W s' /\
    forall b' m, buf_of s b' m -> buf_of s' b' m.
Proof.
  intros [Ht [es Hc] HD HW He Hwk] Hb Hl Hr H1. rewrite <- HD in H1.
  destruct (brelse_crep p x es v rc lk s b n Ht Hc Hb Hl Hr H1) as (e1 & e2 & bs & Ees & E & Hc' & Hk).
  eexists. split; [exact E|]. split; [|done]. split; [by apply thread_wake|by eexists|done..|].
  eapply woken_trans; [exact Hwk|]. apply woken_wake.
Qed.

Lemma bunpin_cst v rc lk D W s b n :
  cst p x s0 v rc lk D W s -> buf_of s b n -> 1 < rc n < 2 ^ 32 ->
  exists s', bunpin b s = Ret tt s' /\ cst p x s0 v (upd rc n (rc n - 1)) lk D W s' /\
    forall b' m, buf_of s b' m -> buf_of s' b' m.
Proof.
  intros [Ht [es Hc] HD HW He Hwk] Hb Hr.
  destruct (bpin_crep p x es v rc lk s b n (-1) (fun y => set_b_refcnt (u32 (b_refcnt y - 1)) y))
    as (Hc' & Hk); [done..|lia|lia|].
  eexists. split; [unfold bunpin; apply locked_upd_eq; [apply (thread_unlocked _ _ _ _ Ht)|by eapply buf_of_lt]|].
  split; [|done]. split; try done. by exists es.
Qed.

Lemma bpin_cst v rc lk D W s b n :
  cst p x s0 v rc lk D W s -> buf_of s b n -> 0 <= rc n < 2 ^ 32 - 1 ->
  exists s', bpin b s = Ret tt s' /\ cst p x s0 v (upd rc n (rc n + 1)) lk D W s' /\
    forall b' m, buf_of s b' m -> buf_of s' b' m.
Proof.
  intros [Ht [es Hc] HD HW He Hwk] Hb Hr.
  destruct (bpin_crep p x es v rc lk s b n 1 (fun y => set_b_refcnt (u32 (b_refcnt y + 1)) y))
    as (Hc' & Hk); [done..|lia|lia|].
  eexists. split; [unfold bpin; apply locked_upd_eq; [apply (thread_unlocked _ _ _ _ Ht)|by eapply buf_of_lt]|].
  split; [|done]. split; try done. by exists es.
Qed.

Lemma cst_clean v rc lk D W s n : cst p x s0 v rc lk D W s -> rc n = 0 -> v n = D n.
Proof. intros [_ [es Hc] <- _ _ _]. by eapply crep_clean. Qed.

End cst.
