(* ===== verification/Virtio.v ===== *)
(** * kernel/virtio_disk.c

    The disk driver: descriptor allocation, the request it hands to the device
    and its completion.  Bio.v uses the summary [Bio.virtio_disk_rw]. *)

From S2P Require Import Prelude Riscv Locks Kalloc Kstate Proc Sleeplock Bio.
Import Proc Sleeplock Bio.

Module Virtio.

Abbreviation NUM := (8)%Z.
Abbreviation VRING_DESC_F_NEXT := (1)%Z.
Abbreviation VRING_DESC_F_WRITE := (2)%Z.
Abbreviation VIRTIO_BLK_T_IN := (0)%Z.
Abbreviation VIRTIO_BLK_T_OUT := (1)%Z.

Definition vdisk_lock : lockid := ("virtio_disk", 0).
Definition free_chan : chan := ("disk.free", 0).
Definition buf_chan (b : nat) : chan := ("buf", Z.of_nat b).

Definition upd_vd (f : vdisk -> vdisk) : M kstate unit := modify (fun s => set_vd (f (vd s)) s).
Definition upd_desc (i : Z) (f : desc -> desc) : M kstate unit :=
  upd_vd (fun v => set_v_desc (alter f (Z.to_nat i) (v_desc v)) v).
Definition desc_at (i : Z) : M kstate desc :=
  (v <- gets vd; match v_desc v !! Z.to_nat i with Some d => ret d | None => fault end)%K.

(** ** Setting up the device *)

(** The control registers, and where they are. *)
Inductive mmio_reg :=
| VIRTIO_MMIO_MAGIC_VALUE
| VIRTIO_MMIO_VERSION
| VIRTIO_MMIO_DEVICE_ID
| VIRTIO_MMIO_VENDOR_ID
| VIRTIO_MMIO_DEVICE_FEATURES
| VIRTIO_MMIO_DRIVER_FEATURES
| VIRTIO_MMIO_GUEST_PAGE_SIZE
| VIRTIO_MMIO_QUEUE_SEL
| VIRTIO_MMIO_QUEUE_NUM_MAX
| VIRTIO_MMIO_QUEUE_NUM
| VIRTIO_MMIO_QUEUE_PFN
| VIRTIO_MMIO_QUEUE_NOTIFY
| VIRTIO_MMIO_INTERRUPT_STATUS
| VIRTIO_MMIO_INTERRUPT_ACK
| VIRTIO_MMIO_STATUS.

Definition mmio_offset (r : mmio_reg) : Z :=
  match r with
  | VIRTIO_MMIO_MAGIC_VALUE => 0x000
  | VIRTIO_MMIO_VERSION => 0x004
  | VIRTIO_MMIO_DEVICE_ID => 0x008
  | VIRTIO_MMIO_VENDOR_ID => 0x00c
  | VIRTIO_MMIO_DEVICE_FEATURES => 0x010
  | VIRTIO_MMIO_DRIVER_FEATURES => 0x020
  | VIRTIO_MMIO_GUEST_PAGE_SIZE => 0x028
  | VIRTIO_MMIO_QUEUE_SEL => 0x030
  | VIRTIO_MMIO_QUEUE_NUM_MAX => 0x034
  | VIRTIO_MMIO_QUEUE_NUM => 0x038
  | VIRTIO_MMIO_QUEUE_PFN => 0x040
  | VIRTIO_MMIO_QUEUE_NOTIFY => 0x050
  | VIRTIO_MMIO_INTERRUPT_STATUS => 0x060
  | VIRTIO_MMIO_INTERRUPT_ACK => 0x064
  | VIRTIO_MMIO_STATUS => 0x070
  end.

Abbreviation VIRTIO_CONFIG_S_ACKNOWLEDGE := (1)%Z.
Abbreviation VIRTIO_CONFIG_S_DRIVER := (2)%Z.
Abbreviation VIRTIO_CONFIG_S_DRIVER_OK := (4)%Z.
Abbreviation VIRTIO_CONFIG_S_FEATURES_OK := (8)%Z.
Definition R (r : mmio_reg) : Z := VIRTIO0 + mmio_offset r.

(** [features &= ~(1 << bit)] *)
Definition clear_bit (features bit : Z) : Z := Z.land features (Z.lnot (Z.shiftl 1 bit)).

(** The feature bits the driver refuses: read-only, SCSI passthrough, cache
    configuration, several queues, any layout, event index, indirect
    descriptors. *)
Definition refused_features : list Z := [5; 7; 11; 12; 27; 29; 28].

(** The features the driver accepts. *)
Definition negotiate (features : Z) : Z := fold_left clear_bit refused_features features.

(** The driver's own structures: the zeroed pages of the queue, all descriptors
    free. *)
Definition virtio_disk_init_queue : M kstate unit :=
  (upd_vd (fun v => set_v_desc (repeat (MkDesc ANull 0 0 0) (Z.to_nat NUM)) v);;
   upd_vd (fun v => set_v_avail (repeat 0 (Z.to_nat NUM)) (set_v_avail_idx 0 v));;
   upd_vd (fun v => set_v_used (repeat 0 (Z.to_nat NUM)) (set_v_used_dev 0 v)))%K.

(** [pages] is the address of [disk.pages]. *)
Definition virtio_disk_init (pages : Z) : M kstate unit :=
  (initlock vdisk_lock;;
   magic <- reg_read (R VIRTIO_MMIO_MAGIC_VALUE);
   version <- reg_read (R VIRTIO_MMIO_VERSION);
   device <- reg_read (R VIRTIO_MMIO_DEVICE_ID);
   vendor <- reg_read (R VIRTIO_MMIO_VENDOR_ID);
   if negb (magic =? 0x74726976) || negb (version =? 1) || negb (device =? 2) ||
      negb (vendor =? 0x554d4551) then panic "could not find virtio disk"
   else
     let status := VIRTIO_CONFIG_S_ACKNOWLEDGE in
     reg_write (R VIRTIO_MMIO_STATUS) status;;
     let status := Z.lor status VIRTIO_CONFIG_S_DRIVER in
     reg_write (R VIRTIO_MMIO_STATUS) status;;
     features <- reg_read (R VIRTIO_MMIO_DEVICE_FEATURES);
     reg_write (R VIRTIO_MMIO_DRIVER_FEATURES) (u32 (negotiate features));;
     let status := Z.lor status VIRTIO_CONFIG_S_FEATURES_OK in
     reg_write (R VIRTIO_MMIO_STATUS) status;;
     let status := Z.lor status VIRTIO_CONFIG_S_DRIVER_OK in
     reg_write (R VIRTIO_MMIO_STATUS) status;;
     reg_write (R VIRTIO_MMIO_GUEST_PAGE_SIZE) PGSIZE;;
     reg_write (R VIRTIO_MMIO_QUEUE_SEL) 0;;
     max <- reg_read (R VIRTIO_MMIO_QUEUE_NUM_MAX);
     if max =? 0 then panic "virtio disk has no queue 0"
     else if max <? NUM then panic "virtio disk max queue too short"
     else
       reg_write (R VIRTIO_MMIO_QUEUE_NUM) NUM;;
       virtio_disk_init_queue;;
       reg_write (R VIRTIO_MMIO_QUEUE_PFN) (u32 (Z.shiftr pages PGSHIFT));;
       for_range (Z.to_nat NUM) 0 (fun i =>
         upd_vd (fun v => set_v_free (<[Z.to_nat i := true]> (v_free v)) v)))%K.

(** ** Descriptors *)

Fixpoint first_free (fs : list bool) (i : Z) : option Z :=
  match fs with
  | [] => None
  | f :: fs' => if f then Some i else first_free fs' (i + 1)
  end.

Definition alloc_desc : M kstate Z :=
  (v <- gets vd;
   match first_free (take (Z.to_nat NUM) (v_free v)) 0 with
   | Some i => upd_vd (fun v => set_v_free (<[Z.to_nat i := false]> (v_free v)) v);; ret i
   | None => ret (-1)
   end)%K.

Definition free_desc (i : Z) : M kstate unit :=
  (if NUM <=? i then panic "free_desc 1"
   else
     v <- gets vd;
     if nth (Z.to_nat i) (v_free v) false then panic "free_desc 2"
     else
       upd_desc i (fun _ => MkDesc ANull 0 0 0);;
       upd_vd (fun v => set_v_free (<[Z.to_nat i := true]> (v_free v)) v);;
       wakeup free_chan)%K.

Definition free_chain_body (i : Z) : M kstate (Z + unit) :=
  (d <- desc_at i;
   free_desc i;;
   ret (if negb (Z.land (d_flags d) VRING_DESC_F_NEXT =? 0) then inl (d_next d) else inr tt))%K.

Definition free_chain (i : Z) : M kstate unit := loop free_chain_body i.

(** The three indices, or [None] for -1. *)
Definition alloc3_desc : M kstate (option (Z * Z * Z)) :=
  (i0 <- alloc_desc;
   if i0 <? 0 then ret None
   else
     i1 <- alloc_desc;
     if i1 <? 0 then free_desc i0;; ret None
     else
       i2 <- alloc_desc;
       if i2 <? 0 then free_desc i0;; free_desc i1;; ret None
       else ret (Some (i0, i1, i2)))%K.

Definition alloc3_wait (_ : unit) : M kstate (unit + Z * Z * Z) :=
  (r <- alloc3_desc;
   match r with
   | Some idx => ret (inr idx)
   | None => sleep free_chan vdisk_lock;; ret (inl tt)
   end)%K.

(** The request in the three descriptors and its entry in the available ring. *)
Definition submit (b : nat) (write : bool) (i0 i1 i2 : Z) : M kstate unit :=
  (x <- buf_at b;
   let sector := u32 (b_blockno x * (BSIZE / 512)) in
   upd_vd (fun v => set_v_ops (<[Z.to_nat i0 :=
     (if write then VIRTIO_BLK_T_OUT else VIRTIO_BLK_T_IN, sector)]> (v_ops v)) v);;
   upd_desc i0 (fun _ => MkDesc (AOp i0) 16 VRING_DESC_F_NEXT i1);;
   upd_desc i1 (fun _ => MkDesc (AData b) BSIZE
     (Z.lor (if write then 0 else VRING_DESC_F_WRITE) VRING_DESC_F_NEXT) i2);;
   upd_vd (fun v => set_v_info_status (<[Z.to_nat i0 := 0xff]> (v_info_status v)) v);;
   upd_desc i2 (fun _ => MkDesc (AStatus i0) 1 VRING_DESC_F_WRITE 0);;
   buf_upd b (set_b_disk true);;
   upd_vd (fun v => set_v_info_b (<[Z.to_nat i0 := Some b]> (v_info_b v)) v);;
   upd_vd (fun v => set_v_avail (<[Z.to_nat (v_avail_idx v mod NUM) := i0]> (v_avail v)) v);;
   upd_vd (fun v => set_v_avail_idx (u16 (v_avail_idx v + 1)) v);;
   reg_write (R VIRTIO_MMIO_QUEUE_NOTIFY) 0)%K.

(** [while(b->disk == 1) sleep(b, &disk.vdisk_lock);] *)
Definition disk_wait (b : nat) (_ : unit) : M kstate (unit + unit) :=
  (x <- buf_at b;
   if b_disk x then sleep (buf_chan b) vdisk_lock;; ret (inl tt) else ret (inr tt))%K.

Definition virtio_disk_rw (b : nat) (write : bool) : M kstate unit :=
  (acquire vdisk_lock;;
   ' (i0, i1, i2) <- loop alloc3_wait tt;
   submit b write i0 i1 i2;;
   loop (disk_wait b) tt;;
   upd_vd (fun v => set_v_info_b (<[Z.to_nat i0 := None]> (v_info_b v)) v);;
   free_chain i0;;
   release vdisk_lock)%K.

Definition virtio_disk_intr_body (_ : unit) : M kstate (unit + unit) :=
  (v <- gets vd;
   if v_used_idx v =? v_used_dev v then ret (inr tt)
   else
     let id := nth (Z.to_nat (v_used_idx v mod NUM)) (v_used v) 0 in
     if negb (nth (Z.to_nat id) (v_info_status v) 0 =? 0) then panic "virtio_disk_intr status"
     else
       b <- deref (match v_info_b v !! Z.to_nat id with Some o => o | None => None end);
       buf_upd b (set_b_disk false);;
       wakeup (buf_chan b);;
       upd_vd (fun v => set_v_used_idx (u16 (v_used_idx v + 1)) v);;
       ret (inl tt))%K.

Definition virtio_disk_intr : M kstate unit :=
  (acquire vdisk_lock;;
   status <- reg_read (R VIRTIO_MMIO_INTERRUPT_STATUS);
   reg_write (R VIRTIO_MMIO_INTERRUPT_ACK) (Z.land status 0x3);;
   loop virtio_disk_intr_body tt;;
   release vdisk_lock)%K.

End Virtio.
