(* ===== verification/Log.v ===== *)
(** * kernel/log.c

    The redo log that makes the disk writes of a file-system call atomic. *)

From S2P Require Import Prelude Riscv Locks Kalloc Kstate Proc Sleeplock Bio Blk.
Import Proc Sleeplock Bio.

Module Log.

Definition log_lock : lockid := ("log", 0).
Definition log_chan : chan := ("log", 0).

Definition upd_log (f : logst -> logst) : M kstate unit := modify (fun s => set_log (f (log s)) s).

(** Copies in both directions between the header block and [log.lh]: [n] at
    offset 0 and [block[i]] at [4 + 4 * i], all [int]. *)
Definition head_block (d : list Z) (i : Z) : Z := i32 (get32 d (4 + 4 * i)).

Definition read_head : M kstate unit :=
  (l <- gets log;
   buf <- bread (l_dev l) (l_start l);
   d <- bdata buf;
   upd_log (set_lh_n (i32 (get32 d 0)));;
   n <- gets (fun s => lh_n (log s));
   for_range (Z.to_nat n) 0 (fun i =>
     upd_log (fun l => set_lh_block (<[Z.to_nat i := head_block d i]> (lh_block l)) l));;
   brelse buf)%K.

Definition write_head : M kstate unit :=
  (l <- gets log;
   buf <- bread (l_dev l) (l_start l);
   d <- bdata buf;
   set_bdata buf (put32 d 0 (lh_n l));;
   for_range (Z.to_nat (lh_n l)) 0 (fun i =>
     d <- bdata buf;
     set_bdata buf (put32 d (4 + 4 * i) (nth (Z.to_nat i) (lh_block l) 0)));;
   bwrite buf;;
   brelse buf)%K.

(** The body of [install_trans]'s loop, for log block [tail]. *)
Definition install_block (recovering : bool) (tail : Z) : M kstate unit :=
  (l <- gets log;
   lbuf <- bread (l_dev l) (l_start l + tail + 1);
   dbuf <- bread (l_dev l) (nth (Z.to_nat tail) (lh_block l) 0);
   d <- bdata lbuf;
   set_bdata dbuf d;;
   bwrite dbuf;;
   (if negb recovering then bunpin dbuf else ret tt);;
   brelse lbuf;;
   brelse dbuf)%K.

Definition install_trans (recovering : bool) : M kstate unit :=
  (n <- gets (fun s => lh_n (log s));
   for_range (Z.to_nat n) 0 (install_block recovering))%K.

Definition recover_from_log : M kstate unit :=
  (read_head;;
   install_trans true;;
   upd_log (set_lh_n 0);;
   write_head)%K.

(** [sizeof(struct logheader)] is [4 + 4 * LOGSIZE]. *)
Definition initlog (dev : Z) (sb : superblock) : M kstate unit :=
  (if BSIZE <=? 4 + 4 * LOGSIZE then panic "initlog: too big logheader"
   else
     initlock log_lock;;
     upd_log (set_l_start (sb_logstart sb));;
     upd_log (set_l_size (sb_nlog sb));;
     upd_log (set_l_dev dev);;
     recover_from_log)%K.

Definition begin_op_body (_ : unit) : M kstate (unit + unit) :=
  (l <- gets log;
   if l_committing l then sleep log_chan log_lock;; ret (inl tt)
   else if LOGSIZE <? lh_n l + (l_outstanding l + 1) * MAXOPBLOCKS then
     sleep log_chan log_lock;; ret (inl tt)
   else
     upd_log (set_l_outstanding (l_outstanding l + 1));;
     release log_lock;;
     ret (inr tt))%K.

Definition begin_op : M kstate unit :=
  (acquire log_lock;; loop begin_op_body tt)%K.

(** The body of [write_log]'s loop. *)
Definition log_block (tail : Z) : M kstate unit :=
  (l <- gets log;
   to <- bread (l_dev l) (l_start l + tail + 1);
   from <- bread (l_dev l) (nth (Z.to_nat tail) (lh_block l) 0);
   d <- bdata from;
   set_bdata to d;;
   bwrite to;;
   brelse from;;
   brelse to)%K.

Definition write_log : M kstate unit :=
  (n <- gets (fun s => lh_n (log s));
   for_range (Z.to_nat n) 0 log_block)%K.

Definition commit : M kstate unit :=
  (n <- gets (fun s => lh_n (log s));
   if 0 <? n then
     write_log;;
     write_head;;
     install_trans false;;
     upd_log (set_lh_n 0);;
     write_head
   else ret tt)%K.

Definition end_op : M kstate unit :=
  (acquire log_lock;;
   upd_log (fun l => set_l_outstanding (l_outstanding l - 1) l);;
   l <- gets log;
   if l_committing l then panic "log.committing"
   else
     do_commit <- (if l_outstanding l =? 0
                   then upd_log (set_l_committing true);; ret true
                   else wakeup log_chan;; ret false);
     release log_lock;;
     if (do_commit : bool) then
       commit;;
       acquire log_lock;;
       upd_log (set_l_committing false);;
       wakeup log_chan;;
       release log_lock
     else ret tt)%K.

(** The index of block [b] in the header, or [lh_n] when it is not there. *)
Fixpoint find_block (bs : list Z) (b : Z) (i : nat) : nat :=
  match bs with
  | [] => i
  | x :: bs' => if u32 x =? b then i else find_block bs' b (S i)
  end.

Definition log_write (b : nat) : M kstate unit :=
  (x <- buf_at b;
   acquire log_lock;;
   l <- gets log;
   if (LOGSIZE <=? lh_n l) || (l_size l - 1 <=? lh_n l) then panic "too big a transaction"
   else if l_outstanding l <? 1 then panic "log_write outside of trans"
   else
     let i := find_block (take (Z.to_nat (lh_n l)) (lh_block l)) (b_blockno x) 0 in
     upd_log (fun l => set_lh_block (<[i := i32 (b_blockno x)]> (lh_block l)) l);;
     (if Z.of_nat i =? lh_n l then
        bpin b;;
        upd_log (set_lh_n (lh_n l + 1))
      else ret tt);;
     release log_lock)%K.

End Log.
