(* ===== verification/LogSpec.v ===== *)
(** * The log: a committed transaction survives a crash whole or not at all

    The disk writes of [commit] one by one, and what recovery makes of the disk
    after any number of them. *)

From Stdlib Require Import FunctionalExtensionality.
From S2P Require Import Prelude Mem Riscv Locks Kalloc Kstate Proc ProcSpec Sleeplock SleeplockSpec Bio BioSpec CacheOps Blk Log.
Import Proc Sleeplock Bio Log.

(** Equality of functions that are changed at some points. *)
Ltac upd_eq_tac :=
  apply functional_extensionality; intros ?; unfold upd; repeat case_decide; subst;
  first [done | lia | congruence].

(** ** Copying one block through the cache *)

Section copy.
Context (p : nat) (x : proc) (s0 : kstate).
Implicit Types (v D : Z -> list Z) (rc : Z -> Z) (lk : Z -> option Z).

Lemma cst_log_eq v rc lk D W s : cst p x s0 v rc lk D W s -> log s = log s0.
Proof. intros H. exact (f_equal log (cs_erase _ _ _ _ _ _ _ _ _ H)). Qed.

Lemma log_block_cst v rc lk D W s tail :
  cst p x s0 v rc lk D W s -> l_dev (log s0) = ROOTDEV ->
  let dst := l_start (log s0) + tail + 1 in let src := nth (Z.to_nat tail) (lh_block (log s0)) 0 in
  src <> dst -> lk dst = None -> lk src = None -> rc dst = 0 -> 0 < rc src < 2 ^ 32 - 1 -> room rc ->
  exists s', log_block tail s = Ret tt s' /\
    cst p x s0 (upd v dst (v src)) rc lk (upd D dst (v src)) ((dst, v src) :: W) s'.
Proof.
  intros H Hdev dst src Hne Ld Ls Rd Rs Hroom. unfold log_block.
  erewrite bind_Ret by reflexivity. rewrite (cst_log_eq _ _ _ _ _ _ H), Hdev. fold dst src.
  destruct (bread_cst p x s0 _ _ _ _ _ _ dst H Ld ltac:(lia) ltac:(auto)) as (b1 & s1 & E1 & B1 & H1 & K1).
  rewrite (bind_Ret _ _ _ _ _ E1). 
  destruct (bread_cst p x s0 _ _ _ _ _ _ src H1) as (b2 & s2 & E2 & B2 & H2 & K2);
    [by upds|upds; lia|left; upds; lia|].
  rewrite (bind_Ret _ _ _ _ _ E2).
  assert (buf_of s2 b1 dst) as B1' by (apply K2; [done|upds; lia|done]).
  erewrite bind_Ret by (by eapply (bdata_cst p x s0)).
  destruct (set_bdata_cst p x s0 _ _ _ _ _ _ b1 dst (v src) H2 B1') as (s3 & E3 & H3 & K3); [upds; lia|].
  rewrite (bind_Ret _ _ _ _ _ E3).
  destruct (bwrite_cst p x s0 _ _ _ _ _ _ b1 dst H3 (K3 _ _ B1')) as (s4 & E4 & H4 & K4); [by upds|].
  rewrite (bind_Ret _ _ _ _ _ E4).
  destruct (brelse_cst p x s0 _ _ _ _ _ _ b2 src H4 (K4 _ _ (K3 _ _ B2))) as (s5 & E5 & H5 & K5);
    [by upds|upds; lia|upds; lia|].
  rewrite (bind_Ret _ _ _ _ _ E5).
  destruct (brelse_cst p x s0 _ _ _ _ _ _ b1 dst H5 (K5 _ _ (K4 _ _ (K3 _ _ B1')))) as (s6 & E6 & H6 & _);
    [by upds|upds; lia|by upds|].
  exists s6. split; [done|]. upds_in H6.
  match type of H6 with cst _ _ _ _ ?a ?b _ _ _ =>
    replace a with rc in H6 by upd_eq_tac; replace b with lk in H6 by upd_eq_tac end.
  done.
Qed.

Lemma install_block_cst v rc lk D W s tail (recovering : bool) :
  cst p x s0 v rc lk D W s -> l_dev (log s0) = ROOTDEV ->
  let src := l_start (log s0) + tail + 1 in let dst := nth (Z.to_nat tail) (lh_block (log s0)) 0 in
  src <> dst -> lk dst = None -> lk src = None -> rc src = 0 -> 0 <= rc dst < 2 ^ 32 - 1 -> room rc ->
  (if recovering then room (upd rc src 1) else rc dst <> 0) ->
  exists s', install_block recovering tail s = Ret tt s' /\
    cst p x s0 (upd v dst (v src)) (if recovering then rc else upd rc dst (rc dst - 1)) lk
      (upd D dst (v src)) ((dst, v src) :: W) s'.
Proof.
  intros H Hdev src dst Hne Ld Ls Rs Rd Hroom Hr2. unfold install_block.
  pose proof (cst_clean p x s0 _ _ _ _ _ _ src H Rs) as Hcl.
  erewrite bind_Ret by reflexivity. rewrite (cst_log_eq _ _ _ _ _ _ H), Hdev. fold dst src.
  destruct (bread_cst p x s0 _ _ _ _ _ _ src H Ls ltac:(lia) ltac:(auto)) as (b1 & s1 & E1 & B1 & H1 & K1).
  rewrite (bind_Ret _ _ _ _ _ E1). replace (rc src + 1) with 1 in * by lia.
  destruct (bread_cst p x s0 _ _ _ _ _ _ dst H1) as (b2 & s2 & E2 & B2 & H2 & K2);
    [by upds|upds; lia|upds; by destruct recovering; [right|left]|].
  rewrite (bind_Ret _ _ _ _ _ E2).
  assert (buf_of s2 b1 src) as B1' by (apply K2; [done|upds; lia|done]).
  erewrite bind_Ret by (by eapply (bdata_cst p x s0)).
  destruct (set_bdata_cst p x s0 _ _ _ _ _ _ b2 dst (v src) H2 B2) as (s3 & E3 & H3 & K3); [upds; lia|].
  rewrite (bind_Ret _ _ _ _ _ E3).
  destruct (bwrite_cst p x s0 _ _ _ _ _ _ b2 dst H3 (K3 _ _ B2)) as (s4 & E4 & H4 & K4); [by upds|].
  rewrite (bind_Ret _ _ _ _ _ E4). upds_in H4.
  assert (exists s5, (if negb recovering then bunpin b2 else ret tt) s4 = Ret tt s5 /\
    cst p x s0 (upd v dst (v src)) (upd (upd rc src 1) dst (if recovering then rc dst + 1 else rc dst))
      (upd (upd lk src (Some (p_pid x))) dst (Some (p_pid x))) (upd D dst (v src)) ((dst, v src) :: W) s5 /\
    forall b' m, buf_of s4 b' m -> buf_of s5 b' m) as (s5 & E5 & H5 & K5).
  { destruct recovering; [by exists s4|]. cbn [negb].
    destruct (bunpin_cst p x s0 _ _ _ _ _ _ b2 dst H4 (K4 _ _ (K3 _ _ B2))) as (s5 & E5 & H5 & K5); [upds; lia|].
    exists s5. split; [done|]. upds_in H5. rewrite upd_upd in H5. by replace (rc dst + 1 - 1) with (rc dst) in H5 by lia. }
  rewrite (bind_Ret _ _ _ _ _ E5).
  destruct (brelse_cst p x s0 _ _ _ _ _ _ b1 src H5 (K5 _ _ (K4 _ _ (K3 _ _ B1')))) as (s6 & E6 & H6 & K6);
    [by upds|upds; lia|by upds|].
  rewrite (bind_Ret _ _ _ _ _ E6).
  destruct (brelse_cst p x s0 _ _ _ _ _ _ b2 dst H6 (K6 _ _ (K5 _ _ (K4 _ _ (K3 _ _ B2))))) as (s7 & E7 & H7 & _);
    [by upds|upds; destruct recovering; lia|by upds|].
  exists s7. split; [done|]. upds_in H7.
  match type of H7 with cst _ _ _ _ ?a ?b _ _ _ =>
    replace a with (if recovering then rc else upd rc dst (rc dst - 1)) in H7 by (destruct recovering; upd_eq_tac);
    replace b with lk in H7 by upd_eq_tac end.
  done.
Qed.
End copy.

(** ** The header block *)

(** [block[i]], [block[i+1]], ... stored from [bs]. *)
Fixpoint put_blocks (d : list Z) (i : Z) (bs : list Z) : list Z :=
  match bs with [] => d | b :: bs' => put_blocks (put32 d (4 + 4 * i) b) (i + 1) bs' end.

(** The header block [write_head] writes over [d] for the blocks [bs]. *)
Definition header (d bs : list Z) : list Z := put_blocks (put32 d 0 (Z.of_nat (length bs))) 0 bs.

Lemma put_blocks_length d i bs : length (put_blocks d i bs) = length d.
Proof.
  revert d i; induction bs as [|b bs IH]; intros d i; [done|]. simpl. rewrite IH. apply lput_length.
Qed.

Lemma header_length d bs : length (header d bs) = length d.
Proof. unfold header. rewrite put_blocks_length. apply lput_length. Qed.

Lemma get32_put32_ne d off v off' : 0 <= off -> off + 4 <= Z.of_nat (length d) -> 0 <= off' ->
  off' + 4 <= off \/ off + 4 <= off' -> get32 (put32 d off v) off' = get32 d off'.
Proof.
  intros. unfold get32, put32. f_equal. apply lsub_lput_ne; rewrite ?le_bytes_length; lia.
Qed.

Lemma put_blocks_before d i bs off :
  0 <= off -> off + 4 <= 4 + 4 * i -> 4 + 4 * (i + Z.of_nat (length bs)) <= Z.of_nat (length d) ->
  get32 (put_blocks d i bs) off = get32 d off.
Proof.
  revert d i; induction bs as [|b bs IH]; intros d i H0 H1 H2; [done|]. simpl in *.
  rewrite IH, get32_put32_ne; unfold put32; rewrite ?lput_length; lia.
Qed.

Lemma put_blocks_get d i bs j b :
  0 <= i -> 4 + 4 * (i + Z.of_nat (length bs)) <= Z.of_nat (length d) -> bs !! j = Some b ->
  get32 (put_blocks d i bs) (4 + 4 * (i + Z.of_nat j)) = u32 b.
Proof.
  revert d i j; induction bs as [|b' bs IH]; intros d i j H0 H1 Hj; [done|]. simpl in *.
  destruct j as [|j]; simplify_eq/=.
  - rewrite put_blocks_before by (unfold put32; rewrite ?lput_length; lia).
    rewrite Z.add_0_r. apply get32_put32; lia.
  - replace (i + Z.of_nat (S j)) with (i + 1 + Z.of_nat j) by lia.
    apply IH; [lia|unfold put32; rewrite lput_length; lia|done].
Qed.

(** What recovery reads in a header block. *)
Definition hdr_n (d : list Z) : Z := i32 (get32 d 0).
Definition hdr_blocks (d : list Z) : list Z := map (head_block d) (seqZ 0 (hdr_n d)).

Definition block_ok (b : Z) : Prop := 0 <= b < 2 ^ 31.

Lemma hdr_n_header d bs : (length bs <= 30)%nat -> length d = 1024%nat ->
  hdr_n (header d bs) = Z.of_nat (length bs).
Proof.
  intros Hb Hd. unfold hdr_n, header.
  rewrite put_blocks_before by (unfold put32; rewrite ?lput_length; lia).
  rewrite get32_put32 by lia. rewrite u32_small, i32_small by lia. done.
Qed.

Lemma hdr_blocks_header d bs : (length bs <= 30)%nat -> length d = 1024%nat -> Forall block_ok bs ->
  hdr_blocks (header d bs) = bs.
Proof.
  intros Hb Hd Hok. unfold hdr_blocks. rewrite hdr_n_header by done. apply list_eq. intros i.
  rewrite list_lookup_fmap. destruct (decide (i < length bs)%nat) as [Hi|Hi].
  - destruct (lookup_lt_is_Some_2 _ _ Hi) as [b Eb]. rewrite lookup_seqZ_lt, Eb by lia. cbn. f_equal.
    unfold head_block, header. rewrite Z.add_0_l. replace (4 * Z.of_nat i) with (4 * (0 + Z.of_nat i)) by lia.
    rewrite (put_blocks_get _ _ _ _ b); [|lia|unfold put32; rewrite lput_length; lia|done].
    pose proof (Forall_lookup_1 _ _ _ _ Hok Eb) as Hbo. unfold block_ok in Hbo.
    rewrite u32_small, i32_small by lia. done.
  - rewrite lookup_seqZ_ge, lookup_ge_None_2 by lia. done.
Qed.

(** The blocks of the transaction in memory. *)
Definition txn (l : logst) : list Z := take (Z.to_nat (lh_n l)) (lh_block l).

Section head.
Context (p : nat) (x : proc) (s0 : kstate).
Implicit Types (v D : Z -> list Z) (rc : Z -> Z) (lk : Z -> option Z).

Lemma put_blocks_cst rc lk D W n b lhb bs : rc n <> 0 ->
  forall i v d s, 0 <= i -> cst p x s0 (upd v n d) rc lk D W s -> buf_of s b n ->
  (forall j c, bs !! j = Some c -> nth (Z.to_nat i + j) lhb 0 = c) ->
  exists s', for_range (length bs) i (fun i =>
      (d <- bdata b; set_bdata b (put32 d (4 + 4 * i) (nth (Z.to_nat i) lhb 0)))%K) s = Ret tt s' /\
    cst p x s0 (upd v n (put_blocks d i bs)) rc lk D W s' /\ (forall b' m, buf_of s b' m -> buf_of s' b' m).
Proof.
  intros Hr. induction bs as [|c bs IH]; intros i v d s Hi H Hb Hn; [by exists s|].
  cbn [for_range length put_blocks].
  destruct (set_bdata_cst p x s0 _ _ _ _ _ _ b n (put32 d (4 + 4 * i) c) H Hb Hr) as (s1 & E1 & H1 & K1).
  rewrite upd_upd in H1.
  destruct (IH (i + 1) v (put32 d (4 + 4 * i) c) s1) as (s2 & E2 & H2 & K2); [lia|done|by apply K1| |].
  { intros j c' Hj. rewrite <- (Hn (S j) c' Hj). f_equal. lia. }
  exists s2. split; [|by auto]. unfold bind at 1.
  assert ((d0 <- bdata b; set_bdata b (put32 d0 (4 + 4 * i) (nth (Z.to_nat i) lhb 0)))%K s = Ret tt s1) as ->; [|done].
  rewrite (bind_Ret _ _ _ _ _ (bdata_cst p x s0 _ _ _ _ _ _ b n H Hb)), upd_eq.
  specialize (Hn 0%nat c eq_refl). rewrite Nat.add_0_r in Hn. by rewrite Hn.
Qed.

Lemma write_head_cst v rc lk D W s :
  cst p x s0 v rc lk D W s -> let l := log s0 in let n := l_start l in
  l_dev l = ROOTDEV -> 0 <= lh_n l <= Z.of_nat (length (lh_block l)) ->
  lk n = None -> rc n = 0 -> room rc ->
  let hd := header (v n) (txn l) in
  exists s', write_head s = Ret tt s' /\
    cst p x s0 (upd v n hd) rc lk (upd D n hd) ((n, hd) :: W) s'.
Proof.
  intros H l n Hdev Hn Lk Rc Hroom hd. unfold write_head.
  erewrite bind_Ret by reflexivity. rewrite (cst_log_eq p x s0 _ _ _ _ _ _ H). fold l. rewrite Hdev. fold n.
  assert (length (txn l) = Z.to_nat (lh_n l)) as Hlen by (unfold txn; rewrite length_take; lia).
  destruct (bread_cst p x s0 _ _ _ _ _ _ n H Lk ltac:(lia) ltac:(auto)) as (b & s1 & E1 & B1 & H1 & _).
  rewrite (bind_Ret _ _ _ _ _ E1). rewrite (bind_Ret _ _ _ _ _ (bdata_cst p x s0 _ _ _ _ _ _ b n H1 B1)).
  destruct (set_bdata_cst p x s0 _ _ _ _ _ _ b n (put32 (v n) 0 (lh_n l)) H1 B1) as (s2 & E2 & H2 & K2); [upds; lia|].
  rewrite (bind_Ret _ _ _ _ _ E2).
  destruct (put_blocks_cst (upd rc n (rc n + 1)) (upd lk n (Some (p_pid x))) D W n b (lh_block l) (txn l))
    with (i := 0) (v := v) (d := put32 (v n) 0 (lh_n l)) (s := s2) as (s3 & E3 & H3 & K3);
    [upds; lia|lia|done|by apply K2| |].
  { intros j c Hj. unfold txn in Hj. apply lookup_take_Some in Hj as [Hj _]. cbn. by apply nth_lookup_Some. }
  rewrite Hlen in E3. rewrite (bind_Ret _ _ _ _ _ E3).
  replace (put_blocks _ _ _) with hd in H3 by (unfold hd, header; do 2 f_equal; lia).
  destruct (bwrite_cst p x s0 _ _ _ _ _ _ b n H3 (K3 _ _ (K2 _ _ B1))) as (s4 & E4 & H4 & K4); [by upds|].
  rewrite (bind_Ret _ _ _ _ _ E4). upds_in H4.
  destruct (brelse_cst p x s0 _ _ _ _ _ _ b n H4 (K4 _ _ (K3 _ _ (K2 _ _ B1)))) as (s5 & E5 & H5 & _);
    [by upds|upds; lia|by upds|].
  exists s5. split; [done|]. upds_in H5. rewrite !upd_upd in H5.
  by replace (upd rc n (rc n + 1 - 1)) with rc in H5 by upd_eq_tac;
     replace (upd lk n None) with lk in H5 by upd_eq_tac.
Qed.

Lemma cst_set_log v rc lk D W s l : cst p x s0 v rc lk D W s ->
  cst p x (set_log l s0) v rc lk D W (set_log l s).
Proof.
  intros [Ht [es Hc] HD HW He Hwk]. split; try done.
  - exists es. by apply (crep_ext es v rc lk s).
  - exact (f_equal (set_log l) He).
Qed.

(** [lh_block] after the loop of [read_head]. *)
Lemma read_blocks d k i s : 0 <= i -> exists lb,
  for_range k i (fun i => upd_log (fun l => set_lh_block (<[Z.to_nat i := head_block d i]> (lh_block l)) l)) s =
    Ret tt (set_log (set_lh_block lb (log s)) s) /\ length lb = length (lh_block (log s)) /\
  forall j, lb !! j = if decide (Z.to_nat i <= j < Z.to_nat i + k /\ j < length lb)%nat
                      then Some (head_block d (Z.of_nat j)) else lh_block (log s) !! j.
Proof.
  revert i s; induction k as [|k IH]; intros i s Hi.
  { exists (lh_block (log s)). split; [cbn; f_equal; by destruct s as [? ? ? ? ? ? ? ? ? ? ? ? ? []]|].
    split; [done|]. intros j. rewrite decide_False by lia. done. }
  cbn [for_range]. erewrite bind_Ret by reflexivity.
  destruct (IH (i + 1) (set_log (set_lh_block (<[Z.to_nat i := head_block d i]> (lh_block (log s))) (log s)) s))
    as (lb & E & Hlen & Hlb); [lia|].
  exists lb. split; [exact E|]. cbn in Hlen, Hlb. rewrite length_insert in Hlen. split; [done|].
  intros j. rewrite Hlb. replace (Z.to_nat (i + 1)) with (S (Z.to_nat i)) by lia.
  destruct (decide (j = Z.to_nat i)) as [->|Hj].
  - rewrite decide_False by lia. case_decide as Hd.
    + rewrite list_lookup_insert_eq by lia. f_equal. f_equal. lia.
    + rewrite !lookup_ge_None_2; [done|lia|rewrite length_insert; lia].
  - rewrite list_lookup_insert_ne by done. repeat case_decide; (done || lia).
Qed.

Lemma read_head_cst v rc lk D W s :
  cst p x s0 v rc lk D W s -> let l := log s0 in let n := l_start l in
  l_dev l = ROOTDEV -> 0 <= hdr_n (v n) <= Z.of_nat (length (lh_block l)) ->
  lk n = None -> rc n = 0 -> room rc ->
  exists s' lb, let l' := set_lh_block lb (set_lh_n (hdr_n (v n)) l) in
    read_head s = Ret tt s' /\ txn l' = hdr_blocks (v n) /\ length lb = length (lh_block l) /\
    cst p x (set_log l' s0) v rc lk D W s'.
Proof.
  intros H l n Hdev Hn Lk Rc Hroom. unfold read_head.
  erewrite bind_Ret by reflexivity. rewrite (cst_log_eq p x s0 _ _ _ _ _ _ H). fold l. rewrite Hdev. fold n.
  destruct (bread_cst p x s0 _ _ _ _ _ _ n H Lk ltac:(lia) ltac:(auto)) as (b & s1 & E1 & B1 & H1 & _).
  rewrite (bind_Ret _ _ _ _ _ E1). rewrite (bind_Ret _ _ _ _ _ (bdata_cst p x s0 _ _ _ _ _ _ b n H1 B1)).
  pose proof (cst_log_eq p x s0 _ _ _ _ _ _ H1) as El. fold l in El.
  erewrite bind_Ret by reflexivity. rewrite El. fold (hdr_n (v n)).
  erewrite bind_Ret by reflexivity. cbn [lh_n log set_log set_lh_n].
  destruct (read_blocks (v n) (Z.to_nat (hdr_n (v n))) 0 (set_log (set_lh_n (hdr_n (v n)) l) s1))
    as (lb & E2 & Hlen & Hlb); [lia|].
  cbn [log set_log] in *. rewrite (bind_Ret _ _ _ _ _ E2).
  set (l' := set_lh_block lb (set_lh_n (hdr_n (v n)) l)) in *.
  pose proof (cst_set_log _ _ _ _ _ _ l' H1) as H2.
  destruct (brelse_cst p x (set_log l' s0) _ _ _ _ _ _ b n H2 B1) as (s3 & E3 & H3 & _); [by upds|upds; lia| |].
  { intros _. exact (cst_clean p x s0 _ _ _ _ _ _ n H Rc). }
  exists s3, lb. cbn zeta. fold l'. split; [exact E3|]. split; [|split; [done|]].
  - unfold txn, hdr_blocks. apply list_eq. intros j. cbn [l' lh_n lh_block set_lh_block set_lh_n].
    destruct (decide (j < Z.to_nat (hdr_n (v n)))%nat) as [Hj|Hj].
    + rewrite lookup_take_lt, Hlb, decide_True by (cbn in *; lia). rewrite list_lookup_fmap, lookup_seqZ_lt by lia.
      done.
    + rewrite lookup_take_ge, list_lookup_fmap, lookup_seqZ_ge by lia. done.
  - upds_in H3. rewrite !upd_upd in H3.
    by replace (upd rc n (rc n + 1 - 1)) with rc in H3 by upd_eq_tac;
       replace (upd lk n None) with lk in H3 by upd_eq_tac.
Qed.
End head.

(** ** The writes of a commit *)

Definition apply_writes (D : Z -> list Z) (ws : list (Z * list Z)) : Z -> list Z :=
  fold_left (fun D w => upd D w.1 w.2) ws D.
Arguments apply_writes : simpl never.

Lemma apply_writes_cons D n d ws : apply_writes D ((n, d) :: ws) = apply_writes (upd D n d) ws.
Proof. done. Qed.

(** The copies of the transaction's blocks to the log, and from the log to their
    places. *)
Fixpoint log_writes (v : Z -> list Z) (start i : Z) (bs : list Z) : list (Z * list Z) :=
  match bs with [] => [] | b :: bs' => (start + i + 1, v b) :: log_writes v start (i + 1) bs' end.
Fixpoint inst_writes (v : Z -> list Z) (start i : Z) (bs : list Z) : list (Z * list Z) :=
  match bs with [] => [] | b :: bs' => (b, v (start + i + 1)) :: inst_writes v start (i + 1) bs' end.

(** The log's part of the disk has [nlog] blocks, the header first. *)
Section logsize.
Context (nlog : Z) (Hpos : 0 < nlog).

Definition in_log (start m : Z) : Prop := start <= m < start + nlog.

Lemma in_log_start start : in_log start start.
Proof using Hpos. unfold in_log. lia. Qed.

(** A transaction the log can hold. *)
Record txn_ok (start : Z) (bs : list Z) : Prop := {
  to_len : Z.of_nat (length bs) <= LOGSIZE;
  to_fit : Z.of_nat (length bs) < nlog;
  to_nodup : NoDup bs;
  to_range : Forall block_ok bs;
  to_out : forall b, b ∈ bs -> ~ in_log start b;
}.

Lemma log_writes_ext v v' start i bs :
  (forall b, b ∈ bs -> v' b = v b) -> log_writes v' start i bs = log_writes v start i bs.
Proof.
  revert i; induction bs as [|b bs IH]; intros i Hv; [done|]. cbn. rewrite Hv by left.
  f_equal. apply IH. intros. apply Hv. by right.
Qed.

Lemma inst_writes_ext v v' start i bs :
  (forall j, (j < length bs)%nat -> v' (start + i + 1 + Z.of_nat j) = v (start + i + 1 + Z.of_nat j)) ->
  inst_writes v' start i bs = inst_writes v start i bs.
Proof.
  revert i; induction bs as [|b bs IH]; intros i Hv; [done|]. cbn [inst_writes]. f_equal.
  - f_equal. specialize (Hv 0%nat). rewrite Z.add_0_r in Hv. apply Hv. cbn. lia.
  - apply IH. intros j Hj. specialize (Hv (S j)).
    replace (start + (i + 1) + 1 + Z.of_nat j) with (start + i + 1 + Z.of_nat (S j)) by lia. apply Hv. cbn. lia.
Qed.

Section loops.
Context (p : nat) (x : proc) (s0 : kstate).
Implicit Types (v D : Z -> list Z) (rc : Z -> Z).
Let none : Z -> option Z := fun _ => None.
Let l := log s0.
Let start := l_start l.
Context (Hdev : l_dev l = ROOTDEV).

(** The transaction's blocks from index [i] on. *)
Definition from_index (bs : list Z) (i : Z) : Prop :=
  0 <= i /\ i + Z.of_nat (length bs) < nlog /\
  forall j b, bs !! j = Some b -> nth (Z.to_nat i + j) (lh_block l) 0 = b.

Lemma from_index_cons b bs i : from_index (b :: bs) i ->
  nth (Z.to_nat i) (lh_block l) 0 = b /\ from_index bs (i + 1) /\ 0 <= i < nlog - 1.
Proof.
  intros (Hi & Hl & Hn). cbn in Hl. split; [|split; [|lia]].
  - specialize (Hn 0%nat b eq_refl). by rewrite Nat.add_0_r in Hn.
  - split; [lia|]. split; [lia|]. intros j c Hj. rewrite <- (Hn (S j) c Hj). f_equal. lia.
Qed.

Lemma write_log_cst rc bs : (forall m, in_log start m -> rc m = 0) -> room rc ->
  (forall b, b ∈ bs -> 0 < rc b < 2 ^ 32 - 1 /\ ~ in_log start b) ->
  forall i v D W s, from_index bs i -> cst p x s0 v rc none D W s ->
  let ws := log_writes v start i bs in
  exists s', for_range (length bs) i log_block s = Ret tt s' /\
    cst p x s0 (apply_writes v ws) rc none (apply_writes D ws) (rev ws ++ W) s'.
Proof.
  intros Hlog Hroom. induction bs as [|b bs IH]; intros Hbs i v D W s Hi H ws; [by exists s|].
  destruct (from_index_cons b bs i Hi) as (Eb & Hi' & Hr). destruct (Hbs b ltac:(left)) as [Hb Hout].
  destruct (log_block_cst p x s0 _ _ _ _ _ _ i H Hdev) as (s1 & E1 & H1); fold l start; rewrite ?Eb; try done.
  { intros E. apply Hout. rewrite E. unfold in_log. lia. }
  { apply Hlog. unfold in_log. lia. }
  cbn [for_range length]. rewrite (bind_Ret _ _ _ _ _ E1).
  fold l start in H1. rewrite Eb in H1.
  destruct (IH ltac:(set_solver) (i + 1) _ _ _ s1 Hi' H1) as (s2 & E2 & H2). exists s2. split; [done|].
  rewrite (log_writes_ext v) in H2.
  - unfold ws. cbn [log_writes rev]. rewrite <- app_assoc. exact H2.
  - intros b' Hb'. apply upd_ne. intros ->. destruct (Hbs (start + i + 1) ltac:(by right)) as [_ Ho].
    apply Ho. unfold in_log. lia.
Qed.

(** The references after the blocks have been unpinned. *)
Definition unpinned (rc : Z -> Z) (bs : list Z) : Z -> Z := fold_left (fun rc b => upd rc b (rc b - 1)) bs rc.

Lemma room_drop rc b : rc b <> 0 -> room rc -> room (upd rc b (rc b - 1)).
Proof.
  intros Hb (L & HL & Hin). exists L. split; [done|]. intros m Hm. apply Hin.
  destruct (decide (m = b)) as [->|]; [done|]. by upds_in Hm.
Qed.

Lemma install_trans_cst (recovering : bool) bs : NoDup bs -> (forall b, b ∈ bs -> ~ in_log start b) ->
  forall rc i v D W s, from_index bs i -> cst p x s0 v rc none D W s ->
  (forall m, in_log start m -> rc m = 0) -> room rc ->
  (if recovering then forall m, rc m = 0 else forall b, b ∈ bs -> 0 < rc b < 2 ^ 32 - 1) ->
  let ws := inst_writes v start i bs in
  exists s', for_range (length bs) i (install_block recovering) s = Ret tt s' /\
    cst p x s0 (apply_writes v ws) (if recovering then rc else unpinned rc bs) none
      (apply_writes D ws) (rev ws ++ W) s'.
Proof.
  intros Hnd Hout. induction bs as [|b bs IH]; intros rc i v D W s Hi H Hlog Hroom Hrc ws.
  { exists s. split; [done|]. by destruct recovering. }
  destruct (from_index_cons b bs i Hi) as (Eb & Hi' & Hr). apply NoDup_cons in Hnd as [Hnb Hnd].
  assert (in_log start (start + i + 1)) as Hsrc by (unfold in_log; lia).
  assert (~ in_log start b) as Hb by (apply Hout; left).
  assert (0 <= rc b < 2 ^ 32 - 1) as Hrb.
  { destruct recovering; [rewrite Hrc; lia|]. specialize (Hrc b ltac:(left)). lia. }
  destruct (install_block_cst p x s0 _ _ _ _ _ _ i recovering H Hdev) as (s1 & E1 & H1);
    fold l start; rewrite ?Eb; try done; [by intros <-|by apply Hlog| |].
  { destruct recovering; [|specialize (Hrc b ltac:(left)); lia]. exists [start + i + 1]. split; [unfold NB, NBUF, MAXOPBLOCKS; cbn; lia|].
    intros m Hm. destruct (decide (m = start + i + 1)) as [->|]; [left|]. upds_in Hm. by rewrite Hrc in Hm. }
  cbn [for_range length]. rewrite (bind_Ret _ _ _ _ _ E1). fold l start in H1. rewrite Eb in H1.
  destruct (IH Hnd ltac:(set_solver) _ (i + 1) _ _ _ s1 Hi' H1) as (s2 & E2 & H2).
  { intros m Hm. destruct recovering; [by apply Hlog|]. rewrite upd_ne; [by apply Hlog|]. by intros ->. }
  { destruct recovering; [done|]. apply room_drop; [|done]. specialize (Hrc b ltac:(left)). lia. }
  { destruct recovering; [done|]. intros c Hc. rewrite upd_ne by (by intros ->). apply Hrc. by right. }
  exists s2. split; [done|]. rewrite (inst_writes_ext v) in H2.
  - unfold ws. cbn [inst_writes rev unpinned fold_left]. rewrite <- app_assoc. destruct recovering; exact H2.
  - intros j Hj. apply upd_ne. intros E. apply Hb. rewrite <- E. destruct Hi' as (_ & Hl & _). unfold in_log. lia.
Qed.
End loops.

Lemma apply_writes_app D ws ws' : apply_writes D (ws ++ ws') = apply_writes (apply_writes D ws) ws'.
Proof. apply fold_left_app. Qed.

(** Blocks that are not written keep their contents. *)
Lemma apply_writes_out D ws m : m ∉ ws.*1 -> apply_writes D ws m = D m.
Proof.
  revert D; induction ws as [|[n d] ws IH]; intros D Hm; [done|]. cbn in *.
  rewrite apply_writes_cons, IH by set_solver. apply upd_ne. set_solver.
Qed.

Lemma log_writes_blocks v start i bs m :
  m ∈ (log_writes v start i bs).*1 -> start + i < m <= start + i + Z.of_nat (length bs).
Proof.
  revert i; induction bs as [|b bs IH]; intros i; cbn; [by intros ?%not_elem_of_nil|].
  intros [->|H]%elem_of_cons; [lia|]. apply IH in H. lia.
Qed.

Lemma log_writes_get D v start i bs j b : bs !! j = Some b ->
  apply_writes D (log_writes v start i bs) (start + i + 1 + Z.of_nat j) = v b.
Proof.
  revert D i j; induction bs as [|c bs IH]; intros D i j Hj; [done|].
  cbn [log_writes]. rewrite apply_writes_cons. destruct j as [|j]; simplify_eq/=.
  - rewrite apply_writes_out; [rewrite Z.add_0_r; apply upd_eq|]. intros H%log_writes_blocks. lia.
  - replace (start + i + 1 + Z.of_nat (S j)) with (start + (i + 1) + 1 + Z.of_nat j) by lia. by apply IH.
Qed.

Lemma inst_writes_blocks v start i bs : (inst_writes v start i bs).*1 = bs.
Proof. revert i; induction bs as [|b bs IH]; intros i; [done|]. cbn. by rewrite IH. Qed.

(** The writes to the blocks' own places. *)
Definition home_writes (v : Z -> list Z) (bs : list Z) : list (Z * list Z) := map (fun b => (b, v b)) bs.

Lemma inst_writes_home v v' start i bs :
  (forall j b, bs !! j = Some b -> v' (start + i + 1 + Z.of_nat j) = v b) ->
  inst_writes v' start i bs = home_writes v bs.
Proof.
  revert i; induction bs as [|b bs IH]; intros i Hv; [done|]. cbn. f_equal.
  - f_equal. specialize (Hv 0%nat b eq_refl). by rewrite Z.add_0_r in Hv.
  - apply IH. intros j c Hj. rewrite <- (Hv (S j) c Hj). f_equal. lia.
Qed.

(** All the writes of [commit], in order: the log, its header, the blocks' own
    places, and the empty header. *)
Definition commit_writes (v : Z -> list Z) (start : Z) (bs : list Z) : list (Z * list Z) :=
  log_writes v start 0 bs ++ (start, header (v start) bs) :: home_writes v bs ++
  [(start, header (header (v start) bs) [])].

Lemma apply_home D v bs m :
  apply_writes D (home_writes v bs) m = if decide (m ∈ bs) then v m else D m.
Proof.
  revert D; induction bs as [|b bs IH]; intros D; [done|]. cbn [home_writes map]. fold (home_writes v bs).
  rewrite apply_writes_cons, IH. destruct (decide (m = b)) as [->|Hm].
  - rewrite (decide_True (P := b ∈ b :: bs)) by left. case_decide; [done|]. apply upd_eq.
  - rewrite upd_ne by done. repeat case_decide; set_solver.
Qed.

Lemma apply_commit_writes D v start bs : apply_writes D (commit_writes v start bs) =
  upd (apply_writes (upd (apply_writes D (log_writes v start 0 bs)) start (header (v start) bs))
    (home_writes v bs)) start (header (header (v start) bs) []).
Proof. unfold commit_writes. by rewrite apply_writes_app, apply_writes_cons, apply_writes_app. Qed.

Lemma rev_commit_writes v start bs W : rev (commit_writes v start bs) ++ W =
  (start, header (header (v start) bs) []) :: rev (home_writes v bs) ++
  (start, header (v start) bs) :: rev (log_writes v start 0 bs) ++ W.
Proof.
  unfold commit_writes. rewrite rev_app_distr. cbn [rev]. rewrite rev_app_distr. cbn.
  rewrite <- !app_assoc. done.
Qed.

Lemma txn_from_index s : let l := log s in
  0 <= lh_n l <= Z.of_nat (length (lh_block l)) -> Z.of_nat (length (txn l)) < nlog ->
  from_index s (txn l) 0 /\ length (txn l) = Z.to_nat (lh_n l).
Proof.
  intros l Hn Hlen. split; [|unfold txn; rewrite length_take; lia]. split; [lia|]. split; [lia|].
  intros j b Hj. unfold txn in Hj. apply lookup_take_Some in Hj as [Hj _]. cbn. by apply nth_lookup_Some.
Qed.

Lemma write_log_run p x s0 v rc D W s : let none := fun _ : Z => @None Z in let l := log s0 in
  let start := l_start l in let bs := txn l in
  cst p x s0 v rc none D W s -> l_dev l = ROOTDEV ->
  0 <= lh_n l <= Z.of_nat (length (lh_block l)) ->
  txn_ok start bs -> (forall b, b ∈ bs -> 0 < rc b < 2 ^ 32 - 1) ->
  (forall m, in_log start m -> rc m = 0) -> room rc ->
  let ws := log_writes v start 0 bs in
  exists s', write_log s = Ret tt s' /\
    cst p x s0 (apply_writes v ws) rc none (apply_writes D ws) (rev ws ++ W) s'.
Proof.
  intros none l start bs H Hdev Hn [_ T1 _ _ T4] Hrc Hlog Hroom ws. unfold write_log.
  erewrite bind_Ret by reflexivity. rewrite (cst_log_eq p x s0 _ _ _ _ _ _ H). fold l.
  destruct (txn_from_index s0 Hn T1) as [Hfi Hlen]. fold l in Hlen. rewrite <- Hlen.
  apply (write_log_cst p x s0); auto.
Qed.

Lemma install_trans_run (recovering : bool) p x s0 v rc D W s : let none := fun _ : Z => @None Z in
  let l := log s0 in let start := l_start l in let bs := txn l in
  cst p x s0 v rc none D W s -> l_dev l = ROOTDEV ->
  0 <= lh_n l <= Z.of_nat (length (lh_block l)) -> txn_ok start bs ->
  (forall m, in_log start m -> rc m = 0) -> room rc ->
  (if recovering then forall m, rc m = 0 else forall b, b ∈ bs -> 0 < rc b < 2 ^ 32 - 1) ->
  let ws := inst_writes v start 0 bs in
  exists s', install_trans recovering s = Ret tt s' /\
    cst p x s0 (apply_writes v ws) (if recovering then rc else unpinned rc bs) none
      (apply_writes D ws) (rev ws ++ W) s'.
Proof.
  intros none l start bs H Hdev Hn [_ T1 T2 _ T4] Hlog Hroom Hrc ws. unfold install_trans.
  erewrite bind_Ret by reflexivity. rewrite (cst_log_eq p x s0 _ _ _ _ _ _ H). fold l.
  destruct (txn_from_index s0 Hn T1) as [Hfi Hlen]. fold l in Hlen. rewrite <- Hlen.
  by apply (install_trans_cst p x s0).
Qed.

Lemma unpinned_eq rc bs m : NoDup bs -> unpinned rc bs m = if decide (m ∈ bs) then rc m - 1 else rc m.
Proof using Type.
  clear Hpos nlog.
  revert rc; induction bs as [|b bs IH]; intros rc; [done|]. intros [Hb Hnd]%NoDup_cons.
  unfold unpinned. cbn. fold (unpinned (upd rc b (rc b - 1)) bs). rewrite IH by done.
  destruct (decide (m = b)) as [->|Hm].
  - rewrite decide_False, decide_True by set_solver. apply upd_eq.
  - rewrite upd_ne by done. repeat case_decide; set_solver.
Qed.

Lemma room_unpinned rc bs : NoDup bs -> (forall b, b ∈ bs -> rc b <> 0) -> room rc -> room (unpinned rc bs).
Proof.
  intros Hnd Hb (L & HL & Hin). exists L. split; [done|]. intros m. rewrite unpinned_eq by done.
  case_decide; intros Hm; apply Hin; auto.
Qed.

Lemma commit_cst p x v rc D W s : let none := fun _ : Z => @None Z in let l := log s in
  let start := l_start l in let bs := txn l in
  cst p x s v rc none D W s -> l_dev l = ROOTDEV -> 0 < lh_n l <= Z.of_nat (length (lh_block l)) ->
  txn_ok start bs -> (forall b, b ∈ bs -> 0 < rc b < 2 ^ 32 - 1) ->
  (forall m, in_log start m -> rc m = 0) -> room rc ->
  let ws := commit_writes v start bs in
  exists s', commit s = Ret tt s' /\
    cst p x (set_log (set_lh_n 0 l) s) (apply_writes v ws) (unpinned rc bs) none
      (apply_writes D ws) (rev ws ++ W) s'.
Proof.
  intros none l start bs H Hdev Hn HT Hrc Hlog Hroom ws. pose proof HT as [T1 TF T2 T3 T4]. unfold commit.
  pose proof (in_log_start start) as Hst.
  erewrite bind_Ret by reflexivity. fold l. rewrite (proj2 (Z.ltb_lt 0 (lh_n l))) by lia.
  destruct (write_log_run p x s v rc D W s) as (s1 & E1 & H1); fold l start bs; try done; [lia|].
  rewrite (bind_Ret _ _ _ _ _ E1). fold l start bs in H1.
  destruct (write_head_cst p x s _ _ _ _ _ s1 H1) as (s2 & E2 & H2); fold l start; try done; [lia|by apply Hlog|].
  rewrite (bind_Ret _ _ _ _ _ E2). fold l start bs in H2.
  assert (forall D, apply_writes D (log_writes v start 0 bs) start = D start) as Elw.
  { intros D'. apply apply_writes_out. intros Hw%log_writes_blocks. lia. }
  rewrite Elw in H2. set (hd := header (v start) bs) in *.
  destruct (install_trans_run false p x s _ rc _ _ s2 H2) as (s3 & E3 & H3); fold l start bs; try done; [lia|].
  rewrite (bind_Ret _ _ _ _ _ E3). fold l start bs in H3.
  rewrite (inst_writes_home v) in H3.
  2:{ intros j b Hj. rewrite upd_ne by lia. by apply log_writes_get. }
  pose proof (cst_log_eq p x s _ _ _ _ _ _ H3) as El3. fold l in El3.
  erewrite bind_Ret by reflexivity. rewrite El3. fold l.
  pose proof (cst_set_log p x s _ _ _ _ _ _ (set_lh_n 0 l) H3) as H4.
  assert (start ∉ bs) as Hnb by (intros Hb; by apply (T4 start)).
  destruct (write_head_cst p x _ _ _ _ _ _ _ H4) as (s5 & E5 & H5); cbn [log set_log l_start l_dev lh_n lh_block set_lh_n];
    fold l start; try done; [lia| | |].
  { rewrite unpinned_eq, decide_False by done. by apply Hlog. }
  { apply room_unpinned; [done| |done]. intros b Hb. specialize (Hrc b Hb). lia. }
  exists s5. split; [exact E5|]. cbn [log set_log l_start set_lh_n] in H5. fold l start in H5.
  unfold txn in H5. cbn [lh_n set_lh_n] in H5. rewrite take_0 in H5.
  rewrite apply_home, decide_False, upd_eq in H5 by done.
  unfold ws. rewrite rev_commit_writes, !apply_commit_writes. exact H5.
Qed.

(** ** Recovery *)

Definition recovery_writes (D : Z -> list Z) (start : Z) : list (Z * list Z) :=
  inst_writes D start 0 (hdr_blocks (D start)) ++ [(start, header (D start) [])].

(** The header on the disk is empty or describes a transaction. *)
Definition header_ok (D : Z -> list Z) (start : Z) : Prop :=
  0 <= hdr_n (D start) <= LOGSIZE /\ txn_ok start (hdr_blocks (D start)).

Lemma recover_cst p x D W s : let none := fun _ : Z => @None Z in let l := log s in let start := l_start l in
  cst p x s D (fun _ => 0) none D W s -> l_dev l = ROOTDEV -> Z.of_nat (length (lh_block l)) = LOGSIZE ->
  header_ok D start ->
  let ws := recovery_writes D start in
  exists s' lb, recover_from_log s = Ret tt s' /\ length lb = length (lh_block l) /\
    cst p x (set_log (set_lh_n 0 (set_lh_block lb l)) s) (apply_writes D ws) (fun _ => 0) none
      (apply_writes D ws) (rev ws ++ W) s'.
Proof.
  intros none l start H Hdev Hlb [Hn HT] ws. unfold recover_from_log.
  assert (room (fun _ => 0)) as Hroom by (exists []; split; [unfold NB, NBUF, MAXOPBLOCKS; cbn; lia|done]).
  destruct (read_head_cst p x s _ _ _ _ _ _ H) as (s1 & lb & E1 & Etx & Hlen & H1); fold l start; try done; [lia|].
  rewrite (bind_Ret _ _ _ _ _ E1). fold l start in Etx, Hlen, H1.
  set (l1 := set_lh_block lb (set_lh_n (hdr_n (D start)) l)) in *.
  destruct (install_trans_run true p x (set_log l1 s) _ _ _ _ s1 H1) as (s2 & E2 & H2); cbn [log set_log];
    rewrite ?Etx; try done; [cbn [l1 lh_n lh_block set_lh_block set_lh_n]; lia|].
  rewrite (bind_Ret _ _ _ _ _ E2). cbn [log set_log] in H2. rewrite Etx in H2. change (l_start l1) with start in H2.
  pose proof (cst_log_eq p x _ _ _ _ _ _ _ H2) as El2. cbn [log set_log] in El2.
  erewrite bind_Ret by reflexivity. rewrite El2.
  pose proof (cst_set_log p x _ _ _ _ _ _ _ (set_lh_n 0 l1) H2) as H3.
  destruct (write_head_cst p x _ _ _ _ _ _ _ H3) as (s4 & E4 & H4); cbn [log set_log]; try done;
    [cbn [set_lh_n lh_n lh_block]; lia|].
  exists s4, lb. split; [exact E4|]. split; [done|]. cbn [log set_log] in H4.
  change (l_start (set_lh_n 0 l1)) with start in H4. unfold txn in H4. cbn [lh_n set_lh_n] in H4. rewrite take_0 in H4.
  assert (apply_writes D (inst_writes D start 0 (hdr_blocks (D start))) start = D start) as Es.
  { apply apply_writes_out. rewrite inst_writes_blocks. intros Hs. apply (to_out _ _ HT _ Hs), in_log_start. }
  rewrite Es in H4. unfold ws, recovery_writes. rewrite !apply_writes_app, rev_app_distr. exact H4.
Qed.

(** ** A crash *)

(** What the transaction makes of the blocks. *)
Definition committed (D v : Z -> list Z) (bs : list Z) (m : Z) : list Z :=
  if decide (m ∈ bs) then v m else D m.

(** Outside the log, the disks agree. *)
Definition same_data (start : Z) (D D' : Z -> list Z) : Prop := forall m, ~ in_log start m -> D m = D' m.

(** Recovery from a disk whose header is empty, and from one whose log holds a
    transaction, changes the data blocks as it should. *)
Lemma recover_empty D start : hdr_n (D start) = 0 ->
  header_ok D start /\ same_data start (apply_writes D (recovery_writes D start)) D.
Proof.
  intros H0. assert (hdr_blocks (D start) = []) as Eb by (unfold hdr_blocks; by rewrite H0).
  split.
  - split; [rewrite H0; unfold LOGSIZE, MAXOPBLOCKS; lia|]. rewrite Eb.
    split; [unfold LOGSIZE, MAXOPBLOCKS; cbn; lia|cbn; lia|constructor|constructor|].
    intros b Hb%not_elem_of_nil. done.
  - intros m Hm. unfold recovery_writes. rewrite Eb. cbn. rewrite apply_writes_cons. apply upd_ne.
    intros ->. apply Hm, in_log_start.
Qed.

Lemma recover_logged D D0 v start bs d : txn_ok start bs -> length d = 1024%nat -> D start = header d bs ->
  (forall j b, bs !! j = Some b -> D (start + 0 + 1 + Z.of_nat j) = v b) ->
  (forall m, ~ in_log start m -> m ∉ bs -> D m = D0 m) ->
  header_ok D start /\ same_data start (apply_writes D (recovery_writes D start)) (committed D0 v bs).
Proof.
  intros HT Hd Hs Hl Ho. pose proof HT as [T1 TF T2 T3 T4].
  assert (length bs <= 30)%nat as Hlen by (unfold LOGSIZE, MAXOPBLOCKS in T1; lia).
  assert (hdr_blocks (D start) = bs) as Eb by (rewrite Hs; by apply hdr_blocks_header).
  split.
  - split; [rewrite Hs, hdr_n_header by done; lia|]. by rewrite Eb.
  - intros m Hm. unfold recovery_writes. rewrite Eb, (inst_writes_home v) by done. rewrite apply_writes_app, apply_writes_cons.
    assert (m <> start) as Hne by (intros ->; apply Hm, in_log_start).
    change (upd (apply_writes D (home_writes v bs)) start (header (D start) []) m = committed D0 v bs m).
    rewrite upd_ne, apply_home by done. unfold committed. case_decide; [done|]. by apply Ho.
Qed.

Lemma log_writes_length v start i bs : length (log_writes v start i bs) = length bs.
Proof. revert i; induction bs as [|b bs IH]; intros i; [done|]. cbn. by rewrite IH. Qed.

(** The disk once the log is written: its data blocks are as before, except those
    already copied back. *)
Lemma logged_disk D v start bs k : txn_ok start bs -> length (v start) = 1024%nat ->
  let D' := apply_writes (upd (apply_writes D (log_writes v start 0 bs)) start (header (v start) bs))
              (home_writes v (take k bs)) in
  D' start = header (v start) bs /\
  (forall j b, bs !! j = Some b -> D' (start + 0 + 1 + Z.of_nat j) = v b) /\
  (forall m, ~ in_log start m -> D' m = if decide (m ∈ take k bs) then v m else D m).
Proof.
  intros [T1 TF T2 T3 T4] Hv D'.
  assert (forall m, in_log start m -> m ∉ take k bs) as Hout.
  { intros m Hm Hin. apply (T4 m); [|done]. by apply elem_of_take in Hin as (i & ? & ?); eapply list_elem_of_lookup_2. }
  split; [|split].
  - unfold D'. rewrite apply_home, decide_False by (apply Hout, in_log_start). apply upd_eq.
  - intros j b Hj. pose proof (lookup_lt_Some _ _ _ Hj). unfold D'.
    rewrite apply_home, decide_False by (apply Hout; unfold in_log; lia).
    rewrite upd_ne by lia. by apply log_writes_get.
  - intros m Hm. unfold D'. rewrite apply_home. case_decide; [done|].
    rewrite upd_ne by (intros ->; apply Hm, in_log_start). apply apply_writes_out.
    intros Hw%log_writes_blocks. apply Hm. unfold in_log. lia.
Qed.

(** After all the writes of a commit. *)
Lemma commit_data D v start bs : txn_ok start bs -> length (v start) = 1024%nat ->
  let D' := apply_writes D (commit_writes v start bs) in
  same_data start D' (committed D v bs) /\ length (D' start) = 1024%nat /\ hdr_n (D' start) = 0.
Proof.
  intros HT Hlen D'. unfold D'. rewrite apply_commit_writes, upd_eq. split; [|split].
  - intros m Hm. rewrite upd_ne by (intros ->; apply Hm, in_log_start).
    destruct (logged_disk D v start bs (length bs) HT Hlen) as (_ & _ & E3). rewrite firstn_all in E3. by apply E3.
  - by rewrite !header_length.
  - apply (hdr_n_header _ []); [cbn; lia|]. by rewrite header_length.
Qed.

(** After any number of the writes of a commit, recovery restores the old data or
    installs the whole transaction. *)
Lemma crash_recover D v start bs k : txn_ok start bs -> length (v start) = 1024%nat -> hdr_n (D start) = 0 ->
  let D' := apply_writes D (take k (commit_writes v start bs)) in
  header_ok D' start /\
  same_data start (apply_writes D' (recovery_writes D' start))
    (if decide (k <= length bs)%nat then D else committed D v bs).
Proof.
  intros HT Hd H0 D'. assert (exists j, (k <= length bs)%nat \/ k = (length bs + S j)%nat) as [j Hk].
  { exists (k - length bs - 1)%nat. lia. }
  unfold D', commit_writes. destruct Hk as [Hk| ->].
  - rewrite decide_True by done. rewrite take_app_le by (by rewrite log_writes_length).
    set (D1 := apply_writes D _).
    assert (forall m, ~ (start < m < start + nlog) -> D1 m = D m) as HD1.
    { intros m Hm. apply apply_writes_out. intros Hw. apply Hm. destruct HT as [_ T1 _ _ _].
      assert (m ∈ (log_writes v start 0 bs).*1) as Hw'%log_writes_blocks; [|lia].
      rewrite fmap_take in Hw. by apply elem_of_take in Hw as (i & ? & ?); eapply list_elem_of_lookup_2. }
    destruct (recover_empty D1 start) as [Hok Hs]; [rewrite HD1 by lia; done|]. split; [done|].
    intros m Hm. rewrite (Hs m Hm). apply HD1. unfold in_log in Hm. lia.
  - rewrite decide_False by lia.
    replace (length bs + S j)%nat with (length (log_writes v start 0 bs) + S j)%nat by (by rewrite log_writes_length).
    rewrite take_app_add, firstn_cons, apply_writes_app, apply_writes_cons.
    destruct (decide (j <= length bs)%nat) as [Hj|Hj].
    + rewrite take_app_le by (unfold home_writes; by rewrite length_map).
      replace (take j (home_writes v bs)) with (home_writes v (take j bs)) by (symmetry; apply firstn_map).
      destruct (logged_disk D v start bs j HT Hd) as (E1 & E2 & E3).
      eapply recover_logged; [done|exact Hd|done|done|]. intros m Hm Hb. rewrite E3 by done.
      rewrite decide_False; [done|]. intros Hin. apply Hb. by apply elem_of_take in Hin as (i & ? & ?); eapply list_elem_of_lookup_2.
    + rewrite take_ge by (rewrite length_app; unfold home_writes; rewrite length_map; cbn; lia).
      rewrite apply_writes_app, apply_writes_cons.
      destruct (logged_disk D v start bs (length bs) HT Hd) as (E1 & E2 & E3). rewrite firstn_all in *.
      set (D1 := apply_writes _ (home_writes v bs)) in *. change (apply_writes ?f []) with f.
      destruct (recover_empty (upd D1 start (header (header (v start) bs) [])) start) as [Hok Hs].
      { rewrite upd_eq. apply (hdr_n_header _ []); [cbn; lia|]. by rewrite header_length. }
      split; [done|]. intros m Hm. rewrite (Hs m Hm), upd_ne by (intros ->; apply Hm, in_log_start). by apply E3.
Qed.

End logsize.

(** C1: a commit is atomic.  With the transaction's blocks pinned in the cache
    and at least one buffer to spare, [commit] returns, with the transaction on
    the disk, the log empty and the blocks unpinned.  If the machine stops after
    any number of the commit's disk writes, recovery at the next boot returns
    too, with the log empty and the data blocks either all as they were before
    the commit or all as the transaction has them, and the latter as soon as the
    header has been written. *)
Theorem commit_crash_atomic p x es v rc s : let none := fun _ : Z => @None Z in let l := log s in
  let start := l_start l in let nlog := l_size l in let bs := txn l in let D := disk_block s in
  thread p x s -> crep es v rc none s ->
  l_dev l = ROOTDEV -> 0 < lh_n l <= Z.of_nat (length (lh_block l)) -> txn_ok nlog start bs ->
  (forall b, b ∈ bs -> 0 < rc b < 2 ^ 32 - 1) -> (forall m, in_log nlog start m -> rc m = 0) -> room rc ->
  length (D start) = 1024%nat -> hdr_n (D start) = 0 ->
  exists s' es' v' ws, commit s = Ret tt s' /\ crep es' v' (unpinned rc bs) none s' /\ lh_n (log s') = 0 /\
    disk_writes s' = rev ws ++ disk_writes s /\ disk_block s' = apply_writes D ws /\
    same_data nlog start (disk_block s') (committed D v bs) /\
    forall k p0 x0 es0 s0, thread p0 x0 s0 -> disk_block s0 = apply_writes D (take k ws) ->
      crep es0 (disk_block s0) (fun _ => 0) none s0 -> l_dev (log s0) = ROOTDEV -> l_start (log s0) = start ->
      Z.of_nat (length (lh_block (log s0))) = LOGSIZE ->
      exists s1, recover_from_log s0 = Ret tt s1 /\ lh_n (log s1) = 0 /\
        same_data nlog start (disk_block s1) (if decide (k <= length bs)%nat then D else committed D v bs).
Proof.
  intros none l start nlog bs D Ht Hc Hdev Hn HT Hrc Hlog Hroom Hlen H0.
  assert (0 < nlog) as Hpos by (pose proof (to_fit _ _ _ HT); lia).
  pose proof (cst_start p x es v rc none s Ht Hc) as H.
  assert (v start = D start) as Hv by (eapply crep_clean; [done|by apply Hlog, in_log_start]).
  destruct (commit_cst nlog Hpos p x v rc _ _ s H Hdev Hn HT Hrc Hlog Hroom) as (s' & E & H').
  fold l start bs in H'. set (ws := commit_writes v start bs) in *.
  destruct (cs_crep _ _ _ _ _ _ _ _ _ H') as [es' Hc']. exists s', es', (apply_writes v ws), ws.
  split; [done|]. split; [done|]. split; [by rewrite (cst_log_eq p x _ _ _ _ _ _ _ H')|].
  split; [apply H'|]. split; [apply H'|]. rewrite <- Hv in Hlen. split.
  - rewrite (cs_disk _ _ _ _ _ _ _ _ _ H'). by apply commit_data.
  - intros k p0 x0 es0 s0 Ht0 HD0 Hc0 Hdev0 Hst0 Hlb0.
    destruct (crash_recover nlog Hpos D v start bs k HT Hlen H0) as [Hok Hs]. fold ws in Hok, Hs. rewrite <- HD0 in Hok, Hs.
    pose proof (cst_start p0 x0 es0 _ _ none s0 Ht0 Hc0) as Hcs. rewrite <- Hst0 in Hok.
    destruct (recover_cst nlog Hpos p0 x0 _ _ s0 Hcs Hdev0 Hlb0 Hok) as (s1 & lb & E1 & _ & H1). exists s1.
    split; [done|]. split; [by rewrite (cst_log_eq p0 x0 _ _ _ _ _ _ _ H1)|].
    rewrite (cs_disk _ _ _ _ _ _ _ _ _ H1), Hst0. exact Hs.
Qed.

(** A transaction of one block, number 100, in an otherwise empty cache. *)
Definition demo_log : logst := MkLog 2 30 0 true 1 1 (100 :: repeat 0 29).

Lemma demo_txn : exists v rc s, cst 0 demo_proc (set_log demo_log demo_cache) v rc (fun _ => None)
  (disk_block demo_disk) [] s /\ (forall m, rc m = if decide (m = 100) then 1 else 0) /\ v 100 = repeat 7 1024.
Proof.
  set (none := fun _ : Z => @None Z). set (zero := fun _ : Z => 0).
  destruct demo_cache_ok as [Ht Hc].
  assert (cst 0 demo_proc (set_log demo_log demo_cache) (disk_block demo_disk) zero none
            (disk_block demo_disk) [] (set_log demo_log demo_cache)) as H.
  { apply cst_set_log. destruct (binit_crep demo_disk) as (bs & E & _); [done|done|].
    split; [done|by eexists|unfold demo_cache; by rewrite E|unfold demo_cache; by rewrite E|done|apply woken_refl]. }
  assert (room zero) as Hr by (exists []; split; [unfold NB, NBUF, MAXOPBLOCKS; cbn; lia|done]).
  destruct (bread_cst 0 demo_proc _ _ _ _ _ _ _ 100 H) as (b & s1 & _ & B1 & H1 & _); [done|unfold zero; lia|by right|].
  destruct (set_bdata_cst 0 demo_proc _ _ _ _ _ _ _ b 100 (repeat 7 1024) H1 B1) as (s2 & _ & H2 & K2);
    [upds; unfold zero; lia|].
  destruct (bpin_cst 0 demo_proc _ _ _ _ _ _ _ b 100 H2 (K2 _ _ B1)) as (s3 & _ & H3 & K3); [upds; unfold zero; lia|].
  destruct (brelse_cst 0 demo_proc _ _ _ _ _ _ _ b 100 H3 (K3 _ _ (K2 _ _ B1))) as (s4 & _ & H4 & _);
    [by upds|upds; unfold zero; lia|upds; unfold zero; lia|].
  upds_in H4. rewrite !upd_upd in H4. exists (upd (disk_block demo_disk) 100 (repeat 7 1024)), (upd zero 100 1), s4.
  split; [|split; [intros m; unfold upd, zero; by case_decide|apply upd_eq]].
  replace (upd none 100 None) with none in H4 by upd_eq_tac. exact H4.
Qed.

Lemma commit_crash_atomic_witness : exists s s', txn (log s) = [100] /\ commit s = Ret tt s' /\
  disk_block s 100 = repeat 0 1024 /\ disk_block s' 100 = repeat 7 1024.
Proof.
  destruct demo_txn as (v & rc & s & H & Hrc & Hv). pose proof (cst_log_eq _ _ _ _ _ _ _ _ _ H) as El.
  cbn [log set_log] in El. pose proof (cs_disk _ _ _ _ _ _ _ _ _ H) as HD.
  destruct (cs_crep _ _ _ _ _ _ _ _ _ H) as [es Hc].
  destruct (commit_crash_atomic 0 demo_proc es v rc s (cs_thread _ _ _ _ _ _ _ _ _ H) Hc)
    as (s' & es' & v' & ws & E & _ & _ & _ & _ & Hs & _); rewrite ?El, ?HD.
  - reflexivity.
  - cbn. lia.
  - split; [by vm_compute|by vm_compute|apply NoDup_singleton| |].
    + apply Forall_singleton. unfold block_ok. lia.
    + intros b ->%list_elem_of_singleton. unfold in_log. cbn. lia.
  - intros b ->%list_elem_of_singleton. rewrite Hrc, decide_True by done. lia.
  - intros m Hm. rewrite Hrc, decide_False; [done|]. intros ->. unfold in_log in Hm. cbn in Hm. lia.
  - exists [100]. split; [unfold NB, NBUF, MAXOPBLOCKS; cbn; lia|]. intros m. rewrite Hrc. case_decide; [subst; left|done].
  - reflexivity.
  - reflexivity.
  - exists s, s'. split; [by rewrite El|]. split; [exact E|]. split; [by rewrite HD|].
    rewrite Hs by (rewrite El; unfold in_log; cbn; lia).
    unfold committed. rewrite El, decide_True by left. exact Hv.
Defined.
