(* ===== verification/LogOps.v ===== *)
(** * The log: reserving space, recording blocks, ending an operation *)

From Stdlib Require Import FunctionalExtensionality.
From S2P Require Import Prelude Mem Riscv Locks Kalloc Kstate Proc ProcSpec Sleeplock SleeplockSpec Bio BioSpec CacheOps Blk Log LogSpec.
Import Proc Sleeplock Bio Log.

(** ** log_write *)

(** The header in memory holds a transaction. *)
Definition log_wf (l : logst) : Prop :=
  0 <= lh_n l <= LOGSIZE /\ Z.of_nat (length (lh_block l)) = LOGSIZE /\ Forall block_ok (txn l).

Lemma txn_length l : log_wf l -> Z.of_nat (length (txn l)) = lh_n l.
Proof. intros (? & ? & _). unfold txn. rewrite length_take. lia. Qed.

Lemma find_block_spec bs n i : Forall block_ok bs -> block_ok n ->
  (n ∈ bs -> exists j, find_block bs n i = (i + j)%nat /\ bs !! j = Some n) /\
  (n ∉ bs -> find_block bs n i = (i + length bs)%nat).
Proof.
  intros Hok Hn. revert i; induction Hok as [|b bs Hb Hok IH]; intros i; cbn.
  { split; [by intros ?%not_elem_of_nil|lia]. }
  unfold block_ok in *. rewrite u32_small by lia. destruct (b =? n) eqn:E; bdestr.
  - subst. split; [|set_solver]. intros _. exists 0%nat. split; [lia|done].
  - destruct (IH (S i)) as [IH1 IH2]. split.
    + intros [->|H]%elem_of_cons; [done|]. destruct (IH1 H) as (j & -> & Hj). exists (S j). split; [lia|done].
    + intros [_ H]%not_elem_of_cons. rewrite (IH2 H). lia.
Qed.

(** The log after block [n] has been recorded. *)
Definition recorded (n : Z) (l l' : logst) : Prop :=
  txn l' = (if decide (n ∈ txn l) then txn l else txn l ++ [n]) /\
  lh_n l' = (if decide (n ∈ txn l) then lh_n l else lh_n l + 1) /\ log_wf l' /\
  l' = set_lh_block (lh_block l') (set_lh_n (lh_n l') l).

Lemma record_old l n i : log_wf l -> block_ok n -> txn l !! i = Some n ->
  set_lh_block (<[i := i32 n]> (lh_block l)) l = l.
Proof.
  intros _ Hn Hi. unfold txn in Hi. apply lookup_take_Some in Hi as [Hi _]. unfold block_ok in Hn.
  rewrite i32_small, list_insert_id by (lia || done). by destruct l.
Qed.

Lemma record_new l n : log_wf l -> block_ok n -> n ∉ txn l -> lh_n l < LOGSIZE ->
  recorded n l (set_lh_n (lh_n l + 1) (set_lh_block (<[length (txn l) := i32 n]> (lh_block l)) l)).
Proof.
  intros Hwf Hn Hni Hlt. pose proof (txn_length l Hwf) as Hlen. destruct Hwf as (Hr & Hb & Hok).
  set (l' := set_lh_n _ _). assert (txn l' = txn l ++ [n]) as Et.
  { unfold l', txn. cbn [lh_n lh_block set_lh_n set_lh_block]. unfold txn in Hlen |- *.
    replace (Z.to_nat (lh_n l + 1)) with (S (Z.to_nat (lh_n l))) by lia.
    replace (length (take (Z.to_nat (lh_n l)) (lh_block l))) with (Z.to_nat (lh_n l)) by lia.
    erewrite take_S_r by (apply list_lookup_insert_eq; lia). rewrite take_insert_ge by lia.
    unfold block_ok in Hn. by rewrite i32_small by lia. }
  split; [by rewrite decide_False|]. split; [by rewrite decide_False|]. split; [|by destruct l].
  split; [cbn; lia|]. split; [cbn; by rewrite length_insert|]. rewrite Et. apply Forall_app. split; [done|].
  by apply Forall_singleton.
Qed.

(** The run of [log_write] up to its decision. *)
Lemma log_write_run p x s b n : let l := log s in let s1 := set_held [log_lock] s in
  thread p x s -> (b < length (bufs s))%nat -> b_blockno (bufget (bufs s) b) = n ->
  log_write b s =
    if (LOGSIZE <=? lh_n l) || (l_size l - 1 <=? lh_n l) then Panic "too big a transaction"
    else if l_outstanding l <? 1 then Panic "log_write outside of trans"
    else let i := find_block (txn l) n 0 in
      bindr ((if Z.of_nat i =? lh_n l then bpin b;; upd_log (set_lh_n (lh_n l + 1)) else ret tt)%K
               (set_log (set_lh_block (<[i := i32 n]> (lh_block l)) l) s1)) (fun _ => release log_lock).
Proof.
  intros l s1 Ht Hlt En. unfold log_write. erewrite bind_Ret by by apply buf_at_eq. rewrite En.
  erewrite bind_Ret by (apply acquire_eq, (thread_unlocked _ _ _ _ Ht)).
  destruct Ht as (_ & _ & _ & Hh). rewrite Hh. fold s1. erewrite bind_Ret by reflexivity.
  change (log s1) with l. destruct (_ || _); [done|]. destruct (_ <? 1); [done|]. fold (txn l).
  cbn zeta. by erewrite bind_Ret by reflexivity.
Qed.

Section log_write.
Context (p : nat) (x : proc) (es : list nat) (v : Z -> list Z) (rc : Z -> Z) (lk : Z -> option Z) (s : kstate) (b : nat) (n : Z).
Context (Ht : thread p x s) (Hc : crep es v rc lk s) (Hb : buf_of s b n).

Lemma log_write_full : LOGSIZE <= lh_n (log s) \/ l_size (log s) - 1 <= lh_n (log s) ->
  log_write b s = Panic "too big a transaction".
Proof using Ht Hc Hb.
  intros H. destruct (buf_of_view _ _ _ _ _ _ _ Hc Hb) as (En & _).
  rewrite (log_write_run p x s b n) by (done || by eapply buf_of_lt).
  assert ((LOGSIZE <=? lh_n (log s)) || (l_size (log s) - 1 <=? lh_n (log s)) = true) as ->; [|done].
  apply orb_true_iff. rewrite !Z.leb_le. tauto.
Qed.

Context (Hn : block_ok n) (Hwf : log_wf (log s)) (Hrc : rc n < 2 ^ 32 - 1).

Lemma log_write_records : let l := log s in
  lh_n l < LOGSIZE -> lh_n l < l_size l - 1 -> 1 <= l_outstanding l ->
  exists bs l', recorded n l l' /\ log_write b s = Ret tt (set_log l' (set_bufs bs s)) /\
    crep es v (if decide (n ∈ txn l) then rc else upd rc n (rc n + 1)) lk (set_log l' (set_bufs bs s)) /\
    forall b' m, buf_of s b' m -> buf_of (set_log l' (set_bufs bs s)) b' m.
Proof using Ht Hc Hb Hn Hwf Hrc.
  intros l H1 H2 H3. destruct (buf_of_view _ _ _ _ _ _ _ Hc Hb) as (En & _ & Er & _).
  pose proof (buf_of_lt _ _ _ _ _ _ _ Hc Hb) as Hlt.
  assert (0 <= rc n) as Hr0.
  { rewrite <- Er. apply (co_buf _ _ _ (cr_ok _ _ _ _ _ Hc)). by eapply buf_of_elem. }
  set (s1 := set_held [log_lock] s).
  assert (forall bs l', set_held [] (set_log l' (set_bufs bs s1)) = set_log l' (set_bufs bs s)) as Hback.
  { intros. unfold s1. destruct Ht as (_ & _ & _ & Hh). destruct s as [[]]. cbn in *. by subst. }
  rewrite (log_write_run p x s b n) by done. fold l s1.
  rewrite (proj2 (Z.leb_gt _ _) H1), (proj2 (Z.leb_gt (l_size l - 1) _) H2). cbn [orb].
  rewrite (proj2 (Z.ltb_ge _ _) H3). cbn zeta.
  destruct (find_block_spec (txn l) n 0 (proj2 (proj2 Hwf)) Hn) as [Hin Hout]. case_decide as Hd.
  - destruct (Hin Hd) as (j & -> & Hj). pose proof (lookup_lt_Some _ _ _ Hj) as Hjl.
    pose proof (txn_length l Hwf) as Hlen. rewrite (proj2 (Z.eqb_neq _ _)) by lia. cbn [bindr ret].
    rewrite record_old by done. exists (bufs s), l. split; [|split].
    + unfold recorded. rewrite !decide_True by done. split; [done|]. split; [done|]. split; [done|]. by destruct l.
    + rewrite (release_head _ []) by done. f_equal. etrans; [|apply Hback]. by destruct s as [[]].
    + split; [by apply (crep_ext es v rc lk s)|done].
  - rewrite (Hout Hd), Nat.add_0_l, (proj2 (Z.eqb_eq _ _)) by by apply txn_length.
    destruct (bpin_crep p x es v rc lk s b n 1 (fun y => set_b_refcnt (u32 (b_refcnt y + 1)) y)) as [Hc' Hk];
      [done..|lia|lia|].
    eexists _, _. split; [by apply record_new|]. split.
    + unfold bpin. erewrite bind_Ret by (apply locked_upd_eq; [by intros ?%list_elem_of_singleton|done]).
      cbn [bindr upd_log modify]. rewrite (release_head _ []) by done. f_equal.
      exact (Hback _ (set_lh_n (lh_n l + 1) (set_lh_block (<[length (txn l) := i32 n]> (lh_block l)) l))).
    + split; [|exact Hk]. by apply (crep_ext es v _ lk (set_bufs (alter (fun y => set_b_refcnt (u32 (b_refcnt y + 1)) y) b (bufs s)) s)).
Qed.
End log_write.

(** [log_write] records the block of a buffer in the transaction.  A block
    that is already in it is absorbed: nothing changes.  A new block is appended
    and its buffer gets a reference, so that the cache keeps it until the
    commit.  A transaction that fills the log, or no transaction at all, makes
    it panic. *)
Theorem log_write_correct p x es v rc lk s b n : let l := log s in
  thread p x s -> crep es v rc lk s -> buf_of s b n -> block_ok n -> log_wf l -> rc n < 2 ^ 32 - 1 ->
  (LOGSIZE <= lh_n l \/ l_size l - 1 <= lh_n l -> log_write b s = Panic "too big a transaction") /\
  (lh_n l < LOGSIZE -> lh_n l < l_size l - 1 -> l_outstanding l < 1 ->
     log_write b s = Panic "log_write outside of trans") /\
  (lh_n l < LOGSIZE -> lh_n l < l_size l - 1 -> 1 <= l_outstanding l ->
     exists bs l', recorded n l l' /\ log_write b s = Ret tt (set_log l' (set_bufs bs s)) /\
       crep es v (if decide (n ∈ txn l) then rc else upd rc n (rc n + 1)) lk (set_log l' (set_bufs bs s))).
Proof.
  intros l Ht Hc Hb Hn Hwf Hrc. split; [|split].
  - by eapply log_write_full.
  - intros H1 H2 H3. destruct (buf_of_view _ _ _ _ _ _ _ Hc Hb) as (En & _).
    rewrite (log_write_run p x s b n) by (done || by eapply buf_of_lt). fold l.
    rewrite (proj2 (Z.leb_gt _ _) H1), (proj2 (Z.leb_gt (l_size l - 1) _) H2). cbn [orb].
    by rewrite (proj2 (Z.ltb_lt _ _) H3).
  - intros H1 H2 H3.
    destruct (log_write_records p x es v rc lk s b n Ht Hc Hb Hn Hwf Hrc H1 H2 H3) as (bs & l' & ? & ? & ? & _).
    by exists bs, l'.
Qed.

(** A block read into the cache inside an operation that has written nothing. *)
Lemma demo_open (l : logst) : exists es s b, thread 0 demo_proc s /\ buf_of s b 100 /\ log s = l /\
  crep es (disk_block demo_disk) (upd (fun _ => 0) 100 1) (upd (fun _ => None) 100 (Some 1)) s.
Proof.
  destruct demo_cache_ok as [Ht Hc].
  pose proof (cst_set_log _ _ _ _ _ _ _ _ _ l (cst_start 0 demo_proc _ _ _ _ _ Ht Hc)) as H.
  destruct (bread_cst 0 demo_proc _ _ _ _ _ _ _ 100 H) as (b & s1 & _ & B1 & H1 & _); [done|lia| |].
  { right. exists []. split; [unfold NB, NBUF, MAXOPBLOCKS; cbn; lia|done]. }
  destruct (cs_crep _ _ _ _ _ _ _ _ _ H1) as [es Hc1]. exists es, s1, b.
  split; [apply H1|]. split; [done|]. split; [exact (cst_log_eq _ _ _ _ _ _ _ _ _ H1)|exact Hc1].
Qed.

Lemma log_write_correct_witness : exists s b s', log s = MkLog 2 40 1 false 1 0 (repeat 0 30) /\
  log_write b s = Ret tt s' /\ txn (log s') = [100].
Proof.
  destruct (demo_open (MkLog 2 40 1 false 1 0 (repeat 0 30))) as (es & s & b & Ht & Hb & El & Hc).
  destruct (log_write_correct 0 demo_proc es _ _ _ s b 100 Ht Hc Hb) as (_ & _ & H).
  - split; lia.
  - rewrite El. split; [by vm_compute|]. split; [reflexivity|constructor].
  - upds. lia.
  - rewrite El in H. destruct (H ltac:(by vm_compute) ltac:(by vm_compute) ltac:(by vm_compute)) as (bs & l' & Hr & E & _).
    exists s, b, (set_log l' (set_bufs bs s)). split; [exact El|]. split; [exact E|]. exact (proj1 Hr).
Defined.

(** ** begin_op and end_op *)

Lemma begin_op_run p x s : let l := log s in thread p x s ->
  (l_committing l = false /\ lh_n l + (l_outstanding l + 1) * MAXOPBLOCKS <= LOGSIZE ->
     begin_op s = Ret tt (set_log (set_l_outstanding (l_outstanding l + 1) l) s)) /\
  (l_committing l = true \/ LOGSIZE < lh_n l + (l_outstanding l + 1) * MAXOPBLOCKS ->
     exists k, begin_op s = Switch (asleep_on log_chan p x s) k).
Proof.
  intros l Ht. pose proof Ht as (Hc & Hx & _ & Hh). unfold begin_op.
  erewrite !bind_Ret by (apply acquire_eq, (thread_unlocked _ _ _ _ Ht)). rewrite Hh.
  set (s1 := set_held [log_lock] s). split.
  - intros [H1 H2]. apply (loop_exit 1); [lia|]. rewrite iter_n_1. unfold begin_op_body.
    erewrite bind_Ret by reflexivity. change (log s1) with l. rewrite H1, (proj2 (Z.ltb_ge _ _) H2).
    erewrite bind_Ret by reflexivity. erewrite bind_Ret by by apply (release_head _ []).
    cbn. do 2 f_equal. unfold s1. destruct s as [[]]. cbn in *. by subst.
  - intros H. destruct (sleep_switch log_chan log_lock p x s1) as [k Hk]; [done|done|done|done|].
    destruct (loop_switch begin_op_body tt s1 (asleep_on log_chan p x s1)
                (fun t => bindr (k t) (fun _ => ret (inl tt)))) as [k' Hk'].
    { unfold begin_op_body. erewrite bind_Ret by reflexivity. change (log s1) with l.
      destruct (l_committing l); [unfold bind; by rewrite Hk|]. destruct H as [|H]; [done|].
      rewrite (proj2 (Z.ltb_lt _ _) H). unfold bind. by rewrite Hk. }
    exists k'. exact Hk'.
Qed.

Lemma end_op_waiting p x s : let l := log s in thread p x s -> l_committing l = false -> 1 < l_outstanding l ->
  end_op s = Ret tt (set_procs (imap (wake log_chan (Some p)) (procs s))
                       (set_log (set_l_outstanding (l_outstanding l - 1) l) s)).
Proof.
  intros l Ht H1 H2. pose proof Ht as (Hc & Hx & Hp & Hh). unfold end_op.
  erewrite bind_Ret by (apply acquire_eq, (thread_unlocked _ _ _ _ Ht)). rewrite Hh.
  erewrite bind_Ret by reflexivity. erewrite bind_Ret by reflexivity. cbn. fold l. rewrite H1.
  rewrite (proj2 (Z.eqb_neq _ _)) by lia. erewrite bind_Ret.
  2:{ erewrite bind_Ret by (apply wakeup_spec; [done|by intros i _ ?%list_elem_of_singleton]). done. }
  erewrite bind_Ret by by apply (release_head _ []). cbn.
  f_equal. destruct s as [[]]. cbn in *. by subst.
Qed.

(** [us] counts the blocks each operation under way has written. *)
Fixpoint reserved (us : list Z) : Z :=
  match us with [] => 0 | u :: us' => MAXOPBLOCKS - u + reserved us' end.

Record log_inv (us : list Z) (l : logst) : Prop := {
  li_wf : log_wf l;
  li_idle : l_committing l = false;
  li_ops : l_outstanding l = Z.of_nat (length us);
  li_used : Forall (fun u => 0 <= u <= MAXOPBLOCKS) us;
  li_room : lh_n l + reserved us <= LOGSIZE;
}.

Lemma reserved_app us1 us2 : reserved (us1 ++ us2) = reserved us1 + reserved us2.
Proof. induction us1 as [|u us1 IH]; cbn; [done|]. rewrite IH. lia. Qed.

Lemma reserved_bounds us : Forall (fun u => 0 <= u <= MAXOPBLOCKS) us ->
  0 <= reserved us <= Z.of_nat (length us) * MAXOPBLOCKS.
Proof. induction 1 as [|u us Hu H IH]; cbn; lia. Qed.

(** C24: the reservations of the log hold.  In a log where each operation under
    way has written at most [MAXOPBLOCKS] blocks: [begin_op] sleeps or lets one
    more operation in; a [log_write] by an operation that has not used up its
    blocks never finds the log too small, provided the log on the disk has more
    than [LOGSIZE] blocks; and the end of an operation that is not the last
    gives its blocks back.  With a log of [LOGSIZE] blocks, the header among
    them, the last block that was reserved is not there: [log_write] panics on
    it. *)
Theorem log_reservation p x us s : thread p x s -> log_inv us (log s) ->
  ((exists k, begin_op s = Switch (asleep_on log_chan p x s) k) \/
   exists s', begin_op s = Ret tt s' /\ log_inv (0 :: us) (log s')) /\
  (forall us1 u us2 es v rc lk b n, us = us1 ++ u :: us2 -> u < MAXOPBLOCKS ->
     crep es v rc lk s -> buf_of s b n -> block_ok n -> rc n < 2 ^ 32 - 1 ->
     (LOGSIZE < l_size (log s) ->
        exists s', log_write b s = Ret tt s' /\ log_inv (us1 ++ u + 1 :: us2) (log s')) /\
     (l_size (log s) = LOGSIZE -> lh_n (log s) = LOGSIZE - 1 ->
        log_write b s = Panic "too big a transaction")) /\
  (forall us1 u us2, us = us1 ++ u :: us2 -> us1 ++ us2 <> [] ->
     exists s', end_op s = Ret tt s' /\ log_inv (us1 ++ us2) (log s')).
Proof.
  intros Ht [Hwf Hid Hops Hus Hroom]. pose proof (reserved_bounds us Hus) as Hrb. split; [|split].
  - destruct (begin_op_run p x s Ht) as [Hret Hsw].
    destruct (decide (lh_n (log s) + (l_outstanding (log s) + 1) * MAXOPBLOCKS <= LOGSIZE)) as [Hle|Hgt].
    + right. eexists. split; [by apply Hret|]. rewrite Hops in Hle.
      split; [done|done|cbn; lia| |cbn in *; lia]. constructor; [unfold MAXOPBLOCKS; lia|done].
    + left. apply Hsw. right. lia.
  - intros us1 u us2 es v rc lk b n -> Hu Hc Hb Hn Hrc.
    pose proof (log_write_full p x es v rc lk s b n Ht Hc Hb) as Hbig.
    pose proof (log_write_records p x es v rc lk s b n Ht Hc Hb Hn Hwf Hrc) as Hok.
    rewrite reserved_app in Hroom. cbn [reserved] in Hroom.
    apply Forall_app in Hus as [Hus1 Hus2]. apply Forall_cons in Hus2 as [Hu0 Hus2].
    pose proof (reserved_bounds us1 Hus1). pose proof (reserved_bounds us2 Hus2). split.
    + intros Hsz. destruct Hok as (bs & l' & (Et & En & Hwf' & El) & E & _);
        [lia|lia|rewrite Hops, length_app; cbn; lia|].
      eexists. split; [exact E|]. cbn [log set_log]. split; [done| | | |].
      * rewrite El. done.
      * rewrite El. cbn. rewrite Hops, !length_app. done.
      * apply Forall_app. split; [done|]. constructor; [lia|done].
      * rewrite reserved_app. cbn [reserved]. rewrite En. case_decide; lia.
    + intros Hsz Hlast. apply Hbig. lia.
  - intros us1 u us2 -> Hne. eexists. split.
    { apply (end_op_waiting p x); [done|done|]. rewrite Hops, length_app. cbn.
      assert (length us1 + length us2 <> 0)%nat by (rewrite <- length_app; by destruct (us1 ++ us2)). lia. }
    apply Forall_app in Hus as [Hus1 Hus2]. apply Forall_cons in Hus2 as [Hu0 Hus2].
    rewrite reserved_app in Hroom. cbn [reserved] in Hroom.
    cbn [log set_log set_procs]. split; [done|done| |by apply Forall_app|].
    + cbn. rewrite Hops, !length_app. cbn. lia.
    + rewrite reserved_app. cbn. lia.
Qed.

(** Three operations have written 29 blocks to a log of 30. *)
Lemma log_reservation_witness : exists s b, log_inv [10; 10; 9] (log s) /\ l_size (log s) = 30 /\
  log_write b s = Panic "too big a transaction".
Proof.
  set (l := MkLog 2 30 3 false 1 29 (seqZ 200 30)).
  assert (log_inv [10; 10; 9] l) as Hl.
  { split; [|reflexivity|reflexivity|repeat (constructor; [split; by vm_compute|]); constructor|by vm_compute].
    split; [by vm_compute|]. split; [reflexivity|]. apply Forall_forall. intros b Hb.
    unfold txn in Hb. apply elem_of_take in Hb as (i & Hi & _). apply lookup_seqZ in Hi as [-> ?]. unfold block_ok. lia. }
  destruct (demo_open l) as (es & s & b & Ht & Hb & El & Hc). rewrite <- El in Hl. exists s, b.
  split; [exact Hl|]. split; [by rewrite El|].
  destruct (log_reservation 0 demo_proc [10; 10; 9] s Ht Hl) as (_ & H & _).
  refine (proj2 (H [10; 10] 9 [] es _ _ _ b 100 eq_refl _ Hc Hb _ _) _ _);
    [by vm_compute|split; lia|upds; lia| |]; rewrite El; reflexivity.
Defined.
