(* ===== verification/FsOps.v ===== *)
(** * Inside a file-system operation

    Between [begin_op] and [end_op] the code of fs.c reads blocks through the
    cache, changes them and hands them to [log_write].  Nothing reaches the disk
    before the commit: an operation is a change of the contents [v] of the
    blocks and of the log [l], whose blocks are the pinned ones. *)

From Stdlib Require Import FunctionalExtensionality.
From S2P Require Import Prelude Mem Riscv Locks Kalloc Kstate Proc ProcSpec Sleeplock SleeplockSpec Bio BioSpec CacheOps Blk Log LogSpec LogOps.
Import Proc Sleeplock Bio Log.

(** A sequence of three calls that returns, in front of the rest. *)
Lemma bind_Ret3 {S A B C E} (m1 : M S A) (m2 : M S B) (m3 : M S C) (k : M S E) s r s' :
  (m1;; m2;; m3)%K s = Ret r s' -> (m1;; m2;; m3;; k)%K s = k s'.
Proof.
  unfold bind. intros (a & s1 & -> & H)%bindr_Ret. cbn. apply bindr_Ret in H as (b & s2 & -> & H). cbn. by rewrite H.
Qed.

Lemma bind_Ret2 {S A B C} (m1 : M S A) (m2 : M S B) (k : M S C) s r s' :
  (m1;; m2)%K s = Ret r s' -> (m1;; m2;; k)%K s = k s'.
Proof. unfold bind. intros (a & s1 & -> & H)%bindr_Ret. cbn. by rewrite H. Qed.

(** The references the log keeps, and those of the buffers in use: [h] gives the
    buffer of each block in use. *)
Definition pins (l : logst) (n : Z) : Z := if decide (n ∈ txn l) then 1 else 0.
Definition refs (l : logst) (h : gmap Z nat) (n : Z) : Z := pins l n + match h !! n with Some _ => 1 | None => 0 end.
Definition locks (pid : Z) (h : gmap Z nat) (n : Z) : option Z :=
  match h !! n with Some _ => Some pid | None => None end.

(** There is place in the log for [k] more blocks. *)
Definition log_room (k : Z) (l : logst) : Prop :=
  log_wf l /\ lh_n l + k <= LOGSIZE /\ lh_n l + k <= l_size l - 1 /\ 1 <= l_outstanding l.

(** There is a buffer for a further block. *)
Definition buf_room (l : logst) (h : gmap Z nat) : Prop := log_wf l /\ lh_n l + Z.of_nat (size h) < LOGSIZE.

Section fs.
Context (p : nat) (x : proc) (s0 : kstate) (D : Z -> list Z) (W : list (Z * list Z)).

(** The state of an operation: the blocks' contents [v], the log [l] and the
    buffers [h] in use. *)
Definition fsx (h : gmap Z nat) (v : Z -> list Z) (l : logst) (s : kstate) : Prop :=
  cst p x (set_log l s0) v (refs l h) (locks (p_pid x) h) D W s /\ forall n b, h !! n = Some b -> buf_of s b n.

Lemma refs_range l h n : 0 <= refs l h n <= 2.
Proof. unfold refs, pins. case_decide; destruct (h !! n); lia. Qed.

Lemma log_of l v rc lk s : cst p x (set_log l s0) v rc lk D W s -> log s = l.
Proof. intros [_ _ _ _ He _]. apply (f_equal log) in He. done. Qed.

Lemma room_refs l h : buf_room l h -> room (refs l h).
Proof.
  intros [Hwf Hlt]. exists (txn l ++ (map_to_list h).*1). pose proof (txn_length l Hwf) as Hlen. split.
  - rewrite length_app, length_fmap, length_map_to_list. unfold NB. change LOGSIZE with 30 in Hlt. change (Z.to_nat NBUF) with 30%nat. lia.
  - intros n. unfold refs, pins. rewrite elem_of_app. case_decide; [by left|]. destruct (h !! n) as [b|] eqn:E; [|done].
    right. apply list_elem_of_fmap. exists (n, b). split; [done|]. by apply elem_of_map_to_list.
Qed.

Lemma refs_insert l h n b : h !! n = None -> upd (refs l h) n (refs l h n + 1) = refs l (<[n := b]> h).
Proof.
  intros E. apply functional_extensionality. intros m. unfold upd, refs. case_decide as Em; [subst|].
  - rewrite E, lookup_insert_eq. lia.
  - by rewrite lookup_insert_ne by congruence.
Qed.

Lemma locks_insert pid h n b : upd (locks pid h) n (Some pid) = locks pid (<[n := b]> h).
Proof.
  apply functional_extensionality. intros m. unfold upd, locks. case_decide as Em; [subst|].
  - by rewrite lookup_insert_eq.
  - by rewrite lookup_insert_ne by congruence.
Qed.

Lemma bread_fs h v l s n : fsx h v l s -> h !! n = None -> buf_room l h ->
  exists b s', bread ROOTDEV n s = Ret b s' /\ fsx (<[n := b]> h) v l s'.
Proof.
  intros [H Hh] Hn Hroom. pose proof (refs_range l h n) as Hr.
  destruct (bread_cst p x (set_log l s0) v (refs l h) (locks (p_pid x) h) D W s n H) as (b & s' & E & Hb & Hc & Hk);
    [unfold locks; by rewrite Hn|lia|right; by apply room_refs|]. exists b, s'. split; [done|].
  rewrite (refs_insert l h n b Hn), (locks_insert _ h n b) in Hc. split; [done|].
  intros m b' [[<- <-]|[Hm Hb']]%lookup_insert_Some; [done|]. apply Hk; [done| |by apply Hh].
  unfold refs, pins. rewrite Hb'. case_decide; lia.
Qed.

Lemma bdata_fs h v l n b s : fsx h v l s -> h !! n = Some b -> bdata b s = Ret (v n) s.
Proof. intros [Hc Hh] Hn. eapply bdata_cst; [done|by apply Hh]. Qed.

Lemma refs_held l h n b : h !! n = Some b -> 1 <= refs l h n.
Proof. intros E. unfold refs, pins. rewrite E. case_decide; lia. Qed.

Lemma set_bdata_fs h v l n b s d : fsx h v l s -> h !! n = Some b ->
  exists s', set_bdata b d s = Ret tt s' /\ fsx h (upd v n d) l s'.
Proof.
  intros [Hc Hh] Hn. pose proof (refs_held l h n b Hn).
  destruct (set_bdata_cst p x _ v _ _ D W s b n d Hc (Hh _ _ Hn)) as (s' & E & Hc' & Hk); [lia|].
  exists s'. split; [done|]. split; [done|]. intros m b' Hm. by apply Hk, Hh.
Qed.

Lemma erase_log l l' bs s : erase s = erase (set_log l s0) -> erase (set_log l' (set_bufs bs s)) = erase (set_log l' s0).
Proof.
  intros H. change (set_log l' (erase s) = set_log l' (erase (set_log l s0))). by rewrite H.
Qed.

Lemma refs_recorded l l' h n : recorded n l l' ->
  (if decide (n ∈ txn l) then refs l h else upd (refs l h) n (refs l h n + 1)) = refs l' h.
Proof.
  intros (Et & _). apply functional_extensionality. intros m.
  destruct (decide (n ∈ txn l)) as [Hin|Hin]; unfold upd, refs, pins; rewrite Et; [done|].
  destruct (decide (m = n)) as [->|Hm]; repeat case_decide; set_solver by lia.
Qed.

Lemma log_write_fs h v l n b s : fsx h v l s -> h !! n = Some b -> block_ok n -> log_room 1 l ->
  exists l' s', log_write b s = Ret tt s' /\ recorded n l l' /\ fsx h v l' s'.
Proof.
  intros [Hc Hh] Hb Hn (Hwf & H1 & H2 & H3). pose proof (log_of _ _ _ _ _ Hc) as El.
  pose proof Hc as [Ht [es Hes] HD HW He Hwk]. pose proof (refs_range l h n).
  destruct (log_write_records p x es v _ _ s b n Ht Hes (Hh _ _ Hb) Hn) as (bs & l' & Hrec & E & Hc' & Hk);
    rewrite ?El; [done|lia|lia|lia|lia|]. rewrite El in *.
  exists l', (set_log l' (set_bufs bs s)). split; [done|]. split; [done|].
  rewrite (refs_recorded l l' h n Hrec) in Hc'. split.
  - split; [done|by exists es|done|done|by apply (erase_log l)|done].
  - intros m b' Hm. by apply Hk, Hh.
Qed.

Lemma brelse_fs h v l n b s : fsx h v l s -> h !! n = Some b -> (n ∉ txn l -> v n = D n) ->
  exists s', brelse b s = Ret tt s' /\ fsx (delete n h) v l s'.
Proof.
  intros [Hc Hh] Hb Hcl. pose proof (refs_range l h n). pose proof (refs_held l h n b Hb).
  assert (locks (p_pid x) h n = Some (p_pid x)) as Hl by (unfold locks; by rewrite Hb).
  destruct (brelse_cst p x _ v _ _ D W s b n Hc (Hh _ _ Hb) Hl ltac:(lia)) as (s' & E & Hc' & Hk).
  { unfold refs, pins. rewrite Hb. case_decide; [lia|by intros _; apply Hcl]. }
  exists s'. split; [done|].
  assert (upd (refs l h) n (refs l h n - 1) = refs l (delete n h)) as Er.
  { apply functional_extensionality. intros m. unfold upd, refs. case_decide as Em; [subst|].
    - rewrite Hb, lookup_delete_eq. lia.
    - by rewrite lookup_delete_ne by congruence. }
  assert (upd (locks (p_pid x) h) n None = locks (p_pid x) (delete n h)) as Elk.
  { apply functional_extensionality. intros m. unfold upd, locks. case_decide as Em; [subst|].
    - by rewrite lookup_delete_eq.
    - by rewrite lookup_delete_ne by congruence. }
  rewrite Er, Elk in Hc'. split; [done|]. intros m b' [_ Hm]%lookup_delete_Some. by apply Hk, Hh.
Qed.

(** A block that neither the log nor an operation has is as on the disk. *)
Lemma clean_fs h v l s n : fsx h v l s -> h !! n = None -> n ∉ txn l -> v n = D n.
Proof. intros [Hc _] Hh Hn. eapply cst_clean; [done|]. unfold refs, pins. by rewrite Hh, decide_False. Qed.

(** [log_write(bp); brelse(bp)], after changing the data. *)
Lemma log_brelse_fs h v l n b s : fsx h v l s -> h !! n = Some b -> block_ok n -> log_room 1 l ->
  exists l' s', (log_write b;; brelse b)%K s = Ret tt s' /\ recorded n l l' /\ fsx (delete n h) v l' s'.
Proof.
  intros H Hb Hn Hl. destruct (log_write_fs h v l n b s H Hb Hn Hl) as (l' & s1 & E1 & Hrec & H1).
  destruct (brelse_fs h v l' n b s1 H1 Hb) as (s2 & E2 & H2).
  { destruct Hrec as (-> & _). case_decide; set_solver. }
  exists l', s2. split; [by erewrite bind_Ret by exact E1|done].
Qed.

(** A block that is only read. *)
Lemma read_fs h v l s n : fsx h v l s -> h !! n = None -> buf_room l h ->
  exists b s1 s', bread ROOTDEV n s = Ret b s1 /\ bdata b s1 = Ret (v n) s1 /\ fsx (<[n := b]> h) v l s1 /\
    brelse b s1 = Ret tt s' /\ fsx h v l s'.
Proof.
  intros H Hn Hroom. destruct (bread_fs h v l s n H Hn Hroom) as (b & s1 & E1 & H1).
  destruct (brelse_fs _ v l n b s1 H1 (lookup_insert_eq _ _ _)) as (s2 & E2 & H2).
  { intros Ht. by apply (clean_fs h v l s). }
  rewrite delete_insert_id in H2 by done. exists b, s1, s2. split; [done|].
  split; [eapply bdata_fs; [done|apply lookup_insert_eq]|done].
Qed.
End fs.

Lemma room_bufs k l h : log_room k l -> Z.of_nat (size h) < k -> buf_room l h.
Proof. intros (Hwf & ? & _) Hk. split; [done|]. lia. Qed.

Lemma log_room_less k k' l : log_room k l -> k' <= k -> log_room k' l.
Proof. intros (? & ? & ? & ?) ?. split; [done|]. lia. Qed.

Lemma recorded_room n k l l' : recorded n l l' -> log_room (k + 1) l -> log_room k l'.
Proof.
  intros (_ & En & Hwf & El) (_ & H1 & H2 & H3). assert (lh_n l' <= lh_n l + 1) by (rewrite En; case_decide; lia).
  split; [done|]. rewrite El. cbn. lia.
Qed.

Lemma recorded_in n l l' : recorded n l l' -> n ∈ txn l'.
Proof. intros (-> & _). case_decide; set_solver. Qed.

Lemma recorded_sub n l l' m : recorded n l l' -> m ∈ txn l -> m ∈ txn l'.
Proof. intros (-> & _). case_decide; set_solver. Qed.

Lemma sb_fs p x s0 D W v rc lk l s : cst p x (set_log l s0) v rc lk D W s -> sb s = sb s0.
Proof. intros [_ _ _ _ He _]. apply (f_equal sb) in He. done. Qed.

(** What operations do to the log: it grows, by blocks outside the log's part of
    the disk, and keeps its other fields. *)
Definition log_area (sbk : superblock) (n : Z) : Prop := in_log (sb_nlog sbk) (sb_logstart sbk) n.

Record log_step (sbk : superblock) (l l' : logst) : Prop := {
  ls_wf : log_wf l';
  ls_sub n : n ∈ txn l -> n ∈ txn l';
  ls_len : lh_n l <= lh_n l';
  ls_rest : l' = set_lh_block (lh_block l') (set_lh_n (lh_n l') l);
  ls_nodup : NoDup (txn l) -> NoDup (txn l');
  ls_new n : n ∈ txn l' -> n ∈ txn l \/ ~ log_area sbk n;
}.

Lemma log_step_trans sbk l1 l2 l3 : log_step sbk l1 l2 -> log_step sbk l2 l3 -> log_step sbk l1 l3.
Proof.
  intros [_ H1 H2 E1 H5 H6] [Hwf H3 H4 E2 H7 H8]. split; [done|auto|lia| |auto|].
  - rewrite E1 in E2. exact E2.
  - intros n [Hn|Hn]%H8; auto.
Qed.

Lemma log_step_refl sbk l : log_wf l -> log_step sbk l l.
Proof. intros. split; auto; [lia|by destruct l]. Qed.

Lemma recorded_step sbk n l l' : recorded n l l' -> ~ log_area sbk n -> log_step sbk l l'.
Proof.
  intros Hr Hn. pose proof Hr as (Et & En & Hwf & El). split; [done|intros m; by eapply recorded_sub| |done| |].
  - rewrite En. case_decide; lia.
  - rewrite Et. case_decide; [done|]. intros Hnd. apply NoDup_app. split; [done|].
    split; [|apply NoDup_singleton]. by intros m Hm ->%list_elem_of_singleton.
  - intros m. rewrite Et. case_decide; [by left|].
    intros [?| ->%list_elem_of_singleton]%elem_of_app; [by left|by right].
Qed.
