(* ===== verification/FsTxn.v ===== *)
(** * Whole operations

    [begin_op] and [end_op] around an operation that runs alone: [end_op]
    commits it.  The disk then holds what the operation made of the blocks, and a
    crash during the commit leaves a disk from which recovery gets either the
    blocks of before or those of after. *)

From Stdlib Require Import FunctionalExtensionality.
From S2P Require Import Prelude Mem Riscv Locks Kalloc Kstate Proc ProcSpec Sleeplock SleeplockSpec Bio BioSpec CacheOps Blk Log LogSpec LogOps FsOps.
Import Proc Sleeplock Bio Log.

(** Recovery at boot makes the data of disk [D] those of [E]. *)
Definition recovers (nlog start : Z) (D E : Z -> list Z) : Prop :=
  header_ok nlog D start /\ same_data nlog start (apply_writes D (recovery_writes D start)) E.

Lemma same_data_sym nlog start D E : same_data nlog start D E -> same_data nlog start E D.
Proof. intros H m Hm. by rewrite H. Qed.

Lemma recovers_same nlog start D E E' : recovers nlog start D E -> same_data nlog start E E' -> recovers nlog start D E'.
Proof. intros [H1 H2] H. split; [done|]. intros m Hm. by rewrite H2, H. Qed.

(** [recover_from_log] does it, in any state of the machine that holds nothing in
    the cache. *)
Lemma recovers_run nlog start D E p x es s : 0 < nlog -> recovers nlog start D E -> thread p x s -> disk_block s = D ->
  crep es D (fun _ => 0) (fun _ => None) s -> l_dev (log s) = ROOTDEV -> l_start (log s) = start ->
  Z.of_nat (length (lh_block (log s))) = LOGSIZE ->
  exists s', recover_from_log s = Ret tt s' /\ lh_n (log s') = 0 /\ same_data nlog start (disk_block s') E.
Proof.
  intros Hpos [Hok Hs] Ht HD Hc Hdev <- Hlb. pose proof (cst_start p x es _ _ _ s Ht Hc) as H. rewrite HD in H.
  destruct (recover_cst nlog Hpos p x D _ s H Hdev Hlb Hok) as (s1 & lb & E1 & _ & H1). exists s1.
  split; [done|]. split; [by rewrite (cst_log_eq p x _ _ _ _ _ _ _ H1)|].
  by rewrite (cs_disk _ _ _ _ _ _ _ _ _ H1).
Qed.

Section op.
Context (p : nat) (x : proc) (s0 : kstate).

Lemma fsx_set_log D W h v l s l' : fsx p x s0 D W h v l s -> txn l' = txn l -> fsx p x s0 D W h v l' (set_log l' s).
Proof.
  intros [Hc Hh] Et. split; [|done]. replace (refs l' h) with (refs l h) by (unfold refs, pins; by rewrite Et).
  exact (cst_set_log _ _ _ _ _ _ _ _ _ l' Hc).
Qed.

Lemma begin_fs D W h v l s : fsx p x s0 D W h v l s -> l_committing l = false ->
  lh_n l + (l_outstanding l + 1) * MAXOPBLOCKS <= LOGSIZE ->
  exists s', begin_op s = Ret tt s' /\ fsx p x s0 D W h v (set_l_outstanding (l_outstanding l + 1) l) s'.
Proof.
  intros H Hcm Hr. pose proof (log_of _ _ _ _ _ _ _ _ _ _ (proj1 H)) as El.
  destruct (begin_op_run p x s) as [Hb _]; [apply H|]. rewrite El in Hb.
  eexists. split; [by apply Hb|]. by apply (fsx_set_log D W h v l).
Qed.

(** The end of an operation that runs alone, up to the commit. *)
Lemma end_op_enter s : let l := log s in let s1 := set_log (set_l_committing true (set_l_outstanding 0 l)) s in
  thread p x s -> l_committing l = false -> l_outstanding l = 1 ->
  end_op s = (commit;; acquire log_lock;; upd_log (set_l_committing false);; wakeup log_chan;; release log_lock)%K s1.
Proof.
  intros l s1 Ht H1 H2. pose proof Ht as (Hc & Hx & Hp & Hh). unfold end_op.
  erewrite bind_Ret by (apply acquire_eq, (thread_unlocked _ _ _ _ Ht)). rewrite Hh.
  erewrite bind_Ret by reflexivity. erewrite bind_Ret by reflexivity.
  change (log (set_held _ s)) with l. cbn [log set_log l_committing l_outstanding set_l_outstanding]. rewrite H1, H2.
  change (1 - 1 =? 0) with true. cbn match. erewrite (bind_Ret _ _ _ true) by reflexivity. cbn match. erewrite bind_Ret by by apply (release_head _ []).
  f_equal. unfold s1. destruct s as [[]]. cbn in *. by subst.
Qed.

(** And from there on. *)
Lemma end_op_leave s : let l := log s in thread p x s ->
  (acquire log_lock;; upd_log (set_l_committing false);; wakeup log_chan;; release log_lock)%K s =
    Ret tt (set_procs (imap (wake log_chan (Some p)) (procs s)) (set_log (set_l_committing false l) s)).
Proof.
  intros l Ht. pose proof Ht as (Hc & Hx & Hp & Hh).
  erewrite bind_Ret by (apply acquire_eq, (thread_unlocked _ _ _ _ Ht)). rewrite Hh.
  erewrite bind_Ret by reflexivity.
  erewrite bind_Ret by (apply wakeup_spec; [done|by intros i _ ?%list_elem_of_singleton]).
  rewrite (release_head _ []) by done. f_equal. unfold l. destruct s as [[]]. cbn in *. by subst.
Qed.

(** Waking processes. *)
Lemma fsx_wake D W h v l s c : fsx p x s0 D W h v l s ->
  fsx p x s0 D W h v l (set_procs (imap (wake c (Some p)) (procs s)) s).
Proof.
  intros [[Ht [es Hc] HD HW He Hwk] Hh]. split; [|done]. split; try done.
  - pose proof (thread_wake p x s c (bufs s) Ht) as Ht'. by destruct s.
  - exists es. by apply (crep_ext es v _ _ s).
  - eapply woken_trans; [exact Hwk|]. apply woken_wake.
Qed.

(** An operation that runs alone, before its [end_op]: its blocks fit in the log
    and are none of the log's, whose header on the disk is empty. *)
Record txn_ready (D : Z -> list Z) (l : logst) : Prop := {
  tr_wf : log_wf l;
  tr_alone : l_committing l = false /\ l_outstanding l = 1 /\ l_dev l = ROOTDEV;
  tr_room : lh_n l < LOGSIZE /\ lh_n l < l_size l;
  tr_nodup : NoDup (txn l);
  tr_out n : n ∈ txn l -> ~ in_log (l_size l) (l_start l) n;
  tr_head : length (D (l_start l)) = 1024%nat /\ hdr_n (D (l_start l)) = 0;
}.

Lemma ready_txn D l : txn_ready D l -> txn_ok (l_size l) (l_start l) (txn l).
Proof.
  intros [Hwf _ [R1 R2] Hnd Hout _]. pose proof (txn_length l Hwf). destruct Hwf as (_ & _ & Hok).
  split; [lia|lia|done|done|done].
Qed.

(** The log after the commit. *)
Definition log_idle (l : logst) : logst := set_lh_n 0 (set_l_outstanding 0 l).

Lemma cst_fsx D0 W0 v0 l0 s1 D W v rc l s : fsx p x s0 D0 W0 ∅ v0 l0 s1 ->
  cst p x (set_log l s1) v rc (fun _ => None) D W s -> rc = refs l ∅ -> fsx p x s0 D W ∅ v l s.
Proof.
  intros [[_ _ _ _ He Hwk] _] [Ht Hc HD HW He' Hwk'] ->. split; [|by intros n b]. split; try done.
  - rewrite He'. exact (erase_log s0 l0 l (bufs s1) s1 He).
  - by eapply woken_trans.
Qed.

(** What the writes [ws] of a commit do to disk [D], for the operation that makes
    the blocks those of [v]. *)
Record commits nlog start (D v : Z -> list Z) (ws : list (Z * list Z)) : Prop := {
  cm_data : same_data nlog start (apply_writes D ws) v;
  cm_head : length (apply_writes D ws start) = 1024%nat /\ hdr_n (apply_writes D ws start) = 0;
  cm_crash k : recovers nlog start (apply_writes D (take k ws)) D \/ recovers nlog start (apply_writes D (take k ws)) v;
}.

Lemma commit_fs D W v l s : let l1 := set_l_committing true (set_l_outstanding 0 l) in
  fsx p x s0 D W ∅ v l1 s -> txn_ready D l ->
  exists ws s', commit s = Ret tt s' /\ commits (l_size l) (l_start l) D v ws /\
    fsx p x s0 (apply_writes D ws) (rev ws ++ W) ∅ (apply_writes D ws) (set_lh_n 0 l1) s'.
Proof.
  intros l1 H Hr. pose proof (ready_txn D l Hr) as HT. pose proof Hr as [Hwf (_ & _ & Hdev) [R1 R2] Hnd Hout [Hlen H0]].
  assert (0 < l_size l) as Hpos by (destruct Hwf; lia). pose proof (log_of _ _ _ _ _ _ _ _ _ _ (proj1 H)) as El.
  pose proof (in_log_start _ Hpos (l_start l)) as Hst.
  assert (forall m, m ∉ txn l -> v m = D m) as Hcl by (intros m Hm; by eapply clean_fs).
  assert (length (v (l_start l)) = 1024%nat) as Hv by (rewrite Hcl; [done|]; intros Hb; by apply (Hout _ Hb)).
  destruct (decide (lh_n l = 0)) as [En|En].
  - assert (txn l = []) as Et by (unfold txn; by rewrite En). exists [], s.
    assert (v = D) as -> by (apply functional_extensionality; intros m; apply Hcl; rewrite Et; apply not_elem_of_nil).
    split; [|split].
    + unfold commit. erewrite bind_Ret by reflexivity. rewrite El. change (lh_n l1) with (lh_n l). by rewrite En.
    + split; [done|done|]. intros k. left. rewrite take_nil. by apply recover_empty.
    + replace (set_lh_n 0 l1) with l1; [done|]. unfold l1. destruct l. cbn in *. by subst.
  - pose proof H as [[Ht [es Hc] HD HW He Hwk] _]. pose proof (cst_start p x es _ _ _ s Ht Hc) as Hs. rewrite HD, HW in Hs.
    change (locks (p_pid x) ∅) with (fun _ : Z => @None Z) in Hs.
    destruct (commit_cst (l_size l) Hpos p x v (refs l1 ∅) D W s Hs) as (s' & E & H'); rewrite ?El; try done.
    + change (0 < lh_n l <= Z.of_nat (length (lh_block l))). destruct Hwf as (? & ? & _). lia.
    + intros b Hb. unfold refs, pins. rewrite decide_True by done. done.
    + intros m Hm. unfold refs, pins. rewrite decide_False; [done|]. intros Hb. by apply (Hout _ Hb).
    + apply room_refs. split; [done|]. change (lh_n l1) with (lh_n l). rewrite map_size_empty. lia.
    + rewrite El in H'. change (txn l1) with (txn l) in H'. change (l_start l1) with (l_start l) in H'.
      set (ws := commit_writes v (l_start l) (txn l)) in *. exists ws, s'. split; [done|].
      destruct (commit_data _ Hpos D v _ _ HT Hv) as [Hd Hhd]. fold ws in Hd, Hhd.
      assert (committed D v (txn l) = v) as Ev.
      { apply functional_extensionality. intros m. unfold committed. case_decide; [done|]. by rewrite Hcl. }
      rewrite Ev in Hd. assert (unpinned (refs l1 ∅) (txn l) = fun _ => 0) as Eu.
      { apply functional_extensionality. intros m. rewrite unpinned_eq by done. unfold refs, pins.
        change (txn l1) with (txn l). case_decide; rewrite lookup_empty; lia. }
      rewrite Eu in H'. split.
      * split; [done|done|]. intros k. pose proof (crash_recover _ Hpos D v _ _ k HT Hv H0) as Hk. fold ws in Hk.
        rewrite Ev in Hk. case_decide; [by left|by right].
      * replace (apply_writes v ws) with (apply_writes D ws) in H'.
        2:{ apply functional_extensionality. intros m. symmetry. by eapply cst_clean. }
        eapply cst_fsx; [exact H|exact H'|]. apply functional_extensionality. intros m. unfold refs, pins.
        rewrite decide_False; [done|]. apply not_elem_of_nil.
Qed.

Lemma end_fs D W v l s : fsx p x s0 D W ∅ v l s -> txn_ready D l ->
  exists ws s', end_op s = Ret tt s' /\ commits (l_size l) (l_start l) D v ws /\
    fsx p x s0 (apply_writes D ws) (rev ws ++ W) ∅ (apply_writes D ws) (log_idle l) s'.
Proof.
  intros H Hr. pose proof Hr as [_ (Hcm & Hout & _) _ _ _ _]. pose proof (log_of _ _ _ _ _ _ _ _ _ _ (proj1 H)) as El.
  set (l1 := set_l_committing true (set_l_outstanding 0 l)).
  pose proof (fsx_set_log D W ∅ v l s l1 H eq_refl) as H1.
  destruct (commit_fs D W v l _ H1 Hr) as (ws & s' & E & Hw & H2). exists ws.
  pose proof (log_of _ _ _ _ _ _ _ _ _ _ (proj1 H2)) as El2.
  eexists. split; [|split; [done|]].
  - rewrite end_op_enter; [|apply H|by rewrite El..]. rewrite El. fold l1. erewrite bind_Ret by exact E.
    apply end_op_leave, H2.
  - pose proof (fsx_set_log _ _ ∅ _ _ s' (log_idle l) H2 eq_refl) as H3. apply fsx_wake with (c := log_chan) in H3.
    rewrite El2. replace (set_l_committing false _) with (log_idle l); [exact H3|].
    unfold log_idle. destruct l. cbn in *. by subst.
Qed.
End op.
