(* ===== verification/Fs.v ===== *)
(** * kernel/fs.c

    Blocks, inodes, file contents, directories and path names, on top of the
    buffer cache and the log. *)

From S2P Require Import Prelude Riscv Mem Locks Kalloc Kstate Proc Sleeplock Bio Blk Log.
Import Proc Sleeplock Bio Log.

Module Fs.

(** ** kernel/fs.h and kernel/stat.h *)

Definition ROOTINO : Z := 1.
Abbreviation FSMAGIC := (0x10203040)%Z.
Definition NDIRECT : Z := 12.
Definition NINDIRECT : Z := BSIZE / 4.
Definition MAXFILE : Z := NDIRECT + NINDIRECT.
Definition DINODE_SIZE : Z := 64.
Definition IPB : Z := BSIZE / DINODE_SIZE.
Definition IBLOCK (i : Z) (sb : superblock) : Z := u32 (i / IPB + sb_inodestart sb).
Definition BPB : Z := BSIZE * 8.
Definition BBLOCK (b : Z) (sb : superblock) : Z := u32 (b / BPB + sb_bmapstart sb).
Definition DIRSIZ : Z := 14.
Definition DIRENT_SIZE : Z := 16.
Definition T_DIR : Z := 1.
Definition T_FILE : Z := 2.
Definition T_DEVICE : Z := 3.

(** ** Super block *)

Definition readsb (dev : Z) : M kstate superblock :=
  (bp <- bread dev 1;
   d <- bdata bp;
   brelse bp;;
   ret (MkSuperblock (get32 d 0) (get32 d 4) (get32 d 8) (get32 d 12)
          (get32 d 16) (get32 d 20) (get32 d 24) (get32 d 28)))%K.

Definition fsinit (dev : Z) : M kstate unit :=
  (x <- readsb dev;
   modify (set_sb x);;
   if negb (sb_magic x =? FSMAGIC) then panic "invalid file system"
   else initlog dev x)%K.

(** ** Blocks *)

Definition bzero (dev bno : Z) : M kstate unit :=
  (bp <- bread dev bno;
   d <- bdata bp;
   set_bdata bp (lzero d 0 BSIZE);;
   log_write bp;;
   brelse bp)%K.

(** The bit of block [bi] in a bitmap block. *)
Definition bit_mask (bi : Z) : Z := Z.shiftl 1 (bi mod 8).
Definition bit_used (d : list Z) (bi : Z) : bool := negb (Z.land (get8 d (bi / 8)) (bit_mask bi) =? 0).

(** The inner loop of [balloc]: the first free bit from [bi] on. *)
Fixpoint balloc_scan (k : nat) (d : list Z) (b size bi : Z) : option Z :=
  match k with
  | O => None
  | S k' =>
      if negb (bi <? BPB) || negb (b + bi <? size) then None
      else if negb (bit_used d bi) then Some bi
      else balloc_scan k' d b size (bi + 1)
  end.

Definition balloc_body (dev b : Z) : M kstate (Z + Z) :=
  (x <- gets sb;
   if b <? sb_size x then
     bp <- bread dev (BBLOCK b x);
     d <- bdata bp;
     match balloc_scan (Z.to_nat BPB) d b (sb_size x) 0 with
     | Some bi =>
         set_bdata bp (put8 d (bi / 8) (Z.lor (get8 d (bi / 8)) (bit_mask bi)));;
         log_write bp;;
         brelse bp;;
         bzero dev (b + bi);;
         ret (inr (b + bi))
     | None => brelse bp;; ret (inl (b + BPB))
     end
   else panic "balloc: out of blocks")%K.

Definition balloc (dev : Z) : M kstate Z := loop (balloc_body dev) 0.

Definition bfree (dev b : Z) : M kstate unit :=
  (x <- gets sb;
   bp <- bread dev (BBLOCK b x);
   d <- bdata bp;
   let bi := b mod BPB in
   if negb (bit_used d bi) then panic "freeing free block"
   else
     set_bdata bp (put8 d (bi / 8) (Z.land (get8 d (bi / 8)) (Z.lnot (bit_mask bi))));;
     log_write bp;;
     brelse bp)%K.

(** ** Inodes *)

Definition itable_lock : lockid := ("itable", 0).
Definition islots : list nat := seq 0 (Z.to_nat NINODE).

Definition iinit : M kstate unit :=
  (initlock itable_lock;;
   for_each islots (fun i => initsleeplock (SLinode i)))%K.

(** Fields of the disk inode at offset [o] of its block. *)
Definition di_type (d : list Z) (o : Z) : Z := i16 (get16 d o).
Definition di_major (d : list Z) (o : Z) : Z := i16 (get16 d (o + 2)).
Definition di_minor (d : list Z) (o : Z) : Z := i16 (get16 d (o + 4)).
Definition di_nlink (d : list Z) (o : Z) : Z := i16 (get16 d (o + 6)).
Definition di_size (d : list Z) (o : Z) : Z := get32 d (o + 8).
Definition di_addrs (d : list Z) (o : Z) : list Z :=
  ListDef.map (fun i => get32 d (o + 12 + 4 * Z.of_nat i)) (seq 0 (Z.to_nat (NDIRECT + 1))).
Definition di_off (inum : Z) : Z := inum mod IPB * DINODE_SIZE.

(** [iget]'s scan: the entry for the inode, or the first unused one. *)
Fixpoint iget_scan (xs : list inode) (dev inum : Z) (i : nat) (empty : option nat) :
    option nat * option nat :=
  match xs with
  | [] => (None, empty)
  | x :: xs' =>
      if (0 <? i_ref x) && (i_dev x =? dev) && (i_inum x =? inum) then (Some i, empty)
      else iget_scan xs' dev inum (S i)
             (match empty with None => if i_ref x =? 0 then Some i else None | _ => empty end)
  end.

Definition iget (dev inum : Z) : M kstate nat :=
  (acquire itable_lock;;
   xs <- gets itable;
   match iget_scan xs dev inum 0 None with
   | (Some i, _) =>
       inode_upd i (fun x => set_i_ref (i_ref x + 1) x);;
       release itable_lock;;
       ret i
   | (None, None) => panic "iget: no inodes"
   | (None, Some i) =>
       inode_upd i (set_i_dev dev);;
       inode_upd i (set_i_inum inum);;
       inode_upd i (set_i_ref 1);;
       inode_upd i (set_i_valid false);;
       release itable_lock;;
       ret i
   end)%K.

Definition ialloc_body (dev type inum : Z) : M kstate (Z + nat) :=
  (x <- gets sb;
   if inum <? sb_ninodes x then
     bp <- bread dev (IBLOCK inum x);
     d <- bdata bp;
     let o := di_off inum in
     if di_type d o =? 0 then
       set_bdata bp (put16 (lzero d o DINODE_SIZE) o type);;
       log_write bp;;
       brelse bp;;
       i <- iget dev inum;
       ret (inr i)
     else brelse bp;; ret (inl (inum + 1))
   else panic "ialloc: no inodes")%K.

Definition ialloc (dev type : Z) : M kstate nat := loop (ialloc_body dev type) 1.

(** The block with [ip]'s fields stored at [o]. *)
Definition put_dinode (d : list Z) (o : Z) (x : inode) : list Z :=
  let d := put16 d o (i_type x) in
  let d := put16 d (o + 2) (i_major x) in
  let d := put16 d (o + 4) (i_minor x) in
  let d := put16 d (o + 6) (i_nlink x) in
  let d := put32 d (o + 8) (i_size x) in
  lput d (o + 12) (concat (ListDef.map (le_bytes 4) (i_addrs x))).

Definition iupdate (ip : nat) : M kstate unit :=
  (x <- inode_at ip;
   sbx <- gets sb;
   bp <- bread (i_dev x) (IBLOCK (i_inum x) sbx);
   d <- bdata bp;
   set_bdata bp (put_dinode d (di_off (i_inum x)) x);;
   log_write bp;;
   brelse bp)%K.

Definition idup (ip : nat) : M kstate nat :=
  (acquire itable_lock;;
   inode_upd ip (fun x => set_i_ref (i_ref x + 1) x);;
   release itable_lock;;
   ret ip)%K.

Definition load_dinode (d : list Z) (o : Z) (x : inode) : inode :=
  set_i_addrs (di_addrs d o) (set_i_size (di_size d o) (set_i_nlink (di_nlink d o)
    (set_i_minor (di_minor d o) (set_i_major (di_major d o) (set_i_type (di_type d o) x))))).

(** [ip] may be null. *)
Definition ilock (ip : option nat) : M kstate unit :=
  (match ip with
   | None => panic "ilock"
   | Some ip =>
       x <- inode_at ip;
       if i_ref x <? 1 then panic "ilock"
       else
         acquiresleep (SLinode ip);;
         x <- inode_at ip;
         if negb (i_valid x) then
           sbx <- gets sb;
           bp <- bread (i_dev x) (IBLOCK (i_inum x) sbx);
           d <- bdata bp;
           inode_upd ip (load_dinode d (di_off (i_inum x)));;
           brelse bp;;
           inode_upd ip (set_i_valid true);;
           x <- inode_at ip;
           if i_type x =? 0 then panic "ilock: no type" else ret tt
         else ret tt
   end)%K.

Definition iunlock (ip : option nat) : M kstate unit :=
  (match ip with
   | None => panic "iunlock"
   | Some ip =>
       h <- holdingsleep (SLinode ip);
       x <- inode_at ip;
       if negb h || (i_ref x <? 1) then panic "iunlock"
       else releasesleep (SLinode ip)
   end)%K.

(** One direct block of [itrunc]. *)
Definition itrunc_direct (ip : nat) (i : Z) : M kstate unit :=
  (x <- inode_at ip;
   let a := nth (Z.to_nat i) (i_addrs x) 0 in
   if negb (a =? 0) then
     bfree (i_dev x) a;;
     inode_upd ip (fun x => set_i_addrs (<[Z.to_nat i := 0]> (i_addrs x)) x)
   else ret tt)%K.

Definition itrunc (ip : nat) : M kstate unit :=
  (for_range (Z.to_nat NDIRECT) 0 (itrunc_direct ip);;
   x <- inode_at ip;
   let ind := nth (Z.to_nat NDIRECT) (i_addrs x) 0 in
   (if negb (ind =? 0) then
      bp <- bread (i_dev x) ind;
      for_range (Z.to_nat NINDIRECT) 0 (fun j =>
        d <- bdata bp;
        let a := get32 d (4 * j) in
        if negb (a =? 0) then bfree (i_dev x) a else ret tt);;
      brelse bp;;
      bfree (i_dev x) ind;;
      inode_upd ip (fun x => set_i_addrs (<[Z.to_nat NDIRECT := 0]> (i_addrs x)) x)
    else ret tt);;
   inode_upd ip (set_i_size 0);;
   iupdate ip)%K.

Definition iput (ip : nat) : M kstate unit :=
  (acquire itable_lock;;
   x <- inode_at ip;
   (if (i_ref x =? 1) && i_valid x && (i_nlink x =? 0) then
      acquiresleep (SLinode ip);;
      release itable_lock;;
      itrunc ip;;
      inode_upd ip (set_i_type 0);;
      iupdate ip;;
      inode_upd ip (set_i_valid false);;
      releasesleep (SLinode ip);;
      acquire itable_lock
    else ret tt);;
   inode_upd ip (fun x => set_i_ref (i_ref x - 1) x);;
   release itable_lock)%K.

Definition iunlockput (ip : nat) : M kstate unit := (iunlock (Some ip);; iput ip)%K.

(** ** Inode content *)

Definition bmap (ip : nat) (bn : Z) : M kstate Z :=
  (x <- inode_at ip;
   if bn <? NDIRECT then
     let addr := nth (Z.to_nat bn) (i_addrs x) 0 in
     if addr =? 0 then
       addr <- balloc (i_dev x);
       inode_upd ip (fun x => set_i_addrs (<[Z.to_nat bn := addr]> (i_addrs x)) x);;
       ret addr
     else ret addr
   else
     let bn := bn - NDIRECT in
     if bn <? NINDIRECT then
       let addr := nth (Z.to_nat NDIRECT) (i_addrs x) 0 in
       addr <- (if addr =? 0 then
                  addr <- balloc (i_dev x);
                  inode_upd ip (fun x => set_i_addrs (<[Z.to_nat NDIRECT := addr]> (i_addrs x)) x);;
                  ret addr
                else ret addr);
       bp <- bread (i_dev x) addr;
       d <- bdata bp;
       let addr := get32 d (4 * bn) in
       addr <- (if addr =? 0 then
                  addr <- balloc (i_dev x);
                  d <- bdata bp;
                  set_bdata bp (put32 d (4 * bn) addr);;
                  log_write bp;;
                  ret addr
                else ret addr);
       brelse bp;;
       ret addr
     else panic "bmap: out of range")%K.

(** struct stat: dev, ino, type, nlink, size. *)
Record stat := MkStat { st_dev : Z; st_ino : Z; st_type : Z; st_nlink : Z; st_size : Z }.

Definition stati (ip : nat) : M kstate stat :=
  (x <- inode_at ip;
   ret (MkStat (i32 (i_dev x)) (i_inum x) (i_type x) (i_nlink x) (i_size x)))%K.

(** One round of [readi]'s loop: (tot, off, dst) and the bytes read so far. *)
Definition readi_body (ip : nat) (n : Z) (st : Z * Z * place * list Z) :
    M kstate (Z * Z * place * list Z + Z * list Z) :=
  let '(tot, off, dst, acc) := st in
  (if tot <? n then
     bn <- bmap ip (off / BSIZE);
     x <- inode_at ip;
     bp <- bread (i_dev x) bn;
     let m := Z.min (n - tot) (BSIZE - off mod BSIZE) in
     d <- bdata bp;
     let bs := lsub d (off mod BSIZE) m in
     r <- either_copyout dst bs m;
     if r =? -1 then brelse bp;; ret (inr (-1, acc))
     else brelse bp;; ret (inl (u32 (tot + m), u32 (off + m), padd dst m, acc ++ bs))
   else ret (inr (i32 tot, acc)))%K.

(** The result and the bytes that were delivered, for a local destination. *)
Definition readi (ip : nat) (dst : place) (off n : Z) : M kstate (Z * list Z) :=
  (x <- inode_at ip;
   if (i_size x <? off) || (u32 (off + n) <? off) then ret (0, [])
   else
     let n := if i_size x <? u32 (off + n) then i_size x - off else n in
     loop (readi_body ip n) (0, off, dst, []))%K.

Definition writei_body (ip : nat) (n : Z) (st : Z * Z * place) : M kstate (Z * Z * place + Z * Z) :=
  let '(tot, off, src) := st in
  (if tot <? n then
     bn <- bmap ip (off / BSIZE);
     x <- inode_at ip;
     bp <- bread (i_dev x) bn;
     let m := Z.min (n - tot) (BSIZE - off mod BSIZE) in
     ' (r, bs) <- either_copyin src m;
     d <- bdata bp;
     set_bdata bp (lput d (off mod BSIZE) bs);;
     if r =? -1 then brelse bp;; ret (inr (tot, off))
     else
       log_write bp;;
       brelse bp;;
       ret (inl (u32 (tot + m), u32 (off + m), padd src m))
   else ret (inr (tot, off)))%K.

Definition writei (ip : nat) (src : place) (off n : Z) : M kstate Z :=
  (x <- inode_at ip;
   if (i_size x <? off) || (u32 (off + n) <? off) then ret (-1)
   else if MAXFILE * BSIZE <? u32 (off + n) then ret (-1)
   else
     ' (tot, off) <- loop (writei_body ip n) (0, off, src);
     x <- inode_at ip;
     (if i_size x <? off then inode_upd ip (set_i_size off) else ret tt);;
     iupdate ip;;
     ret (i32 tot))%K.

(** ** Directories *)

(** [strncmp] of byte arrays; an array that ended is followed by NULs. *)
Fixpoint lstrncmp (n : nat) (p q : list Z) : Z :=
  match n with
  | O => 0
  | S n' =>
      let a := hd 0 p in let b := hd 0 q in
      if negb (a =? 0) && (a =? b) then lstrncmp n' (tl p) (tl q) else a - b
  end.

Definition namecmp (s t : list Z) : Z := lstrncmp (Z.to_nat DIRSIZ) s t.

(** [strncpy] into an array of [n] bytes. *)
Fixpoint lstrncpy (n : nat) (t : list Z) : list Z :=
  match n with
  | O => []
  | S n' => if hd 0 t =? 0 then repeat 0 n else hd 0 t :: lstrncpy n' (tl t)
  end.

Definition de_inum (de : list Z) : Z := get16 de 0.
Definition de_name (de : list Z) : list Z := lsub de 2 DIRSIZ.
Definition mk_dirent (inum : Z) (name : list Z) : list Z := le_bytes 2 inum ++ name.

Definition dirlookup_body (dp : nat) (name : list Z) (off : Z) :
    M kstate (Z + option (nat * Z)) :=
  (x <- inode_at dp;
   if off <? i_size x then
     ' (r, de) <- readi dp (PLocal []) off DIRENT_SIZE;
     if negb (r =? DIRENT_SIZE) then panic "dirlookup read"
     else if de_inum de =? 0 then ret (inl (u32 (off + DIRENT_SIZE)))
     else if namecmp name (de_name de) =? 0 then
       i <- iget (i_dev x) (de_inum de);
       ret (inr (Some (i, off)))
     else ret (inl (u32 (off + DIRENT_SIZE)))
   else ret (inr None))%K.

(** The inode and the offset of its entry ([*poff]). *)
Definition dirlookup (dp : nat) (name : list Z) : M kstate (option (nat * Z)) :=
  (x <- inode_at dp;
   if negb (i_type x =? T_DIR) then panic "dirlookup not DIR"
   else loop (dirlookup_body dp name) 0)%K.

(** The search of [dirlink] for an unused entry. *)
Definition dirlink_body (dp : nat) (off : Z) : M kstate (Z + Z) :=
  (x <- inode_at dp;
   if off <? i_size x then
     ' (r, de) <- readi dp (PLocal []) off DIRENT_SIZE;
     if negb (r =? DIRENT_SIZE) then panic "dirlink read"
     else if de_inum de =? 0 then ret (inr off)
     else ret (inl (off + DIRENT_SIZE))
   else ret (inr off))%K.

Definition dirlink (dp : nat) (name : list Z) (inum : Z) : M kstate Z :=
  (r <- dirlookup dp name;
   match r with
   | Some (ip, _) => iput ip;; ret (-1)
   | None =>
       off <- loop (dirlink_body dp) 0;
       r <- writei dp (PLocal (mk_dirent (u16 inum) (lstrncpy (Z.to_nat DIRSIZ) name))) off DIRENT_SIZE;
       if negb (r =? DIRENT_SIZE) then panic "dirlink" else ret 0
   end)%K.

(** ** Paths

    A C string is the list of its bytes before the NUL. *)

Definition SLASH : Z := 47.

Fixpoint skip_slashes (path : list Z) : list Z :=
  match path with
  | c :: path' => if c =? SLASH then skip_slashes path' else path
  | [] => []
  end.

Fixpoint span_elem (path : list Z) : list Z * list Z :=
  match path with
  | c :: path' => if c =? SLASH then ([], path) else let '(e, r) := span_elem path' in (c :: e, r)
  | [] => ([], [])
  end.

(** The rest of the path and the new contents of [name], or [None] for a null
    result; [name] is the buffer of [DIRSIZ] bytes. *)
Definition skipelem (path name : list Z) : option (list Z * list Z) :=
  let path := skip_slashes path in
  match path with
  | [] => None
  | _ =>
      let '(s, rest) := span_elem path in
      let len := Z.of_nat (length s) in
      let name :=
        if DIRSIZ <=? len then lput name 0 (take (Z.to_nat DIRSIZ) s)
        else lput (lput name 0 s) len [0] in
      Some (skip_slashes rest, name)
  end.

Definition namex_body (nameiparent : bool) (st : nat * list Z * list Z) :
    M kstate (nat * list Z * list Z + option nat * list Z) :=
  let '(ip, path, name) := st in
  (match skipelem path name with
   | None =>
       if nameiparent then iput ip;; ret (inr (None, name)) else ret (inr (Some ip, name))
   | Some (path, name) =>
       ilock (Some ip);;
       x <- inode_at ip;
       if negb (i_type x =? T_DIR) then iunlockput ip;; ret (inr (None, name))
       else if nameiparent && bool_decide (path = []) then
         iunlock (Some ip);;
         ret (inr (Some ip, name))
       else
         r <- dirlookup ip name;
         match r with
         | None => iunlockput ip;; ret (inr (None, name))
         | Some (next, _) => iunlockput ip;; ret (inl (next, path, name))
         end
   end)%K.

(** The inode and the last path element. *)
Definition namex (path : list Z) (nameiparent : bool) (name : list Z) : M kstate (option nat * list Z) :=
  (ip <- (if hd 0 path =? SLASH then iget ROOTDEV ROOTINO
          else p <- curproc; x <- proc_at p; cwd <- deref (p_cwd x); idup cwd);
   loop (namex_body nameiparent) (ip, path, name))%K.

Definition namei (path : list Z) : M kstate (option nat) :=
  (r <- namex path false (repeat 0 (Z.to_nat DIRSIZ)); ret (fst r))%K.

Definition nameiparent (path name : list Z) : M kstate (option nat * list Z) := namex path true name.

End Fs.
