(* ===== verification/FileData.v ===== *)
(** * The contents of a file

    What the blocks of a disk say of a file: the block of each part of the file,
    through the direct addresses of the inode and its indirect block, and the
    bytes.  A block address of 0 is a hole, which reads as zeros. *)

From S2P Require Import Prelude Blk Kstate Bio Fs.
Import Bio Fs.

(** ** Blocks *)

Definition byte (c : Z) : Prop := 0 <= c < 256.
(** A block's worth of bytes. *)
Definition full_block (d : list Z) : Prop := Z.of_nat (length d) = BSIZE /\ Forall byte d.

Lemma lput_full d o bs : full_block d -> Forall byte bs -> full_block (lput d o bs).
Proof.
  intros [Hl Hd] Hb. split; [by rewrite lput_length|]. unfold lput.
  apply Forall_take, Forall_app. split; [by apply Forall_take|]. apply Forall_app. split; [done|by apply Forall_drop].
Qed.

Lemma le_bytes_byte n z : Forall byte (le_bytes n z).
Proof. revert z; induction n as [|n IH]; intros z; cbn; constructor; [apply u8_range|apply IH]. Qed.

Definition zeros : list Z := repeat 0 (Z.to_nat BSIZE).

Lemma zero_bytes k : Forall byte (repeat 0 k).
Proof. induction k; constructor; [done|done]. Qed.

Lemma zeros_full : full_block zeros.
Proof. split; [done|apply zero_bytes]. Qed.

Lemma zeros_get8 o : get8 zeros o = 0.
Proof. unfold get8. apply nth_repeat. Qed.

Lemma zeros_val o n : le_val (lsub zeros o n) = 0.
Proof.
  assert (forall l, Forall (eq 0) l -> le_val l = 0) as Hl by (induction 1 as [|? ? <- _ IH]; cbn; lia).
  apply Hl. unfold lsub. apply Forall_take, Forall_drop. unfold zeros. generalize (Z.to_nat BSIZE). intros k. by induction k; constructor.
Qed.

Lemma zeros_get32 o : get32 zeros o = 0.
Proof. apply zeros_val. Qed.

Lemma get8_lput d o bs j : 0 <= o -> 0 <= j -> o + Z.of_nat (length bs) <= Z.of_nat (length d) ->
  get8 (lput d o bs) j = if decide (o <= j < o + Z.of_nat (length bs)) then nth (Z.to_nat (j - o)) bs 0 else get8 d j.
Proof.
  intros Ho Hj Hl. unfold get8. rewrite !nth_lookup. case_decide as Hd.
  - pose proof (lsub_lput d o bs ltac:(lia) ltac:(lia)) as E. unfold lsub in E.
    apply (f_equal (lookup (Z.to_nat (j - o)))) in E. rewrite lookup_take_lt, lookup_drop in E by lia.
    replace (Z.to_nat o + Z.to_nat (j - o))%nat with (Z.to_nat j) in E by lia. by rewrite E.
  - by rewrite lput_lookup_out by lia.
Qed.

(** ** Files *)

Section data.
Implicit Types (v : Z -> list Z) (a : list Z).

(** The indirect block, and the block of part [bn] of a file. *)
Definition indirect a : Z := nth (Z.to_nat NDIRECT) a 0.
Definition baddr v a (bn : Z) : Z :=
  if bn <? NDIRECT then nth (Z.to_nat bn) a 0
  else if indirect a =? 0 then 0 else get32 (v (indirect a)) (4 * (bn - NDIRECT)).

Definition fbyte v a (i : Z) : Z :=
  let b := baddr v a (i / BSIZE) in if b =? 0 then 0 else get8 (v b) (i mod BSIZE).

(** The [n] bytes from [off] on. *)
Definition fbytes v a (off n : Z) : list Z := fbyte v a <$> seqZ off n.

(** Block [n] is one of the file's. *)
Definition owns v a (n : Z) : Prop :=
  n <> 0 /\ (n = indirect a \/ exists bn, 0 <= bn < MAXFILE /\ baddr v a bn = n).

(** The blocks of a file are all different. *)
Record file_apart v a : Prop := {
  fa_inj bn bn' : 0 <= bn < MAXFILE -> 0 <= bn' < MAXFILE -> baddr v a bn <> 0 ->
    baddr v a bn = baddr v a bn' -> bn = bn';
  fa_ind bn : 0 <= bn < MAXFILE -> baddr v a bn <> 0 -> baddr v a bn <> indirect a;
}.

Lemma MAXFILE_eq : MAXFILE = NDIRECT + NINDIRECT /\ NDIRECT = 12 /\ NINDIRECT = 256 /\ BSIZE = 1024.
Proof. done. Qed.

Lemma block_index i : 0 <= i < MAXFILE * BSIZE -> 0 <= i / BSIZE < MAXFILE.
Proof. intros Hi. split; [by apply Z.div_pos; [lia|]|]. apply Z.div_lt_upper_bound; [done|lia]. Qed.

Lemma owns_data v a bn : 0 <= bn < MAXFILE -> baddr v a bn <> 0 -> owns v a (baddr v a bn).
Proof. intros. split; [done|]. right. by exists bn. Qed.

Lemma owns_ind v a : indirect a <> 0 -> owns v a (indirect a).
Proof. intros. split; [done|]. by left. Qed.

Lemma baddr_ind v a bn : NDIRECT <= bn -> baddr v a bn <> 0 -> indirect a <> 0.
Proof. intros Hbn. unfold baddr. rewrite (proj2 (Z.ltb_ge _ _)) by done. by destruct (Z.eqb_spec (indirect a) 0). Qed.

(** The addresses in the inode are the file's blocks, or 0. *)
Lemma addrs_owned v a z : length a = Z.to_nat (NDIRECT + 1) -> z ∈ a -> z <> 0 -> owns v a z.
Proof.
  intros Hl [i Hi]%list_elem_of_lookup Hz. pose proof (lookup_lt_Some _ _ _ Hi) as Hlt. rewrite Hl in Hlt.
  pose proof MAXFILE_eq as HM. split; [done|]. destruct (decide (Z.of_nat i < NDIRECT)) as [Hn|Hn].
  - right. exists (Z.of_nat i). split; [lia|]. unfold baddr. rewrite (proj2 (Z.ltb_lt _ _)), Nat2Z.id by done.
    by rewrite nth_lookup, Hi.
  - left. unfold indirect. replace (Z.to_nat NDIRECT) with i by lia. by rewrite nth_lookup, Hi.
Qed.

(** What a file says depends on its own blocks only. *)
Lemma baddr_ext v v' a bn : 0 <= bn < MAXFILE -> (forall n, owns v a n -> v' n = v n) -> baddr v' a bn = baddr v a bn.
Proof.
  intros Hbn H. unfold baddr. destruct (bn <? NDIRECT); [done|]. destruct (Z.eqb_spec (indirect a) 0); [done|].
  by rewrite H by by apply owns_ind.
Qed.

Lemma owns_ext v v' a n : (forall n, owns v a n -> v' n = v n) -> owns v' a n <-> owns v a n.
Proof.
  intros H. unfold owns. split; intros [Hn [Hi|(bn & Hbn & E)]]; (split; [done|]); [by left| |by left|];
    right; exists bn; split; try done; [rewrite <- (baddr_ext v v')|rewrite (baddr_ext v v')]; done.
Qed.

Lemma fbyte_ext v v' a i : 0 <= i < MAXFILE * BSIZE -> (forall n, owns v a n -> v' n = v n) -> fbyte v' a i = fbyte v a i.
Proof.
  intros Hi H. assert (0 <= i / BSIZE < MAXFILE) as Hb.
  { split; [by apply Z.div_pos; [lia|]|]. apply Z.div_lt_upper_bound; [done|lia]. }
  unfold fbyte. rewrite (baddr_ext v v') by done. destruct (Z.eqb_spec (baddr v a (i / BSIZE)) 0); [done|].
  by rewrite H by by apply owns_data.
Qed.

Lemma file_apart_ext v v' a : (forall n, owns v a n -> v' n = v n) -> file_apart v a -> file_apart v' a.
Proof.
  intros H [H1 H2]. split.
  - intros bn bn' Hb Hb'. rewrite !(baddr_ext v v') by done. by apply H1.
  - intros bn Hb. rewrite (baddr_ext v v') by done. by apply H2.
Qed.

Lemma fbytes_length v a off n : length (fbytes v a off n) = Z.to_nat n.
Proof. unfold fbytes. by rewrite length_fmap, length_seqZ. Qed.

Lemma fbytes_lookup v a off n (i : nat) : Z.of_nat i < n -> fbytes v a off n !! i = Some (fbyte v a (off + Z.of_nat i)).
Proof. intros Hi. unfold fbytes. by rewrite list_lookup_fmap, lookup_seqZ_lt. Qed.

Lemma fbytes_app v a off n m : 0 <= n -> 0 <= m -> fbytes v a off (n + m) = fbytes v a off n ++ fbytes v a (off + n) m.
Proof. intros. unfold fbytes. by rewrite seqZ_app, fmap_app by lia. Qed.

Lemma fbytes_take v a off i j : 0 <= i <= j -> take (Z.to_nat i) (fbytes v a off j) = fbytes v a off i.
Proof.
  intros Hi. replace j with (i + (j - i)) by lia. rewrite fbytes_app by lia.
  rewrite take_app_le by (rewrite fbytes_length; lia). apply take_ge. by rewrite fbytes_length.
Qed.

Lemma div_block off i : 0 <= off -> 0 <= i -> off mod BSIZE + i < BSIZE ->
  (off + i) / BSIZE = off / BSIZE /\ (off + i) mod BSIZE = off mod BSIZE + i.
Proof.
  intros Ho Hi Hlt. pose proof (Z_div_mod_eq_full off BSIZE) as E. pose proof (Z.mod_pos_bound off BSIZE ltac:(done)).
  split; [symmetry; apply (Z.div_unique _ _ _ (off mod BSIZE + i)); lia|].
  symmetry. apply (Z.mod_unique _ _ (off / BSIZE)); lia.
Qed.

(** A part of one block of the file. *)
Lemma fbytes_block v a off m : 0 <= off -> 0 <= m <= BSIZE - off mod BSIZE -> baddr v a (off / BSIZE) <> 0 ->
  Z.of_nat (length (v (baddr v a (off / BSIZE)))) = BSIZE ->
  lsub (v (baddr v a (off / BSIZE))) (off mod BSIZE) m = fbytes v a off m.
Proof.
  intros Ho Hm Hb Hl. pose proof (Z.mod_pos_bound off BSIZE ltac:(done)). apply list_eq. intros i.
  destruct (decide (Z.of_nat i < m)) as [Hi|Hi].
  - rewrite fbytes_lookup by done. unfold lsub. rewrite lookup_take_lt, lookup_drop by lia.
    destruct (div_block off (Z.of_nat i)) as [E1 E2]; [lia|lia|lia|]. unfold fbyte. rewrite E1, E2.
    rewrite (proj2 (Z.eqb_neq _ _)) by done. unfold get8.
    destruct (lookup_lt_is_Some_2 (v (baddr v a (off / BSIZE))) (Z.to_nat (off mod BSIZE) + i)) as [c Hc]; [lia|].
    rewrite Hc. f_equal. symmetry. rewrite nth_lookup. replace (Z.to_nat (off mod BSIZE + Z.of_nat i)) with (Z.to_nat (off mod BSIZE) + i)%nat by lia.
    by rewrite Hc.
  - rewrite (lookup_ge_None_2 (fbytes _ _ _ _)) by (rewrite fbytes_length; lia).
    unfold lsub. rewrite lookup_take_ge by lia. done.
Qed.
End data.

(** ** Files that grow and change *)

Section change.
Implicit Types (v : Z -> list Z) (a : list Z).

(** The new block [k] becomes part [bn] of the file. *)
Lemma file_add_data v a v' a' bn k : file_apart v a -> ~ owns v a k -> k <> 0 -> baddr v a bn = 0 -> indirect a' = indirect a ->
  (forall b, 0 <= b < MAXFILE -> baddr v' a' b = if decide (b = bn) then k else baddr v a b) ->
  (forall b, 0 <= b < MAXFILE -> baddr v a b <> 0 -> v' (baddr v a b) = v (baddr v a b)) -> v' k = zeros ->
  file_apart v' a' /\ (forall i, 0 <= i < MAXFILE * BSIZE -> fbyte v' a' i = fbyte v a i) /\
  forall n, owns v' a' n -> owns v a n \/ n = k.
Proof.
  intros [Hinj Hind] Hnk Hk H0 Ei Hb Hdata Hz. split; [split|split].
  - intros b b' Hb1 Hb2. rewrite !Hb by done. repeat case_decide; subst; try done.
    + intros _ E. destruct Hnk. rewrite E. apply owns_data; [done|congruence].
    + intros _ E. destruct Hnk. rewrite <- E. apply owns_data; [done|congruence].
    + by apply Hinj.
  - intros b Hb1. rewrite Hb, Ei by done. case_decide; [|by apply Hind]. intros _ E. apply Hnk. rewrite E. apply owns_ind. congruence.
  - intros i Hi. unfold fbyte. rewrite Hb by by apply block_index. case_decide as E.
    + rewrite E, H0, (proj2 (Z.eqb_neq k 0)), Hz by done. apply zeros_get8.
    + destruct (Z.eqb_spec (baddr v a (i / BSIZE)) 0); [done|]. by rewrite Hdata by (done || by apply block_index).
  - intros n [Hn [->|(b & Hb1 & E)]]; [left; rewrite Ei in *; by apply owns_ind|]. rewrite Hb in E by done.
    case_decide; [by right|left]. subst n. by apply owns_data.
Qed.

(** The new block [k] becomes the indirect block. *)
Lemma file_add_indirect v a v' k : let a' := <[Z.to_nat NDIRECT := k]> a in
  length a = Z.to_nat (NDIRECT + 1) -> file_apart v a -> ~ owns v a k -> k <> 0 -> indirect a = 0 ->
  (forall n, owns v a n -> v' n = v n) -> v' k = zeros ->
  indirect a' = k /\ (forall b, 0 <= b < MAXFILE -> baddr v' a' b = baddr v a b) /\ file_apart v' a' /\
  (forall i, 0 <= i < MAXFILE * BSIZE -> fbyte v' a' i = fbyte v a i) /\ forall n, owns v' a' n -> owns v a n \/ n = k.
Proof.
  intros a' Hlen [Hinj Hind] Hnk Hk H0 Hs Hz. assert (indirect a' = k) as Ei.
  { unfold indirect, a'. rewrite nth_lookup, list_lookup_insert_eq; [done|]. rewrite Hlen. unfold NDIRECT. lia. }
  assert (forall b, 0 <= b < MAXFILE -> baddr v' a' b = baddr v a b) as Hb.
  { intros b Hb. unfold baddr. rewrite Ei, H0, (proj2 (Z.eqb_neq k 0)), Hz by done. destruct (Z.ltb_spec b NDIRECT).
    - unfold a'. rewrite !nth_lookup, list_lookup_insert_ne; [done|unfold NDIRECT in *; lia].
    - apply zeros_get32. }
  split; [done|]. split; [done|]. split; [split|split].
  - intros b b' Hb1 Hb2. rewrite !Hb by done. by apply Hinj.
  - intros b Hb1. rewrite Hb, Ei by done. intros Hb0 E. apply Hnk. rewrite <- E. by apply owns_data.
  - intros i Hi. unfold fbyte. rewrite Hb by by apply block_index. destruct (Z.eqb_spec (baddr v a (i / BSIZE)) 0); [done|].
    by rewrite Hs by (apply owns_data; [by apply block_index|done]).
  - intros n [Hn [->|(b & Hb1 & E)]]; [right; congruence|left]. rewrite Hb in E by done. subst n. by apply owns_data.
Qed.

(** A part of block [bn] of the file is replaced. *)
Lemma file_write v a bn o bs : let n := baddr v a bn in let v' := upd v n (lput (v n) o bs) in
  file_apart v a -> 0 <= bn < MAXFILE -> n <> 0 -> 0 <= o -> o + Z.of_nat (length bs) <= BSIZE -> Z.of_nat (length (v n)) = BSIZE ->
  file_apart v' a /\ (forall b, 0 <= b < MAXFILE -> baddr v' a b = baddr v a b) /\ (forall m, owns v' a m <-> owns v a m) /\
  forall i, 0 <= i < MAXFILE * BSIZE -> fbyte v' a i =
    if decide (bn * BSIZE + o <= i < bn * BSIZE + o + Z.of_nat (length bs)) then nth (Z.to_nat (i - (bn * BSIZE + o))) bs 0
    else fbyte v a i.
Proof.
  intros n v' [Hinj Hind] Hbn Hn Ho Hl Hlen. assert (forall b, 0 <= b < MAXFILE -> baddr v' a b = baddr v a b) as Eb.
  { intros b Hb1. unfold baddr. destruct (b <? NDIRECT); [done|]. destruct (Z.eqb_spec (indirect a) 0); [done|].
    unfold v'. rewrite upd_ne; [done|]. apply not_eq_sym. by apply Hind. }
  split; [|split; [done|split]].
  - split; [intros b b' H1 H2|intros b H1]; rewrite !Eb by done; [by apply Hinj|by apply Hind].
  - intros m. unfold owns. split; intros [Hm [?|(b & Hb1 & E)]]; (split; [done|]); [by left| |by left|];
      right; exists b; (split; [done|]); [rewrite <- Eb by done|rewrite Eb by done]; done.
  - intros i Hi. unfold fbyte. rewrite Eb by by apply block_index. pose proof (Z_div_mod_eq_full i BSIZE) as Ei.
    pose proof (Z.mod_pos_bound i BSIZE ltac:(done)) as Hmod. destruct (decide (i / BSIZE = bn)) as [E|E].
    + rewrite E. fold n. rewrite (proj2 (Z.eqb_neq n 0)) by done. unfold v'. rewrite upd_eq, get8_lput by lia.
      repeat case_decide; first [done | lia | f_equal; lia].
    + rewrite decide_False by nia. destruct (Z.eqb_spec (baddr v a (i / BSIZE)) 0); [done|]. unfold v'. rewrite upd_ne; [done|].
      intros E'. apply E. by apply Hinj; [apply block_index|..].
Qed.
End change.

(** ** Inodes on the disk *)

Lemma lput_lookup d o bs i : 0 <= o -> o + Z.of_nat (length bs) <= Z.of_nat (length d) -> lput d o bs !! i =
  if decide (Z.to_nat o <= i < Z.to_nat o + length bs)%nat then bs !! (i - Z.to_nat o)%nat else d !! i.
Proof.
  intros Ho Hl. case_decide as Hi; [|apply lput_lookup_out; lia].
  pose proof (lsub_lput d o bs Ho ltac:(lia)) as E. unfold lsub in E.
  apply (f_equal (lookup (i - Z.to_nat o)%nat)) in E. rewrite lookup_take_lt, lookup_drop in E by lia.
  rewrite <- E. f_equal. lia.
Qed.

Lemma lput_lput d o bs bs' : length bs = length bs' -> 0 <= o -> o + Z.of_nat (length bs) <= Z.of_nat (length d) ->
  lput (lput d o bs) o bs' = lput d o bs'.
Proof.
  intros El Ho Hd. apply list_eq. intros i. rewrite !lput_lookup by (rewrite ?lput_length; lia).
  repeat case_decide; try done; lia.
Qed.

Lemma lput_app d o bs1 bs2 : 0 <= o -> o + Z.of_nat (length bs1 + length bs2) <= Z.of_nat (length d) ->
  lput (lput d o bs1) (o + Z.of_nat (length bs1)) bs2 = lput d o (bs1 ++ bs2).
Proof.
  intros Ho Hl. apply list_eq. intros i. rewrite !lput_lookup by (rewrite ?lput_length, ?length_app; lia). rewrite length_app.
  repeat case_decide; try lia; try done.
  - rewrite lookup_app_r by lia. f_equal. lia.
  - by rewrite lookup_app_l by lia.
Qed.

Lemma lsub_lput_in d o bs k m : 0 <= o -> o + Z.of_nat (length bs) <= Z.of_nat (length d) -> 0 <= k -> 0 <= m ->
  k + m <= Z.of_nat (length bs) -> lsub (lput d o bs) (o + k) m = lsub bs k m.
Proof.
  intros Ho Hl Hk Hm Hkm. pose proof (lsub_lput d o bs Ho ltac:(lia)) as E. apply list_eq. intros i. unfold lsub in *.
  destruct (decide (Z.of_nat i < m)) as [Hi|Hi]; [|by rewrite !lookup_take_ge by lia].
  rewrite !lookup_take_lt, !lookup_drop by lia.
  apply (f_equal (lookup (Z.to_nat k + i)%nat)) in E. rewrite lookup_take_lt, lookup_drop in E by lia.
  rewrite <- E. f_equal. lia.
Qed.

Lemma di_off_range inum : 0 <= di_off inum /\ di_off inum + DINODE_SIZE <= BSIZE.
Proof.
  unfold di_off. pose proof (Z.mod_pos_bound inum IPB ltac:(done)). change IPB with 16 in *.
  unfold DINODE_SIZE, BSIZE. lia.
Qed.

(** The 64 bytes of an inode. *)
Definition dinode_bytes (x : inode) : list Z :=
  le_bytes 2 (i_type x) ++ le_bytes 2 (i_major x) ++ le_bytes 2 (i_minor x) ++ le_bytes 2 (i_nlink x) ++
  le_bytes 4 (i_size x) ++ concat (ListDef.map (le_bytes 4) (i_addrs x)).

Lemma dinode_bytes_byte x : Forall byte (dinode_bytes x).
Proof.
  unfold dinode_bytes. rewrite !Forall_app. split_and!; try apply le_bytes_byte.
  induction (i_addrs x) as [|z zs IH]; cbn [ListDef.map concat]; [constructor|]. apply Forall_app. split; [apply le_bytes_byte|done].
Qed.

(** Values that the fields of an inode on the disk can hold. *)
Record dinode_ok (x : inode) : Prop := {
  dk_type : - 2 ^ 15 <= i_type x < 2 ^ 15;
  dk_major : - 2 ^ 15 <= i_major x < 2 ^ 15;
  dk_minor : - 2 ^ 15 <= i_minor x < 2 ^ 15;
  dk_nlink : - 2 ^ 15 <= i_nlink x < 2 ^ 15;
  dk_size : 0 <= i_size x < 2 ^ 32;
  dk_addrs : length (i_addrs x) = Z.to_nat (NDIRECT + 1) /\ Forall (fun z => 0 <= z < 2 ^ 32) (i_addrs x);
}.

Lemma addr_bytes_length zs : length (concat (ListDef.map (le_bytes 4) zs)) = (4 * length zs)%nat.
Proof. induction zs as [|z zs IH]; [done|]. cbn [ListDef.map concat]. rewrite length_app, le_bytes_length, IH. cbn. lia. Qed.

Lemma addr_bytes_at zs (i : nat) z : zs !! i = Some z ->
  lsub (concat (ListDef.map (le_bytes 4) zs)) (4 * Z.of_nat i) 4 = le_bytes 4 z.
Proof.
  revert i; induction zs as [|w zs IH]; intros [|i] Hi; [done..| |]; cbn [ListDef.map concat].
  - injection Hi as ->. done.
  - cbn in Hi. rewrite <- (IH i Hi). unfold lsub. rewrite drop_app_ge by (rewrite le_bytes_length; lia).
    rewrite le_bytes_length. do 2 f_equal. lia.
Qed.

Lemma dinode_length x : dinode_ok x -> Z.of_nat (length (dinode_bytes x)) = DINODE_SIZE.
Proof. intros [_ _ _ _ _ [Hl _]]. unfold dinode_bytes. rewrite !length_app, !le_bytes_length, addr_bytes_length, Hl. done. Qed.

Lemma put_dinode_eq d o x : dinode_ok x -> 0 <= o -> o + DINODE_SIZE <= Z.of_nat (length d) ->
  put_dinode d o x = lput d o (dinode_bytes x).
Proof.
  intros [_ _ _ _ _ [Hl _]] Ho Hd. unfold put_dinode, put16, put32, dinode_bytes, DINODE_SIZE in *. symmetry.
  pose proof (addr_bytes_length (i_addrs x)) as Hal. rewrite Hl in Hal. change (4 * Z.to_nat (NDIRECT + 1))%nat with 52%nat in Hal.
  rewrite <- lput_app by (rewrite ?length_app, ?le_bytes_length, ?Hal; lia). rewrite le_bytes_length.
  rewrite <- lput_app by (rewrite ?lput_length, ?length_app, ?le_bytes_length, ?Hal; lia). rewrite le_bytes_length.
  rewrite <- lput_app by (rewrite ?lput_length, ?length_app, ?le_bytes_length, ?Hal; lia). rewrite le_bytes_length.
  rewrite <- lput_app by (rewrite ?lput_length, ?length_app, ?le_bytes_length, ?Hal; lia). rewrite le_bytes_length.
  rewrite <- lput_app by (rewrite ?lput_length, ?length_app, ?le_bytes_length, ?Hal; lia). rewrite le_bytes_length.
  change (Z.of_nat 2) with 2. change (Z.of_nat 4) with 4. by rewrite <- !Z.add_assoc.
Qed.

Lemma i16_le z : - 2 ^ 15 <= z < 2 ^ 15 -> i16 (le_val (le_bytes 2 z)) = z.
Proof.
  intros Hz. rewrite le_val_bytes. unfold i16. change (8 * Z.of_nat 2) with 16.
  rewrite Zplus_mod_idemp_l, Z.mod_small by lia. lia.
Qed.

(** What [iupdate] stores, [ilock] loads. *)
Lemma load_put_dinode d o x y : dinode_ok x -> 0 <= o -> o + DINODE_SIZE <= Z.of_nat (length d) ->
  load_dinode (put_dinode d o x) o y = load_dinode (dinode_bytes x) 0 y /\
  load_dinode (dinode_bytes x) 0 y = set_i_addrs (i_addrs x) (set_i_size (i_size x) (set_i_nlink (i_nlink x)
    (set_i_minor (i_minor x) (set_i_major (i_major x) (set_i_type (i_type x) y))))).
Proof.
  intros Hx Ho Hd. pose proof (dinode_length x Hx) as Hlen. rewrite put_dinode_eq by done.
  assert (forall k m, 0 <= k -> 0 <= m -> k + m <= 64 -> lsub (lput d o (dinode_bytes x)) (o + k) m = lsub (dinode_bytes x) k m) as Hs.
  { intros k m Hk Hm Hkm. apply lsub_lput_in; rewrite ?Hlen; unfold DINODE_SIZE in *; lia. }
  destruct Hx as [Ht Hma Hmi Hn Hsz [Hal Ha]]. split.
  - assert (di_addrs (lput d o (dinode_bytes x)) o = di_addrs (dinode_bytes x) 0) as Ea.
    { unfold di_addrs, get32. apply map_ext_in. intros i [_ Hi]%in_seq. change (0 + Z.to_nat (NDIRECT + 1))%nat with 13%nat in Hi. by rewrite <- Z.add_assoc, Hs by lia. }
    pose proof (Hs 0 2 ltac:(lia) ltac:(lia) ltac:(lia)) as H0. rewrite Z.add_0_r in H0.
    unfold load_dinode, di_type, di_major, di_minor, di_nlink, di_size, get16, get32. by rewrite Ea, H0, !Hs by lia.
  - unfold load_dinode, di_type, di_major, di_minor, di_nlink, di_size, get16, get32.
    change (lsub (dinode_bytes x) 0 2) with (le_bytes 2 (i_type x)).
    change (lsub (dinode_bytes x) (0 + 2) 2) with (le_bytes 2 (i_major x)).
    change (lsub (dinode_bytes x) (0 + 4) 2) with (le_bytes 2 (i_minor x)).
    change (lsub (dinode_bytes x) (0 + 6) 2) with (le_bytes 2 (i_nlink x)).
    change (lsub (dinode_bytes x) (0 + 8) 4) with (le_bytes 4 (i_size x)).
    rewrite !i16_le, le_val_bytes, Z.mod_small by done. f_equal. unfold di_addrs. apply list_eq. intros i.
    destruct (decide (i < length (i_addrs x))%nat) as [Hi|Hi].
    + destruct (lookup_lt_is_Some_2 _ _ Hi) as [z Hz]. rewrite Hz. rewrite Hal in Hi.
      change (ListDef.map ?f ?l) with (f <$> l). rewrite list_lookup_fmap, lookup_seq_lt by done. cbn [fmap option_fmap option_map]. f_equal.
      unfold get32. replace (0 + 12 + 4 * Z.of_nat (0 + i)) with (12 + 4 * Z.of_nat i) by lia.
      assert (lsub (dinode_bytes x) (12 + 4 * Z.of_nat i) 4 = lsub (concat (ListDef.map (le_bytes 4) (i_addrs x))) (4 * Z.of_nat i) 4) as ->.
      { unfold lsub, dinode_bytes. rewrite !app_assoc. rewrite drop_app_ge by (rewrite !length_app, !le_bytes_length; lia).
        rewrite !length_app, !le_bytes_length. do 2 f_equal. lia. }
      rewrite (addr_bytes_at _ _ _ Hz), le_val_bytes. apply Z.mod_small. by apply (Forall_lookup_1 _ _ _ _ Ha Hz).
    + rewrite (lookup_ge_None_2 (i_addrs x)) by lia. apply lookup_ge_None_2. rewrite Hal in Hi. rewrite List.length_map, length_seq. lia.
Qed.
