(* ===== verification/FsAlloc.v ===== *)
(** * Allocation of disk blocks: balloc and bfree

    The bitmap as a set of block numbers; [balloc] takes the lowest free block
    and clears it, [bfree] gives one back. *)

From Stdlib Require Import FunctionalExtensionality.
From S2P Require Import Prelude Mem Riscv Locks Kalloc Kstate Proc ProcSpec Sleeplock SleeplockSpec Bio BioSpec CacheOps Blk Log LogSpec LogOps FsOps Fs FileData.
Import Proc Sleeplock Bio Log Fs.

(** ** Bits of a block *)

Lemma bit_used_testbit d k : 0 <= k -> bit_used d k = Z.testbit (get8 d (k / 8)) (k mod 8).
Proof.
  intros Hk. unfold bit_used, bit_mask. pose proof (Z.mod_pos_bound k 8 ltac:(lia)) as Hm.
  set (a := get8 d (k / 8)). set (i := k mod 8) in *.
  destruct (Z.testbit a i) eqn:E.
  - apply negb_true_iff, Z.eqb_neq. intros H. apply (f_equal (fun z => Z.testbit z i)) in H.
    rewrite Z.land_spec, E, Z.shiftl_spec, Z.sub_diag, Z.bits_0 in H by lia. done.
  - apply negb_false_iff, Z.eqb_eq. apply Z.bits_inj'. intros j Hj. rewrite Z.land_spec, Z.bits_0, Z.shiftl_1_l.
    destruct (decide (j = i)) as [->|Hne]; [by rewrite E|]. by rewrite Z.pow2_bits_false, andb_false_r by lia.
Qed.

Lemma get8_byte d o : full_block d -> byte (get8 d o).
Proof.
  intros [_ Hd]. unfold get8. destruct (nth_in_or_default (Z.to_nat o) d 0) as [H| ->]; [|unfold byte; lia].
  rewrite Forall_forall in Hd. by apply Hd, list_elem_of_In.
Qed.

Lemma get8_put8 d o v o' : full_block d -> 0 <= o < BSIZE -> 0 <= o' < BSIZE -> byte v ->
  get8 (put8 d o v) o' = if decide (o' = o) then v else get8 d o'.
Proof.
  intros [Hl _] Ho Ho' Hv. unfold get8, put8. rewrite u8_small by done. unfold byte in Hv.
  rewrite !nth_lookup. case_decide as E.
  - subst. pose proof (lsub_lput d o [v] ltac:(lia) ltac:(cbn; lia)) as H. unfold lsub in H.
    apply (f_equal (fun l => l !! 0%nat)) in H. cbn in H. rewrite lookup_take_lt, lookup_drop, Nat.add_0_r in H by lia.
    by rewrite H.
  - rewrite lput_lookup_out; [done|lia|cbn; lia|cbn; lia].
Qed.

Lemma put8_full d o v : full_block d -> full_block (put8 d o v).
Proof. intros Hd. apply lput_full; [done|]. apply Forall_singleton, u8_range. Qed.

(** Setting and clearing a bit. *)
Definition with_bit (d : list Z) (k : Z) (b : bool) : list Z :=
  put8 d (k / 8) (if b then Z.lor (get8 d (k / 8)) (bit_mask k) else Z.land (get8 d (k / 8)) (Z.lnot (bit_mask k))).

Lemma byte_bits a : 0 <= a -> (forall i, 8 <= i -> Z.testbit a i = false) -> byte a.
Proof.
  intros Ha H. split; [done|]. destruct (decide (a < 256)); [done|]. exfalso.
  assert (0 < a) by lia. pose proof (Z.log2_le_pow2 a 8 ltac:(lia)) as [H1 _].
  specialize (H (Z.log2 a) (H1 ltac:(lia))). rewrite Z.bit_log2 in H by lia. done.
Qed.

Lemma with_bit_byte d k (b : bool) : full_block d -> 0 <= k ->
  byte (if b then Z.lor (get8 d (k / 8)) (bit_mask k) else Z.land (get8 d (k / 8)) (Z.lnot (bit_mask k))).
Proof.
  intros Hd Hk. pose proof (get8_byte d (k / 8) Hd) as Ha. set (a := get8 d (k / 8)) in *. unfold byte in Ha.
  pose proof (Z.mod_pos_bound k 8 ltac:(lia)) as Hm. unfold bit_mask. rewrite Z.shiftl_1_l.
  assert (forall i, 8 <= i -> Z.testbit a i = false) as Hhi.
  { intros i Hi. destruct (decide (a = 0)) as [->|]; [apply Z.bits_0|]. apply Z.bits_above_log2; [lia|].
    apply Z.log2_lt_pow2; [lia|]. apply Z.lt_le_trans with (2 ^ 8); [lia|]. by apply Z.pow_le_mono_r. }
  apply byte_bits.
  - destruct b; [apply Z.lor_nonneg; split; [lia|]; by apply Z.pow_nonneg|apply Z.land_nonneg; lia].
  - intros i Hi. destruct b; [rewrite Z.lor_spec, Hhi, Z.pow2_bits_false by lia; done|].
    by rewrite Z.land_spec, Hhi by lia.
Qed.

Lemma bit_used_with d k b j : full_block d -> 0 <= k < BPB -> 0 <= j < BPB ->
  bit_used (with_bit d k b) j = if decide (j = k) then b else bit_used d j.
Proof.
  intros Hd Hk Hj. rewrite !bit_used_testbit by lia. unfold with_bit.
  assert (BPB = 8 * BSIZE) as EB by done.
  pose proof (Z_div_mod_eq_full k 8). pose proof (Z_div_mod_eq_full j 8).
  pose proof (Z.mod_pos_bound k 8 ltac:(lia)). pose proof (Z.mod_pos_bound j 8 ltac:(lia)).
  rewrite get8_put8; [|done|lia|lia|by apply with_bit_byte; [|lia]].
  destruct (decide (j / 8 = k / 8)) as [E|E]; [|rewrite decide_False by congruence; done].
  unfold bit_mask. rewrite Z.shiftl_1_l. destruct (decide (j = k)) as [->|Hne].
  - destruct b; [by rewrite Z.lor_spec, Z.pow2_bits_true, orb_true_r by lia|].
    by rewrite Z.land_spec, Z.lnot_spec, Z.pow2_bits_true, andb_false_r by lia.
  - assert (j mod 8 <> k mod 8) as Hm by (intros Em; apply Hne; lia). rewrite <- E.
    destruct b; [by rewrite Z.lor_spec, Z.pow2_bits_false, orb_false_r by lia|].
    by rewrite Z.land_spec, Z.lnot_spec, Z.pow2_bits_false, andb_true_r by lia.
Qed.

Lemma with_bit_full d k b : full_block d -> 0 <= k < BPB -> full_block (with_bit d k b).
Proof.
  intros Hd Hk. assert (BPB = 8 * BSIZE) as EB by done. by apply put8_full.
Qed.

(** The inner loop finds the first free bit. *)
Lemma balloc_scan_spec k d b size bi : BPB - bi <= Z.of_nat k -> 0 <= bi ->
  match balloc_scan k d b size bi with
  | Some r => bi <= r < BPB /\ b + r < size /\ bit_used d r = false /\ forall j, bi <= j < r -> bit_used d j = true
  | None => forall j, bi <= j < BPB -> b + j < size -> bit_used d j = true
  end.
Proof.
  revert bi; induction k as [|k IH]; intros bi Hk Hbi; cbn [balloc_scan]; [intros j Hj; lia|].
  destruct (negb (bi <? BPB) || negb (b + bi <? size)) eqn:E.
  { intros j Hj Hs. apply orb_true_iff in E as [E|E]; bdestr; lia. }
  bdestr. destruct (bit_used d bi) eqn:Eu; cbn [negb].
  - specialize (IH (bi + 1) ltac:(lia) ltac:(lia)). destruct (balloc_scan k d b size (bi + 1)) as [r|].
    + destruct IH as (H1 & H2 & H3 & H4). split; [lia|]. split; [done|]. split; [done|]. intros j Hj.
      destruct (decide (j = bi)) as [->|]; [done|]. apply H4. lia.
    + intros j Hj Hs. destruct (decide (j = bi)) as [->|]; [done|]. apply IH; lia.
  - split; [lia|]. split; [lia|]. split; [done|]. intros; lia.
Qed.

(** ** The bitmap *)

Section bitmap.
Context (sbk : superblock) (h : gmap Z nat).
Local Abbreviation size := (sb_size sbk).

(** Block [k] is in use, according to the bitmap. *)
Definition used (v : Z -> list Z) (k : Z) : bool := bit_used (v (BBLOCK k sbk)) (k mod BPB).

(** A disk whose blocks outside the log are full, and whose bitmap marks its own
    blocks and those of the log. *)
Record disk_ok (v : Z -> list Z) : Prop := {
  do_size : 0 <= size < 2 ^ 31;
  do_full : forall n, 0 <= n < size -> ~ log_area sbk n -> full_block (v n);
  do_map : forall n, 0 <= n < size -> 0 <= BBLOCK n sbk < size /\ used v (BBLOCK n sbk) = true;
  do_log : forall n, log_area sbk n -> 0 <= n < size /\ used v n = true;
  do_apart : forall n j, log_area sbk n -> 0 <= j < size -> BBLOCK j sbk <> n;
}.

(** The blocks in use are neither free nor part of the bitmap. *)
Definition held_ok (v : Z -> list Z) : Prop :=
  forall n, is_Some (h !! n) -> used v n = true /\ forall j, 0 <= j < size -> BBLOCK j sbk <> n.

Lemma held_free v n : held_ok v -> used v n = false -> h !! n = None.
Proof. intros Hh Hu. destruct (h !! n) eqn:E; [|done]. destruct (Hh n) as [Hu' _]; [by eexists|congruence]. Qed.

Lemma held_map v j : held_ok v -> 0 <= j < size -> h !! BBLOCK j sbk = None.
Proof. intros Hh Hj. destruct (h !! BBLOCK j sbk) eqn:E; [|done]. destruct (Hh (BBLOCK j sbk)) as [_ Hn]; [by eexists|]. by destruct (Hn j Hj). Qed.

Lemma lzero_full d : full_block d -> lzero d 0 BSIZE = zeros.
Proof.
  intros [Hl _]. unfold lzero, lput, zeros. change (Z.to_nat 0) with 0%nat. rewrite take_0, app_nil_l, repeat_length.
  rewrite drop_ge by lia. rewrite app_nil_r. apply take_ge. rewrite repeat_length. lia.
Qed.

Lemma BBLOCK_same q bi : 0 <= bi < BPB -> BBLOCK (BPB * q + bi) sbk = BBLOCK (BPB * q) sbk /\ (BPB * q + bi) mod BPB = bi.
Proof.
  intros Hbi. unfold BBLOCK. rewrite <- (Z.div_unique (BPB * q + bi) BPB q bi), <- (Z.mod_unique (BPB * q + bi) BPB q bi) by lia.
  by rewrite <- (Z.div_unique (BPB * q) BPB q 0) by lia.
Qed.

Lemma BBLOCK_inj j k : 0 <= j < 2 ^ 31 -> 0 <= k < 2 ^ 31 -> BBLOCK j sbk = BBLOCK k sbk -> j mod BPB = k mod BPB -> j = k.
Proof.
  unfold BBLOCK, u32. intros Hj Hk E Em. pose proof (Z_div_mod_eq_full j BPB). pose proof (Z_div_mod_eq_full k BPB).
  assert (forall z, 0 <= z < 2 ^ 31 -> 0 <= z / BPB < 2 ^ 31) as Hz.
  { intros z Hz. split; [by apply Z.div_pos; [lia|]|]. apply Z.div_lt_upper_bound; [done|]. unfold BPB, BSIZE. lia. }
  pose proof (Hz j Hj). pose proof (Hz k Hk).
  apply (f_equal (fun z => (z - sb_bmapstart sbk) mod 2 ^ 32)) in E. rewrite !Zminus_mod_idemp_l in E.
  replace (j / BPB + sb_bmapstart sbk - sb_bmapstart sbk) with (j / BPB) in E by lia.
  replace (k / BPB + sb_bmapstart sbk - sb_bmapstart sbk) with (k / BPB) in E by lia.
  rewrite !Z.mod_small in E by lia. lia.
Qed.

(** The disk after a bit of the bitmap has changed. *)
Lemma set_used v k b : disk_ok v -> 0 <= k < size -> (b = false -> (forall n, 0 <= n < size -> BBLOCK n sbk <> k) /\ ~ log_area sbk k) ->
  let v' := upd v (BBLOCK k sbk) (with_bit (v (BBLOCK k sbk)) (k mod BPB) b) in
  disk_ok v' /\ forall j, 0 <= j < size -> used v' j = if decide (j = k) then b else used v j.
Proof.
  intros Hd Hk Hb v'. destruct (do_map v Hd k Hk) as [Hm _]. pose proof (do_full v Hd _ Hm (fun Hl => do_apart v Hd _ k Hl Hk eq_refl)) as Hfull.
  pose proof (Z.mod_pos_bound k BPB ltac:(done)) as Hkm.
  assert (forall j, 0 <= j < size -> used v' j = if decide (j = k) then b else used v j) as Hu.
  { intros j Hj. unfold used, v'. pose proof (Z.mod_pos_bound j BPB ltac:(done)) as Hjm.
    destruct (decide (BBLOCK j sbk = BBLOCK k sbk)) as [E|E].
    - rewrite E, upd_eq, bit_used_with by done. destruct (decide (j = k)) as [->|Hne]; [by rewrite decide_True|].
      rewrite decide_False; [done|]. intros Em. apply Hne. pose proof (do_size v Hd). apply BBLOCK_inj; [lia|lia|done|done].
    - rewrite upd_ne by done. rewrite decide_False; [done|]. by intros ->. }
  split; [|done]. split; [apply Hd| | | |apply (do_apart v Hd)].
  - intros n Hn Hl. unfold v'. destruct (decide (n = BBLOCK k sbk)) as [->|Hne]; [|rewrite upd_ne by done; by apply (do_full v Hd)].
    rewrite upd_eq. by apply with_bit_full.
  - intros n Hn. destruct (do_map v Hd n Hn) as [H1 H2]. split; [done|]. rewrite Hu by done. case_decide as E; [|done].
    destruct b; [done|]. destruct (Hb eq_refl) as [Hb' _]. destruct (Hb' n Hn E).
  - intros n Hn. destruct (do_log v Hd n Hn) as [H1 H2]. split; [done|]. rewrite Hu by done. case_decide as E; [|done].
    destruct b; [done|]. subst. by destruct (Hb eq_refl).
Qed.

Lemma used_in_block v q j : BPB * q <= j < BPB * (q + 1) -> used v j = bit_used (v (BBLOCK (BPB * q) sbk)) (j - BPB * q).
Proof.
  intros Hj. destruct (BBLOCK_same q (j - BPB * q) ltac:(lia)) as [EB EM].
  replace (BPB * q + (j - BPB * q)) with j in EB, EM by lia. unfold used. by rewrite EB, EM.
Qed.

(** A free block is none of the bitmap's. *)
Lemma free_not_map v k : disk_ok v -> 0 <= k < size -> used v k = false -> forall j, 0 <= j < size -> BBLOCK j sbk <> k.
Proof. intros Hd Hk Hfree j Hj E. destruct (do_map v Hd j Hj) as [_ Hju]. congruence. Qed.

(** Neither is it one of the log's. *)
Lemma free_not_log v k : disk_ok v -> used v k = false -> ~ log_area sbk k.
Proof. intros Hd Hfree Hl. destruct (do_log v Hd k Hl). congruence. Qed.

Lemma map_not_log v k : disk_ok v -> 0 <= k < size -> ~ log_area sbk (BBLOCK k sbk).
Proof. intros Hd Hk Hl. by destruct (do_apart v Hd _ k Hl Hk). Qed.

End bitmap.

(** ** balloc and bfree *)

Section alloc.
Context (p : nat) (x : proc) (s0 : kstate) (D : Z -> list Z) (W : list (Z * list Z)) (h : gmap Z nat).
Local Abbreviation sbk := (sb s0).
Local Abbreviation size := (sb_size (sb s0)).
Local Abbreviation fs := (fsx p x s0 D W h).
Local Abbreviation used := (used (sb s0)).
Local Abbreviation disk_ok := (disk_ok (sb s0)).
Local Abbreviation held_ok := (held_ok (sb s0) h).
Local Abbreviation nh := (Z.of_nat (base.size h)).

(** [bread]; change the block with [f]; [log_write]; [brelse]. *)
Lemma update_fs v l s n (f : list Z -> list Z) : fs v l s -> h !! n = None -> block_ok n -> log_room (1 + nh) l ->
  exists b s1 l' s', bread ROOTDEV n s = Ret b s1 /\ bdata b s1 = Ret (v n) s1 /\
    (set_bdata b (f (v n));; log_write b;; brelse b)%K s1 = Ret tt s' /\ recorded n l l' /\
    fs (upd v n (f (v n))) l' s'.
Proof.
  intros H Hh Hn Hl.
  destruct (bread_fs p x s0 D W h v l s n H Hh) as (b & s1 & E1 & H1); [by apply (room_bufs (1 + nh)); [|lia]|].
  destruct (set_bdata_fs p x s0 D W _ v l n b s1 (f (v n)) H1) as (s2 & E2 & H2); [apply lookup_insert_eq|].
  destruct (log_brelse_fs p x s0 D W _ _ l n b s2 H2) as (l' & s3 & E3 & Hrec & H3);
    [apply lookup_insert_eq|done|by apply (log_room_less (1 + nh)); [|lia]|].
  rewrite delete_insert_id in H3 by done.
  exists b, s1, l', s3. split; [done|]. split; [eapply bdata_fs; [done|apply lookup_insert_eq]|].
  split; [by erewrite bind_Ret by exact E2|done].
Qed.

Lemma bzero_fs v l s n : fs v l s -> h !! n = None -> block_ok n -> log_room (1 + nh) l -> full_block (v n) ->
  exists l' s', bzero ROOTDEV n s = Ret tt s' /\ recorded n l l' /\ fs (upd v n zeros) l' s'.
Proof.
  intros H Hh Hn Hl Hf. destruct (update_fs v l s n (fun d => lzero d 0 BSIZE) H Hh Hn Hl) as (b & s1 & l' & s' & E1 & E2 & E3 & Hrec & H').
  exists l', s'. rewrite lzero_full in H' by done. split; [|done]. unfold bzero.
  erewrite bind_Ret by exact E1. by erewrite bind_Ret by exact E2.
Qed.

(** What [balloc] has done when it returns block [k]. *)
Definition allocated (v : Z -> list Z) (l : logst) (k : Z) (s' : kstate) : Prop :=
  exists v' l', 0 <= k < size /\ used v k = false /\ (forall j, 0 <= j < k -> used v j = true) /\
    fs v' l' s' /\ disk_ok v' /\ v' k = zeros /\
    (forall j, 0 <= j < size -> used v' j = if decide (j = k) then true else used v j) /\
    (forall n, n <> k -> n <> BBLOCK k sbk -> v' n = v n) /\
    k ∈ txn l' /\ BBLOCK k sbk ∈ txn l' /\ (forall n, n ∈ txn l -> n ∈ txn l') /\
    log_step sbk l l' /\ lh_n l' <= lh_n l + if decide (BBLOCK k sbk ∈ txn l) then 1 else 2.

Lemma allocated_intro v l l1 l2 s' k : disk_ok v -> 0 <= k < size -> used v k = false ->
  (forall j, 0 <= j < k -> used v j = true) -> recorded (BBLOCK k sbk) l l1 -> recorded k l1 l2 ->
  let v1 := upd v (BBLOCK k sbk) (with_bit (v (BBLOCK k sbk)) (k mod BPB) true) in
  fs (upd v1 k zeros) l2 s' -> allocated v l k s'.
Proof.
  intros Hd Hk Hfree Hlow Hrec Hrec2 v1 H. destruct (set_used sbk v k true Hd Hk ltac:(done)) as [Hd1 Hu1]. fold v1 in Hd1, Hu1.
  pose proof (free_not_map sbk v k Hd Hk Hfree) as Hnb.
  assert (forall j, 0 <= j < size -> used (upd v1 k zeros) j = used v1 j) as Hsame.
  { intros j Hj. unfold used. by rewrite upd_ne by (by apply Hnb). }
  exists (upd v1 k zeros), l2. do 4 (split; [done|]). split; [split; [apply Hd| | | |]|].
  - intros n Hn Hl. destruct (decide (n = k)) as [->|]; [rewrite upd_eq; apply zeros_full|].
    rewrite upd_ne by done. by apply (do_full sbk _ Hd1).
  - intros n Hn. destruct (do_map sbk _ Hd1 n Hn). split; [done|]. by rewrite Hsame.
  - intros n Hn. destruct (do_log sbk _ Hd1 n Hn). split; [done|]. by rewrite Hsame.
  - apply (do_apart sbk _ Hd1).
  - split; [by rewrite upd_eq|]. split; [intros j Hj; rewrite Hsame by done; by apply Hu1|].
    split; [intros n Hn1 Hn2; unfold v1; by rewrite !upd_ne|]. split; [by eapply recorded_in|].
    split; [eapply recorded_sub; [done|]; by eapply recorded_in|].
    split; [intros n Hn; eapply recorded_sub; [done|]; by eapply recorded_sub|].
    split; [eapply log_step_trans; [eapply (recorded_step _ _ _ _ Hrec); by eapply map_not_log|
                                    eapply (recorded_step _ _ _ _ Hrec2); by apply (free_not_log sbk v)]|].
    destruct Hrec2 as (_ & -> & _), Hrec as (_ & -> & _). repeat case_decide; lia.
Qed.

(** One bitmap block: it has a free block, or the loop goes on. *)
Lemma balloc_step v l s q : fs v l s -> disk_ok v -> held_ok v -> log_room (2 + nh) l -> 0 <= BPB * q < size ->
  (forall j, 0 <= j < BPB * q -> used v j = true) ->
  (exists k s', balloc_body ROOTDEV (BPB * q) s = Ret (inr k) s' /\ allocated v l k s') \/
  (exists s', balloc_body ROOTDEV (BPB * q) s = Ret (inl (BPB * (q + 1))) s' /\ fs v l s' /\
     forall j, 0 <= j < BPB * (q + 1) -> j < size -> used v j = true).
Proof.
  intros H Hd Hh Hl Hq Hall. pose proof (do_size sbk v Hd) as Hsz. destruct (do_map sbk v Hd _ Hq) as [Hm _].
  pose proof (held_map sbk h v _ Hh Hq) as Hhm. unfold balloc_body. erewrite bind_Ret by reflexivity.
  rewrite (sb_fs _ _ _ _ _ _ _ _ _ _ (proj1 H)), (proj2 (Z.ltb_lt _ _)) by lia.
  pose proof (balloc_scan_spec (Z.to_nat BPB) (v (BBLOCK (BPB * q) sbk)) (BPB * q) size 0 ltac:(lia) ltac:(lia)) as Hscan.
  destruct (balloc_scan _ _ _ _ _) as [bi|] eqn:Es.
  - left. destruct Hscan as (Hbi & Hlt & Hfree & Hfirst). destruct (BBLOCK_same sbk q bi ltac:(lia)) as [EB EM].
    assert (0 <= BPB * q + bi < size) as Hk by lia.
    assert (used v (BPB * q + bi) = false) as Hfk by (unfold used; by rewrite EB, EM).
    destruct (update_fs v l s (BBLOCK (BPB * q) sbk) (fun d => with_bit d bi true) H) as (b & s1 & l1 & s2 & E1 & E2 & E3 & Hrec & H2);
      [done|unfold block_ok; lia|by apply (log_room_less (2 + nh)); [|lia]|].
    destruct (bzero_fs _ l1 s2 (BPB * q + bi) H2) as (l2 & s3 & E4 & Hrec2 & H3).
    { by apply (held_free sbk h v). }
    { unfold block_ok. lia. }
    { apply (recorded_room _ (1 + nh) _ _ Hrec). by replace (1 + nh + 1) with (2 + nh) by lia. }
    { rewrite upd_ne by (apply not_eq_sym; by apply (free_not_map sbk v)). apply (do_full sbk _ Hd); [done|by apply (free_not_log sbk v)]. }
    exists (BPB * q + bi), s3. split.
    + erewrite bind_Ret by exact E1. erewrite bind_Ret by exact E2. rewrite Es.
      rewrite (bind_Ret3 _ _ _ _ _ _ _ E3). by erewrite bind_Ret by exact E4.
    + eapply allocated_intro; rewrite ?EB, ?EM; [done..| |done|done|done].
      intros j Hj. destruct (decide (j < BPB * q)); [apply Hall; lia|]. rewrite (used_in_block sbk v q) by lia. apply Hfirst. lia.
  - right. destruct (read_fs p x s0 D W h v l s (BBLOCK (BPB * q) sbk) H Hhm) as (b & s1 & s2 & E1 & Ed & _ & E2 & H2);
      [by apply (room_bufs (2 + nh)); [|lia]|].
    exists s2. split; [|split; [done|]].
    + erewrite bind_Ret by exact E1. erewrite bind_Ret by exact Ed. rewrite Es.
      erewrite bind_Ret by exact E2. cbn. do 2 f_equal. lia.
    + intros j Hj Hjs. destruct (decide (j < BPB * q)); [apply Hall; lia|]. rewrite (used_in_block sbk v q) by lia. apply Hscan; lia.
Qed.

(** The loop over the bitmap blocks, from block [q] of the bitmap on. *)
Lemma balloc_loop v l m : disk_ok v -> held_ok v -> log_room (2 + nh) l -> forall q s, fs v l s -> 0 <= BPB * q ->
  size - BPB * q <= BPB * Z.of_nat m -> (forall j, 0 <= j < BPB * q -> j < size -> used v j = true) ->
  (exists k s', iter_n (S m) (balloc_body ROOTDEV) (BPB * q) s = Ret (inr k) s' /\ allocated v l k s') \/
  (iter_n (S m) (balloc_body ROOTDEV) (BPB * q) s = Panic "balloc: out of blocks" /\
   forall j, 0 <= j < size -> used v j = true).
Proof.
  intros Hd Hh Hl. induction m as [|m IH]; intros q s H Hq Hm Hall.
  - right. rewrite iter_n_1. unfold balloc_body. erewrite bind_Ret by reflexivity.
    rewrite (sb_fs _ _ _ _ _ _ _ _ _ _ (proj1 H)), (proj2 (Z.ltb_ge _ _)) by lia. split; [done|]. intros j Hj. apply Hall; lia.
  - destruct (decide (BPB * q < size)) as [Hlt|Hge].
    + destruct (balloc_step v l s q H Hd Hh Hl ltac:(lia)) as [(k & s' & E & Ha)|(s' & E & H' & Hall')].
      { intros j Hj. apply Hall; lia. }
      * left. exists k, s'. split; [by apply iter_n_inr|done].
      * rewrite (iter_n_inl _ _ _ _ _ _ E). apply IH; [done|unfold BPB, BSIZE in *; lia|lia|done].
    + right. split; [|intros j Hj; apply Hall; lia]. cbn [iter_n]. unfold balloc_body at 1, bind. cbn [gets bindr].
      by rewrite (sb_fs _ _ _ _ _ _ _ _ _ _ (proj1 H)), (proj2 (Z.ltb_ge _ _)) by lia.
Qed.

Lemma balloc_fs v l s : fs v l s -> disk_ok v -> held_ok v -> log_room (2 + nh) l ->
  (exists k s', balloc ROOTDEV s = Ret k s' /\ allocated v l k s') \/
  (balloc ROOTDEV s = Panic "balloc: out of blocks" /\ forall j, 0 <= j < size -> used v j = true).
Proof.
  intros H Hd Hh Hl. pose proof (do_size sbk v Hd) as Hsz.
  assert (size - BPB * 0 <= BPB * Z.of_nat (Z.to_nat size)) as Hn by (rewrite Z2Nat.id by lia; unfold BPB, BSIZE; lia).
  pose proof (balloc_loop v l (Z.to_nat size) Hd Hh Hl 0 s H ltac:(lia) Hn ltac:(lia)) as Hloop. rewrite Z.mul_0_r in Hloop.
  destruct Hloop as [(k & s' & E & Ha)|[E Hall]].
  - left. exists k, s'. split; [|done].
    apply (loop_exit (S (Z.to_nat size)) (balloc_body ROOTDEV) 0 s k s' ltac:(lia) E).
  - right. split; [|done].
    apply (loop_panic (S (Z.to_nat size)) (balloc_body ROOTDEV) 0 s _ ltac:(lia) E).
Qed.

Lemma bfree_fs v l s k : fs v l s -> disk_ok v -> held_ok v -> log_room (1 + nh) l -> 0 <= k < size ->
  (used v k = false -> bfree ROOTDEV k s = Panic "freeing free block") /\
  (used v k = true -> (forall n, 0 <= n < size -> BBLOCK n sbk <> k) -> ~ log_area sbk k ->
   exists v' l' s', bfree ROOTDEV k s = Ret tt s' /\ fs v' l' s' /\ disk_ok v' /\ recorded (BBLOCK k sbk) l l' /\
     (forall j, 0 <= j < size -> used v' j = if decide (j = k) then false else used v j) /\
     (forall n, n <> BBLOCK k sbk -> v' n = v n)).
Proof.
  intros H Hd Hh Hl Hk. destruct (do_map sbk v Hd k Hk) as [Hm _]. pose proof (do_size sbk v Hd).
  destruct (update_fs v l s (BBLOCK k sbk) (fun d => with_bit d (k mod BPB) false) H)
    as (b & s1 & l1 & s2 & E1 & E2 & E3 & Hrec & H2); [by apply (held_map sbk h v)|unfold block_ok; lia|done|].
  unfold bfree. erewrite bind_Ret by reflexivity. rewrite (sb_fs _ _ _ _ _ _ _ _ _ _ (proj1 H)).
  erewrite bind_Ret by exact E1. erewrite bind_Ret by exact E2. fold (used v k). split; [by intros ->|].
  intros -> Hnb Hnl. cbn [negb]. destruct (set_used sbk v k false Hd Hk ltac:(done)) as [Hd' Hu'].
  eexists _, l1, s2. split; [exact E3|]. split; [done|]. do 3 (split; [done|]). intros n Hn. by rewrite upd_ne.
Qed.
End alloc.

(** C19: allocation of disk blocks inside an operation that has the buffers [h]
    in use.  [balloc] returns the lowest block the bitmap has free: the block is
    marked in use, no other mark changes, the block reads as zeros, the blocks
    other than it and its bitmap block are as they were, and both are in the
    log; it panics exactly when no block is free.  [bfree] of a block in use that
    holds no part of the bitmap or the log clears its mark and no other, and
    panics on a free block. *)
Theorem balloc_bfree_correct p x s0 D W h v l s : let size := sb_size (sb s0) in
  fsx p x s0 D W h v l s -> disk_ok (sb s0) v -> held_ok (sb s0) h v -> log_room (2 + Z.of_nat (base.size h)) l ->
  ((exists k, 0 <= k < size /\ used (sb s0) v k = false) ->
     exists k s', balloc ROOTDEV s = Ret k s' /\ allocated p x s0 D W h v l k s') /\
  ((forall k, 0 <= k < size -> used (sb s0) v k = true) -> balloc ROOTDEV s = Panic "balloc: out of blocks") /\
  (forall k, 0 <= k < size -> used (sb s0) v k = false -> bfree ROOTDEV k s = Panic "freeing free block") /\
  (forall k, 0 <= k < size -> used (sb s0) v k = true -> (forall n, 0 <= n < size -> BBLOCK n (sb s0) <> k) ->
     ~ log_area (sb s0) k ->
     exists v' l' s', bfree ROOTDEV k s = Ret tt s' /\ fsx p x s0 D W h v' l' s' /\ disk_ok (sb s0) v' /\
       recorded (BBLOCK k (sb s0)) l l' /\
       (forall j, 0 <= j < size -> used (sb s0) v' j = if decide (j = k) then false else used (sb s0) v j) /\
       (forall n, n <> BBLOCK k (sb s0) -> v' n = v n)).
Proof.
  intros size H Hd Hh Hl. pose proof (balloc_fs p x s0 D W h v l s H Hd Hh Hl) as Hb.
  assert (log_room (1 + Z.of_nat (base.size h)) l) as Hl1 by (eapply log_room_less; [done|lia]).
  pose proof (fun k => bfree_fs p x s0 D W h v l s k H Hd Hh Hl1) as Hf. split_and!.
  - intros (k & Hk & Hu). destruct Hb as [Hb|[_ Hall]]; [done|]. rewrite (Hall k Hk) in Hu. done.
  - intros Hall. destruct Hb as [(k & s' & _ & (v' & l' & Hk & Hu & _))|[Hb _]]; [|done]. rewrite Hall in Hu by done. done.
  - intros k Hk. by apply Hf.
  - intros k Hk. by apply Hf.
Qed.

(** ** A concrete disk, inside an operation *)

Definition demo_image (d : gmap Z (list Z)) (b : superblock) (it : list inode) : kstate :=
  set_itable it (set_sb b (set_disk d demo_disk)).
Definition demo_oplog : logst := MkLog 2 40 1 false 1 0 (repeat 0 30).

Lemma demo_image_fs (d : gmap Z (list Z)) b it : exists s0 s,
  let v := fun n => default zeros (d !! n) in
  fsx 0 demo_proc s0 v [] ∅ v demo_oplog s /\ sb s0 = b /\ itable s0 = it.
Proof.
  destruct (binit_crep (demo_image d b it)) as (bs & E & Hc); [done|done|].
  assert (thread 0 demo_proc (set_bufs bs (demo_image d b it))) as Ht by (by repeat split).
  pose proof (cst_set_log _ _ _ _ _ _ _ _ _ demo_oplog (cst_start 0 demo_proc _ _ _ _ _ Ht Hc)) as H.
  exists (set_bufs bs (demo_image d b it)), (set_log demo_oplog (set_bufs bs (demo_image d b it))). cbn zeta.
  split; [|split; reflexivity]. split; [|by intros n c]. assert (refs demo_oplog ∅ = fun _ => 0) as ->.
  { apply functional_extensionality; intros n; unfold refs, pins.
    rewrite decide_False; [done|by vm_compute; intros ?%elem_of_nil]. }
  exact H.
Qed.

(** One block of bitmap, in block 1, on a disk of [size] blocks. *)
Lemma demo_bitmap_ok size (c : Z) x1 x2 x3 x5 : let b := MkSuperblock x1 size x2 x3 0 x5 2 1 in
  let v := fun n => default zeros (({[1 := c :: repeat 0 1023]} : gmap Z (list Z)) !! n) in
  1 < size <= 8 -> byte c -> Z.testbit c 1 = true ->
  disk_ok b v /\ forall n, 0 <= n < size -> BBLOCK n b = 1 /\ used b v n = Z.testbit c n.
Proof.
  intros b v Hs Hc H1. assert (forall n, 0 <= n < size -> BBLOCK n b = 1 /\ used b v n = Z.testbit c n) as Hu.
  { intros n Hn. assert (BBLOCK n b = 1) as E by (unfold BBLOCK; rewrite Z.div_small by (unfold BPB, BSIZE; lia); done).
    split; [done|]. unfold used. rewrite E, bit_used_testbit by (apply Z.mod_pos_bound; done).
    rewrite (Z.mod_small n BPB), Z.div_small, (Z.mod_small n 8) by (unfold BPB, BSIZE; lia). done. }
  split; [|done]. split; [cbn; lia|..].
  - intros n Hn _. unfold v. destruct (decide (n = 1)) as [->|Hne].
    + rewrite lookup_singleton_eq. split; [vm_compute; reflexivity|]. cbn [default]. constructor; [done|exact (zero_bytes 1023)].
    + rewrite lookup_singleton_ne by done. exact zeros_full.
  - intros n Hn. destruct (Hu n Hn) as [-> _]. split; [cbn in *; lia|]. rewrite (proj2 (Hu 1 ltac:(cbn in *; lia))). done.
  - intros n Hn. unfold log_area, in_log in Hn. cbn in Hn. lia.
  - intros n j Hn. unfold log_area, in_log in Hn. cbn in Hn. lia.
Qed.

Lemma demo_log_room k : k <= 30 -> log_room k demo_oplog.
Proof.
  intros Hk. split; [split; [split; vm_compute; discriminate|split; [reflexivity|constructor]]|].
  cbn. change LOGSIZE with 30. lia.
Qed.

Lemma balloc_bfree_correct_witness : exists s s', balloc ROOTDEV s = Ret 2 s'.
Proof.
  set (b := MkSuperblock FSMAGIC 3 1 0 0 0 2 1).
  destruct (demo_image_fs {[1 := 3 :: repeat 0 1023]} b []) as (s0 & s & H & Esb & _).
  destruct (demo_bitmap_ok 3 3 FSMAGIC 1 0 0) as [Hd Hu]; [lia|split; lia|done|]. fold b in Hd, Hu. rewrite <- Esb in Hd, Hu.
  set (v := fun n => default zeros (({[1 := 3 :: repeat 0 1023]} : gmap Z (list Z)) !! n)) in *.
  destruct (proj1 (balloc_bfree_correct 0 demo_proc s0 _ _ ∅ _ _ s H Hd ltac:(intros n [? [=]]) (demo_log_room 2 ltac:(lia))))
    as (k & s' & E & (v' & l' & Hk & Hf & Hlow & _)); rewrite Esb in *.
  { exists 2. split; [cbn; lia|]. by rewrite (proj2 (Hu 2 ltac:(cbn; lia))). }
  cbn in Hk. exists s, s'. rewrite E. f_equal. rewrite (proj2 (Hu k ltac:(cbn; lia))) in Hf.
  assert (k = 0 \/ k = 1 \/ k = 2) as [->|[->| ->]] by lia; done.
Defined.
