(* ===== verification/FsFile.v ===== *)
(** * Files: bmap, readi and writei

    What the file-system code does to the contents of one file, inside an
    operation: [bmap] finds or allocates the block of a part of the file,
    [readi] delivers the file's bytes and [writei] replaces them. *)

From Stdlib Require Import FunctionalExtensionality.
From S2P Require Import Prelude Mem Riscv Locks Kalloc Vm VmWalk VmCopy Kstate UserMem Proc ProcSpec Sleeplock SleeplockSpec Bio BioSpec CacheOps Blk Log LogSpec LogOps FsOps Fs FileData FsAlloc.
Import Proc Sleeplock Bio Log Fs.

(** ** The inode table inside an operation *)

Section itable.
Context (p : nat) (x : proc) (s0 : kstate) (D : Z -> list Z) (W : list (Z * list Z)).

Lemma fsx_base h v l s (f : kstate -> kstate) :
  (forall s, bufs (f s) = bufs s /\ disk (f s) = disk s /\ procs (f s) = procs s /\ disk_writes (f s) = disk_writes s /\
     cpu_proc (f s) = cpu_proc s) -> held (f s) = held s ->
  (forall s, erase (f s) = f (erase s)) -> (forall s l, f (set_log l s) = set_log l (f s)) ->
  fsx p x s0 D W h v l s -> fsx p x (f s0) D W h v l (f s).
Proof.
  intros Hf E6 He Hl [[Ht [es Hc] HD HW Her Hwk] Hh].
  pose proof (Hf s) as (E1 & E2 & E3 & E4 & E5). pose proof (Hf (set_log l s0)) as (_ & _ & E3' & _).
  split; [split|].
  - destruct Ht as (T1 & T2 & T3 & T4). unfold thread, ptab_ok in *. by rewrite E5, E3, E6.
  - exists es. by apply (crep_ext es v _ _ s).
  - unfold disk_block in *. by rewrite E2.
  - by rewrite E4.
  - rewrite <- Hl, !He. by rewrite Her.
  - rewrite <- Hl, E3, E3'. done.
  - intros n b Hb. unfold buf_of. rewrite E1. by apply Hh.
Qed.

Lemma itable_fs h v l s : fsx p x s0 D W h v l s -> itable s = itable s0.
Proof. intros [[_ _ _ _ He _] _]. by apply (f_equal itable) in He. Qed.

Lemma mach_fs h v l s : fsx p x s0 D W h v l s -> mach s = mach s0.
Proof. intros [[_ _ _ _ He _] _]. by apply (f_equal mach) in He. Qed.

Lemma inode_at_fs h v l s i xi : fsx p x s0 D W h v l s -> itable s0 !! i = Some xi -> inode_at i s = Ret xi s.
Proof. intros H Hi. unfold inode_at. by rewrite (itable_fs h v l s H), Hi. Qed.

Lemma inode_upd_fs h v l s i xi f : fsx p x s0 D W h v l s -> itable s0 !! i = Some xi ->
  exists s', inode_upd i f s = Ret tt s' /\ fsx p x (set_itable (<[i := f xi]> (itable s0)) s0) D W h v l s'.
Proof.
  intros H Hi. eexists. unfold inode_upd. rewrite (itable_fs h v l s H), Hi. split; [done|].
  by apply (fsx_base h v l s (set_itable (<[i := f xi]> (itable s0)))).
Qed.
End itable.

(** ** Files that grow *)

Section grow.
Context (sbk : superblock).
Local Abbreviation size := (sb_size sbk).
Implicit Types (v : Z -> list Z) (a : list Z).

(** A block the bitmap has in use and that is part of neither the bitmap nor the
    log. *)
Definition data_block v (n : Z) : Prop :=
  0 <= n < size /\ used sbk v n = true /\ (forall j, 0 <= j < size -> BBLOCK j sbk <> n) /\ ~ log_area sbk n.

Lemma data_full v n : disk_ok sbk v -> data_block v n -> full_block (v n).
Proof. intros Hd (Hn & _ & _ & Hl). by apply (do_full _ _ Hd). Qed.

Record file_ok v a : Prop := {
  fk_len : length a = Z.to_nat (NDIRECT + 1);
  fk_apart : file_apart v a;
  fk_owns n : owns v a n -> data_block v n;
}.

(** The file has got blocks that were free, and reads as before; blocks in use
    that are not the file's are as they were. *)
Record fgrow v a v' a' : Prop := {
  fg_ok : file_ok v' a';
  fg_byte i : 0 <= i < MAXFILE * BSIZE -> fbyte v' a' i = fbyte v a i;
  fg_addr bn : 0 <= bn < MAXFILE -> baddr v a bn <> 0 -> baddr v' a' bn = baddr v a bn;
  fg_new n : owns v' a' n -> owns v a n \/ 0 <= n < size /\ used sbk v n = false;
  fg_used n : 0 <= n < size -> used sbk v n = true -> used sbk v' n = true;
  fg_frame n : data_block v n -> ~ owns v a n -> v' n = v n;
}.

Lemma fgrow_refl v a : file_ok v a -> fgrow v a v a.
Proof. intros H. split; auto. Qed.

Lemma fgrow_trans v1 a1 v2 a2 v3 a3 : fgrow v1 a1 v2 a2 -> fgrow v2 a2 v3 a3 -> fgrow v1 a1 v3 a3.
Proof.
  intros [_ B1 A1 N1 U1 F1] [O2 B2 A2 N2 U2 F2]. split; [done|..].
  - intros i Hi. by rewrite B2, B1.
  - intros bn Hbn Hb. rewrite <- (A1 bn Hbn Hb). apply A2; [done|]. by rewrite A1.
  - intros n [Ho|[Hn Hf]]%N2; [by apply N1|]. right. split; [done|].
    destruct (used sbk v1 n) eqn:E; [|done]. by rewrite U1 in Hf.
  - auto.
  - intros n (Hn & Hu & Hm & Hl) Hno. rewrite F2; [by apply F1| |].
    + split; [done|]. split; [by apply U1|done].
    + intros [Ho|[_ Hf]]%N1; [done|congruence].
Qed.

(** The disk after block [k] has been allocated. *)
Record took v (k : Z) v' : Prop := {
  tk_range : 0 <= k < size;
  tk_free : used sbk v k = false;
  tk_nz : k <> 0;
  tk_used j : 0 <= j < size -> used sbk v' j = if decide (j = k) then true else used sbk v j;
  tk_zero : v' k = zeros;
  tk_same n : n <> k -> n <> BBLOCK k sbk -> v' n = v n;
  tk_map j : 0 <= j < size -> BBLOCK j sbk <> k;
  tk_log : ~ log_area sbk k;
}.

Lemma took_data v k v' n : took v k v' -> data_block v n -> data_block v' n /\ v' n = v n /\ n <> k.
Proof.
  intros [R F Z0 U Hz S Hm Hml] (Hn & Hu & Hb & Hl). assert (n <> k) as Hk by congruence.
  split; [split; [done|]; split; [by rewrite U, decide_False|done]|]. split; [|done].
  apply S; [done|]. apply not_eq_sym. by apply Hb.
Qed.

Lemma took_new v k v' : took v k v' -> data_block v' k.
Proof. intros [R F Z0 U Hz S Hm Hml]. split; [done|]. split; [by rewrite U, decide_True|done]. Qed.

(** The new block [k] becomes part [bn] of the file. *)
Lemma grow_data v a v1 v' a' bn k : file_ok v a -> took v k v1 -> 0 <= bn < MAXFILE -> baddr v a bn = 0 ->
  length a' = length a -> indirect a' = indirect a ->
  (forall bn', 0 <= bn' < MAXFILE -> baddr v' a' bn' = if decide (bn' = bn) then k else baddr v a bn') ->
  (forall n, n <> indirect a \/ indirect a = 0 -> v' n = v1 n) -> (forall n, 0 <= n < size -> used sbk v' n = used sbk v1 n) ->
  fgrow v a v' a'.
Proof.
  intros [Hlen Hap Hown] Ht Hbn H0 Hlen' Ei Hb Hsame Hu. pose proof Ht as [R F Z0 U Hz S Hm Hml].
  assert (forall n, data_block v1 n -> data_block v' n) as Hd1 by (intros n (? & ? & ? & ?); split; [|rewrite Hu by done]; done).
  assert (~ owns v a k) as Hnk by (intros Hk; destruct (Hown k Hk) as (_ & ? & _); congruence).
  assert (forall n, ~ owns v a n -> v' n = v1 n) as Hs.
  { intros n Hn. apply Hsame. destruct (decide (indirect a = 0)); [by right|left]. intros ->. by apply Hn, owns_ind. }
  destruct (file_add_data v a v' a' bn k Hap Hnk Z0 H0 Ei Hb) as (Hap' & Hby & Hnew).
  { intros b Hb1 Hb0. rewrite Hsame by (left; by apply Hap). by apply (took_data v k v1); [|apply Hown, owns_data]. }
  { by rewrite Hs. }
  split; [split; [congruence|done|]|done|..].
  - intros n [Ho| ->]%Hnew; apply Hd1; [by apply (took_data v k v1); [|apply Hown]|by eapply took_new].
  - intros b Hb1 Hb0. rewrite Hb by done. case_decide; [by subst|done].
  - intros n [Ho| ->]%Hnew; [by left|by right].
  - intros n Hn Hun. rewrite Hu, U by done. by case_decide.
  - intros n Hn Hno. rewrite Hs by done. by apply (took_data v k v1).
Qed.

(** The new block [k] becomes the indirect block. *)
Lemma grow_indirect v a v' a' k : file_ok v a -> took v k v' -> indirect a = 0 ->
  a' = <[Z.to_nat NDIRECT := k]> a -> fgrow v a v' a'.
Proof.
  intros [Hlen Hap Hown] Ht H0 ->. pose proof Ht as [R F Z0 U Hz S Hm Hml].
  assert (~ owns v a k) as Hnk by (intros Hk; destruct (Hown k Hk) as (_ & ? & _); congruence).
  destruct (file_add_indirect v a v' k Hlen Hap Hnk Z0 H0) as (Ei & Hb & Hap' & Hby & Hnew); [|done|].
  { intros n Hn. by apply (took_data v k v'); [|apply Hown]. }
  split; [split; [by rewrite length_insert|done|]|done|..].
  - intros n [Ho| ->]%Hnew; [by apply (took_data v k v'); [|apply Hown]|by eapply took_new].
  - intros b Hb1 _. by apply Hb.
  - intros n [Ho| ->]%Hnew; [by left|by right].
  - intros n Hn Hun. rewrite U by done. by case_decide.
  - intros n Hn Hno. by apply (took_data v k v').
Qed.
End grow.

(** ** Allocation for a file *)

Section bmap.
Context (p : nat) (x : proc) (s0 : kstate) (D : Z -> list Z) (W : list (Z * list Z)) (ip : nat).
Local Abbreviation sbk := (sb s0).
Local Abbreviation size := (sb_size (sb s0)).
Implicit Types (v : Z -> list Z) (a : list Z) (l : logst).

(** The state with the inode [xi] in slot [ip] of the table. *)
Definition inode_in (xi : inode) : kstate := set_itable (<[ip := xi]> (itable s0)) s0.
Definition fi (xi : inode) (h : gmap Z nat) v l (s : kstate) : Prop :=
  (ip < length (itable s0))%nat /\ fsx p x (inode_in xi) D W h v l s.

Lemma fi_at xi h v l s : fi xi h v l s -> inode_at ip s = Ret xi s.
Proof. intros [Hip H]. eapply inode_at_fs; [exact H|]. by apply list_lookup_insert_eq. Qed.

Lemma fi_upd xi h v l s f : fi xi h v l s -> exists s', inode_upd ip f s = Ret tt s' /\ fi (f xi) h v l s'.
Proof.
  intros [Hip H]. destruct (inode_upd_fs p x (inode_in xi) D W h v l s ip xi f H) as (s' & E & H').
  { by apply list_lookup_insert_eq. }
  exists s'. split; [done|]. unfold inode_in in H' at 1. cbn [itable set_itable] in H'.
  rewrite list_insert_insert_eq in H'. done.
Qed.

(** The bitmap is one block. *)
Definition bmb : Z := BBLOCK 0 sbk.
Lemma BBLOCK_one n : 0 <= n < size -> size <= BPB -> BBLOCK n sbk = bmb.
Proof. intros Hn Hone. unfold bmb, BBLOCK. by rewrite !Z.div_small by lia. Qed.

(** The log the operation needs beyond the data blocks it still writes: the
    bitmap and the indirect block are counted from the start. *)
Definition cost l a : Z :=
  lh_n l + (if decide (bmb ∈ txn l) then 0 else 1) +
  (if decide (indirect a <> 0 /\ indirect a ∈ txn l) then 0 else 1).
Definition fits (k : Z) l a : Prop :=
  log_wf l /\ cost l a + k <= LOGSIZE /\ cost l a + k <= l_size l - 1 /\ 1 <= l_outstanding l.

Lemma fits_room k l a : fits k l a -> log_room k l.
Proof.
  intros (Hwf & H1 & H2 & H3). split; [done|]. unfold cost in *. repeat case_decide; lia.
Qed.

Lemma log_step_fields l l' : log_step sbk l l' -> log_wf l' /\ l_size l' = l_size l /\ l_outstanding l' = l_outstanding l.
Proof. intros [? _ _ E _ _]. rewrite E. done. Qed.

Lemma fits_step k k' l a l' a' : fits k l a -> log_step sbk l l' -> cost l' a' + k' <= cost l a + k -> fits k' l' a'.
Proof.
  intros (_ & H1 & H2 & H3) (Hwf & E1 & E2)%log_step_fields Hc. split; [done|]. rewrite E1, E2. lia.
Qed.

Lemma cost_record n l l' a : recorded n l l' ->
  cost l' a + (if decide (n = indirect a /\ n <> 0 /\ n ∉ txn l) then 1 else 0) <= cost l a + (if decide (n ∈ txn l) then 0 else 1).
Proof using s0.
  clear p x D W ip.
  intros Hr. pose proof (fun m => recorded_sub n l l' m Hr) as Hsub. pose proof (recorded_in n l l' Hr) as Hin.
  destruct Hr as (_ & En & _). unfold cost. rewrite En. repeat case_decide; try lia; naive_solver.
Qed.

Definition nfree v : Z := Z.of_nat (length (filter (fun n => used sbk v n = false) (seqZ 0 size))).

(** The free blocks, less the one kept for the indirect block. *)
Definition avail v a : Z := nfree v - (if decide (indirect a = 0) then 1 else 0).

Lemma nfree_take v k v' : took sbk v k v' -> nfree v' + 1 = nfree v.
Proof using s0.
  clear p x D W ip.
  intros [R F _ U _ _ _]. unfold nfree. set (ns := seqZ 0 size).
  assert (filter (fun n => used sbk v n = false) ns ≡ₚ k :: filter (fun n => used sbk v' n = false) ns) as ->; [|cbn; lia].
  apply NoDup_Permutation.
  - apply NoDup_filter, NoDup_seqZ.
  - constructor; [|apply NoDup_filter, NoDup_seqZ]. rewrite list_elem_of_filter, U, decide_True by done. naive_solver.
  - intros n. rewrite elem_of_cons, !list_elem_of_filter. unfold ns. rewrite elem_of_seqZ. split.
    + intros [Hu Hn]. rewrite U by lia. case_decide; naive_solver.
    + intros [->|[Hu Hn]]; [split; [done|lia]|]. rewrite U in Hu by lia. case_decide; [done|]. by split.
Qed.

Lemma nfree_same v v' : (forall n, 0 <= n < size -> used sbk v' n = used sbk v n) -> nfree v' = nfree v.
Proof using s0.
  clear p x D W ip.
  intros H. unfold nfree. f_equal. apply Permutation_length, NoDup_Permutation; [apply NoDup_filter, NoDup_seqZ..|].
  intros n. rewrite !list_elem_of_filter, elem_of_seqZ. split; intros [Hu Hn]; rewrite H in * by lia; done.
Qed.

Lemma nfree_pos v : 0 < nfree v -> ~ forall j, 0 <= j < size -> used sbk v j = true.
Proof using s0.
  clear p x D W ip.
  unfold nfree. intros H Hall. destruct (filter _ _) as [|k ns] eqn:E; [cbn in H; lia|].
  assert (k ∈ filter (fun n => used sbk v n = false) (seqZ 0 size)) as Hk by (rewrite E; left).
  apply list_elem_of_filter in Hk as [Hu Hn%elem_of_seqZ]. rewrite Hall in Hu by lia. done.
Qed.

(** The disk, with a bitmap of one block and the boot block not free. *)
Definition disk_inv v : Prop := disk_ok sbk v /\ used sbk v 0 = true /\ size <= BPB.

Lemma balloc_took xi h v l s : fi xi h v l s -> disk_inv v -> held_ok sbk h v ->
  log_room (2 + Z.of_nat (base.size h)) l -> 0 < nfree v ->
  exists k v1 l1 s1, balloc ROOTDEV s = Ret k s1 /\ fi xi h v1 l1 s1 /\ disk_inv v1 /\ took sbk v k v1 /\
    log_step sbk l l1 /\ k ∈ txn l1 /\ (forall a, cost l1 a <= cost l a + 1) /\
    (forall a a', indirect a = 0 -> indirect a' = k -> cost l1 a' <= cost l a).
Proof.
  intros [Hip H] (Hd & H0 & Hone) Hh Hl Hf.
  destruct (balloc_fs p x (inode_in xi) D W h v l s H Hd Hh Hl) as [(k & s1 & E & Ha)|[_ Hall]]; [|by destruct (nfree_pos v Hf)].
  destruct Ha as (v1 & l1 & Hk & Hfree & _ & H1 & Hd1 & Hz & Hu & Hs & Hkt & Hbt & _ & Hst & Hn).
  change (sb (inode_in xi)) with sbk in *. rewrite (BBLOCK_one k Hk Hone) in *.
  assert (k <> 0) as Hk0 by congruence. pose proof (do_size _ _ Hd) as Hsz.
  exists k, v1, l1, s1. split; [done|]. split; [done|]. split; [split; [done|split; [|done]]|].
  { rewrite Hu by lia. by rewrite decide_False by congruence. }
  split; [split; try done|].
  { by rewrite (BBLOCK_one k Hk Hone). }
  { exact (free_not_map sbk v k Hd Hk Hfree). }
  { exact (free_not_log sbk v k Hd Hfree). }
  split; [done|]. split; [done|]. pose proof (ls_sub _ _ _ Hst) as Hsub. unfold cost. split.
  - intros a. rewrite (decide_True (P := bmb ∈ txn l1)) by done. repeat case_decide; try lia; naive_solver.
  - intros a a' Ha Ha'. rewrite (decide_True (P := bmb ∈ txn l1)), (decide_True (P := indirect a' <> 0 /\ _)) by (subst; done).
    rewrite (decide_False (P := indirect a <> 0 /\ _)) by tauto. repeat case_decide; lia.
Qed.

(** What [bmap] has done when it returns: the file may have grown, and reads as
    before. *)
Record mapped (xi : inode) v l (bn : Z) (s' : kstate) a' v' l' : Prop := {
  mp_state : fi (set_i_addrs a' xi) ∅ v' l' s';
  mp_disk : disk_inv v';
  mp_grow : fgrow sbk v (i_addrs xi) v' a';
  mp_log : log_step sbk l l';
  mp_addr : baddr v' a' bn <> 0;
  mp_cost : cost l' a' + (if decide (baddr v' a' bn ∈ txn l') then 0 else 1) <= cost l (i_addrs xi) + 1;
  mp_avail : avail v (i_addrs xi) <= avail v' a' + 1;
}.

Lemma set_i_addrs_id xi : set_i_addrs (i_addrs xi) xi = xi.
Proof. by destruct xi. Qed.

(** A block the file has. *)
Lemma bmap_hit xi v l s bn : fi xi ∅ v l s -> i_dev xi = ROOTDEV -> 0 <= bn < MAXFILE -> buf_room l ∅ ->
  baddr v (i_addrs xi) bn <> 0 ->
  exists s', bmap ip bn s = Ret (baddr v (i_addrs xi) bn) s' /\ fi xi ∅ v l s'.
Proof.
  intros H Hdev Hbn Hroom Hb. unfold bmap. erewrite bind_Ret by by eapply fi_at.
  pose proof (baddr_ind v (i_addrs xi) bn) as Hi. unfold baddr in *. destruct (Z.ltb_spec bn NDIRECT) as [Hd|Hd].
  - rewrite (proj2 (Z.eqb_neq _ _)) by done. by exists s.
  - specialize (Hi Hd Hb). unfold indirect in *. rewrite (proj2 (Z.ltb_lt _ _)) by (unfold MAXFILE in *; lia).
    rewrite (proj2 (Z.eqb_neq _ _) Hi) in *. destruct H as [Hip H].
    destruct (read_fs p x _ D W ∅ v l s (nth (Z.to_nat NDIRECT) (i_addrs xi) 0) H ltac:(done) Hroom)
      as (b & s1 & s2 & E1 & E2 & _ & E3 & H2).
    exists s2. rewrite Hdev. split; [|done]. erewrite bind_Ret by reflexivity.
    erewrite bind_Ret by exact E1. erewrite bind_Ret by exact E2. rewrite (proj2 (Z.eqb_neq _ _) Hb).
    erewrite bind_Ret by reflexivity. by erewrite bind_Ret by exact E3.
Qed.

(** A new block for a direct address. *)
Lemma bmap_direct xi v l s bn : fi xi ∅ v l s -> i_dev xi = ROOTDEV -> disk_inv v -> file_ok sbk v (i_addrs xi) ->
  0 <= bn < NDIRECT -> fits 3 l (i_addrs xi) -> 0 < avail v (i_addrs xi) -> baddr v (i_addrs xi) bn = 0 ->
  exists a' v' l' s', bmap ip bn s = Ret (baddr v' a' bn) s' /\ mapped xi v l bn s' a' v' l'.
Proof.
  intros H Hdev Hd Hf Hbn Hfit Hav Hb. set (a := i_addrs xi) in *. pose proof (fk_len _ _ _ Hf) as Hlen.
  pose proof (MAXFILE_eq) as (EM & ED & EI & _).
  assert (0 < nfree v) as Hnf by (unfold avail in Hav; case_decide; lia).
  destruct (balloc_took xi ∅ v l s H Hd) as (k & v1 & l1 & s1 & E & H1 & Hd1 & Ht & Hst & Hk & Hc & _);
    [by intros n [? [=]]|eapply log_room_less; [by eapply fits_room|rewrite map_size_empty; lia]|done|].
  destruct (fi_upd xi ∅ v1 l1 s1 (fun x => set_i_addrs (<[Z.to_nat bn := k]> (i_addrs x)) x) H1) as (s2 & E2 & H2).
  set (a' := <[Z.to_nat bn := k]> a). fold a in H2. fold a' in H2.
  assert (forall b, 0 <= b < MAXFILE -> baddr v1 a' b = if decide (b = bn) then k else baddr v a b) as Hb'.
  { intros b Hb1. unfold baddr, a'. assert (indirect (<[Z.to_nat bn := k]> a) = indirect a) as Ei.
    { unfold indirect. by rewrite !nth_lookup, list_lookup_insert_ne by lia. }
    rewrite Ei. destruct (Z.ltb_spec b NDIRECT).
    - rewrite !nth_lookup. case_decide as Eb; [subst b; by rewrite list_lookup_insert_eq by lia|].
      by rewrite list_lookup_insert_ne by lia.
    - rewrite decide_False by lia. destruct (Z.eqb_spec (indirect a) 0); [done|].
      destruct (took_data sbk v k v1 (indirect a) Ht) as (_ & -> & _); [by apply (fk_owns _ _ _ Hf), owns_ind|done]. }
  assert (indirect a' = indirect a) as Ei by (unfold indirect, a'; by rewrite !nth_lookup, list_lookup_insert_ne by lia).
  assert (fgrow sbk v a v1 a') as Hg.
  { apply (grow_data sbk v a v1 v1 a' bn k); try done; [lia|unfold a'; by rewrite length_insert]. }
  assert (baddr v1 a' bn = k) as Ek by (by rewrite Hb', decide_True by lia).
  exists a', v1, l1, s2. rewrite Ek. split.
  - unfold bmap. erewrite bind_Ret by by eapply fi_at. rewrite (proj2 (Z.ltb_lt _ _)) by lia.
    unfold baddr in Hb. rewrite (proj2 (Z.ltb_lt _ _)) in Hb by lia. fold a. rewrite Hb. change (0 =? 0) with true. cbn match.
    rewrite Hdev. erewrite bind_Ret by exact E. by erewrite bind_Ret by exact E2.
  - split; try done; rewrite ?Ek.
    + exact (tk_nz _ _ _ _ Ht).
    + rewrite decide_True by done. specialize (Hc a'). fold a. unfold cost in *. rewrite Ei in *. lia.
    + unfold avail. rewrite Ei. pose proof (nfree_take _ _ _ Ht). fold a. lia.
Qed.

(** The indirect block, found or allocated. *)
Definition get_indirect (xi : inode) : M kstate Z :=
  let addr := indirect (i_addrs xi) in
  (if addr =? 0 then
     addr <- balloc (i_dev xi);
     inode_upd ip (fun x => set_i_addrs (<[Z.to_nat NDIRECT := addr]> (i_addrs x)) x);;
     ret addr
   else ret addr)%K.

Lemma get_indirect_spec xi v l s : fi xi ∅ v l s -> i_dev xi = ROOTDEV -> disk_inv v -> file_ok sbk v (i_addrs xi) ->
  fits 3 l (i_addrs xi) -> 0 < avail v (i_addrs xi) ->
  exists a1 v1 l1 s1, get_indirect xi s = Ret (indirect a1) s1 /\ fi (set_i_addrs a1 xi) ∅ v1 l1 s1 /\ disk_inv v1 /\
    fgrow sbk v (i_addrs xi) v1 a1 /\ indirect a1 <> 0 /\ cost l1 a1 <= cost l (i_addrs xi) /\
    avail v (i_addrs xi) <= avail v1 a1 /\ log_step sbk l l1.
Proof.
  intros H Hdev Hd Hf Hfit Hav. set (a := i_addrs xi) in *. unfold get_indirect. fold a.
  destruct (Z.eqb_spec (indirect a) 0) as [E0|E0].
  - assert (0 < nfree v) as Hnf by (unfold avail in Hav; case_decide; lia).
    destruct (balloc_took xi ∅ v l s H Hd) as (k & v1 & l1 & s1 & E & H1 & Hd1 & Ht & Hst & Hk & _ & Hc);
      [by intros n [? [=]]|eapply log_room_less; [by eapply fits_room|rewrite map_size_empty; lia]|done|].
    destruct (fi_upd xi ∅ v1 l1 s1 (fun x => set_i_addrs (<[Z.to_nat NDIRECT := k]> (i_addrs x)) x) H1) as (s2 & E2 & H2).
    set (a1 := <[Z.to_nat NDIRECT := k]> a). fold a in H2. fold a1 in H2.
    assert (indirect a1 = k) as Ei.
    { unfold indirect, a1. rewrite nth_lookup, list_lookup_insert_eq; [done|]. rewrite (fk_len _ _ _ Hf). unfold NDIRECT. lia. }
    exists a1, v1, l1, s2. rewrite Ei, Hdev. split; [|split; [done|split; [done|split; [by eapply grow_indirect|]]]].
    { erewrite bind_Ret by exact E. by erewrite bind_Ret by exact E2. }
    pose proof (tk_nz _ _ _ _ Ht). split; [done|]. split; [by apply Hc|]. split; [|done].
    unfold avail. rewrite Ei, decide_True, decide_False by done. pose proof (nfree_take _ _ _ Ht). lia.
  - exists a, v, l, s. unfold a. rewrite set_i_addrs_id. split_and!; try done; [by apply fgrow_refl|].
    apply log_step_refl, Hfit.
Qed.

(** The entry of the indirect block for part [bn], found or allocated. *)
Lemma bmap_entry xi v l s b bn : fi xi {[indirect (i_addrs xi) := b]} v l s -> i_dev xi = ROOTDEV -> disk_inv v ->
  file_ok sbk v (i_addrs xi) -> NDIRECT <= bn < MAXFILE -> indirect (i_addrs xi) <> 0 ->
  baddr v (i_addrs xi) bn = 0 -> fits 3 l (i_addrs xi) -> 0 < avail v (i_addrs xi) ->
  exists k v' l' s', (addr <- balloc (i_dev xi); d <- bdata b;
      set_bdata b (put32 d (4 * (bn - NDIRECT)) addr);; log_write b;; ret addr)%K s = Ret k s' /\
    fi xi {[indirect (i_addrs xi) := b]} v' l' s' /\ disk_inv v' /\ fgrow sbk v (i_addrs xi) v' (i_addrs xi) /\
    baddr v' (i_addrs xi) bn = k /\ k <> 0 /\ k ∈ txn l' /\ indirect (i_addrs xi) ∈ txn l' /\ log_step sbk l l' /\
    cost l' (i_addrs xi) <= cost l (i_addrs xi) + 1 /\ avail v (i_addrs xi) <= avail v' (i_addrs xi) + 1.
Proof.
  intros H Hdev Hd Hf Hbn Hi Hb Hfit Hav. set (a := i_addrs xi) in *. set (i := indirect a) in *.
  pose proof (MAXFILE_eq) as (EM & ED & EI & EB).
  assert (data_block sbk v i) as Hdi by (by apply (fk_owns _ _ _ Hf), owns_ind).
  assert (0 < nfree v) as Hnf by (unfold avail in Hav; case_decide; lia).
  destruct (balloc_took xi {[i := b]} v l s H Hd) as (k & v1 & l1 & s1 & E & H1 & Hd1 & Ht & Hst & Hk & Hc & _).
  { intros n [? [<- _]%lookup_singleton_Some]. by destruct Hdi as (_ & ? & ? & _). }
  { rewrite map_size_singleton. by eapply fits_room. }
  { done. }
  destruct (took_data sbk v k v1 i Ht Hdi) as (Hdi1 & Ev1 & Hik). destruct H1 as [Hip H1].
  pose proof (fits_step 3 2 l a l1 a Hfit Hst ltac:(specialize (Hc a); lia)) as Hfit1.
  destruct (set_bdata_fs p x _ D W _ v1 l1 i b s1 (put32 (v i) (4 * (bn - NDIRECT)) k) H1) as (s2 & E2 & H2);
    [apply lookup_singleton_eq|]. set (v2 := upd v1 i (put32 (v i) (4 * (bn - NDIRECT)) k)) in *.
  destruct Hdi as (Hir & Hiu & Him & Hil). pose proof (do_size _ _ (proj1 Hd)) as Hsz. pose proof (do_full _ _ (proj1 Hd) i Hir Hil) as Hfull.
  destruct (log_write_fs p x _ D W _ v2 l1 i b s2 H2) as (l2 & s3 & E3 & Hrec & H3);
    [apply lookup_singleton_eq|unfold block_ok; lia|eapply log_room_less; [by eapply fits_room|lia]|].
  assert (forall n, 0 <= n < size -> used sbk v2 n = used sbk v1 n) as Hu.
  { intros n Hn. unfold used, v2. rewrite upd_ne by (by apply Him). done. }
  assert (forall b', 0 <= b' < MAXFILE -> baddr v2 a b' = if decide (b' = bn) then k else baddr v a b') as Hb'.
  { intros b' Hb1. unfold baddr. fold i. rewrite (proj2 (Z.eqb_neq i 0)) by done. destruct (Z.ltb_spec b' NDIRECT).
    - by rewrite decide_False by lia.
    - unfold v2. rewrite upd_eq. destruct Hfull as [Hl _]. case_decide as Eb.
      + subst b'. rewrite get32_put32 by lia. apply u32_small. pose proof (tk_range _ _ _ _ Ht). lia.
      + apply get32_put32_ne; lia. }
  assert (fgrow sbk v a v2 a) as Hg.
  { apply (grow_data sbk v a v1 v2 a bn k); try done; [lia|]. intros n Hn. unfold v2. apply upd_ne. fold i in Hn. naive_solver. }
  assert (baddr v2 a bn = k) as Ek by (by rewrite Hb', decide_True by lia).
  exists k, v2, l2, s3. split_and!; try done.
  - rewrite Hdev. erewrite bind_Ret by exact E. erewrite bind_Ret by (eapply bdata_fs; [exact H1|apply lookup_singleton_eq]).
    rewrite Ev1. erewrite bind_Ret by exact E2. by erewrite bind_Ret by exact E3.
  - split; [|destruct Hd1 as (_ & H0 & Hone); split; [rewrite Hu by lia|]; done]. destruct Hd1 as (Hd1 & _). split; [done|..].
    + intros n Hn Hnl. unfold v2. destruct (decide (n = i)) as [->|]; [|rewrite upd_ne by done; by apply (do_full _ _ Hd1)].
      rewrite upd_eq. apply lput_full; [done|apply le_bytes_byte].
    + intros n Hn. rewrite Hu by by apply (do_map _ _ Hd1). by apply (do_map _ _ Hd1).
    + intros n Hn. rewrite Hu by by apply (do_log _ _ Hd1). by apply (do_log _ _ Hd1).
    + apply (do_apart _ _ Hd1).
  - exact (tk_nz _ _ _ _ Ht).
  - by eapply recorded_sub.
  - by eapply recorded_in.
  - eapply log_step_trans; [done|by eapply recorded_step].
  - pose proof (cost_record i l1 l2 a Hrec) as Hcr. specialize (Hc a). fold i in Hcr. repeat case_decide; try lia; tauto.
  - unfold avail. rewrite (nfree_same _ _ Hu). pose proof (nfree_take _ _ _ Ht). lia.
Qed.

(** The end of [bmap] on the indirect block: the value found, after [brelse]. *)
Lemma close_block xi b n (m : M kstate Z) s s' k v l : fi xi {[n := b]} v l s' -> m s = Ret k s' -> (n ∉ txn l -> v n = D n) ->
  exists s'', (addr <- m; brelse b;; ret addr)%K s = Ret k s'' /\ fi xi ∅ v l s''.
Proof.
  intros [Hip H] E Hcl. destruct (brelse_fs p x _ D W _ v l n b s' H) as (s'' & E' & H'); [apply lookup_singleton_eq|done|].
  exists s''. rewrite delete_singleton_eq in H'. split; [|done]. erewrite bind_Ret by exact E. by erewrite bind_Ret by exact E'.
Qed.

Lemma bmap_fs xi v l s bn : fi xi ∅ v l s -> i_dev xi = ROOTDEV -> disk_inv v -> file_ok sbk v (i_addrs xi) ->
  0 <= bn < MAXFILE -> fits 3 l (i_addrs xi) -> 0 < avail v (i_addrs xi) ->
  exists a' v' l' s', bmap ip bn s = Ret (baddr v' a' bn) s' /\ mapped xi v l bn s' a' v' l'.
Proof.
  intros H Hdev Hd Hf Hbn Hfit Hav. assert (buf_room l ∅) as Hroom.
  { apply (room_bufs 3); [by eapply fits_room|]. rewrite map_size_empty. lia. }
  destruct (decide (baddr v (i_addrs xi) bn = 0)) as [Hb|Hb].
  2:{ destruct (bmap_hit xi v l s bn H Hdev Hbn Hroom Hb) as (s' & E & H').
      exists (i_addrs xi), v, l, s'. split; [done|]. split; rewrite ?set_i_addrs_id; try done; [by apply fgrow_refl| |case_decide; lia|lia].
      apply log_step_refl, Hfit. }
  destruct (decide (bn < NDIRECT)) as [Hdir|Hind]; [apply bmap_direct; [done..|lia|done|done|done]|].
  destruct (get_indirect_spec xi v l s H Hdev Hd Hf Hfit Hav) as (a1 & v1 & l1 & s1 & E1 & H1 & Hd1 & Hg1 & Hi1 & Hc1 & Hav1 & Hst1).
  pose proof H1 as [Hip H1']. set (xi1 := set_i_addrs a1 xi) in *.
  assert (buf_room l1 ∅) as Hroom1.
  { apply (room_bufs 3); [eapply fits_room, (fits_step 3 3 l _ l1 a1); [done|done|lia]|]. rewrite map_size_empty. lia. }
  destruct (bread_fs p x _ D W ∅ v1 l1 s1 (indirect a1) H1' ltac:(done) Hroom1) as (b & s2 & E2 & H2).
  assert (bdata b s2 = Ret (v1 (indirect a1)) s2) as E3 by (eapply bdata_fs; [exact H2|apply lookup_insert_eq]).
  assert (forall v, baddr v a1 bn = get32 (v (indirect a1)) (4 * (bn - NDIRECT))) as Eb.
  { intros w. unfold baddr. by rewrite (proj2 (Z.ltb_ge _ _)), (proj2 (Z.eqb_neq _ _)) by (done || lia). }
  unfold bmap. erewrite bind_Ret by by eapply fi_at. rewrite (proj2 (Z.ltb_ge _ _)) by lia.
  rewrite (proj2 (Z.ltb_lt _ _)) by (unfold MAXFILE in Hbn; lia). erewrite bind_Ret by exact E1. rewrite Hdev.
  erewrite bind_Ret by exact E2. erewrite bind_Ret by exact E3. rewrite <- (Eb v1).
  destruct (Z.eqb_spec (baddr v1 a1 bn) 0) as [Hz|Hz].
  - destruct (bmap_entry xi1 v1 l1 s2 b bn) as (k & v2 & l2 & s3 & E4 & H3 & Hd2 & Hg2 & Ek & Hk0 & Hk & Hi2 & Hst2 & Hc2 & Hav2);
      try done; change (i_addrs xi1) with a1; [by apply Hg1|lia|apply (fits_step 3 3 l (i_addrs xi)); [done|done|lia]|lia|].
    destruct (close_block _ b _ _ s2 s3 k v2 l2 H3 E4 ltac:(done)) as (s4 & E5 & H4).
    change (i_addrs xi1) with a1 in *. change (i_dev xi1) with (i_dev xi) in E5.
    exists a1, v2, l2, s4. rewrite Ek. split; [rewrite Hdev in E5; exact E5|].
    split; try done; rewrite ?Ek; [by eapply fgrow_trans|by eapply log_step_trans|done|rewrite decide_True by done; lia|lia].
  - destruct (close_block xi1 b (indirect a1) (ret (baddr v1 a1 bn)) s2 s2 _ v1 l1 (conj Hip H2) eq_refl) as (s4 & E5 & H4).
    { intros Hn. by apply (clean_fs p x (inode_in xi1) D W ∅ v1 l1 s1). }
    exists a1, v1, l1, s4. split; [exact E5|]. split; try done; [case_decide; lia|lia].
Qed.
End bmap.
