(* ===== verification/FsRw.v ===== *)
(** * Reading and writing files

    [readi] and [writei] over the contents of a file, with the destination or
    the source in user memory, in kernel memory or in a local object. *)

From Stdlib Require Import FunctionalExtensionality.
From S2P Require Import Prelude Mem Riscv Locks Kalloc Vm VmWalk VmCopy Kstate UserMem Proc ProcSpec Sleeplock SleeplockSpec Bio BioSpec CacheOps Blk Log LogSpec LogOps FsOps Fs FileData FsAlloc FsFile.
Import Proc Sleeplock Bio Log Fs.

(** ** Delivering bytes *)

Section deliver.
Context (p : nat) (x : proc) (T : ptree) (ps : list Z).
Local Abbreviation root := (p_pagetable x).

(** [s1] is [s0] with [bs] delivered to [dst]. *)
Definition delivered (dst : place) (s0 : kstate) (bs : list Z) (s1 : kstate) : Prop :=
  match dst with
  | PLocal _ => s1 = s0
  | PKern pa => s1 = set_mach (set_ram (stbytes (ram (mach s0)) pa bs) (mach s0)) s0
  | PUser va => exists m', s1 = set_mach m' s0 /\ uvm_inv m' root T ps /\ uwritten (ram (mach s0)) T (ram m') va bs
  end.

(** Delivery of [n] bytes to [dst] is well defined. *)
Definition dst_ok (dst : place) (s0 : kstate) (n : Z) : Prop :=
  match dst with
  | PUser va => uvm_inv (mach s0) root T ps /\ 0 <= va /\ va + n < 2 ^ 64
  | _ => True
  end.

(** The user page at byte [k] is missing. *)
Definition dst_fault (dst : place) (s0 : kstate) (k : Z) : Prop :=
  match dst with PUser va => upage (ram (mach s0)) T (va + k) = 0 | _ => False end.

Lemma delivered_nil dst s0 n : dst_ok dst s0 n -> delivered dst s0 [] s0.
Proof.
  destruct dst as [va|pa|bs]; cbn; [|intros _; by destruct s0 as [[]]|done].
  intros (Hu & _). exists (mach s0). split; [by destruct s0|]. split; [done|apply uwritten_nil].
Qed.

Lemma stbytes_app m a bs1 bs2 : stbytes m a (bs1 ++ bs2) = stbytes (stbytes m a bs1) (a + Z.of_nat (length bs1)) bs2.
Proof.
  revert m a; induction bs1 as [|b bs1 IH]; intros m a; cbn [app stbytes length]; [by rewrite Z.add_0_r|].
  rewrite IH. f_equal. lia.
Qed.

Lemma set_mach_mach m m' s : set_mach m (set_mach m' s) = set_mach m s.
Proof. by destruct s. Qed.

(** One call of [either_copyout], when [acc] has been delivered. *)
Lemma either_copyout_step dst s0 s1 acc bs s n : dst_ok dst s0 n -> delivered dst s0 acc s1 ->
  Z.of_nat (length acc + length bs) <= n -> (0 < length bs)%nat -> thread p x s -> mach s = mach s1 ->
  exists r m' k, either_copyout (padd dst (Z.of_nat (length acc))) bs (Z.of_nat (length bs)) s = Ret r (set_mach m' s) /\
    mlocks m' = mlocks (mach s) /\
    delivered dst s0 (acc ++ take k bs) (set_mach m' s1) /\
    (r = 0 /\ take k bs = bs \/ r = -1 /\ (k < length bs)%nat /\ dst_fault dst s0 (Z.of_nat (length acc + k))).
Proof.
  intros Hok Hd Hn Hbs (Hcpu & Hp & _) Hm. unfold either_copyout.
  erewrite bind_Ret by by apply curproc_eq. erewrite bind_Ret by by apply proc_at_eq.
  destruct dst as [va|pa|bs0]; cbn [padd delivered dst_ok dst_fault] in *.
  - destruct Hok as (_ & Hva & Hmax). destruct Hd as (m1 & -> & Hu & Hw). cbn [mach set_mach] in Hm.
    rewrite u64_small by lia.
    destruct (copyout_spec root m1 T ps (va + Z.of_nat (length acc)) bs (Z.of_nat (length bs)) Hu)
      as (st & k & m2 & E & Hu2 & Hw2 & [Hmp Hst] & Er); [lia|done|lia|].
    rewrite <- Hm in E. exists st, m2, (Z.to_nat k). split; [by apply vm_ret|]. split; [by rewrite Er, Hm|]. split.
    + exists m2. rewrite set_mach_mach. split; [done|]. split; [done|]. by apply (uwritten_app _ _ (ram m1)).
    + destruct Hst as [[-> ->]|(-> & Hk & H0)]; [left; split; [done|]; apply take_ge; lia|right].
      split; [done|]. split; [lia|]. rewrite <- H0. symmetry.
      replace (va + Z.of_nat (length acc + Z.to_nat k)) with (va + Z.of_nat (length acc) + k) by lia.
      apply upage_ext, (uw_pte _ _ _ _ _ Hw).
  - subst s1. exists 0, (set_ram (stbytes (ram (mach s)) (pa + Z.of_nat (length acc)) bs) (mach s)), (length bs).
    rewrite Nat2Z.id, (take_ge bs) by lia. split; [done|]. split; [done|]. split; [|by left].
    rewrite set_mach_mach, Hm, stbytes_app. done.
  - subst s1. exists 0, (mach s), (length bs). rewrite (take_ge bs) by lia. split; [by rewrite set_mach_id|]. split; [done|].
    split; [rewrite Hm; apply set_mach_id|by left].
Qed.
End deliver.

(** ** readi *)

Section readi.
Context (p : nat) (x : proc) (T : ptree) (ps : list Z) (D : Z -> list Z) (W : list (Z * list Z)) (ip : nat).
Context (s0 : kstate) (xi : inode) (v : Z -> list Z) (l : logst) (dst : place) (off n : Z).
Local Abbreviation a := (i_addrs xi).

(** The parts of the file from byte [off] to byte [off + n] have blocks. *)
Definition readable : Prop :=
  (0 < n -> off + n <= MAXFILE * BSIZE) /\
  forall i, off <= i < off + n -> baddr v a (i / BSIZE) <> 0 /\ Z.of_nat (length (v (baddr v a (i / BSIZE)))) = BSIZE.

(** The loop after [tot] bytes. *)
Definition readi_at (k : nat) (st : Z * Z * place * list Z) (s : kstate) : Prop :=
  let '(tot, off', dst', acc) := st in
  k = Z.to_nat (n - tot) /\ 0 <= tot <= n /\ off' = off + tot /\ dst' = padd dst tot /\ acc = fbytes v a off tot /\
  exists s1, delivered x T ps dst s0 acc s1 /\ fi p x s1 D W ip xi ∅ v l s.

Definition read_done (r : Z * list Z) (s : kstate) : Prop :=
  exists s1, fi p x s1 D W ip xi ∅ v l s /\
    (r = (n, fbytes v a off n) /\ delivered x T ps dst s0 (fbytes v a off n) s1 \/
     exists k, r.1 = -1 /\ 0 <= k < n /\ delivered x T ps dst s0 (fbytes v a off k) s1 /\ dst_fault T dst s0 k).

Lemma fi_set_mach s1 h s m : mlocks m = mlocks (mach s) -> fi p x s1 D W ip xi h v l s -> fi p x (set_mach m s1) D W ip xi h v l (set_mach m s).
Proof.
  intros Em [Hip H]. split; [done|].
  exact (fsx_base p x (inode_in s1 ip xi) D W h v l s (set_mach m) ltac:(by repeat split) Em ltac:(done) ltac:(done) H).
Qed.

Lemma padd_padd i j : 0 <= i -> 0 <= j -> padd (padd dst i) j = padd dst (i + j).
Proof.
  intros. destruct dst as [va|pa|bs]; cbn; [|f_equal; lia|rewrite drop_drop; do 2 f_equal; lia].
  f_equal. unfold u64. rewrite Zplus_mod_idemp_l. f_equal. lia.
Qed.

Lemma readi_step k st s : i_dev xi = ROOTDEV -> buf_room l ∅ -> readable -> 0 <= off -> dst_ok x T ps dst s0 n ->
  readi_at k st s ->
  runs (fun r s' => match r with
                    | inl st' => exists k', (k' < k)%nat /\ readi_at k' st' s'
                    | inr c => read_done c s'
                    end) (readi_body ip n st s).
Proof.
  intros Hdev Hroom [Hmax Hread] Hoff Hok. destruct st as [[[tot off'] dst'] acc].
  intros (-> & Htot & -> & -> & -> & s1 & Hd & H). cbn [readi_body].
  destruct (Z.ltb_spec tot n) as [Hlt|Hge].
  2:{ assert (tot = n) as -> by lia. cbn. exists s1. split; [done|]. left. split; [|done]. f_equal. apply i32_small.
      pose proof MAXFILE_eq. destruct (decide (0 < n)) as [Hn|]; [specialize (Hmax Hn)|].
      all: unfold MAXFILE, NDIRECT, NINDIRECT, BSIZE in *; lia. }
  specialize (Hmax ltac:(lia)). set (o := off + tot). set (n1 := baddr v a (o / BSIZE)). set (m := Z.min (n - tot) (BSIZE - o mod BSIZE)).
  pose proof (Z.mod_pos_bound o BSIZE ltac:(done)) as Ho. destruct (Hread o ltac:(lia)) as [Hn1 Hl1]. fold n1 in Hn1, Hl1.
  destruct (bmap_hit p x s1 D W ip xi v l s (o / BSIZE) H Hdev) as (s2 & E1 & H2); [apply block_index; lia|done|done|].
  pose proof H2 as [Hip H2'].
  destruct (bread_fs p x _ D W ∅ v l s2 n1 H2' ltac:(done) Hroom) as (b & s3 & E2 & H3).
  assert (bdata b s3 = Ret (v n1) s3) as E3 by (eapply bdata_fs; [exact H3|apply lookup_insert_eq]).
  assert (lsub (v n1) (o mod BSIZE) m = fbytes v a o m) as Eb by (apply fbytes_block; [lia|lia|done|done]).
  assert (length (fbytes v a o m) = Z.to_nat m) as Hlm by apply fbytes_length.
  destruct (either_copyout_step p x T ps dst s0 s1 (fbytes v a off tot) (fbytes v a o m) s3 n Hok Hd)
    as (r & m' & j & E4 & Em & Hd' & Hr); [rewrite !fbytes_length; lia|lia|apply H3|exact (mach_fs p x _ D W _ v l s3 H3)|].
  rewrite fbytes_length, Hlm, !Z2Nat.id in E4 by lia.
  pose proof (fi_set_mach s1 _ s3 m' Em (conj Hip H3)) as [_ H4].
  destruct (brelse_fs p x _ D W _ v l n1 b _ H4) as (s5 & E5 & H5); [apply lookup_insert_eq| |].
  { intros Hn. by apply (clean_fs p x (inode_in s1 ip xi) D W ∅ v l s2). }
  rewrite delete_insert_id in H5 by done.
  erewrite bind_Ret by exact E1. erewrite bind_Ret by (eapply fi_at; exact H2). rewrite Hdev.
  erewrite bind_Ret by exact E2. erewrite bind_Ret by exact E3. fold m. rewrite Eb. erewrite bind_Ret by exact E4.
  rewrite fbytes_length in Hr. destruct Hr as [[-> Ej]|(-> & Hj & Hf)].
  - change (0 =? -1) with false. cbn match. erewrite bind_Ret by exact E5. cbn [runs ret].
    pose proof MAXFILE_eq. unfold MAXFILE, NDIRECT, NINDIRECT, BSIZE in *. rewrite !u32_small by lia.
    exists (Z.to_nat (n - (tot + m))). split; [lia|]. rewrite Ej in Hd'. unfold o in Hd' |- *. rewrite <- fbytes_app in Hd' |- * by lia.
    split_and!; [done|lia|lia|lia|apply padd_padd; lia|done|]. by exists (set_mach m' s1).
  - change (-1 =? -1) with true. cbn match. erewrite bind_Ret by exact E5. cbn [runs ret]. exists (set_mach m' s1). split; [done|].
    right. exists (tot + Z.of_nat j). split; [done|]. split; [lia|]. rewrite fbytes_length in Hf.
    rewrite fbytes_app by lia. fold o. rewrite <- (Nat2Z.id j), fbytes_take in Hd' by lia. rewrite Nat2Z.inj_add, Z2Nat.id in Hf by lia.
    split; [done|exact Hf].
Qed.
End readi.

(** The number of bytes [readi] is to deliver. *)
Definition read_len (xi : inode) (off n : Z) : Z :=
  if (i_size xi <? off) || (2 ^ 32 <=? off + n) then 0 else Z.min n (i_size xi - off).

Lemma readi_fs p x T ps D W ip s0 xi v l dst off n s : let k := read_len xi off n in
  fi p x s0 D W ip xi ∅ v l s -> i_dev xi = ROOTDEV -> buf_room l ∅ -> 0 <= off < 2 ^ 32 -> 0 <= n < 2 ^ 32 ->
  readable xi v off k -> dst_ok x T ps dst s0 k ->
  runs (read_done p x T ps D W ip s0 xi v l dst off k) (readi ip dst off n s).
Proof.
  intros k H Hdev Hroom Hoff Hn Hread Hok. unfold readi. erewrite bind_Ret by by eapply fi_at.
  pose proof (delivered_nil x T ps dst s0 k Hok) as Hnil.
  assert (u32 (off + n) = if 2 ^ 32 <=? off + n then off + n - 2 ^ 32 else off + n) as Eu.
  { unfold u32. destruct (Z.leb_spec (2 ^ 32) (off + n)); [|apply Z.mod_small; lia].
    symmetry. apply (Z.mod_unique _ _ 1); lia. }
  assert ((u32 (off + n) <? off) = (2 ^ 32 <=? off + n)) as Ew.
  { rewrite Eu. destruct (Z.leb_spec (2 ^ 32) (off + n)); [apply Z.ltb_lt; lia|apply Z.ltb_ge; lia]. }
  rewrite Ew. destruct ((i_size xi <? off) || (2 ^ 32 <=? off + n)) eqn:Eb.
  - cbn. exists s0. unfold k, read_len. rewrite Eb. split; [done|]. by left.
  - bdestr. assert (k = Z.min n (i_size xi - off)) as Ek by (unfold k, read_len; by rewrite (proj2 (Z.ltb_ge _ _)), (proj2 (Z.leb_gt _ _)) by lia).
    assert ((if i_size xi <? u32 (off + n) then i_size xi - off else n) = k) as ->.
    { rewrite Eu, (proj2 (Z.leb_gt _ _)) by lia. destruct (Z.ltb_spec (i_size xi) (off + n)); lia. }
    eapply (runs_loop _ (readi_at p x T ps D W ip s0 xi v l dst off k) _ (Z.to_nat k)).
    + intros j st t. apply readi_step; try done; lia.
    + cbn. split_and!; [f_equal; lia|lia|lia|lia| |done|by exists s0].
      destruct dst as [va|pa|bs]; cbn; [|by rewrite Z.add_0_r|done]. rewrite u64_small, Z.add_0_r; [done|]. cbn in Hok. lia.
    + lia.
Qed.

(** ** Sources *)

Section source.
Context (p : nat) (x : proc) (T : ptree).
Local Abbreviation root := (p_pagetable x).

(** The [n] bytes at [src], and that they can be read. *)
Definition src_bytes (src : place) (s0 : kstate) (n : Z) : list Z :=
  match src with
  | PUser va => uread (ram (mach s0)) T va n
  | PKern pa => bytes (ram (mach s0)) pa n
  | PLocal bs => take (Z.to_nat n) bs
  end.
Definition src_ok (src : place) (s0 : kstate) (n : Z) : Prop :=
  match src with
  | PUser va => KERNBASE <= kend (mach s0) /\ pt_rep (kend (mach s0)) (ram (mach s0)) root T /\
      umapped (ram (mach s0)) T va n /\ 0 <= va /\ va + n < 2 ^ 64
  | PKern _ => True
  | PLocal bs => n <= Z.of_nat (length bs) /\ Forall byte bs
  end.

Lemma src_length src s0 n : src_ok src s0 n -> 0 <= n -> length (src_bytes src s0 n) = Z.to_nat n.
Proof.
  destruct src as [va|pa|bs]; cbn; intros H Hn; [by apply uread_length|apply length_bytes|].
  rewrite length_take. lia.
Qed.

Lemma src_byte src s0 n : src_ok src s0 n -> Forall byte (src_bytes src s0 n).
Proof.
  destruct src as [va|pa|bs]; cbn; intros H.
  - unfold uread. apply Forall_fmap, Forall_forall. intros i _. apply ld8_range.
  - unfold bytes. apply Forall_fmap, Forall_forall. intros i _. apply ld8_range.
  - apply Forall_take, H.
Qed.

Lemma uread_lsub m va n tot k : 0 <= tot -> 0 <= k -> tot + k <= n -> lsub (uread m T va n) tot k = uread m T (va + tot) k.
Proof.
  intros. replace n with (tot + (k + (n - tot - k))) by lia. rewrite <- !uread_app by lia. unfold lsub.
  rewrite drop_app_length', take_app_length'; [done|rewrite uread_length; lia..].
Qed.

(** One call of [either_copyin], after [tot] bytes. *)
Lemma either_copyin_step src s0 n tot m s : src_ok src s0 n -> 0 <= tot -> 0 <= m -> tot + m <= n ->
  thread p x s -> mach s = mach s0 ->
  either_copyin (padd src tot) m s = Ret (0, lsub (src_bytes src s0 n) tot m) s.
Proof.
  intros Hok Ht Hm Hn (Hcpu & Hp & _) Em. unfold either_copyin.
  erewrite bind_Ret by by apply curproc_eq. erewrite bind_Ret by by apply proc_at_eq.
  destruct src as [va|pa|bs]; cbn [padd src_ok src_bytes] in *.
  - destruct Hok as (He & Hr & Hu & Hva & Hmax). rewrite u64_small by lia. rewrite <- Em in *.
    destruct (copyin_spec root (mach s) T (va + tot) m He Hr ltac:(lia) ltac:(lia)) as (st & k & E & Hmp & Hst).
    rewrite (vm_ret _ _ _ _ E), set_mach_id.
    rewrite uread_lsub by lia. destruct Hst as [[-> ->]|(-> & Hk & H0)]; [done|]. destruct (Hu (va + tot + k)); [lia|done].
  - unfold bind. cbn [gets bindr ret]. rewrite Em. do 2 f_equal. unfold lsub.
    replace n with (tot + (m + (n - tot - m))) by lia. rewrite !bytes_app by lia.
    rewrite drop_app_length', take_app_length'; [done|rewrite length_bytes; lia..].
  - cbn. do 2 f_equal. unfold lsub. rewrite !take_drop_commute, take_take. do 2 f_equal. lia.
Qed.
End source.
