(* ===== verification/FsWrite.v ===== *)
(** * writei

    [writei] replaces a part of a file, allocates the blocks it needs and stores
    the inode. *)

From Stdlib Require Import FunctionalExtensionality.
From S2P Require Import Prelude Mem Riscv Locks Kalloc Vm VmWalk VmCopy Kstate UserMem Proc ProcSpec Sleeplock SleeplockSpec Bio BioSpec CacheOps Blk Log LogSpec LogOps FsOps Fs FileData FsAlloc FsFile FsRw.
Import Proc Sleeplock Bio Log Fs.

Section pure.
Context (sbk : superblock).
Local Abbreviation size := (sb_size sbk).
Implicit Types (v : Z -> list Z) (a : list Z).

(** The file changed and may have got blocks that were free; other blocks in use
    are as they were. *)
Record fkeep v a v' a' : Prop := {
  fp_ok : file_ok sbk v' a';
  fp_new n : owns v' a' n -> owns v a n \/ 0 <= n < size /\ used sbk v n = false;
  fp_used n : 0 <= n < size -> used sbk v n = true -> used sbk v' n = true;
  fp_frame n : data_block sbk v n -> ~ owns v a n -> v' n = v n;
  fp_addr bn : 0 <= bn < MAXFILE -> baddr v a bn <> 0 -> baddr v' a' bn = baddr v a bn;
}.

Lemma fgrow_keep v a v' a' : fgrow sbk v a v' a' -> fkeep v a v' a'.
Proof. intros []. by split. Qed.

Lemma fkeep_trans v1 a1 v2 a2 v3 a3 : fkeep v1 a1 v2 a2 -> fkeep v2 a2 v3 a3 -> fkeep v1 a1 v3 a3.
Proof.
  intros [_ N1 U1 F1 A1] [O2 N2 U2 F2 A2]. split; [done|..].
  - intros n [Ho|[Hn Hf]]%N2; [by apply N1|]. right. split; [done|].
    destruct (used sbk v1 n) eqn:E; [|done]. by rewrite U1 in Hf.
  - auto.
  - intros n (Hn & Hu & Hm & Hl) Hno. rewrite F2; [by apply F1| |].
    + split; [done|]. split; [by apply U1|done].
    + intros [Ho|[_ Hf]]%N1; [done|congruence].
  - intros bn Hbn Hb. rewrite <- (A1 bn Hbn Hb). apply A2; [done|]. by rewrite A1.
Qed.

(** The disk after a change of a data block. *)
Lemma disk_ok_upd v n d : disk_ok sbk v -> data_block sbk v n -> full_block d ->
  disk_ok sbk (upd v n d) /\ forall m, 0 <= m < size -> used sbk (upd v n d) m = used sbk v m.
Proof.
  intros Hd (Hn & Hu & Hm & Hl) Hf. assert (forall m, 0 <= m < size -> used sbk (upd v n d) m = used sbk v m) as Hsame.
  { intros m Hr. unfold used. by rewrite upd_ne by (by apply Hm). }
  split; [|done]. split; [apply Hd|..].
  - intros m Hr Hml. destruct (decide (m = n)) as [->|]; [by rewrite upd_eq|]. rewrite upd_ne by done. by apply (do_full _ _ Hd).
  - intros m Hr. rewrite Hsame by by apply (do_map _ _ Hd). by apply (do_map _ _ Hd).
  - intros m Hr. rewrite Hsame by by apply (do_log _ _ Hd). by apply (do_log _ _ Hd).
  - apply (do_apart _ _ Hd).
Qed.

(** A part of block [bn] of the file is replaced. *)
Lemma write_block v a bn o bs : let n := baddr v a bn in let v' := upd v n (lput (v n) o bs) in
  disk_ok sbk v -> file_ok sbk v a -> 0 <= bn < MAXFILE -> n <> 0 -> 0 <= o -> o + Z.of_nat (length bs) <= BSIZE ->
  Forall byte bs ->
  fkeep v a v' a /\ disk_ok sbk v' /\ (forall m, 0 <= m < size -> used sbk v' m = used sbk v m) /\
  (forall b, 0 <= b < MAXFILE -> baddr v' a b = baddr v a b) /\
  forall i, 0 <= i < MAXFILE * BSIZE -> fbyte v' a i =
    if decide (bn * BSIZE + o <= i < bn * BSIZE + o + Z.of_nat (length bs)) then nth (Z.to_nat (i - (bn * BSIZE + o))) bs 0
    else fbyte v a i.
Proof.
  intros n v' Hd Hf Hbn Hn Ho Hl Hb. pose proof (fk_owns _ _ _ Hf n (owns_data v a bn Hbn Hn)) as Hdn.
  assert (full_block (v n)) as Hfull by by apply (data_full sbk). destruct (Hfull) as [Hlen _].
  destruct (disk_ok_upd v n (lput (v n) o bs) Hd Hdn) as [Hd' Hu]; [by apply lput_full|]. fold v' in Hd', Hu.
  destruct (file_write v a bn o bs (fk_apart _ _ _ Hf) Hbn Hn Ho Hl Hlen) as (Hap & Eb & Eo & Hby). fold n v' in Hap, Eb, Eo, Hby.
  split; [split; [split; [apply Hf|done|]|..]|done].
  - intros m Hm%Eo. destruct (fk_owns _ _ _ Hf m Hm) as (H1 & H2 & H3 & H4). split; [done|]. split; [by rewrite Hu|done].
  - intros m Hm%Eo. by left.
  - intros m Hm Hmu. by rewrite Hu.
  - intros m _ Hno. unfold v'. rewrite upd_ne; [done|]. intros ->. by apply Hno, owns_data.
  - intros b Hb' _. by apply Eb.
Qed.
End pure.

(** The number of blocks that [n] bytes from [off] on touch. *)
Definition blocks (off n : Z) : Z := if 0 <? n then (off + n - 1) / BSIZE - off / BSIZE + 1 else 0.

Lemma blocks_step off n : 0 <= off -> 0 < n -> let m := Z.min n (BSIZE - off mod BSIZE) in
  blocks (off + m) (n - m) = blocks off n - 1 /\ 0 < m.
Proof.
  intros Hoff Hn m. pose proof (Z_div_mod_eq_full off BSIZE) as E. pose proof (Z.mod_pos_bound off BSIZE ltac:(done)) as Hm.
  split; [|lia]. unfold blocks. rewrite (proj2 (Z.ltb_lt 0 n)) by done. destruct (Z.ltb_spec 0 (n - m)).
  - assert (m = BSIZE - off mod BSIZE) as Em by lia.
    assert ((off + m) / BSIZE = off / BSIZE + 1) as ->; [|replace (off + m + (n - m) - 1) with (off + n - 1) by lia; lia].
    symmetry. apply (Z.div_unique _ _ _ 0); lia.
  - assert ((off + n - 1) / BSIZE = off / BSIZE) as ->; [|lia].
    symmetry. apply (Z.div_unique _ _ _ (off mod BSIZE + n - 1)); lia.
Qed.

Lemma blocks_nonneg off n : 0 <= off -> 0 <= n -> 0 <= blocks off n.
Proof.
  intros. unfold blocks. destruct (Z.ltb_spec 0 n); [|lia].
  assert (off / BSIZE <= (off + n - 1) / BSIZE) by (apply Z.div_le_mono; [done|lia]). lia.
Qed.

Section writei.
Context (p : nat) (x : proc) (T : ptree) (D : Z -> list Z) (W : list (Z * list Z)) (ip : nat).
Context (s0 : kstate) (xi : inode) (v : Z -> list Z) (l : logst) (src : place) (off n : Z).
Local Abbreviation a := (i_addrs xi).
Local Abbreviation sbk := (sb s0).
Local Abbreviation bs := (src_bytes T src s0 n).

(** The file after [tot] bytes have been written. *)
Record written (tot : Z) a' v' l' (s : kstate) : Prop := {
  wr_state : fi p x s0 D W ip (set_i_addrs a' xi) ∅ v' l' s;
  wr_disk : disk_inv s0 v';
  wr_keep : fkeep sbk v a v' a';
  wr_log : log_step sbk l l';
  wr_byte i : 0 <= i < MAXFILE * BSIZE -> fbyte v' a' i =
    if decide (off <= i < off + tot) then nth (Z.to_nat (i - off)) bs 0 else fbyte v a i;
  wr_addr i : off <= i < off + tot -> baddr v' a' (i / BSIZE) <> 0;
  wr_cost : cost s0 l' a' + blocks (off + tot) (n - tot) <= cost s0 l a + blocks off n;
  wr_avail : avail s0 v a + blocks (off + tot) (n - tot) <= avail s0 v' a' + blocks off n;
}.

Definition writei_at (k : nat) (st : Z * Z * place) (s : kstate) : Prop :=
  let '(tot, off', src') := st in
  k = Z.to_nat (n - tot) /\ 0 <= tot <= n /\ off' = off + tot /\ src' = padd src tot /\
  exists a' v' l', written tot a' v' l' s.

Hypothesis Hdev : i_dev xi = ROOTDEV.
Hypothesis Hoff : 0 <= off.
Hypothesis Hmax : off + n <= MAXFILE * BSIZE.
Hypothesis Hsrc : src_ok x T src s0 n.
Hypothesis Hfits : fits s0 (blocks off n + 2) l a.
Hypothesis Havail : blocks off n <= avail s0 v a.

(** One part of the file, in block [n1]. *)
Lemma written_next tot a1 v1 l1 s a2 v2 l2 s2 l3 s5 :
  let o := off + tot in let m := Z.min (n - tot) (BSIZE - o mod BSIZE) in let n1 := baddr v2 a2 (o / BSIZE) in
  let v3 := upd v2 n1 (lput (v2 n1) (o mod BSIZE) (lsub bs tot m)) in
  0 <= tot < n -> written tot a1 v1 l1 s -> mapped p x s0 D W ip (set_i_addrs a1 xi) v1 l1 (o / BSIZE) s2 a2 v2 l2 ->
  recorded n1 l2 l3 -> fi p x s0 D W ip (set_i_addrs a2 xi) ∅ v3 l3 s5 -> written (tot + m) a2 v3 l3 s5.
Proof using Hoff Hmax Hsrc.
  intros o m n1 v3 Ht Hw [H2 Hd2 Hg2 Hst2 Hn2 Hc2 Ha2] Hrec H5. cbn [i_addrs set_i_addrs] in *. fold n1 in Hn2, Hc2.
  pose proof (Z.mod_pos_bound o BSIZE ltac:(done)) as Ho. pose proof (Z_div_mod_eq_full o BSIZE) as Eo.
  destruct (blocks_step o (n - tot) ltac:(lia) ltac:(lia)) as [Hbl Hm]. fold m in Hbl, Hm.
  assert (Z.of_nat (length (lsub bs tot m)) = m) as Hlen.
  { unfold lsub. rewrite length_take, length_drop, (src_length x T) by (done || lia). lia. }
  assert (0 <= o / BSIZE < MAXFILE) as Hbn by (apply block_index; lia).
  destruct (write_block sbk v2 a2 (o / BSIZE) (o mod BSIZE) (lsub bs tot m) (proj1 Hd2) (fg_ok _ _ _ _ _ Hg2) Hbn Hn2)
    as (Hk3 & Hd3 & Hu3 & Ha3 & Hb3); [lia|lia|apply Forall_take, Forall_drop; by apply (src_byte x T)|]. fold n1 in Hk3, Hd3, Hu3, Ha3, Hb3. fold v3 in Hk3, Hd3, Hu3, Ha3, Hb3.
  split; [done|..].
  - destruct Hd2 as (_ & H0 & H1). split; [done|]. split; [|done]. rewrite Hu3; [done|]. pose proof (do_size _ _ Hd3).
    destruct (fk_owns _ _ _ (fg_ok _ _ _ _ _ Hg2) n1) as (? & _); [by apply owns_data|]. lia.
  - eapply fkeep_trans; [apply Hw|]. eapply fkeep_trans; [by eapply fgrow_keep|done].
  - eapply log_step_trans; [apply Hw|]. eapply log_step_trans; [done|]. eapply recorded_step; [done|].
    by apply (fk_owns _ _ _ (fg_ok _ _ _ _ _ Hg2)), owns_data.
  - intros i Hi. rewrite Hb3, Hlen, (fg_byte _ _ _ _ _ Hg2), (wr_byte _ _ _ _ _ Hw) by done.
    replace (o / BSIZE * BSIZE + o mod BSIZE) with o by lia. unfold o. repeat case_decide; try done; try lia.
    all: unfold lsub; rewrite !nth_lookup, lookup_take_lt, lookup_drop by lia; do 2 f_equal; lia.
  - intros i Hi. rewrite Ha3 by (apply block_index; lia). destruct (decide (i < o)) as [Hio|Hio].
    + assert (baddr v1 a1 (i / BSIZE) <> 0) as H1 by (apply (wr_addr _ _ _ _ _ Hw); lia).
      rewrite (fg_addr _ _ _ _ _ Hg2); [done|apply block_index; lia|done].
    + destruct (div_block o (i - o)) as [E _]; [lia|lia|lia|]. replace (o + (i - o)) with i in E by lia. by rewrite E.
  - pose proof (cost_record s0 n1 l2 l3 a2 Hrec) as Hcr. pose proof (wr_cost _ _ _ _ _ Hw) as Hc. fold o in Hc.
    replace (off + (tot + m)) with (o + m) by lia. replace (n - (tot + m)) with (n - tot - m) by lia. repeat case_decide; lia.
  - pose proof (wr_avail _ _ _ _ _ Hw) as Ha. fold o in Ha. unfold avail in *. rewrite (nfree_same s0 v2 v3 Hu3).
    replace (off + (tot + m)) with (o + m) by lia. replace (n - (tot + m)) with (n - tot - m) by lia. lia.
Qed.

Lemma writei_step k st s : writei_at k st s ->
  runs (fun r s' => match r with
                    | inl st' => exists k', (k' < k)%nat /\ writei_at k' st' s'
                    | inr c => c = (n, off + n) /\ exists a' v' l', written n a' v' l' s'
                    end) (writei_body ip n st s).
Proof using Hdev Hoff Hmax Hsrc Hfits Havail.
  destruct st as [[tot off'] src']. intros (-> & Htot & -> & -> & a1 & v1 & l1 & Hw). cbn [writei_body].
  destruct (Z.ltb_spec tot n) as [Hlt|Hge].
  2:{ assert (tot = n) as -> by lia. cbn. split; [done|]. by exists a1, v1, l1. }
  set (o := off + tot) in *. set (xi1 := set_i_addrs a1 xi). pose proof (MAXFILE_eq) as (EM & ED & EI & EB).
  pose proof (Z.mod_pos_bound o BSIZE ltac:(done)) as Ho.
  destruct (blocks_step o (n - tot) ltac:(lia) ltac:(lia)) as [Hbl Hm]. set (m := Z.min (n - tot) (BSIZE - o mod BSIZE)) in *.
  pose proof (blocks_nonneg (o + m) (n - tot - m) ltac:(lia) ltac:(lia)) as Hb0.
  pose proof (wr_cost _ _ _ _ _ Hw) as Hc. pose proof (wr_avail _ _ _ _ _ Hw) as Ha. fold o in Hc, Ha.
  destruct (bmap_fs p x s0 D W ip xi1 v1 l1 s (o / BSIZE) (wr_state _ _ _ _ _ Hw) Hdev (wr_disk _ _ _ _ _ Hw))
    as (a2 & v2 & l2 & s2 & E1 & Hmp); try change (i_addrs xi1) with a1; [apply Hw|apply block_index; lia| |lia|].
  { eapply fits_step; [exact Hfits|apply Hw|lia]. }
  pose proof Hmp as [H2 Hd2 Hg2 Hst2 Hn2 Hc2 Ha2]. change (i_addrs xi1) with a1 in *.
  assert (set_i_addrs a2 xi1 = set_i_addrs a2 xi) as Exi by (by destruct xi). rewrite Exi in H2.
  set (n1 := baddr v2 a2 (o / BSIZE)) in *. pose proof (fg_ok _ _ _ _ _ Hg2) as Hf2. pose proof H2 as [Hip H2'].
  assert (fits s0 2 l2 a2) as Hfit2.
  { eapply fits_step; [exact Hfits|eapply log_step_trans; [apply Hw|done]|]. case_decide; lia. }
  destruct (bread_fs p x _ D W ∅ v2 l2 s2 n1 H2' ltac:(done)) as (b & s3 & E2 & H3).
  { apply (room_bufs 2); [by eapply fits_room|rewrite map_size_empty; lia]. }
  set (cs := lsub bs tot m).
  pose proof (either_copyin_step p x T src s0 n tot m s3 Hsrc ltac:(lia) ltac:(lia) ltac:(lia) (cs_thread _ _ _ _ _ _ _ _ _ (proj1 H3))
    (mach_fs p x _ D W _ v2 l2 s3 H3)) as E3.
  destruct (set_bdata_fs p x _ D W _ v2 l2 n1 b s3 (lput (v2 n1) (o mod BSIZE) cs) H3) as (s4 & E4 & H4); [apply lookup_insert_eq|].
  assert (data_block sbk v2 n1) as (Hr1 & _) by (apply (fk_owns _ _ _ Hf2), owns_data; [apply block_index; lia|done]).
  destruct (log_brelse_fs p x _ D W _ _ l2 n1 b s4 H4) as (l3 & s5 & E5 & Hrec & H5);
    [apply lookup_insert_eq|pose proof (do_size _ _ (proj1 Hd2)); unfold block_ok; lia|eapply log_room_less; [by eapply fits_room|lia]|].
  rewrite delete_insert_id in H5 by done.
  erewrite bind_Ret by exact E1. erewrite bind_Ret by (eapply fi_at; exact H2).
  change (i_dev (set_i_addrs a2 xi)) with (i_dev xi). rewrite Hdev. erewrite bind_Ret by exact E2. fold o m.
  erewrite bind_Ret by exact E3. cbn beta iota. fold cs.
  erewrite bind_Ret by (eapply bdata_fs; [exact H3|apply lookup_insert_eq]). erewrite bind_Ret by exact E4.
  change (0 =? -1) with false. cbn match. rewrite (bind_Ret2 _ _ _ _ _ _ E5). cbn [runs ret].
  rewrite !u32_small by lia. exists (Z.to_nat (n - (tot + m))). split; [lia|].
  split_and!; [done|lia|lia|lia|apply padd_padd; lia|]. eexists a2, _, l3. apply (written_next tot a1 v1 l1 s a2 v2 l2 s2 l3 s5); [lia|done..].
Qed.
End writei.

Lemma file_addrs sbk v a : disk_ok sbk v -> file_ok sbk v a -> Forall (fun z => 0 <= z < 2 ^ 32) a.
Proof.
  intros Hd Hf. pose proof (do_size _ _ Hd) as Hsz. apply Forall_forall. intros z Hi.
  destruct (decide (z = 0)) as [->|Hz]; [lia|]. destruct (fk_owns _ _ _ Hf z) as (Hr & _); [|lia].
  apply addrs_owned; [apply Hf|done|done].
Qed.

Lemma iupdate_fs p x D W ip s0 xi v l s : let ib := IBLOCK (i_inum xi) (sb s0) in
  fi p x s0 D W ip xi ∅ v l s -> i_dev xi = ROOTDEV -> disk_ok (sb s0) v -> data_block (sb s0) v ib -> log_room 1 l ->
  exists l' s', iupdate ip s = Ret tt s' /\ recorded ib l l' /\
    fi p x s0 D W ip xi ∅ (upd v ib (put_dinode (v ib) (di_off (i_inum xi)) xi)) l' s'.
Proof.
  intros ib [Hip H] Hdev Hd (Hr & _) Hl. pose proof (do_size _ _ Hd).
  destruct (update_fs p x (inode_in s0 ip xi) D W ∅ v l s ib (fun d => put_dinode d (di_off (i_inum xi)) xi) H)
    as (b & s1 & l' & s' & E1 & E2 & E3 & Hrec & H'); [done|unfold block_ok; lia|by rewrite map_size_empty|].
  exists l', s'. split; [|done]. unfold iupdate. erewrite bind_Ret by by apply (fi_at p x s0 D W ip xi ∅ v l).
  erewrite bind_Ret by reflexivity. rewrite (sb_fs _ _ _ _ _ _ _ _ _ _ (proj1 H)), Hdev.
  change (sb (inode_in s0 ip xi)) with (sb s0). erewrite bind_Ret by exact E1. by erewrite bind_Ret by exact E2.
Qed.

(** The inode on the disk after [iupdate]; the file is as before. *)
Lemma inode_block v sbk a ib d : disk_ok sbk v -> data_block sbk v ib -> file_ok sbk v a -> ~ owns v a ib -> full_block d ->
  disk_ok sbk (upd v ib d) /\ file_ok sbk (upd v ib d) a /\
  (forall i, 0 <= i < MAXFILE * BSIZE -> fbyte (upd v ib d) a i = fbyte v a i) /\
  (forall b, 0 <= b < MAXFILE -> baddr (upd v ib d) a b = baddr v a b) /\
  forall m, 0 <= m < sb_size sbk -> used sbk (upd v ib d) m = used sbk v m.
Proof.
  intros Hd Hib Hf Hno Hfull. destruct (disk_ok_upd sbk v ib d Hd Hib Hfull) as [Hd' Hu].
  assert (forall n, owns v a n -> upd v ib d n = v n) as Hsame by (intros n Hn; apply upd_ne; congruence).
  split; [done|]. split; [|split; [intros i Hi; by apply fbyte_ext|split; [intros b Hb; by apply baddr_ext|done]]].
  split; [apply Hf|apply (file_apart_ext v); [done|apply Hf]|]. intros n Hn%(owns_ext v _ a n Hsame).
  destruct (fk_owns _ _ _ Hf n Hn) as (? & ? & ? & ?). split; [done|]. split; [by rewrite Hu|done].
Qed.

Lemma dinode_full d o x : full_block d -> dinode_ok x -> 0 <= o -> o + DINODE_SIZE <= BSIZE -> full_block (put_dinode d o x).
Proof.
  intros Hd Hx Ho Hl. rewrite put_dinode_eq; [|done|done|destruct Hd as [-> _]; done]. apply lput_full; [done|apply dinode_bytes_byte].
Qed.

(** What [writei] has done to the file and the disk. *)
Record file_written (sbk : superblock) (xi : inode) v (off : Z) (bs : list Z) a' v' : Prop := {
  fw_ok : file_ok sbk v' a';
  fw_byte i : 0 <= i < MAXFILE * BSIZE -> fbyte v' a' i =
    if decide (off <= i < off + Z.of_nat (length bs)) then nth (Z.to_nat (i - off)) bs 0 else fbyte v (i_addrs xi) i;
  fw_addr i : off <= i < off + Z.of_nat (length bs) -> baddr v' a' (i / BSIZE) <> 0;
  fw_keep bn : 0 <= bn < MAXFILE -> baddr v (i_addrs xi) bn <> 0 -> baddr v' a' bn <> 0;
  fw_frame m : data_block sbk v m -> ~ owns v (i_addrs xi) m -> m <> IBLOCK (i_inum xi) sbk -> v' m = v m;
  fw_used m : 0 <= m < sb_size sbk -> used sbk v m = true -> used sbk v' m = true;
  fw_new m : owns v' a' m -> owns v (i_addrs xi) m \/ 0 <= m < sb_size sbk /\ used sbk v m = false;
  fw_inode : let xi' := set_i_size (Z.max (i_size xi) (off + Z.of_nat (length bs))) (set_i_addrs a' xi) in
    let ib := IBLOCK (i_inum xi) sbk in
    v' ib = put_dinode (v ib) (di_off (i_inum xi)) xi' /\ load_dinode (v' ib) (di_off (i_inum xi)) xi' = xi';
}.

Section writei_fs.
Context (p : nat) (x : proc) (T : ptree) (D : Z -> list Z) (W : list (Z * list Z)) (ip : nat).
Context (s0 : kstate) (xi : inode) (v : Z -> list Z) (l : logst) (src : place) (off n : Z).
Local Abbreviation a := (i_addrs xi).
Local Abbreviation sbk := (sb s0).
Local Abbreviation ib := (IBLOCK (i_inum xi) sbk).

(** The end of [writei]: the size and [iupdate]. *)
Lemma writei_end a1 v1 l1 s : i_dev xi = ROOTDEV -> dinode_ok xi -> data_block sbk v ib -> ~ owns v a ib ->
  0 <= off <= i_size xi -> 0 <= n -> off + n <= MAXFILE * BSIZE -> src_ok x T src s0 n ->
  fits s0 (blocks off n + 2) l a -> disk_ok sbk v -> written p x T D W ip s0 xi v l src off n n a1 v1 l1 s ->
  exists v' l' s', let xi' := set_i_size (Z.max (i_size xi) (off + n)) (set_i_addrs a1 xi) in
    (x <- inode_at ip; (if i_size x <? off + n then inode_upd ip (set_i_size (off + n)) else ret tt);; iupdate ip;; ret (i32 n))%K s
      = Ret n s' /\
    fi p x s0 D W ip xi' ∅ v' l' s' /\ disk_inv s0 v' /\ file_written sbk xi v off (src_bytes T src s0 n) a1 v' /\
    log_step sbk l l' /\ lh_n l' <= lh_n l + blocks off n + 3 /\
    avail s0 v a <= avail s0 v' a1 + blocks off n.
Proof.
  intros Hdev Hx Hib Hno Hoff Hn Hmax Hsrc Hfit Hd [H1 Hd1 Hk1 Hst1 Hb1 Ha1 Hc1 Hav1].
  set (xi1 := set_i_addrs a1 xi) in *. set (xi' := set_i_size (Z.max (i_size xi) (off + n)) xi1).
  pose proof (MAXFILE_eq) as (EM & ED & EI & EB). pose proof (src_length x T src s0 n Hsrc Hn) as Hlen.
  assert (exists s2, (if i_size xi1 <? off + n then inode_upd ip (set_i_size (off + n)) else ret tt) s = Ret tt s2 /\
    fi p x s0 D W ip xi' ∅ v1 l1 s2) as (s2 & E2 & H2).
  { unfold xi'. change (i_size xi1) with (i_size xi). destruct (Z.ltb_spec (i_size xi) (off + n)).
    - rewrite Z.max_r by lia. by apply fi_upd.
    - rewrite Z.max_l by lia. exists s. split; [done|]. by replace (set_i_size (i_size xi) xi1) with xi1 by (by destruct xi). }
  assert (data_block sbk v1 ib) as Hib1.
  { destruct Hib as (R & U & M & L). split; [done|]. split; [by apply (fp_used _ _ _ _ _ Hk1)|done]. }
  assert (~ owns v1 a1 ib) as Hno1.
  { intros [?|[_ Hf]]%(fp_new _ _ _ _ _ Hk1); [done|]. destruct Hib as (_ & ? & _). congruence. }
  assert (fits s0 2 l1 a1) as Hfit1.
  { eapply fits_step; [exact Hfit|done|]. rewrite Z.sub_diag in Hc1. change (blocks (off + n) 0) with 0 in Hc1. lia. }
  destruct (iupdate_fs p x D W ip s0 xi' v1 l1 s2 H2 Hdev (proj1 Hd1) Hib1) as (l2 & s3 & E3 & Hrec & H3);
    [eapply log_room_less; [by eapply fits_room|lia]|].
  assert (dinode_ok xi') as Hx'.
  { destruct Hx as [X1 X2 X3 X4 X5 _]. split; cbn; try done; [lia|]. split; [apply (fk_len _ _ _ (fp_ok _ _ _ _ _ Hk1))|].
    apply (file_addrs sbk v1); [apply Hd1|apply Hk1]. }
  pose proof (di_off_range (i_inum xi)) as Ho. pose proof (data_full _ _ ib (proj1 Hd1) Hib1) as Hfull.
  destruct (inode_block v1 sbk a1 ib (put_dinode (v1 ib) (di_off (i_inum xi)) xi') (proj1 Hd1) Hib1 (fp_ok _ _ _ _ _ Hk1) Hno1)
    as (Hd2 & Hf2 & Hb2 & Ha2 & Hu2); [apply dinode_full; [done|done|lia|lia]|].
  assert (v1 ib = v ib) as Eib by (by apply (fp_frame _ _ _ _ _ Hk1)).
  exists (upd v1 ib (put_dinode (v1 ib) (di_off (i_inum xi)) xi')), l2, s3. split; [|split; [exact H3|split; [|split; [split; [done|..]|split; [|split]]]]].
  - erewrite bind_Ret by (eapply fi_at; exact H1). erewrite bind_Ret by exact E2. erewrite bind_Ret by exact E3.
    cbn. f_equal. apply i32_small. lia.
  - destruct Hd1 as (_ & H0 & Hone). split; [done|]. split; [|done]. rewrite Hu2; [done|]. destruct Hib1 as (? & _). lia.
  - intros i Hi. by rewrite Hb2, Hb1, Hlen, Z2Nat.id by (done || lia).
  - intros i Hi. rewrite Hlen, Z2Nat.id in Hi by lia. rewrite Ha2 by (apply block_index; lia). by apply Ha1.
  - intros bn Hbn Hb0. by rewrite Ha2, (fp_addr _ _ _ _ _ Hk1).
  - intros m Hm Hnm Hne. rewrite upd_ne by done. by apply (fp_frame _ _ _ _ _ Hk1).
  - intros m Hm Hu. rewrite Hu2 by done. by apply (fp_used _ _ _ _ _ Hk1).
  - intros m Hm. apply (fp_new _ _ _ _ _ Hk1). apply (owns_ext v1 _ a1 m) in Hm; [done|].
    intros k Hk. apply upd_ne. by intros ->.
  - cbn zeta. rewrite Hlen, Z2Nat.id by lia. fold xi1. fold xi'. rewrite upd_eq, Eib. split; [done|]. rewrite Eib in Hfull.
    destruct (load_put_dinode (v ib) (di_off (i_inum xi)) xi' xi' Hx') as [-> ->]; [lia|destruct Hfull; lia|by destruct xi].
  - eapply log_step_trans; [done|]. eapply recorded_step; [done|]. apply Hib1.
  - destruct Hrec as (_ & En & _). unfold fits, cost in *. rewrite Z.sub_diag in Hc1. change (blocks (off + n) 0) with 0 in Hc1.
    repeat case_decide; lia.
  - rewrite Z.sub_diag in Hav1. change (blocks (off + n) 0) with 0 in Hav1. unfold avail in *. rewrite (nfree_same _ _ _ Hu2). lia.
Qed.

Lemma writei_fs s : fi p x s0 D W ip xi ∅ v l s -> i_dev xi = ROOTDEV -> disk_inv s0 v -> file_ok sbk v a -> dinode_ok xi ->
  data_block sbk v ib -> ~ owns v a ib -> 0 <= off <= i_size xi -> 0 <= n -> off + n <= MAXFILE * BSIZE -> src_ok x T src s0 n ->
  fits s0 (blocks off n + 2) l a -> blocks off n <= avail s0 v a ->
  exists a' v' l' s', let xi' := set_i_size (Z.max (i_size xi) (off + n)) (set_i_addrs a' xi) in
    writei ip src off n s = Ret n s' /\ fi p x s0 D W ip xi' ∅ v' l' s' /\ disk_inv s0 v' /\
    file_written sbk xi v off (src_bytes T src s0 n) a' v' /\ log_step sbk l l' /\ lh_n l' <= lh_n l + blocks off n + 3 /\
    avail s0 v a <= avail s0 v' a' + blocks off n.
Proof.
  intros H Hdev Hd Hf Hx Hib Hno Hoff Hn Hmax Hsrc Hfit Hav. pose proof (MAXFILE_eq) as (EM & ED & EI & EB).
  assert (runs (fun c s' => c = (n, off + n) /\ exists a' v' l', written p x T D W ip s0 xi v l src off n n a' v' l' s')
    (loop (writei_body ip n) (0, off, src) s)) as Hl.
  { eapply (runs_loop _ (writei_at p x T D W ip s0 xi v l src off n) _ (Z.to_nat n)).
    - intros k st t Ht. eapply writei_step; [done|lia|done..].
    - cbn. split_and!; [f_equal; lia|lia|lia|lia| |].
      + destruct src as [va|pa|cs]; cbn; [|by rewrite Z.add_0_r|done]. cbn in Hsrc. rewrite u64_small, Z.add_0_r; [done|lia].
      + exists a, v, l. split; rewrite ?set_i_addrs_id, ?Z.add_0_r, ?Z.sub_0_r; try done; try lia.
        * apply fgrow_keep. by apply fgrow_refl.
        * apply log_step_refl, Hfit.
        * intros i Hi. rewrite decide_False by lia. done.
    - lia. }
  apply runs_ret in Hl as (c & s1 & E1 & -> & a1 & v1 & l1 & Hw).
  destruct (writei_end a1 v1 l1 s1) as (v' & l' & s' & E2 & Hrest); try done; [apply Hd|].
  exists a1, v', l', s'. split; [|exact Hrest]. unfold writei. erewrite bind_Ret by by eapply fi_at.
  rewrite u32_small by lia. rewrite !(proj2 (Z.ltb_ge _ _)) by lia. cbn [orb]. by erewrite bind_Ret by exact E1.
Qed.
End writei_fs.
