(* ===== verification/FsFileSpec.v ===== *)
(** * What reading and writing files guarantee

    The theorems on [readi] and [writei], and a concrete file system for which
    their hypotheses hold. *)

From S2P Require Import Prelude Mem Riscv Locks Kalloc Vm VmWalk VmCopy Kstate Proc Bio BioSpec Blk Log LogSpec LogOps FsOps Fs FileData FsAlloc FsFile FsRw FsWrite.
Import Proc Bio Log Fs.

(** C11: [readi] returns, and leaves the file system as it is.  It delivers
    exactly the bytes of the file from [off] on, as many as asked for and as the
    file has, to user memory, kernel memory or a local object; an offset past
    the end or one that wraps around reads nothing.  The result is -1 only when a
    page of the user's destination is not mapped, after the bytes before it. *)
Theorem readi_correct p x T ps D W ip s0 xi v l dst off n s : let k := read_len xi off n in
  fi p x s0 D W ip xi ∅ v l s -> i_dev xi = ROOTDEV -> buf_room l ∅ -> 0 <= off < 2 ^ 32 -> 0 <= n < 2 ^ 32 ->
  readable xi v off k -> dst_ok x T ps dst s0 k ->
  exists r s' s1, readi ip dst off n s = Ret r s' /\ fi p x s1 D W ip xi ∅ v l s' /\
    (r = (k, fbytes v (i_addrs xi) off k) /\ delivered x T ps dst s0 (fbytes v (i_addrs xi) off k) s1 \/
     exists j, r.1 = -1 /\ 0 <= j < k /\ delivered x T ps dst s0 (fbytes v (i_addrs xi) off j) s1 /\ dst_fault T dst s0 j).
Proof.
  intros k H Hdev Hroom Hoff Hn Hread Hok.
  destruct (proj1 (runs_ret _ _) (readi_fs p x T ps D W ip s0 xi v l dst off n s H Hdev Hroom Hoff Hn Hread Hok))
    as (r & s' & E & s1 & H1 & Hr). by exists r, s', s1.
Qed.

(** A file just written reads back. *)
Lemma written_readable sbk xi v off bs a' v' : disk_ok sbk v' -> file_written sbk xi v off bs a' v' ->
  0 <= off -> off + Z.of_nat (length bs) <= MAXFILE * BSIZE -> Forall byte bs ->
  let xi' := set_i_size (Z.max (i_size xi) (off + Z.of_nat (length bs))) (set_i_addrs a' xi) in
  readable xi' v' off (Z.of_nat (length bs)) /\ fbytes v' a' off (Z.of_nat (length bs)) = bs.
Proof.
  intros Hd [Hok Hb Ha _ _ _ _ _] Hoff Hmax Hbs xi'. split.
  - split; [done|]. intros i Hi. cbn [i_addrs xi' set_i_size set_i_addrs]. split; [by apply Ha|].
    apply (data_full _ _ _ Hd), (fk_owns _ _ _ Hok), owns_data; [apply block_index; lia|by apply Ha].
  - apply list_eq. intros i. destruct (decide (i < length bs)%nat) as [Hi|Hi].
    + rewrite fbytes_lookup, Hb, decide_True by lia. rewrite nth_lookup.
      replace (Z.to_nat (off + Z.of_nat i - off)) with i by lia. destruct (lookup_lt_is_Some_2 _ _ Hi) as [c ->]. done.
    + rewrite (lookup_ge_None_2 bs) by lia. apply lookup_ge_None_2. rewrite fbytes_length. lia.
Qed.

(** C10: [writei] inside an operation.  A write that would leave a hole or pass
    the largest size returns -1 and changes nothing.  Any other write that the
    log and the disk have room for returns [n]: the file then holds the source's
    bytes at [off], every other byte as before, and its size is the larger of the
    old one and the end of the write; the inode on the disk is the one in memory;
    no block of another file, and no other block in use, has changed; the log
    grew by no more than the blocks touched and three; and a [readi] of the same
    range gives the bytes back. *)
Theorem writei_correct p x T D W ip s0 xi v l src off n s : let a := i_addrs xi in let ib := IBLOCK (i_inum xi) (sb s0) in
  fi p x s0 D W ip xi ∅ v l s -> i_dev xi = ROOTDEV -> disk_inv s0 v -> file_ok (sb s0) v a -> dinode_ok xi ->
  data_block (sb s0) v ib -> ~ owns v a ib -> 0 <= off < 2 ^ 32 -> 0 <= n < 2 ^ 32 -> src_ok x T src s0 n ->
  (i_size xi < off \/ MAXFILE * BSIZE < off + n -> writei ip src off n s = Ret (-1) s) /\
  (off <= i_size xi -> off + n <= MAXFILE * BSIZE -> fits s0 (blocks off n + 2) l a -> blocks off n <= avail s0 v a ->
   exists a' v' l' s', let xi' := set_i_size (Z.max (i_size xi) (off + n)) (set_i_addrs a' xi) in
     writei ip src off n s = Ret n s' /\ fi p x s0 D W ip xi' ∅ v' l' s' /\ disk_inv s0 v' /\
     file_written (sb s0) xi v off (src_bytes T src s0 n) a' v' /\ log_step (sb s0) l l' /\ lh_n l' <= lh_n l + blocks off n + 3 /\
     (lh_n l' < LOGSIZE -> exists s'', readi ip (PLocal []) off n s' = Ret (n, src_bytes T src s0 n) s'')).
Proof.
  intros a ib H Hdev Hd Hf Hx Hib Hno Hoff Hn Hsrc. pose proof (MAXFILE_eq) as (EM & ED & EI & EB). split.
  - intros Hbad. unfold writei. erewrite bind_Ret by by eapply fi_at. destruct (Z.ltb_spec (i_size xi) off); [done|].
    destruct Hbad as [?|Hbad]; [lia|]. cbn [orb]. unfold u32. destruct (decide (off + n < 2 ^ 32)) as [Hw|Hw].
    + rewrite Z.mod_small, (proj2 (Z.ltb_ge _ _)), (proj2 (Z.ltb_lt _ _)) by lia. done.
    + rewrite <- (Z.mod_unique (off + n) (2 ^ 32) 1 (off + n - 2 ^ 32)), (proj2 (Z.ltb_lt _ off)) by lia. done.
  - intros Hsz Hmax Hfit Hav.
    destruct (writei_fs p x T D W ip s0 xi v l src off n s) as (a' & v' & l' & s' & E & H' & Hd' & Hw & Hst & Hl & _); try done; [lia..|].
    exists a', v', l', s'. cbn zeta. do 6 (split; [done|]). intros Hlt.
    pose proof (src_length x T src s0 n Hsrc ltac:(lia)) as Hlen.
    destruct (written_readable (sb s0) xi v off _ a' v' (proj1 Hd') Hw) as [Hr Eb]; [lia|lia|by apply (src_byte x T)|].
    rewrite Hlen, Z2Nat.id in Hr, Eb by lia. set (xi' := set_i_size _ _) in *.
    assert (read_len xi' off n = n) as Ek.
    { unfold read_len. cbn [i_size xi' set_i_size]. rewrite (proj2 (Z.ltb_ge _ _)), (proj2 (Z.leb_gt _ _)) by lia. cbn. lia. }
    pose proof (readi_fs p x T [] D W ip s0 xi' v' l' (PLocal []) off n s' H' Hdev) as Hrd. rewrite Ek in Hrd.
    destruct (proj1 (runs_ret _ _) (Hrd ltac:(split; [apply (ls_wf _ _ _ Hst)|rewrite map_size_empty; lia]) Hoff Hn Hr ltac:(done)))
      as (r & s'' & E2 & s1 & _ & [[-> _]|(j & _ & _ & _ & [])]). exists s''. rewrite E2. change (i_addrs xi') with a'. by rewrite Eb.
Qed.

(** An empty file, inode 1 in block 2, on a disk of seven blocks. *)
Definition demo_inode (t : Z) : inode := MkInode ROOTDEV 1 1 zero_sleeplock true t 0 0 1 0 (repeat 0 13).
Definition demo_sb : superblock := MkSuperblock FSMAGIC 7 4 16 0 0 2 1.
Definition demo_blocks (n : Z) : list Z := default zeros (({[1 := 7 :: repeat 0 1023]} : gmap Z (list Z)) !! n).

Lemma empty_baddr v b : baddr v (repeat 0 13) b = 0.
Proof. unfold baddr. destruct (b <? NDIRECT); [apply nth_repeat|done]. Qed.

Lemma empty_owns v n : ~ owns v (repeat 0 13) n.
Proof. intros [Hn [->|(b & _ & E)]]; [by apply Hn|]. by rewrite empty_baddr in E. Qed.

Lemma empty_file_ok sbk v : file_ok sbk v (repeat 0 13).
Proof.
  split; [done| |by intros n ?%empty_owns]. by split; [intros b b' _ _|intros b _]; rewrite empty_baddr.
Qed.

Lemma demo_file t : 0 <= t < 2 ^ 15 -> exists s0 s, fi 0 demo_proc s0 demo_blocks [] 0 (demo_inode t) ∅ demo_blocks demo_oplog s /\ sb s0 = demo_sb /\
  disk_inv s0 demo_blocks /\ file_ok demo_sb demo_blocks (i_addrs (demo_inode t)) /\ dinode_ok (demo_inode t) /\
  data_block demo_sb demo_blocks 2.
Proof.
  intros Ht. destruct (demo_image_fs {[1 := 7 :: repeat 0 1023]} demo_sb [demo_inode t]) as (s0 & s & H & Esb & Eit).
  destruct (demo_bitmap_ok 7 7 FSMAGIC 4 16 0) as [Hd Hu]; [lia|split; lia|done|]. fold demo_sb in Hd, Hu.
  change (fun n => default zeros _) with demo_blocks in *. exists s0, s. rewrite Esb.
  split_and!; try done.
  - split; [rewrite Eit; cbn; lia|]. unfold inode_in. rewrite Eit. cbn [insert list_insert]. rewrite <- Eit.
    by replace (set_itable (itable s0) s0) with s0 by (by destruct s0).
  - split; rewrite Esb; [done|]. split; [by rewrite (proj2 (Hu 0 ltac:(cbn; lia)))|by vm_compute].
  - apply empty_file_ok.
  - split; [cbn; lia|split; by vm_compute..|]. split; [reflexivity|]. repeat (constructor; [lia|]). constructor.
  - split; [cbn; lia|]. split; [by rewrite (proj2 (Hu 2 ltac:(cbn; lia)))|]. split; [intros j Hj; by rewrite (proj1 (Hu j Hj))|].
    unfold log_area, in_log. cbn. lia.
Qed.

Lemma demo_avail s0 : sb s0 = demo_sb -> blocks 0 2 <= avail s0 demo_blocks (repeat 0 13).
Proof.
  intros Esb. unfold avail, nfree. rewrite Esb.
  destruct (demo_bitmap_ok 7 7 FSMAGIC 4 16 0) as [_ Hu]; [lia|split; lia|done|]. fold demo_sb in Hu.
  change (fun n => default zeros _) with demo_blocks in Hu.
  assert ([3; 4] ⊆+ filter (fun n => used demo_sb demo_blocks n = false) (seqZ 0 (sb_size demo_sb))) as Hs.
  { apply NoDup_submseteq; [by apply (bool_decide_unpack _); vm_compute|]. intros k Hk. apply list_elem_of_filter.
    assert (3 <= k <= 4) as Hr by (apply elem_of_cons in Hk as [->|Hk%list_elem_of_singleton]; lia).
    split; [|apply elem_of_seqZ; cbn; lia]. rewrite (proj2 (Hu k ltac:(cbn; lia))).
    assert (k = 3 \/ k = 4) as [->| ->] by lia; done. }
  apply submseteq_length in Hs. cbn [length] in Hs. rewrite decide_True by done. change (blocks 0 2) with 1. lia.
Qed.

Lemma demo_fits s0 : fits s0 (blocks 0 2 + 2) demo_oplog (repeat 0 13).
Proof.
  destruct (demo_log_room 5 ltac:(lia)) as (Hwf & _). split; [done|]. unfold cost. change (blocks 0 2 + 2) with 3.
  change (lh_n demo_oplog) with 0. change (l_size demo_oplog) with 40. change LOGSIZE with 30. change (l_outstanding demo_oplog) with 1.
  repeat case_decide; lia.
Qed.

Lemma writei_correct_witness : exists s s' s'', writei 0 (PLocal [72; 105]) 0 2 s = Ret 2 s' /\
  readi 0 (PLocal []) 0 2 s' = Ret (2, [72; 105]) s''.
Proof.
  destruct (demo_file T_FILE ltac:(done)) as (s0 & s & H & Esb & Hd & Hf & Hx & Hib).
  assert (IBLOCK (i_inum (demo_inode T_FILE)) demo_sb = 2) as Eib by (vm_compute; reflexivity).
  destruct (proj2 (writei_correct 0 demo_proc ∅ demo_blocks [] 0 s0 (demo_inode T_FILE) demo_blocks demo_oplog (PLocal [72; 105]) 0 2 s H eq_refl Hd
    ltac:(by rewrite Esb) Hx ltac:(by rewrite Esb, Eib) (empty_owns _ _) ltac:(lia) ltac:(lia)
    ltac:(split; [cbn; lia|repeat constructor; lia])))
    as (a' & v' & l' & s' & E & _ & _ & _ & _ & Hl & Hr); [by vm_compute|by vm_compute|apply demo_fits|by apply demo_avail|].
  destruct Hr as (s'' & Er); [change (lh_n demo_oplog) with 0 in Hl; change (blocks 0 2) with 1 in Hl; change LOGSIZE with 30; lia|].
  by exists s, s', s''.
Defined.

(** A file of three bytes in block 3. *)
Lemma readi_correct_witness : exists s s', readi 0 (PLocal []) 1 10 s = Ret (2, [66; 67]) s'.
Proof.
  set (d := {[3 := [65; 66; 67] ++ repeat 0 1021]} : gmap Z (list Z)).
  set (xi := MkInode ROOTDEV 1 1 zero_sleeplock true T_FILE 0 0 1 3 (3 :: repeat 0 12)).
  destruct (demo_image_fs d demo_sb [xi]) as (s0 & s & H & Esb & Eit). set (v := fun n => default zeros (d !! n)) in *.
  assert (fi 0 demo_proc s0 v [] 0 xi ∅ v demo_oplog s) as Hi.
  { split; [rewrite Eit; cbn; lia|]. unfold inode_in. rewrite Eit. cbn [insert list_insert]. rewrite <- Eit.
    by replace (set_itable (itable s0) s0) with s0 by (by destruct s0). }
  destruct (readi_correct 0 demo_proc ∅ [] v [] 0 s0 xi v demo_oplog (PLocal []) 1 10 s Hi eq_refl)
    as (r & s' & s1 & E & _ & Hr); [|lia|lia| |done|].
  - split; [apply (demo_log_room 5); lia|]. vm_compute. reflexivity.
  - split; [by vm_compute|]. intros i Hi'. change (read_len xi 1 10) with 2 in Hi'. rewrite Z.div_small by (unfold BSIZE; lia).
    split; [by vm_compute|]. vm_compute. reflexivity.
  - destruct Hr as [[-> _]|(j & _ & _ & _ & [])]. exists s, s'. rewrite E. f_equal.
Defined.
