(* ===== verification/FsDir.v ===== *)
(** * Directories

    [dirlookup] and [dirlink] over the entries of a directory: the search reads
    the directory's file and finds the first entry of the name, and a new entry
    goes into the first free place, or at the end. *)

From S2P Require Import Prelude Mem Riscv Locks Kalloc Vm VmWalk VmCopy Kstate UserMem Proc ProcSpec Sleeplock SleeplockSpec Bio BioSpec CacheOps Blk Log LogSpec LogOps FsOps Fs FileData FsAlloc FsFile FsRw FsWrite FsFileSpec.
Import Proc Sleeplock Bio Log Fs.

(** ** Names *)

(** Two names are the same when their first [DIRSIZ] characters are, up to the
    end of the string. *)
Lemma strncmp_eq n p q : lstrncmp n p q = 0 <-> lstrncpy n p = lstrncpy n q.
Proof.
  revert p q; induction n as [|n IH]; intros p q; cbn [lstrncmp lstrncpy]; [done|].
  destruct (Z.eqb_spec (hd 0 p) 0) as [E|E]; cbn [negb andb].
  - destruct (Z.eqb_spec (hd 0 q) 0) as [E'|E']; [split; [done|lia]|]. split; [lia|]. cbn [repeat]. intros [= H]. lia.
  - destruct (Z.eqb_spec (hd 0 p) (hd 0 q)) as [E'|E'].
    + rewrite <- E', (proj2 (Z.eqb_neq _ _)), IH by done. split; [by intros ->|by intros [=]].
    + split; [lia|]. destruct (Z.eqb_spec (hd 0 q) 0); cbn [repeat]; intros [= H]; lia.
Qed.

Lemma strncpy_idem n p : lstrncpy n (lstrncpy n p) = lstrncpy n p.
Proof.
  revert p; induction n as [|n IH]; intros p; [done|]. cbn [lstrncpy]. destruct (Z.eqb_spec (hd 0 p) 0) as [E|E]; [done|].
  cbn [hd tl]. by rewrite (proj2 (Z.eqb_neq _ _)), IH.
Qed.

Lemma strncpy_length n t : length (lstrncpy n t) = n.
Proof.
  revert t; induction n as [|n IH]; intros t; [done|]. cbn [lstrncpy]. destruct (hd 0 t =? 0); [apply repeat_length|]. cbn. by rewrite IH.
Qed.

Lemma strncpy_byte n t : Forall byte t -> Forall byte (lstrncpy n t).
Proof.
  revert t; induction n as [|n IH]; intros t Ht; cbn [lstrncpy]; [constructor|]. destruct (hd 0 t =? 0); [apply zero_bytes|].
  destruct Ht; cbn [hd tl]; constructor; done || apply IH; done || constructor.
Qed.

(** The entry is one for [name]. *)
Definition entry_of (name de : list Z) : Prop := de_inum de <> 0 /\ namecmp name (de_name de) = 0.
#[global] Instance entry_of_dec name de : Decision (entry_of name de) := _.

(** Its place in the entries, and the inode number it has. *)
Definition dir_find (name : list Z) (es : list (list Z)) : option (Z * Z) :=
  match list_find (entry_of name) es with Some (k, de) => Some (de_inum de, DIRENT_SIZE * Z.of_nat k) | None => None end.

Lemma new_entry inum name : 0 < inum < 2 ^ 16 ->
  let de := mk_dirent (u16 inum) (lstrncpy (Z.to_nat DIRSIZ) name) in
  length de = Z.to_nat DIRENT_SIZE /\ de_inum de = inum /\ forall other, entry_of other de <-> namecmp other name = 0.
Proof.
  intros Hi de. pose proof (strncpy_length (Z.to_nat DIRSIZ) name) as El.
  assert (u16 inum = inum) as Eu by (apply Z.mod_small; lia).
  assert (de_inum de = inum) as Ei.
  { unfold de_inum, de, get16, mk_dirent, lsub. change (Z.to_nat 0) with 0%nat. rewrite drop_0, take_app_le by (rewrite le_bytes_length; done).
    rewrite take_ge by (by rewrite le_bytes_length). rewrite le_val_bytes, Eu. apply Z.mod_small. cbn; lia. }
  assert (de_name de = lstrncpy (Z.to_nat DIRSIZ) name) as En.
  { unfold de_name, de, mk_dirent, lsub. rewrite drop_app_ge by (by rewrite le_bytes_length). rewrite le_bytes_length. change (Z.to_nat 2 - 2)%nat with 0%nat.
    rewrite drop_0. apply take_ge. by rewrite El. }
  split; [unfold de, mk_dirent; by rewrite length_app, le_bytes_length, El|]. split; [done|].
  intros other. unfold entry_of, namecmp. rewrite Ei, En, !strncmp_eq, strncpy_idem. split; [tauto|]. intros ->. split; [lia|done].
Qed.

(** A new entry for [name] in place [k], which is free or at the end, of a
    directory without one: [name] leads to it, and other names to what they led. *)
Lemma dir_find_new es es' k name de inum : dir_find name es = None -> (forall d, es !! k = Some d -> de_inum d = 0) ->
  (k <= length es)%nat -> (forall j, es' !! j = if decide (j = k) then Some de else es !! j) ->
  de_inum de = inum -> (forall other, entry_of other de <-> namecmp other name = 0) ->
  forall other, dir_find other es' = if decide (namecmp other name = 0) then Some (inum, DIRENT_SIZE * Z.of_nat k) else dir_find other es.
Proof.
  intros Hno Hfree Hk He Hi Hde other. unfold dir_find in *.
  assert (forall j d, es !! j = Some d -> namecmp other name = 0 -> ~ entry_of other d) as Hnone.
  { destruct (list_find (entry_of name) es) as [[]|] eqn:E; [done|]. apply list_find_None in E.
    intros j d Hj Hon [H1 H2]. apply (Forall_lookup_1 _ _ _ _ E Hj). split; [done|]. unfold namecmp in *.
    rewrite strncmp_eq in *. congruence. }
  assert (forall d, es !! k = Some d -> ~ entry_of other d) as Hfr by (intros d ?%Hfree [? _]; done).
  case_decide as Hd.
  - assert (list_find (entry_of other) es' = Some (k, de)) as ->; [|by rewrite Hi]. apply list_find_Some.
    rewrite He, decide_True by done. split; [done|]. split; [by apply Hde|].
    intros j d Hj Hlt. rewrite He, decide_False in Hj by lia. by eapply Hnone.
  - assert (list_find (entry_of other) es' = list_find (entry_of other) es) as ->; [|done].
    destruct (list_find (entry_of other) es) as [[j d]|] eqn:E.
    + apply list_find_Some in E as (Hj & Hm & Hl). apply list_find_Some. rewrite He. destruct (decide (j = k)) as [->|Hne]; [by destruct (Hfr d Hj)|].
      split; [done|]. split; [done|]. intros i y Hy Hlt. rewrite He in Hy. case_decide; [|by eapply Hl].
      injection Hy as <-. by rewrite Hde.
    + apply list_find_None in E. apply list_find_None, Forall_lookup. intros i y Hy. rewrite He in Hy.
      case_decide; [injection Hy as <-; by rewrite Hde|]. by apply (Forall_lookup_1 _ _ _ _ E Hy).
Qed.

(** ** The search *)

(** A loop whose last iteration does [m] and leaves. *)
Lemma loop_last {S A B} n (f : A -> M S (A + B)) a s a' s' (m : M S B) : Z.of_nat n < 2 ^ 64 ->
  iter_n n f a s = Ret (inl a') s' -> f a' s' = (b <- m; ret (inr b))%K s' -> loop f a s = m s'.
Proof.
  intros Hn Hi Hf. unfold loop, bind. rewrite iter_p_n. destruct (fuel_split (n + 1) ltac:(lia)) as [k ->].
  rewrite <- Nat.add_assoc, iter_n_add, Hi. cbn [bindr Nat.add iter_n]. unfold bind in *. rewrite Hf, !bindr_assoc.
  transitivity (bindr (m s') ret); [by apply bindr_ext|]. generalize (m s'). clear. intros r.
  induction r as [| |s k IH|]; cbn; [done..| |done]. f_equal. apply FunctionalExtensionality.functional_extensionality. intros. apply IH.
Qed.

Section dir.
Context (p : nat) (x : proc) (D : Z -> list Z) (W : list (Z * list Z)) (ip : nat) (s0 : kstate).
Implicit Types (v : Z -> list Z) (xi : inode) (l : logst).

(** The entries of a directory. *)
Definition dirents v (a : list Z) (n : Z) : list (list Z) :=
  (fun k => fbytes v a (DIRENT_SIZE * k) DIRENT_SIZE) <$> seqZ 0 (n / DIRENT_SIZE).

(** A directory without holes. *)
Record dir_ok xi v : Prop := {
  dr_dev : i_dev xi = ROOTDEV;
  dr_type : i_type xi = T_DIR;
  dr_size : 0 <= i_size xi <= MAXFILE * BSIZE;
  dr_entries : i_size xi mod DIRENT_SIZE = 0;
  dr_read : readable xi v 0 (i_size xi);
}.

Lemma dirents_length v a n : 0 <= n -> n mod DIRENT_SIZE = 0 -> DIRENT_SIZE * Z.of_nat (length (dirents v a n)) = n.
Proof.
  intros Hn Hm. unfold dirents. rewrite length_fmap, length_seqZ. unfold DIRENT_SIZE in *. pose proof (Z_div_mod_eq_full n 16). lia.
Qed.

Lemma dirents_lookup v a n (k : nat) : DIRENT_SIZE * Z.of_nat k < n -> n mod DIRENT_SIZE = 0 ->
  dirents v a n !! k = Some (fbytes v a (DIRENT_SIZE * Z.of_nat k) DIRENT_SIZE).
Proof.
  unfold DIRENT_SIZE. intros Hk Hn. pose proof (Z_div_mod_eq_full n 16). unfold dirents. rewrite list_lookup_fmap, lookup_seqZ_lt by (unfold DIRENT_SIZE; lia). done.
Qed.

(** One entry is read. *)
Lemma read_entry xi v l s (k : nat) de : fi p x s0 D W ip xi ∅ v l s -> dir_ok xi v -> buf_room l ∅ ->
  dirents v (i_addrs xi) (i_size xi) !! k = Some de ->
  exists s', readi ip (PLocal []) (DIRENT_SIZE * Z.of_nat k) DIRENT_SIZE s = Ret (DIRENT_SIZE, de) s' /\ fi p x s0 D W ip xi ∅ v l s' /\
    0 <= DIRENT_SIZE * Z.of_nat k /\ DIRENT_SIZE * Z.of_nat k + DIRENT_SIZE <= i_size xi.
Proof.
  intros H [Hdev Ht Hsz Hmod [Hmax Hr]] Hroom Hk. change (MAXFILE * BSIZE) with 274432 in Hsz.
  pose proof (lookup_lt_Some _ _ _ Hk) as Hlt. pose proof (dirents_length v (i_addrs xi) (i_size xi) ltac:(lia) Hmod) as Hl.
  unfold DIRENT_SIZE in *. rewrite dirents_lookup in Hk by (unfold DIRENT_SIZE; lia). injection Hk as <-. unfold DIRENT_SIZE.
  set (off := 16 * Z.of_nat k). assert (read_len xi off 16 = 16) as Ek.
  { unfold read_len. rewrite (proj2 (Z.ltb_ge _ _)), (proj2 (Z.leb_gt _ _)) by lia. cbn. lia. }
  pose proof (readi_fs p x ∅ [] D W ip s0 xi v l (PLocal []) off 16 s H Hdev Hroom ltac:(lia) ltac:(lia)) as Hrd. rewrite Ek in Hrd.
  destruct (proj1 (runs_ret _ _) (Hrd ltac:(split; [lia|intros i Hi; apply Hr; lia]) ltac:(done)))
    as (r & s' & E & s1 & H1 & [[-> Hd]|(j & _ & _ & _ & [])]).
  cbn in Hd. subst s1. exists s'. split; [exact E|]. split; [done|lia].
Qed.

(** A search that stops at the first entry with [P]. *)
Lemma scan_fs {B} xi v l (body : Z -> M kstate (Z + B)) (P : list Z -> Prop) `{HP : !forall de, Decision (P de)} (fin : list Z -> Z -> M kstate B) (none : B) :
  let es := dirents v (i_addrs xi) (i_size xi) in dir_ok xi v ->
  (forall (k : nat) de s, es !! k = Some de -> fi p x s0 D W ip xi ∅ v l s -> exists s', fi p x s0 D W ip xi ∅ v l s' /\
     body (DIRENT_SIZE * Z.of_nat k) s = (if decide (P de) then b <- fin de (DIRENT_SIZE * Z.of_nat k); ret (inr b)
                                          else ret (inl (DIRENT_SIZE * Z.of_nat k + DIRENT_SIZE)))%K s') ->
  (forall s, fi p x s0 D W ip xi ∅ v l s -> body (i_size xi) s = Ret (inr none) s) ->
  forall s, fi p x s0 D W ip xi ∅ v l s -> exists s', fi p x s0 D W ip xi ∅ v l s' /\
    loop body 0 s = match list_find P es with Some (k, de) => fin de (DIRENT_SIZE * Z.of_nat k) s' | None => Ret none s' end.
Proof.
  intros es [_ _ Hsz Hmod _] Hbody Hend. pose proof (dirents_length v (i_addrs xi) (i_size xi) ltac:(lia) Hmod) as Hl. fold es in Hl.
  assert (forall n s, (n <= length es)%nat -> fi p x s0 D W ip xi ∅ v l s -> (forall k de, es !! k = Some de -> (k < n)%nat -> ~ P de) ->
    exists s', fi p x s0 D W ip xi ∅ v l s' /\ iter_n n body 0 s = Ret (inl (DIRENT_SIZE * Z.of_nat n)) s') as Hiter.
  { induction n as [|n IH]; intros s Hn H Hno; [by exists s|].
    destruct (IH s ltac:(lia) H) as (s1 & H1 & E1); [intros; eapply Hno; [done|lia]|].
    destruct (lookup_lt_is_Some_2 es n) as [de Hde]; [lia|]. destruct (Hbody n de s1 Hde H1) as (s2 & H2 & E2).
    rewrite decide_False in E2 by (eapply Hno; [done|lia]). exists s2. split; [done|].
    replace (S n) with (n + 1)%nat by lia. rewrite iter_n_add, E1. cbn [bindr]. rewrite iter_n_1, E2.
    unfold ret. do 2 f_equal. unfold DIRENT_SIZE. lia. }
  change (MAXFILE * BSIZE) with 274432 in Hsz. unfold DIRENT_SIZE in Hl.
  intros s H. destruct (list_find P es) as [[k de]|] eqn:E.
  - apply list_find_Some in E as (Hk & Hp & Hno). pose proof (lookup_lt_Some _ _ _ Hk) as Hlt.
    destruct (Hiter k s ltac:(lia) H) as (s1 & H1 & E1); [intros j d Hj Hlt'; by eapply Hno|].
    destruct (Hbody k de s1 Hk H1) as (s2 & H2 & E2). rewrite decide_True in E2 by done. exists s2. split; [done|].
    eapply (loop_last k body 0 s (DIRENT_SIZE * Z.of_nat k) s1 (fun _ => fin de (DIRENT_SIZE * Z.of_nat k) s2)); [lia|done|done].
  - apply list_find_None in E. destruct (Hiter (length es) s ltac:(lia) H) as (s1 & H1 & E1); [intros j d Hj _; by apply (Forall_lookup_1 _ _ _ _ E Hj)|].
    exists s1. split; [done|]. apply (loop_exit (length es + 1)); [lia|]. rewrite iter_n_add, E1. cbn [bindr]. rewrite iter_n_1.
    unfold DIRENT_SIZE. rewrite Hl. by apply Hend.
Qed.

(** [dirlookup] is a search of the entries: for a name that has one it goes on
    with [iget] of the inode. *)
Lemma dirlookup_fs xi v l name s : fi p x s0 D W ip xi ∅ v l s -> dir_ok xi v -> buf_room l ∅ ->
  exists s', fi p x s0 D W ip xi ∅ v l s' /\
    dirlookup ip name s = match dir_find name (dirents v (i_addrs xi) (i_size xi)) with
                          | Some (inum, off) => (i <- iget ROOTDEV inum; ret (Some (i, off)))%K s'
                          | None => Ret None s'
                          end.
Proof.
  intros H Hd Hroom. pose proof (dr_dev _ _ Hd) as Hdev. pose proof (dr_size _ _ Hd) as Hsz. change (MAXFILE * BSIZE) with 274432 in Hsz.
  unfold dirlookup. erewrite bind_Ret by by eapply fi_at. rewrite (dr_type _ _ Hd). cbn [negb Z.eqb T_DIR Pos.eqb].
  destruct (scan_fs xi v l (dirlookup_body ip name) (entry_of name) (fun de off => i <- iget ROOTDEV (de_inum de); ret (Some (i, off)))%K None Hd) with (s := s)
    as (s' & H' & E); [..|done|].
  - intros k de s1 Hk H1. destruct (read_entry xi v l s1 k de H1 Hd Hroom Hk) as (s2 & E2 & H2 & Hk0 & Hk1). exists s2. split; [done|].
    unfold dirlookup_body. erewrite bind_Ret by (eapply fi_at; exact H1). unfold DIRENT_SIZE in Hk1. rewrite (proj2 (Z.ltb_lt _ _)) by (unfold DIRENT_SIZE; lia).
    erewrite bind_Ret by exact E2. cbn beta iota. rewrite Z.eqb_refl. cbn [negb]. rewrite u32_small by (unfold DIRENT_SIZE in *; lia).
    destruct (Z.eqb_spec (de_inum de) 0) as [E0|E0]; [by rewrite decide_False by (intros [? _]; done)|].
    destruct (Z.eqb_spec (namecmp name (de_name de)) 0) as [E1|E1]; [|by rewrite decide_False by (intros [_ ?]; done)].
    rewrite decide_True by done. rewrite Hdev. unfold bind. by rewrite bindr_assoc.
  - intros s1 H1. unfold dirlookup_body. erewrite bind_Ret by (eapply fi_at; exact H1). by rewrite Z.ltb_irrefl.
  - exists s'. split; [done|]. rewrite E. unfold dir_find. by destruct (list_find _ _) as [[]|].
Qed.
(** The place for a new entry: the first with inode number 0, or the end. *)
Definition free_entry (de : list Z) : Prop := de_inum de = 0.
#[local] Instance free_entry_dec de : Decision (free_entry de) := _.
Definition free_place (es : list (list Z)) : nat := match list_find free_entry es with Some (k, _) => k | None => length es end.

Lemma free_place_fs xi v l s : let es := dirents v (i_addrs xi) (i_size xi) in
  fi p x s0 D W ip xi ∅ v l s -> dir_ok xi v -> buf_room l ∅ ->
  exists s', loop (dirlink_body ip) 0 s = Ret (DIRENT_SIZE * Z.of_nat (free_place es)) s' /\ fi p x s0 D W ip xi ∅ v l s'.
Proof.
  intros es H Hd Hroom. destruct (scan_fs xi v l (dirlink_body ip) free_entry (fun de off => ret off) (i_size xi) Hd) with (s := s)
    as (s' & H' & E); [..|done|].
  - intros k de s1 Hk H1. destruct (read_entry xi v l s1 k de H1 Hd Hroom Hk) as (s2 & E2 & H2 & Hk0 & Hk1). exists s2. split; [done|].
    unfold dirlink_body. erewrite bind_Ret by (eapply fi_at; exact H1). unfold DIRENT_SIZE in Hk1. rewrite (proj2 (Z.ltb_lt _ _)) by (unfold DIRENT_SIZE; lia).
    erewrite bind_Ret by exact E2. cbn beta iota. rewrite Z.eqb_refl. cbn [negb].
    destruct (Z.eqb_spec (de_inum de) 0) as [E0|E0]; [by rewrite decide_True|by rewrite decide_False].
  - intros s1 H1. unfold dirlink_body. erewrite bind_Ret by (eapply fi_at; exact H1). by rewrite Z.ltb_irrefl.
  - exists s'. split; [|done]. rewrite E. unfold free_place. fold es. destruct (list_find _ es) as [[]|]; [done|].
    unfold es. rewrite dirents_length; [done|apply Hd|apply Hd].
Qed.

Lemma free_place_spec es : (free_place es <= length es)%nat /\ forall d, es !! free_place es = Some d -> de_inum d = 0.
Proof.
  unfold free_place. destruct (list_find free_entry es) as [[k de]|] eqn:E.
  - apply list_find_Some in E as (Hk & Hf & _). split; [apply Nat.lt_le_incl; by eapply lookup_lt_Some|]. intros d Hd. congruence.
  - split; [done|]. intros d Hd%lookup_lt_Some. lia.
Qed.

(** An entry is inside one block. *)
Lemma entry_block (k : nat) : blocks (DIRENT_SIZE * Z.of_nat k) DIRENT_SIZE = 1.
Proof.
  unfold blocks, DIRENT_SIZE, BSIZE. rewrite (proj2 (Z.ltb_lt _ _)) by lia.
  pose proof (Z_div_mod_eq_full (16 * Z.of_nat k) 1024). pose proof (Z_div_mod_eq_full (16 * Z.of_nat k + 16 - 1) 1024).
  pose proof (Z.mod_pos_bound (16 * Z.of_nat k) 1024 ltac:(lia)). pose proof (Z.mod_pos_bound (16 * Z.of_nat k + 16 - 1) 1024 ltac:(lia)).
  replace 1024 with (16 * 64) in * by lia. rewrite Zmult_mod_distr_l in *. lia.
Qed.

(** The entries of a directory after [de] has been written in place [k]. *)
Lemma dirents_written sbk xi v (k : nat) de a' v' : let es := dirents v (i_addrs xi) (i_size xi) in let off := DIRENT_SIZE * Z.of_nat k in
  let xi' := set_i_size (Z.max (i_size xi) (off + DIRENT_SIZE)) (set_i_addrs a' xi) in
  dir_ok xi v -> disk_ok sbk v' -> file_written sbk xi v off de a' v' -> length de = Z.to_nat DIRENT_SIZE -> (k <= length es)%nat ->
  off + DIRENT_SIZE <= MAXFILE * BSIZE ->
  dir_ok xi' v' /\ forall j, dirents v' a' (i_size xi') !! j = if decide (j = k) then Some de else es !! j.
Proof.
  intros es off xi' [Hdev Ht Hsz Hmod [Hmax Hr]] Hd [Hok Hb Ha Hkp _ _] Hlen Hk Hfit.
  pose proof (dirents_length v (i_addrs xi) (i_size xi) ltac:(lia) Hmod) as Hl. fold es in Hl.
  assert (i_size xi' mod DIRENT_SIZE = 0) as Hmod'.
  { cbn [i_size xi' set_i_size]. destruct (Z.max_spec (i_size xi) (off + DIRENT_SIZE)) as [[_ ->]|[_ ->]]; [|done].
    unfold off. replace (DIRENT_SIZE * Z.of_nat k + DIRENT_SIZE) with ((Z.of_nat k + 1) * DIRENT_SIZE) by lia. by apply Z.mod_mul. }
  rewrite Hlen in Hb, Ha. change (Z.of_nat (Z.to_nat DIRENT_SIZE)) with DIRENT_SIZE in *.
  assert (0 <= i_size xi' <= MAXFILE * BSIZE) as Hsz' by (cbn; lia).
  assert (i_size xi <= i_size xi' <= i_size xi + DIRENT_SIZE /\ off + DIRENT_SIZE <= i_size xi') as Hs' by (cbn; unfold off, DIRENT_SIZE in *; lia).
  split; [split; [done|done|done|done|]|].
  - split; [lia|]. intros i Hi. cbn [i_addrs xi' set_i_size set_i_addrs]. assert (0 <= i / BSIZE < MAXFILE) as Hi' by (apply block_index; lia).
    assert (baddr v' a' (i / BSIZE) <> 0) as Hnz.
    { destruct (decide (off <= i < off + DIRENT_SIZE)); [by apply Ha|]. apply Hkp; [done|]. apply Hr. cbn in Hi. unfold off, DIRENT_SIZE in *. lia. }
    split; [done|]. apply (data_full _ _ _ Hd), (fk_owns _ _ _ Hok), owns_data; done.
  - intros j. pose proof (dirents_length v' a' (i_size xi') ltac:(lia) Hmod') as Hl'. destruct (decide (DIRENT_SIZE * Z.of_nat j < i_size xi')) as [Hj|Hj].
    + rewrite dirents_lookup by done. assert (forall i, DIRENT_SIZE * Z.of_nat j <= i < DIRENT_SIZE * Z.of_nat j + DIRENT_SIZE -> 0 <= i < MAXFILE * BSIZE) as Hrange.
      { intros i Hi. clearbody xi'. unfold DIRENT_SIZE in *. pose proof (Z_div_mod_eq_full (i_size xi') 16). lia. }
      case_decide as E; [subst j; f_equal|].
      * apply list_eq. intros i. destruct (decide (i < length de)%nat) as [Hi|Hi].
        -- rewrite Hlen in Hi. rewrite fbytes_lookup, Hb, decide_True by (try apply Hrange; fold off; unfold DIRENT_SIZE in *; lia).
           destruct (lookup_lt_is_Some_2 de i ltac:(lia)) as [c Hc]. rewrite Hc. f_equal. rewrite nth_lookup. fold off.
           replace (Z.to_nat (off + Z.of_nat i - off)) with i by lia. by rewrite Hc.
        -- rewrite (lookup_ge_None_2 de) by lia. apply lookup_ge_None_2. rewrite fbytes_length. lia.
      * unfold es. rewrite dirents_lookup by (done || (cbn [i_size xi' set_i_size] in Hj; unfold off, DIRENT_SIZE in *; lia)). f_equal. unfold fbytes. apply list_fmap_ext. intros i y Hy.
        apply lookup_seqZ in Hy as [-> Hi]. rewrite Hb, decide_False; [done|unfold off, DIRENT_SIZE in *; lia|apply Hrange; unfold DIRENT_SIZE in *; lia].
    + rewrite (lookup_ge_None_2 (dirents v' _ _)) by (unfold DIRENT_SIZE in *; lia). rewrite decide_False by (unfold off, DIRENT_SIZE in *; intros ->; lia).
      symmetry. apply lookup_ge_None_2. unfold DIRENT_SIZE in *. lia.
Qed.
End dir.

(** C12: [dirlink].  When the directory has an entry for the name the result is
    -1, after [iget] and [iput] of the inode found.  Otherwise, when the log and
    the disk have room, it returns 0: the name then leads to the inode, every
    other name to what it led before, the directory is still one and no block of
    another file has changed; and [dirlookup] finds the inode. *)
Theorem dirlink_correct p x D W ip s0 xi v l name inum s : let a := i_addrs xi in let es := dirents v a (i_size xi) in
  fi p x s0 D W ip xi ∅ v l s -> dir_ok xi v -> buf_room l ∅ -> disk_inv s0 v -> file_ok (sb s0) v a -> dinode_ok xi ->
  data_block (sb s0) v (IBLOCK (i_inum xi) (sb s0)) -> ~ owns v a (IBLOCK (i_inum xi) (sb s0)) -> 0 < inum < 2 ^ 16 -> Forall byte name ->
  match dir_find name es with
  | Some (n, _) => exists s', fi p x s0 D W ip xi ∅ v l s' /\ dirlink ip name inum s = (i <- iget ROOTDEV n; iput i;; ret (-1))%K s'
  | None => i_size xi + DIRENT_SIZE <= MAXFILE * BSIZE -> fits s0 3 l a -> 1 <= avail s0 v a ->
      exists a' v' l' s', let off := DIRENT_SIZE * Z.of_nat (free_place es) in
        let xi' := set_i_size (Z.max (i_size xi) (off + DIRENT_SIZE)) (set_i_addrs a' xi) in
        dirlink ip name inum s = Ret 0 s' /\ fi p x s0 D W ip xi' ∅ v' l' s' /\ disk_inv s0 v' /\ file_ok (sb s0) v' a' /\ dir_ok xi' v' /\
        (forall other, dir_find other (dirents v' a' (i_size xi')) = if decide (namecmp other name = 0) then Some (inum, off) else dir_find other es) /\
        (forall m, data_block (sb s0) v m -> ~ owns v a m -> m <> IBLOCK (i_inum xi) (sb s0) -> v' m = v m) /\
        lh_n l' <= lh_n l + 4 /\ (lh_n l' < LOGSIZE -> exists s'', dirlookup ip name s' = (i <- iget ROOTDEV inum; ret (Some (i, off)))%K s'')
  end.
Proof.
  intros a es H Hd Hroom Hdisk Hf Hx Hib Hno Hi Hby. destruct (dirlookup_fs p x D W ip s0 xi v l name s H Hd Hroom) as (s1 & H1 & E1).
  fold a es in E1. destruct (dir_find name es) as [[n off]|] eqn:Efind.
  - exists s1. split; [done|]. unfold dirlink, bind in *. rewrite E1. cbn beta iota. by rewrite bindr_assoc.
  - intros Hmax Hfit Hav. destruct (free_place_fs p x D W ip s0 xi v l s1 H1 Hd Hroom) as (s2 & E2 & H2). fold a es in E2.
    destruct (free_place_spec es) as [Hk Hfree]. set (k := free_place es) in *. destruct (new_entry inum name Hi) as (Hlen & Hinum & Hde).
    set (de := mk_dirent _ _) in *. assert (Forall byte de) as Hdb.
    { apply Forall_app. split; [apply le_bytes_byte|]. by apply strncpy_byte. }
    pose proof (dirents_length v a (i_size xi) (proj1 (dr_size _ _ Hd)) (dr_entries _ _ Hd)) as Hl. fold es in Hl. unfold DIRENT_SIZE in *.
    pose proof (entry_block k) as Hblk. unfold DIRENT_SIZE in Hblk.
    destruct (writei_fs p x ∅ D W ip s0 xi v l (PLocal de) (16 * Z.of_nat k) 16 s2) as (a' & v' & l' & s' & E3 & H3 & Hd3 & Hw & Hst & Hlog & _); try done;
      [apply Hd|lia|lia|split; [lia|done]|by rewrite Hblk|by rewrite Hblk|].
    cbn [src_bytes] in Hw. rewrite take_ge in Hw by lia.
    destruct (dirents_written (sb s0) xi v k de a' v' Hd (proj1 Hd3) Hw Hlen Hk) as [Hd' Hes]; [unfold DIRENT_SIZE; lia|]. unfold DIRENT_SIZE in Hd', Hes.
    exists a', v', l', s'. cbv zeta. set (xi' := set_i_size _ _) in *.
    assert (forall other, dir_find other (dirents v' a' (i_size xi')) = if decide (namecmp other name = 0) then Some (inum, 16 * Z.of_nat k) else dir_find other es) as Hfind
      by by apply (dir_find_new es _ k name de inum).
    split; [|split; [done|split; [done|split; [apply Hw|split; [done|split; [done|split; [apply Hw|split; [rewrite Hblk in Hlog; lia|]]]]]]]].
    + unfold dirlink. erewrite bind_Ret by exact E1. cbn match. erewrite bind_Ret by exact E2. unfold DIRENT_SIZE. fold de. by erewrite bind_Ret by exact E3.
    + intros Hlh. destruct (dirlookup_fs p x D W ip s0 xi' v' l' name s' H3 Hd') as (s'' & _ & E4); [split; [apply Hst|rewrite map_size_empty; lia]|].
      exists s''. rewrite E4. change (i_addrs xi') with a'. rewrite Hfind, decide_True; [done|]. unfold namecmp. by rewrite strncmp_eq.
Qed.

Lemma dirlink_correct_witness : exists s s' s'', dirlink 0 [97] 1 s = Ret 0 s' /\
  dirlookup 0 [97] s' = (i <- iget ROOTDEV 1; ret (Some (i, 0)))%K s''.
Proof.
  destruct (demo_file T_DIR ltac:(done)) as (s0 & s & H & Esb & Hd & Hf & Hx & Hib).
  assert (IBLOCK (i_inum (demo_inode T_DIR)) demo_sb = 2) as Eib by (vm_compute; reflexivity).
  assert (dir_ok (demo_inode T_DIR) demo_blocks) as Hdir by (split; [done..|split; [done|cbn; lia]]).
  destruct (dirlink_correct 0 demo_proc demo_blocks [] 0 s0 (demo_inode T_DIR) demo_blocks demo_oplog [97] 1 s H Hdir
    ltac:(split; [apply (demo_log_room 5); lia|vm_compute; reflexivity]) Hd ltac:(by rewrite Esb) Hx ltac:(by rewrite Esb, Eib) (empty_owns _ _)
    ltac:(lia) ltac:(repeat constructor; lia) ltac:(by vm_compute) (demo_fits s0) (demo_avail s0 Esb))
    as (a' & v' & l' & s' & E & _ & _ & _ & _ & _ & _ & Hl & Hr).
  destruct Hr as (s'' & Er); [change (lh_n demo_oplog) with 0 in Hl; change LOGSIZE with 30; lia|]. exists s, s', s''. split; [exact E|exact Er].
Defined.
