(* ===== verification/Mkfs.v ===== *)
(** * mkfs/mkfs.c

    The program that builds the disk image on the host.  The image file is the
    map of its blocks that have been written; reading past its end or failing an
    assertion ends the program, as [die] does.  The host is little endian, and
    its [lseek] and [write] succeed. *)

From S2P Require Import Prelude Riscv Kstate Blk Bio Fs FileData.
Import Bio Fs.

Module Mkfs.

Definition NINODES : Z := 200.
Definition nbitmap : Z := FSSIZE / (BSIZE * 8) + 1.
Definition ninodeblocks : Z := NINODES / IPB + 1.
Definition nlog : Z := LOGSIZE.
Definition nmeta : Z := 2 + nlog + ninodeblocks + nbitmap.
Definition nblocks : Z := FSSIZE - nmeta.

(** The value whose bytes in memory are those of [x] in Intel order. *)
Definition xshort (x : Z) : Z := le_val [u8 x; u8 (Z.shiftr x 8)].
Definition xint (x : Z) : Z := le_val [u8 x; u8 (Z.shiftr x 8); u8 (Z.shiftr x 16); u8 (Z.shiftr x 24)].

(** struct dinode *)
Record dinode := MkDinode {
  din_type : Z; din_major : Z; din_minor : Z; din_nlink : Z; din_size : Z; din_addrs : list Z
}.
Definition set_size (z : Z) (d : dinode) : dinode :=
  MkDinode (din_type d) (din_major d) (din_minor d) (din_nlink d) z (din_addrs d).
Definition set_addrs (a : list Z) (d : dinode) : dinode :=
  MkDinode (din_type d) (din_major d) (din_minor d) (din_nlink d) (din_size d) a.

(** The in-memory inode with the fields of a dinode, and the bytes of a dinode. *)
Definition inode_of (d : dinode) : inode :=
  MkInode 0 0 0 zero_sleeplock false (din_type d) (din_major d) (din_minor d) (din_nlink d) (din_size d) (din_addrs d).
Definition din_bytes (d : dinode) : list Z := dinode_bytes (inode_of d).
Definition din_load (buf : list Z) (o : Z) : dinode :=
  MkDinode (di_type buf o) (di_major buf o) (di_minor buf o) (di_nlink buf o) (di_size buf o) (di_addrs buf o).

(** The globals and the image. *)
Record mkfs := MkMkfs {
  img : gmap Z (list Z);
  freeinode : Z;
  freeblock : Z;
  sb : superblock;
}.
Definition set_img (i : gmap Z (list Z)) (s : mkfs) : mkfs := MkMkfs i (freeinode s) (freeblock s) (sb s).
Definition set_freeinode (n : Z) (s : mkfs) : mkfs := MkMkfs (img s) n (freeblock s) (sb s).
Definition set_freeblock (n : Z) (s : mkfs) : mkfs := MkMkfs (img s) (freeinode s) n (sb s).
Definition set_sb (b : superblock) (s : mkfs) : mkfs := MkMkfs (img s) (freeinode s) (freeblock s) b.

(** Before main; [fsfd] is a new file. *)
Definition start : mkfs := MkMkfs ∅ 1 0 (MkSuperblock 0 0 0 0 0 0 0 0).

Definition die {A} (s : string) : M mkfs A := panic s.
Definition assert (b : bool) : M mkfs unit := if b then ret tt else panic "Assertion failed".

(** The block at offset [sec * BSIZE], computed as a uint. *)
Definition sector (sec : Z) : Z := u32 (sec * BSIZE) / BSIZE.

Definition wsect (sec : Z) (buf : list Z) : M mkfs unit :=
  modify (fun s => set_img (<[sector sec := buf]> (img s)) s).

Definition rsect (sec : Z) : M mkfs (list Z) :=
  (i <- gets img;
   match i !! sector sec with Some buf => ret buf | None => die "read" end)%K.

Definition winode (inum : Z) (ip : dinode) : M mkfs unit :=
  (b <- gets sb;
   let bn := IBLOCK inum b in
   buf <- rsect bn;
   wsect bn (lput buf (di_off inum) (din_bytes ip)))%K.

Definition rinode (inum : Z) : M mkfs dinode :=
  (b <- gets sb;
   let bn := IBLOCK inum b in
   buf <- rsect bn;
   ret (din_load buf (di_off inum)))%K.

Definition ialloc (type : Z) : M mkfs Z :=
  (inum <- gets freeinode;
   modify (set_freeinode (u32 (inum + 1)));;
   winode inum (MkDinode (i16 (xshort type)) 0 0 (i16 (xshort 1)) (xint 0) (repeat 0 13));;
   ret inum)%K.

(** The bitmap with the first [used] bits set. *)
Definition balloc (used : Z) : M mkfs unit :=
  (assert (used <? BSIZE * 8);;
   b <- gets sb;
   wsect (sb_bmapstart b)
     (fold_left (fun buf i => put8 buf (i / 8) (Z.lor (get8 buf (i / 8)) (Z.shiftl 1 (i mod 8)))) (seqZ 0 used) zeros))%K.

(** [xint(freeblock++)] *)
Definition new_block : M mkfs Z :=
  (b <- gets freeblock;
   modify (set_freeblock (u32 (b + 1)));;
   ret (xint b))%K.

(** The block of part [fbn] of the file, and the dinode with its address. *)
Definition find_block (din : dinode) (fbn : Z) : M mkfs (Z * dinode) :=
  if fbn <? NDIRECT then
    (din <- (if xint (nth (Z.to_nat fbn) (din_addrs din) 0) =? 0 then
               b <- new_block; ret (set_addrs (<[Z.to_nat fbn := b]> (din_addrs din)) din)
             else ret din);
     ret (xint (nth (Z.to_nat fbn) (din_addrs din) 0), din))%K
  else
    (din <- (if xint (nth (Z.to_nat NDIRECT) (din_addrs din) 0) =? 0 then
               b <- new_block; ret (set_addrs (<[Z.to_nat NDIRECT := b]> (din_addrs din)) din)
             else ret din);
     let i := xint (nth (Z.to_nat NDIRECT) (din_addrs din) 0) in
     indirect <- rsect i;
     indirect <- (if get32 indirect (4 * (fbn - NDIRECT)) =? 0 then
                    b <- new_block;
                    let indirect := put32 indirect (4 * (fbn - NDIRECT)) b in
                    wsect i indirect;;
                    ret indirect
                  else ret indirect);
     ret (xint (get32 indirect (4 * (fbn - NDIRECT))), din))%K.

(** The loop of [iappend]: the dinode, the offset and the bytes left. *)
Definition iappend_body (st : dinode * Z * list Z) : M mkfs (dinode * Z * list Z + dinode * Z) :=
  let '(din, off, p) := st in
  let n := Z.of_nat (length p) in
  (if 0 <? n then
     let fbn := off / BSIZE in
     assert (fbn <? MAXFILE);;
     ' (x, din) <- find_block din fbn;
     let n1 := Z.min n (u32 ((fbn + 1) * BSIZE - off)) in
     buf <- rsect x;
     wsect x (lput buf (off - fbn * BSIZE) (take (Z.to_nat n1) p));;
     ret (inl (din, u32 (off + n1), drop (Z.to_nat n1) p))
   else ret (inr (din, off)))%K.

Definition iappend (inum : Z) (p : list Z) : M mkfs unit :=
  (din <- rinode inum;
   ' (din, off) <- loop iappend_body (din, xint (din_size din), p);
   winode inum (set_size (xint off) din))%K.

(** A directory entry; [name] fills its field with NULs. *)
Definition dirent (inum : Z) (name : list Z) : list Z := mk_dirent (xshort inum) (lstrncpy (Z.to_nat DIRSIZ) name).

Definition user_prefix : list Z := [117; 115; 101; 114; 47].   (* "user/" *)

Section files.
(** [open] and [read] of the host: the buffers that successive reads of the file
    return, until one that returns nothing or an error. *)
Variable host : list Z -> option (list (list Z)).

Definition shortname (arg : list Z) : list Z :=
  if lstrncmp 5 arg user_prefix =? 0 then drop 5 arg else arg.
(** Skip leading _ in name when writing to file system. *)
Definition image_name (arg : list Z) : list Z :=
  let n := shortname arg in if hd 0 n =? 95 then tl n else n.

Definition add_file (rootino : Z) (arg : list Z) : M mkfs unit :=
  (assert (negb (bool_decide (SLASH ∈ shortname arg)));;
   match host arg with
   | None => die "open"
   | Some chunks =>
       inum <- ialloc T_FILE;
       iappend rootino (dirent inum (image_name arg));;
       for_each chunks (iappend inum)
   end)%K.

(** struct superblock in memory *)
Definition sb_bytes (b : superblock) : list Z :=
  concat (ListDef.map (le_bytes 4) [sb_magic b; sb_size b; sb_nblocks b; sb_ninodes b; sb_nlog b; sb_logstart b; sb_inodestart b; sb_bmapstart b]).

Definition the_sb : superblock :=
  MkSuperblock FSMAGIC (xint FSSIZE) (xint nblocks) (xint NINODES) (xint nlog) (xint 2) (xint (2 + nlog)) (xint (2 + nlog + ninodeblocks)).

(** [argv] without the name of the program: the image, opened as a new file, and
    the files to put in it. *)
Definition main (argv : list (list Z)) : M mkfs unit :=
  match argv with
  | [] => die "Usage: mkfs fs.img files..."
  | _ :: files =>
      (modify (set_sb the_sb);;
       modify (set_freeblock nmeta);;
       for_range (Z.to_nat FSSIZE) 0 (fun i => wsect i zeros);;
       wsect 1 (lput zeros 0 (sb_bytes the_sb));;
       rootino <- ialloc T_DIR;
       assert (rootino =? ROOTINO);;
       iappend rootino (dirent rootino [46]);;
       iappend rootino (dirent rootino [46; 46]);;
       for_each files (add_file rootino);;
       din <- rinode rootino;
       let off := xint (din_size din) in
       let off := u32 ((off / BSIZE + 1) * BSIZE) in
       winode rootino (set_size (xint off) din);;
       used <- gets freeblock;
       balloc used)%K
  end.
End files.

End Mkfs.
