(* ===== verification/MkfsSpec.v ===== *)
(** * The image mkfs builds

    The files of an image under construction, what [iappend] and [ialloc] do to
    them, and the image [main] leaves: a file system for the kernel. *)

From S2P Require Import Prelude Riscv Kstate Blk Bio Fs LogSpec FsOps FileData FsAlloc FsFile Mkfs.
Import Bio Fs Mkfs.

Local Abbreviation b := the_sb.

(** ** The image *)

Definition blk (s : mkfs) (n : Z) : list Z := default zeros (img s !! n).

Definition img_ok (s : mkfs) : Prop :=
  Mkfs.sb s = the_sb /\ forall n, 0 <= n < FSSIZE -> exists d, img s !! n = Some d /\ full_block d.

Lemma xint_small x : 0 <= x < 2 ^ 32 -> xint x = x.
Proof.
  intros Hx. unfold xint. rewrite !Z.shiftr_div_pow2 by lia.
  cbn [le_val]. unfold u8. change (2 ^ 8) with 256. change (2 ^ 16) with (256 * 256). change (2 ^ 24) with (256 * 256 * 256).
  rewrite <- !Z.div_div by lia. pose proof (Z_div_mod_eq_full x 256). pose proof (Z_div_mod_eq_full (x / 256) 256).
  pose proof (Z_div_mod_eq_full (x / 256 / 256) 256). rewrite (Z.mod_small (x / 256 / 256 / 256) 256); [lia|].
  split; [repeat (apply Z.div_pos; [|lia]); lia|]. rewrite !Z.div_div by lia. apply Z.div_lt_upper_bound; lia.
Qed.

Lemma xshort_small x : 0 <= x < 2 ^ 16 -> xshort x = x.
Proof.
  intros Hx. unfold xshort. rewrite !Z.shiftr_div_pow2 by lia. cbn [le_val]. unfold u8. change (2 ^ 8) with 256.
  pose proof (Z_div_mod_eq_full x 256). rewrite (Z.mod_small (x / 256) 256); [lia|].
  split; [apply Z.div_pos; lia|]. apply Z.div_lt_upper_bound; lia.
Qed.

Lemma sector_small n : 0 <= n < FSSIZE -> sector n = n.
Proof. intros Hn. unfold sector. change FSSIZE with 1000 in Hn. rewrite u32_small by (unfold BSIZE; lia). by apply Z.div_mul. Qed.

Lemma rsect_eq s n : img_ok s -> 0 <= n < FSSIZE -> rsect n s = Ret (blk s n) s.
Proof.
  intros [_ H] Hn. destruct (H n Hn) as (d & E & _). unfold rsect, bind, blk. cbn [gets bindr]. by rewrite sector_small, E.
Qed.

Lemma blk_full s n : img_ok s -> 0 <= n < FSSIZE -> full_block (blk s n).
Proof. intros [_ H] Hn. destruct (H n Hn) as (d & E & Hd). unfold blk. by rewrite E. Qed.

(** [s] with block [n] replaced. *)
Definition put_blk (n : Z) (d : list Z) (s : mkfs) : mkfs := set_img (<[n := d]> (img s)) s.

Lemma wsect_eq s n d : 0 <= n < FSSIZE -> wsect n d s = Ret tt (put_blk n d s).
Proof. intros Hn. unfold wsect. by rewrite sector_small. Qed.

Lemma blk_put n d s m : blk (put_blk n d s) m = upd (blk s) n d m.
Proof. unfold blk, put_blk, upd. cbn. case_decide; [subst; by rewrite lookup_insert_eq|by rewrite lookup_insert_ne by congruence]. Qed.

Lemma put_img_ok n d s : img_ok s -> full_block d -> img_ok (put_blk n d s).
Proof.
  intros [Hs H] Hd. split; [done|]. intros m Hm. cbn. destruct (decide (m = n)) as [->|Hne].
  - exists d. by rewrite lookup_insert_eq.
  - rewrite lookup_insert_ne by congruence. by apply H.
Qed.

(** ** Files of the image *)

(** The file with addresses [a] has its first [m] parts, and its indirect block
    when [w], in blocks below [fb]; it holds [c] followed by zeros. *)
Record file_is (v : Z -> list Z) (fb : Z) (a : list Z) (m : Z) (w : bool) (c : list Z) : Prop := {
  fi_len : length a = Z.to_nat (NDIRECT + 1);
  fi_apart : file_apart v a;
  fi_owns n : owns v a n -> nmeta <= n < fb;
  fi_parts bn : 0 <= bn < MAXFILE -> baddr v a bn <> 0 <-> bn < m;
  fi_ind : indirect a <> 0 <-> w = true;
  fi_byte i : 0 <= i < MAXFILE * BSIZE -> fbyte v a i = nth (Z.to_nat i) c 0;
}.

Lemma file_is_ext v v' fb fb' a m w c : (forall n, owns v a n -> v' n = v n) -> fb <= fb' ->
  file_is v fb a m w c -> file_is v' fb' a m w c.
Proof.
  intros Hs Hle [H1 H2 H3 H4 H5 H6]. split; [done|by apply (file_apart_ext v)|..|done|].
  - intros n Hn%(owns_ext v v' a n Hs). specialize (H3 n Hn). lia.
  - intros bn Hbn. rewrite (baddr_ext v v') by done. by apply H4.
  - intros i Hi. rewrite (fbyte_ext v v') by done. by apply H6.
Qed.

(** The image while a file with addresses [a] is being written. *)
Record cur (s : mkfs) (a : list Z) (m : Z) (w : bool) (c : list Z) : Prop := {
  cu_img : img_ok s;
  cu_fb : nmeta <= freeblock s <= FSSIZE;
  cu_zero n : freeblock s <= n < FSSIZE -> blk s n = zeros;
  cu_file : file_is (blk s) (freeblock s) a m w c;
}.

(** What writing to the file does: it takes blocks from [freeblock] on, and
    leaves every other block alone. *)
Record grown (s : mkfs) (a : list Z) (m : Z) (w : bool) (s' : mkfs) (a' : list Z) (m' : Z) (w' : bool) (c' : list Z) : Prop := {
  gr_cur : cur s' a' m' w' c';
  gr_inode : freeinode s' = freeinode s;
  gr_fb : freeblock s' = freeblock s + (m' - m) + (Z.b2z w' - Z.b2z w);
  gr_le : freeblock s <= freeblock s';
  gr_frame n : n < freeblock s -> ~ owns (blk s) a n -> blk s' n = blk s n;
  gr_owns n : owns (blk s') a' n -> owns (blk s) a n \/ freeblock s <= n < freeblock s';
}.

Lemma grown_none s a m w c : cur s a m w c -> grown s a m w s a m w c.
Proof. intros H. split; auto; lia. Qed.

Lemma grown_trans s a m w s1 a1 m1 w1 c1 s2 a2 m2 w2 c2 :
  grown s a m w s1 a1 m1 w1 c1 -> grown s1 a1 m1 w1 s2 a2 m2 w2 c2 -> grown s a m w s2 a2 m2 w2 c2.
Proof.
  intros [C1 N1 F1 L1 R1 O1] [C2 N2 F2 L2 R2 O2]. split; [done|congruence|lia|lia|..].
  - intros n Hn Hno. rewrite R2; [by apply R1|lia|]. intros [?|?]%O1; [done|lia].
  - intros n [Ho|?]%O2; [|right; lia]. destruct (O1 n Ho) as [?|?]; [by left|right; lia].
Qed.

Lemma addr_range s a m w c n : cur s a m w c -> owns (blk s) a n -> 0 < n < FSSIZE /\ xint n = n.
Proof.
  intros [_ Hfb _ [_ _ Ho _ _ _]] Hn. specialize (Ho n Hn). change nmeta with 46 in Ho. change FSSIZE with 1000 in *.
  split; [lia|]. apply xint_small. lia.
Qed.

Lemma new_block_eq s : nmeta <= freeblock s < FSSIZE -> new_block s = Ret (freeblock s) (set_freeblock (freeblock s + 1) s).
Proof.
  change nmeta with 46. change FSSIZE with 1000. intros H. unfold new_block, bind. cbn [gets bindr modify ret].
  by rewrite u32_small, xint_small by lia.
Qed.

(** [freeblock] becomes part [m] of the file: [a'] is what the addresses become,
    and only the indirect block changes. *)
Lemma grown_part s a m w c s' a' : cur s a m w c -> 0 <= m < MAXFILE -> freeblock s < FSSIZE ->
  img_ok s' -> freeinode s' = freeinode s -> freeblock s' = freeblock s + 1 -> length a' = length a -> indirect a' = indirect a ->
  (forall bn, 0 <= bn < MAXFILE -> baddr (blk s') a' bn = if decide (bn = m) then freeblock s else baddr (blk s) a bn) ->
  (forall n, n <> indirect a \/ indirect a = 0 -> blk s' n = blk s n) ->
  grown s a m w s' a' (m + 1) w c.
Proof.
  intros [Hi Hfb Hz [H1 H2 H3 H4 H5 H6]] Hm Hlt Hi' En Ef El Ei Hb Hs.
  set (k := freeblock s) in *. assert (k <> 0) as Hk by (change nmeta with 46 in Hfb; lia).
  assert (~ owns (blk s) a k) as Hnk by (intros Ho%H3; lia).
  assert (baddr (blk s) a m = 0) as H0.
  { destruct (decide (baddr (blk s) a m = 0)) as [|E]; [done|]. apply H4 in E; lia. }
  assert (forall n, ~ owns (blk s) a n -> blk s' n = blk s n) as Hs'.
  { intros n Hn. apply Hs. destruct (decide (indirect a = 0)); [by right|left]. intros ->. by apply Hn, owns_ind. }
  destruct (file_add_data (blk s) a (blk s') a' m k H2 Hnk Hk H0 Ei Hb) as (A1 & A2 & A3).
  { intros bn Hbn Hb0. apply Hs. left. by apply H2. }
  { rewrite Hs' by done. apply Hz. lia. }
  split; [split; [done|lia|..]|done|lia|lia|..].
  - intros n Hn. rewrite Hs' by (intros ?%H3; lia). apply Hz. lia.
  - split; [congruence|done|..].
    + intros n [?%H3| ->]%A3; lia.
    + intros bn Hbn. rewrite Hb by done. case_decide; [subst; lia|]. rewrite H4 by done. lia.
    + by rewrite Ei.
    + intros i Hi0. by rewrite A2, H6.
  - intros n Hn Hno. by apply Hs'.
  - intros n [?| ->]%A3; [by left|right; lia].
Qed.

(** [freeblock] becomes the indirect block. *)
Lemma take_indirect s a m c : cur s a m false c -> m <= NDIRECT -> freeblock s < FSSIZE ->
  grown s a m false (set_freeblock (freeblock s + 1) s) (<[Z.to_nat NDIRECT := freeblock s]> a) m true c.
Proof.
  intros [Hi Hfb Hz [H1 H2 H3 H4 H5 H6]] Hm Hlt.
  set (k := freeblock s) in *. assert (k <> 0) as Hk by (change nmeta with 46 in Hfb; lia).
  assert (~ owns (blk s) a k) as Hnk by (intros Ho%H3; lia).
  assert (indirect a = 0) as H0 by (destruct (decide (indirect a = 0)) as [|E]; [done|by apply H5 in E]).
  destruct (file_add_indirect (blk s) a (blk s) k H1 H2 Hnk Hk H0 ltac:(done)) as (A1 & A2 & A3 & A4 & A5).
  { apply Hz. lia. }
  split; [split; [done|cbn; lia|..]|done|cbn; lia|cbn; lia|..].
  - cbn. intros n Hn. apply (Hz n). lia.
  - split; [by rewrite length_insert|done|..].
    + cbn. intros n [?%H3| ->]%A5; lia.
    + intros bn Hbn. change (blk (set_freeblock _ s)) with (blk s). rewrite A2 by done. by apply H4.
    + by rewrite A1.
    + intros i Hi0. change (blk (set_freeblock _ s)) with (blk s). by rewrite A4, H6.
  - done.
  - cbn. intros n [?| ->]%A5; [by left|right; lia].
Qed.

(** ** iappend *)

Lemma addr_xint s a m w c i : cur s a m w c -> 0 <= i <= NDIRECT -> xint (nth (Z.to_nat i) a 0) = nth (Z.to_nat i) a 0.
Proof.
  intros H Hi. destruct (decide (nth (Z.to_nat i) a 0 = 0)) as [E|E]; [by rewrite E|].
  apply (addr_range s a m w c _ H). destruct (decide (i = NDIRECT)) as [->|Hne]; [by apply owns_ind|].
  assert (0 <= i < MAXFILE) as Hm by (pose proof MAXFILE_eq; lia).
  assert (baddr (blk s) a i = nth (Z.to_nat i) a 0) as Eb by (unfold baddr; by rewrite (proj2 (Z.ltb_lt _ _)) by lia).
  rewrite <- Eb. apply owns_data; [done|congruence].
Qed.

Lemma find_direct s din m w c fbn : cur s (din_addrs din) m w c -> 0 <= fbn < NDIRECT -> fbn <= m <= fbn + 1 ->
  freeblock s + (fbn + 1 - m) <= FSSIZE ->
  exists s' a', find_block din fbn s = Ret (baddr (blk s') a' fbn, set_addrs a' din) s' /\
    grown s (din_addrs din) m w s' a' (fbn + 1) w c.
Proof.
  intros H Hf Hm Hroom. set (a := din_addrs din) in *. pose proof MAXFILE_eq as HM. unfold find_block.
  rewrite (proj2 (Z.ltb_lt _ _)) by lia. fold a. rewrite (addr_xint s a m w c fbn H) by lia.
  assert (forall v a, baddr v a fbn = nth (Z.to_nat fbn) a 0) as Eb.
  { intros. unfold baddr. by rewrite (proj2 (Z.ltb_lt _ _)) by lia. }
  pose proof (fi_parts _ _ _ _ _ _ (cu_file _ _ _ _ _ H) fbn ltac:(lia)) as Hp. rewrite Eb in Hp.
  destruct (Z.eqb_spec (nth (Z.to_nat fbn) a 0) 0) as [E|E].
  - assert (m = fbn) as -> by lia. pose proof (cu_fb _ _ _ _ _ H).
    set (a' := <[Z.to_nat fbn := freeblock s]> a). assert (length a = Z.to_nat (NDIRECT + 1)) as Hl by apply H.
    assert (grown s a fbn w (set_freeblock (freeblock s + 1) s) a' (fbn + 1) w c) as Hg.
    { apply grown_part; try done; [lia|lia|apply H|by apply length_insert|..].
      - unfold indirect, a'. rewrite !nth_lookup, list_lookup_insert_ne by lia. done.
      - intros bn Hbn. change (blk (set_freeblock _ s)) with (blk s). unfold baddr, indirect, a'.
        rewrite (nth_lookup (<[_ := _]> a) (Z.to_nat NDIRECT)), list_lookup_insert_ne, <- nth_lookup by lia.
        case_decide as Eq; [subst bn|].
        + by rewrite (proj2 (Z.ltb_lt _ _)), nth_lookup, list_lookup_insert_eq by lia.
        + destruct (Z.ltb_spec bn NDIRECT); [|done]. rewrite !nth_lookup, list_lookup_insert_ne by lia. done. }
    exists (set_freeblock (freeblock s + 1) s), a'. split; [|done].
    unfold bind. rewrite new_block_eq by lia. cbn [bindr ret set_addrs din_addrs]. fold a a'. rewrite Eb.
    rewrite (addr_xint _ a' _ _ _ fbn (gr_cur _ _ _ _ _ _ _ _ _ Hg)) by lia. done.
  - assert (m = fbn + 1) as -> by lia. exists s, a. split; [|by apply grown_none].
    unfold bind, ret. cbn [bindr]. fold a. rewrite (addr_xint s a (fbn + 1) w c fbn H), Eb by lia. by destruct din.
Qed.

(** The step that makes sure the file has an indirect block. *)
Lemma find_indirect s din m w c : cur s (din_addrs din) m w c -> NDIRECT <= m -> (w = false -> m = NDIRECT) ->
  freeblock s + (1 - Z.b2z w) <= FSSIZE ->
  exists s' a', (if xint (nth (Z.to_nat NDIRECT) (din_addrs din) 0) =? 0 then
                   b <- new_block; ret (set_addrs (<[Z.to_nat NDIRECT := b]> (din_addrs din)) din)
                 else ret din)%K s = Ret (set_addrs a' din) s' /\ grown s (din_addrs din) m w s' a' m true c.
Proof.
  intros H Hm Hw Hroom. set (a := din_addrs din) in *. rewrite (addr_xint s a m w c NDIRECT H) by done.
  pose proof (fi_ind _ _ _ _ _ _ (cu_file _ _ _ _ _ H)) as Hi. unfold indirect in Hi. pose proof (cu_fb _ _ _ _ _ H).
  destruct (Z.eqb_spec (nth (Z.to_nat NDIRECT) a 0) 0) as [E|E].
  - destruct w; [destruct Hi as [_ Hi]; by destruct (Hi eq_refl)|]. cbn in Hroom. eexists _, _. split.
    + unfold bind. rewrite new_block_eq by lia. reflexivity.
    + apply take_indirect; [done|rewrite Hw by done; lia|lia].
  - apply Hi in E as ->. exists s, a. split; [by destruct din|by apply grown_none].
Qed.

(** The part that looks the block up in the indirect block. *)
Lemma find_entry s a m c fbn : let i := indirect a in let o := 4 * (fbn - NDIRECT) in
  cur s a m true c -> NDIRECT <= fbn < MAXFILE -> fbn <= m <= fbn + 1 -> freeblock s + (fbn + 1 - m) <= FSSIZE ->
  exists d s', (d <- rsect i;
                if get32 d o =? 0 then k <- new_block; let d := put32 d o k in wsect i d;; ret d else ret d)%K s = Ret d s' /\
    xint (get32 d o) = baddr (blk s') a fbn /\ grown s a m true s' a (fbn + 1) true c.
Proof.
  intros i o H Hf Hm Hroom. pose proof MAXFILE_eq as HM. pose proof (cu_file _ _ _ _ _ H) as Hfile.
  assert (i <> 0) as Hi by by apply Hfile. pose proof (addr_range s a m true c i H (owns_ind _ _ Hi)) as [Hir _].
  pose proof (blk_full s i (cu_img _ _ _ _ _ H) ltac:(lia)) as [Hlen Hby].
  assert (forall v bn, NDIRECT <= bn -> baddr v a bn = get32 (v i) (4 * (bn - NDIRECT))) as Eb.
  { intros v bn Hbn. unfold baddr. fold i. by rewrite (proj2 (Z.ltb_ge _ _)), (proj2 (Z.eqb_neq _ _)) by done. }
  pose proof (fi_parts _ _ _ _ _ _ Hfile fbn ltac:(lia)) as Hp. rewrite Eb in Hp by lia. fold o in Hp.
  unfold bind. rewrite rsect_eq by (lia || apply H). cbn [bindr].
  destruct (Z.eqb_spec (get32 (blk s i) o) 0) as [E|E].
  - assert (m = fbn) as -> by lia. pose proof (cu_fb _ _ _ _ _ H) as Hfb. change nmeta with 46 in Hfb. change FSSIZE with 1000 in *.
    set (k := freeblock s) in *. set (s' := put_blk i (put32 (blk s i) o k) (set_freeblock (k + 1) s)).
    assert (forall n, blk s' n = upd (blk s) i (put32 (blk s i) o k) n) as Eblk by (intros n; by rewrite <- blk_put).
    assert (grown s a fbn true s' a (fbn + 1) true c) as Hg.
    { apply grown_part; try done; [lia|unfold FSSIZE; lia|..].
      - apply (put_img_ok i _ (set_freeblock (k + 1) s)); [apply H|]. apply lput_full; [done|apply le_bytes_byte].
      - intros bn Hbn. destruct (decide (bn < NDIRECT)) as [Hlt|Hge].
        + unfold baddr. rewrite (proj2 (Z.ltb_lt _ _)) by done. by rewrite decide_False by lia.
        + rewrite !Eb, Eblk, upd_eq by lia. case_decide as Eq.
          * subst bn. fold o. rewrite get32_put32 by lia. apply u32_small. lia.
          * apply get32_put32_ne; lia.
      - intros n Hn. rewrite Eblk, upd_ne; [done|]. fold i in Hn. destruct Hn; [congruence|done]. }
    eexists _, s'. split; [|split; [|done]].
    + rewrite new_block_eq by (change nmeta with 46; change FSSIZE with 1000; lia). cbn [bindr]. rewrite wsect_eq by (change FSSIZE with 1000; lia). reflexivity.
    + rewrite Eb, Eblk, upd_eq by lia. fold o k. rewrite get32_put32, u32_small, xint_small by lia. done.
  - assert (m = fbn + 1) as -> by lia. eexists _, s. split; [reflexivity|]. split; [|by apply grown_none].
    rewrite Eb by lia. fold o. apply (addr_range s a (fbn + 1) true c); [done|]. rewrite <- (Eb _ fbn) by lia.
    apply owns_data; [lia|]. rewrite Eb by lia. done.
Qed.

Lemma find_part_spec s din m w c fbn : let w' := NDIRECT <=? fbn in
  cur s (din_addrs din) m w c -> 0 <= fbn < MAXFILE -> fbn <= m <= fbn + 1 -> w = (NDIRECT <? m) ->
  freeblock s + (fbn + 1 - m) + (Z.b2z w' - Z.b2z w) <= FSSIZE ->
  exists s' a', find_block din fbn s = Ret (baddr (blk s') a' fbn, set_addrs a' din) s' /\
    grown s (din_addrs din) m w s' a' (fbn + 1) w' c.
Proof.
  intros w' H Hf Hm Ew Hroom. unfold w' in *. pose proof MAXFILE_eq as HM. destruct (Z.leb_spec NDIRECT fbn) as [Hge|Hlt].
  - destruct (find_indirect s din m w c H) as (s1 & a1 & E1 & G1); [lia|intros ->; lia|cbn in *; lia|].
    pose proof (gr_cur _ _ _ _ _ _ _ _ _ G1) as C1. pose proof (gr_fb _ _ _ _ _ _ _ _ _ G1) as F1.
    destruct (find_entry s1 a1 m c fbn C1) as (d & s2 & E2 & Ex & G2); [lia|lia|cbn in *; lia|].
    exists s2, a1. split; [|by eapply grown_trans].
    unfold find_block. rewrite (proj2 (Z.ltb_ge _ _)) by lia. unfold bind at 1. rewrite E1. cbn [bindr din_addrs set_addrs].
    rewrite (addr_xint s1 a1 m true c NDIRECT C1) by lia. fold (indirect a1).
    unfold bind in E2 |- *. destruct (rsect (indirect a1) s1); cbn [bindr] in E2 |- *; try done. rewrite E2. cbn. by rewrite <- Ex.
  - assert (w = false) as -> by (subst w; apply Z.ltb_ge; lia). cbn in Hroom. apply find_direct; [done|lia|lia|lia].
Qed.

(** The parts and the blocks of a file of [n] bytes. *)
Definition nparts (n : Z) : Z := (n + BSIZE - 1) / BSIZE.
Definition nind (n : Z) : bool := NDIRECT <? nparts n.
Definition total (n : Z) : Z := nparts n + Z.b2z (nind n).
Definition zlen (c : list Z) : Z := Z.of_nat (length c).

Lemma nparts_at n k : (k - 1) * BSIZE < n <= k * BSIZE -> nparts n = k.
Proof.
  intros H. unfold nparts. symmetry. apply (Z.div_unique _ _ _ (n + BSIZE - 1 - k * BSIZE)); unfold BSIZE in *; lia.
Qed.

Lemma nparts_bound n : (nparts n - 1) * BSIZE < n <= nparts n * BSIZE.
Proof. unfold nparts. pose proof (Z_div_mod_eq_full (n + BSIZE - 1) BSIZE). pose proof (Z.mod_pos_bound (n + BSIZE - 1) BSIZE ltac:(done)). lia. Qed.

Lemma nparts_mono n n' : n <= n' -> nparts n <= nparts n'.
Proof. intros H. apply Z.div_le_mono; [done|lia]. Qed.

Lemma total_mono n n' : n <= n' -> total n <= total n'.
Proof.
  intros H%nparts_mono. unfold total, nind. destruct (Z.ltb_spec NDIRECT (nparts n)), (Z.ltb_spec NDIRECT (nparts n')); cbn; lia.
Qed.

(** A file that is [c], in as many blocks as it needs. *)
Local Abbreviation whole s a c := (cur s a (nparts (zlen c)) (nind (zlen c)) c).
Local Abbreviation grows s a c s' a' c' :=
  (grown s a (nparts (zlen c)) (nind (zlen c)) s' a' (nparts (zlen c')) (nind (zlen c')) c').

(** Bytes [q] go into part [bn], which the file has, right after its contents. *)
Lemma write_part s a m w c bn q : let x := baddr (blk s) a bn in let o := zlen c - bn * BSIZE in
  let s' := put_blk x (lput (blk s x) o q) s in
  cur s a m w c -> 0 <= bn < MAXFILE -> bn < m -> 0 <= o -> o + zlen q <= BSIZE -> Forall byte q ->
  rsect x s = Ret (blk s x) s /\ wsect x (lput (blk s x) o q) s = Ret tt s' /\ grown s a m w s' a m w (c ++ q).
Proof.
  intros x o s' H Hbn Hm Ho Hq Hby. pose proof (cu_file _ _ _ _ _ H) as [H1 H2 H3 H4 H5 H6].
  assert (x <> 0) as Hx by by apply H4. assert (owns (blk s) a x) as Hown by by apply owns_data.
  destruct (addr_range s a m w c x H Hown) as [Hr _]. pose proof (blk_full s x (cu_img _ _ _ _ _ H) ltac:(lia)) as Hf.
  split; [apply rsect_eq; [apply H|lia]|]. split; [apply wsect_eq; lia|].
  destruct (file_write (blk s) a bn o q H2 Hbn Hx Ho Hq (proj1 Hf)) as (A1 & A2 & A3 & A4). fold x in A1, A2, A3, A4.
  set (v := upd (blk s) x (lput (blk s x) o q)) in *. assert (forall n, blk s' n = v n) as E by (intros n; apply blk_put).
  assert (file_is v (freeblock s) a m w (c ++ q)) as Hfile.
  { split; [done|done|intros n; rewrite A3; apply H3|intros b' Hb'; rewrite A2 by done; by apply H4|done|].
    intros i Hi. rewrite A4 by done. replace (bn * BSIZE + o) with (zlen c) by (unfold o; lia). unfold zlen in *. case_decide as Hd.
    - rewrite app_nth2 by lia. f_equal. lia.
    - rewrite H6 by done. destruct (decide (Z.to_nat i < length c)%nat); [by rewrite app_nth1 by lia|].
      rewrite !nth_overflow; [done|rewrite length_app; lia|lia]. }
  assert (forall n, ~ owns (blk s) a n -> blk s' n = blk s n) as Hs.
  { intros n Hn. rewrite E. unfold v. rewrite upd_ne; [done|]. by intros ->. }
  split; [split|done|change (freeblock s') with (freeblock s); lia|done|..].
  - apply put_img_ok; [apply H|]. by apply lput_full.
  - apply H.
  - intros n Hn. change (freeblock s') with (freeblock s) in Hn. rewrite Hs by (intros ?%H3; lia). by apply H.
  - by apply (file_is_ext v _ (freeblock s)); [|done|].
  - intros n _. apply Hs.
  - intros n Hn. left. apply A3. by apply (owns_ext v (blk s')).
Qed.

Lemma iappend_step s din c p : let a := din_addrs din in
  let n1 := Z.min (zlen p) ((zlen c / BSIZE + 1) * BSIZE - zlen c) in let q := take (Z.to_nat n1) p in
  whole s a c -> 0 < zlen p -> Forall byte p -> zlen c + zlen p <= MAXFILE * BSIZE ->
  freeblock s + total (zlen c + zlen p) - total (zlen c) <= FSSIZE ->
  0 < n1 <= zlen p /\ zlen (c ++ q) = zlen c + n1 /\
  exists s' a', iappend_body (din, zlen c, p) s = Ret (inl (set_addrs a' din, zlen c + n1, drop (Z.to_nat n1) p)) s' /\
    grows s a c s' a' (c ++ q).
Proof.
  intros a n1 q H Hp Hby Hmax Hroom. pose proof MAXFILE_eq as HM. set (off := zlen c) in *. set (fbn := off / BSIZE) in *.
  assert (0 <= off) as Hoff by (unfold off, zlen; lia).
  pose proof (Z_div_mod_eq_full off BSIZE) as Eo. pose proof (Z.mod_pos_bound off BSIZE ltac:(done)) as Ho. fold fbn in Eo.
  assert (0 <= fbn < MAXFILE) as Hf by (apply block_index; lia). pose proof (nparts_bound off) as Hb.
  assert (0 < n1 <= zlen p) as Hn1 by lia. assert (zlen q = n1) as Hq by (unfold zlen, q in *; rewrite length_take; lia).
  assert (zlen (c ++ q) = off + n1) as El by (unfold zlen in *; rewrite length_app; lia).
  split; [done|]. split; [done|]. assert (nparts (off + n1) = fbn + 1) as Ep by (apply nparts_at; lia).
  assert (fbn <= nparts off <= fbn + 1) as Hpo by (unfold BSIZE in *; lia).
  pose proof (total_mono (off + n1) (off + zlen p) ltac:(lia)) as Hmono. unfold total at 1 in Hmono. rewrite Ep in Hmono.
  assert (nind (off + n1) = (NDIRECT <=? fbn)) as Ew.
  { unfold nind. rewrite Ep. destruct (Z.ltb_spec NDIRECT (fbn + 1)), (Z.leb_spec NDIRECT fbn); lia || done. }
  rewrite Ew in Hmono. unfold total in Hroom at 2.
  destruct (find_part_spec s din _ _ c fbn H) as (s1 & a1 & E1 & G1); [lia|lia|done|lia|].
  destruct (write_part s1 a1 _ _ c fbn q (gr_cur _ _ _ _ _ _ _ _ _ G1)) as (E2 & E3 & G2);
    [done|lia|fold off; lia|fold off; lia|by apply Forall_take|]. fold off in E2, E3, G2.
  eexists _, a1. split; [|rewrite El, Ep, Ew; by eapply grown_trans].
  unfold iappend_body. fold (zlen p) fbn. rewrite (proj2 (Z.ltb_lt _ _)) by lia. unfold assert. rewrite (proj2 (Z.ltb_lt fbn _)) by lia.
  unfold bind. cbn [ret bindr]. rewrite E1. cbn [bindr]. rewrite E2. cbn [bindr].
  rewrite (u32_small ((fbn + 1) * BSIZE - off)) by (unfold BSIZE in *; lia). fold n1 q. rewrite E3. cbn [bindr ret].
  by rewrite u32_small by (unfold BSIZE in *; lia).
Qed.

Lemma iappend_loop k : forall s din c p, let a := din_addrs din in (length p <= k)%nat ->
  whole s a c -> Forall byte p -> zlen c + zlen p <= MAXFILE * BSIZE ->
  freeblock s + total (zlen c + zlen p) - total (zlen c) <= FSSIZE ->
  exists s' a', iter_n (S k) iappend_body (din, zlen c, p) s = Ret (inr (set_addrs a' din, zlen (c ++ p))) s' /\
    grows s a c s' a' (c ++ p).
Proof.
  induction k as [|k IH]; intros s din c p a Hk H Hby Hmax Hroom; (destruct (decide (zlen p = 0)) as [E0|E0]; [|unfold zlen in E0; try lia]).
  1,2: destruct p; [|done]; rewrite app_nil_r; exists s, a; split; [|by apply grown_none]; apply iter_n_inr; by destruct din.
  destruct (iappend_step s din c p H) as (Hn & El & s1 & a1 & E1 & G1); [unfold zlen; lia|done..|].
  set (n1 := Z.min _ _) in *. set (q := take (Z.to_nat n1) p) in *. fold a in G1.
  assert (zlen (c ++ q) + zlen (drop (Z.to_nat n1) p) = zlen c + zlen p) as Es by (unfold zlen in *; rewrite length_drop; lia).
  assert (freeblock s1 = freeblock s + total (zlen (c ++ q)) - total (zlen c)) as F1.
  { rewrite (gr_fb _ _ _ _ _ _ _ _ _ G1). unfold total. lia. }
  destruct (IH s1 (set_addrs a1 din) (c ++ q) (drop (Z.to_nat n1) p)) as (s2 & a2 & E2 & G2).
  { rewrite length_drop. unfold zlen in *. lia. }
  { apply (gr_cur _ _ _ _ _ _ _ _ _ G1). }
  { by apply Forall_drop. }
  { lia. }
  { rewrite Es. lia. }
  rewrite <- app_assoc in E2, G2. unfold q in E2 at 2, G2 at 3 4 5. rewrite take_drop in E2, G2.
  exists s2, a2. split; [|by eapply grown_trans]. rewrite (iter_n_inl _ _ _ _ _ _ E1), <- El. exact E2.
Qed.

(** ** Inodes of the image *)

Definition dino (s : mkfs) (inum : Z) : dinode := din_load (blk s (IBLOCK inum the_sb)) (di_off inum).

Lemma IBLOCK_eq inum : 0 <= inum <= NINODES -> IBLOCK inum the_sb = inum / IPB + 32 /\ 32 <= IBLOCK inum the_sb < nmeta - 1.
Proof.
  change nmeta with 46. change NINODES with 200. intros H. unfold IBLOCK. change (sb_inodestart the_sb) with 32. change IPB with 16.
  assert (0 <= inum / 16 < 13) by (split; [apply Z.div_pos; lia|apply Z.div_lt_upper_bound; lia]). rewrite u32_small by lia. lia.
Qed.

Lemma di_off_ne i j : 0 <= i <= NINODES -> 0 <= j <= NINODES -> i <> j -> IBLOCK i the_sb = IBLOCK j the_sb ->
  di_off i + DINODE_SIZE <= di_off j \/ di_off j + DINODE_SIZE <= di_off i.
Proof.
  intros Hi Hj Hne. rewrite (proj1 (IBLOCK_eq i Hi)), (proj1 (IBLOCK_eq j Hj)). unfold di_off. change IPB with 16. unfold DINODE_SIZE.
  pose proof (Z_div_mod_eq_full i 16). pose proof (Z_div_mod_eq_full j 16). lia.
Qed.

(** An inode reads as before when another one has been stored. *)
Lemma din_load_ne d o bs o' : 0 <= o -> o + zlen bs <= zlen d -> 0 <= o' ->
  o + zlen bs <= o' \/ o' + DINODE_SIZE <= o -> din_load (lput d o bs) o' = din_load d o'.
Proof.
  unfold zlen, DINODE_SIZE. intros Ho Hl Ho' Hd.
  assert (forall k m, 0 <= k -> 0 <= m -> k + m <= 64 -> lsub (lput d o bs) (o' + k) m = lsub d (o' + k) m) as Hs.
  { intros k m Hk Hm Hkm. apply lsub_lput_ne; lia. }
  pose proof (Hs 0 2 ltac:(lia) ltac:(lia) ltac:(lia)) as H0. rewrite Z.add_0_r in H0.
  unfold din_load, di_type, di_major, di_minor, di_nlink, di_size, di_addrs, get16, get32. rewrite H0, !Hs by lia. f_equal.
  apply map_ext_in. intros i [_ Hi]%in_seq. change (0 + Z.to_nat (NDIRECT + 1))%nat with 13%nat in Hi. by rewrite <- !Z.add_assoc, Hs by lia.
Qed.

Lemma din_load_eq d o x : dinode_ok (inode_of x) -> 0 <= o -> o + DINODE_SIZE <= zlen d -> din_load (lput d o (din_bytes x)) o = x.
Proof.
  intros Hx Ho Hd. destruct (load_put_dinode d o (inode_of x) (inode_of x) Hx Ho Hd) as [E1 E2].
  rewrite E2, put_dinode_eq in E1 by done. fold (din_bytes x) in E1. unfold load_dinode in E1. unfold din_load. destruct x. by injection E1 as -> -> -> -> -> ->.
Qed.

Lemma rinode_eq s inum : img_ok s -> 0 <= inum <= NINODES -> rinode inum s = Ret (dino s inum) s.
Proof.
  intros H Hi. unfold rinode, bind. cbn [gets bindr]. rewrite (proj1 H). destruct (IBLOCK_eq inum Hi) as [_ Hr].
  rewrite rsect_eq; [done|done|]. change nmeta with 46 in Hr. unfold FSSIZE. lia.
Qed.

(** What storing an inode does. *)
Record stored (s : mkfs) (inum : Z) (d : dinode) (s' : mkfs) : Prop := {
  st_img : img_ok s';
  st_this : dino s' inum = d;
  st_other j : 0 <= j <= NINODES -> j <> inum -> dino s' j = dino s j;
  st_frame n : nmeta <= n -> blk s' n = blk s n;
  st_frame' n : n < 32 -> blk s' n = blk s n;
  st_free : freeblock s' = freeblock s /\ freeinode s' = freeinode s;
}.

Lemma winode_eq s inum d : img_ok s -> 0 <= inum <= NINODES -> dinode_ok (inode_of d) ->
  exists s', winode inum d s = Ret tt s' /\ stored s inum d s'.
Proof.
  intros H Hi Hd. destruct (IBLOCK_eq inum Hi) as [_ Hr]. set (ib := IBLOCK inum the_sb) in *.
  assert (0 <= ib < FSSIZE) as Hib by (change nmeta with 46 in Hr; unfold FSSIZE; lia).
  pose proof (blk_full s ib H Hib) as Hf. pose proof (di_off_range inum) as Ho.
  pose proof (dinode_length _ Hd) as Hl. fold (din_bytes d) (zlen (din_bytes d)) in Hl.
  exists (put_blk ib (lput (blk s ib) (di_off inum) (din_bytes d)) s). split.
  - unfold winode, bind. cbn [gets bindr]. rewrite (proj1 H). fold ib. rewrite rsect_eq by done. cbn [bindr]. by rewrite wsect_eq.
  - split; [..|done].
    + apply put_img_ok; [done|]. apply lput_full; [done|apply dinode_bytes_byte].
    + unfold dino. fold ib. rewrite blk_put, upd_eq. apply din_load_eq; [done|lia|]. unfold zlen. rewrite (proj1 Hf). lia.
    + intros j Hj Hne. unfold dino. rewrite blk_put. destruct (decide (IBLOCK j the_sb = ib)) as [E|E]; [|by rewrite upd_ne].
      rewrite E, upd_eq. destruct (di_off_ne j inum Hj Hi Hne E), (di_off_range j); apply din_load_ne;
        unfold zlen in *; rewrite ?(proj1 Hf); lia.
    + intros n Hn. rewrite blk_put, upd_ne; [done|lia].
    + intros n Hn. rewrite blk_put, upd_ne; [done|lia].
Qed.

(** ** The files of the image *)

Implicit Type F : list (Z * list Z).

Definition total_of F : Z := foldr (fun f n => total (zlen f.2) + n) 0 F.

Lemma total_of_app F F' : total_of (F ++ F') = total_of F + total_of F'.
Proof. induction F as [|f F IH]; cbn; [done|]. unfold total_of in *. lia. Qed.

Lemma total_of_insert F k t c c' : F !! k = Some (t, c) ->
  total_of (<[k := (t, c')]> F) = total_of F - total (zlen c) + total (zlen c').
Proof.
  revert k; induction F as [|f F IH]; intros [|k]; [done..| |].
  - intros [= ->]. cbn. lia.
  - intros H. change (total (zlen f.2) + total_of (<[k := (t, c')]> F) = total (zlen f.2) + total_of F - total (zlen c) + total (zlen c')).
    rewrite (IH k H). lia.
Qed.

(** The addresses of inode [1 + k]. *)
Definition addrs (s : mkfs) (k : nat) : list Z := din_addrs (dino s (1 + Z.of_nat k)).

(** Inode [1 + k] is [f]: a type and contents. *)
Record inode_is (s : mkfs) (k : nat) (f : Z * list Z) : Prop := {
  ii_type : 0 <= f.1 < 2 ^ 15;
  ii_size : zlen f.2 <= MAXFILE * BSIZE;
  ii_dino : dino s (1 + Z.of_nat k) = MkDinode f.1 0 0 1 (zlen f.2) (addrs s k);
  ii_file : file_is (blk s) (freeblock s) (addrs s k) (nparts (zlen f.2)) (nind (zlen f.2)) f.2;
}.

(** The image holds the files [F], in inodes 1, 2, ...; blocks from [freeblock]
    on are unused, and no two files have a block in common. *)
Record rep (s : mkfs) F : Prop := {
  rp_img : img_ok s;
  rp_low n : 0 <= n < 32 -> blk s n = if decide (n = 1) then lput zeros 0 (sb_bytes the_sb) else zeros;
  rp_fb : freeblock s = nmeta + total_of F;
  rp_room : nmeta <= freeblock s <= FSSIZE;
  rp_zero n : freeblock s <= n < FSSIZE -> blk s n = zeros;
  rp_num : freeinode s = 1 + Z.of_nat (length F) /\ freeinode s <= NINODES;
  rp_inode k f : F !! k = Some f -> inode_is s k f;
  rp_rest j : freeinode s <= j <= NINODES -> din_type (dino s j) = 0;
  rp_apart k k' n : (k < length F)%nat -> (k' < length F)%nat -> k <> k' -> owns (blk s) (addrs s k) n -> ~ owns (blk s) (addrs s k') n;
}.

(** Other files are as they were. *)
Lemma inode_is_ext s s' k f : inode_is s k f -> dino s' (1 + Z.of_nat k) = dino s (1 + Z.of_nat k) ->
  freeblock s <= freeblock s' -> (forall n, owns (blk s) (addrs s k) n -> blk s' n = blk s n) -> inode_is s' k f.
Proof.
  intros [H1 H2 H3 H4] E Hle Hs. assert (addrs s' k = addrs s k) as Ea by (unfold addrs; by rewrite E).
  split; [done|done|by rewrite E, Ea|rewrite Ea]. by apply (file_is_ext (blk s) _ (freeblock s)).
Qed.

Lemma dinode_ok_of v fb t a m w c : file_is v fb a m w c -> 0 <= t < 2 ^ 15 -> zlen c <= MAXFILE * BSIZE -> fb <= FSSIZE ->
  dinode_ok (inode_of (MkDinode t 0 0 1 (zlen c) a)).
Proof.
  intros [Hl _ Ho _ _ _] Ht Hc Hfb. change (MAXFILE * BSIZE) with 274432 in Hc. change FSSIZE with 1000 in Hfb. change nmeta with 46 in Ho.
  split; cbn; try lia; [unfold zlen in *; lia|]. split; [done|]. apply Forall_forall. intros z Hz.
  destruct (decide (z = 0)) as [->|Hnz]; [lia|]. pose proof (Ho z (addrs_owned v a z Hl Hz Hnz)). lia.
Qed.

(** Inode [1 + k] gets the contents [c'] and the addresses [a']: the blocks of
    the file are in place in [s1], the inode is stored in [s2]. *)
Lemma rep_update s F s1 s2 k t c a' c' : rep s F -> F !! k = Some (t, c) -> zlen c' <= MAXFILE * BSIZE ->
  grows s (addrs s k) c s1 a' c' -> stored s1 (1 + Z.of_nat k) (MkDinode t 0 0 1 (zlen c') a') s2 -> rep s2 (<[k := (t, c')]> F).
Proof.
  intros [R1 R2 R3 R4 R5 R6 R7 R9 R8] Hk Hc [[C1 C2 C3 C4] G2 G3 G4 G5 G6] [S1 S2 S3 S4 S5 [S6 S7]].
  pose proof (lookup_lt_Some _ _ _ Hk) as Hlt. pose proof (R7 k _ Hk) as [I1 I2 I3 I4]. cbn [fst snd] in *.
  assert (addrs s2 k = a') as Ea by (unfold addrs; by rewrite S2).
  assert (forall i, 0 <= i <= NINODES -> i <> 1 + Z.of_nat k -> dino s2 i = dino s i) as Ei.
  { intros i Hi Hne. rewrite S3 by lia. unfold dino. destruct (IBLOCK_eq i Hi) as [_ Hib].
    rewrite G5; [done|lia|]. intros Ho%(fi_owns _ _ _ _ _ _ I4). lia. }
  assert (forall j, (j < length F)%nat -> j <> k -> dino s2 (1 + Z.of_nat j) = dino s (1 + Z.of_nat j)) as Ed by (intros; apply Ei; lia).
  assert (forall j, (j < length F)%nat -> j <> k -> addrs s2 j = addrs s j) as Eaj by (intros; unfold addrs; by rewrite Ed).
  assert (forall j n, (j < length F)%nat -> j <> k -> owns (blk s) (addrs s j) n -> blk s2 n = blk s n /\ n < freeblock s) as Hfr.
  { intros j n Hj Hne Ho. destruct (lookup_lt_is_Some_2 F j Hj) as [f Hf]. pose proof (fi_owns _ _ _ _ _ _ (ii_file _ _ _ (R7 j f Hf)) n Ho).
    split; [|lia]. rewrite S4, G5; [done|lia| |lia]. by apply (R8 j k). }
  assert (forall n, owns (blk s2) a' n <-> owns (blk s1) a' n) as Ho2.
  { intros n. apply owns_ext. intros n' Hn'%(fi_owns _ _ _ _ _ _ C4). apply S4. lia. }
  assert (forall j n, (j < length F)%nat -> j <> k -> owns (blk s2) (addrs s2 j) n -> ~ owns (blk s2) a' n) as Hap.
  { intros j n Hj Hne. rewrite Eaj, (owns_ext (blk s)) by (done || intros n' Hn'; by apply (Hfr j)). rewrite Ho2.
    intros Hoj [Hok|Hok]%G6; [by apply (R8 j k n)|]. pose proof (Hfr j n Hj Hne Hoj). lia. }
  split; rewrite ?length_insert; [done|..].
  - intros n Hn. change nmeta with 46 in R4. rewrite S5, G5, R2; [done|lia|lia| |lia]. intros Ho%(fi_owns _ _ _ _ _ _ I4).
    change nmeta with 46 in Ho. lia.
  - rewrite S6, G3, R3, (total_of_insert F k t c c' Hk). unfold total. lia.
  - lia.
  - intros n Hn. rewrite S4 by lia. apply C3. lia.
  - lia.
  - intros j f Hj. destruct (decide (j = k)) as [->|Hne].
    + rewrite list_lookup_insert_eq in Hj by done. injection Hj as <-. split; [done|done|by rewrite Ea|]. cbn [snd]. rewrite Ea.
      apply (file_is_ext (blk s1) _ (freeblock s1)); [|lia|done]. intros n Hn%(fi_owns _ _ _ _ _ _ C4). apply S4. lia.
    + rewrite list_lookup_insert_ne in Hj by done. pose proof (lookup_lt_Some _ _ _ Hj).
      apply (inode_is_ext s); [by apply R7|by apply Ed|lia|]. intros n Hn. by apply (Hfr j).
  - intros j Hj. rewrite Ei by lia. apply R9. lia.
  - intros j j' n Hj Hj' Hne. destruct (decide (j' = k)) as [->|Hj'k]; [rewrite Ea; by apply Hap|].
    destruct (decide (j = k)) as [->|Hjk]; [rewrite Ea; intros H1 H2; by apply (Hap j' n)|].
    rewrite !Eaj, (owns_ext (blk s) (blk s2) (addrs s j)), (owns_ext (blk s) (blk s2) (addrs s j')) by (done || intros n' Hn'; first [by apply (Hfr j)|by apply (Hfr j')]).
    by apply R8.
Qed.

Lemma iappend_spec s F k t c p : rep s F -> F !! k = Some (t, c) -> Forall byte p -> zlen (c ++ p) <= MAXFILE * BSIZE ->
  nmeta + total_of (<[k := (t, c ++ p)]> F) <= FSSIZE ->
  exists s', iappend (1 + Z.of_nat k) p s = Ret tt s' /\ rep s' (<[k := (t, c ++ p)]> F).
Proof.
  intros H Hk Hby Hmax Hroom. pose proof (rp_inode s F H k _ Hk) as [I1 I2 I3 I4]. cbn [fst snd] in *.
  rewrite (total_of_insert F k t c) in Hroom by done. pose proof (rp_fb _ _ H) as Efb.
  assert (zlen (c ++ p) = zlen c + zlen p) as El by (unfold zlen; rewrite length_app; lia). rewrite El in Hmax, Hroom.
  pose proof (lookup_lt_Some _ _ _ Hk) as Hlt. pose proof (rp_num _ _ H) as Hn.
  set (din := dino s (1 + Z.of_nat k)). assert (whole s (din_addrs din) c) as Hcur.
  { unfold din. rewrite I3. split; [apply H|apply H|apply H|done]. }
  destruct (iappend_loop (length p) s din c p ltac:(lia) Hcur Hby Hmax ltac:(lia)) as (s1 & a1 & E1 & G1).
  pose proof (gr_cur _ _ _ _ _ _ _ _ _ G1) as [C1 C2 C3 C4].
  destruct (winode_eq s1 (1 + Z.of_nat k) (MkDinode t 0 0 1 (zlen (c ++ p)) a1) C1) as (s2 & E2 & S2); [lia| |].
  { eapply dinode_ok_of; [exact C4|done|lia|lia]. }
  exists s2. split; [|eapply rep_update; [done|exact Hk|lia|exact G1|exact S2]].
  assert (0 <= zlen c /\ 0 <= zlen p) as Hz by (unfold zlen; lia). change (MAXFILE * BSIZE) with 274432 in *.
  unfold iappend. erewrite bind_Ret by (apply rinode_eq; [apply H|lia]). fold din.
  assert (xint (din_size din) = zlen c) as -> by (unfold din; rewrite I3; cbn [din_size]; apply xint_small; lia).
  erewrite bind_Ret by (eapply loop_exit; [|exact E1]; unfold zlen in *; lia).
  cbn beta iota. rewrite xint_small by lia. rewrite <- E2. f_equal. unfold din. by rewrite I3.
Qed.

Lemma file_is_nil v fb : file_is v fb (repeat 0 13) 0 false [].
Proof.
  assert (forall i, nth i (repeat 0 13) 0 = 0) as H0 by (intros; apply nth_repeat).
  assert (forall bn, baddr v (repeat 0 13) bn = 0) as Hb.
  { intros bn. unfold baddr, indirect. rewrite !H0. by destruct (bn <? NDIRECT). }
  split; [done|..].
  - split; intros; by rewrite Hb in *.
  - intros n [Hn [E|(bn & _ & E)]]; destruct Hn; [by rewrite E|by rewrite <- E, Hb].
  - intros bn Hbn. rewrite Hb. lia.
  - done.
  - intros i Hi. unfold fbyte. rewrite Hb. by destruct (Z.to_nat i).
Qed.

Lemma ialloc_spec s F t : rep s F -> Z.of_nat (length F) + 2 <= NINODES -> 0 <= t < 2 ^ 15 ->
  exists s', ialloc t s = Ret (1 + Z.of_nat (length F)) s' /\ rep s' (F ++ [(t, [])]).
Proof.
  intros [R1 R2 R3 R4 R5 R6 R7 R9 R8] Hn Ht. set (k := length F) in *. change NINODES with 200 in Hn.
  set (d := MkDinode t 0 0 1 0 (repeat 0 13)). set (s0 := set_freeinode (u32 (1 + Z.of_nat k + 1)) s).
  destruct (winode_eq s0 (1 + Z.of_nat k) d R1) as (s' & E & [S1 S2 S3 S4 S5 [S6 S7]]); [unfold NINODES; lia| |].
  { apply (dinode_ok_of (blk s) (freeblock s) t _ 0 false []); [apply file_is_nil|done|done|lia]. }
  change (blk s0) with (blk s) in *. change (freeblock s0) with (freeblock s) in *. cbn [freeinode set_freeinode s0] in S7.
  rewrite u32_small in S7 by lia. change (dino s0) with (dino s) in S3.
  assert (forall n, owns (blk s') (repeat 0 13) n -> False) as Hno by (intros n Hn'; pose proof (fi_owns _ _ _ _ _ _ (file_is_nil (blk s') 0) n Hn'); change nmeta with 46 in *; lia).
  assert (forall j, (j < k)%nat -> addrs s' j = addrs s j) as Ea by (intros j Hj; unfold addrs; rewrite S3 by (unfold NINODES; lia); done).
  assert (addrs s' k = repeat 0 13) as Ek by (unfold addrs; by rewrite S2).
  assert (forall j n, (j < k)%nat -> owns (blk s) (addrs s j) n -> blk s' n = blk s n) as Hfr.
  { intros j n Hj Ho. destruct (lookup_lt_is_Some_2 F j Hj) as [f Hf]. pose proof (fi_owns _ _ _ _ _ _ (ii_file _ _ _ (R7 j f Hf)) n Ho).
    apply S4. lia. }
  exists s'. split.
  { unfold ialloc, bind. cbn [gets bindr modify]. rewrite (proj1 R6). fold s0. rewrite xshort_small by lia.
    assert (i16 t = t) as -> by (unfold i16; rewrite Z.mod_small; lia).
    change (i16 (xshort 1)) with 1. change (xint 0) with 0. fold d. by rewrite E. }
  split; rewrite ?length_app; cbn [length]; [done|..].
  - intros n Hn'. rewrite S5 by lia. by apply R2.
  - rewrite S6, R3, total_of_app. change (total_of [(t, [])]) with 0. lia.
  - lia.
  - intros n Hn'. rewrite S4 by lia. apply R5. lia.
  - rewrite S7. unfold NINODES, k in *. lia.
  - intros j f Hj. destruct (decide (j = k)) as [->|Hne].
    + rewrite lookup_app_r, Nat.sub_diag in Hj by done. injection Hj as <-. split; [done|done|by rewrite S2, Ek|rewrite Ek; apply file_is_nil].
    + apply lookup_app_Some in Hj as [Hj|[Hj Hj']]; [|pose proof (lookup_lt_Some _ _ _ Hj'); cbn in *; unfold k in *; lia].
      pose proof (lookup_lt_Some _ _ _ Hj). apply (inode_is_ext s); [by apply R7|apply S3; unfold NINODES; lia|lia|]. intros n Hn'. by apply (Hfr j).
  - intros j Hj. rewrite S3 by (unfold NINODES, k in *; lia). apply R9. lia.
  - intros j j' n Hj Hj' Hne. destruct (decide (j = k)) as [->|Hjk]; [rewrite Ek; by intros ?%Hno|].
    destruct (decide (j' = k)) as [->|Hjk']; [rewrite Ek; by intros _ ?%Hno|].
    assert (j < k)%nat as Hjk1 by (unfold k in *; lia). assert (j' < k)%nat as Hjk2 by (unfold k in *; lia).
    rewrite !Ea, (owns_ext (blk s) (blk s') (addrs s j)), (owns_ext (blk s) (blk s') (addrs s j')) by (done || intros n' Hn'; first [by apply (Hfr j)|by apply (Hfr j')]).
    by apply R8.
Qed.

(** ** main *)

Lemma zero_image n : forall i s, 0 <= i -> i + Z.of_nat n <= FSSIZE ->
  exists m, for_range n i (fun i => wsect i zeros) s = Ret tt (set_img m s) /\
    forall j, m !! j = if decide (i <= j < i + Z.of_nat n) then Some zeros else img s !! j.
Proof.
  induction n as [|n IH]; intros i s Hi Hn.
  - exists (img s). split; [by destruct s|]. intros j. by rewrite decide_False by lia.
  - destruct (IH (i + 1) (put_blk i zeros s) ltac:(lia) ltac:(lia)) as (m & E & Hm). exists m. split.
    + cbn [for_range]. erewrite bind_Ret by (apply wsect_eq; lia). exact E.
    + intros j. rewrite Hm. cbn. destruct (decide (j = i)) as [->|Hne].
      * rewrite lookup_insert_eq. repeat case_decide; done || lia.
      * rewrite lookup_insert_ne by congruence. repeat case_decide; done || lia.
Qed.

(** The empty image, with its superblock. *)
Lemma empty_image : exists s, rep s [] /\ forall k : M mkfs unit, (modify (set_sb the_sb);; modify (set_freeblock nmeta);;
    for_range (Z.to_nat FSSIZE) 0 (fun i => wsect i zeros);; wsect 1 (lput zeros 0 (sb_bytes the_sb));; k)%K start = k s.
Proof.
  set (s0 := set_freeblock nmeta (set_sb the_sb start)).
  destruct (zero_image (Z.to_nat FSSIZE) 0 s0 ltac:(done) ltac:(done)) as (m & E & Hm).
  assert (forall j, 0 <= j < FSSIZE -> m !! j = Some zeros) as Hz by (intros j Hj; rewrite Hm, decide_True by (rewrite Z2Nat.id; lia); done).
  set (s1 := set_img m s0) in *. set (s2 := put_blk 1 (lput zeros 0 (sb_bytes the_sb)) s1).
  assert (forall n, 0 <= n < FSSIZE -> n <> 1 -> blk s2 n = zeros) as Hb.
  { intros n Hn Hne. unfold s2. rewrite blk_put, upd_ne by done. unfold blk. cbn. by rewrite Hz. }
  exists s2. split; cycle 1.
  { intros k. unfold bind at 1 2. cbn [modify bindr]. fold s0. erewrite bind_Ret by exact E. by erewrite bind_Ret by by apply wsect_eq. }
  assert (img_ok s1) as Hok.
  { split; [done|]. intros n Hn. exists zeros. split; [by apply Hz|apply zeros_full]. }
  split; try done.
  - apply put_img_ok; [done|]. apply lput_full; [apply zeros_full|]. vm_compute. repeat constructor; done.
  - intros n Hn. case_decide as E1; [subst n; by apply blk_put|]. apply Hb; [unfold FSSIZE; lia|done].
  - intros n Hn. apply Hb; [change (freeblock s2) with 46 in Hn; lia|change (freeblock s2) with 46 in Hn; lia].
  - intros j Hj. change (freeinode s2) with 1 in Hj. unfold dino. destruct (IBLOCK_eq j) as [_ Hib]; [lia|]. change nmeta with 46 in Hib.
    rewrite Hb by (unfold FSSIZE; lia). unfold din_load, di_type, get16. cbn [din_type]. by rewrite zeros_val.
  - intros k k' n Hk. cbn in Hk. lia.
Qed.

Lemma zlen_app c c' : zlen (c ++ c') = zlen c + zlen c'.
Proof. unfold zlen. rewrite length_app. lia. Qed.

(** One buffer after the other is appended to inode [1 + k]. *)
Lemma append_all k t chunks : forall s F c, rep s F -> F !! k = Some (t, c) -> Forall byte (concat chunks) ->
  zlen (c ++ concat chunks) <= MAXFILE * BSIZE -> nmeta + total_of (<[k := (t, c ++ concat chunks)]> F) <= FSSIZE ->
  exists s', for_each chunks (iappend (1 + Z.of_nat k)) s = Ret tt s' /\ rep s' (<[k := (t, c ++ concat chunks)]> F).
Proof.
  induction chunks as [|p chunks IH]; intros s F c H Hk Hby Hmax Hroom; cbn [concat] in *.
  - rewrite app_nil_r, list_insert_id by done. by exists s.
  - apply Forall_app in Hby as [Hp Hby]. rewrite app_assoc in Hmax, Hroom |- *.
    pose proof (lookup_lt_Some _ _ _ Hk) as Hlt. pose proof (zlen_app (c ++ p) (concat chunks)) as El.
    assert (0 <= zlen (concat chunks)) as H0 by (unfold zlen; lia).
    pose proof (total_mono (zlen (c ++ p)) (zlen ((c ++ p) ++ concat chunks)) ltac:(lia)) as Hm.
    rewrite (total_of_insert F k t c) in Hroom by done.
    destruct (iappend_spec s F k t c p H Hk Hp) as (s1 & E1 & H1); [lia|rewrite (total_of_insert F k t c) by done; lia|].
    destruct (IH s1 _ (c ++ p) H1) as (s2 & E2 & H2); [by apply list_lookup_insert_eq|done|done|..].
    { rewrite list_insert_insert_eq, (total_of_insert F k t c) by done. lia. }
    rewrite list_insert_insert_eq in H2. exists s2. split; [|done]. cbn [for_each]. erewrite bind_Ret by exact E1. exact E2.
Qed.

Lemma strncpy_spec n t : length (lstrncpy n t) = n /\ (Forall byte t -> Forall byte (lstrncpy n t)).
Proof.
  revert t; induction n as [|n IH]; intros t; [by split; [|constructor]|]. cbn [lstrncpy]. destruct (hd 0 t =? 0).
  - split; [apply repeat_length|]. intros _. apply zero_bytes.
  - cbn. split; [f_equal; apply IH|]. intros Ht. destruct t; cbn; inversion Ht; constructor; try done; by apply IH.
Qed.

Lemma dirent_spec i name : zlen (dirent i name) = DIRENT_SIZE /\ (Forall byte name -> Forall byte (dirent i name)).
Proof.
  unfold dirent, mk_dirent. destruct (strncpy_spec (Z.to_nat DIRSIZ) name) as [El Hb]. split.
  - unfold zlen. rewrite length_app, le_bytes_length, El. done.
  - intros Hn. apply Forall_app. split; [apply le_bytes_byte|by apply Hb].
Qed.

Section main.
Variable host : list Z -> option (list (list Z)).

(** A file the host can open, with contents that fit in a file. *)
Definition host_file (arg : list Z) : Prop :=
  Forall byte arg /\ (SLASH ∉ shortname arg) /\ (exists chunks, host arg = Some chunks) /\
  Forall byte (concat (default [] (host arg))) /\ zlen (concat (default [] (host arg))) <= MAXFILE * BSIZE.

(** The file of [arg] in the image, and the entries of the root directory. *)
Definition file_of (arg : list Z) : Z * list Z := (T_FILE, concat (default [] (host arg))).
Definition entries (i : Z) (files : list (list Z)) : list Z :=
  concat (imap (fun k arg => dirent (i + Z.of_nat k) (image_name arg)) files).

Lemma entries_cons i arg files : entries i (arg :: files) = dirent i (image_name arg) ++ entries (i + 1) files.
Proof.
  unfold entries. cbn [imap concat]. rewrite Z.add_0_r. f_equal. f_equal. apply imap_ext. intros k x _. unfold compose.
  by replace (i + Z.of_nat (S k)) with (i + 1 + Z.of_nat k) by lia.
Qed.

Lemma entries_length i files : zlen (entries i files) = DIRENT_SIZE * Z.of_nat (length files).
Proof.
  revert i; induction files as [|arg files IH]; intros i; [done|]. rewrite entries_cons, zlen_app, (proj1 (dirent_spec _ _)), IH.
  unfold zlen, DIRENT_SIZE. cbn. lia.
Qed.

Lemma image_name_byte arg : Forall byte arg -> Forall byte (image_name arg).
Proof.
  intros H. assert (Forall byte (shortname arg)) as Hs by (unfold shortname; destruct (_ =? 0); [by apply Forall_drop|done]).
  unfold image_name. destruct (_ =? 95); [|done]. destruct Hs; [constructor|done].
Qed.

Lemma add_file_spec s D G arg : let F' := (T_DIR, D ++ dirent (2 + Z.of_nat (length G)) (image_name arg)) :: G ++ [file_of arg] in
  rep s ((T_DIR, D) :: G) -> host_file arg -> Z.of_nat (length G) + 3 <= NINODES -> zlen D + DIRENT_SIZE <= MAXFILE * BSIZE ->
  nmeta + total_of F' <= FSSIZE ->
  exists s', add_file host ROOTINO arg s = Ret tt s' /\ rep s' F'.
Proof.
  intros F' H (Hby & Hsl & [chunks Hh] & Hc & Hmax) Hn HD Hroom. unfold F', file_of in *. rewrite Hh in *. cbn [default from_option id] in *.
  destruct (ialloc_spec s _ T_FILE H) as (s1 & E1 & H1); [cbn [length]; lia|done|].
  set (i := 1 + Z.of_nat (length ((T_DIR, D) :: G))) in E1. assert (i = 2 + Z.of_nat (length G)) as Ei by (unfold i; cbn [length]; lia).
  rewrite <- Ei in *. destruct (dirent_spec i (image_name arg)) as [Ed Hd].
  pose proof (zlen_app D (dirent i (image_name arg))) as El.
  assert (total_of (G ++ [(T_FILE, [])]) <= total_of (G ++ [(T_FILE, concat chunks)])) as Hm.
  { rewrite !total_of_app. cbn. pose proof (total_mono 0 (zlen (concat chunks)) ltac:(unfold zlen; lia)). change (zlen []) with 0. lia. }
  destruct (iappend_spec s1 _ 0 T_DIR D (dirent i (image_name arg)) H1) as (s2 & E2 & H2); [done|by apply Hd, image_name_byte|lia|..].
  { change (total_of ((T_DIR, ?c) :: ?l)) with (total (zlen c) + total_of l) in Hroom.
    change (total_of _) with (total (zlen (D ++ dirent i (image_name arg))) + total_of (G ++ [(T_FILE, [])])). lia. }
  change (<[0%nat := ?x]> ((?y :: ?l) ++ ?r)) with (x :: l ++ r) in H2.
  destruct (append_all (S (length G)) T_FILE chunks s2 _ [] H2) as (s3 & E3 & H3).
  { change ((G ++ [(T_FILE, [])]) !! length G = Some (T_FILE, [])). rewrite lookup_app_r, Nat.sub_diag by lia. done. }
  1,2: done.
  all: change (<[S (length G) := ?x]> (?y :: ?l)) with (y :: <[length G := x]> l) in *;
       rewrite insert_app_r_alt, Nat.sub_diag in * by lia; cbn [app] in *; try done.
  exists s3. split; [|done]. unfold add_file. unfold assert. rewrite bool_decide_eq_false_2 by done. unfold bind at 1. cbn [negb ret bindr].
  rewrite Hh. erewrite bind_Ret by exact E1. erewrite bind_Ret by exact E2. exact E3.
Qed.

Lemma add_files_spec files : forall s D G, let F' := (T_DIR, D ++ entries (2 + Z.of_nat (length G)) files) :: G ++ (file_of <$> files) in
  rep s ((T_DIR, D) :: G) -> Forall host_file files -> Z.of_nat (length G + length files) + 2 <= NINODES ->
  zlen D + DIRENT_SIZE * Z.of_nat (length files) <= MAXFILE * BSIZE -> nmeta + total_of F' <= FSSIZE ->
  exists s', for_each files (add_file host ROOTINO) s = Ret tt s' /\ rep s' F'.
Proof.
  induction files as [|arg files IH]; intros s D G F' H Hf Hn Hmax Hroom; unfold F' in *; clear F'.
  - cbn [entries imap concat fmap list_fmap] in *. rewrite !app_nil_r. by exists s.
  - inversion_clear Hf as [|? ? Ha Hf']. rewrite entries_cons, fmap_cons, app_assoc in *. cbn [length] in *.
    set (D1 := D ++ dirent (2 + Z.of_nat (length G)) (image_name arg)) in *. set (G1 := G ++ [file_of arg]).
    assert (G ++ file_of arg :: (file_of <$> files) = G1 ++ (file_of <$> files)) as EG by (unfold G1; by rewrite <- app_assoc).
    assert (2 + Z.of_nat (length G) + 1 = 2 + Z.of_nat (length G1)) as En by (unfold G1; rewrite length_app; cbn; lia).
    rewrite EG, En in *. assert (zlen D1 = zlen D + DIRENT_SIZE) as Ed by (unfold D1; by rewrite zlen_app, (proj1 (dirent_spec _ _))).
    change (total_of ((T_DIR, ?c) :: ?l)) with (total (zlen c) + total_of l) in Hroom. rewrite zlen_app, total_of_app in Hroom.
    pose proof (total_mono (zlen D1) (zlen D1 + zlen (entries (2 + Z.of_nat (length G1)) files)) ltac:(unfold zlen; lia)) as Hm.
    assert (forall l, 0 <= total_of l) as Hpos.
    { induction l as [|f l IHl]; [done|]. change (0 <= total (zlen f.2) + total_of l). pose proof (total_mono 0 (zlen f.2) ltac:(unfold zlen; lia)).
      change (total 0) with 0 in *. lia. }
    pose proof (Hpos (file_of <$> files)). unfold DIRENT_SIZE in *.
    destruct (add_file_spec s D G arg H Ha) as (s1 & E1 & H1); [lia|unfold DIRENT_SIZE; lia| |].
    { fold D1 G1. change (total_of ((T_DIR, ?c) :: ?l)) with (total (zlen c) + total_of l). lia. }
    destruct (IH s1 D1 G1 H1 Hf') as (s2 & E2 & H2); [lia|lia| |].
    { change (total_of ((T_DIR, ?c) :: ?l)) with (total (zlen c) + total_of l). rewrite zlen_app, total_of_app. lia. }
    exists s2. split; [|done]. cbn [for_each]. erewrite bind_Ret by exact E1. exact E2.
Qed.
End main.

(** The bitmap [balloc] writes. *)
Lemma bitmap_spec n : 0 <= n <= BPB ->
  let d := fold_left (fun buf i => put8 buf (i / 8) (Z.lor (get8 buf (i / 8)) (Z.shiftl 1 (i mod 8)))) (seqZ 0 n) zeros in
  full_block d /\ forall j, 0 <= j < BPB -> bit_used d j = (j <? n).
Proof.
  intros Hn. cbv zeta. rewrite <- (Z2Nat.id n) in * by lia. induction (Z.to_nat n) as [|m IH].
  - split; [apply zeros_full|]. intros j Hj. cbn [seqZ fold_left]. rewrite (proj2 (Z.ltb_ge _ _)) by lia.
    unfold bit_used. by rewrite zeros_get8.
  - destruct IH as [Hf Hb]; [lia|]. rewrite Nat2Z.inj_succ, <- Z.add_1_r, seqZ_app, fold_left_app by lia.
    change (seqZ (0 + Z.of_nat m) 1) with [0 + Z.of_nat m]. cbn [fold_left]. rewrite Z.add_0_l.
    set (d := fold_left _ _ zeros) in *. change (put8 _ _ _) with (with_bit d (Z.of_nat m) true). split; [apply with_bit_full; [done|lia]|].
    intros j Hj. rewrite bit_used_with, Hb by (done || lia). case_decide; destruct (Z.ltb_spec j (Z.of_nat m)), (Z.ltb_spec j (Z.of_nat m + 1)); done || lia.
Qed.

(** ** The file system in the image *)

(** The superblock in block 1, as [readsb] takes it. *)
Definition sb_of (d : list Z) : superblock :=
  MkSuperblock (get32 d 0) (get32 d 4) (get32 d 8) (get32 d 12) (get32 d 16) (get32 d 20) (get32 d 24) (get32 d 28).

Definition inode_at_block (v : Z -> list Z) (k : nat) : dinode :=
  din_load (v (IBLOCK (1 + Z.of_nat k) the_sb)) (di_off (1 + Z.of_nat k)).

(** Inode [1 + k] is a file of [n] bytes that are [f], followed by zeros. *)
Record file_in (v : Z -> list Z) (k : nat) (n : Z) (f : Z * list Z) : Prop := {
  fn_dino : inode_at_block v k = MkDinode f.1 0 0 1 n (din_addrs (inode_at_block v k));
  fn_ok : file_ok the_sb v (din_addrs (inode_at_block v k));
  fn_parts bn : 0 <= bn < MAXFILE -> baddr v (din_addrs (inode_at_block v k)) bn <> 0 <-> bn * BSIZE < zlen f.2;
  fn_byte i : 0 <= i < MAXFILE * BSIZE -> fbyte v (din_addrs (inode_at_block v k)) i = nth (Z.to_nat i) f.2 0;
}.

(** The blocks [v] are a file system for the kernel: an empty log, a bitmap with
    the metadata and the files' blocks in use, root directory [root] in inode 1
    and files [F] in the inodes that follow, no block in two files, and the rest
    of the inodes free. *)
Record image (v : Z -> list Z) (root : list Z) F : Prop := {
  im_sb : sb_of (v 1) = the_sb;
  im_log : v (sb_logstart the_sb) = zeros;
  im_disk : disk_ok the_sb v;
  im_used n : 0 <= n < sb_size the_sb -> used the_sb v n = (n <? nmeta + total_of ((T_DIR, root) :: F));
  im_root : file_in v 0 ((zlen root / BSIZE + 1) * BSIZE) (T_DIR, root);
  im_file k f : F !! k = Some f -> file_in v (S k) (zlen f.2) f;
  im_apart k k' n : (k <= length F)%nat -> (k' <= length F)%nat -> k <> k' ->
    owns v (din_addrs (inode_at_block v k)) n -> ~ owns v (din_addrs (inode_at_block v k')) n;
  im_free k : (length F < k)%nat -> 1 + Z.of_nat k < NINODES -> din_type (inode_at_block v k) = 0;
}.

Lemma BBLOCK_eq n : 0 <= n < FSSIZE -> BBLOCK n the_sb = nmeta - 1.
Proof.
  change FSSIZE with 1000. intros Hn. unfold BBLOCK. change (sb_bmapstart the_sb) with 45. rewrite Z.div_small; [done|]. unfold BPB, BSIZE. lia.
Qed.

Lemma log_area_the_sb m : log_area the_sb m <-> 2 <= m < 32.
Proof. unfold log_area, in_log. change (sb_logstart the_sb) with 2. change (sb_nlog the_sb) with 30. lia. Qed.

(** A file of the image, once the bitmap is in place. *)
Lemma file_in_intro s v k n f : inode_is s k f -> freeblock s <= FSSIZE ->
  (forall m, nmeta <= m -> v m = blk s m) -> (forall m, 0 <= m < FSSIZE -> used the_sb v m = (m <? freeblock s)) ->
  inode_at_block v k = MkDinode f.1 0 0 1 n (addrs s k) -> file_in v k n f.
Proof.
  intros [H1 H2 H3 [A1 A2 A3 A4 A5 A6]] Hfb Hs Hu E. change nmeta with 46 in *. change FSSIZE with 1000 in *.
  assert (forall m, owns (blk s) (addrs s k) m -> v m = blk s m) as Hsame by (intros m ?%A3; apply Hs; lia).
  split; rewrite ?E; cbn [din_addrs]; [done|split; [done|by apply (file_apart_ext (blk s))|]|..].
  - intros m Hm%(owns_ext (blk s) v _ m Hsame)%A3. unfold data_block. change (sb_size the_sb) with 1000. split; [lia|]. split; [|split].
    + rewrite Hu by lia. apply Z.ltb_lt. lia.
    + intros j Hj. rewrite BBLOCK_eq by (unfold FSSIZE; lia). change nmeta with 46. lia.
    + rewrite log_area_the_sb. lia.
  - intros bn Hbn. rewrite (baddr_ext (blk s)), A4 by done. pose proof (nparts_bound (zlen f.2)). unfold BSIZE in *. lia.
  - intros i Hi. rewrite (fbyte_ext (blk s)) by done. by apply A6.
Qed.

(** The end of main: the size of the root directory, and the bitmap. *)
Definition finish : M mkfs unit :=
  (din <- rinode ROOTINO;
   let off := u32 ((xint (din_size din) / BSIZE + 1) * BSIZE) in
   winode ROOTINO (set_size (xint off) din);;
   used <- gets freeblock;
   balloc used)%K.

Lemma finish_spec s root F : rep s ((T_DIR, root) :: F) -> zlen root + BSIZE <= MAXFILE * BSIZE ->
  exists s', finish s = Ret tt s' /\ image (blk s') root F.
Proof.
  intros H Hmax. unfold finish. pose proof (rp_inode _ _ H 0 _ eq_refl) as Hroot. pose proof Hroot as [I1 I2 I3 I4].
  set (n := (zlen root / BSIZE + 1) * BSIZE). pose proof (rp_room _ _ H) as Hfb. pose proof (rp_num _ _ H) as [Hn1 Hn2].
  change nmeta with 46 in *. change FSSIZE with 1000 in *. change (MAXFILE * BSIZE) with 274432 in *. cbn [fst snd] in *.
  assert (0 <= zlen root) as H0 by (unfold zlen; lia). unfold BSIZE in Hmax.
  assert (0 <= n < 2 ^ 32) as Hn. { unfold n, BSIZE. pose proof (Z_div_mod_eq_full (zlen root) 1024). pose proof (Z.mod_pos_bound (zlen root) 1024). lia. }
  destruct (winode_eq s ROOTINO (MkDinode T_DIR 0 0 1 n (addrs s 0)) (rp_img _ _ H)) as (s1 & E1 & [S1 S2 S3 S4 S5 [S6 S7]]); [done| |].
  { destruct (dinode_ok_of _ _ _ _ _ _ _ I4 I1 I2 (proj2 Hfb)) as [K1 K2 K3 K4 K5 K6]. split; done. }
  destruct (bitmap_spec (freeblock s)) as [Hf Hb]; [unfold BPB, BSIZE; lia|]. set (bm := fold_left _ _ zeros) in *.
  exists (put_blk 45 bm s1). split.
  { erewrite bind_Ret by (apply rinode_eq; [apply H|done]). change (dino s (1 + Z.of_nat 0)) with (dino s ROOTINO) in I3. rewrite I3. cbn [din_size].
    rewrite (xint_small (zlen root)) by lia. fold n. cbv zeta. rewrite u32_small, xint_small by lia.
    erewrite bind_Ret by exact E1. unfold bind at 1. cbn [gets bindr]. rewrite S6. unfold balloc, assert, BSIZE. rewrite (proj2 (Z.ltb_lt _ _)) by lia.
    unfold bind. cbn [ret bindr gets]. rewrite (proj1 S1). by rewrite wsect_eq. }
  set (v := blk (put_blk 45 bm s1)). assert (forall m, m <> 45 -> v m = blk s1 m) as Ev by (intros m Hm; unfold v; by rewrite blk_put, upd_ne).
  assert (v 45 = bm) as E45 by (unfold v; by rewrite blk_put, upd_eq).
  assert (forall k, 1 + Z.of_nat k <= NINODES -> inode_at_block v k = dino s1 (1 + Z.of_nat k)) as Ei.
  { intros k Hk. unfold inode_at_block, dino. destruct (IBLOCK_eq (1 + Z.of_nat k)) as [_ Hib]; [lia|]. change nmeta with 46 in Hib. rewrite Ev by lia. done. }
  assert (forall k, 1 + Z.of_nat (S k) <= NINODES -> inode_at_block v (S k) = dino s (1 + Z.of_nat (S k))) as Ei'.
  { intros k Hk. rewrite Ei by done. apply S3; unfold ROOTINO; lia. }
  assert (forall k, (k <= length F)%nat -> din_addrs (inode_at_block v k) = addrs s k) as Ea.
  { intros [|k] Hk; [rewrite Ei by (cbn; lia); change (1 + Z.of_nat 0) with ROOTINO; by rewrite S2|]. rewrite Ei'; [done|cbn [length] in *; lia]. }
  assert (forall m, 0 <= m < FSSIZE -> used the_sb v m = (m <? freeblock s)) as Hu.
  { intros m Hm. unfold used. rewrite BBLOCK_eq by done. change (nmeta - 1) with 45. rewrite E45, Hb.
    - rewrite Z.mod_small; [done|]. change FSSIZE with 1000 in Hm. unfold BPB, BSIZE. lia.
    - apply Z.mod_pos_bound. done. }
  assert (forall m, 46 <= m -> v m = blk s m) as Hv by (intros m Hm; rewrite Ev by lia; by apply S4).
  split.
  - rewrite Ev, S5, (rp_low _ _ H) by lia. vm_compute. reflexivity.
  - change (sb_logstart the_sb) with 2. rewrite Ev, S5, (rp_low _ _ H) by lia. done.
  - split; [done|..]; change (sb_size the_sb) with FSSIZE.
    + intros m Hm _. apply blk_full; [by apply put_img_ok|done].
    + intros m Hm. rewrite BBLOCK_eq by done. split; [done|]. rewrite Hu by done. apply Z.ltb_lt. change nmeta with 46. lia.
    + intros m Hm%(proj1 (log_area_the_sb _)). unfold FSSIZE. split; [lia|]. rewrite Hu by (unfold FSSIZE; lia). apply Z.ltb_lt. lia.
    + intros m j Hm%(proj1 (log_area_the_sb _)) Hj. rewrite BBLOCK_eq by done. change nmeta with 46. lia.
  - intros m Hm. rewrite Hu by done. f_equal. apply (rp_fb _ _ H).
  - apply (file_in_intro s); [done|apply Hfb|done|done|]. rewrite Ei by done. change (1 + Z.of_nat 0) with ROOTINO. by rewrite S2.
  - intros k f Hk. pose proof (lookup_lt_Some _ _ _ Hk). pose proof (rp_inode _ _ H (S k) f Hk) as Hi.
    apply (file_in_intro s); [done|apply Hfb|done|done|]. rewrite Ei' by (cbn [length] in *; lia). apply Hi.
  - intros k k' m Hk Hk' Hne. rewrite !Ea by done. assert (forall j, (j <= length F)%nat -> forall m, owns (blk s) (addrs s j) m -> v m = blk s m) as Hsame.
    { intros j Hj m' Hm'. destruct (lookup_lt_is_Some_2 ((T_DIR, root) :: F) j) as [f Hf']; [cbn; lia|].
      pose proof (fi_owns _ _ _ _ _ _ (ii_file _ _ _ (rp_inode _ _ H j f Hf')) m' Hm'). apply Hv. change nmeta with 46 in *. lia. }
    rewrite (owns_ext (blk s) v (addrs s k)), (owns_ext (blk s) v (addrs s k')) by by apply Hsame. apply (rp_apart _ _ H); cbn; lia.
  - intros k Hk Hkn. destruct k as [|k]; [lia|]. rewrite Ei' by lia. apply (rp_rest _ _ H). cbn [length] in *. lia.
Qed.

(** The contents of the root directory. *)
Definition root_of (files : list (list Z)) : list Z := dirent ROOTINO [46] ++ dirent ROOTINO [46; 46] ++ entries 2 files.

(** The arguments fit in the image. *)
Definition fits_image host (files : list (list Z)) : Prop :=
  Forall (host_file host) files /\ Z.of_nat (length files) + 2 <= NINODES /\
  nmeta + total_of ((T_DIR, root_of files) :: (file_of host <$> files)) <= FSSIZE.

(** Main up to the first files. *)
Lemma main_files host name files : fits_image host files ->
  exists s', rep s' ((T_DIR, root_of files) :: (file_of host <$> files)) /\
    forall rest, main host (name :: files ++ rest) start = (for_each rest (add_file host ROOTINO);; finish)%K s'.
Proof.
  intros (Hf & Hn & Hroom). change NINODES with 200 in Hn. destruct empty_image as (s0 & H0 & E0).
  set (d1 := dirent ROOTINO [46]). set (d2 := dirent ROOTINO [46; 46]).
  destruct (ialloc_spec s0 [] T_DIR H0 ltac:(done) ltac:(done)) as (s1 & E1 & H1). cbn [app length] in *.
  destruct (iappend_spec s1 _ 0 T_DIR [] d1 H1) as (s2 & E2 & H2); [done|by apply dirent_spec; repeat constructor|done|done|].
  change (rep s2 [(T_DIR, d1)]) in H2.
  destruct (iappend_spec s2 _ 0 T_DIR d1 d2 H2) as (s3 & E3 & H3); [done|by apply dirent_spec; repeat constructor|done|done|].
  change (rep s3 [(T_DIR, d1 ++ d2)]) in H3.
  destruct (add_files_spec host files s3 (d1 ++ d2) [] H3 Hf) as (s4 & E4 & H4); cbn [length app Nat.add] in *.
  { unfold NINODES. lia. }
  { change (zlen (d1 ++ d2)) with 32. change (MAXFILE * BSIZE) with 274432. unfold DIRENT_SIZE. lia. }
  { rewrite <- app_assoc. exact Hroom. }
  rewrite <- app_assoc in H4. exists s4. split; [done|]. intros rest.
  unfold main. rewrite E0. erewrite bind_Ret by exact E1. unfold assert. change (1 + Z.of_nat 0 =? ROOTINO) with true. cbn match.
  unfold bind at 1. cbn [ret bindr]. erewrite bind_Ret by exact E2. erewrite bind_Ret by exact E3.
  change (1 + Z.of_nat 0) with ROOTINO. unfold bind. rewrite for_each_app. unfold bind. rewrite E4. reflexivity.
Qed.

Lemma root_length files : zlen (root_of files) = 32 + 16 * Z.of_nat (length files).
Proof. unfold root_of. rewrite !zlen_app, !(proj1 (dirent_spec _ _)), entries_length. unfold DIRENT_SIZE. lia. Qed.

Lemma main_spec host name files : fits_image host files ->
  exists s', main host (name :: files) start = Ret tt s' /\ image (blk s') (root_of files) (file_of host <$> files).
Proof.
  intros Hfit. destruct (main_files host name files Hfit) as (s1 & H1 & E1). destruct Hfit as (_ & Hn & _).
  destruct (finish_spec s1 _ _ H1) as (s' & E' & Him).
  { rewrite root_length. change NINODES with 200 in Hn. change (MAXFILE * BSIZE) with 274432. unfold BSIZE. lia. }
  exists s'. split; [|done]. rewrite <- (app_nil_r files), E1. exact E'.
Qed.

(** C14: mkfs builds a file system.  With files the host can open, whose names
    have no slash and whose contents fit, main returns and the image holds the
    superblock the kernel reads, an empty log, a bitmap with exactly the metadata
    and the files' blocks in use, the root directory with its entries, and each
    file with the bytes the host gave; no two files share a block and every other
    inode is free.  A file that cannot be opened or a name with a slash, after
    files that fit, stops mkfs, as does a call without arguments. *)
Theorem mkfs_image host name files : fits_image host files ->
  (exists s', main host (name :: files) start = Ret tt s' /\ image (blk s') (root_of files) (file_of host <$> files)) /\
  (forall arg rest, SLASH ∈ shortname arg -> main host (name :: files ++ arg :: rest) start = Panic "Assertion failed") /\
  (forall arg rest, (SLASH ∉ shortname arg) -> host arg = None -> main host (name :: files ++ arg :: rest) start = Panic "open") /\
  main host [] start = Panic "Usage: mkfs fs.img files...".
Proof.
  intros Hfit. split; [by apply main_spec|]. destruct (main_files host name files Hfit) as (s1 & _ & E1).
  split_and!; [..|done]; intros arg rest Hsl; [|intros Hh]; rewrite E1; cbn [for_each]; unfold bind at 1 2, add_file, assert.
  - by rewrite bool_decide_eq_true_2.
  - rewrite bool_decide_eq_false_2 by done. unfold bind at 1. cbn [negb ret bindr]. by rewrite Hh.
Qed.

(** An image with one file, user/_sh, read in two buffers. *)
Definition demo_host (arg : list Z) : option (list (list Z)) := if decide (arg = user_prefix ++ [95; 115; 104]) then Some [[127; 69]; [76; 70]] else None.

Lemma demo_fits_image : fits_image demo_host [user_prefix ++ [95; 115; 104]].
Proof.
  split; [|split; [done|by vm_compute]]. constructor; [|constructor]. split; [repeat constructor; done|]. split.
  - by apply (bool_decide_unpack _); vm_compute.
  - split; [by eexists|]. split; [repeat constructor; done|by vm_compute].
Qed.

Lemma mkfs_image_witness : (exists s', main demo_host [[]; user_prefix ++ [95; 115; 104]] start = Ret tt s' /\
    image (blk s') (root_of [user_prefix ++ [95; 115; 104]]) [(T_FILE, [127; 69; 76; 70])]) /\
  main demo_host [[]; user_prefix ++ [95; 115; 104]; [97]] start = Panic "open".
Proof.
  split.
  - apply (mkfs_image demo_host [] _ demo_fits_image).
  - apply (mkfs_image demo_host [] _ demo_fits_image); [by apply (bool_decide_unpack _); vm_compute|done].
Defined.
