(* ===== verification/MkfsKernel.v ===== *)
(** * The kernel on an image of mkfs

    What mkfs puts in the image is what the kernel's file system code reads: the
    names of the root directory lead to the inodes of the files, and the inodes
    to the bytes the host gave. *)

From S2P Require Import Prelude Mem Riscv Locks Kalloc Vm VmWalk VmCopy Kstate Proc ProcSpec Bio BioSpec Blk Log LogSpec LogOps FsOps Fs FileData FsAlloc FsFile FsRw FsWrite FsFileSpec FsDir Mkfs MkfsSpec.
Import Proc Bio Log Fs.

(** The in-memory inode [xi] is inode [1 + k] of the disk [v]. *)
Definition loaded (v : Z -> list Z) (k : nat) (xi : inode) : Prop :=
  i_dev xi = ROOTDEV /\ load_dinode (v (IBLOCK (1 + Z.of_nat k) Mkfs.the_sb)) (di_off (1 + Z.of_nat k)) xi = xi.

Lemma loaded_file v k xi n f : loaded v k xi -> file_in v k n f ->
  i_dev xi = ROOTDEV /\ i_type xi = f.1 /\ i_size xi = n /\ i_addrs xi = Mkfs.din_addrs (inode_at_block v k).
Proof.
  intros [Hdev E] Hf. pose proof (fn_dino _ _ _ _ Hf) as Hi. split; [done|]. rewrite <- E. unfold load_dinode. cbn.
  unfold inode_at_block, Mkfs.din_load in *. by injection Hi as -> _ _ _ ->.
Qed.

(** A part of a file that has no hole can be read. *)
Lemma file_readable v k xi n f off m : loaded v k xi -> file_in v k n f -> disk_ok Mkfs.the_sb v -> 0 <= off ->
  nparts (zlen f.2) <= MAXFILE -> (0 < m -> off + m <= nparts (zlen f.2) * BSIZE) -> readable xi v off m.
Proof.
  intros Hx Hf Hd Hoff Hmax Hm. destruct (loaded_file v k xi n f Hx Hf) as (_ & _ & _ & Ea). pose proof (nparts_bound (zlen f.2)) as Hb. split.
  - intros Hm0. specialize (Hm Hm0). pose proof MAXFILE_eq. nia.
  - intros i Hi. specialize (Hm ltac:(lia)). rewrite Ea. assert (0 <= i / BSIZE < nparts (zlen f.2)) as Hbn.
    { split; [apply Z.div_pos; [lia|done]|]. apply Z.div_lt_upper_bound; [done|lia]. }
    assert (baddr v (Mkfs.din_addrs (inode_at_block v k)) (i / BSIZE) <> 0) as Hnz by (apply (fn_parts _ _ _ _ Hf); [lia|unfold BSIZE in *; lia]).
    split; [done|]. apply (data_full _ _ _ Hd), (fk_owns _ _ _ (fn_ok _ _ _ _ Hf)), owns_data; [lia|done].
Qed.

(** The bytes of a part of a file. *)
Lemma file_bytes v k n f off m : file_in v k n f -> 0 <= off -> 0 <= m -> off + m <= zlen f.2 -> zlen f.2 <= MAXFILE * BSIZE ->
  fbytes v (Mkfs.din_addrs (inode_at_block v k)) off m = lsub f.2 off m.
Proof.
  intros Hf Hoff Hm Hle Hmax. unfold zlen in *. apply list_eq. intros i. unfold lsub. destruct (decide (Z.of_nat i < m)) as [Hi|Hi].
  - rewrite fbytes_lookup, (fn_byte _ _ _ _ Hf) by lia. rewrite lookup_take_lt, lookup_drop, nth_lookup by lia.
    replace (Z.to_nat (off + Z.of_nat i)) with (Z.to_nat off + i)%nat by lia.
    destruct (lookup_lt_is_Some_2 f.2 (Z.to_nat off + i)) as [c ->]; [lia|done].
  - rewrite (lookup_ge_None_2 (fbytes _ _ _ _)) by (rewrite fbytes_length; lia). by rewrite lookup_take_ge by lia.
Qed.

(** ** The root directory *)

Definition root_entries (files : list (list Z)) : list (list Z) :=
  Mkfs.dirent ROOTINO [46] :: Mkfs.dirent ROOTINO [46; 46] :: imap (fun k arg => Mkfs.dirent (2 + Z.of_nat k) (Mkfs.image_name arg)) files.

Lemma root_concat files : root_of files = concat (root_entries files).
Proof. done. Qed.

Lemma concat_entry ds (j : nat) d : Forall (fun d => length d = Z.to_nat DIRENT_SIZE) ds -> ds !! j = Some d ->
  lsub (concat ds) (DIRENT_SIZE * Z.of_nat j) DIRENT_SIZE = d.
Proof.
  intros H. revert j. induction H as [|e ds He H IH]; intros [|j] Hj; [done..| |]; cbn [concat]; unfold lsub in *.
  - injection Hj as ->. change (Z.to_nat (DIRENT_SIZE * Z.of_nat 0)) with 0%nat. rewrite drop_0, take_app_le, take_ge by lia. done.
  - rewrite <- (IH j Hj). rewrite drop_app_ge by (rewrite He; unfold DIRENT_SIZE; lia). do 2 f_equal. rewrite He. unfold DIRENT_SIZE. lia.
Qed.

Lemma root_entry_length files : Forall (fun d => length d = Z.to_nat DIRENT_SIZE) (root_entries files).
Proof.
  assert (forall i nm, length (Mkfs.dirent i nm) = Z.to_nat DIRENT_SIZE) as H.
  { intros. pose proof (proj1 (dirent_spec i nm)) as H. unfold zlen in H. lia. }
  repeat constructor; try apply H. apply Forall_lookup. intros i d Hd. apply list_lookup_imap_Some in Hd as (y & _ & ->). apply H.
Qed.

Lemma root_entry_of name i nm : 0 < i < 2 ^ 16 -> de_inum (Mkfs.dirent i nm) = i /\ (entry_of name (Mkfs.dirent i nm) <-> namecmp name nm = 0).
Proof.
  intros Hi. destruct (new_entry i nm Hi) as (_ & E & He). assert (u16 i = Mkfs.xshort i) as Eu by (rewrite xshort_small by lia; apply Z.mod_small; lia).
  rewrite Eu in E, He. split; [exact E|apply He].
Qed.

(** Argument [k] is the first file of its name, which is not a dot name. *)
Definition first_of_name (files : list (list Z)) (k : nat) (arg : list Z) : Prop :=
  let name := Mkfs.image_name arg in
  files !! k = Some arg /\ namecmp name [46] <> 0 /\ namecmp name [46; 46] <> 0 /\
  forall j arg', (j < k)%nat -> files !! j = Some arg' -> namecmp name (Mkfs.image_name arg') <> 0.

Lemma root_find files es k arg : (forall j d, root_entries files !! j = Some d -> es !! j = Some d) -> first_of_name files k arg ->
  Z.of_nat k + 2 < 2 ^ 16 -> dir_find (Mkfs.image_name arg) es = Some (2 + Z.of_nat k, DIRENT_SIZE * (2 + Z.of_nat k)).
Proof.
  intros Hes (Hk & H1 & H2 & Hfirst) Hlt. unfold dir_find. set (name := Mkfs.image_name arg) in *.
  assert (forall j arg', files !! j = Some arg' -> es !! S (S j) = Some (Mkfs.dirent (2 + Z.of_nat j) (Mkfs.image_name arg'))) as Hj.
  { intros j arg' Hj. apply Hes.
    change (imap (fun k arg => Mkfs.dirent (2 + Z.of_nat k) (Mkfs.image_name arg)) files !! j = Some (Mkfs.dirent (2 + Z.of_nat j) (Mkfs.image_name arg'))).
    by rewrite list_lookup_imap, Hj. }
  assert (list_find (entry_of name) es = Some (S (S k), Mkfs.dirent (2 + Z.of_nat k) name)) as ->.
  { apply list_find_Some. split; [by apply Hj|]. split; [apply root_entry_of; [lia|]; unfold namecmp; by rewrite strncmp_eq|].
    intros [|[|j]] y Hy Hlt' He.
    - rewrite (Hes 0%nat _ eq_refl) in Hy. injection Hy as <-. apply root_entry_of in He; done.
    - rewrite (Hes 1%nat _ eq_refl) in Hy. injection Hy as <-. apply root_entry_of in He; done.
    - assert (j < length files)%nat as Hjl by (pose proof (lookup_lt_Some _ _ _ Hk); lia).
      destruct (lookup_lt_is_Some_2 files j Hjl) as [arg' Ha]. rewrite (Hj j arg' Ha) in Hy. injection Hy as <-.
      apply root_entry_of in He; [|lia]. by apply (Hfirst j arg'); [lia|..]. }
  rewrite (proj1 (root_entry_of name (2 + Z.of_nat k) name ltac:(lia))). do 2 f_equal. unfold DIRENT_SIZE. lia.
Qed.

(** The kernel's view of the root directory. *)
Lemma root_dir v files F xi : image v (root_of files) F -> loaded v 0 xi -> zlen (root_of files) mod BSIZE <> 0 ->
  Z.of_nat (length files) + 2 <= Mkfs.NINODES ->
  dir_ok xi v /\ forall j d, root_entries files !! j = Some d -> dirents v (i_addrs xi) (i_size xi) !! j = Some d.
Proof.
  intros Him Hx Hmod Hn. pose proof (im_root _ _ _ Him) as Hf. destruct (loaded_file v 0 xi _ _ Hx Hf) as (Hdev & Ht & Hsz & Ea).
  pose proof (root_length files) as Hl. set (n := zlen (root_of files)) in *.
  change Mkfs.NINODES with 200 in Hn. pose proof (Z_div_mod_eq_full n BSIZE) as En. pose proof (Z.mod_pos_bound n BSIZE ltac:(done)) as Hb.
  assert (nparts n = n / BSIZE + 1) as Ep by (apply nparts_at; lia).
  set (q := n / BSIZE) in *. assert (0 <= q <= 3) as Hq by (clearbody q; unfold BSIZE in *; lia). change (MAXFILE * BSIZE) with 274432 in *.
  split.
  - split; [done|done|change (MAXFILE * BSIZE) with 274432; rewrite Hsz; unfold BSIZE; lia|..].
    + rewrite Hsz. replace ((q + 1) * BSIZE) with ((q + 1) * 64 * DIRENT_SIZE) by (unfold BSIZE, DIRENT_SIZE; lia). by apply Z.mod_mul.
    + rewrite Hsz. eapply file_readable; [done|done|apply Him|lia|cbn [snd]; fold n; rewrite Ep; change MAXFILE with 268; lia|]. cbn [snd]. fold n. lia.
  - intros j d Hj. pose proof (lookup_lt_Some _ _ _ Hj) as Hlt. unfold root_entries in Hlt. cbn [length] in Hlt. rewrite length_imap in Hlt.
    rewrite dirents_lookup; [..|rewrite Hsz].
    + f_equal. rewrite Ea, (file_bytes v 0 _ _ _ _ Hf); [|unfold DIRENT_SIZE; lia|done|..].
      * cbn [snd]. rewrite root_concat. apply concat_entry; [apply root_entry_length|done].
      * cbn [snd]. fold n. unfold DIRENT_SIZE. lia.
      * cbn [snd]. fold n. change (MAXFILE * BSIZE) with 274432. lia.
    + unfold DIRENT_SIZE. lia.
    + replace ((q + 1) * BSIZE) with ((q + 1) * 64 * DIRENT_SIZE) by (unfold BSIZE, DIRENT_SIZE; lia). by apply Z.mod_mul.
Qed.

(** C13: the kernel reads what mkfs wrote.  On the image, [dirlookup] of the name
    of a file in the root directory leads to [iget] of the file's inode, and
    [readi] of that inode, from any offset, gives the host's bytes from there on.
    (A root directory that fills its blocks has a hole in its last block and is
    left out.) *)
Theorem mkfs_kernel host name files s' : let v := blk s' in fits_image host files -> Mkfs.main host (name :: files) Mkfs.start = Ret tt s' ->
  (forall p x D W ip s0 xi l s k arg, zlen (root_of files) mod BSIZE <> 0 -> first_of_name files k arg -> loaded v 0 xi ->
     fi p x s0 D W ip xi ∅ v l s -> buf_room l ∅ ->
     exists s1, fi p x s0 D W ip xi ∅ v l s1 /\
       dirlookup ip (Mkfs.image_name arg) s = (i <- iget ROOTDEV (2 + Z.of_nat k); ret (Some (i, DIRENT_SIZE * (2 + Z.of_nat k))))%K s1) /\
  (forall p x D W ip s0 xi l s k arg off n, files !! k = Some arg -> loaded v (S k) xi ->
     fi p x s0 D W ip xi ∅ v l s -> buf_room l ∅ -> 0 <= off -> 0 <= n -> off + n < 2 ^ 32 ->
     let c := (file_of host arg).2 in let m := Z.max 0 (Z.min n (zlen c - off)) in
     exists s1, fi p x s0 D W ip xi ∅ v l s1 /\ readi ip (PLocal []) off n s = Ret (m, lsub c off m) s1).
Proof.
  intros v Hfit E. destruct (main_spec host name files Hfit) as (s2 & E2 & Him). assert (s2 = s') as -> by congruence. fold v in Him.
  pose proof Hfit as (Hhost & Hn & _). change Mkfs.NINODES with 200 in Hn. split.
  - intros p x D W ip s0 xi l s k arg Hmod Hk Hx H Hroom.
    destruct (root_dir v files _ xi Him Hx Hmod ltac:(change Mkfs.NINODES with 200; lia)) as [Hdir Hes].
    destruct (dirlookup_fs p x D W ip s0 xi v l (Mkfs.image_name arg) s H Hdir Hroom) as (s1 & H1 & E1).
    exists s1. split; [done|]. pose proof (lookup_lt_Some _ _ _ (proj1 Hk)). rewrite E1, (root_find files _ k arg Hes Hk ltac:(lia)). done.
  - intros p x D W ip s0 xi l s k arg off n Hk Hx H Hroom Hoff Hnn Hlt c m.
    assert (file_in v (S k) (zlen c) (file_of host arg)) as Hf by (apply (im_file _ _ _ Him); by rewrite list_lookup_fmap, Hk).
    destruct (loaded_file v (S k) xi _ _ Hx Hf) as (Hdev & _ & Hsz & Ea).
    assert (zlen c <= MAXFILE * BSIZE) as Hmax by apply (Forall_lookup_1 _ _ _ _ Hhost Hk).
    assert (read_len xi off n = m) as Em.
    { unfold read_len. rewrite Hsz, (proj2 (Z.leb_gt _ _)) by lia. destruct (Z.ltb_spec (zlen c) off); cbn [orb]; lia. }
    pose proof (nparts_bound (zlen c)) as Hb. pose proof MAXFILE_eq as (_ & _ & _ & EB). rewrite EB in *.
    pose proof (readi_fs p x ∅ [] D W ip s0 xi v l (PLocal []) off n s H Hdev Hroom ltac:(lia) ltac:(lia)) as Hrd. rewrite Em in Hrd.
    destruct (proj1 (runs_ret _ _) (Hrd ltac:(eapply file_readable; [done|done|apply Him|lia|fold c; lia|fold c; lia]) ltac:(done)))
      as (r & s1 & Er & s3 & H3 & [[-> Hd]|(j & _ & _ & _ & [])]).
    cbn in Hd. subst s3. exists s1. split; [done|]. rewrite Er, Ea. do 2 f_equal.
    destruct (decide (m = 0)) as [->|]; [done|]. apply (file_bytes v (S k) _ _ _ _ Hf); fold c; [lia|lia|lia|exact Hmax].
Qed.

Lemma load_load d o y : load_dinode d o (load_dinode d o y) = load_dinode d o y.
Proof. done. Qed.

Lemma mkfs_kernel_witness : exists s1 s1' s2 s2',
  dirlookup 0 [115; 104] s1 = (i <- iget ROOTDEV 2; ret (Some (i, 32)))%K s1' /\
  readi 0 (PLocal []) 1 10 s2 = Ret (3, [69; 76; 70]) s2'.
Proof.
  set (files := [Mkfs.user_prefix ++ [95; 115; 104]]). destruct (main_spec demo_host [] files demo_fits_image) as (s' & E & _).
  destruct (mkfs_kernel demo_host [] files s' demo_fits_image E) as [Hdir Hread]. set (v := blk s') in *.
  assert (forall k, exists s0 s xi, loaded v k xi /\ fi 0 demo_proc s0 v [] 0 xi ∅ v demo_oplog s) as Hk.
  { intros k. set (xi := load_dinode (v (IBLOCK (1 + Z.of_nat k) Mkfs.the_sb)) (di_off (1 + Z.of_nat k)) (demo_inode 0)).
    destruct (demo_image_fs (Mkfs.img s') Mkfs.the_sb [xi]) as (s0 & s & H & Esb & Eit). exists s0, s, xi. split; [split; [reflexivity|apply load_load]|].
    split; [rewrite Eit; cbn; lia|]. unfold inode_in. rewrite Eit. cbn [insert list_insert]. rewrite <- Eit.
    by replace (set_itable (itable s0) s0) with s0 by (by destruct s0). }
  assert (buf_room demo_oplog ∅) as Hroom by (split; [apply (demo_log_room 5); lia|vm_compute; reflexivity]).
  destruct (Hk 0%nat) as (s0 & s1 & xi & Hx & H). destruct (Hk 1%nat) as (s0' & s2 & xi' & Hx' & H').
  assert (first_of_name files 0 (Mkfs.user_prefix ++ [95; 115; 104])) as Hfirst by (split_and!; [reflexivity|by vm_compute|by vm_compute|lia]).
  assert (zlen (root_of files) mod BSIZE <> 0) as Hmod by by vm_compute.
  destruct (Hdir _ _ _ _ _ _ _ _ _ _ _ Hmod Hfirst Hx H Hroom) as (s1' & _ & E1).
  destruct (Hread _ _ _ _ _ _ _ _ _ 0%nat (Mkfs.user_prefix ++ [95; 115; 104]) 1 10 eq_refl Hx' H' Hroom ltac:(lia) ltac:(lia) ltac:(lia)) as (s2' & _ & E2).
  exists s1, s1', s2, s2'. split; [exact E1|exact E2].
Defined.
