(* ===== verification/File.v ===== *)
(** * kernel/file.c

    The file table and the operations behind file descriptors, with
    [pipealloc] of kernel/pipe.c, which allocates two of its entries. *)

From S2P Require Import Prelude Riscv Mem Locks Kalloc Vm Kstate Proc Sleeplock Console Pipe Bio Blk Log Fs.
Import Proc Sleeplock Console Pipe Bio Log Fs.

Module File.

Definition ftable_lock : lockid := ("ftable", 0).
Definition file_slots : list nat := seq 0 (Z.to_nat NFILE).

Definition fileinit : M kstate unit := initlock ftable_lock.

Definition filealloc : M kstate (option nat) :=
  (acquire ftable_lock;;
   r <- for_first file_slots (fun f =>
     x <- file_at f;
     if f_ref x =? 0 then
       file_upd f (set_f_ref 1);;
       release ftable_lock;;
       ret (Some f)
     else ret None);
   match r with
   | Some f => ret (Some f)
   | None => release ftable_lock;; ret None
   end)%K.

Definition filedup (f : nat) : M kstate nat :=
  (acquire ftable_lock;;
   x <- file_at f;
   if f_ref x <? 1 then panic "filedup"
   else
     file_upd f (set_f_ref (f_ref x + 1));;
     release ftable_lock;;
     ret f)%K.

Definition fileclose (f : nat) : M kstate unit :=
  (acquire ftable_lock;;
   x <- file_at f;
   if f_ref x <? 1 then panic "fileclose"
   else
     file_upd f (set_f_ref (f_ref x - 1));;
     ff <- file_at f;
     if 0 <? f_ref ff then release ftable_lock
     else
       file_upd f (set_f_ref 0);;
       file_upd f (set_f_type FD_NONE);;
       release ftable_lock;;
       match f_type ff with
       | FD_PIPE => pipeclose (f_pipe ff) (f_writable ff)
       | FD_INODE | FD_DEVICE =>
           begin_op;;
           ip <- deref (f_ip ff);
           iput ip;;
           end_op
       | FD_NONE => ret tt
       end)%K.

(** struct stat laid out: dev at 0, ino at 4, type at 8, nlink at 10, size at
    16; the four bytes at 12 are padding. *)
Definition stat_bytes (st : stat) : list Z :=
  le_bytes 4 (st_dev st) ++ le_bytes 4 (st_ino st) ++ le_bytes 2 (st_type st) ++
  le_bytes 2 (st_nlink st) ++ repeat 0 4 ++ le_bytes 8 (st_size st).

Definition filestat (f : nat) (addr : Z) : M kstate Z :=
  (p <- curproc;
   x <- file_at f;
   match f_type x with
   | FD_INODE | FD_DEVICE =>
       ilock (f_ip x);;
       ip <- deref (f_ip x);
       st <- stati ip;
       iunlock (f_ip x);;
       pr <- proc_at p;
       r <- vm (Vm.copyout (p_pagetable pr) addr (stat_bytes st) 24);
       if r <? 0 then ret (-1) else ret 0
   | _ => ret (-1)
   end)%K.

(** [f->major < 0 || f->major >= NDEV || !devsw[f->major].read] *)
Definition devsw_at (major : Z) : M kstate (option device) :=
  (d <- gets devsw;
   ret (if (major <? 0) || (NDEV <=? major) then None
        else match d !! Z.to_nat major with Some o => o | None => None end))%K.

Definition fileread (f : nat) (addr n : Z) : M kstate Z :=
  (x <- file_at f;
   if negb (f_readable x) then ret (-1)
   else
     match f_type x with
     | FD_PIPE => piperead (f_pipe x) addr n
     | FD_DEVICE =>
         d <- devsw_at (f_major x);
         match d with
         | None => ret (-1)
         | Some DevConsole => r <- consoleread (PUser addr) n; ret (fst r)
         end
     | FD_INODE =>
         ilock (f_ip x);;
         x <- file_at f;
         ip <- deref (f_ip x);
         ' (r, _) <- readi ip (PUser addr) (f_off x) (u32 n);
         (if 0 <? r then file_upd f (fun x => set_f_off (u32 (f_off x + r)) x) else ret tt);;
         iunlock (f_ip x);;
         ret r
     | FD_NONE => panic "fileread"
     end)%K.

(** The chunk size of [filewrite]. *)
Definition filewrite_max : Z := (MAXOPBLOCKS - 1 - 1 - 2) / 2 * BSIZE.

Definition filewrite_body (f : nat) (addr n i : Z) : M kstate (Z + Z) :=
  (if i <? n then
     let n1 := if filewrite_max <? n - i then filewrite_max else n - i in
     begin_op;;
     x <- file_at f;
     ilock (f_ip x);;
     x <- file_at f;
     ip <- deref (f_ip x);
     r <- writei ip (PUser (u64 (addr + i))) (f_off x) n1;
     (if 0 <? r then file_upd f (fun x => set_f_off (u32 (f_off x + r)) x) else ret tt);;
     iunlock (f_ip x);;
     end_op;;
     if negb (r =? n1) then ret (inr i) else ret (inl (i + r))
   else ret (inr i))%K.

Definition filewrite (f : nat) (addr n : Z) : M kstate Z :=
  (x <- file_at f;
   if negb (f_writable x) then ret (-1)
   else
     match f_type x with
     | FD_PIPE => pipewrite (f_pipe x) addr n
     | FD_DEVICE =>
         d <- devsw_at (f_major x);
         match d with
         | None => ret (-1)
         | Some DevConsole => consolewrite (PUser addr) n
         end
     | FD_INODE =>
         i <- loop (filewrite_body f addr n) 0;
         ret (if i =? n then n else -1)
     | FD_NONE => panic "filewrite"
     end)%K.

(** ** kernel/pipe.c: pipealloc *)

(** The [bad] exit, with what has been allocated so far. *)
Definition pipealloc_bad (f0 f1 : option nat) : M kstate (option (nat * nat)) :=
  ((match f0 with Some f => fileclose f | None => ret tt end);;
   (match f1 with Some f => fileclose f | None => ret tt end);;
   ret None)%K.

Definition pipealloc : M kstate (option (nat * nat)) :=
  (f0 <- filealloc;
   match f0 with
   | None => pipealloc_bad None None
   | Some a =>
       f1 <- filealloc;
       match f1 with
       | None => pipealloc_bad (Some a) None
       | Some b =>
           pi <- vm Kalloc.kalloc;
           if pi =? 0 then pipealloc_bad (Some a) (Some b)
           else
             modify (fun s => set_pipes (<[pi :=
               MkPipe (bytes (ram (mach s)) (pi + 24) PIPESIZE) 0 0 true true]> (pipes s)) s);;
             initlock (pipe_lock pi);;
             file_upd a (set_f_type FD_PIPE);;
             file_upd a (set_f_readable true);;
             file_upd a (set_f_writable false);;
             file_upd a (set_f_pipe pi);;
             file_upd b (set_f_type FD_PIPE);;
             file_upd b (set_f_readable false);;
             file_upd b (set_f_writable true);;
             file_upd b (set_f_pipe pi);;
             ret (Some (a, b))
       end
   end)%K.

End File.
