(* ===== verification/FileWrite.v ===== *)
(** * Writing to an open file, and crashes

    [filewrite] writes to a file in chunks, each an operation of its own: the
    open file's inode is locked, [writei] changes the blocks in the cache, and
    [end_op] commits them to the disk.  This file puts file.c, fs.c, log.c and
    bio.c together. *)

From Stdlib Require Import FunctionalExtensionality.
From S2P Require Import Prelude Mem Riscv Locks Kalloc Vm VmWalk VmMap VmCopy Kstate UserMem Proc ProcSpec Sleeplock SleeplockSpec Bio BioSpec CacheOps Blk Log LogSpec LogOps FsOps FsTxn Fs FileData FsAlloc FsFile FsRw FsWrite FsFileSpec File.
Import Proc Sleeplock Bio Log Fs File.

(** ** Disks that agree outside the log *)

Section same.
Context (sbk : superblock) (v w : Z -> list Z).
Local Abbreviation size := (sb_size sbk).
Context (Hd : disk_ok sbk v) (Hs : same_data (sb_nlog sbk) (sb_logstart sbk) w v).

Lemma used_same n : 0 <= n < size -> used sbk w n = used sbk v n.
Proof. intros Hn. unfold used. rewrite Hs; [done|]. by apply (map_not_log sbk v). Qed.

Lemma disk_ok_same : disk_ok sbk w.
Proof.
  split; [apply Hd|..].
  - intros n Hn Hl. rewrite Hs by done. by apply (do_full _ _ Hd).
  - intros n Hn. destruct (do_map _ _ Hd n Hn) as [H1 H2]. split; [done|]. by rewrite used_same.
  - intros n Hn. destruct (do_log _ _ Hd n Hn) as [H1 H2]. split; [done|]. by rewrite used_same.
  - apply Hd.
Qed.

Lemma data_block_same n : data_block sbk v n -> data_block sbk w n /\ w n = v n.
Proof. intros (H1 & H2 & H3 & H4). split; [|by apply Hs]. split; [done|]. split; [by rewrite used_same|done]. Qed.

Context (a : list Z) (Hf : file_ok sbk v a).

Lemma owned_same n : owns v a n -> w n = v n.
Proof. intros Hn. by apply data_block_same, (fk_owns _ _ _ Hf). Qed.

Lemma owns_same n : owns w a n <-> owns v a n.
Proof. apply owns_ext. apply owned_same. Qed.

Lemma file_ok_same : file_ok sbk w a.
Proof.
  split; [apply Hf|apply (file_apart_ext v); [apply owned_same|apply Hf]|].
  intros n Hn%owns_same. by apply data_block_same, (fk_owns _ _ _ Hf).
Qed.
End same.

(** ** Writes one after the other *)

Lemma put_put_dinode d o y z : dinode_ok y -> dinode_ok z -> 0 <= o -> o + DINODE_SIZE <= Z.of_nat (length d) ->
  put_dinode (put_dinode d o y) o z = put_dinode d o z.
Proof.
  intros Hy Hz Ho Hd. pose proof (dinode_length y Hy). pose proof (dinode_length z Hz).
  rewrite (put_dinode_eq d o y), (put_dinode_eq d o z), put_dinode_eq by (rewrite ?lput_length; done). apply lput_lput; lia.
Qed.

(** The inode in memory after a write. *)
Definition inode_after (xi : inode) (a' : list Z) (fin : Z) : inode := set_i_size (Z.max (i_size xi) fin) (set_i_addrs a' xi).

Lemma inode_after_ok sbk xi v' a' fin : dinode_ok xi -> disk_ok sbk v' -> file_ok sbk v' a' -> 0 <= fin <= MAXFILE * BSIZE ->
  dinode_ok (inode_after xi a' fin).
Proof.
  intros [X1 X2 X3 X4 X5 _] Hd Hf Hfin. pose proof (MAXFILE_eq) as (EM & ED & EI & EB).
  split; cbn; try done; [lia|]. split; [apply (fk_len _ _ _ Hf)|]. by apply (file_addrs sbk v').
Qed.

Lemma inode_after_twice xi a1 f1 a2 f2 : f1 <= f2 -> inode_after (inode_after xi a1 f1) a2 f2 = inode_after xi a2 f2.
Proof.
  intros H. unfold inode_after. cbn [i_size set_i_size set_i_addrs].
  by replace (Z.max (Z.max (i_size xi) f1) f2) with (Z.max (i_size xi) f2) by lia.
Qed.

Section writes.
Context (sbk : superblock) (xi : inode) (v : Z -> list Z) (off : Z).
Local Abbreviation size := (sb_size sbk).
Local Abbreviation ib := (IBLOCK (i_inum xi) sbk).

Lemma written_block (bs : list Z) i : 0 <= off -> off + Z.of_nat (length bs) <= MAXFILE * BSIZE ->
  off <= i < off + Z.of_nat (length bs) -> 0 <= i / BSIZE < MAXFILE.
Proof. intros. apply block_index. lia. Qed.

(** A write, on a disk with the data of [w] instead of [v1]. *)
Lemma written_same bs a1 v1 w : file_written sbk xi v off bs a1 v1 -> disk_ok sbk v1 -> ~ log_area sbk ib ->
  0 <= off -> off + Z.of_nat (length bs) <= MAXFILE * BSIZE ->
  same_data (sb_nlog sbk) (sb_logstart sbk) w v1 -> file_written sbk xi v off bs a1 w.
Proof.
  intros [Hok Hb Ha Hk Hfr Hu Hn Hi] Hd Hib H1 H2 Hs. pose proof (owned_same sbk v1 w Hd Hs a1 Hok) as Ho.
  split; [by apply (file_ok_same sbk v1)|..].
  - intros i Hr. rewrite <- (Hb i Hr). by apply fbyte_ext.
  - intros i Hr. rewrite (baddr_ext v1) by (done || by eapply written_block). by apply Ha.
  - intros bn Hbn H0. rewrite (baddr_ext v1) by done. by apply Hk.
  - intros m Hm Hno Hne. rewrite Hs by apply Hm. by apply Hfr.
  - intros m Hm Hum. rewrite (used_same sbk v1) by done. by apply Hu.
  - intros m Hm%(owns_same sbk v1 w Hd Hs a1 Hok). by apply Hn.
  - cbn zeta in *. by rewrite Hs.
Qed.

(** Two writes in a row are one. *)
Lemma written_trans bs1 a1 v1 bs2 a2 v2 : file_written sbk xi v off bs1 a1 v1 ->
  let fin := off + Z.of_nat (length bs1) in let xi1 := inode_after xi a1 fin in
  file_written sbk xi1 v1 fin bs2 a2 v2 -> disk_ok sbk v -> data_block sbk v ib -> disk_ok sbk v1 -> disk_ok sbk v2 -> dinode_ok xi ->
  0 <= off -> fin + Z.of_nat (length bs2) <= MAXFILE * BSIZE -> file_written sbk xi v off (bs1 ++ bs2) a2 v2.
Proof.
  intros H1 fin xi1 H2 Hd Hib Hd1 Hd2 Hx Hoff Hmax.
  pose proof H1 as [Hok1 Hb1 Ha1 Hk1 Hf1 Hu1 Hn1 Hi1]. pose proof H2 as [Hok2 Hb2 Ha2 Hk2 Hf2 Hu2 Hn2 Hi2].
  change (i_addrs xi1) with a1 in *. change (i_inum xi1) with (i_inum xi) in *. fold fin in Hb1, Ha1.
  split; [done|..].
  - intros i Hr. rewrite (Hb2 i Hr), (Hb1 i Hr), length_app. repeat case_decide; try done; try lia.
    + rewrite app_nth2 by lia. f_equal. lia.
    + rewrite app_nth1 by lia. done.
  - intros i Hr. rewrite length_app in Hr. destruct (decide (i < fin)); [|apply Ha2; lia].
    apply Hk2; [apply block_index; lia|]. apply Ha1. lia.
  - intros bn Hbn H0. apply Hk2; [done|]. by apply Hk1.
  - intros m Hm Hno Hne. rewrite Hf2; [by apply Hf1| |by intros [?|[_ ?]]%Hn1; [|destruct Hm as (_ & ? & _); congruence]|done].
    destruct Hm as (R & U & M & L). split; [done|]. split; [by apply Hu1|done].
  - intros m Hm Hum. apply Hu2; [done|]. by apply Hu1.
  - intros m [Ho|[Hm Hum]]%Hn2; [by apply Hn1|]. right. split; [done|].
    destruct (used sbk v m) eqn:E; [|done]. by rewrite Hu1 in Hum.
  - cbn zeta in *. assert (set_i_size (Z.max (i_size xi1) (fin + Z.of_nat (length bs2))) (set_i_addrs a2 xi1) =
      set_i_size (Z.max (i_size xi) (off + Z.of_nat (length (bs1 ++ bs2)))) (set_i_addrs a2 xi)) as Ex.
    { rewrite length_app. replace (off + _) with (fin + Z.of_nat (length bs2)) by lia. apply inode_after_twice. lia. }
    rewrite Ex in Hi2. destruct Hi2 as [E2 L2], Hi1 as [E1 _]. split; [|done]. rewrite E2, E1.
    pose proof (di_off_range (i_inum xi)). pose proof (data_full _ _ _ Hd Hib) as [Hl _].
    apply put_put_dinode; [apply (inode_after_ok sbk xi v1); [done..|lia]| |lia|lia].
    apply (inode_after_ok sbk xi v2); [done..|]. rewrite length_app. lia.
Qed.
End writes.

(** ** The inode's lock and the open file *)

Section steps.
Context (p : nat) (x : proc) (s0 : kstate) (D : Z -> list Z) (W : list (Z * list Z)) (ip : nat).
Implicit Types (v : Z -> list Z) (l : logst).

Lemma inode_lock_fs xi v l s lk : fi p x s0 D W ip xi ∅ v l s ->
  sl_at (SLinode ip) s = Some (i_lock xi) /\ fi p x s0 D W ip (set_i_lock lk xi) ∅ v l (sl_put (SLinode ip) lk s).
Proof.
  intros H. destruct (fi_upd p x s0 D W ip xi ∅ v l s (set_i_lock lk) H) as (s' & E & H').
  assert (itable s !! ip = Some xi) as Hi.
  { pose proof (fi_at _ _ _ _ _ _ _ _ _ _ _ H) as Ea. unfold inode_at in Ea. destruct (itable s !! ip); [congruence|done]. }
  assert (sl_at (SLinode ip) s = Some (i_lock xi)) as Hl by (cbn; by rewrite Hi).
  split; [done|]. pose proof (sl_set_eq (SLinode ip) _ lk s Hl) as E'. cbn [sl_set] in E'. congruence.
Qed.

Lemma ilock_fs xi v l s : fi p x s0 D W ip xi ∅ v l s -> sl_locked (i_lock xi) = 0 -> 1 <= i_ref xi -> i_valid xi = true ->
  exists s', ilock (Some ip) s = Ret tt s' /\ fi p x s0 D W ip (set_i_lock (MkSleeplock 1 (p_pid x)) xi) ∅ v l s'.
Proof.
  intros H Hlk Hr Hv. destruct (inode_lock_fs xi v l s (MkSleeplock 1 (p_pid x)) H) as [Hl H']. eexists. split; [|exact H'].
  unfold ilock. erewrite bind_Ret by (eapply fi_at; exact H). rewrite (proj2 (Z.ltb_ge _ _)) by done.
  erewrite bind_Ret by (apply (acquiresleep_free p x _ _ _ (cs_thread _ _ _ _ _ _ _ _ _ (proj1 (proj2 H))) Hl Hlk)).
  erewrite bind_Ret by (eapply fi_at; exact H'). cbn [i_valid set_i_lock]. by rewrite Hv.
Qed.

Lemma iunlock_fs xi v l s : fi p x s0 D W ip xi ∅ v l s -> i_lock xi = MkSleeplock 1 (p_pid x) -> 1 <= i_ref xi ->
  exists s', iunlock (Some ip) s = Ret tt s' /\ fi p x s0 D W ip (set_i_lock (MkSleeplock 0 0) xi) ∅ v l s'.
Proof.
  intros H Elk Hr. destruct (inode_lock_fs xi v l s (MkSleeplock 0 0) H) as [Hl [Hip H']].
  pose proof (cs_thread _ _ _ _ _ _ _ _ _ (proj1 (proj2 H))) as Ht. rewrite Elk in Hl.
  apply (fsx_wake _ _ _ _ _ _ _ _ _ (sl_chan (SLinode ip))) in H'. eexists. split; [|split; [done|exact H']].
  unfold iunlock. erewrite bind_Ret by by apply (holdingsleep_eq p x _ _ _ Ht Hl).
  erewrite bind_Ret by (eapply fi_at; exact H). cbn [sl_locked sl_pid]. rewrite Z.eqb_refl, (proj2 (Z.ltb_ge _ _)) by done. cbn.
  by rewrite (releasesleep_eq p x _ _ _ Ht Hl).
Qed.

Lemma ftable_fs xi h v l s : fi p x s0 D W ip xi h v l s -> ftable s = ftable s0.
Proof. intros [_ [[_ _ _ _ He _] _]]. by apply (f_equal ftable) in He. Qed.

(** The state with the open file [fx] in slot [f]. *)
Definition file_in (f : nat) (fx : file) : kstate := set_ftable (<[f := fx]> (ftable s0)) s0.

Lemma file_at_fs xi h v l s f fx : fi p x s0 D W ip xi h v l s -> ftable s0 !! f = Some fx -> file_at f s = Ret fx s.
Proof. intros H Hf. unfold file_at. by rewrite (ftable_fs _ _ _ _ _ H), Hf. Qed.

Lemma file_upd_fs xi h v l s f fx g : fi p x s0 D W ip xi h v l s -> ftable s0 !! f = Some fx ->
  exists s', file_upd f g s = Ret tt s' /\ fi p x (file_in f (g fx)) D W ip xi h v l s'.
Proof.
  intros H Hf. eexists. unfold file_upd. rewrite (ftable_fs _ _ _ _ _ H), Hf. split; [done|]. destruct H as [Hip H]. split; [done|].
  by apply (fsx_base p x (inode_in s0 ip xi) D W h v l s (set_ftable (<[f := g fx]> (ftable s0)))).
Qed.
End steps.

(** ** One chunk *)

(** No operation is under way, and the log has place for one. *)
Record idle_log (sbk : superblock) (l : logst) : Prop := {
  il_place : l_dev l = ROOTDEV /\ l_start l = sb_logstart sbk /\ l_size l = sb_nlog sbk;
  il_room : MAXOPBLOCKS <= sb_nlog sbk;
  il_idle : l_committing l = false /\ l_outstanding l = 0 /\ lh_n l = 0;
  il_len : Z.of_nat (length (lh_block l)) = LOGSIZE;
}.

(** A file with a valid, unlocked inode in memory that is the one on the disk, on a
    disk whose log is empty. *)
Record file_state (sbk : superblock) (xi : inode) (D : Z -> list Z) (l : logst) : Prop := {
  fs_mem : i_dev xi = ROOTDEV /\ 1 <= i_ref xi /\ i_valid xi = true /\ i_lock xi = MkSleeplock 0 0;
  fs_disk : disk_ok sbk D /\ used sbk D 0 = true /\ sb_size sbk <= BPB;
  fs_file : file_ok sbk D (i_addrs xi);
  fs_inode : dinode_ok xi;
  fs_block : data_block sbk D (IBLOCK (i_inum xi) sbk);
  fs_apart : ~ owns D (i_addrs xi) (IBLOCK (i_inum xi) sbk);
  fs_synced : let ib := IBLOCK (i_inum xi) sbk in put_dinode (D ib) (di_off (i_inum xi)) xi = D ib;
  fs_log : idle_log sbk l;
  fs_head : length (D (sb_logstart sbk)) = 1024%nat /\ hdr_n (D (sb_logstart sbk)) = 0;
}.

Lemma idle_wf sbk l : idle_log sbk l -> log_wf l /\ txn l = [].
Proof.
  intros [_ _ (_ & _ & En) Hl]. assert (txn l = []) as Et by (unfold txn; by rewrite En).
  split; [|done]. split; [rewrite En; by vm_compute|]. split; [done|]. rewrite Et. constructor.
Qed.

Lemma blocks_chunk off n : 0 <= n <= filewrite_max -> blocks off n <= 4.
Proof.
  change filewrite_max with (3 * BSIZE). intros Hn. unfold blocks. destruct (0 <? n); [|lia].
  assert ((off + n - 1) / BSIZE <= (off + 3 * BSIZE) / BSIZE) as H by (apply Z.div_le_mono; [done|lia]).
  rewrite Z_div_plus in H by done. lia.
Qed.

Lemma chunk_fits s0 l a off n : idle_log (sb s0) l -> 0 <= n <= filewrite_max ->
  fits s0 (blocks off n + 2) (set_l_outstanding 1 l) a.
Proof.
  intros Hl Hn. destruct (idle_wf _ _ Hl) as [Hwf _]. pose proof (blocks_chunk off n Hn).
  destruct Hl as [(_ & _ & Es) Hr (_ & _ & En) _]. unfold MAXOPBLOCKS in Hr. split; [done|]. unfold cost.
  cbn [lh_n l_size l_outstanding set_l_outstanding]. rewrite En, Es. change LOGSIZE with 30. repeat case_decide; lia.
Qed.

(** The lock is not part of what a write changes. *)
Lemma written_unlocked sbk xi lk v off bs a' v' : file_written sbk (set_i_lock lk xi) v off bs a' v' ->
  file_written sbk xi v off bs a' v'.
Proof.
  intros [Hok Hb Ha Hk Hfr Hu Hn [E L]]. split; try done. cbn zeta. split; [exact E|].
  apply (f_equal (set_i_lock (i_lock xi))) in L. destruct xi. exact L.
Qed.

(** The log before [end_op]. *)
Lemma chunk_ready sbk D l l' : idle_log sbk l -> log_step sbk (set_l_outstanding 1 l) l' -> lh_n l' <= 7 ->
  length (D (sb_logstart sbk)) = 1024%nat /\ hdr_n (D (sb_logstart sbk)) = 0 ->
  txn_ready D l' /\ l_size l' = sb_nlog sbk /\ l_start l' = sb_logstart sbk /\ idle_log sbk (log_idle l').
Proof.
  intros Hl [Hwf _ _ El Hnd Hnew] H7 Hh. destruct (idle_wf _ _ Hl) as [_ Et].
  pose proof Hl as [(E1 & E2 & E3) Hr (E4 & E5 & E6) Hlen]. unfold MAXOPBLOCKS in Hr.
  assert (l_size l' = sb_nlog sbk /\ l_start l' = sb_logstart sbk /\ l_dev l' = ROOTDEV /\ l_committing l' = false /\
    l_outstanding l' = 1) as (F1 & F2 & F3 & F4 & F5) by (rewrite El; done).
  change (txn (set_l_outstanding 1 l)) with (txn l) in *. rewrite Et in *.
  split; [|split_and!; [done..|]].
  - split; [done|done|rewrite F1; change LOGSIZE with 30; lia|apply Hnd; constructor| |by rewrite F2].
    intros n [Hn%not_elem_of_nil|Hn]%Hnew; [done|]. by rewrite F1, F2.
  - split; [by cbn|done|by cbn|]. apply Hwf.
Qed.

(** The file after a write that has been committed. *)
Lemma file_state_after s0 xi D l off bs a' v' w l' : let sbk := sb s0 in let fin := off + Z.of_nat (length bs) in
  file_state sbk xi D l -> file_written sbk xi D off bs a' v' -> disk_inv s0 v' ->
  same_data (sb_nlog sbk) (sb_logstart sbk) w v' -> 0 <= off -> fin <= MAXFILE * BSIZE -> idle_log sbk l' ->
  length (w (sb_logstart sbk)) = 1024%nat /\ hdr_n (w (sb_logstart sbk)) = 0 ->
  file_state sbk (inode_after xi a' fin) w l' /\ file_written sbk xi D off bs a' w /\ avail s0 w a' = avail s0 v' a'.
Proof.
  intros sbk fin [Hm Hd Hf Hx Hb Hap Hsy Hl Hh] Hw (Hd1 & Hu1 & Hone) Hs Hoff Hfin Hl' Hh'.
  pose proof (do_size _ _ (proj1 Hd)) as Hsz. assert (0 <= 0 < sb_size sbk) as H0 by (destruct Hb as (? & _); lia).
  assert (file_written sbk xi D off bs a' w) as Hw' by (eapply written_same; try done; apply Hb).
  pose proof (disk_ok_same sbk v' w Hd1 Hs) as Hdw. pose proof (fw_inode _ _ _ _ _ _ _ Hw') as [Ei _].
  split; [|split; [done|]].
  - split; try done.
    + split; [done|]. split; [|done]. by rewrite (used_same sbk v').
    + apply Hw'.
    + apply (inode_after_ok sbk xi w); [done|done|apply Hw'|lia].
    + destruct Hb as (R & U & M & L). split; [done|]. split; [|done]. by apply (fw_used _ _ _ _ _ _ _ Hw').
    + change (i_inum (inode_after xi a' fin)) with (i_inum xi).
      intros [?|[_ Hf0]]%(fw_new _ _ _ _ _ _ _ Hw'); [done|]. destruct Hb as (_ & U & _). congruence.
    + cbn zeta in *. change (i_inum (inode_after xi a' fin)) with (i_inum xi). rewrite Ei.
      pose proof (di_off_range (i_inum xi)). pose proof (data_full _ _ _ (proj1 Hd) Hb) as [Hlb _].
      assert (dinode_ok (inode_after xi a' fin)) by (apply (inode_after_ok sbk xi w); [done|done|apply Hw'|lia]).
      apply put_put_dinode; [done|done|lia|lia].
  - unfold avail. f_equal. apply nfree_same. intros n Hn. by apply used_same.
Qed.

Section chunk.
Context (p : nat) (x : proc) (T : ptree) (ip f : nat) (s0 : kstate) (fx : file) (D : Z -> list Z) (W : list (Z * list Z)).
Context (xi : inode) (l : logst) (addr n i : Z).
Local Abbreviation sbk := (sb s0).
Local Abbreviation off := (f_off fx).
Local Abbreviation start := (sb_logstart (sb s0)).
Local Abbreviation nlog := (sb_nlog (sb s0)).
Let n1 := if filewrite_max <? n - i then filewrite_max else n - i.
Local Abbreviation bs := (src_bytes T (PUser (addr + i)) s0 n1).

Context (Hst : file_state sbk xi D l) (Hf : ftable s0 !! f = Some fx) (Hip : f_ip fx = Some ip).
Context (Hoff : 0 <= off <= i_size xi) (Hmax : off + n1 <= MAXFILE * BSIZE) (Hi : 0 <= i < n).
Context (Hsrc : src_ok x T (PUser (addr + i)) s0 n1) (Hav : blocks off n1 <= avail s0 D (i_addrs xi)).

Lemma filewrite_chunk s : fi p x s0 D W ip xi ∅ D l s ->
  exists a' ws l' s', let D' := apply_writes D ws in let fin := off + n1 in
    filewrite_body f addr n i s = Ret (inl (i + n1)) s' /\
    fi p x (file_in s0 f (set_f_off fin fx)) D' (rev ws ++ W) ip (inode_after xi a' fin) ∅ D' l' s' /\
    file_state sbk (inode_after xi a' fin) D' l' /\ file_written sbk xi D off bs a' D' /\
    avail s0 D (i_addrs xi) <= avail s0 D' a' + blocks off n1 /\
    forall k, let Dk := apply_writes D (take k ws) in recovers nlog start Dk D \/ recovers nlog start Dk D'.
Proof.
  intros H. pose proof Hst as [(Hdev & Hr & Hv & Hlk) Hd Hfk Hx Hb Hap Hsy Hl Hh].
  pose proof Hl as [_ _ (Hcm & Ho & En) _]. pose proof (MAXFILE_eq) as (EM & ED & EI & EB).
  assert (0 < n1 <= filewrite_max) as Hn1 by (unfold n1; change filewrite_max with (3 * BSIZE); destruct (Z.ltb_spec (3 * BSIZE) (n - i)); lia).
  destruct (begin_fs p x _ D W ∅ D l s (proj2 H) Hcm) as (s1 & E1 & H1); [rewrite En, Ho; by vm_compute|].
  rewrite Ho in H1. change (0 + 1) with 1 in H1. apply (conj (proj1 H)) in H1.
  destruct (ilock_fs p x s0 D W ip xi D _ s1 H1) as (s2 & E2 & H2); [by rewrite Hlk|done|done|].
  destruct (writei_fs p x T D W ip s0 (set_i_lock (MkSleeplock 1 (p_pid x)) xi) D _ (PUser (addr + i)) off n1 s2 H2)
    as (a' & v' & l2 & s3 & E3 & H3 & Hd3 & Hw & Hls & Hn3 & Hav3); try done;
    [by destruct Hx|lia|by apply chunk_fits; [|lia]|].
  pose proof (blocks_chunk off n1 ltac:(lia)) as Hbl. change (lh_n (set_l_outstanding 1 l)) with (lh_n l) in Hn3.
  destruct (file_upd_fs p x s0 D W ip _ ∅ v' l2 s3 f fx (fun y => set_f_off (u32 (f_off y + n1)) y) H3 Hf) as (s4 & E4 & H4).
  rewrite u32_small in H4 by lia. destruct (iunlock_fs p x _ D W ip _ v' l2 s4 H4 eq_refl Hr) as (s5 & E5 & [Hip5 H5]).
  destruct (chunk_ready sbk D l l2 Hl Hls ltac:(lia) Hh) as (Hrd & Esz & Est & Hl2).
  destruct (end_fs p x _ D W v' l2 s5 H5 Hrd) as (ws & s6 & E6 & [Cd Ch Cc] & H6). rewrite Esz, Est in *.
  apply written_unlocked in Hw. pose proof (src_length x T _ _ _ Hsrc ltac:(lia)) as Hlen.
  assert (off + Z.of_nat (length bs) = off + n1) as Efin by lia.
  destruct (file_state_after s0 xi D l off bs a' v' _ (log_idle l2) Hst Hw Hd3 Cd) as (Hst' & Hw' & Eav); [lia|lia|done|done|].
  rewrite Efin in Hst'. exists a', ws, (log_idle l2), s6. cbn zeta. split_and!; try done.
  - unfold filewrite_body. rewrite (proj2 (Z.ltb_lt _ _)) by lia. fold n1. cbn zeta. erewrite bind_Ret by exact E1.
    erewrite bind_Ret by (eapply file_at_fs; [exact H1|exact Hf]). rewrite Hip. erewrite bind_Ret by exact E2.
    erewrite bind_Ret by (eapply file_at_fs; [exact H2|exact Hf]). rewrite Hip. erewrite bind_Ret by reflexivity. rewrite u64_small by (destruct Hsrc as (_ & _ & _ & ? & ?); lia). erewrite bind_Ret by exact E3.
    rewrite (proj2 (Z.ltb_lt _ _)) by lia. erewrite bind_Ret by exact E4. erewrite bind_Ret by exact E5.
    erewrite bind_Ret by exact E6. by rewrite Z.eqb_refl.
  - split; [exact (proj1 H)|]. replace (inode_after xi a' (off + n1)) with
      (set_i_lock (MkSleeplock 0 0) (inode_after (set_i_lock (MkSleeplock 1 (p_pid x)) xi) a' (off + n1))); [exact H6|].
    unfold inode_after. rewrite <- Hlk. by destruct xi.
  - rewrite Eav. exact Hav3.
  - intros k. destruct (Cc k) as [?|Hk]; [by left|right]. eapply recovers_same; [exact Hk|]. by apply same_data_sym.
Qed.
End chunk.

(** ** The loop *)

Lemma blocks_split o m r : 0 <= o -> 0 < m < r ->
  blocks o m <= blocks o r /\ blocks o m + blocks (o + m) (r - m) <= blocks o r + 1.
Proof.
  intros Ho Hm. unfold blocks. rewrite !(proj2 (Z.ltb_lt 0 _)) by lia. replace (o + m + (r - m) - 1) with (o + r - 1) by lia.
  assert ((o + m - 1) / BSIZE <= (o + m) / BSIZE) by (apply Z.div_le_mono; [done|lia]).
  assert ((o + m - 1) / BSIZE <= (o + r - 1) / BSIZE) by (apply Z.div_le_mono; [done|lia]). lia.
Qed.

(** The free blocks that a write of [r] bytes in chunks may need: a block that two
    chunks share is counted twice. *)
Definition chunks_need (o r : Z) : Z := blocks o r + r / filewrite_max.

Lemma chunks_need_step o r : 0 <= o -> 0 < r -> let m := if filewrite_max <? r then filewrite_max else r in
  blocks o m <= chunks_need o r /\ blocks o m + chunks_need (o + m) (r - m) <= chunks_need o r.
Proof.
  intros Ho Hr. unfold chunks_need. change filewrite_max with 3072. destruct (Z.ltb_spec 3072 r) as [Hlt|Hge]; cbn zeta.
  - destruct (blocks_split o 3072 r Ho ltac:(lia)) as [H1 H2]. pose proof (Z.div_pos r 3072 ltac:(lia) ltac:(lia)).
    assert (r / 3072 = (r - 3072) / 3072 + 1) as E; [|lia].
    rewrite <- Z_div_plus by lia. f_equal. lia.
  - rewrite Z.sub_diag. change (blocks (o + r) 0) with 0. change (0 / 3072) with 0.
    pose proof (Z.div_pos r 3072 ltac:(lia) ltac:(lia)). lia.
Qed.

Section filewrite.
Context (p : nat) (x : proc) (T : ptree) (ip f : nat) (s0 : kstate) (fx : file) (D : Z -> list Z) (W : list (Z * list Z)).
Context (xi : inode) (addr n : Z).
Local Abbreviation sbk := (sb s0).
Local Abbreviation off := (f_off fx).
Local Abbreviation bs := (src_bytes T (PUser addr) s0 n).

(** Byte [j] is the end of a chunk. *)
Definition chunk_end (j : Z) : Prop := 0 <= j <= n /\ (j mod filewrite_max = 0 \/ j = n).

(** Whatever number of the writes [ws] the disk has received, recovery gives the
    file with the first chunks written. *)
Definition crash_ok (ws : list (Z * list Z)) : Prop := forall k, exists j a E, chunk_end j /\
  recovers (sb_nlog sbk) (sb_logstart sbk) (apply_writes D (take k ws)) E /\ disk_ok sbk E /\
  file_written sbk xi D off (take (Z.to_nat j) bs) a E.

(** The state after [tot] bytes. *)
Record progress (tot : Z) (a' : list Z) (ws : list (Z * list Z)) (l' : logst) (s : kstate) : Prop := {
  pr_end : chunk_end tot;
  pr_state : fi p x (file_in s0 f (set_f_off (off + tot) fx)) (apply_writes D ws) (rev ws ++ W) ip
    (inode_after xi a' (off + tot)) ∅ (apply_writes D ws) l' s;
  pr_file : file_state sbk (inode_after xi a' (off + tot)) (apply_writes D ws) l';
  pr_written : file_written sbk xi D off (take (Z.to_nat tot) bs) a' (apply_writes D ws);
  pr_avail : chunks_need (off + tot) (n - tot) <= avail s0 (apply_writes D ws) a';
  pr_crash : crash_ok ws;
}.

(** The writes of one more chunk. *)
Lemma crash_ok_app ws ws' a1 tot a2 tot' : let D1 := apply_writes D ws in let D2 := apply_writes D (ws ++ ws') in
  crash_ok ws -> chunk_end tot -> chunk_end tot' -> disk_ok sbk D1 -> disk_ok sbk D2 ->
  file_written sbk xi D off (take (Z.to_nat tot) bs) a1 D1 -> file_written sbk xi D off (take (Z.to_nat tot') bs) a2 D2 ->
  (forall k, let Dk := apply_writes D1 (take k ws') in recovers (sb_nlog sbk) (sb_logstart sbk) Dk D1 \/
     recovers (sb_nlog sbk) (sb_logstart sbk) Dk D2) ->
  crash_ok (ws ++ ws').
Proof.
  intros D1 D2 Hc Ht Ht' Hd1 Hd2 Hw1 Hw2 Hk k. destruct (decide (k <= length ws)%nat) as [Hle|Hgt].
  - rewrite take_app_le by done. apply Hc.
  - rewrite take_app_ge, apply_writes_app by lia. fold D1. destruct (Hk (k - length ws)%nat) as [H|H].
    + by exists tot, a1, D1.
    + by exists tot', a2, D2.
Qed.

Context (l : logst) (Hst : file_state sbk xi D l) (Hf : ftable s0 !! f = Some fx) (Hip : f_ip fx = Some ip).
Context (Hoff : 0 <= off <= i_size xi) (Hn : 0 <= n) (Hmax : off + n <= MAXFILE * BSIZE).
Context (Hsrc : src_ok x T (PUser addr) s0 n).

Lemma bs_length : length bs = Z.to_nat n.
Proof using Hsrc Hn. by apply (src_length x T (PUser addr) s0 n). Qed.

Lemma take_length tot : 0 <= tot <= n -> Z.of_nat (length (take (Z.to_nat tot) bs)) = tot.
Proof using Hsrc Hn. intros. rewrite length_take, bs_length. lia. Qed.

(** The bytes of the next chunk. *)
Lemma chunk_src tot m : 0 <= tot -> 0 <= m -> tot + m <= n -> src_ok x T (PUser (addr + tot)) s0 m /\
  take (Z.to_nat (tot + m)) bs = take (Z.to_nat tot) bs ++ src_bytes T (PUser (addr + tot)) s0 m.
Proof using Hsrc Hn.
  intros Ht Hm Hle. destruct Hsrc as (H1 & H2 & H3 & H4 & H5). split.
  - cbn. split_and!; [done|done| |lia|lia]. intros va Hva. apply H3. lia.
  - cbn [src_bytes]. rewrite <- (uread_lsub T _ addr n tot m) by lia. unfold lsub. rewrite Z2Nat.inj_add by lia.
    symmetry. apply take_take_drop.
Qed.

Lemma progress_step tot a1 ws l1 s : tot < n -> progress tot a1 ws l1 s ->
  exists tot' a2 ws' l2 s', filewrite_body f addr n tot s = Ret (inl tot') s' /\ tot < tot' /\ progress tot' a2 ws' l2 s'.
Proof using Hst Hf Hip Hoff Hn Hmax Hsrc.
  intros Hlt [He H Hs Hw Hav Hcr]. set (D1 := apply_writes D ws) in *. pose proof He as [Htot Hmod].
  set (m := if filewrite_max <? n - tot then filewrite_max else n - tot).
  assert (0 < m <= n - tot) as Hm by (unfold m; change filewrite_max with 3072; destruct (Z.ltb_spec 3072 (n - tot)); lia).
  assert (chunk_end (tot + m)) as He'.
  { split; [lia|]. destruct Hmod as [Hmod|]; [|lia]. unfold m. destruct (filewrite_max <? n - tot); [left|right; lia].
    change filewrite_max with 3072 in *. rewrite <- Z.add_mod_idemp_l, Hmod by lia. done. }
  destruct (chunk_src tot m) as [Hsrc1 Etk]; [lia..|].
  destruct (chunks_need_step (off + tot) (n - tot) ltac:(lia) ltac:(lia)) as [Hc1 Hc2]. fold m in Hc1, Hc2.
  set (s1 := file_in s0 f (set_f_off (off + tot) fx)) in *. set (xi1 := inode_after xi a1 (off + tot)) in *.
  destruct (filewrite_chunk p x T ip f s1 (set_f_off (off + tot) fx) D1 (rev ws ++ W) xi1 l1 addr n tot Hs) with (s := s)
    as (a2 & ws' & l2 & s' & E & H' & Hs' & Hw' & Hav' & Hk); try done.
  { cbn. apply list_lookup_insert_eq. by eapply lookup_lt_Some. }
  { cbn. lia. }
  { cbn [f_off set_f_off]. fold m. lia. }
  { lia. }
  { etrans; [exact Hc1|exact Hav]. }
  fold m in E, H', Hs', Hw', Hav', Hk. cbn [f_off set_f_off] in *.
  set (D2 := apply_writes D1 ws') in *. assert (apply_writes D (ws ++ ws') = D2) as ED2 by apply apply_writes_app.
  pose proof (take_length tot Htot) as Hlt'. pose proof (fs_disk _ _ _ _ Hs) as (Hd1 & _). pose proof (fs_disk _ _ _ _ Hs') as (Hd2 & _).
  assert (file_written sbk xi D off (take (Z.to_nat (tot + m)) bs) a2 D2) as Hw2.
  { rewrite Etk. apply (written_trans sbk xi D off _ a1 D1); rewrite ?Hlt'; try done;
      [apply (fs_disk _ _ _ _ Hst)|apply (fs_block _ _ _ _ Hst)|apply (fs_inode _ _ _ _ Hst)|lia|].
    rewrite (src_length x T _ _ _ Hsrc1) by lia. lia. }
  assert (inode_after xi1 a2 (off + tot + m) = inode_after xi a2 (off + (tot + m))) as Exi.
  { rewrite Z.add_assoc. apply inode_after_twice. lia. }
  rewrite Exi in H', Hs'. exists (tot + m), a2, (ws ++ ws'), l2, s'. split; [exact E|]. split; [lia|]. split.
  - done.
  - rewrite ED2, rev_app_distr, <- app_assoc, Z.add_assoc. rewrite Z.add_assoc in H'.
    replace (file_in s0 f _) with (file_in s1 f (set_f_off (off + tot + m) (set_f_off (off + tot) fx))); [exact H'|].
    unfold s1, file_in. cbn [ftable set_ftable]. by rewrite list_insert_insert_eq.
  - by rewrite ED2.
  - by rewrite ED2.
  - rewrite ED2. replace (off + (tot + m)) with (off + tot + m) by lia. replace (n - (tot + m)) with (n - tot - m) by lia.
    change (avail s1 D2 a2) with (avail s0 D2 a2) in Hav'. change (avail s1 D1 (i_addrs xi1)) with (avail s0 D1 a1) in Hav'. lia.
  - eapply (crash_ok_app ws ws' a1 tot a2 (tot + m)); rewrite ?ED2; done.
Qed.

Lemma written_nil : file_written sbk xi D off [] (i_addrs xi) D.
Proof using Hst Hoff.
  pose proof Hst as [_ [Hd _] Hfk Hx Hb _ Hsy _ _]. split; [done| | | |done|done|by left|].
  - intros i Hi. rewrite decide_False by (cbn; lia). done.
  - intros i Hi. cbn in Hi. lia.
  - done.
  - assert (set_i_size (Z.max (i_size xi) (off + Z.of_nat (length (@nil Z)))) (set_i_addrs (i_addrs xi) xi) = xi) as ->.
    { replace (Z.max _ _) with (i_size xi) by (cbn; lia). by destruct xi. }
    cbn zeta in *. split; [done|]. rewrite <- Hsy at 1. pose proof (di_off_range (i_inum xi)).
    pose proof (data_full _ _ _ Hd Hb) as [Hl _]. destruct (load_put_dinode (D (IBLOCK (i_inum xi) sbk)) (di_off (i_inum xi)) xi xi Hx)
      as [-> ->]; [lia|lia|by destruct xi].
Qed.

Lemma progress_start s : fi p x s0 D W ip xi ∅ D l s -> chunks_need off n <= avail s0 D (i_addrs xi) ->
  progress 0 (i_addrs xi) [] l s.
Proof using Hst Hf Hip Hoff Hn Hmax Hsrc.
  intros H Hav. assert (chunk_end 0) as He by (split; [lia|by left]). pose proof written_nil as Hw.
  assert (inode_after xi (i_addrs xi) (off + 0) = xi) as Exi.
  { unfold inode_after. replace (Z.max _ _) with (i_size xi) by lia. by destruct xi. }
  split; rewrite ?Exi, ?Z.add_0_r, ?Z.sub_0_r; try done.
  - replace (file_in s0 f (set_f_off off fx)) with s0; [done|].
    unfold file_in. rewrite list_insert_id by (rewrite Hf; by destruct fx). by destruct s0.
  - intros k. exists 0, (i_addrs xi), D. rewrite take_nil. split; [done|]. split; [|split; [apply (fs_disk _ _ _ _ Hst)|done]].
    apply recover_empty; [|apply (fs_head _ _ _ _ Hst)].
    destruct (fs_log _ _ _ _ Hst) as [_ Hr _ _]. unfold MAXOPBLOCKS in Hr. lia.
Qed.

Lemma filewrite_loop s : fi p x s0 D W ip xi ∅ D l s -> chunks_need off n <= avail s0 D (i_addrs xi) ->
  exists a' ws l' s', loop (filewrite_body f addr n) 0 s = Ret n s' /\ progress n a' ws l' s'.
Proof using Hst Hf Hip Hoff Hn Hmax Hsrc.
  intros H Hav. pose proof (MAXFILE_eq) as (EM & ED & EI & EB).
  assert (runs (fun r s' => r = n /\ exists a' ws l', progress n a' ws l' s') (loop (filewrite_body f addr n) 0 s)) as Hl.
  { eapply (runs_loop _ (fun k i s => k = Z.to_nat (n - i) /\ exists a' ws l', progress i a' ws l' s) _ (Z.to_nat n)).
    - intros k i s1 (-> & a1 & ws & l1 & Hp). pose proof (pr_end _ _ _ _ _ Hp) as [Hi _]. destruct (Z.ltb_spec i n) as [Hlt|Hge].
      + destruct (progress_step i a1 ws l1 s1 Hlt Hp) as (i' & a2 & ws' & l2 & s2 & -> & Hii & Hp'). cbn [runs].
        exists (Z.to_nat (n - i')). split; [lia|]. split; [done|]. by exists a2, ws', l2.
      + assert (i = n) as -> by lia. unfold filewrite_body. rewrite (proj2 (Z.ltb_ge _ _)) by lia. cbn. split; [done|]. by exists a1, ws, l1.
    - split; [by rewrite Z.sub_0_r|]. exists (i_addrs xi), [], l. by apply progress_start.
    - lia. }
  apply runs_ret in Hl as (r & s' & E & -> & a' & ws & l' & Hp). by exists a', ws, l', s'.
Qed.
End filewrite.

(** C2: [filewrite] on an open file, run by a process while no other operation is
    under way, with room on the disk for the blocks.  It returns [n]: the bytes
    of the user's buffer are in the file from the open file's offset on, all
    others as before; the offset has advanced by [n]; the inode and the blocks
    are on the disk, the log is empty and the inode is unlocked.  If the machine
    stops after any number of the disk writes this took, recovery at the next
    boot returns with the log empty, and the file on the disk has exactly the
    first [j] bytes written, where [j] is [n] or a multiple of the chunk size;
    the file system is consistent, and blocks of other files are as they were. *)
Theorem filewrite_crash_atomic p x T D W ip s0 xi l f fx addr n s : let sbk := sb s0 in let off := f_off fx in
  let bs := src_bytes T (PUser addr) s0 n in
  fi p x s0 D W ip xi ∅ D l s -> file_state sbk xi D l ->
  ftable s0 !! f = Some fx -> f_type fx = FD_INODE -> f_writable fx = true -> f_ip fx = Some ip ->
  0 <= off <= i_size xi -> 0 <= n -> off + n <= MAXFILE * BSIZE -> src_ok x T (PUser addr) s0 n ->
  chunks_need off n <= avail s0 D (i_addrs xi) ->
  exists a' ws l' s', let D' := apply_writes D ws in let xi' := inode_after xi a' (off + n) in
    filewrite f addr n s = Ret n s' /\
    fi p x (file_in s0 f (set_f_off (off + n) fx)) D' (rev ws ++ W) ip xi' ∅ D' l' s' /\
    file_state sbk xi' D' l' /\ file_written sbk xi D off bs a' D' /\
    forall k p1 x1 es s1, thread p1 x1 s1 -> disk_block s1 = apply_writes D (take k ws) ->
      crep es (disk_block s1) (fun _ => 0) (fun _ => None) s1 -> l_dev (log s1) = ROOTDEV ->
      l_start (log s1) = sb_logstart sbk -> Z.of_nat (length (lh_block (log s1))) = LOGSIZE ->
      exists s2 j a, recover_from_log s1 = Ret tt s2 /\ lh_n (log s2) = 0 /\ chunk_end n j /\
        disk_ok sbk (disk_block s2) /\ file_written sbk xi D off (take (Z.to_nat j) bs) a (disk_block s2).
Proof.
  intros sbk off bs H Hst Hf Hty Hwr Hip Hoff Hn Hmax Hsrc Hav.
  destruct (filewrite_loop p x T ip f s0 fx D W xi addr n l Hst Hf Hip Hoff Hn Hmax Hsrc s H Hav)
    as (a' & ws & l' & s' & E & [_ H' Hst' Hw _ Hcr]).
  pose proof (bs_length x T s0 addr n Hn Hsrc) as Hlen. rewrite take_ge in Hw by (rewrite Hlen; done).
  exists a', ws, l', s'. cbn zeta. split; [|split; [exact H'|split; [exact Hst'|split; [exact Hw|]]]].
  - unfold filewrite. erewrite bind_Ret by (eapply file_at_fs; [exact H|exact Hf]). rewrite Hwr, Hty. cbn [negb].
    erewrite bind_Ret by exact E. by rewrite Z.eqb_refl.
  - intros k p1 x1 es s1 Ht1 HD1 Hc1 Hdev1 Hst1 Hlb1. destruct (Hcr k) as (j & a & Ek & Hj & Hrec & Hdk & Hwk).
    assert (0 < sb_nlog sbk) as Hpos by (destruct (fs_log _ _ _ _ Hst) as [_ Hr _ _]; unfold MAXOPBLOCKS in Hr; lia).
    rewrite HD1 in Hc1. destruct (recovers_run _ _ _ Ek p1 x1 es s1 Hpos Hrec Ht1 HD1 Hc1 Hdev1 Hst1 Hlb1) as (s2 & E2 & E0 & Hs2).
    exists s2, j, a. do 3 (split; [done|]). split; [by eapply disk_ok_same|].
    eapply written_same; try done; [apply (fs_block _ _ _ _ Hst)|lia|].
    destruct Hj as [Hj _]. rewrite length_take. unfold bs in Hlen. lia.
Qed.

(** ** A concrete file system

    Twenty blocks: the bitmap in block 1, the inodes in block 2, the log in blocks
    3 to 12 and seven free blocks.  Process 0 has an empty file open. *)

Definition small_sb : superblock := MkSuperblock FSMAGIC 20 7 16 10 3 2 1.
Definition small_inode : inode := demo_inode T_FILE.
Definition small_disk : gmap Z (list Z) :=
  {[1 := [255; 31] ++ repeat 0 1022; 2 := put_dinode zeros (di_off 1) small_inode]}.
Definition small_log : logst := MkLog 3 10 0 false 1 0 (repeat 0 30).
Definition small_file : file := MkFile FD_INODE 1 true true 0 (Some 0%nat) 0 0.
Definition small_proc : proc := set_p_pagetable 0x87fff000 demo_proc.
Definition small_start : kstate :=
  let s := zero_kstate demo_space in
  set_cpu_proc (Some 0%nat) (set_procs (<[0%nat := small_proc]> (procs s)) (set_disk small_disk (set_sb small_sb
    (set_log small_log (set_itable [small_inode] (set_ftable [small_file] s)))))).

Lemma small_used n : 0 <= n < 20 -> BBLOCK n small_sb = 1 /\ used small_sb (disk_block small_start) n = (n <? 13).
Proof.
  intros Hn. assert (Forall (fun n => used small_sb (disk_block small_start) n = (n <? 13)) (seqZ 0 20)) as H.
  { apply (bool_decide_unpack _). vm_compute. exact I. }
  split; [unfold BBLOCK; by rewrite Z.div_small by (unfold BPB, BSIZE; lia)|].
  apply (proj1 (Forall_forall _ _) H). apply elem_of_seqZ. lia.
Qed.

Lemma small_log_area n : log_area small_sb n <-> 3 <= n < 13.
Proof. unfold log_area, in_log. cbn. lia. Qed.

Lemma small_inode_ok : dinode_ok small_inode.
Proof. split; [split; by vm_compute..|]. split; [reflexivity|]. repeat (constructor; [lia|]). constructor. Qed.

Lemma small_block2 : disk_block small_start 2 = put_dinode zeros (di_off 1) small_inode.
Proof. reflexivity. Qed.

Lemma small_disk_ok : disk_ok small_sb (disk_block small_start).
Proof.
  split; [done|..]; change (sb_size small_sb) with 20.
  - intros n Hn _. destruct (decide (n = 1)) as [->|H1]; [|destruct (decide (n = 2)) as [->|H2]].
    + split; [by vm_compute|]. change (disk_block small_start 1) with ([255; 31] ++ repeat 0 1022).
      apply Forall_app. split; [by repeat (constructor; [split; lia|])|apply zero_bytes].
    + rewrite small_block2. apply dinode_full; [apply zeros_full|apply small_inode_ok|by vm_compute..].
    + unfold disk_block. change (disk small_start) with small_disk. unfold small_disk. rewrite lookup_insert_ne, lookup_singleton_ne by done. apply zeros_full.
  - intros n Hn. rewrite (proj1 (small_used n Hn)). split; [lia|]. by rewrite (proj2 (small_used 1 ltac:(lia))).
  - intros n Hn%(proj1 (small_log_area _)). split; [lia|]. rewrite (proj2 (small_used n ltac:(lia))). apply Z.ltb_lt. lia.
  - intros n j Hn%(proj1 (small_log_area _)) Hj. rewrite (proj1 (small_used j Hj)). lia.
Qed.

Lemma small_file_state : file_state small_sb small_inode (disk_block small_start) small_log.
Proof.
  assert (IBLOCK (i_inum small_inode) small_sb = 2) as Eib by (vm_compute; reflexivity).
  split; rewrite ?Eib; cbn zeta.
  - done.
  - split; [apply small_disk_ok|]. split; [by rewrite (proj2 (small_used 0 ltac:(lia)))|by vm_compute].
  - apply empty_file_ok.
  - apply small_inode_ok.
  - split; [done|]. split; [by rewrite (proj2 (small_used 2 ltac:(lia)))|]. split; [|rewrite small_log_area; lia].
    intros j Hj. by rewrite (proj1 (small_used j Hj)).
  - apply empty_owns.
  - rewrite small_block2. apply put_put_dinode; [apply small_inode_ok..|by vm_compute|by vm_compute].
  - by split.
  - split; vm_compute; reflexivity.
Qed.

Lemma small_avail s0 : sb s0 = small_sb -> chunks_need 0 4000 <= avail s0 (disk_block small_start) (repeat 0 13).
Proof. intros Esb. unfold avail, nfree. rewrite Esb. by vm_compute. Qed.

Lemma small_src s0 : mach s0 = demo_space -> src_ok small_proc demo_T (PUser 0) s0 4000.
Proof.
  intros Em. cbn. rewrite Em. split_and!; [by vm_compute|apply demo_rep| |lia|lia].
  intros va Hva. rewrite <- upage_PGROUNDDOWN by lia. destruct (PGROUNDDOWN_bounds va ltac:(lia)) as (H1 & H2 & H3).
  assert (PGROUNDDOWN va = 0) as ->; [|by vm_compute]. unfold PGSIZE in *. rewrite Z.mod_small in H3; lia.
Qed.

(** A write of 4000 bytes, in two chunks. *)
Lemma filewrite_crash_atomic_witness : exists s s' fx, filewrite 0 0 4000 s = Ret 4000 s' /\ log s = small_log /\
  ftable s' = [fx] /\ f_off fx = 4000.
Proof.
  destruct (binit_crep small_start) as (bs & _ & Hc); [done|done|]. set (s := set_bufs bs small_start) in *.
  assert (thread 0 small_proc s) as Ht by (by repeat split).
  assert (fi 0 small_proc s (disk_block small_start) [] 0 small_inode ∅ (disk_block small_start) small_log s) as H.
  { split; [cbn; lia|]. split; [|by intros n b]. pose proof (cst_start 0 small_proc _ _ _ _ s Ht Hc) as H.
    replace (refs small_log ∅) with (fun _ : Z => 0); [exact H|]. apply functional_extensionality. intros n. unfold refs, pins.
    rewrite decide_False; [done|apply not_elem_of_nil]. }
  destruct (filewrite_crash_atomic 0 small_proc demo_T (disk_block small_start) [] 0 s small_inode small_log 0 small_file 0 4000 s H
    small_file_state eq_refl eq_refl eq_refl eq_refl ltac:(by vm_compute) ltac:(lia) ltac:(by vm_compute) (small_src s eq_refl)
    (small_avail s eq_refl)) as (a' & ws & l' & s' & E & H' & _). exists s, s', (set_f_off 4000 small_file).
  split; [exact E|]. split; [done|]. split; [|done]. exact (ftable_fs _ _ _ _ _ _ _ _ _ _ _ H').
Defined.
