(* ===== verification/ProcFs.v ===== *)
(** * kernel/proc.c, the operations that use files; kernel/exec.c

    [userinit], [fork], [exit] and [exec]. *)

From S2P Require Import Prelude Riscv Mem Str Locks Kalloc Vm Kstate Proc Sleeplock Uart Bio Blk Log Fs File.
Import Proc Sleeplock Bio Log Fs File.

Module ProcFs.

(** ** The trapframe page: its fields are words at the offsets of proc.h *)

Definition TF_KERNEL_SATP : Z := 0.
Definition TF_KERNEL_SP : Z := 8.
Definition TF_KERNEL_TRAP : Z := 16.
Definition TF_EPC : Z := 24.
Definition TF_KERNEL_HARTID : Z := 32.
Definition TF_SP : Z := 48.
Definition TF_A0 : Z := 112.
Definition TF_A1 : Z := 120.
Definition TF_A7 : Z := 168.
Definition TF_SIZE : Z := 288.

Definition tf_get (p : nat) (off : Z) : M kstate Z :=
  (x <- proc_at p; vm (load64 (p_trapframe x + off)))%K.
Definition tf_set (p : nat) (off v : Z) : M kstate unit :=
  (x <- proc_at p; vm (store64 (p_trapframe x + off) v))%K.

(** [safestrcpy] into an array: at most [n - 1] bytes of the string and a NUL. *)
Definition lsafestrcpy (dst src : list Z) (n : Z) : list Z :=
  lput dst 0 (take (Z.to_nat (n - 1)) src ++ [0]).

Definition initcode : list Z :=
  [0x17; 0x05; 0x00; 0x00; 0x13; 0x05; 0x45; 0x02;
   0x97; 0x05; 0x00; 0x00; 0x93; 0x85; 0x35; 0x02;
   0x93; 0x08; 0x70; 0x00; 0x73; 0x00; 0x00; 0x00;
   0x93; 0x08; 0x20; 0x00; 0x73; 0x00; 0x00; 0x00;
   0xef; 0xf0; 0x9f; 0xff; 0x2f; 0x69; 0x6e; 0x69;
   0x74; 0x00; 0x00; 0x24; 0x00; 0x00; 0x00; 0x00;
   0x00; 0x00; 0x00; 0x00].

Definition userinit : M kstate unit :=
  (r <- allocproc;
   modify (set_initproc r);;
   p <- deref r;
   x <- proc_at p;
   vm (Vm.uvminit (p_pagetable x) initcode (Z.of_nat (length initcode)));;
   proc_upd p (set_p_sz PGSIZE);;
   tf_set p TF_EPC 0;;
   tf_set p TF_SP PGSIZE;;
   proc_upd p (fun x => set_p_name
     (lsafestrcpy (p_name x) [105; 110; 105; 116; 99; 111; 100; 101] 16) x);;
   cwd <- namei [SLASH];
   proc_upd p (set_p_cwd cwd);;
   proc_upd p (set_p_state RUNNABLE);;
   release (proc_lock p))%K.

(** [np->ofile[i] = filedup(p->ofile[i])] for every open file. *)
Definition dup_files (p np : nat) : M kstate unit :=
  for_each (seq 0 (Z.to_nat NOFILE)) (fun i =>
    (x <- proc_at p;
     match p_ofile x !! i with
     | Some (Some f) =>
         f' <- filedup f;
         proc_upd np (fun y => set_p_ofile (<[i := Some f']> (p_ofile y)) y)
     | _ => ret tt
     end))%K.

Definition fork : M kstate Z :=
  (p <- curproc;
   r <- allocproc;
   match r with
   | None => ret (-1)
   | Some np =>
       x <- proc_at p;
       y <- proc_at np;
       r <- vm (Vm.uvmcopy (p_pagetable x) (p_pagetable y) (p_sz x));
       if r <? 0 then
         freeproc np;;
         release (proc_lock np);;
         ret (-1)
       else
         proc_upd np (set_p_sz (p_sz x));;
         proc_upd np (set_p_trace_mask (p_trace_mask x));;
         vm (memmoveM (p_trapframe y) (p_trapframe x) TF_SIZE);;
         tf_set np TF_A0 0;;
         dup_files p np;;
         cwd <- deref (p_cwd x);
         c <- idup cwd;
         proc_upd np (set_p_cwd (Some c));;
         proc_upd np (fun y => set_p_name
           (lsafestrcpy (p_name y) (Uart.cstring (p_name x)) 16) y);;
         y <- proc_at np;
         let pid := p_pid y in
         release (proc_lock np);;
         acquire wait_lock;;
         proc_upd np (set_p_parent (Some p));;
         release wait_lock;;
         acquire (proc_lock np);;
         proc_upd np (set_p_state RUNNABLE);;
         release (proc_lock np);;
         ret pid
   end)%K.

(** Closing the files of an exiting process. *)
Definition close_files (p : nat) : M kstate unit :=
  for_each (seq 0 (Z.to_nat NOFILE)) (fun fd =>
    (x <- proc_at p;
     match p_ofile x !! fd with
     | Some (Some f) =>
         fileclose f;;
         proc_upd p (fun x => set_p_ofile (<[fd := None]> (p_ofile x)) x)
     | _ => ret tt
     end))%K.

Definition exit (status : Z) : M kstate unit :=
  (p <- curproc;
   ip <- gets initproc;
   if decide (Some p = ip) then panic "init exiting"
   else
     close_files p;;
     begin_op;;
     x <- proc_at p;
     cwd <- deref (p_cwd x);
     iput cwd;;
     end_op;;
     proc_upd p (set_p_cwd None);;
     acquire wait_lock;;
     reparent p;;
     x <- proc_at p;
     wakeup_proc (p_parent x);;
     acquire (proc_lock p);;
     proc_upd p (set_p_xstate status);;
     proc_upd p (set_p_state ZOMBIE);;
     release wait_lock;;
     sched;;
     panic "zombie exit")%K.

(** ** kernel/exec.c *)

Abbreviation ELF_MAGIC := (0x464C457F)%Z.
Abbreviation ELF_PROG_LOAD := (1)%Z.
Definition ELFHDR_SIZE : Z := 64.
Definition PROGHDR_SIZE : Z := 56.

Record proghdr := MkProghdr { ph_type : Z; ph_off : Z; ph_vaddr : Z; ph_filesz : Z; ph_memsz : Z }.

Definition proghdr_of (bs : list Z) : proghdr :=
  MkProghdr (get32 bs 0) (get64 bs 8) (get64 bs 16) (get64 bs 32) (get64 bs 40).

Definition loadseg_body (pagetable va : Z) (ip : nat) (offset sz i : Z) : M kstate (Z + Z) :=
  (if i <? sz then
     pa <- vm (Vm.walkaddr pagetable (u64 (va + i)));
     if pa =? 0 then panic "loadseg: address should exist"
     else
       let n := if sz - i <? PGSIZE then sz - i else PGSIZE in
       ' (r, _) <- readi ip (PKern pa) (u32 (offset + i)) n;
       if negb (r =? n) then ret (inr (-1)) else ret (inl (u32 (i + PGSIZE)))
   else ret (inr 0))%K.

Definition loadseg (pagetable va : Z) (ip : nat) (offset sz : Z) : M kstate Z :=
  loop (loadseg_body pagetable va ip offset sz) 0.

(** The loop over the program headers: [Some sz] is the size loaded, [None] the
    exit to [bad], in both cases with the size to free. *)
Definition load_phs (pagetable : Z) (ip : nat) :
    nat -> Z -> Z -> M kstate (bool * Z) :=
  fix load (k : nat) (off sz : Z) :=
    match k with
    | O => ret (true, sz)
    | S k' =>
        (' (r, bs) <- readi ip (PLocal []) (u32 off) PROGHDR_SIZE;
         let ph := proghdr_of bs in
         if negb (r =? PROGHDR_SIZE) then ret (false, sz)
         else if negb (ph_type ph =? ELF_PROG_LOAD) then load k' (i32 (off + PROGHDR_SIZE)) sz
         else if ph_memsz ph <? ph_filesz ph then ret (false, sz)
         else if u64 (ph_vaddr ph + ph_memsz ph) <? ph_vaddr ph then ret (false, sz)
         else
           sz1 <- vm (Vm.uvmalloc pagetable sz (u64 (ph_vaddr ph + ph_memsz ph)));
           if sz1 =? 0 then ret (false, sz)
           else if negb (ph_vaddr ph mod PGSIZE =? 0) then ret (false, sz1)
           else
             r <- loadseg pagetable (ph_vaddr ph) ip (u32 (ph_off ph)) (u32 (ph_filesz ph));
             if r <? 0 then ret (false, sz1)
             else load k' (i32 (off + PROGHDR_SIZE)) sz1)%K
    end.

(** The [bad] exit; [ip] is [None] once the file has been closed. *)
Definition exec_bad (pagetable sz : Z) (ip : option nat) : M kstate Z :=
  ((if negb (pagetable =? 0) then proc_freepagetable pagetable sz else ret tt);;
   (match ip with Some ip => iunlockput ip;; end_op | None => ret tt end);;
   ret (-1))%K.

(** Pushing the argument strings: the new stack pointer and the addresses, or
    [None] for the exit to [bad]. *)
Definition push_args (pagetable stackbase : Z) :
    list (list Z) -> Z -> Z -> list Z -> M kstate (option (Z * list Z)) :=
  fix push (argv : list (list Z)) (argc sp : Z) (ustack : list Z) :=
    match argv with
    | [] => ret (Some (sp, ustack))
    | s :: argv' =>
        if MAXARG <=? argc then ret None
        else
          let sp := u64 (sp - (Z.of_nat (length s) + 1)) in
          let sp := sp - sp mod 16 in
          if sp <? stackbase then ret None
          else
            (r <- vm (Vm.copyout pagetable sp (s ++ [0]) (Z.of_nat (length s) + 1));
             if r <? 0 then ret None
             else push argv' (argc + 1) sp (ustack ++ [sp]))%K
    end.

(** The part of a path after its last slash. *)
Fixpoint last_elem (s last : list Z) : list Z :=
  match s with
  | [] => last
  | c :: s' => last_elem s' (if c =? SLASH then s' else last)
  end.

Definition exec (path : list Z) (argv : list (list Z)) : M kstate Z :=
  (p <- curproc;
   begin_op;;
   r <- namei path;
   match r with
   | None => end_op;; ret (-1)
   | Some ip =>
       ilock (Some ip);;
       ' (r, elf) <- readi ip (PLocal []) 0 ELFHDR_SIZE;
       if negb (r =? ELFHDR_SIZE) then exec_bad 0 0 (Some ip)
       else if negb (get32 elf 0 =? ELF_MAGIC) then exec_bad 0 0 (Some ip)
       else
         pagetable <- proc_pagetable p;
         if pagetable =? 0 then exec_bad 0 0 (Some ip)
         else
           ' (ok, sz) <- load_phs pagetable ip (Z.to_nat (get16 elf 56)) (i32 (get64 elf 32)) 0;
           if negb ok then exec_bad pagetable sz (Some ip)
           else
             iunlockput ip;;
             end_op;;
             x <- proc_at p;
             let oldsz := p_sz x in
             let sz := PGROUNDUP sz in
             sz1 <- vm (Vm.uvmalloc pagetable sz (u64 (sz + 2 * PGSIZE)));
             if sz1 =? 0 then exec_bad pagetable sz None
             else
               let sz := sz1 in
               vm (Vm.uvmclear pagetable (sz - 2 * PGSIZE));;
               let stackbase := sz - PGSIZE in
               r <- push_args pagetable stackbase argv 0 sz [];
               match r with
               | None => exec_bad pagetable sz None
               | Some (sp, ustack) =>
                   let argc := Z.of_nat (length ustack) in
                   let sp := u64 (sp - (argc + 1) * 8) in
                   let sp := sp - sp mod 16 in
                   if sp <? stackbase then exec_bad pagetable sz None
                   else
                     r <- vm (Vm.copyout pagetable sp
                            (concat (ListDef.map (le_bytes 8) (ustack ++ [0]))) ((argc + 1) * 8));
                     if r <? 0 then exec_bad pagetable sz None
                     else
                       tf_set p TF_A1 sp;;
                       proc_upd p (fun x => set_p_name
                         (lsafestrcpy (p_name x) (last_elem path path) 16) x);;
                       x <- proc_at p;
                       let oldpagetable := p_pagetable x in
                       proc_upd p (set_p_pagetable pagetable);;
                       proc_upd p (set_p_sz sz);;
                       tf_set p TF_EPC (get64 elf 24);;
                       tf_set p TF_SP sp;;
                       proc_freepagetable oldpagetable oldsz;;
                       ret argc
               end
   end)%K.

End ProcFs.
