(* ===== verification/ForkSpec.v ===== *)
(** * fork

    [fork] put together from its parts: the slot and the page table that
    [allocproc] provides, the copy [uvmcopy] makes of the parent's memory, the
    trap frame, the open files and the current directory.  Whatever fails, every
    page that was taken is free again. *)

From S2P Require Import Prelude Mem Riscv Str Locks Kalloc Vm VmWalk VmMap VmCopy VmUvm VmFree Kstate UserMem Proc ProcSpec ProcAlloc ProcMem Uart Fs File ProcFs.
Import Kalloc Vm Proc Fs File ProcFs.

(** ** The child's memory *)

Section child.
Context (m : machine) (old : Z) (To : ptree) (us : list Z) (pt : Z) (Tn : ptree) (tf : Z) (fr ps : list Z).
Hypothesis Hold : aspace m old To us.
Hypothesis Hmax : Z.of_nat (length us) * PGSIZE <= TRAPFRAME.
Hypothesis Hinv : vm_inv m pt Tn fr.
Hypothesis Hac : accounts Tn [tf] fr ps.
Hypothesis Hsp : proc_space m tf Tn [].
Hypothesis Hpr : private (kend m) Tn fr [tf].
Hypothesis Hapart : forall p, as_page To us p -> p ∉ ps.

Lemma child_private T us' fr' : VmUvm.acct m Tn fr T fr' us' -> private (kend m) T fr' (tf :: us').
Proof using Hpr.
  intros [HT Hnew Hfr Hus [Pok Pn Pf Pt] _]. destruct Hpr as [Tok _ Tfr Ttab].
  pose proof (Tfr tf ltac:(left)) as Hni. split.
  - intros p [->|Hp]%elem_of_cons; [apply Tok; left|by apply Pok].
  - apply NoDup_cons. split; [|done]. intros Hin. by apply Hni, Hus.
  - intros p [->|Hp]%elem_of_cons; [|by apply Pf]. intros Hin. by apply Hni, Hfr.
  - intros x p Hx [->|Hp]%elem_of_cons; [|by eapply Pt]. destruct (Tn !! x) as [q|] eqn:E.
    + rewrite (lookup_weaken _ _ _ _ E HT) in Hx. simplify_eq. eapply Ttab; [exact E|left].
    + by eapply Hni, Hnew.
Qed.

Lemma child_accounts m' T us' fr' : VmUvm.acct m Tn fr T fr' us' -> vm_inv m' pt T fr' -> accounts T (tf :: us') fr' ps.
Proof using Hac Hinv.
  intros [HT Hnew Hfr Hus [Pok Pn Pf Pt] Hacc] Hi'. destruct Hac as (l & [Hn Hl] & Hall).
  destruct (tables_exist _ _ _ _ (vm_rep _ _ _ _ Hi')) as (l' & Hn' & Hl'). exists l'. split; [done|]. rewrite <- Hall.
  cbn [app]. constructor. apply NoDup_Permutation.
  - apply NoDup_app. split; [done|]. split.
    + intros p Hp. rewrite elem_of_app, Hl'. intros [(x & Hx)|Hin]; [by eapply Pt|by eapply Pf].
    + apply NoDup_app. split; [done|]. split; [|apply (inv_nodup _ _ (vm_kmem _ _ _ _ Hi'))].
      intros p (x & Hx)%Hl'. by eapply (vm_sep _ _ _ _ Hi').
  - apply NoDup_app. split; [done|]. split; [|apply (inv_nodup _ _ (vm_kmem _ _ _ _ Hinv))].
    intros p (x & Hx)%Hl. by eapply (vm_sep _ _ _ _ Hinv).
  - intros p. rewrite !elem_of_app, Hl, Hl'. split.
    + intros [Hp|[(x & Hx)|Hp]]; [by right; apply Hus| |by right; apply Hfr]. destruct (Tn !! x) as [q|] eqn:E.
      * left. exists x. rewrite (lookup_weaken _ _ _ _ E HT) in Hx. by simplify_eq.
      * right. by eapply Hnew.
    + intros [(x & Hx)|Hp]; [right; left; exists x; by eapply lookup_weaken|].
      destruct (Hacc p Hp) as [?|[?|?]]; auto.
Qed.

Lemma child_space s' T us' fr' : VmUvm.upto m To us pt Tn fr s' T fr' us' ->
  (length us' <= length us)%nat -> (forall i p, us' !! i = Some p -> leaf_at (ram s') T (Z.of_nat i * PGSIZE) p) ->
  proc_space s' tf T us'.
Proof using Hmax Hsp.
  intros H Hlen Hleaf. destruct Hsp as [_ _ S3 S4 S5], TRAPFRAME_eq as (ETF & ETR & EM).
  assert (forall va, Z.of_nat (length us') * PGSIZE <= va < MAXVA -> pte_of (ram s') T va = pte_of (ram m) Tn va) as Hrest.
  { intros va Hv. rewrite (ut_pte _ _ _ _ _ _ _ _ _ _ H) by (unfold PGSIZE in *; lia). rewrite lookup_ge_None_2; [done|].
    assert (Z.of_nat (length us') <= va / PGSIZE); [|lia]. apply Z.div_le_lower_bound; unfold PGSIZE in *; lia. }
  split; [unfold PGSIZE in *; lia|done|..].
  - rewrite Hrest by (unfold PGSIZE in *; lia). rewrite S3. do 3 f_equal. symmetry. apply (ut_const _ _ _ _ _ _ _ _ _ _ H).
  - by rewrite Hrest by (unfold PGSIZE in *; lia).
  - intros va Hv. rewrite Hrest by (unfold PGSIZE in *; lia). apply S5. cbn. unfold PGSIZE in *. lia.
Qed.

(** The pages [us'] hold the bytes of the pages [us] and are mapped as these are. *)
Definition copied (m' : machine) (T : ptree) (us' : list Z) : Prop := length us' = length us /\
  (forall i p q, us !! i = Some p -> us' !! i = Some q -> bytes (ram m') q PGSIZE = bytes (ram m) p PGSIZE) /\
  (forall va, 0 <= va < Z.of_nat (length us) * PGSIZE ->
     PTE_FLAGS (pte_of (ram m') T va) = PTE_FLAGS (pte_of (ram m) To va)).

Lemma child_copy sz : sz <= Z.of_nat (length us) * PGSIZE < sz + PGSIZE ->
  exists r m' T us' fr', uvmcopy old pt sz m = Ret r m' /\ keeps ps m m' /\ own_pages pt tf ps m' T us' fr' /\
    (r = 0 /\ copied m' T us' \/ r = -1 /\ us' = [] /\ (length fr <= 3 * length us)%nat).
Proof using All.
  intros Hsz. destruct TRAPFRAME_eq as (ETF & ETR & EM).
  assert (Z.of_nat (length us) * PGSIZE <= MAXVA) as Hmax' by (unfold PGSIZE in *; lia).
  assert (forall p, as_page To us p -> (p ∉ fr) /\ forall x, Tn !! x <> Some p) as Hap.
  { intros p Hp%Hapart. split; [|intros x]; intros Hx; apply Hp, (accounts_elem _ _ _ _ _ Hac); eauto. }
  destruct (uvmcopy_spec m old To us pt Tn fr Hold Hap Hmax') with (sz := sz) as (r & s' & T & fr' & us' & E & H & Hr); [|done..|].
  { intros va Hv. apply (sp_rest _ _ _ _ Hsp). cbn. lia. }
  pose proof (ut_const _ _ _ _ _ _ _ _ _ _ H) as Hc. pose proof (ut_acct _ _ _ _ _ _ _ _ _ _ H) as Ha.
  pose proof (ut_inv _ _ _ _ _ _ _ _ _ _ H) as Hi'. exists r, s', T, us', fr'. split; [done|]. split.
  { split; [done|]. intros a Hna. apply (ut_other _ _ _ _ _ _ _ _ _ _ H).
    - intros x p Hx Hin. apply Hna. exists p. split; [|done]. apply (accounts_elem _ _ _ _ _ Hac). eauto.
    - intros p Hx Hin. apply Hna. exists p. split; [|done]. apply (accounts_elem _ _ _ _ _ Hac). eauto. }
  assert (proc_space s' tf T us' -> own_pages pt tf ps s' T us' fr') as Hcm.
  { intros Hs. split; [done|by eapply child_accounts| |done]. assert (kend s' = kend m) as -> by apply Hc. by apply child_private. }
  destruct Hr as [[-> Hl]|(-> & -> & _ & Hl)].
  - destruct (upto_aspace m old To us pt Tn fr Hold Hmax' _ _ _ _ H Hl) as [Has Hfl]. split.
    + apply Hcm. eapply child_space; [done|lia|apply Has].
    + left. split; [done|]. split; [done|]. split; [|done].
      intros i p q Hi Hq. apply bytes_ext. intros o Hoff. by eapply (ut_bytes _ _ _ _ _ _ _ _ _ _ H).
  - split; [apply Hcm; eapply child_space; [done|simpl; lia|done]|]. by right.
Qed.

(** Writing to the trap frame. *)
Lemma child_frame m' T us' fr' r : own_pages pt tf ps m' T us' fr' -> (forall a, ~ in_page tf a -> ld8 r a = ld8 (ram m') a) ->
  own_pages pt tf ps (set_ram r m') T us' fr' /\ (copied m' T us' -> copied (set_ram r m') T us').
Proof using.
  intros [Hi Ha Hp Hs] Hr. pose proof Hp as [Pok Pn Pf Pt]. apply NoDup_cons in Pn as [Hni _].
  pose proof (Pok tf ltac:(left)) as Hok.
  destruct (vm_inv_page m' (set_ram r m') pt T fr' fr' tf) as [Hi' Hpte]; try done; auto.
  { eapply kmem_inv_ext; [by eapply vm_kmem|done|done|]. intros q a Hq Hqa. apply Hr. intros Htfa.
    apply (Pf tf ltac:(left)). pose proof (inv_pages _ _ (vm_kmem _ _ _ _ Hi)) as Hpg.
    eapply Forall_forall in Hpg; [|done]. by rewrite (in_page_disjoint _ _ _ _ Hok Hpg Htfa Hqa). }
  { intros x Hx. eapply Pt; [exact Hx|left]. }
  split; [split; try done|].
  - destruct Hs as [S1 S2 S3 S4 S5]. split; [done|..]; try (intros; unfold leaf_at; rewrite Hpte; auto).
    apply (S2 i p). done.
  - intros (Hl & Hb & Hf). split; [done|]. split; [|intros va Hv; rewrite Hpte; by apply Hf].
    intros i p q Hip Hq. rewrite <- (Hb i p q Hip Hq). apply bytes_ext. intros o Ho. apply Hr. intros Hin.
    apply Hni. apply list_elem_of_lookup_2 in Hq. assert (page_ok (kend m') q) as Hqok by (apply Pok; by right).
    rewrite (in_page_disjoint _ _ _ (q + o) Hok Hqok Hin); [done|]. unfold in_page. lia.
Qed.

Lemma child_unlocked m' T us' fr' : own_pages pt tf ps m' T us' fr' -> own_pages pt tf ps (set_mlocks [] m') T us' fr'.
Proof using.
  intros [[[K1 K2 K3 K4] Hl Hr Hs] Ha Hp [S1 S2 S3 S4 S5]]. split; [split; [by split|apply not_elem_of_nil|done|done]|done|done|by split].
Qed.
End child.

(** ** The trap frame *)

Definition frame_copy (r : mem) (tf ptf : Z) : mem := st64 (Str.memmove r tf ptf TF_SIZE) (tf + TF_A0) 0.

(** The frame at [tf] is that at [ptf] but for the result register. *)
Definition frame_as (r' : mem) (tf : Z) (r : mem) (ptf : Z) : Prop := ld64 r' (tf + TF_A0) = 0 /\
  forall o, 0 <= o < TF_SIZE -> ~ TF_A0 <= o < TF_A0 + 8 -> ld8 r' (tf + o) = ld8 r (ptf + o).

Lemma frame_copy_out r tf ptf a : ~ in_page tf a -> ld8 (frame_copy r tf ptf) a = ld8 r a.
Proof.
  unfold in_page, frame_copy, TF_SIZE, TF_A0, PGSIZE. intros Ha. rewrite ld8_st64_ne by lia.
  rewrite Str.ld8_memmove by done. by ifd; [lia|].
Qed.

Lemma frame_copy_as r tf ptf : frame_as (frame_copy r tf ptf) tf r ptf.
Proof.
  split; [apply ld64_st64_eq|]. unfold frame_copy, TF_SIZE, TF_A0. intros o Ho Hne. rewrite ld8_st64_ne by lia.
  rewrite Str.ld8_memmove by done. ifd; [|lia]. f_equal. lia.
Qed.

(** ** The open files *)

(** The file table with the references of the descriptors [l] added. *)
Definition add_refs (l : list (option nat)) (ft : list file) : list file :=
  imap (fun f z => set_f_ref (f_ref z + Z.of_nat (length (filter (fun o => o = Some f) l))) z) ft.

Lemma add_refs_lookup l ft f : add_refs l ft !! f =
  (fun z => set_f_ref (f_ref z + Z.of_nat (length (filter (fun o => o = Some f) l))) z) <$> ft !! f.
Proof. apply list_lookup_imap. Qed.

Lemma add_refs_none l ft : add_refs (l ++ [None]) ft = add_refs l ft.
Proof. apply list_eq. intros f. rewrite !add_refs_lookup, filter_app. cbn. by rewrite app_nil_r. Qed.

Lemma add_refs_nil ft : add_refs [] ft = ft.
Proof. apply list_eq. intros f. rewrite add_refs_lookup. destruct (ft !! f) as [[]|]; [|done].
  cbn [fmap option_fmap option_map filter list_filter length Z.of_nat]. by rewrite Z.add_0_r. Qed.

Lemma add_refs_some l ft f z : ft !! f = Some z ->
  let z' := set_f_ref (f_ref z + Z.of_nat (length (filter (fun o => o = Some f) l))) z in
  add_refs l ft !! f = Some z' /\ add_refs (l ++ [Some f]) ft = <[f := set_f_ref (f_ref z' + 1) z']> (add_refs l ft).
Proof.
  intros Hz z'. assert (add_refs l ft !! f = Some z') as Hz' by by rewrite add_refs_lookup, Hz. split; [done|].
  apply list_eq. intros g. rewrite add_refs_lookup, filter_app, length_app. destruct (decide (g = f)) as [->|Hne].
  - rewrite list_lookup_insert_eq by by eapply lookup_lt_Some. rewrite Hz. cbn. rewrite decide_True by done.
    unfold z', set_f_ref. cbn [f_type f_ref f_readable f_writable f_pipe f_ip f_off f_major length]. do 2 f_equal. lia.
  - rewrite list_lookup_insert_ne, add_refs_lookup by done. cbn. rewrite decide_False by congruence. cbn. by rewrite Nat.add_0_r.
Qed.

Lemma filedup_eq f z s : ftable_lock ∉ held s -> ftable s !! f = Some z -> 1 <= f_ref z ->
  filedup f s = Ret f (set_ftable (<[f := set_f_ref (f_ref z + 1) z]> (ftable s)) s).
Proof.
  intros Hl Hz Hr. unfold filedup. erewrite bind_Ret by by apply acquire_eq.
  erewrite bind_Ret by (unfold file_at; cbn; by rewrite Hz). rewrite (proj2 (Z.ltb_ge _ _)) by lia.
  erewrite bind_Ret by (unfold file_upd; cbn; by rewrite Hz). erewrite bind_Ret by by apply (release_head _ (held s)).
  cbn. f_equal. by destruct s as [[]].
Qed.

Section files.
Context (p np : nat) (x y : proc) (s : kstate).
Hypothesis Hne : p <> np.
Hypothesis Hx : procs s !! p = Some x.
Hypothesis Hnp : (np < length (procs s))%nat.
Hypothesis Hlen : length (p_ofile x) = Z.to_nat NOFILE.
Hypothesis Hy : p_ofile y = repeat None (Z.to_nat NOFILE).
Hypothesis Hheld : ftable_lock ∉ held s.
Hypothesis Hopen : forall f, Some f ∈ p_ofile x -> exists z, ftable s !! f = Some z /\ 1 <= f_ref z.

(** The state after [k] descriptors. *)
Let after (k : nat) : kstate :=
  slot np (set_p_ofile (take k (p_ofile x) ++ drop k (p_ofile y)) y) (set_ftable (add_refs (take k (p_ofile x)) (ftable s)) s).

Lemma dup_file k : (k < Z.to_nat NOFILE)%nat ->
  (x <- proc_at p;
   match p_ofile x !! k with
   | Some (Some f) => f' <- filedup f; proc_upd np (fun y => set_p_ofile (<[k := Some f']> (p_ofile y)) y)
   | _ => ret tt
   end)%K (after k) = Ret tt (after (S k)).
Proof using All.
  intros Hk. erewrite bind_Ret by (apply proc_at_eq; cbn; rewrite list_lookup_insert_ne; done).
  destruct (lookup_lt_is_Some_2 (p_ofile x) k) as [v Hv]; [lia|]. rewrite Hv.
  assert (p_ofile y !! k = Some None) as Hyk by (rewrite Hy; change (repeat None (Z.to_nat NOFILE)) with (replicate 16 (@None nat)); by apply lookup_replicate_2).
  unfold after. rewrite (take_S_r _ _ _ Hv). rewrite (drop_S _ _ _ Hyk). destruct v as [f|].
  - destruct (Hopen f) as (z & Hz & Href); [by eapply list_elem_of_lookup_2|].
    destruct (add_refs_some (take k (p_ofile x)) (ftable s) f z Hz) as [Hz' ->].
    erewrite bind_Ret by (apply filedup_eq; [done|exact Hz'|cbn; lia]).
    erewrite proc_upd_eq by (cbn; by rewrite list_lookup_insert_eq).
    assert (<[k := Some f]> (take k (p_ofile x) ++ None :: drop (S k) (p_ofile y)) =
      (take k (p_ofile x) ++ [Some f]) ++ drop (S k) (p_ofile y)) as <-.
    { rewrite insert_app_r_alt by (rewrite length_take; lia). rewrite length_take.
      replace (k - _)%nat with 0%nat by lia. by rewrite <- app_assoc. }
    unfold slot. cbn. by rewrite list_insert_insert_eq.
  - rewrite add_refs_none. by rewrite <- app_assoc.
Qed.

Lemma dup_files_spec : dup_files p np (slot np y s) =
  Ret tt (slot np (set_p_ofile (p_ofile x) y) (set_ftable (add_refs (p_ofile x) (ftable s)) s)).
Proof using All.
  assert (forall k, (k <= Z.to_nat NOFILE)%nat -> for_each (seq 0 k) (fun i => (x <- proc_at p;
     match p_ofile x !! i with
     | Some (Some f) => f' <- filedup f; proc_upd np (fun y => set_p_ofile (<[i := Some f']> (p_ofile y)) y)
     | _ => ret tt
     end)%K) (after 0) = Ret tt (after k)) as H.
  { induction k as [|k IH]; intros Hk; [done|]. rewrite seq_S, for_each_app, IH by lia. cbn [bindr for_each].
    erewrite bind_Ret by (apply dup_file; lia). done. }
  specialize (H _ ltac:(reflexivity)). unfold after in H. rewrite take_0, drop_0, add_refs_nil in H.
  rewrite take_ge in H by lia. rewrite drop_ge, app_nil_r in H by (by rewrite Hy).
  assert (slot np (set_p_ofile ([] ++ p_ofile y) y) (set_ftable (ftable s) s) = slot np y s) as E.
  { destruct s, y; done. }
  rewrite E in H. exact H.
Qed.
End files.

(** ** The whole of fork *)

(** Process [p], in slot [x], is running with the address space [To], [us]; its
    current directory is inode [c], the free pages are [ps], no lock is held. *)
Record fork_ready (s : kstate) (p : nat) (x : proc) (To : ptree) (us ps : list Z) (c : nat) : Prop := {
  fk_cur : cpu_proc s = Some p;
  fk_slot : procs s !! p = Some x;
  fk_used : p_state x <> UNUSED;
  fk_tab : ptab_ok s;
  fk_held : held s = [];
  fk_clean i z : procs s !! i = Some z -> p_state z = UNUSED -> slot_clean z /\ p_ofile z = repeat None (Z.to_nat NOFILE);
  fk_kmem : kmem_inv (mach s) ps;
  fk_tramp : page_in (trampoline (mach s));
  fk_space : aspace (mach s) (p_pagetable x) To us;
  fk_apart q : as_page To us q \/ q = p_trapframe x -> q ∉ ps;
  fk_frame : page_ok (kend (mach s)) (p_trapframe x);
  fk_size : p_sz x <= Z.of_nat (length us) * PGSIZE < p_sz x + PGSIZE;
  fk_max : Z.of_nat (length us) * PGSIZE <= TRAPFRAME;
  fk_files : length (p_ofile x) = Z.to_nat NOFILE;
  fk_open f : Some f ∈ p_ofile x -> exists z, ftable s !! f = Some z /\ 1 <= f_ref z;
  fk_cwd : p_cwd x = Some c;
  fk_inode : is_Some (itable s !! c);
}.

(** No slot, or no memory: then the slot is free again, every page is back and
    no other byte of memory has changed. *)
Inductive fork_failed (s : kstate) (us ps : list Z) : kstate -> Prop :=
  | no_slot : (forall i z, procs s !! i = Some z -> p_state z <> UNUSED) -> fork_failed s us ps s
  | no_memory q z z' m ps' : procs s !! q = Some z -> p_state z = UNUSED ->
      p_state z' = UNUSED -> slot_clean z' -> p_ofile z' = p_ofile z -> p_kstack z' = p_kstack z ->
      kmem_inv m ps' -> ps' ≡ₚ ps -> keeps ps (mach s) m -> (length ps <= 3 * length us + 6)%nat ->
      fork_failed s us ps (slot q z' (set_mach m (set_nextpid (i32 (nextpid s + 1)) s))).

(** The child of process [p], in the slot that held [z]. *)
Definition forked (p : nat) (x z : proc) (pid tf pt : Z) : proc :=
  MkProc RUNNABLE (p_chan z) (p_killed z) (p_xstate z) pid (Some p) (p_kstack z) (p_sz x) pt tf
    (MkContext "forkret" (p_kstack z + PGSIZE) (repeat 0 12)) (p_ofile x) (p_cwd x)
    (lsafestrcpy (p_name z) (Uart.cstring (p_name x)) 16) (p_trace_mask x).

Definition add_iref (c : nat) (it : list inode) : list inode := alter (fun w => set_i_ref (i_ref w + 1) w) c it.

(** The child is in a slot that was free; its memory, made of free pages only, is
    a copy of the parent's; files and directory have the new references. *)
Inductive fork_done (s : kstate) (p : nat) (x : proc) (To : ptree) (us ps : list Z) (c : nat) : kstate -> Prop :=
  | child q z m tf pt T us' fr : procs s !! q = Some z -> p_state z = UNUSED ->
      own_pages pt tf ps m T us' fr -> copied (mach s) To us m T us' -> frame_as (ram m) tf (ram (mach s)) (p_trapframe x) ->
      keeps ps (mach s) m ->
      fork_done s p x To us ps c (slot q (forked p x z (nextpid s) tf pt) (set_mach m
        (set_ftable (add_refs (p_ofile x) (ftable s)) (set_itable (add_iref c (itable s)) (set_nextpid (i32 (nextpid s + 1)) s))))).

Lemma idup_eq c s w : itable_lock ∉ held s -> itable s !! c = Some w -> idup c s = Ret c (set_itable (add_iref c (itable s)) s).
Proof.
  intros Hl Hw. unfold idup. erewrite bind_Ret by by apply acquire_eq.
  erewrite bind_Ret by (unfold inode_upd; cbn; by rewrite Hw). erewrite bind_Ret by by apply (release_head _ (held s)).
  unfold add_iref. rewrite (alter_insert _ _ _ w) by done. cbn. f_equal. by destruct s as [[]].
Qed.

Section fork.
Context (s : kstate) (p : nat) (x : proc) (To : ptree) (us ps : list Z) (c : nat).
Hypothesis HR : fork_ready s p x To us ps c.
Context (np : nat) (z : proc).
Hypothesis Hz : procs s !! np = Some z.
Hypothesis Hun : p_state z = UNUSED.

Let sB := set_nextpid (i32 (nextpid s + 1)) s.

Lemma fork_apart : p <> np.
Proof using HR Hz Hun. intros ->. pose proof (fk_slot _ _ _ _ _ _ _ HR). pose proof (fk_used _ _ _ _ _ _ _ HR). by simplify_eq. Qed.

Lemma parent_at y m : proc_at p (slot np y (set_mach m sB)) = Ret x (slot np y (set_mach m sB)).
Proof using HR Hz Hun.
  apply proc_at_eq. cbn. rewrite list_lookup_insert_ne by by apply not_eq_sym, fork_apart. apply HR.
Qed.

(** What [fork] does once the memory is copied. *)
Lemma fork_tail y m : p_ofile y = repeat None (Z.to_nat NOFILE) -> mlocks m = [proc_lock np] ->
  (dup_files p np;;
   cwd <- deref (p_cwd x);
   c <- idup cwd;
   proc_upd np (set_p_cwd (Some c));;
   proc_upd np (fun y => set_p_name (lsafestrcpy (p_name y) (Uart.cstring (p_name x)) 16) y);;
   y <- proc_at np;
   let pid := p_pid y in
   release (proc_lock np);;
   acquire wait_lock;;
   proc_upd np (set_p_parent (Some p));;
   release wait_lock;;
   acquire (proc_lock np);;
   proc_upd np (set_p_state RUNNABLE);;
   release (proc_lock np);;
   ret pid)%K (slot np y (set_mach m sB)) =
  Ret (p_pid y) (slot np (set_p_state RUNNABLE (set_p_parent (Some p) (set_p_name (lsafestrcpy (p_name y) (Uart.cstring (p_name x)) 16)
      (set_p_cwd (p_cwd x) (set_p_ofile (p_ofile x) y)))))
    (set_mach (set_mlocks [] m) (set_ftable (add_refs (p_ofile x) (ftable s)) (set_itable (add_iref c (itable s)) sB)))).
Proof using All.
  intros Hy Hm. pose proof (lookup_lt_Some _ _ _ Hz) as Hnp. destruct (fk_inode _ _ _ _ _ _ _ HR) as [w Hw].
  erewrite bind_Ret by (eapply (dup_files_spec p np x y (set_mach m sB));
    [apply fork_apart|apply HR|done|apply HR|done|cbn; rewrite Hm; set_solver|apply HR]).
  rewrite (fk_cwd _ _ _ _ _ _ _ HR). erewrite bind_Ret by reflexivity.
  erewrite bind_Ret by (eapply idup_eq; [cbn; rewrite Hm; set_solver|exact Hw]).
  set (sC := set_ftable (add_refs (p_ofile x) (ftable s)) (set_itable (add_iref c (itable s)) sB)).
  match goal with |- _ ?t = _ => change t with (slot np (set_p_ofile (p_ofile x) y) (set_mach m sC)) end.
  do 2 erewrite bind_Ret by by apply (proc_upd_slot np sC). erewrite bind_Ret by by apply (proc_at_slot np sC). cbv zeta.
  erewrite bind_Ret by by apply (release_head _ []). erewrite bind_Ret by (apply acquire_eq; set_solver).
  erewrite bind_Ret by exact (proc_upd_slot np sC Hnp _ (set_mlocks [wait_lock] m) _).
  erewrite bind_Ret by by apply (release_head _ []). erewrite bind_Ret by (apply acquire_eq; set_solver).
  erewrite bind_Ret by exact (proc_upd_slot np sC Hnp _ (set_mlocks [proc_lock np] m) _).
  erewrite bind_Ret by by apply (release_head _ []). done.
Qed.

(** The child's memory is set up in the machine [m1]. *)
Context (m1 : machine) (tf pt : Z) (Tn : ptree) (fr : list Z).
Hypothesis Htf : tf <> 0.
Hypothesis Hpt : pt <> 0.
Hypothesis Hlen : (length ps <= length fr + 6)%nat.
Hypothesis Hinv : vm_inv m1 pt Tn fr.
Hypothesis Hac : accounts Tn [tf] fr ps.
Hypothesis Hsp : proc_space m1 tf Tn [].
Hypothesis Hpr : private (kend m1) Tn fr [tf].
Hypothesis Hkeep : keeps ps (set_mlocks [proc_lock np] (mach s)) m1.

Let y := alloc_slot z (nextpid s) tf pt.

(** No page of the parent is free, so its address space is as it was. *)
Lemma parent_out q a : as_page To us q \/ q = p_trapframe x -> in_page q a -> ~ in_pages ps a.
Proof using HR.
  intros Hq Ha (q' & Hq' & Ha'). pose proof (fk_apart _ _ _ _ _ _ _ HR _ Hq) as Hni.
  pose proof (inv_pages _ _ (fk_kmem _ _ _ _ _ _ _ HR)) as Hok. eapply Forall_forall in Hok; [|exact Hq'].
  assert (page_ok (kend (mach s)) q) as Hqok.
  { pose proof (fk_space _ _ _ _ _ _ _ HR) as [Hrep _ [Pok _ _ _]].
    destruct Hq as [[Hq|(i & Hq)]| ->]; [by apply Pok|by eapply (rep_ok _ _ _ _ Hrep)|exact (fk_frame _ _ _ _ _ _ _ HR)]. }
  apply Hni. by rewrite (in_page_disjoint _ _ _ _ Hqok Hok Ha Ha').
Qed.

Lemma parent_space : aspace m1 (p_pagetable x) To us /\
  (forall va, pte_of (ram m1) To va = pte_of (ram (mach s)) To va) /\
  forall q a, as_page To us q -> in_page q a -> ld8 (ram m1) a = ld8 (ram (mach s)) a.
Proof using HR Hkeep.
  destruct Hkeep as [(C1 & _) Hm]. cbn in C1, Hm.
  assert (forall q a, as_page To us q -> in_page q a -> ld8 (ram m1) a = ld8 (ram (mach s)) a) as Hb.
  { intros q a Hq Ha. apply Hm. exact (parent_out q a (or_introl Hq) Ha). }
  destruct (aspace_ext (mach s) m1 (p_pagetable x) To us) as [Ha Hp]; [apply HR|done..|]. done.
Qed.

Lemma copied_parent m T us' : copied m1 To us m T us' -> copied (mach s) To us m T us'.
Proof using HR Hkeep.
  destruct parent_space as (_ & Hp & Hb). intros (H1 & H2 & H3). split; [done|]. split.
  - intros i q q' Hi Hi'. rewrite (H2 i q q' Hi Hi'). apply bytes_ext. intros o Ho. apply (Hb q).
    + left. by eapply list_elem_of_lookup_2.
    + clear - Ho. unfold in_page. lia.
  - intros va Hv. by rewrite H3, Hp.
Qed.

(** What [fork] does with the slot. *)
Lemma fork_slot : exists r s',
  (x <- proc_at p;
   y <- proc_at np;
   r <- vm (Vm.uvmcopy (p_pagetable x) (p_pagetable y) (p_sz x));
   if r <? 0 then freeproc np;; release (proc_lock np);; ret (-1)
   else
     proc_upd np (set_p_sz (p_sz x));;
     proc_upd np (set_p_trace_mask (p_trace_mask x));;
     vm (memmoveM (p_trapframe y) (p_trapframe x) TF_SIZE);;
     tf_set np TF_A0 0;;
     dup_files p np;;
     cwd <- deref (p_cwd x);
     c <- idup cwd;
     proc_upd np (set_p_cwd (Some c));;
     proc_upd np (fun y => set_p_name (lsafestrcpy (p_name y) (Uart.cstring (p_name x)) 16) y);;
     y <- proc_at np;
     let pid := p_pid y in
     release (proc_lock np);;
     acquire wait_lock;;
     proc_upd np (set_p_parent (Some p));;
     release wait_lock;;
     acquire (proc_lock np);;
     proc_upd np (set_p_state RUNNABLE);;
     release (proc_lock np);;
     ret pid)%K (slot np y (set_mach m1 sB)) = Ret r s' /\
  (r = -1 /\ fork_failed s us ps s' \/ r = nextpid s /\ fork_done s p x To us ps c s').
Proof using All.
  pose proof (lookup_lt_Some _ _ _ Hz) as Hnp. destruct parent_space as (Hsp1 & _ & Hb).
  destruct (fk_clean _ _ _ _ _ _ _ HR _ _ Hz Hun) as [(C1 & C2 & C3) C4].
  destruct (child_copy m1 (p_pagetable x) To us pt Tn tf fr ps Hsp1) with (sz := p_sz x) as (r & m2 & T & us' & fr' & E & Hk2 & Hcm & Hr);
    try done; [apply HR| |apply HR|].
  { intros q Hq. apply (fk_apart _ _ _ _ _ _ _ HR). by left. }
  pose proof (keeps_trans _ _ _ _ Hkeep Hk2) as Hk. pose proof Hk as [(K1 & K2 & K3 & K4 & K5) Km].
  erewrite bind_Ret by apply parent_at. erewrite bind_Ret by by apply proc_at_slot.
  erewrite bind_Ret by (apply vm_slot; exact E). destruct Hr as [[-> Hcop]|(-> & -> & Hl)].
  - change (0 <? 0) with false. cbn match. set (r := frame_copy (ram m2) tf (p_trapframe x)).
    destruct (child_frame m1 To us pt tf ps m2 T us' fr' r Hcm) as [Hcm3 Hcop3]; [intros a Ha; by apply frame_copy_out|].
    do 2 erewrite bind_Ret by by apply (proc_upd_slot np sB). erewrite bind_Ret by by apply vm_slot.
    assert (KERNBASE <= tf) as Htk.
    { transitivity (kend m1); [apply (inv_end _ _ (vm_kmem _ _ _ _ Hinv))|apply (pr_ok _ _ _ _ Hpr tf); left]. }
    assert (forall y' m', p_trapframe y' = tf -> tf_set np TF_A0 0 (slot np y' (set_mach m' sB)) =
      Ret tt (slot np y' (set_mach (set_ram (st64 (ram m') (tf + TF_A0) 0) m') sB))) as Hset.
    { intros y' m' Hy'. unfold tf_set. erewrite bind_Ret by by apply proc_at_slot. rewrite Hy'. apply vm_slot, store64_eq.
      unfold TF_A0. lia. }
    erewrite bind_Ret by by apply Hset.
    eexists _, _. split; [exact (fork_tail (set_p_trace_mask (p_trace_mask x) (set_p_sz (p_sz x) y)) (set_ram r m2) C4 K2)|].
    right. split; [done|].
    refine (child s p x To us ps c np z (set_mlocks [] (set_ram r m2)) tf pt T us' fr' Hz Hun (child_unlocked _ _ _ _ _ _ _ Hcm3) _ _ _).
    + apply copied_parent. exact (Hcop3 Hcop).
    + destruct (frame_copy_as (ram m2) tf (p_trapframe x)) as [F1 F2]. split; [exact F1|].
      intros o Ho Hne. etrans; [exact (F2 o Ho Hne)|]. apply Km. eapply parent_out; [by right|].
      unfold in_page, TF_SIZE, PGSIZE in *. lia.
    + split; [split; [done|split; [symmetry; apply HR|done]]|]. intros a Ha. etrans; [apply frame_copy_out|exact (Km a Ha)].
      intros Hin. apply Ha. exists tf. split; [|done]. apply (accounts_elem _ _ _ _ _ Hac). left. left.
  - change (-1 <? 0) with true. cbn match.
    destruct (give_up_spec (-1) np sB y m2 fr' ps) as (m3 & ps' & E3 & Hk3 & Hps & Hkp3); [done| |done|rewrite K5; apply HR|].
    { destruct Hcm as [I1 I2 I3 I4]. apply (pm_space _ _ _ _ T []); cbn; try done; rewrite C3; [done|unfold PGSIZE; lia]. }
    eexists _, _. split; [exact E3|]. left. split; [done|]. eapply no_memory; try done.
    + destruct Hk3; by split.
    + destruct (keeps_trans _ _ _ _ Hk Hkp3) as [(L1 & L2 & L3 & L4 & L5) Lm]. split; [|done].
      split; [done|]. split; [symmetry; apply HR|done].
    + lia.
Qed.
End fork.

(** C3: [fork] called by a running process returns in every case, and holds
    no lock then.  Either the result is the next process id: a slot that was
    free now holds a RUNNABLE child of the caller, with the caller's size,
    open files, current directory, name and trace mask; its page table maps
    pages of its own with the bytes and the flags of the caller's, the
    trampoline and a trap frame of its own, which is the caller's but for
    the result register, 0; the references to the files and to the directory
    are counted; tables, trap frame, pages and free list are what the free
    list was, each page once.  Or the result is -1: all slots are in use, or
    memory has run out, which takes a free list of no more than six pages
    and three for each page of the caller; then the slot is free again and
    every page is back on the free list.  In either case memory outside the
    free pages, so all of the caller's, is unchanged. *)
Theorem fork_correct s p x To us ps c : fork_ready s p x To us ps c ->
  exists r s', fork s = Ret r s' /\
    (r = -1 /\ fork_failed s us ps s' \/ r = nextpid s /\ fork_done s p x To us ps c s').
Proof.
  intros HR. unfold fork. assert (curproc s = Ret p s) as Ec.
  { unfold curproc, myproc, bind, gets. cbn. by rewrite (fk_cur _ _ _ _ _ _ _ HR). }
  erewrite bind_Ret by exact Ec.
  destruct (allocproc_spec s ps) as [[E Hno]|(np & z & _ & Hz & Hun & [H|H])]; try apply HR.
  - erewrite bind_Ret by exact E. exists (-1), s. split; [done|]. left. split; [done|]. by apply no_slot.
  - destruct H as (m & ps' & E & Hl & Hk & Hps & [(C1 & C2 & C3 & C4 & C5) Hm]). erewrite bind_Ret by exact E.
    eexists _, _. split; [done|]. left. split; [done|]. eapply no_memory; try done.
    + destruct Hk; by split.
    + split; [|done]. split; [done|]. split; [symmetry; apply HR|done].
    + lia.
  - destruct H as (m & tf & pt & T & fr & E & Htf & Hpt & Hl & Hi & Hac & Hsp & Hpr & Hk). erewrite bind_Ret by exact E.
    by eapply fork_slot.
Qed.

(** ** The parent of the example is ready *)

Lemma fork_state_ready : fork_ready fork_state 0 fork_parent_slot demo_T [0x87ffc000] fork_pages 0.
Proof.
  split; try done.
  - intros i z Hz Hu. by rewrite (fork_state_free i z Hz Hu).
  - exact fork_state_kmem.
  - exact fork_state_space.
  - intros q Hq. assert (q = 0x87ffc000 \/ q = 0x87fff000 \/ q = 0x87ffe000 \/ q = 0x87ffd000 \/ q = 0x87ffb000) as Hq'.
    { destruct Hq as [[->%list_elem_of_singleton|[x Hx%demo_lookup]]| ->]; [auto|naive_solver|auto]. }
    destruct Hq' as [-> |[-> |[-> |[-> | ->]]]]; apply (bool_decide_unpack _); by vm_compute.
  - intros f Hf. assert (f = 0%nat) as -> by (cbn in Hf; set_solver). eexists. split; [done|]. cbn. lia.
Qed.

(** Ten pages are enough. *)
Lemma fork_correct_witness : exists s', fork fork_state = Ret 2 s' /\
  fork_done fork_state 0 fork_parent_slot demo_T [0x87ffc000] fork_pages 0 s'.
Proof.
  destruct (fork_correct fork_state 0 fork_parent_slot demo_T [0x87ffc000] fork_pages 0 fork_state_ready)
    as (r & s' & E & [[_ H]|[-> H]]).
  - exfalso. clear E. destruct H as [Hno|q z z' m ps' _ _ _ _ _ _ _ _ _ Hlen].
    + by apply (Hno 1%nat zero_proc).
    + simpl in Hlen. lia.
  - exists s'. by split.
Defined.
