(* ===== verification/Syscall.v ===== *)
(** * kernel/syscall.c, kernel/sysproc.c, kernel/sysfile.c

    Fetching system-call arguments, the system calls, and their dispatch. *)

From S2P Require Import Prelude Riscv Mem Str Locks Kalloc Vm Kstate Proc Sleeplock Uart Console Pipe Bio Blk Log Fs File ProcFs.
Import Proc Sleeplock Uart Console Pipe Bio Log Fs File ProcFs.

Module Syscall.

(** ** Arguments *)

(** The word at [addr] of the current process, or [None] for -1. *)
Definition fetchaddr (addr : Z) : M kstate (option Z) :=
  (p <- curproc;
   x <- proc_at p;
   if (p_sz x <=? addr) || (p_sz x <? u64 (addr + 8)) then ret None
   else
     ' (r, bs) <- vm (Vm.copyin (p_pagetable x) addr 8);
     if negb (r =? 0) then ret None else ret (Some (le_val bs)))%K.

(** The string at [addr] without its NUL, or [None] for -1; the result of
    [fetchstr] is its length. *)
Definition fetchstr (addr max : Z) : M kstate (option (list Z)) :=
  (p <- curproc;
   x <- proc_at p;
   ' (r, bs) <- vm (Vm.copyinstr (p_pagetable x) addr max);
   if r <? 0 then ret None else ret (Some (cstring bs)))%K.

Definition argraw (n : Z) : M kstate Z :=
  (p <- curproc;
   if (0 <=? n) && (n <=? 5) then tf_get p (TF_A0 + 8 * n) else panic "argraw")%K.

(** [argint] and [argaddr] always return 0. *)
Definition argint (n : Z) : M kstate Z := (v <- argraw n; ret (i32 v))%K.
Definition argaddr (n : Z) : M kstate Z := argraw n.
Definition argstr (n max : Z) : M kstate (option (list Z)) := (a <- argaddr n; fetchstr a max)%K.

(** ** kernel/sysproc.c *)

Definition tickslock : lockid := ("time", 0).
Definition ticks_chan : chan := ("ticks", 0).

Definition sys_exit : M kstate Z := (n <- argint 0; exit n;; ret 0)%K.
Definition sys_getpid : M kstate Z := (p <- curproc; x <- proc_at p; ret (p_pid x))%K.
Definition sys_fork : M kstate Z := fork.
Definition sys_wait : M kstate Z := (a <- argaddr 0; wait a)%K.

Definition sys_sbrk : M kstate Z :=
  (n <- argint 0;
   p <- curproc;
   x <- proc_at p;
   let addr := i32 (p_sz x) in
   r <- growproc n;
   if r <? 0 then ret (-1) else ret addr)%K.

(** [ticks - ticks0 < n]: the comparison is unsigned. *)
Definition sys_sleep_body (n ticks0 : Z) (_ : unit) : M kstate (unit + Z) :=
  (t <- gets ticks;
   if u32 (t - ticks0) <? u32 n then
     p <- curproc;
     x <- proc_at p;
     if negb (p_killed x =? 0) then release tickslock;; ret (inr (-1))
     else sleep ticks_chan tickslock;; ret (inl tt)
   else release tickslock;; ret (inr 0))%K.

Definition sys_sleep : M kstate Z :=
  (n <- argint 0;
   acquire tickslock;;
   ticks0 <- gets ticks;
   loop (sys_sleep_body n ticks0) tt)%K.

Definition sys_kill : M kstate Z := (pid <- argint 0; kill pid)%K.

Definition sys_uptime : M kstate Z :=
  (acquire tickslock;;
   xticks <- gets ticks;
   release tickslock;;
   ret xticks)%K.

Definition sys_trace : M kstate Z :=
  (n <- argint 0;
   p <- curproc;
   proc_upd p (set_p_trace_mask n);;
   ret 0)%K.

(** struct psinfo (kernel/ps.h): four arrays of [int] and one of names. *)
Definition PS_ACTIVE (i : Z) : Z := 4 * i.
Definition PS_PID (i : Z) : Z := 256 + 4 * i.
Definition PS_STATES (i : Z) : Z := 512 + 4 * i.
Definition PS_PAGES (i : Z) : Z := 768 + 4 * i.
Definition PS_NAME (i : Z) : Z := 1024 + 16 * i.

Definition state_num (st : procstate) : Z :=
  match st with UNUSED => 0 | USED => 1 | SLEEPING => 2 | RUNNABLE => 3 | RUNNING => 4 | ZOMBIE => 5 end.

Definition store32 (a v : Z) : M kstate unit := vm (storebytes a (le_bytes 4 v)).

(** The entry of slot [p].  [countmapped] is called whether or not the slot has a
    page table. *)
Definition pinfo_slot (psinfo : Z) (p : nat) : M kstate unit :=
  let i := Z.of_nat p in
  (acquire (proc_lock p);;
   x <- proc_at p;
   store32 (psinfo + PS_ACTIVE i) 1;;
   store32 (psinfo + PS_PID i) (p_pid x);;
   store32 (psinfo + PS_STATES i) (state_num (p_state x));;
   vm (storebytes (psinfo + PS_NAME i) (lstrncpy 16 (p_name x)));;
   num_used <- vm (Vm.countmapped (p_pagetable x));
   store32 (psinfo + PS_PAGES i) num_used;;
   release (proc_lock p))%K.

(** The argument is stored through [psinfo], whether or not [kalloc] found a page. *)
Definition sys_pinfo : M kstate Z :=
  (psinfo <- vm Kalloc.kalloc;
   a <- argaddr 0;
   vm (store64 psinfo a);;
   for_each proc_slots (pinfo_slot psinfo);;
   ret 0)%K.

(** ** kernel/sysfile.c *)

(** The descriptor and its file, or [None] for -1. *)
Definition argfd (n : Z) : M kstate (option (Z * nat)) :=
  (fd <- argint n;
   if (fd <? 0) || (NOFILE <=? fd) then ret None
   else
     p <- curproc;
     x <- proc_at p;
     match p_ofile x !! Z.to_nat fd with
     | Some (Some f) => ret (Some (fd, f))
     | _ => ret None
     end)%K.

Fixpoint free_fd (ofile : list (option nat)) (fd : nat) : option nat :=
  match ofile with
  | [] => None
  | None :: _ => Some fd
  | Some _ :: ofile' => free_fd ofile' (S fd)
  end.

Definition fdalloc (f : nat) : M kstate Z :=
  (p <- curproc;
   x <- proc_at p;
   match free_fd (take (Z.to_nat NOFILE) (p_ofile x)) 0 with
   | Some fd =>
       proc_upd p (fun x => set_p_ofile (<[fd := Some f]> (p_ofile x)) x);;
       ret (Z.of_nat fd)
   | None => ret (-1)
   end)%K.

Definition set_ofile (fd : Z) (o : option nat) : M kstate unit :=
  (p <- curproc; proc_upd p (fun x => set_p_ofile (<[Z.to_nat fd := o]> (p_ofile x)) x))%K.

Definition sys_dup : M kstate Z :=
  (r <- argfd 0;
   match r with
   | None => ret (-1)
   | Some (_, f) =>
       fd <- fdalloc f;
       if fd <? 0 then ret (-1) else filedup f;; ret fd
   end)%K.

Definition sys_read : M kstate Z :=
  (r <- argfd 0;
   match r with
   | None => ret (-1)
   | Some (_, f) => n <- argint 2; p <- argaddr 1; fileread f p n
   end)%K.

Definition sys_write : M kstate Z :=
  (r <- argfd 0;
   match r with
   | None => ret (-1)
   | Some (_, f) => n <- argint 2; p <- argaddr 1; filewrite f p n
   end)%K.

Definition sys_close : M kstate Z :=
  (r <- argfd 0;
   match r with
   | None => ret (-1)
   | Some (fd, f) => set_ofile fd None;; fileclose f;; ret 0
   end)%K.

Definition sys_fstat : M kstate Z :=
  (r <- argfd 0;
   match r with
   | None => ret (-1)
   | Some (_, f) => st <- argaddr 1; filestat f st
   end)%K.

Definition name_buf : list Z := repeat 0 (Z.to_nat DIRSIZ).

(** The [bad] exit of [sys_link]. *)
Definition link_bad (ip : nat) : M kstate Z :=
  (ilock (Some ip);;
   inode_upd ip (fun x => set_i_nlink (i16 (i_nlink x - 1)) x);;
   iupdate ip;;
   iunlockput ip;;
   end_op;;
   ret (-1))%K.

Definition sys_link : M kstate Z :=
  (old <- argstr 0 MAXPATH;
   match old with
   | None => ret (-1)
   | Some old =>
       new <- argstr 1 MAXPATH;
       match new with
       | None => ret (-1)
       | Some new =>
           begin_op;;
           r <- namei old;
           match r with
           | None => end_op;; ret (-1)
           | Some ip =>
               ilock (Some ip);;
               x <- inode_at ip;
               if i_type x =? T_DIR then iunlockput ip;; end_op;; ret (-1)
               else
                 inode_upd ip (fun x => set_i_nlink (i16 (i_nlink x + 1)) x);;
                 iupdate ip;;
                 iunlock (Some ip);;
                 ' (r, name) <- nameiparent new name_buf;
                 match r with
                 | None => link_bad ip
                 | Some dp =>
                     ilock (Some dp);;
                     d <- inode_at dp;
                     x <- inode_at ip;
                     r <- (if negb (i_dev d =? i_dev x) then ret (-1)
                           else dirlink dp name (i_inum x));
                     if r <? 0 then iunlockput dp;; link_bad ip
                     else
                       iunlockput dp;;
                       iput ip;;
                       end_op;;
                       ret 0
                 end
           end
       end
   end)%K.

Definition isdirempty_body (dp : nat) (off : Z) : M kstate (Z + bool) :=
  (x <- inode_at dp;
   if off <? i_size x then
     ' (r, de) <- readi dp (PLocal []) off DIRENT_SIZE;
     if negb (r =? DIRENT_SIZE) then panic "isdirempty: readi"
     else if negb (de_inum de =? 0) then ret (inr false)
     else ret (inl (off + DIRENT_SIZE))
   else ret (inr true))%K.

Definition isdirempty (dp : nat) : M kstate bool := loop (isdirempty_body dp) (2 * DIRENT_SIZE).

Definition unlink_bad (dp : nat) : M kstate Z := (iunlockput dp;; end_op;; ret (-1))%K.

Definition sys_unlink : M kstate Z :=
  (path <- argstr 0 MAXPATH;
   match path with
   | None => ret (-1)
   | Some path =>
       begin_op;;
       ' (r, name) <- nameiparent path name_buf;
       match r with
       | None => end_op;; ret (-1)
       | Some dp =>
           ilock (Some dp);;
           if (namecmp name (bytes_of ".") =? 0) || (namecmp name (bytes_of "..") =? 0)
           then unlink_bad dp
           else
             r <- dirlookup dp name;
             match r with
             | None => unlink_bad dp
             | Some (ip, off) =>
                 ilock (Some ip);;
                 x <- inode_at ip;
                 if i_nlink x <? 1 then panic "unlink: nlink < 1"
                 else
                   e <- (if i_type x =? T_DIR then isdirempty ip else ret true);
                   if negb e then iunlockput ip;; unlink_bad dp
                   else
                     r <- writei dp (PLocal (repeat 0 (Z.to_nat DIRENT_SIZE))) off DIRENT_SIZE;
                     if negb (r =? DIRENT_SIZE) then panic "unlink: writei"
                     else
                       x <- inode_at ip;
                       (if i_type x =? T_DIR then
                          inode_upd dp (fun d => set_i_nlink (i16 (i_nlink d - 1)) d);;
                          iupdate dp
                        else ret tt);;
                       iunlockput dp;;
                       inode_upd ip (fun x => set_i_nlink (i16 (i_nlink x - 1)) x);;
                       iupdate ip;;
                       iunlockput ip;;
                       end_op;;
                       ret 0
             end
       end
   end)%K.

(** The new or existing inode, locked; [None] for a null result. *)
Definition create (path : list Z) (type major minor : Z) : M kstate (option nat) :=
  (' (r, name) <- nameiparent path name_buf;
   match r with
   | None => ret None
   | Some dp =>
       ilock (Some dp);;
       r <- dirlookup dp name;
       match r with
       | Some (ip, _) =>
           iunlockput dp;;
           ilock (Some ip);;
           x <- inode_at ip;
           if (type =? T_FILE) && ((i_type x =? T_FILE) || (i_type x =? T_DEVICE))
           then ret (Some ip)
           else iunlockput ip;; ret None
       | None =>
           d <- inode_at dp;
           ip <- ialloc (i_dev d) type;
           ilock (Some ip);;
           inode_upd ip (set_i_major major);;
           inode_upd ip (set_i_minor minor);;
           inode_upd ip (set_i_nlink 1);;
           iupdate ip;;
           x <- inode_at ip;
           (if type =? T_DIR then
              inode_upd dp (fun d => set_i_nlink (i16 (i_nlink d + 1)) d);;
              iupdate dp;;
              r1 <- dirlink ip (bytes_of ".") (i_inum x);
              if r1 <? 0 then panic "create dots"
              else
                r2 <- dirlink ip (bytes_of "..") (i_inum d);
                if r2 <? 0 then panic "create dots" else ret tt
            else ret tt);;
           r <- dirlink dp name (i_inum x);
           if r <? 0 then panic "create: dirlink"
           else iunlockput dp;; ret (Some ip)
       end
   end)%K.

Definition open_fail (ip : nat) : M kstate Z := (iunlockput ip;; end_op;; ret (-1))%K.

(** The part of [sys_open] that starts with the locked inode. *)
Definition open_inode (ip : nat) (omode : Z) : M kstate Z :=
  (x <- inode_at ip;
   if (i_type x =? T_DEVICE) && ((i_major x <? 0) || (NDEV <=? i_major x)) then open_fail ip
   else
     r <- filealloc;
     match r with
     | None => open_fail ip
     | Some f =>
         fd <- fdalloc f;
         if fd <? 0 then fileclose f;; open_fail ip
         else
           (if i_type x =? T_DEVICE then
              file_upd f (set_f_type FD_DEVICE);;
              file_upd f (set_f_major (i_major x))
            else
              file_upd f (set_f_type FD_INODE);;
              file_upd f (set_f_off 0));;
           file_upd f (set_f_ip (Some ip));;
           file_upd f (set_f_readable (Z.land omode O_WRONLY =? 0));;
           file_upd f (set_f_writable
             (negb (Z.land omode O_WRONLY =? 0) || negb (Z.land omode O_RDWR =? 0)));;
           (if negb (Z.land omode O_TRUNC =? 0) && (i_type x =? T_FILE) then itrunc ip else ret tt);;
           iunlock (Some ip);;
           end_op;;
           ret fd
     end)%K.

Definition sys_open : M kstate Z :=
  (path <- argstr 0 MAXPATH;
   match path with
   | None => ret (-1)
   | Some path =>
       omode <- argint 1;
       begin_op;;
       if negb (Z.land omode O_CREATE =? 0) then
         r <- create path T_FILE 0 0;
         match r with
         | None => end_op;; ret (-1)
         | Some ip => open_inode ip omode
         end
       else
         r <- namei path;
         match r with
         | None => end_op;; ret (-1)
         | Some ip =>
             ilock (Some ip);;
             x <- inode_at ip;
             if (i_type x =? T_DIR) && negb (omode =? O_RDONLY) then open_fail ip
             else open_inode ip omode
         end
   end)%K.

Definition sys_mkdir : M kstate Z :=
  (begin_op;;
   path <- argstr 0 MAXPATH;
   match path with
   | None => end_op;; ret (-1)
   | Some path =>
       r <- create path T_DIR 0 0;
       match r with
       | None => end_op;; ret (-1)
       | Some ip => iunlockput ip;; end_op;; ret 0
       end
   end)%K.

Definition sys_mknod : M kstate Z :=
  (begin_op;;
   path <- argstr 0 MAXPATH;
   match path with
   | None => end_op;; ret (-1)
   | Some path =>
       major <- argint 1;
       minor <- argint 2;
       r <- create path T_DEVICE (i16 major) (i16 minor);
       match r with
       | None => end_op;; ret (-1)
       | Some ip => iunlockput ip;; end_op;; ret 0
       end
   end)%K.

Definition sys_chdir : M kstate Z :=
  (p <- curproc;
   begin_op;;
   path <- argstr 0 MAXPATH;
   match path with
   | None => end_op;; ret (-1)
   | Some path =>
       r <- namei path;
       match r with
       | None => end_op;; ret (-1)
       | Some ip =>
           ilock (Some ip);;
           x <- inode_at ip;
           if negb (i_type x =? T_DIR) then iunlockput ip;; end_op;; ret (-1)
           else
             iunlock (Some ip);;
             pr <- proc_at p;
             cwd <- deref (p_cwd pr);
             iput cwd;;
             end_op;;
             proc_upd p (set_p_cwd (Some ip));;
             ret 0
       end
   end)%K.

(** [kfree] of the pages in [argv]. *)
Definition free_args (pages : list Z) : M kstate unit := for_each pages (fun pa => vm (Kalloc.kfree pa)).

(** The loop that fetches [argv]: the pages allocated, and the strings unless
    the loop left to [bad]. *)
Definition fetch_args (uargv : Z) : nat -> Z -> list Z -> list (list Z) -> M kstate (list Z * option (list (list Z))) :=
  fix fetch (k : nat) (i : Z) (pages : list Z) (argv : list (list Z)) :=
    match k with
    | O => ret (pages, None)
    | S k' =>
        (r <- fetchaddr (u64 (uargv + 8 * i));
         match r with
         | None => ret (pages, None)
         | Some uarg =>
             if uarg =? 0 then ret (pages, Some argv)
             else
               page <- vm Kalloc.kalloc;
               if page =? 0 then ret (pages, None)
               else
                 s <- fetchstr uarg PGSIZE;
                 match s with
                 | None => ret (pages ++ [page], None)
                 | Some s =>
                     vm (storebytes page (s ++ [0]));;
                     fetch k' (i + 1) (pages ++ [page]) (argv ++ [s])
                 end
         end)%K
    end.

Definition sys_exec : M kstate Z :=
  (path <- argstr 0 MAXPATH;
   match path with
   | None => ret (-1)
   | Some path =>
       uargv <- argaddr 1;
       ' (pages, argv) <- fetch_args uargv (Z.to_nat MAXARG) 0 [] [];
       match argv with
       | None => free_args pages;; ret (-1)
       | Some argv =>
           r <- exec path argv;
           free_args pages;;
           ret r
       end
   end)%K.

Definition pipe_fail (rf wf : nat) : M kstate Z := (fileclose rf;; fileclose wf;; ret (-1))%K.

Definition sys_pipe : M kstate Z :=
  (p <- curproc;
   fdarray <- argaddr 0;
   r <- pipealloc;
   match r with
   | None => ret (-1)
   | Some (rf, wf) =>
       fd0 <- fdalloc rf;
       if fd0 <? 0 then pipe_fail rf wf
       else
         fd1 <- fdalloc wf;
         if fd1 <? 0 then set_ofile fd0 None;; pipe_fail rf wf
         else
           x <- proc_at p;
           r0 <- vm (Vm.copyout (p_pagetable x) fdarray (le_bytes 4 fd0) 4);
           r1 <- (if r0 <? 0 then ret (-1)
                  else vm (Vm.copyout (p_pagetable x) (u64 (fdarray + 4)) (le_bytes 4 fd1) 4));
           if r1 <? 0 then
             set_ofile fd0 None;;
             set_ofile fd1 None;;
             pipe_fail rf wf
           else ret 0
   end)%K.

(** ** Dispatch *)

Definition syscalls (num : Z) : option (M kstate Z) :=
  match num with
  | 1 => Some sys_fork | 2 => Some sys_exit | 3 => Some sys_wait | 4 => Some sys_pipe
  | 5 => Some sys_read | 6 => Some sys_kill | 7 => Some sys_exec | 8 => Some sys_fstat
  | 9 => Some sys_chdir | 10 => Some sys_dup | 11 => Some sys_getpid | 12 => Some sys_sbrk
  | 13 => Some sys_sleep | 14 => Some sys_uptime | 15 => Some sys_open | 16 => Some sys_write
  | 17 => Some sys_mknod | 18 => Some sys_unlink | 19 => Some sys_link | 20 => Some sys_mkdir
  | 21 => Some sys_close | 22 => Some sys_trace | 23 => Some sys_pinfo
  | _ => None
  end.

Definition syscallnum : list string :=
  [String.EmptyString; "fork"; "exit"; "wait"; "pipe"; "read"; "kill"; "exec"; "fstat"; "chdir"; "dup"; "getpid";
   "sbrk"; "sleep"; "uptime"; "open"; "write"; "mknod"; "unlink"; "link"; "mkdir"; "close"; "trace"]%string.

(** [p->trace_mask >> num]: RV64's [sraw] uses the low five bits of the count. *)
Definition trace_bit (mask num : Z) : bool := Z.odd (Z.shiftr mask (num mod 32)).

(** The name is read at [syscallnum[num]], whatever [num] is.  Outside the array
    the behaviour is undefined; the run stops there with a message of its own. *)
Definition syscall : M kstate unit :=
  (p <- curproc;
   a7 <- tf_get p TF_A7;
   let num := i32 a7 in
   (match (if 0 <? num then syscalls num else None) with
    | Some f =>
        r <- f;
        tf_set p TF_A0 (u64 r)
    | None =>
        x <- proc_at p;
        printf (bytes_of "%d %s: unknown sys call %d" ++ [10])
          [AInt (p_pid x); AStr (Some (cstring (p_name x))); AInt num];;
        tf_set p TF_A0 (u64 (-1))
    end);;
   x <- proc_at p;
   if trace_bit (p_trace_mask x) num then
     if (num <? 0) || (Z.of_nat (length syscallnum) <=? num) then panic "syscallnum: out of bounds"
     else
       a0 <- tf_get p TF_A0;
       printf (bytes_of "%d: syscall %s -> %d" ++ [10])
         [AInt (p_pid x); AStr (Some (bytes_of (nth (Z.to_nat num) syscallnum String.EmptyString)));
          AInt (i32 a0)]
   else ret tt)%K.

End Syscall.
