(* ===== verification/SyscallSpec.v ===== *)
(** * pinfo

    What [countmapped] counts, and that [sys_pinfo] panics while a process slot is
    free. *)

From S2P Require Import Prelude Mem Riscv Str Locks Kalloc Vm Kstate Proc ProcSpec Blk Fs FsDir ProcFs Syscall.
Import Proc ProcFs Syscall.

(** ** countmapped *)

(** The entry at index [i] of a page-table page. *)
Definition entry (m : mem) (pt i : Z) : Z := ld64 m (pt + 8 * i).
Definition is_valid (pte : Z) : bool := negb (Z.land pte PTE_V =? 0).
Definition is_table (pte : Z) : bool := is_valid pte && (Z.land pte (Z.lor PTE_R (Z.lor PTE_W PTE_X)) =? 0).

(** A table of at most [d] levels whose pages are aligned, in the RAM and not in
    [free]. *)
Fixpoint pt_ok (free : list Z) (d : nat) (m : mem) (pt : Z) : bool :=
  match d with
  | O => false
  | S d' =>
      (KERNBASE <=? pt) && (pt mod PGSIZE =? 0) && bool_decide (pt ∉ free) &&
      forallb (fun i => let e := entry m pt i in if is_table e then pt_ok free d' m (PTE2PA e) else true) (seqZ 0 512)
  end.

Lemma pt_ok_S free d m pt : pt_ok free (S d) m pt = true <->
  (KERNBASE <= pt /\ pt mod PGSIZE = 0 /\ pt ∉ free) /\
  forall i, 0 <= i < 512 -> is_table (entry m pt i) = true -> pt_ok free d m (PTE2PA (entry m pt i)) = true.
Proof.
  cbn [pt_ok]. rewrite !andb_true_iff, Z.leb_le, Z.eqb_eq, bool_decide_eq_true, forallb_forall. split.
  - intros [[[H1 H2] H3] H]. split; [done|]. intros i Hi Ht. specialize (H i).
    rewrite <- list_elem_of_In, elem_of_seqZ in H. cbn zeta in H. rewrite Ht in H. apply H. lia.
  - intros [(H1 & H2 & H3) H]. split; [done|]. intros i Hi. apply list_elem_of_In, elem_of_seqZ in Hi. cbn zeta.
    destruct (is_table _) eqn:E; [|done]. apply H; [lia|done].
Qed.

Definition sum (f : Z -> Z) (n : nat) (i : Z) : Z := foldr Z.add 0 (f <$> seqZ i (Z.of_nat n)).

(** The number of pages it maps. *)
Fixpoint mapped (d : nat) (m : mem) (pt : Z) : Z :=
  match d with
  | O => 0
  | S d' => sum (fun i => let e := entry m pt i in
      if is_table e then mapped d' m (PTE2PA e) else if is_valid e then 1 else 0) 512 0
  end.

Lemma sum_S f n i : sum f (S n) i = f i + sum f n (i + 1).
Proof. unfold sum. rewrite seqZ_cons' by lia. cbn. do 3 f_equal. by replace (Z.of_nat (S n) - 1) with (Z.of_nat n) by lia. Qed.

(** Only [count] changes, by the number of pages. *)
Definition counted (k : Z) (s : machine) : machine := set_count (i32 (count s + k)) s.

Lemma i32_add_l a b : i32 (i32 a + b) = i32 (a + b).
Proof.
  unfold i32. f_equal. replace ((a + 2 ^ 31) mod 2 ^ 32 - 2 ^ 31 + b + 2 ^ 31) with ((a + 2 ^ 31) mod 2 ^ 32 + b) by lia.
  rewrite Zplus_mod_idemp_l. f_equal. lia.
Qed.

Lemma counted_counted j k s : counted k (counted j s) = counted (j + k) s.
Proof. unfold counted. cbn. unfold set_count. cbn. f_equal. rewrite i32_add_l. f_equal. lia. Qed.

Definition count_ok (s : machine) : Prop := i32 (count s) = count s.

Lemma counted_0 s : count_ok s -> counted 0 s = s.
Proof. unfold count_ok, counted. intros H. rewrite Z.add_0_r, H. by destruct s. Qed.

Lemma counted_ok k s : count_ok (counted k s).
Proof. unfold count_ok, counted. cbn. pose proof (i32_add_l (count s + k) 0) as H. by rewrite !Z.add_0_r in H. Qed.

(** One entry. *)
Definition count_entry (d : nat) (pagetable i : Z) : M machine unit :=
  (pte <- load64 (pagetable + 8 * i);
   if negb (Z.land pte PTE_V =? 0) && (Z.land pte (Z.lor PTE_R (Z.lor PTE_W PTE_X)) =? 0)
   then Vm.countmapped_rec d (PTE2PA pte);; ret tt
   else if negb (Z.land pte PTE_V =? 0) then modify (fun s => set_count (i32 (count s + 1)) s)
   else ret tt)%K.

Lemma for_range_counted (f : Z -> M machine unit) (g : Z -> Z) n : forall i s, count_ok s ->
  (forall j s', i <= j < i + Z.of_nat n -> count_ok s' -> ram s' = ram s -> f j s' = Ret tt (counted (g j) s')) ->
  for_range n i f s = Ret tt (counted (sum g n i) s).
Proof.
  induction n as [|n IH]; intros i s Hs Hf; [cbn; by rewrite counted_0|].
  cbn [for_range]. erewrite bind_Ret by (apply Hf; [lia|done|done]). rewrite sum_S, <- counted_counted.
  apply IH; [apply counted_ok|]. intros j s' Hj Hs' Er. apply Hf; [lia|done|by rewrite Er].
Qed.

Lemma countmapped_rec_eq free d : forall pt s, count_ok s -> pt_ok free d (ram s) pt = true ->
  Vm.countmapped_rec d pt s = Ret (i32 (count s + mapped d (ram s) pt)) (counted (mapped d (ram s) pt) s).
Proof.
  induction d as [|d IH]; intros pt s Hs Hd; [done|]. pose proof (proj1 (pt_ok_S _ _ _ _) Hd) as [(Hk & _) Hd'].
  cbn [Vm.countmapped_rec]. fold (count_entry d pt).
  set (g := fun i => let e := entry (ram s) pt i in
    if is_table e then mapped d (ram s) (PTE2PA e) else if is_valid e then 1 else 0).
  erewrite bind_Ret.
  2: { apply (for_range_counted (count_entry d pt) g); [done|]. intros j s' Hj Hs' Er. unfold count_entry.
       erewrite bind_Ret by (apply load64_eq; lia). rewrite Er. fold (entry (ram s) pt j).
       change (negb (Z.land ?e PTE_V =? 0)) with (is_valid e).
       change (is_valid ?e && (Z.land ?e _ =? 0)) with (is_table e). unfold g. cbn zeta.
       destruct (is_table (entry (ram s) pt j)) eqn:Et; [|by destruct (is_valid _); [|rewrite counted_0]].
       erewrite bind_Ret by (apply IH; [done|rewrite Er; apply Hd'; [lia|done]]). by rewrite Er. }
  done.
Qed.

Lemma sum_ext f g n : forall i, (forall j, i <= j < i + Z.of_nat n -> f j = g j) -> sum f n i = sum g n i.
Proof. induction n as [|n IH]; intros i H; [done|]. rewrite !sum_S. f_equal; [apply H; lia|]. apply IH. intros. apply H. lia. Qed.

Lemma pt_ok_deeper free d k m : forall pt, pt_ok free d m pt = true ->
  pt_ok free (d + k) m pt = true /\ mapped (d + k) m pt = mapped d m pt.
Proof.
  induction d as [|d IH]; intros pt Hd; [done|]. pose proof (proj1 (pt_ok_S _ _ _ _) Hd) as [Hp Hd']. split.
  - apply pt_ok_S. split; [done|]. intros i Hi Ht. by apply IH, Hd'.
  - cbn [mapped Nat.add]. apply sum_ext. intros j Hj. cbn zeta. destruct (is_table _) eqn:Et; [|done].
    apply IH, Hd'; [lia|done].
Qed.

(** [countmapped] on a table of the depth the hardware uses returns: it
    adds the number of pages the table maps to the global [count] and returns
    the new value of [count].  As [count] is never reset, a second call returns
    the pages of both. *)
Theorem countmapped_correct free pt s : count_ok s -> pt_ok free 3 (ram s) pt = true ->
  let n := mapped 3 (ram s) pt in
  Vm.countmapped pt s = Ret (i32 (count s + n)) (counted n s) /\
  Vm.countmapped pt (counted n s) = Ret (i32 (count s + 2 * n)) (counted (2 * n) s).
Proof.
  intros Hs Hd n. destruct (pt_ok_deeper free 3 61 (ram s) pt Hd) as [Hd' Em]. change (3 + 61)%nat with 64%nat in *. fold n in Em. unfold Vm.countmapped. split.
  - rewrite (countmapped_rec_eq free 64) by done. by rewrite Em.
  - rewrite (countmapped_rec_eq free 64) by (done || apply counted_ok). change (ram (counted n s)) with (ram s).
    rewrite Em, counted_counted. change (count (counted n s)) with (i32 (count s + n)). rewrite i32_add_l.
    by replace (count s + n + n) with (count s + 2 * n) by lia; replace (n + n) with (2 * n) by lia.
Qed.

(** A table that maps one page, at index 3 of each level. *)
Definition demo_tables : mem :=
  st64 (st64 (st64 ∅ 0x80000018 (Z.lor (PA2PTE 0x80001000) PTE_V)) 0x80001018 (Z.lor (PA2PTE 0x80002000) PTE_V))
    0x80002018 (Z.lor (PA2PTE 0x80003000) (Z.lor PTE_V PTE_R)).
Definition demo_count : machine := Machine demo_tables 0 5 [] 0 0 0.

Lemma countmapped_correct_witness :
  Vm.countmapped 0x80000000 demo_count = Ret 6 (counted 1 demo_count) /\
  Vm.countmapped 0x80000000 (counted 1 demo_count) = Ret 7 (counted 2 demo_count).
Proof.
  assert (mapped 3 demo_tables 0x80000000 = 1) as E by (vm_compute; reflexivity).
  pose proof (countmapped_correct [] 0x80000000 demo_count eq_refl ltac:(vm_compute; reflexivity)) as H.
  cbn zeta in H. change (ram demo_count) with demo_tables in H. rewrite E in H. exact H.
Defined.

(** ** sys_pinfo *)

(** An access through a null pointer is a fault. *)
Lemma countmapped_null s : Vm.countmapped 0 s = Panic "kerneltrap".
Proof. done. Qed.

(** The addresses outside the page at [pa]. *)
Definition outside (pa a : Z) : Prop := a < pa \/ pa + PGSIZE <= a.

Lemma pt_ok_agree free d m m' pa : pa ∈ free -> pa mod PGSIZE = 0 -> agree_on (outside pa) m m' ->
  forall pt, pt_ok free d m pt = true -> pt_ok free d m' pt = true.
Proof.
  intros Hf Ha Hm. induction d as [|d IH]; intros pt Hd; [done|]. apply pt_ok_S in Hd as [(Hk & Hal & Hn) Hd].
  apply pt_ok_S. split; [done|].
  assert (forall i, 0 <= i < 512 -> entry m' pt i = entry m pt i) as He.
  { intros i Hi. apply ld64_ext. intros a Hai. symmetry. apply Hm. assert (pt <> pa) by set_solver. unfold outside, PGSIZE in *.
    apply Z.mod_divide in Ha as [x ->], Hal as [y ->]; lia. }
  intros i Hi. rewrite He by done. intros Ht. by apply IH, Hd.
Qed.

Lemma agree_stbytes pa a bs m m' : agree_on (outside pa) m m' -> pa <= a -> a + Z.of_nat (length bs) <= pa + PGSIZE ->
  agree_on (outside pa) m (stbytes m' a bs).
Proof. intros H H1 H2 b Hb. rewrite ld8_stbytes. unfold outside in *. case_decide; [lia|by apply H]. Qed.

Section pinfo.
Context (s : kstate) (pa : Z) (ps : list Z).
Hypotheses (Hpa : Kalloc.page_ok (kend (mach s)) pa) (Hlk : no_plock s).

(** What the loop over the slots keeps, with the locks [h] held. *)
Record pinfo_inv (h : list lockid) (t : kstate) : Prop := {
  pi_procs : procs t = procs s;
  pi_held : held t = h;
  pi_count : count_ok (mach t);
  pi_ram : agree_on (outside pa) (ram (mach s)) (ram (mach t));
}.

Lemma pinfo_store h a bs t : pinfo_inv h t -> pa <= a -> a + Z.of_nat (length bs) <= pa + PGSIZE ->
  exists t', vm (storebytes a bs) t = Ret tt t' /\ pinfo_inv h t'.
Proof.
  intros [H1 H2 H3 H4] Ha Hb. eexists. split; [by apply vm_ret|]. split; [done..|]. by apply agree_stbytes.
Qed.

Lemma pinfo_store32 h a v t : pinfo_inv h t -> pa <= a -> a + 4 <= pa + PGSIZE ->
  exists t', store32 a v t = Ret tt t' /\ pinfo_inv h t'.
Proof. intros. apply pinfo_store; [done..|]. rewrite le_bytes_length. lia. Qed.

(** A slot up to the call of [countmapped]. *)
Lemma pinfo_stores h i x t : pinfo_inv h t -> (i < Z.to_nat NPROC)%nat -> procs s !! i = Some x -> proc_lock i ∉ h ->
  exists t', pinfo_inv (proc_lock i :: h) t' /\
    pinfo_slot pa i t =
      (num_used <- vm (Vm.countmapped (p_pagetable x)); store32 (pa + PS_PAGES (Z.of_nat i)) num_used;; release (proc_lock i))%K t'.
Proof.
  intros H Hi Hx Hl. pose proof H as [Ep Eh Hc Hm].
  assert (pinfo_inv (proc_lock i :: h) (set_held (proc_lock i :: held t) t)) as H0 by (split; [done|by rewrite <- Eh|done|done]).
  change NPROC with 64 in Hi.
  destruct (pinfo_store32 _ (pa + PS_ACTIVE (Z.of_nat i)) 1 _ H0) as (t1 & E1 & H1); [unfold PS_ACTIVE, PGSIZE; lia..|].
  destruct (pinfo_store32 _ (pa + PS_PID (Z.of_nat i)) (p_pid x) _ H1) as (t2 & E2 & H2); [unfold PS_PID, PGSIZE; lia..|].
  destruct (pinfo_store32 _ (pa + PS_STATES (Z.of_nat i)) (state_num (p_state x)) _ H2) as (t3 & E3 & H3); [unfold PS_STATES, PGSIZE; lia..|].
  destruct (pinfo_store _ (pa + PS_NAME (Z.of_nat i)) (Fs.lstrncpy 16 (p_name x)) _ H3) as (t4 & E4 & H4);
    [unfold PS_NAME; lia|rewrite strncpy_length; unfold PS_NAME, PGSIZE; lia|].
  exists t4. split; [done|]. unfold pinfo_slot. erewrite bind_Ret by (apply acquire_eq; by rewrite Eh).
  erewrite bind_Ret by (apply proc_at_eq; simpl; rewrite Ep; exact Hx).
  erewrite bind_Ret by exact E1. erewrite bind_Ret by exact E2. erewrite bind_Ret by exact E3. by erewrite bind_Ret by exact E4.
Qed.

(** A slot with a page table is filled in; one without is a fault. *)
Lemma pinfo_slot_table t i x : pinfo_inv (held s) t -> (i < Z.to_nat NPROC)%nat -> procs s !! i = Some x ->
  pa ∈ ps -> pt_ok ps 3 (ram (mach s)) (p_pagetable x) = true ->
  exists t', pinfo_slot pa i t = Ret tt t' /\ pinfo_inv (held s) t'.
Proof.
  intros H Hi Hx Hin Hpt. destruct (pinfo_stores _ _ _ _ H Hi Hx (Hlk i)) as (t1 & [Ep Eh Hc Hm] & ->).
  destruct (countmapped_correct ps (p_pagetable x) (mach t1) Hc) as [Ec _];
    [by apply (pt_ok_agree _ _ (ram (mach s)) _ pa); [|apply Hpa| |]|].
  erewrite bind_Ret by (apply vm_ret, Ec). set (t2 := set_mach _ t1).
  assert (pinfo_inv (proc_lock i :: held s) t2) as H2 by (split; [done|done|apply counted_ok|done]).
  change NPROC with 64 in Hi.
  destruct (pinfo_store32 _ (pa + PS_PAGES (Z.of_nat i)) (i32 (count (mach t1) + mapped 3 (ram (mach t1)) (p_pagetable x))) _ H2)
    as (t3 & E3 & [Ep3 Eh3 Hc3 Hm3]); [unfold PS_PAGES, PGSIZE; lia..|].
  erewrite bind_Ret by exact E3. eexists. split; [by apply release_head|]. by split.
Qed.

Lemma pinfo_slot_null t i x : pinfo_inv (held s) t -> (i < Z.to_nat NPROC)%nat -> procs s !! i = Some x ->
  p_pagetable x = 0 -> pinfo_slot pa i t = Panic "kerneltrap".
Proof.
  intros H Hi Hx Hpt. destruct (pinfo_stores _ _ _ _ H Hi Hx (Hlk i)) as (t1 & _ & ->). rewrite Hpt.
  unfold bind, vm, lift. by rewrite countmapped_null.
Qed.

Lemma pinfo_loop q : ptab_ok s -> pa ∈ ps -> first_slot (fun x => p_pagetable x = 0) (procs s) q ->
  (forall i x, (i < q)%nat -> procs s !! i = Some x -> pt_ok ps 3 (ram (mach s)) (p_pagetable x) = true) ->
  forall n i t, (i + n = Z.to_nat NPROC)%nat -> (i <= q)%nat -> pinfo_inv (held s) t ->
  for_each (seq i n) (pinfo_slot pa) t = Panic "kerneltrap".
Proof.
  intros Hok Hin [(y & Hy & Hy0) _] Hpt. pose proof (lookup_lt_Some _ _ _ Hy) as Hq. rewrite Hok in Hq.
  induction n as [|n IH]; intros i t Hi Hiq H; [lia|]. cbn [seq for_each].
  destruct (decide (i = q)) as [->|Hne].
  - unfold bind. by erewrite pinfo_slot_null.
  - destruct (lookup_lt_is_Some_2 (procs s) i) as [x Hx]; [rewrite Hok; lia|].
    destruct (pinfo_slot_table t i x H) as (t' & E & H'); [lia|done|done|apply (Hpt i); [lia|done]|].
    erewrite bind_Ret by exact E. apply IH; [lia|lia|done].
Qed.
End pinfo.

#[local] Opaque Str.memset.

(** C39: [sys_pinfo] panics while some process slot has no page table, which is
    the case of every free slot: [countmapped] is called with the null table of
    the first such slot [q] and its first load faults.  The slots before [q] have
    well-formed three-level tables, whose pages are not on the free list; when the
    free list is empty, the store of the argument through the null pointer of
    [kalloc] faults before the loop. *)
Theorem sys_pinfo_panics s ps p x q :
  ptab_ok s -> no_plock s -> cpu_proc s = Some p -> procs s !! p = Some x -> KERNBASE <= p_trapframe x ->
  Kalloc.kmem_inv (mach s) ps -> Kalloc.kmem_lock ∉ held s -> count_ok (mach s) ->
  first_slot (fun x => p_pagetable x = 0) (procs s) q ->
  (forall i y, (i < q)%nat -> procs s !! i = Some y -> pt_ok ps 3 (ram (mach s)) (p_pagetable y) = true) ->
  sys_pinfo s = Panic "kerneltrap".
Proof.
  intros Hok Hlk Hp Hx Htf Hk Hkl Hc Hq Hpt.
  assert (forall t, cpu_proc t = Some p -> procs t = procs s -> exists a, argaddr 0 t = Ret a t) as Harg.
  { intros t Ht Ep. eexists. unfold argaddr, argraw. erewrite bind_Ret by (unfold curproc, myproc, bind; cbn; by rewrite Ht).
    change ((0 <=? 0) && (0 <=? 5)) with true. cbn match. unfold tf_get. erewrite bind_Ret by (apply proc_at_eq; rewrite Ep; exact Hx).
    erewrite vm_ret by (apply load64_eq; unfold TF_A0; lia). by destruct t. }
  pose proof (Kalloc.kalloc_spec _ _ Hk Hkl) as Ek. unfold sys_pinfo. destruct ps as [|pa ps].
  - erewrite bind_Ret by (apply vm_ret, Ek). destruct (Harg (set_mach (mach s) s) Hp eq_refl) as [a E].
    erewrite bind_Ret by exact E. reflexivity.
  - destruct Ek as [Ek _]. erewrite bind_Ret by (apply vm_ret, Ek). destruct (Harg (set_mach (Kalloc.alloc_state pa (mach s)) s) Hp eq_refl) as [a E].
    erewrite bind_Ret by exact E.
    pose proof (Kalloc.inv_pages _ _ Hk) as [Hpa _]%Forall_cons. pose proof (Kalloc.inv_end _ _ Hk) as He.
    erewrite bind_Ret by (apply vm_ret, store64_eq; destruct Hpa; lia).
    unfold bind, proc_slots. erewrite (pinfo_loop s pa (pa :: ps) Hpa Hlk q);
      [reflexivity|exact Hok|left|exact Hq|exact Hpt|reflexivity|lia|].
    clear E Ek Harg Hpt. split; [reflexivity..|exact Hc|]. intros b Hb. unfold outside, PGSIZE in Hb.
    change (ld8 (ram (mach s)) b = ld8 (st64 (Str.memset (ram (mach s)) pa 5 PGSIZE) pa a) b). rewrite ld8_st64_ne by lia.
    symmetry. by apply Str.ld8_memset_out.
Qed.

(** A process in slot 0 of a table that is otherwise free, with one free page. *)
Definition demo_ps : kstate :=
  let x := set_p_pagetable 0x80000000 (set_p_trapframe 0x80004000 (set_p_state RUNNING zero_proc)) in
  let s := zero_kstate (Machine demo_tables 0x80005000 0 [] 0x80004000 0 0) in
  set_cpu_proc (Some 0%nat) (set_procs (<[0%nat := x]> (procs s)) s).

Lemma sys_pinfo_panics_witness : sys_pinfo demo_ps = Panic "kerneltrap".
Proof.
  eapply (sys_pinfo_panics demo_ps [0x80005000] 0 _ 1).
  - reflexivity.
  - intros i. apply not_elem_of_nil.
  - reflexivity.
  - reflexivity.
  - vm_compute. discriminate.
  - split; [by vm_compute|apply NoDup_singleton| |by vm_compute]. apply Forall_singleton. by vm_compute.
  - apply not_elem_of_nil.
  - reflexivity.
  - split; [by exists zero_proc|]. intros [|j] y Hj; [|lia]. by intros [= <-].
  - intros [|i] y Hi; [|lia]. intros [= <-]. vm_compute. reflexivity.
Defined.
