(* ===== verification/Trap.v ===== *)
(** * kernel/trap.c and kernel/plic.c

    Traps from user and kernel mode, interrupts and the clock.  The addresses
    of functions that are stored in registers are parameters. *)

From S2P Require Import Prelude Riscv Mem Str Locks Kalloc Vm Kstate Proc Uart Console Bio Blk Log Virtio Fs File ProcFs Syscall.
Import Proc Uart Console Bio Log Fs File ProcFs Syscall.

Module Trap.

Abbreviation SSTATUS_SPP := (Z.shiftl 1 8)%Z.
Abbreviation SSTATUS_SPIE := (Z.shiftl 1 5)%Z.

Definition upd_csr (f : csrs -> csrs) : M kstate unit := modify (fun s => set_csr (f (csr s)) s).

(** kernel/riscv.h: the supervisor interrupt enable. *)
Definition intr_on : M kstate unit := modify (set_intr true).
Definition intr_off : M kstate unit := modify (set_intr false).

(** kernel/plic.c *)
Definition plicinit : M kstate unit :=
  (reg_write (PLIC + UART0_IRQ * 4) 1;;
   reg_write (PLIC + VIRTIO0_IRQ * 4) 1)%K.

Definition plicinithart : M kstate unit :=
  (hart <- cpuid;
   reg_write (PLIC_SENABLE hart) (Z.lor (Z.shiftl 1 UART0_IRQ) (Z.shiftl 1 VIRTIO0_IRQ));;
   reg_write (PLIC_SPRIORITY hart) 0)%K.

(** The next pending interrupt, 0 for none. *)
Definition plic_claim : M kstate Z :=
  (c <- gets csr;
   match plic_in c with
   | [] => ret 0
   | irq :: rest => upd_csr (set_plic_in rest);; ret (i32 irq)
   end)%K.
Definition plic_complete (irq : Z) : M kstate unit :=
  upd_csr (fun c => set_plic_done (plic_done c ++ [irq]) c).

Definition trapinit : M kstate unit := initlock tickslock.

Definition clockintr : M kstate unit :=
  (acquire tickslock;;
   modify (fun s => set_ticks (u32 (ticks s + 1)) s);;
   wakeup ticks_chan;;
   release tickslock)%K.

Section trap.
(** Addresses of kernelvec and usertrap, and the offsets of uservec and userret
    in the trampoline page. *)
Context (kernelvec usertrap_addr uservec_off userret_off : Z).

Definition trapinithart : M kstate unit := upd_csr (set_stvec kernelvec).

(** 2 for a timer interrupt, 1 for another device, 0 if not recognized. *)
Definition devintr : M kstate Z :=
  (c <- gets csr;
   if negb (Z.land (scause c) 0x8000000000000000 =? 0) && (Z.land (scause c) 0xff =? 9) then
     irq <- plic_claim;
     (if irq =? UART0_IRQ then uartintr
      else if irq =? VIRTIO0_IRQ then Virtio.virtio_disk_intr
      else if negb (irq =? 0) then
        printf (bytes_of "unexpected interrupt irq=%d" ++ [10]) [AInt irq]
      else ret tt);;
     (if negb (irq =? 0) then plic_complete irq else ret tt);;
     ret 1
   else if scause c =? 0x8000000000000001 then
     id <- cpuid;
     (if id =? 0 then clockintr else ret tt);;
     upd_csr (fun c => set_sip (Z.land (sip c) (Z.lnot 2)) c);;
     ret 2
   else ret 0)%K.

(** Back to user space: the last step is the jump to the trampoline with the
    user page table's satp value, which is the result. *)
Definition usertrapret : M kstate (Z * Z) :=
  (p <- curproc;
   intr_off;;
   upd_csr (set_stvec (TRAMPOLINE + uservec_off));;
   c <- gets csr;
   tf_set p TF_KERNEL_SATP (satp c);;
   x <- proc_at p;
   tf_set p TF_KERNEL_SP (p_kstack x + PGSIZE);;
   tf_set p TF_KERNEL_TRAP usertrap_addr;;
   tf_set p TF_KERNEL_HARTID (hartid c);;
   upd_csr (fun c => set_sstatus
     (Z.lor (Z.land (sstatus c) (Z.lnot SSTATUS_SPP)) SSTATUS_SPIE) c);;
   epc <- tf_get p TF_EPC;
   upd_csr (set_sepc epc);;
   ret (TRAMPOLINE + userret_off, MAKE_SATP (p_pagetable x)))%K.

Definition usertrap : M kstate (Z * Z) :=
  (c <- gets csr;
   if negb (Z.land (sstatus c) SSTATUS_SPP =? 0) then panic "usertrap: not from user mode"
   else
     upd_csr (set_stvec kernelvec);;
     p <- curproc;
     tf_set p TF_EPC (sepc c);;
     which_dev <-
       (if scause c =? 8 then
          x <- proc_at p;
          (if negb (p_killed x =? 0) then exit (-1) else ret tt);;
          epc <- tf_get p TF_EPC;
          tf_set p TF_EPC (u64 (epc + 4));;
          intr_on;;
          syscall;;
          ret 0
        else
          which_dev <- devintr;
          if negb (which_dev =? 0) then ret which_dev
          else
            x <- proc_at p;
            c <- gets csr;
            printf (bytes_of "usertrap(): unexpected scause %p pid=%d" ++ [10])
              [APtr (scause c); AInt (p_pid x)];;
            printf (bytes_of "            sepc=%p stval=%p" ++ [10]) [APtr (sepc c); APtr (stval c)];;
            proc_upd p (set_p_killed 1);;
            ret 0);
     x <- proc_at p;
     (if negb (p_killed x =? 0) then exit (-1) else ret tt);;
     (if which_dev =? 2 then yield else ret tt);;
     usertrapret)%K.

Definition kerneltrap : M kstate unit :=
  (c <- gets csr;
   let sepc0 := sepc c in
   let sstatus0 := sstatus c in
   if Z.land sstatus0 SSTATUS_SPP =? 0 then panic "kerneltrap: not from supervisor mode"
   else
     i <- intr_get;
     if (i : bool) then panic "kerneltrap: interrupts enabled"
     else
       which_dev <- devintr;
       if which_dev =? 0 then
         printf (bytes_of "scause %p" ++ [10]) [APtr (scause c)];;
         c <- gets csr;
         printf (bytes_of "sepc=%p stval=%p" ++ [10]) [APtr (sepc c); APtr (stval c)];;
         panic "kerneltrap"
       else
         (if which_dev =? 2 then
            me <- myproc;
            match me with
            | None => ret tt
            | Some p =>
                x <- proc_at p;
                if decide (p_state x = RUNNING) then yield else ret tt
            end
          else ret tt);;
         upd_csr (set_sepc sepc0);;
         upd_csr (set_sstatus sstatus0))%K.

(** kernel/proc.c: the first return of a new process *)
Definition forkret : M kstate (Z * Z) :=
  (p <- curproc;
   release (proc_lock p);;
   first <- gets forkret_first;
   (if (first : bool) then
      modify (set_forkret_first false);;
      fsinit ROOTDEV
    else ret tt);;
   usertrapret)%K.

End trap.
End Trap.
