(* ===== verification/Boot.v ===== *)
(** * kernel/start.c and kernel/main.c

    What each hart does from machine mode on, and the order in which the kernel
    is initialised.  The entry code in entry.S calls [start]. *)

From S2P Require Import Prelude Riscv Mem Str Locks Kalloc Vm Kstate Proc Uart Console Bio Blk Log Virtio Fs File ProcFs Syscall Trap.
Import Proc Uart Console Bio Log Fs File ProcFs Trap.

Module Boot.

(** ** start.c *)

Abbreviation MSTATUS_MPP_MASK := (Z.shiftl 3 11)%Z.
Abbreviation MSTATUS_MPP_S := (Z.shiftl 1 11)%Z.
Abbreviation MSTATUS_MIE := (Z.shiftl 1 3)%Z.
Abbreviation SIE_SEIE := (Z.shiftl 1 9)%Z.
Abbreviation SIE_STIE := (Z.shiftl 1 5)%Z.
Abbreviation SIE_SSIE := (Z.shiftl 1 1)%Z.
Abbreviation MIE_MTIE := (Z.shiftl 1 7)%Z.

(** The registers of a hart that [start] reads and writes. *)
Inductive mreg :=
  mhartid | mstatus | mepc | msatp | medeleg | mideleg | sie | pmpaddr0 | pmpcfg0 | mscratch | mtvec | mie | tp.
#[export] Instance mreg_eq_dec : EqDecision mreg.
Proof. solve_decision. Defined.

(** They, the clock of the CLINT with the hart's compare register, and the
    hart's row of [timer_scratch]. *)
Record hart := MkHart {
  reg : mreg -> Z;
  mtime : Z;
  mtimecmp : Z;
  timer_scratch : list Z;
}.

(** [csrw], or [mv] for tp. *)
Definition w (r : mreg) (x : Z) (h : hart) : hart :=
  MkHart (upd (reg h) r x) (mtime h) (mtimecmp h) (timer_scratch h).

Section start.
(** Addresses of main, timervec and timer_scratch. *)
Context (main_addr timervec scratch_addr : Z).

Definition timerinit (h : hart) : hart :=
  let id := i32 (reg h mhartid) in
  let interval := 1000000 in
  let h := MkHart (reg h) (mtime h) (u64 (mtime h + interval))
             (<[4%nat := interval]> (<[3%nat := CLINT_MTIMECMP id]> (timer_scratch h))) in
  let h := w mscratch (scratch_addr + 40 * id) h in
  let h := w mtvec timervec h in
  let h := w mstatus (Z.lor (reg h mstatus) MSTATUS_MIE) h in
  w mie (Z.lor (reg h mie) MIE_MTIE) h.

(** Up to the [mret], which enters main in the mode mstatus.MPP names. *)
Definition start (h : hart) : hart :=
  let x := reg h mstatus in
  let x := Z.land x (Z.lnot MSTATUS_MPP_MASK) in
  let x := Z.lor x MSTATUS_MPP_S in
  let h := w mstatus x h in
  let h := w mepc main_addr h in
  let h := w msatp 0 h in
  let h := w medeleg 0xffff h in
  let h := w mideleg 0xffff h in
  let h := w sie (Z.lor (Z.lor (Z.lor (reg h sie) SIE_SEIE) SIE_STIE) SIE_SSIE) h in
  let h := w pmpaddr0 0x3fffffffffffff h in
  let h := w pmpcfg0 0xf h in
  let h := timerinit h in
  let id := i32 (reg h mhartid) in
  w tp id h.

End start.

(** ** vm.c: the kernel's page table is made and switched to *)

Definition kvminit : M kstate unit :=
  (t <- vm Vm.kvmmake;
   modify (set_kernel_pagetable t))%K.

Definition kvminithart : M kstate unit :=
  (t <- gets kernel_pagetable;
   upd_csr (set_satp (MAKE_SATP t)))%K.

(** ** main.c *)

Section main.
(** Addresses of kernelvec and of [disk.pages]. *)
Context (kernelvec disk_pages : Z).

(** Hart 0 initialises the kernel and starts the first process. *)
Definition main_boot : M kstate unit :=
  (consoleinit;;
   printfinit;;
   printf [10] [];;
   printf (bytes_of "xv6 kernel is booting" ++ [10]) [];;
   printf [10] [];;
   vm Kalloc.kinit;;
   kvminit;;
   kvminithart;;
   procinit;;
   trapinit;;
   trapinithart kernelvec;;
   plicinit;;
   plicinithart;;
   binit;;
   iinit;;
   fileinit;;
   Virtio.virtio_disk_init disk_pages;;
   userinit;;
   modify (set_started true))%K.

(** The other harts wait for it: [while(started == 0);] *)
Definition main_other : M kstate unit :=
  (loop (fun _ => b <- gets started; ret (if (b : bool) then inr tt else inl tt)) tt;;
   id <- cpuid;
   printf (bytes_of "hart %d starting" ++ [10]) [AInt id];;
   kvminithart;;
   trapinithart kernelvec;;
   plicinithart)%K.

Definition main : M kstate unit :=
  (id <- cpuid;
   (if id =? 0 then main_boot else main_other);;
   scheduler)%K.

End main.
End Boot.
