(* ===== verification/Usys.v ===== *)
(** * The system calls as user programs see them (user/user.h, user/ulib.c,
    user/printf.c)

    [Sys] is the interface of the kernel to user programs; programs are written
    against it.  Strings are the lists of their characters, without the final
    NUL.  [Tty] is an instance for running programs: a file descriptor gives
    back the chunks it holds, one per [read], and collects what is written. *)

From S2P Require Import Prelude Mem Str.

Class Sys (S : Type) := {
  sys_fork : M S Z;
  sys_exit : forall {A}, Z -> M S A;
  sys_wait : M S Z;                           (* wait(0) *)
  sys_wait_st : M S (Z * option Z);           (* wait(&st): the result, and what is stored in st *)
  sys_pipe : M S (option (Z * Z));
  sys_read : Z -> Z -> M S (Z * list Z);     (* the count or -1, and the bytes stored *)
  sys_write : Z -> list Z -> M S Z;
  sys_close : Z -> M S Z;
  sys_kill : Z -> M S Z;
  sys_exec : list Z -> list (list Z) -> M S Z;
  sys_open : list Z -> Z -> M S Z;
  sys_mknod : list Z -> Z -> Z -> M S Z;
  sys_unlink : list Z -> M S Z;
  sys_fstat : Z -> M S (Z * list Z);          (* the result, and dev, ino, type, nlink, size *)
  sys_link : list Z -> list Z -> M S Z;
  sys_mkdir : list Z -> M S Z;
  sys_chdir : list Z -> M S Z;
  sys_dup : Z -> M S Z;
  sys_getpid : M S Z;
  sys_sbrk : Z -> M S Z;
  sys_sleep : Z -> M S Z;
  sys_uptime : M S Z;
  sys_trace : Z -> M S Z;
  sys_pinfo : M S (Z * (nat -> Z * Z * Z * Z * list Z)); (* active, pid, state, pages, name of each slot *)
}.

(** A string constant. *)
Fixpoint str (s : string) : list Z :=
  match s with
  | EmptyString => []
  | String a s' => Z.of_N (Ascii.N_of_ascii a) :: str s'
  end.
Definition NL : Z := 10.

Module Ulib.

(** ** user/printf.c *)

Inductive uarg := UInt (x : Z) | ULong (x : Z) | UPtr (x : Z) | UStr (s : option (list Z)) | UChar (c : Z).

Section printf.
Context {S : Type} `{Sys S}.

Definition putc (fd c : Z) : M S unit := (sys_write fd [u8 c];; ret tt)%K.

Definition udigit (d : Z) : Z := nth (Z.to_nat d) (str "0123456789ABCDEF") 0.

(** [do { buf[i++] = digits[x % base]; } while((x /= base) != 0);], last digit
    first; 33 digits hold any 32-bit number. *)
Fixpoint udigits (fuel : nat) (x base : Z) : list Z :=
  match fuel with
  | O => []
  | Datatypes.S f => udigit (x mod base) :: (if x / base =? 0 then [] else udigits f (x / base) base)
  end.

Definition printint_buf (xx base : Z) (sgn : bool) : list Z :=
  let neg := sgn && (xx <? 0) in
  let x := u32 (if neg then - xx else xx) in
  udigits 33 x base ++ (if neg then str "-" else []).

Definition printint (fd xx base : Z) (sgn : bool) : M S unit :=
  for_each (rev (printint_buf xx base sgn)) (putc fd).

(** [digits[x >> 60]], then [x <<= 4], 16 times. *)
Fixpoint ptr_digits (k : nat) (x : Z) : list Z :=
  match k with
  | O => []
  | Datatypes.S k' => udigit (Z.shiftr x 60) :: ptr_digits k' (u64 (Z.shiftl x 4))
  end.

Definition printptr (fd x : Z) : M S unit :=
  for_each (str "0x" ++ ptr_digits 16 x) (putc fd).

(** One conversion; the arguments that are left. *)
Definition print_conv (fd c : Z) (args : list uarg) : M S (list uarg) :=
  let pct := nth 0 (str "%") 0 in
  (if c =? nth 0 (str "d") 0 then
     match args with UInt x :: r => printint fd x 10 true;; ret r | _ => ret args end
   else if c =? nth 0 (str "l") 0 then
     match args with ULong x :: r => printint fd (i32 x) 10 false;; ret r | _ => ret args end
   else if c =? nth 0 (str "x") 0 then
     match args with UInt x :: r => printint fd x 16 false;; ret r | _ => ret args end
   else if c =? nth 0 (str "p") 0 then
     match args with UPtr x :: r => printptr fd x;; ret r | _ => ret args end
   else if c =? nth 0 (str "s") 0 then
     match args with
     | UStr o :: r => for_each (match o with Some t => t | None => str "(null)" end) (putc fd);; ret r
     | _ => ret args
     end
   else if c =? nth 0 (str "c") 0 then
     match args with UChar x :: r => putc fd x;; ret r | _ => ret args end
   else if c =? pct then putc fd c;; ret args
   else putc fd pct;; putc fd c;; ret args)%K.

Fixpoint vprintf_loop (fd : Z) (fmt : list Z) (state : bool) (args : list uarg) : M S unit :=
  match fmt with
  | [] => ret tt
  | c :: fmt' =>
      (if state then
         args <- print_conv fd c args;
         vprintf_loop fd fmt' false args
       else if c =? nth 0 (str "%") 0 then vprintf_loop fd fmt' true args
       else putc fd c;; vprintf_loop fd fmt' false args)%K
  end.

Definition vprintf (fd : Z) (fmt : list Z) (args : list uarg) : M S unit := vprintf_loop fd fmt false args.
Definition fprintf (fd : Z) (fmt : list Z) (args : list uarg) : M S unit := vprintf fd fmt args.
Definition printf (fmt : list Z) (args : list uarg) : M S unit := vprintf 1 fmt args.

(** ** user/ulib.c: the functions that make system calls *)

(** [gets]: the characters read so far, and whether the loop goes on. *)
Definition gets_body (max : Z) (buf : list Z) : M S (list Z + list Z) :=
  (if Z.of_nat (length buf) + 1 <? max then
     ' (cc, c) <- sys_read 0 1;
     if cc <? 1 then ret (inr buf)
     else
       let ch := nth 0 c 0 in
       let buf := buf ++ [ch] in
       if (ch =? 10) || (ch =? 13) then ret (inr buf) else ret (inl buf)
   else ret (inr buf))%K.

Definition gets (max : Z) : M S (list Z) := loop (gets_body max) [].

Definition stat (n : list Z) : M S (Z * list Z) :=
  (fd <- sys_open n 0;
   if fd <? 0 then ret (-1, [])
   else
     r <- sys_fstat fd;
     sys_close fd;;
     ret r)%K.
End printf.

(** ** user/ulib.c: the functions on memory *)

(** [while(( *s++ = *t++) != 0);] *)
Definition strcpy (m : mem) (s t : Z) : option mem :=
  ploop (fun a : mem * Z * Z =>
    let '(m, s, t) := a in
    let c := ld8 m t in
    let m := st8 m s c in
    if negb (c =? 0) then inl (m, s + 1, t + 1) else inr m) (m, s, t).

Definition strcmp (m : mem) (p q : Z) : option Z :=
  ploop (fun a : Z * Z =>
    let '(p, q) := a in
    if negb (ld8 m p =? 0) && (ld8 m p =? ld8 m q) then inl (p + 1, q + 1)
    else inr (ld8 m p - ld8 m q)) (p, q).

Definition strlen (m : mem) (s : Z) : option Z :=
  ploop (fun n => if negb (ld8 m (s + n) =? 0) then inl (n + 1) else inr n) 0.

Fixpoint memset_loop (k : nat) (m : mem) (cdst c : Z) : mem :=
  match k with O => m | S k' => memset_loop k' (st8 m cdst c) (cdst + 1) c end.
Definition memset (m : mem) (dst c n : Z) : mem := memset_loop (Z.to_nat n) m dst c.

(** The address of [c] in the string at [s], 0 if it is not there. *)
Definition strchr (m : mem) (s c : Z) : option Z :=
  ploop (fun s => if ld8 m s =? 0 then inr 0 else if ld8 m s =? c then inr s else inl (s + 1)) s.

(** [char] is unsigned on RISC-V; [n] is an int. *)
Definition atoi (m : mem) (s : Z) : option Z :=
  ploop (fun a : Z * Z =>
    let '(s, n) := a in
    let c := ld8 m s in
    if (48 <=? c) && (c <=? 57) then inl (s + 1, i32 (n * 10 + c - 48)) else inr n) (s, 0).

(** Copies up when the source is above the destination, else down. *)
Definition memmove (m : mem) (dst src n : Z) : mem :=
  if dst <? src then Str.copy_up (Z.to_nat n) m dst src
  else Str.copy_down (Z.to_nat n) m (dst + n) (src + n).

Fixpoint memcmp_loop (k : nat) (m : mem) (p1 p2 : Z) : Z :=
  match k with
  | O => 0
  | S k' => if negb (ld8 m p1 =? ld8 m p2) then ld8 m p1 - ld8 m p2 else memcmp_loop k' m (p1 + 1) (p2 + 1)
  end.
Definition memcmp (m : mem) (s1 s2 n : Z) : Z := memcmp_loop (Z.to_nat n) m s1 s2.

Definition memcpy (m : mem) (dst src n : Z) : mem := memmove m dst src n.

End Ulib.

(** ** A system to run filters on

    Each descriptor gives back what it holds, at most one of its chunks per
    [read], and collects what is written to it.  Everything else fails. *)

Record tty := MkTty { t_in : gmap Z (list (list Z)); t_out : gmap Z (list Z) }.

Definition tty_read (fd n : Z) : M tty (Z * list Z) := fun t =>
  match default [] (t_in t !! fd) with
  | [] => Ret (0, []) t
  | c :: cs =>
      let d := take (Z.to_nat n) c in
      let rest := drop (Z.to_nat n) c in
      Ret (Z.of_nat (length d), d)
        (MkTty (<[fd := match rest with [] => cs | _ => rest :: cs end]> (t_in t)) (t_out t))
  end.
Definition tty_write (fd : Z) (d : list Z) : M tty Z := fun t =>
  Ret (Z.of_nat (length d)) (MkTty (t_in t) (<[fd := default [] (t_out t !! fd) ++ d]> (t_out t))).

#[export] Instance tty_sys : Sys tty := {|
  sys_fork := ret (-1);
  sys_exit := fun A _ => panic "exit";
  sys_wait := ret (-1);
  sys_wait_st := ret (-1, None);
  sys_pipe := ret None;
  sys_read := tty_read;
  sys_write := tty_write;
  sys_close := fun _ => ret 0;
  sys_kill := fun _ => ret (-1);
  sys_exec := fun _ _ => ret (-1);
  sys_open := fun _ _ => ret (-1);
  sys_mknod := fun _ _ _ => ret (-1);
  sys_unlink := fun _ => ret (-1);
  sys_fstat := fun _ => ret (-1, []);
  sys_link := fun _ _ => ret (-1);
  sys_mkdir := fun _ => ret (-1);
  sys_chdir := fun _ => ret (-1);
  sys_dup := fun _ => ret (-1);
  sys_getpid := ret 1;
  sys_sbrk := fun _ => ret (-1);
  sys_sleep := fun _ => ret 0;
  sys_uptime := ret 0;
  sys_trace := fun _ => ret (-1);
  sys_pinfo := ret (-1, fun _ => (0, 0, 0, 0, []));
|}.

(** What a descriptor still holds, and what has been written to one. *)
Definition pending (t : tty) (fd : Z) : list Z := concat (default [] (t_in t !! fd)).
Definition output (t : tty) (fd : Z) : list Z := default [] (t_out t !! fd).

(** A read takes a part of what is there, and nothing only at the end. *)
Lemma tty_read_spec fd n t : Forall (fun c => c <> []) (default [] (t_in t !! fd)) -> 0 < n ->
  exists d t', tty_read fd n t = Ret (Z.of_nat (length d), d) t' /\ pending t fd = d ++ pending t' fd /\
    t_out t' = t_out t /\ Z.of_nat (length d) <= n /\ (d = [] -> pending t fd = []) /\
    Forall (fun c => c <> []) (default [] (t_in t' !! fd)).
Proof.
  intros Hne Hn. unfold tty_read, pending. destruct (default [] (t_in t !! fd)) as [|c cs] eqn:E.
  { exists [], t. rewrite E. split; [done|]. split; [done|]. split; [done|]. split; [cbn; lia|done]. }
  apply Forall_cons in Hne as [Hc Hcs]. eexists _, _. split; [reflexivity|]. cbn [t_in t_out].
  rewrite lookup_insert_eq. cbn [default from_option id]. split; [|split; [done|split; [rewrite length_take; lia|split]]].
  - cbn [concat]. rewrite <- (take_drop (Z.to_nat n) c) at 1. rewrite <- app_assoc. f_equal.
    by destruct (drop (Z.to_nat n) c).
  - intros Hd. exfalso. destruct c; [done|]. by destruct (Z.to_nat n) eqn:En; [lia|].
  - destruct (drop (Z.to_nat n) c) eqn:Ed; [done|]. by constructor.
Qed.
