(* ===== verification/Grep.v ===== *)
(** * user/grep.c

    The pattern matcher and the loop that filters lines, and what patterns mean:
    [matchre] accepts a line exactly when the regular expression the pattern
    denotes matches a part of it. *)

From S2P Require Import Prelude Mem Str Usys.
Import Ulib.

Module Grep.

(** Characters with a meaning in patterns. *)
Definition CARET : Z := 94.
Definition DOLLAR : Z := 36.
Definition DOT : Z := 46.
Definition STAR : Z := 42.

(** [matchhere] with [matchstar], which only it calls, as its inner loop:
    [c*re] at the beginning of [text]. *)
Fixpoint matchhere (re : list Z) : list Z -> bool :=
  match re with
  | [] => fun _ => true
  | c :: re1 =>
      let one text :=
        match text with
        | t :: text1 => if (c =? DOT) || (c =? t) then matchhere re1 text1 else false
        | [] => false
        end in
      match re1 with
      | s :: re2 =>
          if s =? STAR then
            fix matchstar text :=
              if matchhere re2 text then true
              else match text with
                   | t :: text1 => if (t =? c) || (c =? DOT) then matchstar text1 else false
                   | [] => false
                   end
          else one
      | [] => fun text => if c =? DOLLAR then (match text with [] => true | _ => false end) else one text
      end
  end.

Definition matchstar (c : Z) (re : list Z) : list Z -> bool :=
  fix star text :=
    if matchhere re text then true
    else match text with
         | t :: text1 => if (t =? c) || (c =? DOT) then star text1 else false
         | [] => false
         end.

(** [do { if(matchhere(re, text)) return 1; } while( *text++ != 0);] *)
Fixpoint match_at (re text : list Z) : bool :=
  if matchhere re text then true
  else match text with [] => false | _ :: text1 => match_at re text1 end.

Definition matchre (re text : list Z) : bool :=
  match re with
  | c :: re1 => if c =? CARET then matchhere re1 text else match_at re text
  | [] => match_at re text
  end.

(** ** What patterns mean *)

(** A pattern is a sequence of items, with the end of the line at its end or
    not: a character or [.], or any number of them. *)
Inductive item := One (c : Z) | Many (c : Z).

Fixpoint items (re : list Z) : list item :=
  match re with
  | [] => []
  | c :: re1 =>
      match re1 with
      | s :: re2 => if s =? STAR then Many c :: items re2 else One c :: items re1
      | [] => if c =? DOLLAR then [] else [One c]
      end
  end.
Fixpoint at_end (re : list Z) : bool :=
  match re with
  | [] => false
  | c :: re1 =>
      match re1 with
      | s :: re2 => if s =? STAR then at_end re2 else at_end re1
      | [] => c =? DOLLAR
      end
  end.

Definition accepts (c t : Z) : Prop := c = DOT \/ c = t.

(** The words a sequence of items stands for. *)
Fixpoint denotes (its : list item) (w : list Z) : Prop :=
  match its with
  | [] => w = []
  | One c :: its' => exists t w', w = t :: w' /\ accepts c t /\ denotes its' w'
  | Many c :: its' => exists w1 w2, w = w1 ++ w2 /\ Forall (accepts c) w1 /\ denotes its' w2
  end.

(** [text] starts with a word of [re], or is one if [re] ends in [$]. *)
Definition starts (re text : list Z) : Prop :=
  exists w rest, text = w ++ rest /\ denotes (items re) w /\ (at_end re = true -> rest = []).

Lemma acceptsb c t : (c =? DOT) || (c =? t) = true <-> accepts c t.
Proof. unfold accepts. by rewrite orb_true_iff, !Z.eqb_eq. Qed.

Lemma matchhere_star c s re2 text : s = STAR -> matchhere (c :: s :: re2) text = matchstar c re2 text.
Proof. by intros ->. Qed.

Lemma matchhere_one c re1 text :
  (forall s re2, re1 = s :: re2 -> s <> STAR) -> (re1 = [] -> c <> DOLLAR) ->
  matchhere (c :: re1) text = match text with
    | t :: text1 => ((c =? DOT) || (c =? t)) && matchhere re1 text1 | [] => false end.
Proof.
  intros Hs Hd. destruct re1 as [|s re2].
  - cbn. rewrite (proj2 (Z.eqb_neq _ _) (Hd eq_refl)). destruct text; [done|]. by destruct (_ || _).
  - cbn. rewrite (proj2 (Z.eqb_neq _ _) (Hs s re2 eq_refl)). destruct text; [done|]. by destruct (_ || _).
Qed.

(** ** The matcher is right *)

Lemma starts_nil text : starts [] text.
Proof. by exists [], text. Qed.

Lemma starts_dollar text : starts [DOLLAR] text <-> text = [].
Proof.
  split; [|intros ->; by exists [], []]. intros (w & rest & -> & -> & Hr). cbn in Hr. by rewrite Hr.
Qed.

Lemma starts_one c re1 text :
  (forall s re2, re1 = s :: re2 -> s <> STAR) -> (re1 = [] -> c <> DOLLAR) ->
  starts (c :: re1) text <-> exists t text1, text = t :: text1 /\ accepts c t /\ starts re1 text1.
Proof.
  intros Hs Hd. assert (items (c :: re1) = One c :: items re1 /\ at_end (c :: re1) = at_end re1) as [Ei Ea].
  { destruct re1 as [|s re2]; cbn.
    - by rewrite (proj2 (Z.eqb_neq _ _) (Hd eq_refl)).
    - by rewrite (proj2 (Z.eqb_neq _ _) (Hs s re2 eq_refl)). }
  unfold starts. rewrite Ei, Ea. cbn [denotes]. split.
  - intros (w & rest & -> & (t & w' & -> & Ht & Hw) & Hr). exists t, (w' ++ rest).
    split; [done|]. split; [done|]. by exists w', rest.
  - intros (t & text1 & -> & Ht & (w & rest & -> & Hw & Hr)). exists (t :: w), rest.
    split; [done|]. split; [|done]. by exists t, w.
Qed.

Lemma starts_star c re2 text :
  starts (c :: STAR :: re2) text <->
  exists w1 text1, text = w1 ++ text1 /\ Forall (accepts c) w1 /\ starts re2 text1.
Proof.
  unfold starts. cbn [items at_end]. change (STAR =? STAR) with true. cbn [denotes]. split.
  - intros (w & rest & -> & (w1 & w2 & -> & H1 & H2) & Hr). exists w1, (w2 ++ rest).
    rewrite app_assoc. split; [done|]. split; [done|]. by exists w2, rest.
  - intros (w1 & text1 & -> & H1 & (w2 & rest & -> & H2 & Hr)). exists (w1 ++ w2), rest.
    rewrite app_assoc. split; [done|]. split; [|done]. by exists w1, w2.
Qed.

(** [matchstar] tries the rest after any number of accepted characters. *)
Lemma matchstar_spec c re text : matchstar c re text = true <->
  exists w1 text1, text = w1 ++ text1 /\ Forall (accepts c) w1 /\ matchhere re text1 = true.
Proof.
  induction text as [|t text IH]; cbn [matchstar].
  - destruct (matchhere re []) eqn:E.
    + split; [|done]. intros _. by exists [], [].
    + split; [done|]. intros (w1 & text1 & [-> ->]%eq_sym%app_nil & _ & H). congruence.
  - destruct (matchhere re (t :: text)) eqn:E.
    + split; [|done]. intros _. by exists [], (t :: text).
    + destruct ((t =? c) || (c =? DOT)) eqn:Ea.
      * rewrite IH. assert (accepts c t) as Ht.
        { unfold accepts. apply orb_true_iff in Ea. rewrite !Z.eqb_eq in Ea. intuition congruence. }
        split; [intros (w1 & text1 & -> & H1 & H2); exists (t :: w1), text1; auto|].
        intros ([|t' w1] & text1 & Et & H1 & H2); simplify_eq/=; [congruence|].
        apply Forall_cons in H1 as [_ H1]. by exists w1, text1.
      * split; [done|]. intros ([|t' w1] & text1 & Et & H1 & H2); simplify_eq/=; [congruence|].
        apply Forall_cons in H1 as [Ht _]. unfold accepts in Ht. apply orb_false_iff in Ea.
        rewrite !Z.eqb_neq in Ea. intuition congruence.
Qed.

Lemma matchhere_spec re text : matchhere re text = true <-> starts re text.
Proof.
  remember (length re) as n eqn:En. revert re text En.
  induction (lt_wf n) as [n _ IH]. intros re text ->.
  destruct re as [|c re1]; [cbn; split; [intros _; apply starts_nil|done]|].
  assert ((exists re2, re1 = STAR :: re2) \/ ~ exists re2, re1 = STAR :: re2) as [[re2 ->]|Hns].
  { destruct re1 as [|s re2]; [right; by intros [? ?]|]. destruct (decide (s = STAR)) as [->|]; [left; eauto|].
    right. intros [? ?]. congruence. }
  { rewrite matchhere_star, matchstar_spec, starts_star by done. setoid_rewrite (IH (length re2)); [done|cbn; lia|done]. }
  destruct (decide (re1 = [] /\ c = DOLLAR)) as [[-> ->]|Hnd].
  { rewrite starts_dollar. cbn. by destruct text. }
  assert (forall s re2, re1 = s :: re2 -> s <> STAR) as H1 by (intros s re2 -> ->; eauto).
  assert (re1 = [] -> c <> DOLLAR) as H2 by tauto.
  rewrite matchhere_one, starts_one by done. destruct text as [|t text1].
  - split; [done|]. by intros (? & ? & ? & _).
  - rewrite andb_true_iff, acceptsb, (IH (length re1)) by (cbn; lia || done). split.
    + intros [? ?]. by exists t, text1.
    + intros (? & ? & ? & ? & ?). by simplify_eq.
Qed.

Lemma match_at_spec re text : match_at re text = true <-> exists pre rest, text = pre ++ rest /\ starts re rest.
Proof.
  induction text as [|t text IH]; cbn [match_at].
  - destruct (matchhere re []) eqn:E.
    + split; [|done]. intros _. exists [], []. split; [done|]. by apply matchhere_spec.
    + split; [done|]. intros (pre & rest & [-> ->]%eq_sym%app_nil & H%matchhere_spec). congruence.
  - destruct (matchhere re (t :: text)) eqn:E.
    + split; [|done]. intros _. exists [], (t :: text). split; [done|]. by apply matchhere_spec.
    + rewrite IH. split; [intros (pre & rest & -> & H); by exists (t :: pre), rest|].
      intros ([|t' pre] & rest & Et & H); simplify_eq/=; [apply matchhere_spec in H; congruence|]. by exists pre, rest.
Qed.

(** C28: the matcher of grep accepts a line exactly when a part of it, the
    beginning if the pattern starts with [^], is a word of the regular
    expression the pattern stands for, ending at the end of the line if the
    pattern ends with [$]. *)
Theorem match_correct re text : matchre re text = true <->
  match re with
  | c :: re1 => if c =? CARET then starts re1 text
                else exists pre rest, text = pre ++ rest /\ starts re rest
  | [] => exists pre rest, text = pre ++ rest /\ starts re rest
  end.
Proof.
  unfold matchre. destruct re as [|c re1]; [apply match_at_spec|].
  destruct (c =? CARET); [apply matchhere_spec|apply match_at_spec].
Qed.

(** ** The filter *)

Section grep.
Context {S : Type} `{Sys S}.

(** [strchr(p, '\n')]: the line and what follows it.  A NUL ends the search. *)
Fixpoint next_line (b : list Z) : option (list Z * list Z) :=
  match b with
  | [] => None
  | c :: b' =>
      if c =? 0 then None
      else if c =? NL then Some ([], b')
      else match next_line b' with Some (l, r) => Some (c :: l, r) | None => None end
  end.

(** The inner loop: the lines that are complete; what is left of the buffer. *)
Definition grep_lines (pattern b : list Z) : M S (list Z + list Z) :=
  match next_line b with
  | Some (l, r) =>
      ((if matchre pattern l then sys_write 1 (l ++ [NL]);; ret tt else ret tt);; ret (inl r))%K
  | None => ret (inr b)
  end.

(** [buf] holds what is left from the reads before. *)
Definition grep_body (pattern : list Z) (fd : Z) (buf : list Z) : M S (list Z + unit) :=
  (' (n, d) <- sys_read fd (1024 - Z.of_nat (length buf) - 1);
   if n <=? 0 then ret (inr tt)
   else r <- loop (grep_lines pattern) (buf ++ d); ret (inl r))%K.

Definition grep (pattern : list Z) (fd : Z) : M S unit := loop (grep_body pattern fd) [].

(** One file of the command line. *)
Definition grep_file (pattern name : list Z) : M S unit :=
  (fd <- sys_open name 0;
   (if fd <? 0 then
      printf (str "grep: cannot open %s" ++ [NL]) [UStr (Some name)];;
      sys_exit 1
    else ret tt);;
   grep pattern fd;;
   sys_close fd;;
   ret tt)%K.

Definition main (argv : list (list Z)) : M S unit :=
  (match argv with
   | [] | [_] =>
       fprintf 2 (str "usage: grep pattern [file ...]" ++ [NL]) [];;
       sys_exit 1
   | [_; pattern] => grep pattern 0;; sys_exit 0
   | _ :: pattern :: files => for_each files (grep_file pattern);; sys_exit 0
   end)%K.
End grep.

(** ** What the filter prints *)

(** The complete lines of a text, without their newlines, and what follows the
    last newline. *)
Fixpoint split_lines (b : list Z) : list (list Z) * list Z :=
  match b with
  | [] => ([], [])
  | c :: b' =>
      let '(ls, r) := split_lines b' in
      if c =? NL then ([] :: ls, r)
      else match ls with [] => ([], c :: r) | l :: ls' => ((c :: l) :: ls', r) end
  end.

(** The lines the pattern selects, as they are printed. *)
Definition selected (pattern : list Z) (ls : list (list Z)) : list Z :=
  concat (map (fun l => if matchre pattern l then l ++ [NL] else []) ls).

Lemma split_lines_prefix a b : NL ∉ a ->
  split_lines (a ++ b) = let '(ls, r) := split_lines b in
    match ls with [] => ([], a ++ r) | l :: ls' => ((a ++ l) :: ls', r) end.
Proof.
  induction a as [|c a IH]; intros Ha; cbn [app split_lines].
  { by destruct (split_lines b) as [[]]. }
  apply not_elem_of_cons in Ha as [Hc Ha]. rewrite IH by done.
  rewrite (proj2 (Z.eqb_neq c NL)) by congruence. by destruct (split_lines b) as [[]].
Qed.

Lemma split_lines_none a : NL ∉ a -> split_lines a = ([], a).
Proof. intros Ha. rewrite <- (app_nil_r a) at 1. rewrite split_lines_prefix by done. cbn. by rewrite app_nil_r. Qed.

Lemma split_lines_line a b : NL ∉ a ->
  split_lines (a ++ NL :: b) = (a :: (split_lines b).1, (split_lines b).2).
Proof.
  intros Ha. rewrite split_lines_prefix by done. cbn [split_lines]. rewrite Z.eqb_refl.
  destruct (split_lines b). by rewrite app_nil_r.
Qed.

Lemma next_line_spec b : 0 ∉ b ->
  match next_line b with
  | Some (l, r) => b = l ++ NL :: r /\ NL ∉ l
  | None => NL ∉ b
  end.
Proof.
  induction b as [|c b IH]; intros H0; cbn; [apply not_elem_of_nil|].
  apply not_elem_of_cons in H0 as [Hc H0]. rewrite (proj2 (Z.eqb_neq c 0)) by congruence.
  destruct (c =? NL) eqn:E; bdestr; [subst; split; [done|apply not_elem_of_nil]|].
  specialize (IH H0). destruct (next_line b) as [[l r]|].
  - destruct IH as [-> Hl]. split; [done|]. set_solver.
  - set_solver.
Qed.

(** The inner loop prints the selected lines of the buffer and keeps the rest. *)
Lemma grep_lines_loop pattern b t : 0 ∉ b -> Z.of_nat (length b) < 2 ^ 32 ->
  exists t', loop (grep_lines pattern) b t = Ret (split_lines b).2 t' /\ t_in t' = t_in t /\
    output t' 1 = output t 1 ++ selected pattern (split_lines b).1.
Proof.
  intros H0 Hlen. assert (forall k b t, (length b < k)%nat -> 0 ∉ b -> exists t',
    iter_n k (grep_lines pattern) b t = Ret (inr (split_lines b).2) t' /\ t_in t' = t_in t /\
    output t' 1 = output t 1 ++ selected pattern (split_lines b).1) as Hit.
  { clear b t H0 Hlen. induction k as [|k IH]; intros b t Hk H0; [lia|].
    pose proof (next_line_spec b H0) as Hn. unfold grep_lines. destruct (next_line b) as [[l r]|] eqn:En.
    - destruct Hn as [-> Hl]. rewrite split_lines_line by done. cbn [fst snd].
      assert (exists t1, (if matchre pattern l then sys_write 1 (l ++ [NL]);; ret tt else ret tt)%K t = Ret tt t1 /\
        t_in t1 = t_in t /\ output t1 1 = output t 1 ++ (if matchre pattern l then l ++ [NL] else [])) as (t1 & E1 & Hi & Ho).
      { destruct (matchre pattern l); eexists; (split; [reflexivity|]); split; try done.
        - unfold output. cbn. by rewrite lookup_insert_eq.
        - by rewrite app_nil_r. }
      destruct (IH r t1) as (t2 & E2 & Hi2 & Ho2); [rewrite length_app in Hk; cbn in Hk; lia|set_solver|].
      exists t2. split; [|split; [congruence|]].
      + rewrite <- E2. apply iter_n_inl. rewrite En. by rewrite (bind_Ret _ _ _ _ _ E1).
      + rewrite Ho2, Ho. cbn. by rewrite <- app_assoc.
    - exists t. rewrite split_lines_none by done. split; [apply iter_n_inr; by rewrite En|]. split; [done|].
      cbn. by rewrite app_nil_r. }
  destruct (Hit (S (length b)) b t) as (t' & E & ?); [lia|done|]. exists t'. split; [|done].
  by apply (loop_exit (S (length b))); [lia|].
Qed.

(** Every line, and what follows the last one, fits in the buffer. *)
Definition lines_fit (b : list Z) : Prop :=
  Forall (fun l => (length l <= 1022)%nat) (split_lines b).1 /\ (length (split_lines b).2 <= 1022)%nat.

Lemma split_lines_rest b : NL ∉ (split_lines b).2.
Proof.
  induction b as [|c b IH]; cbn; [apply not_elem_of_nil|]. destruct (split_lines b) as [ls r]. cbn in IH.
  destruct (c =? NL) eqn:E; bdestr; [done|]. destruct ls; cbn; [set_solver|done].
Qed.

Lemma split_lines_app a b :
  split_lines (a ++ b) = ((split_lines a).1 ++ (split_lines ((split_lines a).2 ++ b)).1,
                          (split_lines ((split_lines a).2 ++ b)).2).
Proof.
  induction a as [|c a IH]; cbn [app split_lines]; [cbn; by destruct (split_lines b)|].
  rewrite IH. destruct (split_lines a) as [ls r]. cbn [fst snd]. destruct (c =? NL) eqn:E; [done|].
  destruct ls as [|l ls]; cbn [fst snd app]; [|done]. cbn [split_lines]. rewrite E.
  by destruct (split_lines (r ++ b)) as [[]].
Qed.

Lemma lines_fit_prefix a b : NL ∉ a -> lines_fit (a ++ b) -> (length a <= 1022)%nat.
Proof.
  intros Ha [H1 H2]. rewrite split_lines_prefix in H1, H2 by done. destruct (split_lines b) as [[|l ls] r]; cbn in *.
  - rewrite length_app in H2. lia.
  - apply Forall_cons in H1 as [H1 _]. rewrite length_app in H1. lia.
Qed.

Lemma lines_fit_rest a b : lines_fit (a ++ b) -> lines_fit ((split_lines a).2 ++ b).
Proof. intros [H1 H2]. rewrite split_lines_app in H1, H2. cbn in *. by apply Forall_app in H1 as [_ H1]. Qed.

Lemma selected_app pattern l1 l2 : selected pattern (l1 ++ l2) = selected pattern l1 ++ selected pattern l2.
Proof. unfold selected. by rewrite map_app, concat_app. Qed.

(** C29: grep prints exactly the matching lines, in order.  However the input
    arrives, if it has no NUL and no line longer than 1022 characters, [grep]
    reads all of it and writes each complete line the pattern matches, with its
    newline, and nothing else. *)
Theorem grep_correct pattern fd t : let text := pending t fd in
  Forall (fun c => c <> []) (default [] (t_in t !! fd)) -> 0 ∉ text -> lines_fit text ->
  Z.of_nat (length text) < 2 ^ 31 ->
  exists t', grep pattern fd t = Ret tt t' /\ pending t' fd = [] /\
    output t' 1 = output t 1 ++ selected pattern (split_lines text).1.
Proof.
  intros text Hne H0 Hfit Hlen. unfold grep.
  set (Q := fun (_ : unit) t' => pending t' fd = [] /\
    output t' 1 = output t 1 ++ selected pattern (split_lines text).1).
  set (I := fun n buf t1 => n = length (pending t1 fd) /\ Forall (fun c => c <> []) (default [] (t_in t1 !! fd)) /\
    (0 ∉ (buf ++ pending t1 fd)) /\ (NL ∉ buf) /\ lines_fit (buf ++ pending t1 fd) /\
    Z.of_nat (length (pending t1 fd)) < 2 ^ 31 /\
    output t1 1 ++ selected pattern (split_lines (buf ++ pending t1 fd)).1 =
    output t 1 ++ selected pattern (split_lines text).1).
  assert (runs Q (loop (grep_body pattern fd) [] t)) as HQ.
  2:{ apply runs_ret in HQ as ([] & t' & E & HQ). by exists t'. }
  apply (runs_loop Q I _ (length text)); [|split_and!; try done; apply not_elem_of_nil|lia].
  clear Hne H0 Hfit Hlen. intros n buf t1 (-> & Hne & H0 & Hnl & Hfit & Hlen & Ho).
  pose proof (lines_fit_prefix _ _ Hnl Hfit) as Hbuf. unfold grep_body.
  destruct (tty_read_spec fd (1024 - Z.of_nat (length buf) - 1) t1 Hne ltac:(lia))
    as (d & t2 & E & Hp & Hout & Hd & Hend & Hne2).
  rewrite (bind_Ret _ _ _ _ _ E). destruct (Z.of_nat (length d) <=? 0) eqn:Ez; bdestr.
  - assert (d = []) as -> by (destruct d; [done|cbn in Ez; lia]). specialize (Hend eq_refl). rewrite Hend in *.
    cbn. split; [by destruct (pending t2 fd)|]. unfold output in *. rewrite Hout.
    rewrite app_nil_r, split_lines_none in Ho by done. cbn in Ho. by rewrite app_nil_r in Ho.
  - rewrite Hp in *. rewrite length_app in Hlen. rewrite app_assoc in H0, Hfit, Ho.
    destruct (grep_lines_loop pattern (buf ++ d) t2) as (t3 & E3 & Hi3 & Ho3);
      [set_solver|rewrite length_app; lia|].
    rewrite (bind_Ret _ _ _ _ _ E3). cbn [runs ret]. exists (length (pending t3 fd)).
    assert (pending t3 fd = pending t2 fd) as Hp3 by (unfold pending; by rewrite Hi3). rewrite Hp3.
    split; [rewrite length_app; lia|]. unfold I. rewrite Hp3, Hi3. split_and!; try done.
    + assert (forall c, c ∈ (split_lines (buf ++ d)).2 -> c ∈ buf ++ d); [|set_solver].
      clear. generalize (buf ++ d). induction l as [|c l IH]; cbn; [done|]. destruct (split_lines l) as [ls r].
      cbn in IH. destruct (c =? NL); [cbn; set_solver|]. destruct ls; cbn; set_solver.
    + apply split_lines_rest.
    + by apply lines_fit_rest.
    + lia.
    + rewrite split_lines_app in Ho. cbn [fst] in Ho. rewrite selected_app in Ho. unfold output in *. by rewrite Ho3, Hout, <- app_assoc.
Qed.

Definition demo_tty : tty := MkTty {[ 0 := [str "ab"; [99; 10]; str "xyz"; [10]; str "abd"] ]} ∅.

Lemma grep_correct_witness : exists t', grep (str "b.*") 0 demo_tty = Ret tt t' /\
  pending t' 0 = [] /\ output t' 1 = str "abc" ++ [10].
Proof.
  destruct (grep_correct (str "b.*") 0 demo_tty) as (t' & E & Hp & Ho).
  - vm_compute. repeat constructor; discriminate.
  - vm_compute. intros H. repeat (apply elem_of_cons in H as [H|H]; [discriminate|]). by apply not_elem_of_nil in H.
  - split; vm_compute; [repeat constructor|]; lia.
  - by vm_compute.
  - exists t'. split; [exact E|]. split; [exact Hp|]. rewrite Ho. by vm_compute.
Defined.

End Grep.
