(* ===== verification/Sh.v ===== *)
(** * user/sh.c

    The shell: the parser of command lines, and the commands it runs.  A pointer
    into the command line is its index; the parser's state is the index [*ps].
    [panic] in the parser is the outcome [Panic]. *)

From S2P Require Import Prelude Riscv Mem Str Usys.
Import Ulib.

Module Sh.

Abbreviation MAXARGS := (10)%Z.

(** ** Commands

    A token is where it starts and where it ends in the command line. *)
Abbreviation tok := (nat * nat)%type.

Inductive cmd :=
| EXEC (argv : list tok)
| REDIR (c : cmd) (file : tok) (mode fd : Z)
| PIPE (left right : cmd)
| LIST (left right : cmd)
| BACK (c : cmd).

(** The constructors; [redircmd] and the others allocate and fill in a node.  The
    code does not check what [malloc] returns; the model has memory for every node. *)
Definition execcmd : cmd := EXEC [].
Definition redircmd (subcmd : cmd) (file : tok) (mode fd : Z) : cmd := REDIR subcmd file mode fd.
Definition pipecmd (left right : cmd) : cmd := PIPE left right.
Definition listcmd (left right : cmd) : cmd := LIST left right.
Definition backcmd (subcmd : cmd) : cmd := BACK subcmd.

(** ** Tokens *)

(** [strchr(s, c) != 0] *)
Definition among (s : list Z) (c : Z) : bool := existsb (Z.eqb c) s.
Abbreviation whitespace := [32; 9; 13; 10; 11].
Definition symbols : list Z := str "<|>&;()".
Definition chr (s : string) : Z := nth 0 (str s) 0.

(** How far [while(s < es && f( *s)) s++;] goes. *)
Fixpoint span (f : Z -> bool) (l : list Z) : nat :=
  match l with c :: l' => if f c then S (span f l') else O | [] => O end.

Definition word_char (c : Z) : bool := negb (among whitespace c) && negb (among symbols c).

Section parse.
(** The command line, up to its NUL. *)
Context (s : list Z).

Definition at_ (i : nat) : Z := nth i s 0.
Definition skip (i : nat) : nat := (i + span (among whitespace) (drop i s))%nat.

(** The token's kind and its ends. *)
Definition gettoken : M nat (Z * tok) := fun ps =>
  let q := skip ps in
  let c := at_ q in
  let '(ret, e) :=
    if c =? 0 then (c, q)
    else if among (str "|();&<") c then (c, S q)
    else if c =? chr ">" then
      if at_ (S q) =? chr ">" then (chr "+", S (S q)) else (c, S q)
    else (chr "a", (q + span word_char (drop q s))%nat) in
  Ret (ret, (q, e)) (skip e).

Definition peek (toks : list Z) : M nat bool := fun ps =>
  let i := skip ps in Ret (negb (at_ i =? 0) && among toks (at_ i)) i.

(** [parseredirs]: the redirections found, first to last. *)
Definition parseredirs_body (rs : list (tok * Z * Z)) : M nat (list (tok * Z * Z) + list (tok * Z * Z)) :=
  (b <- peek (str "<>");
   if (b : bool) then
     ' (t, _) <- gettoken;
     ' (k, file) <- gettoken;
     if negb (k =? chr "a") then panic "missing file for redirection"
     else
       ret (inl (rs ++ [if t =? chr "<" then (file, O_RDONLY, 0)
                        else if t =? chr ">" then (file, Z.lor (Z.lor O_WRONLY O_CREATE) O_TRUNC, 1)
                        else (file, Z.lor O_WRONLY O_CREATE, 1)]))
   else ret (inr rs))%K.
Definition parseredirs (rs : list (tok * Z * Z)) : M nat (list (tok * Z * Z)) := loop parseredirs_body rs.

(** Each redirection is a node around the command before it. *)
Definition redirected (c : cmd) (rs : list (tok * Z * Z)) : cmd :=
  fold_left (fun c r => let '(file, mode, fd) := r in redircmd c file mode fd) rs c.

(** The loop of [parseexec]: the arguments and the redirections so far. *)
Definition parseexec_body (a : list tok * list (tok * Z * Z))
    : M nat ((list tok * list (tok * Z * Z)) + (list tok * list (tok * Z * Z))) :=
  let '(argv, rs) := a in
  (b <- peek (str "|)&;");
   if (b : bool) then ret (inr (argv, rs))
   else
     ' (k, t) <- gettoken;
     if k =? 0 then ret (inr (argv, rs))
     else if negb (k =? chr "a") then panic "syntax"
     else
       let argv := argv ++ [t] in
       if MAXARGS <=? Z.of_nat (length argv) then panic "too many args"
       else rs <- parseredirs rs; ret (inl (argv, rs)))%K.

(** [while(peek(ps, es, "&")) { gettoken; cmd = backcmd(cmd); }] *)
Definition parse_back (c : cmd) : M nat (cmd + cmd) :=
  (b <- peek (str "&");
   if (b : bool) then gettoken;; ret (inl (backcmd c)) else ret (inr c))%K.

(** The recursive functions.  [parseblock] calls [parseline], which its callers
    pass down to it as [line]; [n] bounds the depth of the recursion. *)
Definition parseblock (line : M nat cmd) : M nat cmd :=
  (b <- peek (str "(");
   if negb b then panic "parseblock"
   else
     gettoken;;
     c <- line;
     b <- peek (str ")");
     if negb b then panic "syntax - missing )"
     else
       gettoken;;
       rs <- parseredirs [];
       ret (redirected c rs))%K.

Definition parseexec (line : M nat cmd) : M nat cmd :=
  (b <- peek (str "(");
   if (b : bool) then parseblock line
   else
     rs <- parseredirs [];
     ' (argv, rs) <- loop parseexec_body ([], rs);
     ret (redirected (EXEC argv) rs))%K.

Fixpoint parsepipe (line : M nat cmd) (n : nat) : M nat cmd :=
  match n with
  | O => nofuel
  | S n' =>
      (c <- parseexec line;
       b <- peek (str "|");
       if (b : bool) then
         gettoken;;
         r <- parsepipe line n';
         ret (pipecmd c r)
       else ret c)%K
  end.

Fixpoint parseline (n : nat) : M nat cmd :=
  match n with
  | O => nofuel
  | S n' =>
      (c <- parsepipe (parseline n') n';
       c <- loop parse_back c;
       b <- peek (str ";");
       if (b : bool) then
         gettoken;;
         r <- parseline n';
         ret (listcmd c r)
       else ret c)%K
  end.

(** The ends of all tokens of a command, in the order [nulterminate] visits them. *)
Fixpoint ends (c : cmd) : list nat :=
  match c with
  | EXEC argv => argv.*2
  | REDIR c file _ _ => ends c ++ [file.2]
  | PIPE l r => ends l ++ ends r
  | LIST l r => ends l ++ ends r
  | BACK c => ends c
  end.

(** The command line with its tokens NUL-terminated; the line ends in a NUL. *)
Definition nulterminate (c : cmd) : list Z := fold_left (fun b e => <[e := 0]> b) (ends c) (s ++ [0]).

(** Recursion this deep is enough for a line of this length. *)
Definition parse_depth : nat := (length s + 2)%nat.

(** The command of the line, and where the parser stopped. *)
Definition parse : M nat cmd :=
  (c <- parseline parse_depth;
   peek [];;
   ret c)%K.
End parse.

(** ** The shell *)

(** The C string at index [q] of a buffer. *)
Definition cstring_at (l : list Z) (q : nat) : list Z := take (span (fun c => negb (c =? 0)) (drop q l)) (drop q l).

Section shell.
Context {S : Type} `{Sys S}.

Definition panic {A} (s : string) : M S A :=
  (fprintf 2 (str "%s" ++ [NL]) [UStr (Some (str s))];;
   sys_exit 1)%K.

Definition fork1 : M S Z :=
  (pid <- sys_fork;
   if pid =? -1 then panic "fork" else ret pid)%K.

(** The command of the line [s], and the line with its tokens cut. *)
Definition parsecmd (s : list Z) : M S (list Z * cmd) :=
  match parse s 0%nat with
  | Ret c ps =>
      (if negb (Nat.eqb ps (length s)) then
         fprintf 2 (str "leftovers: %s" ++ [NL]) [UStr (Some (drop ps s))];;
         panic "syntax"
       else ret (nulterminate s c, c))%K
  | Panic msg => panic msg
  | _ => nofuel
  end.

Definition when_child (pid : Z) (m : M S unit) : M S unit := if pid =? 0 then m else ret tt.

(** The tokens of the command are in [buf].  It never returns: it ends in an
    [exit], or in an [exec]. *)
Fixpoint runcmd (buf : list Z) (c : cmd) : M S unit :=
  (match c with
   | EXEC argv =>
       match argv with
       | [] => sys_exit 1
       | (q, _) :: _ =>
           sys_exec (cstring_at buf q) (map (fun t => cstring_at buf t.1) argv);;
           fprintf 2 (str "exec %s failed" ++ [NL]) [UStr (Some (cstring_at buf q))]
       end
   | REDIR c (q, _) mode fd =>
       sys_close fd;;
       r <- sys_open (cstring_at buf q) mode;
       (if r <? 0 then
          fprintf 2 (str "open %s failed" ++ [NL]) [UStr (Some (cstring_at buf q))];;
          sys_exit 1
        else ret tt);;
       runcmd buf c
   | LIST l r =>
       pid <- fork1;
       when_child pid (runcmd buf l);;
       sys_wait;;
       runcmd buf r
   | PIPE l r =>
       p <- sys_pipe;
       match p with
       | None => panic "pipe"
       | Some (p0, p1) =>
           pid <- fork1;
           when_child pid (sys_close 1;; sys_dup p1;; sys_close p0;; sys_close p1;; runcmd buf l);;
           pid <- fork1;
           when_child pid (sys_close 0;; sys_dup p0;; sys_close p0;; sys_close p1;; runcmd buf r);;
           sys_close p0;;
           sys_close p1;;
           sys_wait;;
           sys_wait;;
           ret tt
       end
   | BACK c =>
       pid <- fork1;
       when_child pid (runcmd buf c)
   end;;
   sys_exit 0)%K.

(** The line read, [None] at the end of the input; a line with a NUL in it ends
    there. *)
Definition getcmd (nbuf : Z) : M S (option (list Z)) :=
  (fprintf 2 (str "$ ") [];;
   buf <- gets nbuf;
   ret (match cstring_at buf 0 with [] => None | l => Some l end))%K.

(** [while((fd = open("console", O_RDWR)) >= 0) { ... }] *)
Definition open_console (_ : unit) : M S (unit + unit) :=
  (fd <- sys_open (str "console") O_RDWR;
   if 0 <=? fd then
     if 3 <=? fd then sys_close fd;; ret (inr tt) else ret (inl tt)
   else ret (inr tt))%K.

(** One command. *)
Definition main_body (_ : unit) : M S (unit + unit) :=
  (l <- getcmd 100;
   match l with
   | None => ret (inr tt)
   | Some buf =>
       if (nth 0 buf 0 =? chr "c") && (nth 1 buf 0 =? chr "d") && (nth 2 buf 0 =? chr " ") then
         let buf := take (length buf - 1) buf in
         r <- sys_chdir (drop 3 buf);
         (if r <? 0 then fprintf 2 (str "cannot cd %s" ++ [NL]) [UStr (Some (drop 3 buf))] else ret tt);;
         ret (inl tt)
       else
         pid <- fork1;
         when_child pid (' (b, c) <- parsecmd buf; runcmd b c);;
         sys_wait;;
         ret (inl tt)
   end)%K.

Definition main : M S unit :=
  (loop open_console tt;;
   loop main_body tt;;
   sys_exit 0)%K.

End shell.
End Sh.
