(* ===== verification/ShSpec.v ===== *)
(** * The shell's parser ends, and its tokens are what was typed *)

From S2P Require Import Prelude Riscv Mem Str Usys Sh.
Import Ulib Sh.

(** The messages the parser can stop with. *)
Definition syntax_errors : list string :=
  ["syntax"; "missing file for redirection"; "too many args"; "syntax - missing )"].

(** The run returns what [Q] says or stops with one of these messages. *)
Definition parses {A} (Q : A -> nat -> Prop) (r : res nat A) : Prop :=
  match r with Ret a s => Q a s | Panic msg => msg ∈ syntax_errors | _ => False end.

Lemma parses_bind {A B} (Q : B -> nat -> Prop) (P : A -> nat -> Prop) (m : M nat A) (f : A -> M nat B) s :
  parses P (m s) -> (forall a s', P a s' -> parses Q (f a s')) -> parses Q (bind m f s).
Proof. unfold bind. destruct (m s); simpl; intros HP Hf; eauto; done. Qed.

Lemma parses_mono {A} (P Q : A -> nat -> Prop) r : parses P r -> (forall a s, P a s -> Q a s) -> parses Q r.
Proof. destruct r; simpl; eauto. Qed.

(** A loop whose every round moves the position [i] towards [n]. *)
Lemma parses_loop {A B} (Q : B -> nat -> Prop) (I : A -> nat -> Prop) (f : A -> M nat (A + B)) n a i :
  (forall a i, I a i -> (i <= n)%nat -> parses (fun r i' => match r with
     | inl a' => I a' i' /\ (i < i' <= n)%nat | inr b => Q b i' end) (f a i)) ->
  I a i -> (i <= n)%nat -> Z.of_nat n < 2 ^ 63 -> parses Q (loop f a i).
Proof.
  intros Hf Ha Hi Hn.
  assert (forall k a i, I a i -> (i <= n)%nat -> (n - i < k)%nat ->
    parses (fun r i' => match r with inl _ => False | inr b => Q b i' end) (iter_n k f a i)) as Hit.
  { induction k as [|k IH]; intros a' i' Ha' Hi' Hk; [lia|]. cbn [iter_n].
    eapply parses_bind; [by apply Hf|]. intros [a''|b] i'' Hr; [|done]. destruct Hr as [Ha'' ?].
    apply IH; [done|lia|lia]. }
  unfold loop. eapply parses_bind.
  - rewrite iter_p_n. apply (Hit (Pos.to_nat LOOP_FUEL) a i); [done|done|].
    assert (S n <= Pos.to_nat LOOP_FUEL)%nat by (apply fuel_ge; lia). lia.
  - by intros [a'|b] i'.
Qed.

Lemma span_le f l : (span f l <= length l)%nat.
Proof. induction l as [|c l IH]; cbn; [lia|]. destruct (f c); lia. Qed.
Lemma span_true f l i c : l !! i = Some c -> (i < span f l)%nat -> f c = true.
Proof.
  revert i; induction l as [|d l IH]; intros i Hi Hlt; [done|]. cbn in Hlt. destruct (f d) eqn:E; [|lia].
  destruct i; simplify_eq/=; [done|]. eapply IH; [done|lia].
Qed.
Lemma span_stop f l c : l !! span f l = Some c -> f c = false.
Proof. induction l as [|d l IH]; [done|]. cbn. destruct (f d) eqn:E; cbn; [done|]. by intros [= <-]. Qed.

Lemma among_elem l c : among l c = true <-> c ∈ l.
Proof.
  unfold among. rewrite existsb_exists. split.
  - intros (d & Hd%list_elem_of_In & ->%Z.eqb_eq). done.
  - intros Hc%list_elem_of_In. exists c. by rewrite Z.eqb_refl.
Qed.

Lemma symbols_cases c : c ∈ symbols -> c = chr ">" \/ among (str "|();&<") c = true.
Proof.
  revert c. apply Forall_forall. repeat constructor; by (left + right).
Qed.

#[local] Arguments skip : simpl never.
#[local] Arguments at_ : simpl never.
#[local] Arguments chr : simpl never.

Section parse.
Context (s : list Z) (H0 : 0 ∉ s) (Hlen : Z.of_nat (length s) < 2 ^ 31).

Lemma at_lt i : at_ s i <> 0 -> (i < length s)%nat.
Proof. unfold at_. intros H. destruct (decide (i < length s)%nat); [done|]. by rewrite nth_overflow in H by lia. Qed.

Lemma at_lookup i : (i < length s)%nat -> s !! i = Some (at_ s i) /\ at_ s i <> 0.
Proof.
  intros Hi. destruct (lookup_lt_is_Some_2 s i Hi) as [c Hc]. unfold at_. rewrite (nth_lookup_Some _ _ _ _ Hc).
  split; [done|]. intros ->. by apply H0, (list_elem_of_lookup_2 s i).
Qed.

Lemma skip_bounds i : (i <= length s)%nat -> (i <= skip s i <= length s)%nat.
Proof. intros Hi. unfold skip. pose proof (span_le (among whitespace) (drop i s)) as H. rewrite length_drop in H. lia. Qed.

Lemma skip_stop i : (skip s i < length s)%nat -> among whitespace (at_ s (skip s i)) = false.
Proof.
  intros Hi. destruct (at_lookup _ Hi) as [Hc _]. unfold skip in Hc at 1. rewrite <- lookup_drop in Hc.
  by apply span_stop in Hc.
Qed.

(** A word of the command line: characters of words, as many as there are. *)
Definition tok_ok (t : tok) : Prop := let '(q, e) := t in
  (q < e <= length s)%nat /\ (forall i, (q <= i < e)%nat -> word_char (at_ s i) = true) /\
  (e = length s \/ word_char (at_ s e) = false).

Lemma word_span q : (q < length s)%nat -> word_char (at_ s q) = true ->
  tok_ok (q, (q + span word_char (drop q s))%nat).
Proof.
  intros Hq Hw. set (n := span word_char (drop q s)).
  assert (n <= length s - q)%nat as Hn by (unfold n; rewrite <- length_drop; apply span_le).
  assert (n <> 0)%nat as Hn0.
  { unfold n. destruct (at_lookup q Hq) as [Hc _]. rewrite (drop_S _ _ _ Hc). cbn. by rewrite Hw. }
  split; [lia|]. split.
  - intros i Hi. destruct (at_lookup i ltac:(lia)) as [Hc _].
    apply (span_true word_char (drop q s) (i - q)); [rewrite lookup_drop|fold n; lia].
    by replace (q + (i - q))%nat with i by lia.
  - destruct (decide (q + n < length s)%nat) as [Hlt|]; [right|left; lia].
    destruct (at_lookup _ Hlt) as [Hc _]. rewrite <- lookup_drop in Hc. by apply span_stop in Hc.
Qed.

Lemma gettoken_spec i : (i <= length s)%nat ->
  parses (fun r i' => let '(k, t) := r in (i <= i' <= length s)%nat /\ (k <> 0 -> (i < i')%nat) /\
    (k = chr "a" -> tok_ok t)) (gettoken s i).
Proof using H0.
  intros Hi. pose proof (skip_bounds i Hi) as Hs. unfold gettoken. set (q := skip s i) in *.
  destruct (at_ s q =? 0) eqn:E0; bdestr.
  { cbn. pose proof (skip_bounds q ltac:(lia)). rewrite E0. split; [lia|done]. }
  pose proof (at_lt q E0) as Hq. pose proof (skip_stop i Hq) as Hw. fold q in Hw.
  destruct (among (str "|();&<") (at_ s q)) eqn:E1.
  { cbn. pose proof (skip_bounds (S q) ltac:(lia)). split; [lia|]. split; [lia|].
    intros E. rewrite E in E1. done. }
  destruct (at_ s q =? chr ">") eqn:E2; bdestr.
  { destruct (at_ s (S q) =? chr ">") eqn:E3; bdestr; cbn.
    - assert (S q < length s)%nat by (apply at_lt; rewrite E3; done).
      pose proof (skip_bounds (S (S q)) ltac:(lia)). split; [lia|]. split; [lia|done].
    - pose proof (skip_bounds (S q) ltac:(lia)). split; [lia|]. split; [lia|]. rewrite E2. intros E. by vm_compute in E. }
  assert (word_char (at_ s q) = true) as Hwc.
  { unfold word_char. rewrite Hw. cbn [negb andb]. destruct (among symbols (at_ s q)) eqn:Es; [|done].
    apply among_elem, symbols_cases in Es as [Es|Es]; congruence. }
  pose proof (word_span q Hq Hwc) as Ht. pose proof Ht as [Hb _].
  cbn. pose proof (skip_bounds (q + span word_char (drop q s)) ltac:(lia)). split; [lia|]. split; [lia|done].
Qed.

Lemma skip_idem i : (i <= length s)%nat -> skip s (skip s i) = skip s i.
Proof using H0.
  intros Hi. pose proof (skip_bounds i Hi) as Hs. set (j := skip s i) in *. unfold skip at 1.
  destruct (decide (j < length s)%nat) as [Hj|Hj].
  - destruct (at_lookup j Hj) as [Hc _]. rewrite (drop_S _ _ _ Hc). cbn [span].
    pose proof (skip_stop i Hj) as Hw. fold j in Hw. rewrite Hw. lia.
  - rewrite drop_ge by lia. cbn. lia.
Qed.

Lemma peek_spec toks i : (i <= length s)%nat ->
  parses (fun (b : bool) i' => (i <= i' <= length s)%nat /\ (b = true -> at_ s (skip s i') <> 0)) (peek s toks i).
Proof using H0.
  intros Hi. pose proof (skip_bounds i Hi) as Hs. cbn. rewrite skip_idem by done. split; [lia|].
  intros [E _]%andb_prop. bdestr. done.
Qed.

Lemma gettoken_kind i : at_ s (skip s i) <> 0 -> parses (fun r _ => r.1 <> 0) (gettoken s i).
Proof.
  intros Hc. unfold gettoken. rewrite (proj2 (Z.eqb_neq _ _) Hc).
  destruct (among (str "|();&<") _); [done|]. destruct (_ =? chr ">"); [destruct (_ =? chr ">")|]; done.
Qed.

Lemma parses_and {A} (P Q : A -> nat -> Prop) r : parses P r -> parses Q r -> parses (fun a i => P a i /\ Q a i) r.
Proof. by destruct r. Qed.

(** After a [peek] that found something, the token is consumed. *)
Lemma gettoken_moves i : (i <= length s)%nat -> at_ s (skip s i) <> 0 ->
  parses (fun _ i' => (i < i' <= length s)%nat) (gettoken s i).
Proof using H0.
  intros Hi Hc. eapply parses_mono; [apply parses_and; [by apply gettoken_spec|by apply gettoken_kind]|].
  intros [k t] i' [(H1 & H2 & _) H3]. specialize (H2 H3). lia.
Qed.

Lemma parseredirs_spec rs i : (i <= length s)%nat -> Forall (fun r => tok_ok r.1.1) rs ->
  parses (fun rs' i' => (i <= i' <= length s)%nat /\ Forall (fun r => tok_ok r.1.1) rs') (parseredirs s rs i).
Proof using H0 Hlen.
  intros Hi Hrs. unfold parseredirs. set (j := i) at 2.
  apply (parses_loop _ (fun rs i' => (j <= i' <= length s)%nat /\ Forall (fun r => tok_ok r.1.1) rs) _ (length s));
    [|by split; [unfold j; lia|]|done|lia].
  intros rs1 i1 [Hj Hr1] Hi1. unfold parseredirs_body. eapply parses_bind; [by apply peek_spec|].
  intros b i2 [Hi2 Hb]. destruct b; [|by split; [lia|]]. eapply parses_bind; [apply gettoken_moves; [lia|auto]|].
  intros [t u] i3 Hi3. eapply parses_bind; [apply gettoken_spec; lia|]. intros [k file] i4 (Hi4 & _ & Hf).
  destruct (k =? chr "a") eqn:Ek; bdestr; cbn [negb]; [|cbn; set_solver].
  split; [split; [lia|]|lia]. apply Forall_app. split; [done|]. apply Forall_singleton.
  repeat case_match; by apply Hf.
Qed.

Lemma parseexec_loop rs i : (i <= length s)%nat -> Forall (fun r => tok_ok r.1.1) rs ->
  parses (fun a i' => (i <= i' <= length s)%nat /\ Forall tok_ok a.1 /\ Forall (fun r => tok_ok r.1.1) a.2)
    (loop (parseexec_body s) ([], rs) i).
Proof using H0 Hlen.
  intros Hi Hrs. set (j := i) at 1.
  apply (parses_loop _ (fun a i' => (j <= i' <= length s)%nat /\ Forall tok_ok a.1 /\ Forall (fun r => tok_ok r.1.1) a.2)
    _ (length s)); [|by split; [unfold j; lia|split; [constructor|]]|done|lia].
  intros [argv rs1] i1 (Hj & Ha & Hr1) Hi1. cbn [fst snd] in *. unfold parseexec_body.
  eapply parses_bind; [by apply peek_spec|]. intros b i2 [Hi2 _]. destruct b; [by split; [lia|]|].
  eapply parses_bind; [apply gettoken_spec; lia|]. intros [k t] i3 (Hi3 & Hk & Ht).
  destruct (k =? 0) eqn:E0; bdestr; [by split; [lia|]|]. specialize (Hk E0).
  destruct (k =? chr "a") eqn:Ek; bdestr; cbn [negb]; [|cbn; set_solver].
  destruct (MAXARGS <=? _); [cbn; set_solver|].
  eapply parses_bind; [apply parseredirs_spec; [lia|done]|]. intros rs2 i4 [Hi4 Hr2].
  split; [split; [lia|]|lia]. cbn. split; [|done]. apply Forall_app. split; [done|]. by apply Forall_singleton, Ht.
Qed.

(** The tokens of a command. *)
Fixpoint toks (c : cmd) : list tok :=
  match c with
  | EXEC argv => argv
  | REDIR c file _ _ => toks c ++ [file]
  | PIPE l r => toks l ++ toks r
  | LIST l r => toks l ++ toks r
  | BACK c => toks c
  end.

Lemma redirected_ok c rs : Forall tok_ok (toks c) -> Forall (fun r => tok_ok r.1.1) rs ->
  Forall tok_ok (toks (redirected c rs)).
Proof.
  intros Hc Hrs. revert c Hc; induction Hrs as [|[[file mode] fd] rs Hr Hrs IH]; intros c Hc; [done|].
  cbn. apply IH. cbn. apply Forall_app. split; [done|]. by apply Forall_singleton.
Qed.

Definition parsed (i : nat) (c : cmd) (i' : nat) : Prop := (i <= i' <= length s)%nat /\ Forall tok_ok (toks c).

Lemma parse_back_loop c i : (i <= length s)%nat -> Forall tok_ok (toks c) -> parses (parsed i) (loop (parse_back s) c i).
Proof using H0 Hlen.
  intros Hi Hc. set (j := i) at 1. apply (parses_loop _ (fun c i' => parsed j c i') _ (length s));
    [|by split; [unfold j; lia|]|done|lia].
  intros c1 i1 [Hj Hc1] Hi1. unfold parse_back. eapply parses_bind; [by apply peek_spec|].
  intros b i2 [Hi2 Hb]. destruct b; [|by split; [lia|]]. eapply parses_bind; [apply gettoken_moves; [lia|auto]|].
  intros tk i3 Hi3; cbn beta in Hi3. by split; [split; [lia|]|lia].
Qed.

(** A parser of lines that is right from [i] on. *)
Definition parses_from (i : nat) (line : M nat cmd) : Prop :=
  forall j, (i <= j <= length s)%nat -> parses (parsed j) (line j).

Lemma parseblock_spec line i : (i <= length s)%nat -> at_ s (skip s i) = chr "(" ->
  parses_from (S i) line -> parses (parsed i) (parseblock s line i).
Proof using H0 Hlen.
  intros Hi Hc Hl. unfold parseblock, bind at 1. cbn [peek bindr]. rewrite Hc. cbn [negb andb among existsb].
  change (negb (chr "(" =? 0) && among (str "(") (chr "(")) with true. cbn [negb].
  pose proof (skip_bounds i Hi) as Hs.
  eapply parses_bind; [apply gettoken_moves; [lia|rewrite skip_idem, Hc by done; done]|]. intros tk i1 Hi1; cbn beta in Hi1.
  eapply parses_bind; [apply Hl; lia|]. intros c i2 [Hi2 Hcok].
  eapply parses_bind; [apply peek_spec; lia|]. intros b i3 [Hi3 Hb]. destruct b; cbn [negb]; [|cbn; set_solver].
  eapply parses_bind; [apply gettoken_moves; [lia|auto]|]. intros tk2 i4 Hi4; cbn beta in Hi4.
  eapply parses_bind; [apply parseredirs_spec; [lia|constructor]|]. intros rs i5 [Hi5 Hrs].
  split; [lia|]. by apply redirected_ok.
Qed.

Lemma parseexec_spec line i : (i <= length s)%nat -> parses_from (S i) line ->
  parses (parsed i) (parseexec s line i).
Proof using H0 Hlen.
  intros Hi Hl. unfold parseexec, bind at 1. cbn [peek bindr]. pose proof (skip_bounds i Hi) as Hs.
  destruct (_ && _) eqn:Eb.
  - apply andb_prop in Eb as [_ Eb]. apply among_elem, list_elem_of_singleton in Eb.
    eapply parses_mono; [apply parseblock_spec; [lia|by rewrite skip_idem|]|].
    + intros j Hj. apply Hl. lia.
    + intros c i' [? ?]. by split; [lia|].
  - eapply parses_bind; [apply parseredirs_spec; [lia|constructor]|]. intros rs i1 [Hi1 Hrs].
    eapply parses_bind; [apply parseexec_loop; [lia|done]|]. intros [argv rs'] i2 (Hi2 & Ha & Hr).
    split; [lia|]. by apply redirected_ok.
Qed.

(** The recursion is never deeper than one call for each character left. *)
Lemma parsepipe_spec line n i : (i <= length s)%nat -> (length s - i + 1 <= n)%nat -> parses_from (S i) line ->
  parses (parsed i) (parsepipe s line n i).
Proof using H0 Hlen.
  revert i; induction n as [|n IH]; intros i Hi Hn Hl; [lia|]. cbn [parsepipe].
  eapply parses_bind; [by apply parseexec_spec|]. intros c i1 [Hi1 Hc].
  eapply parses_bind; [apply peek_spec; lia|]. intros b i3 [Hi3 Hb]. destruct b; [|by split; [lia|]].
  eapply parses_bind; [apply gettoken_moves; [lia|auto]|]. intros tk i4 Hi4; cbn beta in Hi4.
  eapply parses_bind; [apply IH; [lia|lia|intros j Hj; apply Hl; lia]|].
  intros r i5 [Hi5 Hr]. split; [lia|]. cbn. by apply Forall_app.
Qed.

Lemma parse_spec n i : (i <= length s)%nat -> (length s - i + 2 <= n)%nat -> parses (parsed i) (parseline s n i).
Proof using H0 Hlen.
  revert i; induction n as [|n IH]; intros i Hi Hn; [lia|]. cbn [parseline].
  eapply parses_bind; [apply parsepipe_spec; [lia|lia|intros j Hj; apply IH; lia]|]. intros c i1 [Hi1 Hc].
  eapply parses_bind; [apply parse_back_loop; [lia|done]|]. intros c' i2 [Hi2 Hc'].
  eapply parses_bind; [apply peek_spec; lia|]. intros b i3 [Hi3 Hb]. destruct b; [|by split; [lia|]].
  eapply parses_bind; [apply gettoken_moves; [lia|auto]|]. intros tk i4 Hi4; cbn beta in Hi4.
  eapply parses_bind; [apply IH; lia|]. intros r i5 [Hi5 Hr]. split; [lia|]. cbn. by apply Forall_app.
Qed.

(** [nulterminate] changes the line only where tokens end. *)
Lemma nul_lookup es b i : (fold_left (fun b e => <[e := 0]> b) es b : list Z) !! i =
  if decide (i ∈ es /\ i < length b)%nat then Some 0 else b !! i.
Proof.
  revert b; induction es as [|e es IH]; intros b; cbn [fold_left].
  { destruct (decide _) as [[?%elem_of_nil _]|]; done. }
  rewrite IH, length_insert. destruct (decide (e = i)) as [->|He].
  - destruct (decide (i < length b)%nat) as [Hb|Hb].
    + rewrite list_lookup_insert_eq by done. destruct (decide _) as [_|]; destruct (decide _) as [_|Hn]; try done;
        exfalso; apply Hn; set_solver.
    + rewrite list_insert_ge by lia. do 2 (destruct (decide _) as [[? ?]|]; [lia|]). done.
  - rewrite list_lookup_insert_ne by done.
    destruct (decide (i ∈ es /\ _)) as [[H1 H2]|H1]; destruct (decide (i ∈ e :: es /\ _)) as [[H3 H4]|H3]; try done; set_solver.
Qed.

Lemma ends_toks c : ends c = (toks c).*2.
Proof. induction c as [|c IH| | |]; cbn [ends toks]; rewrite ?fmap_app; rewrite ?IH; try congruence; done. Qed.

Lemma span_exact f l r n c : length l = n -> Forall (fun x => f x = true) l -> f c = false -> span f (l ++ c :: r) = n.
Proof. intros <- Hl Hc. induction Hl as [|x l Hx Hl IH]; cbn; [by rewrite Hc|]. by rewrite Hx, IH. Qed.

Lemma nulterminate_tok c q e : Forall tok_ok (toks c) -> (q, e) ∈ toks c ->
  cstring_at (nulterminate s c) q = take (e - q) (drop q s).
Proof using H0 Hlen.
  intros Hc Hin. rewrite Forall_forall in Hc. destruct (Hc _ Hin) as (Hqe & Hw & _).
  assert (forall i, (q <= i < e)%nat -> nulterminate s c !! i = Some (at_ s i)) as Hbody.
  { intros i Hi. unfold nulterminate. rewrite nul_lookup. destruct (decide _) as [[Hend _]|_].
    - rewrite ends_toks in Hend. apply list_elem_of_fmap in Hend as ([q' e'] & -> & Ht).
      destruct (Hc _ Ht) as (_ & _ & [E|E]); cbn in *; [lia|]. rewrite Hw in E by lia. done.
    - rewrite lookup_app_l by lia. apply at_lookup. lia. }
  assert (nulterminate s c !! e = Some 0) as Hend.
  { unfold nulterminate. rewrite nul_lookup. rewrite decide_True; [done|].
    rewrite length_app. split; [|cbn; lia]. rewrite ends_toks. by apply (list_elem_of_fmap_2' snd _ (q, e)). }
  set (w := take (e - q) (drop q s)).
  assert (length w = e - q)%nat as Hlw by (unfold w; rewrite length_take, length_drop; lia).
  assert (drop q (nulterminate s c) = w ++ 0 :: drop (S e) (nulterminate s c)) as Hd.
  { rewrite <- (take_drop (e - q) (drop q (nulterminate s c))), drop_drop. f_equal.
    - apply list_eq_same_length with (n := (e - q)%nat); [done| |].
      + pose proof (lookup_lt_Some _ _ _ Hend). rewrite length_take, length_drop. lia.
      + intros i x y Hi Hx Hy. unfold w in Hy. rewrite lookup_take_lt, lookup_drop in Hx, Hy by lia.
        rewrite Hbody in Hx by lia. rewrite (proj1 (at_lookup (q + i) ltac:(lia))) in Hy. congruence.
    - replace (q + (e - q))%nat with e by lia. by apply drop_S. }
  unfold cstring_at. rewrite Hd, (span_exact _ _ _ (e - q) 0); [rewrite <- Hlw; apply take_app_length|done| |done].
  apply Forall_forall. intros x Hx. apply negb_true_iff, Z.eqb_neq. intros ->. apply H0.
  unfold w in Hx. apply elem_of_take in Hx as (i & Hi & _). rewrite lookup_drop in Hi.
  by apply (list_elem_of_lookup_2 s (q + i)).
Qed.
End parse.

(** C30: the shell's parser is total.  On any command line (no NUL before its
    end, shorter than 2^31 bytes) [parsecmd] either returns, having read the
    whole line and made no system call, or prints one of its four syntax
    messages and exits, after printing what is left of the line if a command
    ended before the line did: its loops and its recursion always end, within
    the depth the length of the line gives, and [parseblock] is never called
    without a parenthesis.  Every token of the command returned is a longest run
    of word characters of the line, and in the line [nulterminate] leaves, the C
    string at the token is the token: cutting one token never cuts another. *)
Theorem parsecmd_correct {W} `{Sys W} (st : W) s : 0 ∉ s -> Z.of_nat (length s) < 2 ^ 31 ->
  (exists c, parsecmd s st = Ret (nulterminate s c, c) st /\ parse s 0%nat = Ret c (length s) /\
     forall q e, (q, e) ∈ toks c -> tok_ok s (q, e) /\
       cstring_at (nulterminate s c) q = take (e - q) (drop q s)) \/
  (exists msg, msg ∈ syntax_errors /\ parse s 0%nat = Panic msg /\ parsecmd s st = panic msg st) \/
  (exists c i, (i < length s)%nat /\ parse s 0%nat = Ret c i /\ parsecmd s st =
     (fprintf 2 (str "leftovers: %s" ++ [NL]) [UStr (Some (drop i s))];; panic "syntax")%K st).
Proof.
  intros H0 Hlen. assert (parses (parsed s 0) (parse s 0%nat)) as Hp.
  { unfold parse. eapply parses_bind; [apply parse_spec; [done|done|lia|unfold parse_depth; lia]|].
    intros c i [Hi Hc]. eapply parses_bind; [by apply peek_spec; [|lia]|]. intros b i' [Hi' _]. by split; [lia|]. }
  unfold parsecmd. destruct (parse s 0%nat) as [c i|msg| |]; [|by right; left; exists msg|done|done].
  destruct Hp as [Hi Hc]. destruct (Nat.eqb_spec i (length s)) as [->|Hne]; cbn [negb].
  - left. exists c. split; [done|]. split; [done|]. intros q e Hin. split.
    + rewrite Forall_forall in Hc. exact (Hc _ Hin).
    + by apply nulterminate_tok.
  - right; right. exists c, i. split; [lia|done].
Qed.

Definition demo_line : list Z := str "(cat < in | grep x>>out;echo a b)&".
Definition demo_cmd : cmd :=
  BACK (LIST (PIPE (REDIR (EXEC [(1, 4)]) (7, 9) 0 0) (REDIR (EXEC [(12, 16); (17, 18)]) (20, 23) 0x201 1))
             (EXEC [(24, 28); (29, 30); (31, 32)]))%nat.

Lemma parsecmd_correct_witness :
  parse demo_line 0%nat = Ret demo_cmd (length demo_line) /\
  cstring_at (nulterminate demo_line demo_cmd) 20 = str "out".
Proof.
  assert (parse demo_line 0%nat = Ret demo_cmd (length demo_line)) as E by (vm_compute; reflexivity).
  split; [exact E|].
  destruct (parsecmd_correct (MkTty ∅ ∅) demo_line) as [(c & _ & E' & H)|[(msg & _ & E' & _)|(c & i & Hi & E' & _)]];
    [apply (bool_decide_unpack _); vm_compute; exact I|vm_compute; reflexivity| | |].
  - rewrite E in E'. injection E' as <-.
    refine (eq_trans (proj2 (H 20%nat 23%nat _)) _); [apply (bool_decide_unpack _); vm_compute; exact I|].
    vm_compute. reflexivity.
  - rewrite E in E'. discriminate E'.
  - rewrite E in E'. injection E' as _ <-. vm_compute in Hi. lia.
Defined.
