(* ===== verification/UserProgs.v ===== *)
(** * The other user programs

    user/cat.c, wc.c, echo.c, kill.c, ln.c, mkdir.c, rm.c, sleep.c, zombie.c,
    trace.c, pingpong.c, init.c, ps.c, ls.c, stressfs.c, forktest.c and
    pstest.c, each a Module, over the system calls of [Sys].  [argv] holds the
    arguments, [argv[0]] first.  What a program reads from memory it has not
    written is a parameter. *)

From S2P Require Import Prelude Riscv Mem Str Usys Blk.
Import Ulib.

(** [argv[i]] *)
Definition arg (argv : list (list Z)) (i : nat) : list Z := nth i argv [].

(** [atoi] on the characters of a string. *)
Fixpoint atoi_chars (n : Z) (s : list Z) : Z :=
  match s with
  | c :: s' => if (48 <=? c) && (c <=? 57) then atoi_chars (i32 (n * 10 + c - 48)) s' else n
  | [] => n
  end.
Definition atoi (s : list Z) : Z := atoi_chars 0 s.

Section programs.
Context {S : Type} `{Sys S}.

(** A message on standard error, and [exit(1)]. *)
Definition fail {A} (fmt : string) (args : list uarg) : M S A :=
  (fprintf 2 (str fmt ++ [NL]) args;; sys_exit 1)%K.

End programs.

Module Cat.
Section cat.
Context {S : Type} `{Sys S}.

Definition cat_body (fd : Z) (_ : unit) : M S (unit + unit) :=
  (' (n, buf) <- sys_read fd 512;
   if 0 <? n then
     w <- sys_write 1 buf;
     if negb (w =? n) then fail "cat: write error" [] else ret (inl tt)
   else if n <? 0 then fail "cat: read error" []
   else ret (inr tt))%K.
Definition cat (fd : Z) : M S unit := loop (cat_body fd) tt.

Definition main (argv : list (list Z)) : M S unit :=
  (if Z.of_nat (length argv) <=? 1 then cat 0;; sys_exit 0
   else
     for_each (drop 1 argv) (fun a =>
       fd <- sys_open a 0;
       (if fd <? 0 then fail "cat: cannot open %s" [UStr (Some a)] else ret tt);;
       cat fd;;
       sys_close fd;;
       ret tt);;
     sys_exit 0)%K.
End cat.
End Cat.

Module Wc.
Section wc.
Context {S : Type} `{Sys S}.

Record counts := MkCounts { l : Z; w : Z; c : Z; inword : bool }.

Definition white (x : Z) : bool := existsb (Z.eqb x) [32; 13; 9; 10; 11].

(** One character; the counters are ints. *)
Definition count (a : counts) (x : Z) : counts :=
  let c' := i32 (c a + 1) in
  let l' := if x =? 10 then i32 (l a + 1) else l a in
  if white x then MkCounts l' (w a) c' false
  else if negb (inword a) then MkCounts l' (i32 (w a + 1)) c' true
  else MkCounts l' (w a) c' (inword a).

Definition wc_body (fd : Z) (a : counts) : M S (counts + counts) :=
  (' (n, buf) <- sys_read fd 512;
   if 0 <? n then ret (inl (fold_left count buf a))
   else if n <? 0 then printf (str "wc: read error" ++ [NL]) [];; sys_exit 1
   else ret (inr a))%K.

Definition wc (fd : Z) (name : list Z) : M S unit :=
  (a <- loop (wc_body fd) (MkCounts 0 0 0 false);
   printf (str "%d %d %d %s" ++ [NL]) [UInt (l a); UInt (w a); UInt (c a); UStr (Some name)])%K.

Definition main (argv : list (list Z)) : M S unit :=
  (if Z.of_nat (length argv) <=? 1 then wc 0 [];; sys_exit 0
   else
     for_each (drop 1 argv) (fun a =>
       fd <- sys_open a 0;
       (if fd <? 0 then printf (str "wc: cannot open %s" ++ [NL]) [UStr (Some a)];; sys_exit 1 else ret tt);;
       wc fd a;;
       sys_close fd;;
       ret tt);;
     sys_exit 0)%K.
End wc.
End Wc.

Module Small.
Section small.
Context {S : Type} `{Sys S}.

(** echo.c *)
Fixpoint echo_args (args : list (list Z)) : M S unit :=
  match args with
  | [] => ret tt
  | a :: rest =>
      (sys_write 1 a;;
       sys_write 1 (match rest with [] => [NL] | _ => str " " end);;
       echo_args rest)%K
  end.
Definition echo_main (argv : list (list Z)) : M S unit := (echo_args (drop 1 argv);; sys_exit 0)%K.

(** kill.c *)
Definition kill_main (argv : list (list Z)) : M S unit :=
  ((if Z.of_nat (length argv) <? 2 then fail "usage: kill pid..." [] else ret tt);;
   for_each (drop 1 argv) (fun a => sys_kill (atoi a);; ret tt);;
   sys_exit 0)%K.

(** ln.c *)
Definition ln_main (argv : list (list Z)) : M S unit :=
  ((if negb (Z.of_nat (length argv) =? 3) then fail "Usage: ln old new" [] else ret tt);;
   r <- sys_link (arg argv 1) (arg argv 2);
   (if r <? 0 then
      fprintf 2 (str "link %s %s: failed" ++ [NL]) [UStr (Some (arg argv 1)); UStr (Some (arg argv 2))]
    else ret tt);;
   sys_exit 0)%K.

(** mkdir.c *)
Definition mkdir_main (argv : list (list Z)) : M S unit :=
  ((if Z.of_nat (length argv) <? 2 then fail "Usage: mkdir files..." [] else ret tt);;
   for_first (drop 1 argv) (fun a =>
     r <- sys_mkdir a;
     if r <? 0 then
       fprintf 2 (str "mkdir: %s failed to create" ++ [NL]) [UStr (Some a)];; ret (Some tt)
     else ret None);;
   sys_exit 0)%K.

(** rm.c *)
Definition rm_main (argv : list (list Z)) : M S unit :=
  ((if Z.of_nat (length argv) <? 2 then fail "Usage: rm files..." [] else ret tt);;
   for_first (drop 1 argv) (fun a =>
     r <- sys_unlink a;
     if r <? 0 then
       fprintf 2 (str "rm: %s failed to delete" ++ [NL]) [UStr (Some a)];; ret (Some tt)
     else ret None);;
   sys_exit 0)%K.

(** sleep.c *)
Definition sleep_main (argv : list (list Z)) : M S unit :=
  ((if negb (Z.of_nat (length argv) =? 2) then printf (str "./sleep num" ++ [NL]) [];; sys_exit 0 else ret tt);;
   sys_sleep (atoi (arg argv 1));;
   sys_exit 0)%K.

(** zombie.c *)
Definition zombie_main : M S unit :=
  (pid <- sys_fork;
   (if 0 <? pid then sys_sleep 5;; ret tt else ret tt);;
   sys_exit 0)%K.

(** trace.c; [stale] is what the slots of [nargv] behind the arguments hold, up
    to the first null pointer: the program does not end the array with one. *)
Definition trace_main (stale : list (list Z)) (argv : list (list Z)) : M S unit :=
  let d := nth 0 (arg argv 1) 0 in
  ((if (Z.of_nat (length argv) <? 3) || (d <? 48) || (57 <? d) then
      fail "Usage: %s mask command" [UStr (Some (arg argv 0))]
    else ret tt);;
   r <- sys_trace (atoi (arg argv 1));
   (if r <? 0 then fail "%s, trace failed" [UStr (Some (arg argv 0))] else ret tt);;
   sys_exec (arg argv 2) (drop 2 (take (Z.to_nat MAXARG) argv) ++ stale);;
   sys_exit 0)%K.

(** pingpong.c; [fd0] and [buf0] are what [fd] and [buf] hold before the calls
    that fill them. *)
Definition pingpong_main (fd0 : Z * Z) (buf0 : list Z) : M S unit :=
  (p <- sys_pipe;
   let '(r, w) := default fd0 p in
   pid <- sys_fork;
   if pid =? 0 then
     ' (_, d) <- sys_read r 512;
     sys_close r;;
     me <- sys_getpid;
     printf (str "%d: received ping" ++ [NL]) [UInt me];;
     sys_write w (take 2 (d ++ drop (length d) buf0));;
     sys_close w;;
     sys_exit 0
   else if 0 <? pid then
     sys_write w (str "a" ++ [NL]);;
     sys_close w;;
     sys_wait;;
     sys_read r 512;;
     me <- sys_getpid;
     printf (str "%d: received pong" ++ [NL]) [UInt me];;
     sys_close r;;
     sys_exit 0
   else sys_exit 0)%K.

End small.
End Small.

Module Init.
Section init.
Context {S : Type} `{Sys S}.

Abbreviation CONSOLE := (1)%Z.

(** Wait for children until the shell is the one that has exited. *)
Definition wait_shell (pid : Z) (_ : unit) : M S (unit + unit) :=
  (wpid <- sys_wait;
   if wpid =? pid then ret (inr tt)
   else if wpid <? 0 then printf (str "init: wait returned an error" ++ [NL]) [];; sys_exit 1
   else ret (inl tt))%K.

(** One shell. *)
Definition main_body (_ : unit) : M S (unit + unit) :=
  (printf (str "init: starting sh" ++ [NL]) [];;
   pid <- sys_fork;
   (if pid <? 0 then printf (str "init: fork failed" ++ [NL]) [];; sys_exit 1 else ret tt);;
   (if pid =? 0 then
      sys_exec (str "sh") [str "sh"];;
      printf (str "init: exec sh failed" ++ [NL]) [];;
      sys_exit 1
    else ret tt);;
   loop (wait_shell pid) tt;;
   ret (inl tt))%K.

Definition main : M S unit :=
  (r <- sys_open (str "console") O_RDWR;
   (if r <? 0 then
      sys_mknod (str "console") CONSOLE 0;;
      sys_open (str "console") O_RDWR;;
      ret tt
    else ret tt);;
   sys_dup 0;;
   sys_dup 0;;
   loop main_body tt)%K.
End init.
End Init.

Module Ps.
Section ps.
Context {S : Type} `{Sys S}.

Definition MAX_PS_PROC : nat := 64.
Definition TAB : list Z := [32; 9; 32].

Definition ststr (state : Z) : list Z :=
  if state =? 0 then str "UNUSED"
  else if state =? 1 then str "USED"
  else if state =? 2 then str "SLEEPING"
  else if state =? 3 then str "RUNNABLE"
  else if state =? 4 then str "RUNNING"
  else if state =? 5 then str "ZOMBIE"
  else str "UNKNOWN".

Definition main (argv : list (list Z)) : M S unit :=
  (' (r, info) <- sys_pinfo;
   (if r <? 0 then fail "%s: pinfo failed..." [UStr (Some (arg argv 0))] else ret tt);;
   printf (str "PID" ++ TAB ++ str "STATE" ++ TAB ++ str "USED PAGES" ++ TAB ++ str "NAME" ++ [NL]) [];;
   for_each (seq 0 MAX_PS_PROC) (fun i =>
     let '(active, pid, state, pages, name) := info i in
     if negb (active =? 0) then
       printf (str "%d" ++ TAB ++ str "%s" ++ TAB ++ str "%d" ++ TAB ++ str "%s" ++ [NL])
         [UInt pid; UStr (Some (ststr state)); UInt pages; UStr (Some name)]
     else ret tt);;
   sys_exit 0)%K.
End ps.
End Ps.

Module Ls.
Section ls.
Context {S : Type} `{Sys S}.

Definition DIRSIZ : nat := 14.
Definition T_DIR : Z := 1.
Definition T_FILE : Z := 2.
Definition SLASH : Z := 47.

(** [for(p = path + strlen(path); p >= path && *p != '/'; p--);  p++;]: where
    [p] is, from index [n] on. *)
Fixpoint last_elem (path : list Z) (n : nat) : nat :=
  if nth n path 0 =? SLASH then Datatypes.S n
  else match n with O => O | Datatypes.S n' => last_elem path n' end.

Definition fmtname (path : list Z) : list Z :=
  let p := drop (last_elem path (length path)) path in
  if Z.of_nat DIRSIZ <=? Z.of_nat (length p) then p
  else p ++ repeat 32 (DIRSIZ - length p).

Definition st_field (st : list Z) (i : nat) : Z := nth i st 0.
Definition st_ino (st : list Z) : Z := st_field st 1.
Definition st_type (st : list Z) : Z := st_field st 2.
Definition st_size (st : list Z) : Z := st_field st 4.

(** [de.name], as it ends up in [buf]: up to its first NUL. *)
Fixpoint upto_nul (l : list Z) : list Z :=
  match l with c :: l' => if c =? 0 then [] else c :: upto_nul l' | [] => [] end.

(** One directory entry. *)
Definition ls_body (fd : Z) (path : list Z) (_ : unit) : M S (unit + unit) :=
  (' (n, de) <- sys_read fd 16;
   if negb (n =? 16) then ret (inr tt)
   else if get16 de 0 =? 0 then ret (inl tt)
   else
     let buf := path ++ [SLASH] ++ upto_nul (take DIRSIZ (drop 2 de)) in
     ' (r, st) <- stat buf;
     if r <? 0 then
       printf (str "ls: cannot stat %s" ++ [NL]) [UStr (Some buf)];; ret (inl tt)
     else
       printf (str "%s %d %d %d" ++ [NL])
         [UStr (Some (fmtname buf)); UInt (st_type st); UInt (i32 (st_ino st)); UInt (i32 (st_size st))];;
       ret (inl tt))%K.

Definition ls (path : list Z) : M S unit :=
  (fd <- sys_open path 0;
   if fd <? 0 then fprintf 2 (str "ls: cannot open %s" ++ [NL]) [UStr (Some path)]
   else
     ' (r, st) <- sys_fstat fd;
     if r <? 0 then
       fprintf 2 (str "ls: cannot stat %s" ++ [NL]) [UStr (Some path)];;
       sys_close fd;;
       ret tt
     else
       (if st_type st =? T_FILE then
          printf (str "%s %d %d %l" ++ [NL])
            [UStr (Some (fmtname path)); UInt (st_type st); UInt (i32 (st_ino st)); ULong (st_size st)]
        else if st_type st =? T_DIR then
          if 512 <? Z.of_nat (length path) + 1 + Z.of_nat DIRSIZ + 1 then
            printf (str "ls: path too long" ++ [NL]) []
          else loop (ls_body fd path) tt
        else ret tt);;
       sys_close fd;;
       ret tt)%K.

Definition main (argv : list (list Z)) : M S unit :=
  ((if Z.of_nat (length argv) <? 2 then ls (str ".");; sys_exit 0 else ret tt);;
   for_each (drop 1 argv) ls;;
   sys_exit 0)%K.
End ls.
End Ls.

Module Stress.
Section stress.
Context {S : Type} `{Sys S}.

(** stressfs.c: [for(i = 0; i < 4; i++) if(fork() > 0) break;] *)
Fixpoint fork_some (n : nat) (i : Z) : M S Z :=
  match n with
  | O => ret i
  | Datatypes.S n' => (pid <- sys_fork; if 0 <? pid then ret i else fork_some n' (i + 1))%K
  end.

Definition stressfs_main : M S unit :=
  let data := repeat 97 512 in
  (printf (str "stressfs starting" ++ [NL]) [];;
   i <- fork_some 4 0;
   printf (str "write %d" ++ [NL]) [UInt i];;
   let path := str "stressfs" ++ [u8 (48 + i)] in
   fd <- sys_open path (Z.lor O_CREATE O_RDWR);
   for_range 20 0 (fun _ => sys_write fd data;; ret tt);;
   sys_close fd;;
   printf (str "read" ++ [NL]) [];;
   fd <- sys_open path O_RDONLY;
   for_range 20 0 (fun _ => sys_read fd 512;; ret tt);;
   sys_close fd;;
   sys_wait;;
   sys_exit 0)%K.

(** forktest.c *)
Definition N : Z := 1000.
Definition print (s : list Z) : M S unit := (sys_write 1 s;; ret tt)%K.

(** The number of children, at most [N]. *)
Fixpoint fork_all (k : nat) (n : Z) : M S Z :=
  match k with
  | O => ret n
  | Datatypes.S k' =>
      (pid <- sys_fork;
       if pid <? 0 then ret n
       else if pid =? 0 then sys_exit 0
       else fork_all k' (n + 1))%K
  end.

Definition forktest : M S unit :=
  (print (str "fork test" ++ [NL]);;
   n <- fork_all (Z.to_nat N) 0;
   (if n =? N then print (str "fork claimed to work N times!" ++ [NL]);; sys_exit 1 else ret tt);;
   for_range (Z.to_nat n) 0 (fun _ =>
     w <- sys_wait;
     if w <? 0 then print (str "wait stopped early" ++ [NL]);; sys_exit 1 else ret tt);;
   w <- sys_wait;
   (if negb (w =? -1) then print (str "wait got too many" ++ [NL]);; sys_exit 1 else ret tt);;
   print (str "fork test OK" ++ [NL]))%K.

Definition forktest_main : M S unit := (forktest;; sys_exit 0)%K.
End stress.
End Stress.

Module Pstest.
Section pstest.
Context {S : Type} `{Sys S}.
(** The string at an address: one message prints the process id as a string. *)
Context (str_at : Z -> list Z).

(** active, pid, state, used pages and name of each slot. *)
Abbreviation psinfo := (nat -> Z * Z * Z * Z * list Z)%type.
Definition ps_active (p : psinfo) (i : nat) : Z := (p i).1.1.1.1.
Definition ps_pid (p : psinfo) (i : nat) : Z := (p i).1.1.1.2.
Definition ps_state (p : psinfo) (i : nat) : Z := (p i).1.1.2.
Definition ps_pages (p : psinfo) (i : nat) : Z := (p i).1.2.
Definition ps_name (p : psinfo) (i : nat) : list Z := (p i).2.

Definition stnames : list (list Z) :=
  [str "UNUSED"; str "USED"; str "SLEEPING"; str "RUNNABLE"; str "RUNNING"; str "ZOMBIE"; str "UNKNOWN"].

Definition callpinfo : M S psinfo :=
  (' (r, info) <- sys_pinfo;
   if r <? 0 then fail "callpinfo: pinfo failed..." [] else ret info)%K.

Definition findpid (p : psinfo) (pid : Z) : M S nat :=
  match List.find (fun i => negb (ps_active p i =? 0) && (ps_pid p i =? pid)) (seq 0 Ps.MAX_PS_PROC) with
  | Some i => ret i
  | None => fail "Process with pid = %d not found..." [UInt pid]
  end.

(** A message without a newline, and [exit(1)]. *)
Definition fail0 (fmt : string) (args : list uarg) : M S unit := (fprintf 2 (str fmt) args;; sys_exit 1)%K.

(** [strcmp(a, b) != 0] *)
Definition differs (a b : list Z) : bool := if decide (a = b) then false else true.

Definition testnames (name : list Z) : M S unit :=
  (psinfo <- callpinfo;
   i <- findpid psinfo 1;
   (if differs (ps_name psinfo i) (str "init") then fail0 "Process with pid = 1 is not named 'init'" [] else ret tt);;
   i <- findpid psinfo 2;
   (if differs (ps_name psinfo i) (str "sh") then fail0 "Process with pid = 2 is not named 'sh'" [] else ret tt);;
   me <- sys_getpid;
   i <- findpid psinfo me;
   if differs (ps_name psinfo i) name then
     me <- sys_getpid;
     fail0 "Process with pid = %s is not named '%s'" [UStr (Some (str_at me)); UStr (Some name)]
   else ret tt)%K.

Definition state_name (psinfo : psinfo) (i : nat) : list Z := nth (Z.to_nat (ps_state psinfo i)) stnames [].

Definition teststates : M S unit :=
  (psinfo <- callpinfo;
   i <- findpid psinfo 1;
   (if differs (state_name psinfo i) (str "SLEEPING") then fail "Process with pid = 1 is not sleeping" [] else ret tt);;
   i <- findpid psinfo 2;
   (if differs (state_name psinfo i) (str "SLEEPING") then fail "Process with pid = 2 is not sleeping" [] else ret tt);;
   me <- sys_getpid;
   i <- findpid psinfo me;
   if differs (state_name psinfo i) (str "RUNNING") then
     me <- sys_getpid;
     fail "Process with pid = %d is not running" [UInt me]
   else ret tt)%K.

Definition testcount : M S unit :=
  (for_range 10 0 (fun _ =>
     pid <- sys_fork;
     if pid =? 0 then sys_sleep 5;; sys_exit 0 else ret tt);;
   psinfo <- callpinfo;
   let count := Z.of_nat (length (filter (fun i => ps_active psinfo i <> 0) (seq 0 Ps.MAX_PS_PROC))) in
   for_range 10 0 (fun _ => sys_wait;; ret tt);;
   if negb (count =? 13) then fail "testcount FAILED: expected (13), actual (%d)" [UInt count] else ret tt)%K.

(** [n] is an int, [sz] a uint64. *)
Definition testmem : M S unit :=
  (sz <- sys_sbrk 0;
   psinfo <- callpinfo;
   me <- sys_getpid;
   i <- findpid psinfo me;
   let npages := ps_pages psinfo i in
   for_range 10 0 (fun _ =>
     r <- sys_sbrk PGSIZE;
     if r =? -1 then fail "pstest: sbrk failed" [] else ret tt);;
   let n := i32 (i32 sz + 10 * PGSIZE) in
   psinfo <- callpinfo;
   me <- sys_getpid;
   i <- findpid psinfo me;
   (if negb (ps_pages psinfo i - npages =? 10) then
      fail "FAILED: after alloc, expected %d pages, got %d pages" [UInt (npages + 10); UInt (ps_pages psinfo i)]
    else ret tt);;
   sys_sbrk (i32 (- (n - sz)));;
   psinfo <- callpinfo;
   me <- sys_getpid;
   i <- findpid psinfo me;
   if negb (ps_pages psinfo i =? npages) then
     fail "FAILED: after free, expected %d pages, got %d pages" [UInt npages; UInt (ps_pages psinfo i)]
   else ret tt)%K.

Definition testexec : M S unit :=
  (pid <- sys_fork;
   if pid =? 0 then sys_exec (str "ps") [str "ps"];; sys_exit 0
   else sys_wait;; ret tt)%K.

Definition main (argv : list (list Z)) : M S unit :=
  let me := UStr (Some (arg argv 0)) in
  (printf (str "%s: starting..." ++ [NL]) [me];;
   printf (str "%s: testname(): ") [me];;
   testnames (arg argv 0);;
   printf (str " OK." ++ [NL]) [];;
   printf (str "%s: teststates(): ") [me];;
   teststates;;
   printf (str "OK." ++ [NL]) [];;
   printf (str "%s: testcount(): ") [me];;
   testcount;;
   printf (str "OK." ++ [NL]) [];;
   printf (str "%s: testmem(): ") [me];;
   testmem;;
   printf (str "OK." ++ [NL]) [];;
   printf (str "%s: testexec(): " ++ [NL]) [me];;
   testexec;;
   printf (str "%s: OK..." ++ [NL]) [me];;
   sys_exit 0)%K.
End pstest.
End Pstest.
