(* ===== verification/Grind.v ===== *)
(** * user/grind.c

    The random exerciser of the system calls, over [Sys], and what its random
    number generator computes. *)

From S2P Require Import Prelude Riscv Mem Str Usys Blk UserProgs.
Import Ulib.

Module Grind.

(** [*ctx] after the call, and the result. *)
Definition do_rand (ctx : Z) : Z * Z :=
  let x := ctx mod 0x7ffffffe + 1 in
  let hi := Z.quot x 127773 in
  let lo := Z.rem x 127773 in
  let x := 16807 * lo - 2836 * hi in
  let x := if x <? 0 then x + 0x7fffffff else x in
  let x := x - 1 in
  (u64 x, i32 x).

(** The variables of [go] that live from one round to the next, and [rand_next]. *)
Record vars := Vars { fd : Z; iters : Z; rand_next : Z; buf : list Z }.

Definition rand (v : vars) : Z * vars :=
  let '(ctx, r) := do_rand (rand_next v) in (r, Vars (fd v) (iters v) ctx (buf v)).

Definition set_fd (n : Z) (v : vars) : vars := Vars n (iters v) (rand_next v) (buf v).
Definition set_iters (n : Z) (v : vars) : vars := Vars (fd v) n (rand_next v) (buf v).
Definition set_rand_next (n : Z) (v : vars) : vars := Vars (fd v) (iters v) n (buf v).

(** The start of a buffer is overwritten. *)
Definition fill (b new : list Z) : list Z := new ++ drop (length new) b.

Section grind.
Context {S : Type} `{Sys S}.
(** What [st1] and [st2] hold before a [wait] that stores nothing there. *)
Context (stale1 stale2 : Z).

Abbreviation CREATE_RDWR := (Z.lor O_CREATE O_RDWR).

Definition complain {A} (s : string) (args : list uarg) : M S A :=
  (printf (str s ++ [NL]) args;; sys_exit 1)%K.
Definition fcomplain {A} (s : string) (n : Z) : M S A :=
  (fprintf 2 (str s ++ [NL]) [];; sys_exit n)%K.

(** [int pid = fork(); if(pid == 0){ child; } else if(pid < 0) { ...; exit(1); }];
    the child exits. *)
Definition fork_child (child : M S Z) : M S Z :=
  (pid <- sys_fork;
   if pid =? 0 then child
   else if pid <? 0 then complain "grind: fork failed" []
   else ret pid)%K.

Definition touch (path : string) : M S unit :=
  (f <- sys_open (str path) CREATE_RDWR; sys_close f;; ret tt)%K.
Definition unlink (path : string) : M S unit := (sys_unlink (str path);; ret tt)%K.
Definition mkdir (path : string) : M S unit := (sys_mkdir (str path);; ret tt)%K.
Definition link (old new : string) : M S unit := (sys_link (str old) (str new);; ret tt)%K.
Definition chdir (path : string) : M S unit := (sys_chdir (str path);; ret tt)%K.
Definition close (f : Z) : M S unit := (sys_close f;; ret tt)%K.

(** Cases 1 to 12 of [go]. *)
Definition go_files (what : Z) (v : vars) : M S vars :=
  (if what =? 1 then touch "grindir/../a";; ret v
   else if what =? 2 then touch "grindir/../grindir/../b";; ret v
   else if what =? 3 then unlink "grindir/../a";; ret v
   else if what =? 4 then
     r <- sys_chdir (str "grindir");
     (if negb (r =? 0) then complain "grind: chdir grindir failed" [] else ret tt);;
     unlink "../b";;
     chdir "/";;
     ret v
   else if what =? 5 then
     close (fd v);;
     f <- sys_open (str "/grindir/../a") CREATE_RDWR;
     ret (set_fd f v)
   else if what =? 6 then
     close (fd v);;
     f <- sys_open (str "/./grindir/./../b") CREATE_RDWR;
     ret (set_fd f v)
   else if what =? 7 then sys_write (fd v) (buf v);; ret v
   else if what =? 8 then
     ' (_, bs) <- sys_read (fd v) 999;
     ret (Vars (fd v) (iters v) (rand_next v) (fill (buf v) bs))
   else if what =? 9 then
     mkdir "grindir/../a";; touch "a/../a/./a";; unlink "a/a";; ret v
   else if what =? 10 then
     mkdir "/../b";; touch "grindir/../b/b";; unlink "b/b";; ret v
   else if what =? 11 then unlink "b";; link "../grindir/./../a" "../b";; ret v
   else if what =? 12 then unlink "../grindir/../a";; link ".././b" "/grindir/../a";; ret v
   else ret v)%K.

(** Case 19. *)
Definition go_pipe : M S unit :=
  (p <- sys_pipe;
   match p with
   | None => complain "grind: pipe failed" []
   | Some (fds0, fds1) =>
       fork_child
         (sys_fork;; sys_fork;;
          w <- sys_write fds1 (str "x");
          (if negb (w =? 1) then printf (str "grind: pipe write failed" ++ [NL]) [] else ret tt);;
          ' (r, _) <- sys_read fds0 1;
          (if negb (r =? 1) then printf (str "grind: pipe read failed" ++ [NL]) [] else ret tt);;
          sys_exit 0);;
       close fds0;;
       close fds1;;
       sys_wait;;
       ret tt
   end)%K.

(** Cases 13 to 20. *)
Definition go_procs (break0 what : Z) : M S unit :=
  (if what =? 13 then fork_child (sys_exit 0);; sys_wait;; ret tt
   else if what =? 14 then fork_child (sys_fork;; sys_fork;; sys_exit 0);; sys_wait;; ret tt
   else if what =? 15 then sys_sbrk 6011;; ret tt
   else if what =? 16 then
     b <- sys_sbrk 0;
     if break0 <? b then b <- sys_sbrk 0; sys_sbrk (i32 (- (b - break0)));; ret tt else ret tt
   else if what =? 17 then
     pid <- fork_child (touch "a";; sys_exit 0);
     r <- sys_chdir (str "../grindir/..");
     (if negb (r =? 0) then complain "grind: chdir failed" [] else ret tt);;
     sys_kill pid;;
     sys_wait;;
     ret tt
   else if what =? 18 then
     fork_child (p <- sys_getpid; sys_kill p;; sys_exit 0);; sys_wait;; ret tt
   else if what =? 19 then go_pipe
   else if what =? 20 then
     fork_child
       (unlink "a";; mkdir "a";; chdir "a";; unlink "../a";;
        sys_open (str "x") CREATE_RDWR;;
        unlink "x";;
        sys_exit 0);;
     sys_wait;;
     ret tt
   else ret tt)%K.

(** Case 21. *)
Definition go_create : M S unit :=
  (unlink "c";;
   fd1 <- sys_open (str "c") CREATE_RDWR;
   (if fd1 <? 0 then complain "grind: create c failed" [] else ret tt);;
   w <- sys_write fd1 (str "x");
   (if negb (w =? 1) then complain "grind: write c failed" [] else ret tt);;
   ' (r, st) <- sys_fstat fd1;
   (if negb (r =? 0) then complain "grind: fstat failed" [] else ret tt);;
   (if negb (Ls.st_size st =? 1) then
      complain "grind: fstat reports wrong size %d" [UInt (i32 (Ls.st_size st))] else ret tt);;
   (if 200 <? Ls.st_ino st then
      complain "grind: fstat reports crazy i-number %d" [UInt (i32 (Ls.st_ino st))] else ret tt);;
   close fd1;;
   unlink "c")%K.

(** Case 22: [echo hi | cat]. *)
Definition run_echo (aa0 aa1 bb0 bb1 : Z) : M S unit :=
  (close bb0;; close bb1;; close aa0;;
   close 1;;
   d <- sys_dup aa1;
   (if negb (d =? 1) then fcomplain "grind: dup failed" 1 else ret tt);;
   close aa1;;
   sys_exec (str "grindir/../echo") [str "echo"; str "hi"];;
   fcomplain "grind: echo: not found" 2)%K.

Definition run_cat (aa0 aa1 bb0 bb1 : Z) : M S unit :=
  (close aa1;; close bb0;;
   close 0;;
   d <- sys_dup aa0;
   (if negb (d =? 0) then fcomplain "grind: dup failed" 4 else ret tt);;
   close aa0;;
   close 1;;
   d <- sys_dup bb1;
   (if negb (d =? 1) then fcomplain "grind: dup failed" 5 else ret tt);;
   close bb1;;
   sys_exec (str "/cat") [str "cat"];;
   fcomplain "grind: cat: not found" 6)%K.

(** One byte read, 0 when there is none. *)
Definition read1 (f : Z) : M S Z := (' (_, bs) <- sys_read f 1; ret (nth 0 bs 0))%K.

Definition go_pipeline : M S unit :=
  (aa <- sys_pipe;
   match aa with
   | None => fcomplain "grind: pipe failed" 1
   | Some (aa0, aa1) =>
       bb <- sys_pipe;
       match bb with
       | None => fcomplain "grind: pipe failed" 1
       | Some (bb0, bb1) =>
           pid1 <- sys_fork;
           (if pid1 =? 0 then run_echo aa0 aa1 bb0 bb1
            else if pid1 <? 0 then fcomplain "grind: fork failed" 3 else ret tt);;
           pid2 <- sys_fork;
           (if pid2 =? 0 then run_cat aa0 aa1 bb0 bb1
            else if pid2 <? 0 then fcomplain "grind: fork failed" 7 else ret tt);;
           close aa0;; close aa1;; close bb1;;
           c0 <- read1 bb0; c1 <- read1 bb0; c2 <- read1 bb0;
           close bb0;;
           ' (_, w1) <- sys_wait_st;
           ' (_, w2) <- sys_wait_st;
           let st1 := default stale1 w1 in
           let st2 := default stale2 w2 in
           let out := Ls.upto_nul [c0; c1; c2; 0] in
           if negb (st1 =? 0) || negb (st2 =? 0) || negb (bool_decide (out = str "hi" ++ [NL])) then
             printf (str "grind: exec pipeline failed %d %d " ++ [34] ++ str "%s" ++ [34; NL])
               [UInt st1; UInt st2; UStr (Some out)];;
             sys_exit 1
           else ret tt
       end
   end)%K.

Definition go_body (which_child : bool) (break0 : Z) (v : vars) : M S (vars + unit) :=
  let v := set_iters (u64 (iters v + 1)) v in
  ((if iters v mod 500 =? 0 then sys_write 1 (str (if which_child then "B" else "A"));; ret tt
    else ret tt);;
   let '(r, v) := rand v in
   let what := Z.rem r 23 in
   (* the cases of the source exclude one another *)
   v <- go_files what v;
   go_procs break0 what;;
   (if what =? 21 then go_create else if what =? 22 then go_pipeline else ret tt);;
   ret (inl v))%K.

Definition go (which_child : bool) (seed : Z) : M S unit :=
  (break0 <- sys_sbrk 0;
   mkdir "grindir";;
   r <- sys_chdir (str "grindir");
   (if negb (r =? 0) then complain "grind: chdir grindir failed" [] else ret tt);;
   chdir "/";;
   loop (go_body which_child break0) (Vars (-1) 0 seed (repeat 0 999)))%K.

Definition iter : M S unit :=
  (unlink "a";;
   unlink "b";;
   pid1 <- sys_fork;
   (if pid1 <? 0 then complain "grind: fork failed" [] else ret tt);;
   (if pid1 =? 0 then go false 31;; sys_exit 0 else ret tt);;
   pid2 <- sys_fork;
   (if pid2 <? 0 then complain "grind: fork failed" [] else ret tt);;
   (if pid2 =? 0 then go true 7177;; sys_exit 0 else ret tt);;
   ' (_, w1) <- sys_wait_st;
   (if negb (default (-1) w1 =? 0) then sys_kill pid1;; sys_kill pid2;; ret tt else ret tt);;
   sys_wait_st;;
   sys_exit 0)%K.

Definition main : M S unit :=
  loop (fun _ : unit =>
    (pid <- sys_fork;
     (if pid =? 0 then iter;; sys_exit 0 else ret tt);;
     (if 0 <? pid then sys_wait;; ret tt else ret tt);;
     sys_sleep 20;;
     ret (inl tt))%K) tt.
End grind.

(** The generator is the minimal standard one of Park and Miller, shifted to
    start at 0: Schrage's decomposition computes the product modulo [2^31 - 1]
    and keeps every intermediate value below [2^31] in absolute value. *)
Lemma do_rand_spec ctx :
  let x := ctx mod 0x7ffffffe + 1 in
  let y := (16807 * x) mod 0x7fffffff in
  do_rand ctx = (y - 1, y - 1) /\ 1 <= y <= 0x7ffffffe /\
  - 2 ^ 31 < 16807 * Z.rem x 127773 - 2836 * Z.quot x 127773 < 2 ^ 31.
Proof.
  intros x y. pose proof (Z.mod_pos_bound ctx 0x7ffffffe ltac:(lia)) as Hc.
  assert (1 <= x <= 0x7ffffffe) as Hx by (unfold x; lia).
  unfold do_rand. fold x. rewrite Z.quot_div_nonneg, Z.rem_mod_nonneg by lia.
  set (z := 16807 * (x mod 127773) - 2836 * (x / 127773)).
  pose proof (Z.div_mod x 127773 ltac:(lia)) as Hdm.
  pose proof (Z.mod_pos_bound x 127773 ltac:(lia)) as Hm.
  assert (0 <= x / 127773 <= 16807) as Hd.
  { split; [apply Z.div_pos; lia|]. apply Z.lt_succ_r, Z.div_lt_upper_bound; lia. }
  assert (- 2 ^ 31 < z < 2 ^ 31) as Hz by (unfold z; lia).
  (* [z] is the product less a multiple of the modulus, and is not a multiple itself *)
  assert (16807 * x = z + 0x7fffffff * (x / 127773)) as Hprod by (unfold z; lia).
  assert (y = z mod 0x7fffffff) as Hy.
  { unfold y. rewrite Hprod, Z.mul_comm, Z.mod_add by lia. done. }
  assert (y <> 0) as Hy0.
  { unfold y. intros E. apply Z.mod_divide in E; [|lia]. apply Z.gauss in E; [|done].
    apply Z.divide_pos_le in E; lia. }
  pose proof (Z.mod_pos_bound (16807 * x) 0x7fffffff ltac:(lia)) as Hyb. fold y in Hyb.
  split; [|split; [lia|done]].
  assert ((if z <? 0 then z + 0x7fffffff else z) = y) as ->.
  { rewrite Hy. destruct (Z.ltb_spec z 0).
    - apply Z.mod_unique_pos with (-1); unfold z in *; lia.
    - apply Z.mod_unique_pos with 0; unfold z in *; lia. }
  rewrite u64_small, i32_small by lia. done.
Qed.

(** So a round of [go] always picks one of its 23 cases. *)
Lemma rand_case v : 0 <= Z.rem (rand v).1 23 < 23.
Proof.
  destruct (do_rand_spec (rand_next v)) as (E & ? & _). unfold rand. rewrite E. cbn [fst].
  rewrite Z.rem_mod_nonneg by lia. by apply Z.mod_pos_bound.
Qed.
End Grind.
