(* ===== verification/Umalloc.v ===== *)
(** * user/umalloc.c

    The allocator of user programs: a circular list of free blocks, in the order
    of their addresses, that starts at the static header [base].  The headers
    are in the memory of the process; a pointer to a [Header] is its address and
    pointer arithmetic counts 16 bytes. *)

From S2P Require Import Prelude Mem.

(** The memory of a process, the allocator's [freep], and the end of the
    process's memory, which [sbrk] moves. *)
Record uproc := MkUproc { um : mem; freep : Z; top : Z }.
Definition set_um (m : mem) (s : uproc) : uproc := MkUproc m (freep s) (top s).
Definition set_freep (p : Z) (s : uproc) : uproc := MkUproc (um s) p (top s).

Module Umalloc.

(** [union header]: [ptr] and then [size], 16 bytes with the padding. *)
Definition hptr (m : mem) (p : Z) : Z := ld64 m p.
Definition hsize (m : mem) (p : Z) : Z := ld32 m (p + 8).
Definition put_hptr (m : mem) (p v : Z) : mem := st64 m p v.
Definition put_hsize (m : mem) (p v : Z) : mem := st32 m (p + 8) v.
Definition HDR : Z := 16.

(** [p + n] on [Header*] *)
Definition padd (p n : Z) : Z := u64 (p + HDR * n).

Definition ptr_of (p : Z) : M uproc Z := gets (fun s => hptr (um s) p).
Definition size_of (p : Z) : M uproc Z := gets (fun s => hsize (um s) p).
Definition set_ptr (p v : Z) : M uproc unit := modify (fun s => set_um (put_hptr (um s) p v) s).
Definition set_size (p v : Z) : M uproc unit := modify (fun s => set_um (put_hsize (um s) p v) s).

Section alloc.
(** The system call, and the address of [base]. *)
Context (sbrk : Z -> M uproc Z) (base : Z).

(** [for(p = freep; !(bp > p && bp < p->s.ptr); p = p->s.ptr) if(...) break;] *)
Definition free_body (bp p : Z) : M uproc (Z + Z) :=
  (q <- ptr_of p;
   if negb ((p <? bp) && (bp <? q)) then
     if (q <=? p) && ((p <? bp) || (bp <? q)) then ret (inr p) else ret (inl q)
   else ret (inr p))%K.

Definition free (ap : Z) : M uproc unit :=
  let bp := padd ap (-1) in
  (p <- gets freep;
   p <- loop (free_body bp) p;
   n <- size_of bp;
   q <- ptr_of p;
   (if padd bp n =? q then
      k <- size_of q;
      set_size bp (u32 (n + k));;
      q' <- ptr_of q;
      set_ptr bp q'
    else set_ptr bp q);;
   k <- size_of p;
   (if padd p k =? bp then
      n <- size_of bp;
      set_size p (u32 (k + n));;
      q <- ptr_of bp;
      set_ptr p q
    else set_ptr p bp);;
   modify (set_freep p))%K.

Definition morecore (nu : Z) : M uproc Z :=
  let nu := if nu <? 4096 then 4096 else nu in
  (p <- sbrk (i32 (nu * HDR));
   if p =? u64 (-1) then ret 0
   else
     set_size p nu;;
     free (padd p 1);;
     gets freep)%K.

(** [for(p = prevp->s.ptr; ; prevp = p, p = p->s.ptr) ...] *)
Definition malloc_body (nunits : Z) (a : Z * Z) : M uproc (Z * Z + Z) :=
  let '(prevp, p) := a in
  (n <- size_of p;
   if nunits <=? n then
     p <- (if n =? nunits then q <- ptr_of p; set_ptr prevp q;; ret p
           else
             set_size p (u32 (n - nunits));;
             n' <- size_of p;
             set_size (padd p n') nunits;;
             ret (padd p n'));
     modify (set_freep prevp);;
     ret (inr (padd p 1))
   else
     f <- gets freep;
     if p =? f then
       p <- morecore nunits;
       if p =? 0 then ret (inr 0)
       else q <- ptr_of p; ret (inl (p, q))
     else q <- ptr_of p; ret (inl (p, q)))%K.

Definition units (nbytes : Z) : Z := u32 ((nbytes + HDR - 1) / HDR + 1).

Definition malloc (nbytes : Z) : M uproc Z :=
  let nunits := units nbytes in
  (f <- gets freep;
   (if f =? 0 then
      modify (set_freep base);;
      set_ptr base base;;
      set_size base 0
    else ret tt);;
   prevp <- gets freep;
   p <- ptr_of prevp;
   loop (malloc_body nunits) (prevp, p))%K.

End alloc.
End Umalloc.
