(* ===== verification/UmallocSpec.v ===== *)
(** * The allocator of user programs keeps blocks apart

    The free list is the list of its blocks in the order of their addresses;
    [malloc] and [free] are operations on it. *)

From stdpp Require Import sorting.
From S2P Require Import Prelude Mem Umalloc.
Import Umalloc.

(** What the allocator needs of [sbrk]: memory grows at its end, by as much as
    asked for, or not at all.  A process has less than 4 GB. *)
Class Sbrk (sbrk : Z -> M uproc Z) := sbrk_grows n s : 0 <= n < 2 ^ 31 ->
  sbrk n s = Ret (u64 (-1)) s \/
  (exists m, sbrk n s = Ret (top s) (MkUproc m (freep s) (top s + n)) /\ top s + n < 2 ^ 32 /\
     forall x, x < top s -> ld8 m x = ld8 (um s) x).

Definition al (p : Z) : Prop := p mod 16 = 0.

(** ** Headers *)

Lemma al_apart p q : al p -> al q -> p <> q -> p + 16 <= q \/ q + 16 <= p.
Proof. unfold al. intros Hp Hq Hne. pose proof (Z_div_mod_eq_full p 16). pose proof (Z_div_mod_eq_full q 16). lia. Qed.

Lemma al_add p n : al p -> al (p + 16 * n).
Proof. unfold al. intros H. rewrite Z.mul_comm, Z.mod_add by lia. done. Qed.

Lemma hptr_put_hptr m p q v : al p -> al q -> 0 <= v < 2 ^ 64 ->
  hptr (put_hptr m p v) q = if decide (p = q) then v else hptr m q.
Proof.
  intros Hp Hq Hv. unfold hptr, put_hptr. case_decide as E.
  - subst. rewrite ld64_st64_eq. by apply u64_small.
  - apply ld64_st64_ne. destruct (al_apart _ _ Hp Hq E); lia.
Qed.

Lemma hptr_put_hsize m p q v : al p -> al q -> hptr (put_hsize m p v) q = hptr m q.
Proof.
  intros Hp Hq. unfold hptr, put_hsize. apply (ldn_stn_out 4 8).
  destruct (decide (p = q)) as [->|E]; [lia|]. destruct (al_apart _ _ Hp Hq E); lia.
Qed.

Lemma hsize_put_hptr m p q v : al p -> al q -> hsize (put_hptr m p v) q = hsize m q.
Proof.
  intros Hp Hq. unfold hsize, put_hptr. apply (ldn_stn_out 8 4).
  destruct (decide (p = q)) as [->|E]; [lia|]. destruct (al_apart _ _ Hp Hq E); lia.
Qed.

Lemma hsize_put_hsize m p q v : al p -> al q -> 0 <= v < 2 ^ 32 ->
  hsize (put_hsize m p v) q = if decide (p = q) then v else hsize m q.
Proof.
  intros Hp Hq Hv. unfold hsize, put_hsize. case_decide as E.
  - subst. unfold ld32, st32. rewrite ldn_stn_eq. by rewrite Z.mod_small.
  - apply (ldn_stn_out 4 4). destruct (al_apart _ _ Hp Hq E); lia.
Qed.

Lemma ld8_put_hptr m p v x : x < p \/ p + 16 <= x -> ld8 (put_hptr m p v) x = ld8 m x.
Proof. intros H. apply ld8_st64_ne. lia. Qed.
Lemma ld8_put_hsize m p v x : x < p \/ p + 16 <= x -> ld8 (put_hsize m p v) x = ld8 m x.
Proof. intros H. apply (ld8_stn_out 4). lia. Qed.

(** ** Lists of blocks *)

(** A block is its address and its size in units. *)
Abbreviation block := (Z * Z)%type.
Definition stop_ (b : block) : Z := b.1 + 16 * b.2.
Definition before (b c : block) : Prop := stop_ b < c.1.

Definition covers (L : list block) (x : Z) : Prop := exists b, b ∈ L /\ b.1 <= x < stop_ b.

(** Blocks linked one to the next, the last to [e]. *)
Fixpoint flist (m : mem) (L : list block) (e : Z) : Prop :=
  match L with
  | [] => True
  | b :: L' => hptr m b.1 = hd e L'.*1 /\ hsize m b.1 = b.2 /\ flist m L' e
  end.

Lemma flist_app m L1 L2 e : flist m (L1 ++ L2) e <-> flist m L1 (hd e L2.*1) /\ flist m L2 e.
Proof.
  induction L1 as [|b L1 IH]; cbn; [tauto|]. rewrite IH, fmap_app.
  assert (hd e (L1.*1 ++ L2.*1) = hd (hd e L2.*1) L1.*1) as -> by (by destruct L1). tauto.
Qed.

Lemma flist_ext m m' L e :
  (forall b, b ∈ L -> hptr m' b.1 = hptr m b.1 /\ hsize m' b.1 = hsize m b.1) -> flist m L e -> flist m' L e.
Proof.
  induction L as [|b L IH]; [done|]. intros H (Hp & Hs & HL). destruct (H b ltac:(set_solver)) as [E1 E2].
  cbn [flist]. rewrite E1, E2. split; [done|]. split; [done|]. apply IH; [|done]. intros c Hc. apply H. set_solver.
Qed.

Lemma flist_at m L e L1 b L2 : flist m L e -> L = L1 ++ b :: L2 -> hptr m b.1 = hd e L2.*1 /\ hsize m b.1 = b.2.
Proof. intros H ->. apply flist_app in H as [_ (Hp & Hs & _)]. done. Qed.

Section heap.
Context (base : Z).

(** The free list [L], in memory [m]. *)
Record ring_ok (L : list block) (m : mem) (tp : Z) : Prop := {
  ro_list : flist m ((base, 0) :: L) base;
  ro_sort : StronglySorted before ((base, 0) :: L);
  ro_pos : Forall (fun b => 0 < b.2) L;
  ro_al : Forall (fun b => al b.1) ((base, 0) :: L);
  ro_top : Forall (fun b => stop_ b <= tp) L;
  ro_base : 0 < base /\ base + 16 <= tp < 2 ^ 32 /\ al tp;
}.

(** The allocator at work: [freep] is a block of the list. *)
Definition heap_inv (L : list block) (s : uproc) : Prop :=
  ring_ok L (um s) (top s) /\ freep s ∈ base :: L.*1.

Section ring.
Context (L : list block) (m : mem) (tp : Z) (Hr : ring_ok L m tp).
Let R := (base, 0) :: L.

Lemma ring_split b : b ∈ R -> exists R1 R2, R = R1 ++ b :: R2 /\
  Forall (fun c => before c b) R1 /\ Forall (before b) R2 /\ hptr m b.1 = hd base R2.*1 /\ hsize m b.1 = b.2.
Proof using Hr.
  intros (R1 & R2 & E)%list_elem_of_split. exists R1, R2. split; [done|].
  pose proof (ro_sort _ _ _ Hr) as Hs. fold R in Hs. rewrite E in Hs.
  apply StronglySorted_app in Hs as (H12 & _ & H2). apply StronglySorted_inv in H2 as [_ H2].
  split; [|split; [done|by apply (flist_at m R base R1 b R2); [apply (ro_list _ _ _ Hr)|]]].
  apply Forall_forall. intros c Hc. apply H12; [done|set_solver].
Qed.

Lemma ring_elem b : b ∈ R -> base <= b.1 /\ b.1 + 16 <= tp /\ 0 <= b.2 /\ stop_ b <= tp /\ al b.1 /\ (b.1 = base -> b = (base, 0)).
Proof using Hr.
  intros Hb. destruct (ro_base _ _ _ Hr) as (H1 & H2 & H3).
  pose proof (proj1 (Forall_forall _ _) (ro_al _ _ _ Hr) b Hb) as Ha.
  apply elem_of_cons in Hb as [->|Hb]; [unfold stop_; cbn; split_and!; try lia; done|].
  pose proof (proj1 (Forall_forall _ _) (ro_pos _ _ _ Hr) b Hb) as Hp.
  pose proof (proj1 (Forall_forall _ _) (ro_top _ _ _ Hr) b Hb) as Ht. cbn in Hp, Ht.
  pose proof (ro_sort _ _ _ Hr) as [_ Hs]%StronglySorted_inv. rewrite Forall_forall in Hs. specialize (Hs b Hb).
  unfold before, stop_ in *. cbn in *. split_and!; try lia; done.
Qed.

Lemma ring_same b c : b ∈ R -> c ∈ R -> b.1 = c.1 -> b = c.
Proof using Hr.
  intros Hb Hc E. destruct (ring_split b Hb) as (R1 & R2 & ER & H1 & H2 & _).
  pose proof (ring_elem b Hb) as Hbb. pose proof (ring_elem c Hc) as Hcc.
  rewrite ER in Hc. apply elem_of_app in Hc as [Hc|[->|Hc]%elem_of_cons]; [|done|].
  - rewrite Forall_forall in H1. specialize (H1 c Hc). unfold before, stop_ in *. lia.
  - rewrite Forall_forall in H2. specialize (H2 c Hc). unfold before, stop_ in *. lia.
Qed.

Lemma ring_length : Z.of_nat (length R) <= 2 ^ 32.
Proof using Hr.
  assert (NoDup R.*1) as Hnd.
  { pose proof (ro_sort _ _ _ Hr) as Hs. fold R in Hs. pose proof ring_elem as He.
    assert (forall b, b ∈ R -> 0 <= b.2) as Hp by (intros; by apply He). clear He. clearbody R.
    induction R as [|b R' IH]; [constructor|]. cbn. apply StronglySorted_inv in Hs as [Hs Hb].
    constructor; [|apply IH; [done|intros; apply Hp; set_solver]].
    intros (c & E & Hc)%list_elem_of_fmap. rewrite Forall_forall in Hb. specialize (Hb c Hc).
    specialize (Hp b ltac:(set_solver)). unfold before, stop_ in Hb. lia. }
  assert (R.*1 ⊆+ seqZ 0 (2 ^ 32)) as Hsub.
  { apply NoDup_submseteq; [done|]. intros a (b & -> & Hb)%list_elem_of_fmap. apply elem_of_seqZ.
    destruct (ring_elem b Hb) as (H1 & H2 & _). destruct (ro_base _ _ _ Hr) as (H3 & H4 & _). lia. }
  apply submseteq_length in Hsub. rewrite length_fmap, length_seqZ in Hsub. lia.
Qed.

(** The way around the ring from the block after [f] to [z]. *)
Lemma ring_path f z : f ∈ R -> z ∈ R -> exists T, flist m T z.1 /\ hd z.1 T.*1 = hptr m f.1 /\
  (forall b, b ∈ T -> b ∈ R /\ b.1 <> f.1 /\ b.1 <> z.1) /\ (length T <= length R)%nat.
Proof using Hr.
  intros Hf Hz. destruct (ring_split f Hf) as (X & Y & ER & HX & HY & Hp & _).
  pose proof (ro_list _ _ _ Hr) as HL. fold R in HL.
  assert (forall b, b ∈ R -> 0 <= b.2) as Hpos by (intros b ?; by apply (ring_elem b)).
  assert (exists T, T ⊆ X ++ Y /\ flist m T z.1 /\ hd z.1 T.*1 = hptr m f.1 /\
    (forall b, b ∈ T -> b.1 <> z.1) /\ (length T <= length R)%nat) as (T & HT & H1 & H2 & H3 & H4).
  2: { exists T. split; [done|]. split; [done|]. split; [|done]. intros b Hb. specialize (HT b Hb).
       assert (b ∈ R) as HbR by (rewrite ER; set_solver). split; [done|]. split; [|by apply H3].
       pose proof (Hpos b HbR). pose proof (Hpos f Hf).
       rewrite Forall_forall in HX, HY. apply elem_of_app in HT as [HT|HT]; [specialize (HX b HT)|specialize (HY b HT)];
         unfold before, stop_ in *; lia. }
  assert (forall c b, before c b -> c ∈ R -> c.1 <> b.1) as Hne.
  { intros c b Hcb Hc. specialize (Hpos c Hc). unfold before, stop_ in Hcb. lia. }
  rewrite Forall_forall in HX, HY.
  pose proof (ro_sort _ _ _ Hr) as Hs. fold R in Hs.
  destruct (decide (z ∈ Y)) as [HzY|HzY].
  - apply list_elem_of_split in HzY as (Y1 & Y2 & ->). exists Y1. split; [set_solver|].
    rewrite ER in HL. apply flist_app in HL as [_ (_ & _ & HL)]. apply flist_app in HL as [HL _].
    split; [done|]. split; [rewrite Hp; by destruct Y1|].
    split; [|rewrite ER; repeat (rewrite length_app || cbn [length]); lia].
    intros b Hb. apply Hne; [|rewrite ER; set_solver].
    rewrite ER in Hs. apply StronglySorted_app_1_r, StronglySorted_inv in Hs as [Hs _].
    eapply StronglySorted_app_1_elem_of; [done..|set_solver].
  - assert (exists X1 Q, R = X1 ++ z :: Q /\ X1 ⊆ X /\ length X1 <= length X)%nat as (X1 & Q & EQ & Hsub & Hlen).
    { rewrite ER in Hz. apply elem_of_app in Hz as [Hz|[->|Hz]%elem_of_cons]; [|by exists X, Y|done].
      apply list_elem_of_split in Hz as (X1 & X2 & ->). exists X1, (X2 ++ f :: Y).
      rewrite ER. split; [by rewrite <- app_assoc|]. split; [set_solver|rewrite length_app; lia]. }
    assert (hd z.1 X1.*1 = base) as Eb by (by destruct X1; injection EQ as <-).
    exists (Y ++ X1). split; [set_solver|]. split.
    { apply flist_app. rewrite Eb. rewrite ER in HL. apply flist_app in HL as [_ (_ & _ & HL)]. split; [done|].
      assert (flist m (X1 ++ z :: Q) base) as H by (rewrite <- EQ; apply (ro_list _ _ _ Hr)).
      by apply flist_app in H as [H _]. }
    split; [rewrite Hp; by destruct Y; cbn|]. split.
    + intros b [Hb|Hb]%elem_of_app.
      * intros E. apply HzY. rewrite <- (ring_same b z); [done|rewrite ER; set_solver|done..].
      * apply Hne; [|rewrite EQ; set_solver]. rewrite EQ in Hs.
        eapply StronglySorted_app_1_elem_of; [done..|set_solver].
    + assert (length R = length X + S (length Y))%nat by (rewrite ER, length_app; done).
      rewrite length_app. lia.
Qed.

(** ** Where a freed block goes *)

(** The free blocks below and above a block that is not free. *)
Lemma ring_around bp n : base < bp -> 0 < n ->
  Forall (fun b => stop_ b <= bp \/ bp + 16 * n <= b.1) L ->
  exists A p B, R = A ++ p :: B /\ Forall (fun b => stop_ b <= bp /\ b.1 < bp) (A ++ [p]) /\
    Forall (fun b => bp + 16 * n <= b.1) B.
Proof using Hr.
  intros Hbp Hn HL. assert (Forall (fun b => stop_ b <= bp /\ b.1 < bp \/ bp + 16 * n <= b.1) L) as HL'.
  { apply Forall_forall. intros b Hb. rewrite Forall_forall in HL. destruct (HL b Hb) as [H|H]; [left|by right].
    destruct (ring_elem b ltac:(set_solver)) as (_ & _ & H2 & _).
    pose proof (proj1 (Forall_forall _ _) (ro_pos _ _ _ Hr) b Hb) as Hp. cbn in Hp. unfold stop_ in *. lia. }
  pose proof (ro_sort _ _ _ Hr) as [Hs _]%StronglySorted_inv.
  assert (forall x, stop_ x <= bp /\ x.1 < bp -> exists A p B, x :: L = A ++ p :: B /\
    Forall (fun b => stop_ b <= bp /\ b.1 < bp) (A ++ [p]) /\ Forall (fun b => bp + 16 * n <= b.1) B) as H.
  2: { apply H. unfold stop_. cbn. lia. }
  clear HL. unfold R in *. pose proof (ro_pos _ _ _ Hr) as Hpos. clear Hr R.
  induction L as [|y L' IH]; intros x Hx; [by exists [], x, []; split; [|split; [apply Forall_singleton|]]|].
  apply Forall_cons in HL' as [Hy HL']. apply StronglySorted_inv in Hs as [Hs Hy']. apply Forall_cons in Hpos as [Hp Hpos].
  destruct Hy as [Hy|Hy].
  - destruct (IH HL' Hs Hpos y Hy) as (A & p & B & -> & HA & HB). exists (x :: A), p, B.
    split; [done|]. split; [by constructor|done].
  - exists [], x, (y :: L'). split; [done|]. split; [by apply Forall_singleton|]. constructor; [done|].
    eapply Forall_impl; [exact Hy'|]. intros z Hz. unfold before, stop_ in *. cbn in *. lia.
Qed.

(** The loop of [free] stops at the block before the freed one. *)
Lemma free_step bp n A p B s x : um s = m -> base < bp -> 0 < n -> R = A ++ p :: B ->
  Forall (fun b => stop_ b <= bp /\ b.1 < bp) (A ++ [p]) -> Forall (fun b => bp + 16 * n <= b.1) B -> x ∈ R ->
  free_body bp x.1 s = if decide (x.1 = p.1) then Ret (inr p.1) s else Ret (inl (hptr m x.1)) s.
Proof using Hr.
  intros Em Hbp Hn ER HA HB Hx. destruct (ring_elem x Hx) as (Hxb & _ & Hx0 & _ & _).
  pose proof (ro_list _ _ _ Hr) as HL. fold R in HL. pose proof (ro_sort _ _ _ Hr) as Hs. fold R in Hs.
  rewrite Forall_forall in HA, HB. unfold free_body, ptr_of, gets, bind. cbn [bindr]. rewrite Em.
  assert (p ∈ R) as HpR by (rewrite ER; set_solver). destruct (HA p ltac:(set_solver)) as [_ Hpb].
  destruct (ring_elem p HpR) as (Hpb' & _). rewrite ER in Hx.
  apply elem_of_app in Hx as [Hx|[->|Hx]%elem_of_cons].
  - apply list_elem_of_split in Hx as (A1 & A2 & ->). rewrite <- app_assoc, <- app_comm_cons in ER.
    destruct (flist_at _ _ _ _ _ _ HL ER) as [-> _]. rewrite ER in Hs. apply StronglySorted_app_1_r in Hs.
    apply StronglySorted_inv in Hs as [_ Hs]. rewrite Forall_forall in Hs.
    assert (exists y, y ∈ A2 ++ [p] /\ hd base (A2 ++ p :: B).*1 = y.1) as (y & Hy & ->).
    { destruct A2 as [|y A2]; [exists p|exists y]; (split; [set_solver|done]). }
    assert (before x y) as Hxy by (apply Hs; set_solver).
    assert (before x p) as Hxp by (apply Hs; set_solver).
    destruct (HA y ltac:(set_solver)) as [_ Hyb]. unfold before, stop_ in *. rewrite decide_False by lia.
    rewrite (proj2 (Z.ltb_ge bp y.1)), andb_false_r by lia. cbn [negb].
    by rewrite (proj2 (Z.leb_gt y.1 x.1)) by lia.
  - destruct (flist_at _ _ _ _ _ _ HL ER) as [-> _]. rewrite decide_True by done.
    rewrite (proj2 (Z.ltb_lt p.1 bp)) by done. destruct B as [|y B]; cbn [hd fmap list_fmap].
    + rewrite (proj2 (Z.ltb_ge bp base)) by lia. cbn. by rewrite (proj2 (Z.leb_le base p.1)) by lia.
    + specialize (HB y ltac:(set_solver)). by rewrite (proj2 (Z.ltb_lt bp y.1)) by lia.
  - apply list_elem_of_split in Hx as (B1 & B2 & ->). rewrite app_comm_cons, app_assoc in ER.
    destruct (flist_at _ _ _ _ _ _ HL ER) as [-> _]. rewrite ER in Hs. apply StronglySorted_app_1_r in Hs.
    apply StronglySorted_inv in Hs as [_ Hs]. rewrite Forall_forall in Hs.
    pose proof (HB x ltac:(set_solver)) as Hxp. cbn in Hxp. rewrite decide_False by lia.
    rewrite (proj2 (Z.ltb_ge x.1 bp)) by lia. cbn [negb andb orb]. destruct B2 as [|y B2]; cbn [hd fmap list_fmap].
    + by rewrite (proj2 (Z.ltb_ge bp base)), andb_false_r by lia.
    + assert (before x y) as Hxy by (apply Hs; set_solver). unfold before, stop_ in Hxy.
      by rewrite (proj2 (Z.leb_gt y.1 x.1)) by lia.
Qed.

Lemma free_search bp n A p B s f : um s = m -> base < bp -> 0 < n -> R = A ++ p :: B ->
  Forall (fun b => stop_ b <= bp /\ b.1 < bp) (A ++ [p]) -> Forall (fun b => bp + 16 * n <= b.1) B -> f ∈ R ->
  loop (free_body bp) f.1 s = Ret p.1 s.
Proof using Hr.
  intros Em Hbp Hn ER HA HB Hf. assert (p ∈ R) as HpR by (rewrite ER; set_solver).
  pose proof (fun x Hx => free_step bp n A p B s x Em Hbp Hn ER HA HB Hx) as Hstep.
  destruct (ring_path f p Hf HpR) as (T & HT & Hhd & Hin & Hlen). pose proof ring_length as Hrl.
  assert (forall T, flist m T p.1 -> (forall b, b ∈ T -> b ∈ R /\ b.1 <> f.1 /\ b.1 <> p.1) ->
    iter_n (S (length T)) (free_body bp) (hd p.1 T.*1) s = Ret (inr p.1) s) as Hw.
  { clear T HT Hhd Hin Hlen. induction T as [|b T IH]; intros HT Hin.
    - cbn [length hd fmap list_fmap]. rewrite iter_n_1, Hstep by done. by rewrite decide_True.
    - destruct HT as (Hb & _ & HT). cbn [length hd fmap list_fmap].
      destruct (Hin b ltac:(set_solver)) as (HbR & _ & Hbp').
      rewrite (iter_n_inl _ _ _ _ (hptr m b.1) s) by (rewrite Hstep by done; by rewrite decide_False).
      rewrite Hb. apply IH; [done|]. intros c Hc. apply Hin. set_solver. }
  destruct (decide (f.1 = p.1)) as [E|E].
  - apply (loop_exit 1); [lia|]. rewrite iter_n_1, Hstep by done. by rewrite decide_True.
  - apply (loop_exit (S (S (length T)))); [lia|].
    rewrite (iter_n_inl _ _ _ _ (hptr m f.1) s) by (rewrite Hstep by done; by rewrite decide_False).
    rewrite <- Hhd. by apply Hw.
Qed.
End ring.

Lemma ring_ok_intro R L m tp : R = (base, 0) :: L -> flist m R base -> StronglySorted before R ->
  Forall (fun b => (0 < b.2 \/ b = (base, 0)) /\ al b.1 /\ stop_ b <= tp) R ->
  0 < base /\ base + 16 <= tp < 2 ^ 32 /\ al tp -> ring_ok L m tp.
Proof.
  intros -> HL Hs HR Hb. pose proof Hs as [_ Hs']%StronglySorted_inv. rewrite Forall_forall in HR, Hs'.
  split; [done|done| | | |done]; apply Forall_forall; intros b Hbin.
  - destruct (HR b ltac:(set_solver)) as [[H| ->] _]; [done|]. specialize (Hs' _ Hbin). unfold before, stop_ in Hs'. cbn in Hs'. lia.
  - by apply (HR b).
  - apply (HR b). set_solver.
Qed.

(** The freed block joined with the one above it, if they touch. *)
Definition join_next (m : mem) (bp n q : Z) : mem :=
  if padd bp n =? q then
    let m' := put_hsize m bp (u32 (n + hsize m q)) in put_hptr m' bp (hptr m' q)
  else put_hptr m bp q.

(** The block below joined with the freed one. *)
Definition join_prev (m : mem) (bp p : Z) : mem :=
  if padd p (hsize m p) =? bp then
    let m' := put_hsize m p (u32 (hsize m p + hsize m bp)) in put_hptr m' p (hptr m' bp)
  else put_hptr m p bp.

Lemma free_run s bp p : loop (free_body bp) (freep s) s = Ret p s -> 0 <= bp < 2 ^ 64 ->
  free (bp + 16) s =
    Ret tt (MkUproc (join_prev (join_next (um s) bp (hsize (um s) bp) (hptr (um s) p)) bp p) p (top s)).
Proof.
  intros E Hbp. unfold free. replace (padd (bp + 16) (-1)) with bp.
  2: { unfold padd, HDR. rewrite u64_small by lia. lia. }
  unfold gets at 1. unfold bind at 1. cbn [bindr]. erewrite bind_Ret by exact E.
  unfold join_next, join_prev, size_of, ptr_of, set_size, set_ptr, gets, modify, bind. cbn [bindr].
  destruct (padd bp _ =? _); cbn [bindr um set_um]; (destruct (padd p _ =? _); cbn [bindr um set_um freep top set_freep]; done).
Qed.

(** [m1] is [m] with another header at [bp]. *)
Definition header_at (m m1 : mem) (bp q n : Z) : Prop :=
  hptr m1 bp = q /\ hsize m1 bp = n /\
  (forall x, al x -> x <> bp -> hptr m1 x = hptr m x /\ hsize m1 x = hsize m x) /\
  (forall x, x < bp \/ bp + 16 <= x -> ld8 m1 x = ld8 m x).

Lemma header_ptr m bp q : al bp -> 0 <= q < 2 ^ 32 -> header_at m (put_hptr m bp q) bp q (hsize m bp).
Proof.
  intros Hbp Hq. unfold header_at. rewrite hptr_put_hptr, decide_True, hsize_put_hptr by (done || lia).
  split; [done|]. split; [done|]. split; [|intros; by apply ld8_put_hptr].
  intros x Hx Hne. by rewrite hptr_put_hptr, decide_False, hsize_put_hptr by (done || lia).
Qed.

Lemma header_size m bp n : al bp -> 0 <= n < 2 ^ 32 -> header_at m (put_hsize m bp n) bp (hptr m bp) n.
Proof.
  intros Hbp Hq. unfold header_at. rewrite hsize_put_hsize, decide_True, hptr_put_hsize by (done || lia).
  split; [done|]. split; [done|]. split; [|intros; by apply ld8_put_hsize].
  intros x Hx Hne. by rewrite hsize_put_hsize, decide_False, hptr_put_hsize by (done || lia).
Qed.

Lemma header_trans m m1 m2 bp q n q' n' : header_at m m1 bp q n -> header_at m1 m2 bp q' n' -> header_at m m2 bp q' n'.
Proof.
  intros (_ & _ & H1 & H2) (E1 & E2 & H3 & H4). split_and!; [done|done| |].
  - intros x Hx Hne. destruct (H3 x Hx Hne) as [-> ->]. by apply H1.
  - intros x Hx. rewrite H4 by done. by apply H2.
Qed.

Lemma header_flist m m1 bp q n B e : header_at m m1 bp q n -> Forall (fun b => al b.1 /\ b.1 <> bp) B ->
  flist m B e -> flist m1 B e.
Proof. intros (_ & _ & H & _) HB. apply flist_ext. intros b Hb. rewrite Forall_forall in HB. by apply H; apply HB. Qed.

Lemma covers_cons b B x : covers (b :: B) x <-> b.1 <= x < stop_ b \/ covers B x.
Proof. unfold covers. set_solver. Qed.
Lemma covers_app B C x : covers (B ++ C) x <-> covers B x \/ covers C x.
Proof. unfold covers. set_solver. Qed.

Lemma join_next_spec B m tp bp n : flist m B base -> StronglySorted before B ->
  Forall (fun b => 0 < b.2 /\ al b.1 /\ stop_ b <= tp /\ bp + 16 * n <= b.1) B ->
  0 < base < bp -> tp < 2 ^ 32 -> al bp -> 0 < n -> bp + 16 * n <= tp -> hsize m bp = n ->
  exists n' B', let m1 := join_next m bp n (hd base B.*1) in
    header_at m m1 bp (hd base B'.*1) n' /\ B' ⊆ B /\ flist m1 B' base /\ StronglySorted before ((bp, n') :: B') /\ n <= n' /\ bp + 16 * n' <= tp /\
    (forall x, covers B x \/ bp <= x < bp + 16 * n <-> covers ((bp, n') :: B') x).
Proof.
  intros HL Hs HB Hb Htp Hbp Hn Hend Hsz. unfold join_next.
  assert (padd bp n = bp + 16 * n) as -> by (unfold padd, HDR; apply u64_small; lia).
  rewrite Forall_forall in HB. destruct B as [|[a k] B].
  { cbn [hd fmap list_fmap]. rewrite (proj2 (Z.eqb_neq _ _)) by lia. exists n, []. cbn zeta.
    pose proof (header_ptr m bp base Hbp ltac:(lia)) as Hh. rewrite Hsz in Hh.
    split_and!; try done; try lia; [repeat constructor|]. intros x. rewrite covers_cons. unfold stop_. cbn. tauto. }
  destruct (HB (a, k) ltac:(set_solver)) as (Hk & Ha & Hka & Hge). unfold stop_ in Hka. cbn [fst snd] in *.
  pose proof HL as HL0. destruct HL as (Hp & Hk' & HL). pose proof Hs as Hs0.
  apply StronglySorted_inv in Hs as [Hs Hak]. rewrite Forall_forall in Hak.
  cbn [hd fmap list_fmap fst snd] in *. destruct (Z.eqb_spec (bp + 16 * n) a) as [E|E].
  - rewrite Hk', u32_small by lia. exists (n + k), B. cbn zeta.
    pose proof (header_size m bp (n + k) Hbp ltac:(lia)) as Hh1. set (m' := put_hsize m bp (n + k)) in *.
    assert (hptr m' a = hd base B.*1) as Eq by (rewrite <- Hp; apply Hh1; [done|lia]).
    assert (0 <= hd base B.*1 < 2 ^ 32) as Hq.
    { destruct B as [|c B]; cbn; [lia|]. destruct (HB c ltac:(set_solver)) as (? & ? & H1 & H2). unfold stop_ in H1. lia. }
    rewrite Eq. pose proof (header_ptr m' bp _ Hbp Hq) as Hh2. rewrite (proj1 (proj2 Hh1)) in Hh2.
    pose proof (header_trans _ _ _ _ _ _ _ _ Hh1 Hh2) as Hh.
    split; [done|]. split; [set_solver|]. split.
    { eapply header_flist; [done| |done]. apply Forall_forall. intros c Hc. destruct (HB c ltac:(set_solver)) as (? & ? & ? & ?).
      split; [done|]. lia. }
    split; [|split; [lia|split; [lia|]]].
    + constructor; [done|]. apply Forall_forall. intros c Hc. specialize (Hak c Hc). unfold before, stop_ in *. cbn in *. lia.
    + intros x. rewrite !covers_cons. unfold stop_. cbn [fst snd]. assert (forall P : Prop, (a <= x < a + 16 * k \/ P) \/ bp <= x < bp + 16 * n <-> bp <= x < bp + 16 * (n + k) \/ P) as H; [|apply H].
      intros P. split; [intros [[?|?]|?]; [left; lia|tauto|left; lia]|intros [?|?]; [|tauto]].
      destruct (decide (x < a)); [right; lia|left; left; lia].
  - exists n, ((a, k) :: B). cbn zeta. pose proof (header_ptr m bp a Hbp ltac:(lia)) as Hh. rewrite Hsz in Hh.
    split; [done|]. split; [done|]. split.
    { eapply header_flist; [done| |done]. apply Forall_forall. intros c Hc. destruct (HB c Hc) as (? & ? & ? & ?).
      split; [done|]. lia. }
    split; [|split; [lia|split; [lia|]]].
    + constructor; [done|]. constructor; [unfold before, stop_; cbn; lia|]. apply Forall_forall. intros c Hc.
      specialize (Hak c Hc). unfold before, stop_ in *. cbn in *. lia.
    + intros x. rewrite (covers_cons (bp, n)). unfold stop_. cbn [fst snd]. tauto.
Qed.
(** The block below joined with what [join_next] left, in the list as in memory. *)
Lemma join_prev_spec A p B' m1 tp bp n' : flist m1 A p.1 -> hsize m1 p.1 = p.2 -> hptr m1 bp = hd base B'.*1 ->
  hsize m1 bp = n' -> flist m1 B' base -> Forall (fun b => al b.1 /\ 0 <= b.1 /\ b.1 < p.1) A ->
  Forall (fun b => al b.1 /\ bp < b.1 < 2 ^ 32) B' -> al p.1 -> al bp -> 0 <= p.1 < bp -> 0 <= p.2 -> 0 < n' -> stop_ p <= bp ->
  bp + 16 * n' <= tp -> tp < 2 ^ 32 -> 0 < base < bp ->
  exists R', (R' = A ++ p :: (bp, n') :: B' /\ stop_ p < bp \/ R' = A ++ (p.1, p.2 + n') :: B' /\ stop_ p = bp) /\
    flist (join_prev m1 bp p.1) R' base /\
    (forall x, x < p.1 \/ p.1 + 16 <= x -> ld8 (join_prev m1 bp p.1) x = ld8 m1 x).
Proof.
  intros HA Hpk Hq Hn HB HAal HBal Hpal Hbp Hpb Hp2 Hn0 Hstop Hend Htp Hbase. unfold join_prev. rewrite Hpk, Hn.
  assert (padd p.1 p.2 = stop_ p) as -> by (unfold padd, HDR, stop_ in *; apply u64_small; lia).
  assert (Forall (fun b => al b.1 /\ b.1 <> p.1) A) as HA'.
  { eapply Forall_impl; [exact HAal|]. intros b (? & ? & ?). split; [done|lia]. }
  assert (Forall (fun b => al b.1 /\ b.1 <> p.1) B') as HB'.
  { eapply Forall_impl; [exact HBal|]. intros b (? & ?). split; [done|lia]. }
  destruct (Z.eqb_spec (stop_ p) bp) as [E|E].
  - rewrite u32_small by (unfold stop_ in *; lia).
    pose proof (header_size m1 p.1 (p.2 + n') Hpal ltac:(unfold stop_ in *; lia)) as Hh1.
    set (m' := put_hsize m1 p.1 (p.2 + n')) in *. cbn zeta.
    assert (hptr m' bp = hd base B'.*1) as Eq by (rewrite <- Hq; apply Hh1; [done|lia]).
    assert (0 <= hd base B'.*1 < 2 ^ 32) as Hqr.
    { destruct B' as [|c B']; cbn; [lia|]. apply Forall_cons in HBal as [? _]. lia. }
    rewrite Eq. pose proof (header_ptr m' p.1 _ Hpal Hqr) as Hh2. rewrite (proj1 (proj2 Hh1)) in Hh2.
    pose proof (header_trans _ _ _ _ _ _ _ _ Hh1 Hh2) as Hh. eexists. split; [right; split; [done|done]|].
    split; [|apply Hh]. apply flist_app. split; [by eapply header_flist|].
    split; [apply Hh|]. split; [apply Hh|]. by eapply header_flist.
  - pose proof (header_ptr m1 p.1 bp Hpal ltac:(lia)) as Hh. rewrite Hpk in Hh.
    eexists. split; [left; split; [done|lia]|]. split; [|apply Hh].
    apply flist_app. split; [by eapply header_flist|]. split; [apply Hh|]. split; [apply Hh|].
    assert (hptr (put_hptr m1 p.1 bp) bp = hptr m1 bp /\ hsize (put_hptr m1 p.1 bp) bp = hsize m1 bp) as [E1 E2]
      by (apply Hh; [done|lia]).
    split; [cbn [fst]; congruence|]. split; [cbn [fst snd]; congruence|]. by eapply header_flist.
Qed.

(** The list with the freed block in it. *)
Lemma splice_ok L m tp A p B bp n n' B' R' : ring_ok L m tp -> (base, 0) :: L = A ++ p :: B ->
  Forall (fun b => stop_ b <= bp /\ b.1 < bp) (A ++ [p]) -> B' ⊆ B -> StronglySorted before ((bp, n') :: B') ->
  (R' = A ++ p :: (bp, n') :: B' /\ stop_ p < bp \/ R' = A ++ (p.1, p.2 + n') :: B' /\ stop_ p = bp) ->
  base < bp -> al bp -> 0 < n <= n' -> bp + 16 * n' <= tp ->
  exists L', R' = (base, 0) :: L' /\ StronglySorted before R' /\
    Forall (fun b => (0 < b.2 \/ b = (base, 0)) /\ al b.1 /\ stop_ b <= tp) R' /\
    p.1 ∈ base :: L'.*1 /\ (forall x, covers L' x <-> covers A x \/ covers [p] x \/ covers ((bp, n') :: B') x) /\
    (exists b, b ∈ L' /\ b.1 <= bp /\ bp + 16 * n <= stop_ b).
Proof.
  intros Hr ER HA HB' Hs' HR' Hb Hbp Hn Hend. rewrite Forall_forall in HA.
  pose proof (ro_sort _ _ _ Hr) as Hs. rewrite ER in Hs. pose proof Hs as Hs0.
  apply StronglySorted_app in Hs as (H12 & HsA & HsB). apply StronglySorted_inv in HsB as [_ HpB].
  apply StronglySorted_inv in Hs' as [HsB' HbB']. rewrite Forall_forall in HpB, HbB'.
  assert (forall b, b ∈ A ++ p :: B -> (0 < b.2 \/ b = (base, 0)) /\ al b.1 /\ stop_ b <= tp /\ 0 <= b.2) as Hel.
  { intros b Hin. rewrite <- ER in Hin. destruct (ring_elem L m tp Hr b Hin) as (_ & _ & ? & ? & ? & _).
    split; [|done]. apply elem_of_cons in Hin as [->|Hin]; [by right|left].
    by apply (proj1 (Forall_forall _ _) (ro_pos _ _ _ Hr)). }
  assert (exists L', R' = (base, 0) :: L') as [L' EL'].
  { destruct A as [|a A]; injection ER as <- _; [|destruct HR' as [[-> _]|[-> _]]; by eexists].
    destruct HR' as [[-> _]|[_ E]]; [by eexists|]. unfold stop_ in E. cbn in E. lia. }
  exists L'. split; [done|]. destruct (Hel p ltac:(set_solver)) as (_ & Hpal & _ & Hp2). rewrite EL'.
  assert (forall x, covers L' x <-> covers R' x) as Hcov.
  { intros x. rewrite EL', covers_cons. unfold stop_. cbn. split; [tauto|intros [?|?]; [lia|done]]. }
  assert (forall b, b ∈ R' -> b <> (base, 0) -> b ∈ L') as HinL by (rewrite EL'; set_solver).
  assert (p.1 ∈ R'.*1) as Hp1.
  { apply list_elem_of_fmap. destruct HR' as [[-> _]|[-> _]]; [exists p|exists (p.1, p.2 + n')]; (split; [done|set_solver]). }
  rewrite EL' in Hp1. rewrite <- EL'. split; [|split; [|split; [done|split]]]; destruct HR' as [[-> Hlt]|[-> Eq]].
  - apply StronglySorted_app_2; [|done|].
    + intros x y Hx [->|[->|Hy]%elem_of_cons]%elem_of_cons; [apply H12; set_solver| |apply H12; set_solver].
      assert (before x p) by (apply H12; set_solver). destruct (HA p ltac:(set_solver)). unfold before in *. cbn. lia.
    + constructor; [constructor; [done|by apply Forall_forall]|]. constructor; [done|].
      apply Forall_forall. intros y Hy. apply HpB, HB', Hy.
  - apply StronglySorted_app_2; [|done|].
    + intros x y Hx [->|Hy]%elem_of_cons; [apply (H12 x p); set_solver|apply H12; set_solver].
    + constructor; [done|]. apply Forall_forall. intros y Hy. specialize (HbB' y Hy).
      unfold before, stop_ in *. cbn in *. lia.
  - apply Forall_forall. intros b [Hx|[->|[->|Hx]%elem_of_cons]%elem_of_cons]%elem_of_app.
    1,2,4: by match goal with |- context [al (fst ?c)] => destruct (Hel c ltac:(set_solver)) as (? & ? & ? & ?) end.
    unfold stop_. cbn. split_and!; [left; lia|done|lia].
  - apply Forall_forall. intros b [Hx|[->|Hx]%elem_of_cons]%elem_of_app.
    1,3: destruct (Hel b ltac:(set_solver)) as (? & ? & ? & ?); done.
    unfold stop_ in *. cbn. split_and!; [left; lia|done|lia].
  - intros x. rewrite Hcov, covers_app, (covers_cons p), (covers_cons p []).
    assert (covers [] x <-> False) by (unfold covers; set_solver). tauto.
  - intros x. rewrite Hcov, covers_app, !covers_cons.
    assert (covers [] x <-> False) by (unfold covers; set_solver). unfold stop_ in *. cbn [fst snd] in *.
    assert (p.1 <= x < p.1 + 16 * (p.2 + n') <-> p.1 <= x < p.1 + 16 * p.2 \/ bp <= x < bp + 16 * n') by lia. tauto.
  - exists (bp, n'). split; [apply HinL; [set_solver|intros [= ? _]; lia]|]. unfold stop_. cbn. lia.
  - exists (p.1, p.2 + n'). split; [apply HinL; [set_solver|intros [= _ ?]; lia]|]. unfold stop_ in *. cbn. lia.
Qed.

Lemma free_spec L s bp n : heap_inv L s -> al bp -> 0 < n -> hsize (um s) bp = n -> base < bp ->
  bp + 16 * n <= top s -> Forall (fun b => stop_ b <= bp \/ bp + 16 * n <= b.1) L ->
  exists L' s', free (bp + 16) s = Ret tt s' /\ heap_inv L' s' /\ top s' = top s /\
    (forall x, covers L' x <-> covers L x \/ bp <= x < bp + 16 * n) /\
    (forall x, x < base \/ base + 16 <= x -> ~ covers L x -> x < bp \/ bp + 16 <= x -> ld8 (um s') x = ld8 (um s) x) /\
    (exists b, b ∈ L' /\ b.1 <= bp /\ bp + 16 * n <= stop_ b).
Proof.
  intros [Hr Hf] Hbp Hn Hsz Hb Hend Hdis. pose proof (ro_base _ _ _ Hr) as (Hb0 & Htp & Htpal).
  destruct (ring_around L (um s) (top s) Hr bp n Hb Hn Hdis) as (A & p & B & ER & HA & HB).
  assert (exists f, f ∈ (base, 0) :: L /\ f.1 = freep s) as (f & HfR & Ef).
  { apply (list_elem_of_fmap_1 fst ((base, 0) :: L)) in Hf as (f & -> & ?). by exists f. }
  pose proof (free_search L (um s) (top s) Hr bp n A p B s f eq_refl Hb Hn ER HA HB HfR) as Eloop. rewrite Ef in Eloop.
  pose proof (free_run s bp p.1 Eloop ltac:(lia)) as Erun.
  pose proof (ro_list _ _ _ Hr) as HL. destruct (flist_at _ _ _ _ _ _ HL ER) as [Eq Ek]. rewrite Eq, Hsz in Erun.
  rewrite ER in HL. apply flist_app in HL as [HLA (_ & _ & HLB)].
  assert (forall b, b ∈ A ++ p :: B -> 0 < b.1 /\ b.1 + 16 <= top s /\ 0 <= b.2 /\ stop_ b <= top s /\ al b.1) as Hel.
  { intros b Hin. rewrite <- ER in Hin. destruct (ring_elem L _ _ Hr b Hin) as (? & ? & ? & ? & ? & _). by split; [lia|]. }
  pose proof HA as HA'. rewrite Forall_forall in HA. pose proof HB as HB'. rewrite Forall_forall in HB.
  pose proof (ro_sort _ _ _ Hr) as Hs. rewrite ER in Hs.
  apply StronglySorted_app in Hs as (H12 & _ & HsB). apply StronglySorted_inv in HsB as [HsB _].
  destruct (join_next_spec B (um s) (top s) bp n HLB HsB) as (n' & B2 & Hh & Hsub & HL2 & Hs2 & Hn' & Hend' & Hcov);
    [|lia|lia|done..|].
  { apply Forall_forall. intros b Hin. destruct (Hel b ltac:(set_solver)) as (? & ? & ? & ? & ?). specialize (HB b Hin).
    split_and!; try done. assert (b ∈ (base, 0) :: L) as [->|Hin']%elem_of_cons by (rewrite ER; set_solver); [cbn in *; lia|].
    by apply (proj1 (Forall_forall _ _) (ro_pos _ _ _ Hr)). }
  set (m1 := join_next (um s) bp n (hd base B.*1)) in *. destruct Hh as (Hh1 & Hh2 & Hh3 & Hh4).
  destruct (Hel p ltac:(set_solver)) as (Hp0 & Hp1 & Hp2 & Hp3 & Hpal). destruct (HA p ltac:(set_solver)) as [Hpst Hplt].
  destruct (join_prev_spec A p B2 m1 (top s) bp n') as (R' & HR' & HL' & Hfr); try done; try lia.
  { eapply header_flist; [by split_and!| |done]. apply Forall_forall. intros b Hin.
    destruct (Hel b ltac:(set_solver)) as (? & ? & ? & ? & ?). destruct (HA b ltac:(set_solver)). split; [done|lia]. }
  { rewrite (proj2 (Hh3 p.1 Hpal ltac:(lia))). done. }
  { apply Forall_forall. intros b Hin. destruct (Hel b ltac:(set_solver)) as (? & ? & ? & ? & ?).
    assert (before b p) by (apply H12; set_solver). unfold before, stop_ in *. split; [done|lia]. }
  { apply Forall_forall. intros b Hin%Hsub. destruct (Hel b ltac:(set_solver)) as (? & ? & ? & ? & ?).
    specialize (HB b Hin). split; [done|]. lia. }
  destruct (splice_ok L (um s) (top s) A p B bp n n' B2 R' Hr ER HA' Hsub Hs2 HR' Hb Hbp ltac:(lia) Hend')
    as (L' & EL' & HsR & HRel & HpR & Hcov' & Hbig).
  eexists L', _. split; [exact Erun|]. split; [split; [by eapply ring_ok_intro|done]|]. split; [done|]. split.
  - intros x. rewrite Hcov', <- Hcov.
    assert (covers L x <-> covers ((base, 0) :: L) x) as -> by (rewrite covers_cons; unfold stop_; cbn; split; [tauto|intros [?|?]; [lia|done]]).
    rewrite ER, covers_app, !(covers_cons p).
    assert (covers [] x <-> False) by (unfold covers; set_solver). tauto.
  - split; [|done]. intros x Hx Hnc Hxbp. cbn [um]. rewrite Hfr; [by apply Hh4|].
    destruct (decide (p.1 <= x < p.1 + 16)) as [Hin|]; [|lia]. exfalso.
    assert (p ∈ (base, 0) :: L) as [->|HpL]%elem_of_cons by (rewrite ER; set_solver); [cbn in *; lia|].
    apply Hnc. exists p. split; [done|]. pose proof (proj1 (Forall_forall _ _) (ro_pos _ _ _ Hr) p HpL) as Hpp. cbn in Hpp.
    unfold stop_. lia.
Qed.
(** ** More memory *)

(** The heap with the memory above its old end added to it. *)
Definition grown (L : list block) (s : uproc) (L' : list block) (s' : uproc) : Prop :=
  heap_inv L' s' /\ top s <= top s' /\
  (forall x, covers L' x <-> covers L x \/ top s <= x < top s') /\
  (forall x, x < base \/ base + 16 <= x -> ~ covers L x -> x < top s -> ld8 (um s') x = ld8 (um s) x).

Lemma grown_refl L s : heap_inv L s -> grown L s L s.
Proof. intros H. split; [done|]. split; [lia|]. split; [|done]. intros x. split; [by left|intros [?|?]; [done|lia]]. Qed.

Lemma heap_extend L s m n : heap_inv L s -> 0 <= n -> al n -> top s + n < 2 ^ 32 ->
  (forall x, x < top s -> ld8 m x = ld8 (um s) x) -> heap_inv L (MkUproc m (freep s) (top s + n)).
Proof.
  intros [Hr Hf] Hn Han Ht Hm. split; [|done]. cbn [um top]. destruct (ro_base _ _ _ Hr) as (? & ? & Hat).
  pose proof (ring_elem L _ _ Hr) as Hel. destruct Hr as [H1 H2 H3 H4 H5 H6]. split; [|done|done|done| |].
  - eapply flist_ext; [|exact H1]. intros b Hb. destruct (Hel b Hb) as (? & ? & _).
    split; apply ldn_ext; intros i Hi; apply Hm; lia.
  - eapply Forall_impl; [exact H5|]. cbn. lia.
  - split; [done|]. split; [lia|]. unfold al in *. rewrite Z.add_mod, Hat, Han by lia. done.
Qed.

(** ** Taking a block off the list *)

(** The block of [n] units at [b] is no longer free. *)
Definition cut (L : list block) (s : uproc) (L' : list block) (s' : uproc) (b n : Z) : Prop :=
  heap_inv L' s' /\ top s' = top s /\ hsize (um s') b = n /\ al b /\ base < b /\ b + 16 * n <= top s /\
  (forall x, covers L x <-> covers L' x \/ b <= x < b + 16 * n) /\
  (forall x, covers L' x -> ~ b <= x < b + 16 * n) /\
  (forall x, x < base \/ base + 16 <= x -> ~ covers L x -> ld8 (um s') x = ld8 (um s) x).

Lemma covers_base L x : covers ((base, 0) :: L) x <-> covers L x.
Proof. rewrite covers_cons. unfold stop_. cbn. split; [intros [?|?]; [lia|done]|by right]. Qed.

(** A covered address in a sorted list lies in one block only. *)
Lemma covers_apart U b V x : StronglySorted before (U ++ b :: V) -> Forall (fun c => 0 <= c.2) (U ++ b :: V) ->
  b.1 <= x < stop_ b -> ~ covers (U ++ V) x.
Proof.
  intros Hs Hp Hx (c & Hc & Hcx). apply StronglySorted_app in Hs as (H1 & _ & H2).
  apply StronglySorted_inv in H2 as [_ H2]. rewrite Forall_forall in H2, Hp.
  apply elem_of_app in Hc as [Hc|Hc].
  - specialize (H1 c b Hc ltac:(set_solver)). unfold before in H1. lia.
  - specialize (H2 c Hc). unfold before in H2. lia.
Qed.

Lemma sorted_remove (A B : list block) x : StronglySorted before (A ++ x :: B) -> StronglySorted before (A ++ B).
Proof.
  intros (H1 & H2 & H3)%StronglySorted_app. apply StronglySorted_inv in H3 as [H3 _].
  apply StronglySorted_app_2; [|done|done]. intros y z Hy Hz. apply H1; set_solver.
Qed.

Lemma ring_forall L m tp b : ring_ok L m tp -> b ∈ (base, 0) :: L ->
  (0 < b.2 \/ b = (base, 0)) /\ al b.1 /\ stop_ b <= tp.
Proof.
  intros Hr Hin. destruct (ring_elem L m tp Hr b Hin) as (_ & _ & _ & ? & ? & _). split; [|done].
  apply elem_of_cons in Hin as [->|Hin]; [by right|left]. by apply (proj1 (Forall_forall _ _) (ro_pos _ _ _ Hr)).
Qed.

Lemma take_all L s U prev p k V : heap_inv L s -> (base, 0) :: L = U ++ prev :: (p, k) :: V -> 0 < k ->
  exists L', cut L s L' (MkUproc (put_hptr (um s) prev.1 (hptr (um s) p)) prev.1 (top s)) p k.
Proof.
  intros [Hr Hf] ER Hk. pose proof (ring_elem L _ _ Hr) as Hel. pose proof (ro_list _ _ _ Hr) as HL.
  assert ((base, 0) :: L = (U ++ [prev]) ++ (p, k) :: V) as ER2 by (by rewrite <- app_assoc).
  destruct (flist_at _ _ _ _ _ _ HL ER2) as [Eq Ek]. cbn [fst snd] in Eq, Ek. rewrite Eq.
  destruct (ro_base _ _ _ Hr) as (Hb & Ht & Hat).
  destruct (Hel (p, k)) as (Hp1 & Hp2 & _ & Hp3 & Hpal & Hpb); [rewrite ER; set_solver|].
  destruct (Hel prev) as (Hv1 & Hv2 & Hv0 & Hv3 & Hval & Hvb); [rewrite ER; set_solver|]. cbn [fst snd] in *.
  pose proof (ro_sort _ _ _ Hr) as Hs. rewrite ER in Hs.
  assert (Forall (fun c => 0 <= c.2) (U ++ prev :: (p, k) :: V)) as Hnn.
  { rewrite <- ER. apply Forall_forall. intros c Hc. by apply Hel. }
  assert (0 <= hd base V.*1 < 2 ^ 32) as Hq.
  { destruct V as [|c V]; cbn; [lia|]. destruct (Hel c) as (? & ? & _); [rewrite ER; set_solver|]. lia. }
  pose proof (header_ptr (um s) prev.1 _ Hval Hq) as Hh. set (m' := put_hptr (um s) prev.1 (hd base V.*1)) in *.
  assert (exists L', U ++ prev :: V = (base, 0) :: L') as [L' EL'] by (destruct U; injection ER as -> _; by eexists).
  assert (forall c, c ∈ U ++ V -> al c.1 /\ c.1 <> prev.1) as Hne.
  { intros c Hc. destruct (Hel c) as (_ & _ & ? & _ & ? & _); [rewrite ER; set_solver|]. split; [done|].
    apply StronglySorted_app in Hs as (H1 & _ & H2). apply StronglySorted_inv in H2 as [_ H2]. rewrite Forall_forall in H2.
    apply elem_of_app in Hc as [Hc|Hc]; [specialize (H1 c prev Hc ltac:(set_solver))|specialize (H2 c ltac:(set_solver))];
      unfold before, stop_ in *; lia. }
  pose proof (proj2 (flist_at _ _ _ _ _ _ HL ER)) as Epk. rewrite ER in HL. apply flist_app in HL as [HU (_ & _ & HV)].
  destruct HV as (_ & _ & HV). exists L'. unfold cut. cbn [um top].
  assert (before prev (p, k)) as Hvp.
  { apply StronglySorted_app_1_r, StronglySorted_inv in Hs as [_ Hs]. rewrite Forall_forall in Hs. apply Hs. set_solver. }
  unfold before, stop_ in Hvp. cbn [fst snd] in Hvp.
  assert (p <> prev.1) as Hpv by lia. destruct (proj1 (proj2 (proj2 Hh)) p Hpal Hpv) as [_ ->].
  assert (forall x, covers L x <-> covers L' x \/ p <= x < p + 16 * k) as Hcov.
  { intros x. rewrite <- (covers_base L), <- (covers_base L'), ER, <- EL', !covers_app, !covers_cons. unfold stop_. cbn. tauto. }
  split; [|split; [done|split; [done|split; [done|split; [lia|split; [exact Hp3|split; [exact Hcov|split]]]]]]].
  - split; [eapply ring_ok_intro; [exact EL'| | | |done]|].
    + apply flist_app. split; [eapply header_flist; [done| |done]|split; [apply Hh|split; [exact (eq_trans (proj1 (proj2 Hh)) Epk)|eapply header_flist; [done| |done]]]];
        apply Forall_forall; intros c Hc; apply Hne; set_solver.
    + replace (U ++ prev :: V) with ((U ++ [prev]) ++ V) by (by rewrite <- app_assoc).
      apply (sorted_remove _ _ (p, k)). by rewrite <- app_assoc.
    + apply Forall_forall. intros c Hc. apply (ring_forall L (um s) (top s)); [done|]. rewrite ER. set_solver.
    + cbn [freep]. change (base :: L'.*1) with (((base, 0) :: L').*1). rewrite <- EL', fmap_app. set_solver.
  - intros x Hx Hin. rewrite <- covers_base, <- EL' in Hx. revert Hx.
    replace (U ++ prev :: V) with ((U ++ [prev]) ++ V) by (by rewrite <- app_assoc).
    apply (covers_apart _ (p, k)); [by rewrite <- app_assoc..|]. unfold stop_. cbn. lia.
  - intros x Hx Hnc. apply Hh. destruct (decide (prev.1 <= x < prev.1 + 16)) as [Hin|]; [|lia]. exfalso.
    assert (prev ∈ (base, 0) :: L) as Hpr by (rewrite ER; set_solver).
    destruct (ring_forall L (um s) (top s) prev Hr Hpr) as ([Hpos|E] & _); [|rewrite E in Hin; cbn in Hin; lia].
    apply Hnc, covers_base. exists prev. split; [done|]. unfold stop_. lia.
Qed.
Lemma take_part L s U p k V n f : heap_inv L s -> (base, 0) :: L = U ++ (p, k) :: V -> 0 < n < k -> f ∈ base :: L.*1 ->
  let b := p + 16 * (k - n) in
  exists L', cut L s L' (MkUproc (put_hsize (put_hsize (um s) p (k - n)) b n) f (top s)) b n.
Proof.
  intros [Hr _] ER Hn Hf b. pose proof (ring_elem L _ _ Hr) as Hel. pose proof (ro_list _ _ _ Hr) as HL.
  destruct (flist_at _ _ _ _ _ _ HL ER) as [Eq Ek]. cbn [fst snd] in Eq, Ek.
  destruct (ro_base _ _ _ Hr) as (Hb & Ht & Hat).
  destruct (Hel (p, k)) as (Hp1 & Hp2 & _ & Hp3 & Hpal & Hpb); [rewrite ER; set_solver|]. unfold stop_ in Hp3. cbn [fst snd] in *.
  pose proof (ro_sort _ _ _ Hr) as Hs. rewrite ER in Hs. pose proof Hs as (H12 & HsU & HsV)%StronglySorted_app.
  apply StronglySorted_inv in HsV as [HsV HpV]. rewrite Forall_forall in HpV.
  assert (al b) as Hbal by by apply al_add.
  assert (exists L', U ++ (p, k - n) :: V = (base, 0) :: L') as [L' EL'].
  { destruct U; injection ER as E1 E2; [|rewrite <- E1; by eexists]. lia. }
  assert (forall c, c ∈ U ++ V -> al c.1 /\ (stop_ c < p \/ p + 16 * k < c.1) /\ 0 <= c.2) as Hne.
  { intros c Hc. destruct (Hel c) as (_ & _ & ? & _ & ? & _); [rewrite ER; set_solver|]. split; [done|]. split; [|done].
    apply elem_of_app in Hc as [Hc|Hc]; [left; exact (H12 c (p, k) Hc ltac:(set_solver))|right; exact (HpV c Hc)]. }
  pose proof (header_size (um s) p (k - n) Hpal ltac:(lia)) as Hh1. set (m1 := put_hsize (um s) p (k - n)) in *.
  pose proof (header_size m1 b n Hbal ltac:(lia)) as Hh2. set (m2 := put_hsize m1 b n) in *.
  assert (forall T e, T ⊆ U ++ V -> flist (um s) T e -> flist m2 T e) as HT.
  { intros T e HTs HTl. eapply header_flist; [exact Hh2| |eapply header_flist; [exact Hh1| |exact HTl]];
      apply Forall_forall; intros c Hc%HTs; destruct (Hne c Hc) as (? & Hx & ?); (split; [done|]); unfold b, stop_ in *; lia. }
  destruct (proj1 (proj2 (proj2 Hh2)) p Hpal ltac:(unfold b; lia)) as [Ep1 Ep2].
  assert (forall x, covers L x <-> covers L' x \/ b <= x < b + 16 * n) as Hcov.
  { intros x. rewrite <- (covers_base L), <- (covers_base L'), ER, <- EL', !covers_app, !covers_cons. unfold stop_, b. cbn.
    assert (p <= x < p + 16 * k <-> p <= x < p + 16 * (k - n) \/ p + 16 * (k - n) <= x < p + 16 * (k - n) + 16 * n) by lia. tauto. }
  exists L'. unfold cut. cbn [um top].
  split; [|split; [done|split; [apply Hh2|split; [done|split; [unfold b; lia|split; [unfold b; lia|split; [exact Hcov|split]]]]]]].
  - rewrite ER in HL. apply flist_app in HL as [HU (_ & _ & HV)].
    split; [eapply ring_ok_intro; [exact EL'| | | |done]|].
    + apply flist_app. split; [apply HT; [set_solver|done]|]. split; [|split; [|apply HT; [set_solver|done]]]; cbn [fst snd um].
      * rewrite Ep1, (proj1 Hh1). done.
      * rewrite Ep2. exact (proj1 (proj2 Hh1)).
    + apply StronglySorted_app_2; [|done|].
      * intros x y Hx [->|Hy]%elem_of_cons; [exact (H12 x (p, k) Hx ltac:(set_solver))|apply H12; set_solver].
      * constructor; [done|]. apply Forall_forall. intros y Hy. specialize (HpV y Hy). unfold before, stop_ in *. cbn in *. lia.
    + apply Forall_forall. intros c [Hc|[->|Hc]%elem_of_cons]%elem_of_app.
      1,3: apply (ring_forall L (um s) (top s)); [done|]; rewrite ER; set_solver.
      unfold stop_. cbn. split_and!; [left; lia|done|lia].
    + cbn [freep]. change (base :: L'.*1) with (((base, 0) :: L').*1). rewrite <- EL', fmap_app.
      change (base :: L.*1) with (((base, 0) :: L).*1) in Hf. rewrite ER, fmap_app in Hf. done.
  - intros x Hx Hin. rewrite <- covers_base, <- EL', covers_app, covers_cons in Hx. unfold stop_ in Hx. cbn [fst snd] in Hx.
    assert (~ covers (U ++ V) x) as Hno.
    { apply (covers_apart _ (p, k)); [done|rewrite <- ER; apply Forall_forall; intros c Hc; by apply Hel|].
      unfold stop_, b in *. cbn. lia. }
    rewrite covers_app in Hno. destruct Hx as [?|[?|?]]; [tauto|unfold b in *; lia|tauto].
  - intros x Hx Hnc. assert (~ (p <= x < p + 16 * k)) as Hout.
    { intros Hin. apply Hnc, covers_base. exists (p, k). split; [rewrite ER; set_solver|done]. }
    rewrite (proj2 (proj2 (proj2 Hh2))) by (unfold b; lia). apply Hh1. lia.
Qed.
(** ** The heap as its client sees it *)

(** [A] gives the size in units of each block handed out; [G] are the addresses
    the allocator has got from [sbrk].  Each of them is free or in one block. *)
Definition block_at (p n x : Z) : Prop := p - 16 <= x < p - 16 + 16 * n.

Record heap_ok (G : Z -> Prop) (A : gmap Z Z) (s : uproc) : Prop := {
  ho_list : exists L, (if decide (freep s = 0) then L = [] /\ A = ∅ /\
      0 < base /\ base + 16 <= top s < 2 ^ 32 /\ al (top s) /\ al base else heap_inv L s) /\
    (forall x, G x <-> covers L x \/ exists p n, A !! p = Some n /\ block_at p n x) /\
    (forall p n x, A !! p = Some n -> block_at p n x -> ~ covers L x);
  ho_blk : forall p n, A !! p = Some n -> al p /\ 0 < n /\ base < p - 16 /\ p - 16 + 16 * n <= top s /\
    hsize (um s) (p - 16) = n;
  ho_apart : forall p n q k x, A !! p = Some n -> A !! q = Some k -> block_at p n x -> block_at q k x -> p = q;
}.

(** The contents of the blocks handed out are the same. *)
Definition kept (A : gmap Z Z) (s s' : uproc) : Prop :=
  forall p n i, A !! p = Some n -> 0 <= i < 16 * (n - 1) -> ld8 (um s') (p + i) = ld8 (um s) (p + i).

Lemma hsize_ext m m' p : (forall x, p <= x < p + 16 -> ld8 m' x = ld8 m x) -> hsize m' p = hsize m p.
Proof. intros H. apply ldn_ext. intros i Hi. apply H. lia. Qed.

Lemma al_sub p : al p -> al (p - 16).
Proof. intros H. replace (p - 16) with (p + 16 * -1) by lia. by apply al_add. Qed.

Lemma freep_nonzero L s : heap_inv L s -> freep s <> 0.
Proof.
  intros [Hr Hf]. apply (list_elem_of_fmap_1 fst ((base, 0) :: L)) in Hf as (f & -> & Hf).
  destruct (ring_elem L _ _ Hr f Hf) as (? & _). destruct (ro_base _ _ _ Hr). lia.
Qed.

(** The state the loop of [malloc] starts in. *)
Definition started (s : uproc) : uproc :=
  if freep s =? 0 then MkUproc (put_hsize (put_hptr (um s) base base) base 0) base (top s) else s.

(** It has the heap the client sees, with the list in place. *)
Record heap_run (G : Z -> Prop) (A : gmap Z Z) (L : list block) (s : uproc) : Prop := {
  hr_inv : heap_inv L s;
  hr_cov : forall x, G x <-> covers L x \/ exists p n, A !! p = Some n /\ block_at p n x;
  hr_free : forall p n x, A !! p = Some n -> block_at p n x -> ~ covers L x;
  hr_blk : forall p n, A !! p = Some n -> al p /\ 0 < n /\ base < p - 16 /\ p - 16 + 16 * n <= top s /\
    hsize (um s) (p - 16) = n;
  hr_apart : forall p n q k x, A !! p = Some n -> A !! q = Some k -> block_at p n x -> block_at q k x -> p = q;
}.

Lemma heap_run_ok G A L s : heap_run G A L s -> heap_ok G A s.
Proof.
  intros [H1 H2 H3 H4 H5]. split; [|done|done]. exists L. rewrite decide_False by by eapply freep_nonzero. done.
Qed.

Lemma started_run G A s : heap_ok G A s -> exists L, heap_run G A L (started s) /\ top (started s) = top s /\ kept A s (started s).
Proof.
  intros [(L & HL & HG & Hdis) Hblk Hap]. exists L. unfold started.
  destruct (Z.eqb_spec (freep s) 0) as [E|E]; [|rewrite decide_False in HL by done; done].
  rewrite decide_True in HL by done. destruct HL as (-> & -> & Hb & Ht & Hat & Hba). split; [|done].
  split; [|done|done|intros p n Hp; by rewrite lookup_empty in Hp|done]. split; [|cbn [freep]; set_solver]. cbn [um top].
  split; [|repeat constructor|constructor|by repeat constructor|constructor|done].
  cbn [flist fst snd fmap list_fmap hd].
  rewrite hptr_put_hsize, hptr_put_hptr, decide_True, hsize_put_hsize, decide_True by (done || lia). done.
Qed.

(** An allocated block is not the header [base]. *)
Lemma block_base G A L s p n x : heap_run G A L s -> A !! p = Some n -> block_at p n x -> base + 16 <= x.
Proof.
  intros H Hp Hx. destruct (hr_blk _ _ _ _ H p n Hp) as (Hal & _ & Hb & _). destruct (hr_inv _ _ _ _ H) as [Hr _].
  pose proof (proj1 (Forall_forall _ _) (ro_al _ _ _ Hr) (base, 0) ltac:(set_solver)) as Hba.
  destruct (al_apart base (p - 16) Hba (al_sub _ Hal)); unfold block_at in *; lia.
Qed.

(** Blocks whose bytes have not changed are as they were. *)
Lemma blocks_kept G A L s s' : heap_run G A L s -> top s <= top s' ->
  (forall p n x, A !! p = Some n -> block_at p n x -> ld8 (um s') x = ld8 (um s) x) ->
  kept A s s' /\ forall p n, A !! p = Some n -> al p /\ 0 < n /\ base < p - 16 /\ p - 16 + 16 * n <= top s' /\
    hsize (um s') (p - 16) = n.
Proof.
  intros H Ht Hk. split.
  - intros p n i Hp Hi. apply (Hk p n); [done|]. unfold block_at. lia.
  - intros p n Hp. destruct (hr_blk _ _ _ _ H p n Hp) as (? & ? & ? & ? & Hs). split_and!; [done..|lia|].
    rewrite <- Hs. apply hsize_ext. intros x Hx. apply (Hk p n); [done|]. unfold block_at. lia.
Qed.

Lemma free_run_ok G A L s p n : heap_run G A L s -> A !! p = Some n ->
  exists L' s', free p s = Ret tt s' /\ heap_run G (delete p A) L' s' /\ top s' = top s /\ kept (delete p A) s s'.
Proof.
  intros H Hp. pose proof H as [HL HG Hdis Hblk Hap]. destruct (Hblk p n Hp) as (Hal & Hn & Hb & Hend & Hsz).
  assert (Forall (fun b => stop_ b <= p - 16 \/ p - 16 + 16 * n <= b.1) L) as Hd.
  { apply Forall_forall. intros b Hin. pose proof HL as [Hr _].
    pose proof (proj1 (Forall_forall _ _) (ro_pos _ _ _ Hr) b Hin) as Hpos. cbn in Hpos.
    destruct (decide (b.1 < p - 16 + 16 * n)) as [H1|]; [|lia]. destruct (decide (p - 16 < stop_ b)) as [H2|]; [|lia].
    exfalso. apply (Hdis p n (Z.max b.1 (p - 16)) Hp); [unfold block_at, stop_ in *; lia|].
    exists b. split; [done|]. unfold stop_ in *. lia. }
  destruct (free_spec L s (p - 16) n HL (al_sub _ Hal) Hn Hsz Hb Hend Hd) as (L' & s' & E & Hi & Ht & Hcov & Hfr & _).
  replace (p - 16 + 16) with p in E by lia.
  assert (heap_run (fun x => covers L x \/ exists q k, delete p A !! q = Some k /\ block_at q k x) (delete p A) L s) as H'.
  { split; [done|done| | |]; [intros q k x [_ Hq]%lookup_delete_Some; by apply Hdis|intros q k [_ Hq]%lookup_delete_Some; by apply Hblk|].
    intros q k q' k' x [_ Hq]%lookup_delete_Some [_ Hq']%lookup_delete_Some. by apply (Hap q k q' k'). }
  destruct (blocks_kept _ _ _ _ s' H' ltac:(lia)) as [Hkept Hblk'].
  { intros q k x Hq Hx. pose proof Hq as [Hne Hq']%lookup_delete_Some. apply Hfr.
    - right. by apply (block_base G A L s q k).
    - by apply (Hdis q k).
    - destruct (decide (p - 16 <= x < p - 16 + 16)) as [Hin|]; [|lia]. destruct Hne.
      apply (Hap p n q k x); [done|done| |done]. unfold block_at in *. lia. }
  exists L', s'. split; [done|]. split; [|done]. split; [done| | |done|exact (hr_apart _ _ _ _ H')].
  - intros x. rewrite HG, Hcov. split.
    + intros [?|(q & k & Hq & Hx)]; [tauto|]. destruct (decide (q = p)) as [->|Hne].
      * rewrite Hp in Hq. simplify_eq. left; right. exact Hx.
      * right. exists q, k. by rewrite lookup_delete_ne.
    + intros [[?|?]|(q & k & [_ Hq]%lookup_delete_Some & Hx)]; [tauto|right; by exists p, n|right; by exists q, k].
  - intros q k x [Hne Hq]%lookup_delete_Some Hx Hc. apply Hcov in Hc as [Hc|Hc]; [by apply (Hdis q k x)|].
    destruct Hne. by apply (Hap p n q k x).
Qed.

(** ** [malloc] *)

Context (sbrk : Z -> M uproc Z) `{!Sbrk sbrk}.

Lemma morecore_spec L s nu : heap_inv L s -> 0 < nu < 2 ^ 27 ->
  (morecore sbrk nu s = Ret 0 s /\ exists k, nu <= k /\ sbrk (k * 16) s = Ret (u64 (-1)) s) \/
  exists L' s', morecore sbrk nu s = Ret (freep s') s' /\ grown L s L' s' /\ exists b, b ∈ L' /\ nu <= b.2.
Proof using Sbrk0.
  intros Hi Hnu. pose proof Hi as [Hr Hf]. destruct (ro_base _ _ _ Hr) as (Hb & Ht & Hat). unfold morecore.
  set (k := if nu <? 4096 then 4096 else nu). assert (nu <= k < 2 ^ 27) as Hk.
  { unfold k. destruct (nu <? 4096) eqn:E; bdestr; lia. }
  unfold HDR. rewrite i32_small by lia.
  destruct (sbrk_grows (k * 16) s ltac:(lia)) as [E|(m & E & Htop & Hm)].
  { left. split; [|exists k; split; [lia|done]]. erewrite bind_Ret by exact E. by rewrite Z.eqb_refl. }
  right. erewrite bind_Ret by exact E.
  rewrite (proj2 (Z.eqb_neq (top s) (u64 (-1)))) by (unfold u64; change ((-1) mod 2 ^ 64) with (2 ^ 64 - 1); lia).
  assert (al (k * 16)) as Hak by (unfold al; by apply Z.mod_mul).
  set (m' := put_hsize m (top s) k). set (s1 := MkUproc m' (freep s) (top s + k * 16)).
  assert (heap_inv L s1) as Hi1.
  { apply heap_extend; [done|lia|done|lia|]. intros x Hx. unfold m'. rewrite ld8_put_hsize by lia. by apply Hm. }
  destruct (free_spec L s1 (top s) k Hi1 Hat) as (L' & s' & Ef & Hi' & Et & Hcov & Hfr & b & HbL & Hb1 & Hb2).
  { lia. }
  { unfold s1, m'. cbn [um]. rewrite hsize_put_hsize, decide_True by (done || lia). done. }
  { lia. }
  { unfold s1. cbn [top]. lia. }
  { eapply Forall_impl; [exact (ro_top _ _ _ Hr)|]. cbn. intros; by left. }
  exists L', s'. split.
  { erewrite bind_Ret by reflexivity. change (set_um _ _) with s1.
    assert (padd (top s) 1 = top s + 16) as -> by (unfold padd, HDR; rewrite u64_small; lia).
    erewrite bind_Ret by exact Ef. done. }
  cbn [top s1] in Et. split; [|exists b; split; [done|unfold stop_ in *; lia]].
  split; [done|]. split; [lia|]. split; [intros x; rewrite Hcov, Et; by rewrite (Z.mul_comm k 16)|].
  intros x Hx Hnc Hxt. rewrite Hfr by (done || lia). unfold s1, m'. cbn [um]. rewrite ld8_put_hsize by lia. by apply Hm.
Qed.
Lemma malloc_step L s prev n : heap_inv L s -> prev ∈ (base, 0) :: L -> 0 < n < 2 ^ 32 ->
  let p := hptr (um s) prev.1 in exists x, x ∈ (base, 0) :: L /\ x.1 = p /\
    (n <= x.2 -> exists b L' s', malloc_body sbrk n (prev.1, p) s = Ret (inr (b + 16)) s' /\ cut L s L' s' b n) /\
    (x.2 < n -> p <> freep s -> malloc_body sbrk n (prev.1, p) s = Ret (inl (p, hptr (um s) p)) s) /\
    (x.2 < n -> p = freep s -> forall p' s', morecore sbrk n s = Ret p' s' -> malloc_body sbrk n (prev.1, p) s =
       if p' =? 0 then Ret (inr 0) s' else Ret (inl (p', hptr (um s') p')) s').
Proof.
  intros Hi Hprev Hn p. pose proof Hi as [Hr Hf]. pose proof (ro_list _ _ _ Hr) as HL.
  destruct (ring_split L _ _ Hr prev Hprev) as (U & W & ER & _ & _ & Ep & _). fold p in Ep.
  assert (exists x, x ∈ (base, 0) :: L /\ x.1 = p /\ (0 < x.2 -> exists V, W = x :: V)) as (x & HxR & Ex & HW).
  { destruct W as [|x V]; [exists (base, 0)|exists x; rewrite ER]; (split; [set_solver|split; [done|]]).
    - cbn. lia.
    - intros _. by exists V. }
  exists x. split; [done|]. split; [done|].
  destruct (ring_split L _ _ Hr x HxR) as (_ & _ & _ & _ & _ & _ & Hsz). rewrite Ex in Hsz.
  destruct (ring_elem L _ _ Hr x HxR) as (Hx1 & Hx2 & Hx3 & Hx4 & Hxal & _). rewrite Ex in *.
  destruct (ro_base _ _ _ Hr) as (Hb & Ht & _).
  unfold malloc_body. erewrite bind_Ret by reflexivity. rewrite Hsz. split; [|split].
  - intros Hle. rewrite (proj2 (Z.leb_le _ _) Hle). destruct (HW ltac:(lia)) as [V ->].
    destruct x as [x1 k]. cbn [fst snd] in *. subst x1. unfold stop_ in Hx4. cbn [fst snd] in Hx4.
    destruct (Z.eqb_spec k n) as [->|Hne].
    + destruct (take_all L s U prev p n V Hi ER ltac:(lia)) as (L' & Hcut). eexists p, L', _. split; [|exact Hcut].
      cbn [bindr bind set_ptr ptr_of gets modify set_freep um top set_um freep ret]. f_equal. f_equal.
      unfold padd, HDR. rewrite u64_small; lia.
    + assert ((base, 0) :: L = (U ++ [prev]) ++ (p, k) :: V) as ER2 by (by rewrite <- app_assoc).
      destruct (take_part L s (U ++ [prev]) p k V n prev.1 Hi ER2 ltac:(lia)) as (L' & Hcut).
      { change (base :: L.*1) with (((base, 0) :: L).*1). by apply (list_elem_of_fmap_2 fst). }
      eexists _, L', _. split; [|exact Hcut]. cbn [bindr bind set_size modify size_of gets ret um set_um].
      rewrite u32_small, hsize_put_hsize, decide_True by (done || lia).
      assert (padd p (k - n) = p + 16 * (k - n)) as -> by (unfold padd, HDR; rewrite u64_small; lia).
      cbn [bindr modify set_freep um top set_um freep ret]. f_equal. f_equal. unfold padd, HDR. rewrite u64_small; lia.
  - intros Hlt Hnf. rewrite (proj2 (Z.leb_gt _ _) Hlt). erewrite bind_Ret by reflexivity.
    by rewrite (proj2 (Z.eqb_neq _ _) Hnf).
  - intros Hlt Hpf p' s' Em. rewrite (proj2 (Z.leb_gt _ _) Hlt). erewrite bind_Ret by reflexivity.
    rewrite (proj2 (Z.eqb_eq _ _) Hpf). erewrite bind_Ret by exact Em. by destruct (p' =? 0).
Qed.
(** What [malloc] does to the list: nothing, when [sbrk] refuses, or it takes a
    block, after getting more memory if it has to. *)
Definition got (L : list block) (s : uproc) (n r : Z) (s' : uproc) : Prop :=
  (r = 0 /\ s' = s /\ exists k, n <= k /\ sbrk (k * 16) s = Ret (u64 (-1)) s) \/
  (exists L1 s1 b L', grown L s L1 s1 /\ cut L1 s1 L' s' b n /\ r = b + 16).

(** On the way: the first time round to [freep], or, with new memory, to a
    block that is big enough. *)
Definition searching (L : list block) (s : uproc) (n : Z) (k : nat) (a : Z * Z) (s1 : uproc) : Prop :=
  exists L1 prev T z, a = (prev.1, hptr (um s1) prev.1) /\ prev ∈ (base, 0) :: L1 /\ grown L s L1 s1 /\
    hd z T.*1 = hptr (um s1) prev.1 /\ flist (um s1) T z /\
    (forall b, b ∈ T -> b ∈ (base, 0) :: L1 /\ b.1 <> freep s1) /\
    ((s1 = s /\ L1 = L /\ z = freep s /\ Z.of_nat k = Z.of_nat (length T) + 2 ^ 32 + 1) \/
     (Z.of_nat k = Z.of_nat (length T) /\ exists zb, zb ∈ (base, 0) :: L1 /\ zb.1 = z /\ n <= zb.2)).

Lemma malloc_loop_step L s n k a s1 : 0 < n < 2 ^ 27 -> searching L s n k a s1 ->
  runs (fun r s' => match r with
    | inl a' => exists k', (k' < k)%nat /\ searching L s n k' a' s' | inr r => got L s n r s' end)
    (malloc_body sbrk n a s1).
Proof using Sbrk0.
  intros Hn (L1 & prev & T & z & -> & Hprev & Hg & Hhd & HT & Hin & Hph). pose proof Hg as (Hi & _). pose proof Hi as [Hr Hf].
  destruct (malloc_step L1 s1 prev n Hi Hprev ltac:(lia)) as (x & HxR & Ex & Htake & Hnext & Hmore).
  destruct (decide (n <= x.2)) as [Hle|Hgt].
  { destruct (Htake Hle) as (b & L' & s' & -> & Hcut). right. by exists L1, s1, b, L'. }
  assert (x.2 < n) as Hlt by lia. destruct T as [|b T].
  - cbn [hd fmap list_fmap] in Hhd. destruct Hph as [(-> & -> & -> & Hk)|(_ & zb & Hzb & Ez & Hzn)].
    2: { assert (x = zb) as -> by (eapply ring_same; [done..|congruence]). lia. }
    specialize (Hmore Hlt (eq_sym Hhd)). destruct (morecore_spec L s n Hi ltac:(lia)) as [[E Hno]|(L' & s' & E & Hg' & b & HbL & Hbn)].
    { rewrite (Hmore _ _ E). by left. }
    rewrite (Hmore _ _ E). pose proof Hg' as ([Hr' Hf'] & _).
    apply (list_elem_of_fmap_1 fst ((base, 0) :: L')) in Hf' as (f' & Ef' & Hf').
    destruct (ring_elem L' _ _ Hr' f' Hf') as (? & _). destruct (ro_base _ _ _ Hr') as (? & _).
    rewrite (proj2 (Z.eqb_neq (freep s') 0)) by lia.
    destruct (ring_path L' _ _ Hr' f' b Hf' ltac:(set_solver)) as (T & HT' & Hhd' & HinT & Hlen).
    pose proof (ring_length L' _ _ Hr') as Hrl. exists (length T). split; [cbn in Hk; lia|].
    exists L', f', T, b.1. split; [by rewrite Ef'|]. split; [done|]. split; [done|]. split; [done|]. split; [done|].
    split; [intros c Hc; destruct (HinT c Hc) as (? & ? & _); by rewrite Ef'|]. right. split; [done|].
    exists b. split; [set_solver|done].
  - cbn [hd fmap list_fmap] in Hhd. destruct HT as (Hb & _ & HT). destruct (Hin b ltac:(set_solver)) as [HbR Hbf].
    rewrite Hhd in Hbf. rewrite (Hnext Hlt Hbf). exists (pred k). split; [cbn in Hph; destruct Hph as [Hph|Hph]; lia|].
    exists L1, b, T, z. rewrite <- Hhd. split; [done|]. split; [done|]. split; [done|]. split; [done|]. split; [done|].
    split; [intros c Hc; apply Hin; set_solver|]. cbn in Hph.
    destruct Hph as [(? & ? & ? & ?)|(? & ?)]; [left|right]; split_and!; try done; lia.
Qed.

Lemma malloc_loop L s n : heap_inv L s -> 0 < n < 2 ^ 27 ->
  runs (got L s n) (loop (malloc_body sbrk n) (freep s, hptr (um s) (freep s)) s).
Proof using Sbrk0.
  intros Hi Hn. pose proof Hi as [Hr Hf]. apply (list_elem_of_fmap_1 fst ((base, 0) :: L)) in Hf as (f & Ef & Hf).
  destruct (ring_path L _ _ Hr f f Hf Hf) as (T & HT & Hhd & Hin & Hlen). pose proof (ring_length L _ _ Hr) as Hrl.
  apply (runs_loop _ (searching L s n) _ (length T + Z.to_nat (2 ^ 32) + 1)); [intros; by apply malloc_loop_step| |lia].
  exists L, f, T, f.1. rewrite Ef. split; [done|]. split; [done|]. split; [by apply grown_refl|]. split; [done|].
  split; [done|]. split; [intros b Hb; destruct (Hin b Hb) as (? & ? & _); done|]. left. split_and!; [done..|lia].
Qed.
Lemma malloc_run nbytes s : malloc sbrk base nbytes s =
  loop (malloc_body sbrk (units nbytes)) (freep (started s), hptr (um (started s)) (freep (started s))) (started s).
Proof. unfold malloc, started, gets, modify, set_ptr, set_size, ptr_of, bind. cbn. by destruct (freep s =? 0). Qed.

Lemma malloc_run_ok G A L s n : heap_run G A L s -> 0 < n < 2 ^ 27 ->
  exists r s', loop (malloc_body sbrk n) (freep s, hptr (um s) (freep s)) s = Ret r s' /\ kept A s s' /\
    ((r = 0 /\ s' = s /\ exists k, n <= k /\ sbrk (k * 16) s = Ret (u64 (-1)) s) \/
     (A !! r = None /\ r <> 0 /\ exists L', heap_run (fun x => G x \/ top s <= x < top s') (<[r := n]> A) L' s')).
Proof using Sbrk0.
  intros H Hn. pose proof H as [HL HG Hdis Hblk Hap].
  destruct (proj1 (runs_ret _ _) (malloc_loop L s n HL Hn)) as (r & s' & E & Hgot). exists r, s'. split; [done|].
  destruct Hgot as [Hno|(L1 & s1 & b & L' & Hgr & Hcut & ->)]; [split; [by destruct Hno as (_ & -> & _)|by left]|].
  destruct Hgr as (Hi1 & Ht1 & Hcov1 & Hfr1). destruct Hcut as (Hi & Ht & Hsz & Hbal & Hb & Hend & Hcov & Hdj & Hfr).
  assert (forall p k x, A !! p = Some k -> block_at p k x -> ~ covers L1 x) as Hout.
  { intros p k x Hp Hx. rewrite Hcov1. destruct (Hblk p k Hp) as (_ & _ & _ & ? & _).
    intros [Hc|Hc]; [by apply (Hdis p k x)|unfold block_at in Hx; lia]. }
  destruct (blocks_kept _ _ _ _ s' H ltac:(lia)) as [Hkept Hblk'].
  { intros p k x Hp Hx. pose proof (block_base _ _ _ _ _ _ _ H Hp Hx). destruct (Hblk p k Hp) as (_ & _ & _ & ? & _).
    rewrite Hfr by (lia || by apply (Hout p k)). apply Hfr1; [lia|by apply (Hdis p k)|unfold block_at in Hx; lia]. }
  assert (forall x, block_at (b + 16) n x <-> b <= x < b + 16 * n) as Hnew by (intros; unfold block_at; lia).
  assert (A !! (b + 16) = None) as Hfresh.
  { destruct (A !! (b + 16)) as [k|] eqn:Eb; [|done]. exfalso. apply (Hout _ k b Eb).
    - destruct (Hblk _ k Eb) as (_ & ? & _). unfold block_at. lia.
    - apply Hcov. right. lia. }
  split; [done|]. right. split; [done|]. destruct Hi as [Hr Hf]. destruct (ro_base _ _ _ Hr) as (? & _). split; [lia|].
  exists L'. split; [done| | | |].
  - intros x. rewrite HG, Ht. specialize (Hcov1 x). specialize (Hcov x). split.
    + intros [[?|(p & k & Hp & Hx)]|?]; [|right; exists p, k; split; [rewrite lookup_insert_ne by congruence; done|done]|];
        (destruct (proj1 Hcov) as [?|?]; [tauto|by left|right; exists (b + 16), n; rewrite lookup_insert_eq, Hnew; done]).
    + intros [?|(p & k & Hp & Hx)]; [tauto|]. apply lookup_insert_Some in Hp as [[<- <-]|[? ?]]; [apply Hnew in Hx; tauto|].
      left; right. by exists p, k.
  - intros p k x [[<- <-]|[_ Hp]]%lookup_insert_Some Hx Hc; [apply (Hdj x); [done|by apply Hnew]|].
    apply (Hout p k x); [done..|]. apply Hcov. by left.
  - intros p k [[<- <-]|[_ Hp]]%lookup_insert_Some; [|by apply Hblk']. replace (b + 16 - 16) with b by lia.
    replace (b + 16) with (b + 16 * 1) by lia. split_and!; [by apply al_add|lia|lia|lia|done].
  - assert (forall p k x, A !! p = Some k -> block_at p k x -> block_at (b + 16) n x -> False) as Hno.
    { intros p k x Hp Hx Hx'%Hnew. apply (Hout p k x); [done..|]. apply Hcov. by right. }
    intros p k q l x [[<- <-]|[_ Hp]]%lookup_insert_Some [[<- <-]|[_ Hq]]%lookup_insert_Some Hx Hx'; [done| | |by eapply Hap];
      exfalso; by eapply Hno.
Qed.

End heap.

Lemma units_bounds nbytes : 0 <= nbytes < 2 ^ 31 - 64 ->
  0 < units nbytes < 2 ^ 27 /\ nbytes <= 16 * (units nbytes - 1) < nbytes + 16.
Proof.
  intros H. unfold units, HDR. pose proof (Z_div_mod_eq_full (nbytes + 16 - 1) 16) as E.
  pose proof (Z.mod_pos_bound (nbytes + 16 - 1) 16 ltac:(lia)). rewrite u32_small by lia. lia.
Qed.

(** C20: the memory allocator of user programs.  [heap_ok G A s] says that the
    allocator has handed out the blocks [A], which do not overlap, and that every
    byte it has got from [sbrk] is in one of them or in its list of free
    blocks, which is in the order of addresses and has no two blocks that touch.
    [malloc] returns: either 0, when [sbrk] has refused, with nothing changed,
    or a new block, aligned and large enough, that overlaps no other.  [free] of
    a block returns and takes it back.  Neither changes the contents of any
    other block handed out, and neither loses memory. *)
Theorem umalloc_correct base sbrk `{!Sbrk sbrk} G A s : heap_ok base G A s ->
  (forall nbytes, 0 <= nbytes < 2 ^ 31 - 64 -> exists r s', malloc sbrk base nbytes s = Ret r s' /\ kept A s s' /\
     ((r = 0 /\ heap_ok base G A s' /\ top s' = top s /\
        exists s0 k, top s0 = top s /\ nbytes < k * 16 /\ sbrk (k * 16) s0 = Ret (u64 (-1)) s0) \/
      (A !! r = None /\ r <> 0 /\ nbytes <= 16 * (units nbytes - 1) /\
       heap_ok base (fun x => G x \/ top s <= x < top s') (<[r := units nbytes]> A) s'))) /\
  (forall p n, A !! p = Some n -> exists s', free p s = Ret tt s' /\ heap_ok base G (delete p A) s' /\
     top s' = top s /\ kept (delete p A) s s').
Proof.
  intros H. destruct (started_run base G A s H) as (L & Hrun & Ht & Hk). split.
  - intros nbytes Hnb. destruct (units_bounds nbytes Hnb) as [Hu Hfit].
    destruct (malloc_run_ok base sbrk G A L _ (units nbytes) Hrun Hu) as (r & s' & E & Hk' & Hres).
    exists r, s'. split; [by rewrite malloc_run|]. split.
    { intros p n i Hp Hi. rewrite (Hk' p n i Hp Hi). by apply (Hk p n i). }
    destruct Hres as [(-> & -> & k & Hge & Hno)|(Hfresh & Hr & L' & Hrun')].
    + left. split; [done|]. split; [by eapply heap_run_ok|]. split; [done|]. eexists _, k. split; [exact Ht|].
      split; [lia|exact Hno].
    + right. split; [done|]. split; [done|]. split; [lia|]. rewrite <- Ht. by eapply heap_run_ok.
  - intros p n Hp. assert (started base s = s) as Es.
    { unfold started. destruct (Z.eqb_spec (freep s) 0) as [E|]; [|done].
      destruct (ho_list _ _ _ _ H) as (? & HL & _). rewrite decide_True in HL by done.
      destruct HL as (_ & -> & _). by rewrite lookup_empty in Hp. }
    rewrite Es in Hrun. destruct (free_run_ok base G A L s p n Hrun Hp) as (L' & s' & E & Hrun' & Ht' & Hk').
    exists s'. split; [done|]. split; [by eapply heap_run_ok|done].
Qed.

(** An [sbrk] with memory up to 64 KB. *)
Definition demo_sbrk (n : Z) : M uproc Z := fun s =>
  if top s + n <=? 0x10000 then Ret (top s) (MkUproc (um s) (freep s) (top s + n)) else Ret (u64 (-1)) s.

Lemma demo_sbrk_grows : Sbrk demo_sbrk.
Proof.
  intros n s Hn. unfold demo_sbrk. destruct (top s + n <=? 0x10000) eqn:E; [|by left]. apply Z.leb_le in E.
  right. exists (um s). split; [done|]. split; [lia|done].
Qed.

Definition demo_heap : uproc := MkUproc ∅ 0 0x2000.

Lemma umalloc_correct_witness : exists r s1, malloc demo_sbrk 0x1000 100 demo_heap = Ret r s1 /\
  heap_ok 0x1000 (fun _ => False) ∅ demo_heap /\ kept ∅ demo_heap s1.
Proof.
  assert (heap_ok 0x1000 (fun _ => False) ∅ demo_heap) as H.
  { split; [exists []|intros p n Hp; by rewrite lookup_empty in Hp|intros p n q k x Hp; by rewrite lookup_empty in Hp].
    rewrite decide_True by reflexivity. split; [by split_and!|]. split; [|intros p n x Hp; by rewrite lookup_empty in Hp].
    intros x. split; [done|]. intros [(b & Hb & _)|(p & n & Hp & _)]; [by apply elem_of_nil in Hb|by rewrite lookup_empty in Hp]. }
  destruct (proj1 (@umalloc_correct 0x1000 demo_sbrk demo_sbrk_grows _ _ _ H) 100 ltac:(lia)) as (r & s1 & E & Hk & _).
  exists r, s1. split; [exact E|]. split; [exact H|exact Hk].
Defined.
